(* ===== verification/_CoqProject ===== *)
-Q . S2P
Prelude.v
NASTypes.v
NASIe.v
NASDec.v
NASEnc.v
EIA2.v
NASSec.v
GTP.v
MMEUtils.v
Timer.v
Subs.v
Session.v
S11Peer.v
S11User.v
S11FSM.v
S11Rsp.v
S11Req.v
S11.v
EMMCtx.v
EMM.v
EMMFSM.v
EMMInv.v
EMMSec.v
EMMTimers.v
PER.v
PERBits.v
PERRead.v
PERCodec.v
S1APTypes.v
S1APEnc.v
S1APDec.v
S1APTerm.v
S1APWf.v
S1APCodec.v
S1APValue.v
S1AP.v
S1Msg.v
S1Stack.v
S1Safe.v
Shutdown.v
NodeMgr.v
S1EMM.v
FIPS180.v
SHA2.v
HMAC.v
AES.v
Milenage.v
HSS.v
Console.v
ESM.v
ESMSafe.v
