(* ===== verification/Prelude.v ===== *)
(** * AaltoMME: a verification of an LTE mobility management entity

    AaltoMME is the control-plane node of an LTE network.  Towards the base
    stations (eNB) it speaks S1AP over SCTP (library src/S1AP), which carries the
    NAS messages of the terminals (library src/NAS); towards the serving gateway
    it speaks GTPv2-C over UDP (library src/libgtp, stack src/mme/S11); the
    subscriber data come from an HSS (src/mme/S6a).  src/mme/S1 keeps the eNB
    associations and the mobility (EMM) and session (ESM) management of the
    terminals, and src/Common/timermgr.c their timers.

    ** What models what

    - [Prelude]: C integers with their wrap-around, undefined behaviour as a
      value ([outcome]), reads and writes of memory with bounds, the tactics and
      the lemmas on octets and bits that all files share.
    - [NASTypes], [NASIe], [NASDec], [NASEnc]: the NAS library.  Enumerations of
      NASConstants.h; the element writers of StandardIeSchemas.c as functions on
      an output buffer with a cursor, with the class [Writes] as their interface;
      the decoders of NASMessages.c and NAS.c; the plain encoders of NAS.c.
    - [EIA2]: eia2.c, eia0.c and eea0.c.  The block cipher of OpenSSL is a
      parameter (class [EVP], with its CBC behaviour as the law [EVP_CBC]).
    - [NASSec]: the security context of NAS.c.  HMAC-SHA256 is a parameter: NAS.c
      calls the one of OpenSSL.
    - [GTP]: gtp.c and gtpie.c.  [MMEUtils]: MMEutils.c.  [Timer]: timermgr.c,
      with libevent as the sequence of expirations.
    - [Subs]: Subscription.c.  [Session]: ESM_BearerContext.c and EPS_Session.c.
    - [S11Peer], [S11User], [S11FSM], [S11Rsp], [S11Req], [S11]: the S11 stack.
      The peers with their restart counters, a session with its transactions on
      a heap and the six states of its machine (one linkXxx per state file), what
      messages do to a session, the requests that are sent, and the whole stack
      (MME_S11.c) as a step relation on sessions, peers and datagrams.
    - [PER], [PERBits], [PERRead], [PERCodec]: rt_per_bin.c, in a state and error
      monad on [struct BinaryData]; the theory of bit sequences; the relation
      [Codec] between a writer and a reader and its combinators.
    - [S1APTypes], [S1APEnc], [S1APDec], [S1APTerm], [S1APWf], [S1APCodec],
      [S1APValue], [S1AP]: the structures, constructors and access functions of
      S1AP_IE.c, Containers.c, S1AP_PDU.c and S1AP.c; the encoders of
      S1AP_IEenc.c and the decoders of S1AP_IEdec.c with their tables; the
      messages on which the two agree; the proofs for the parts, for the values
      and for whole messages.
    - [EMMCtx], [EMM], [EMMFSM], [EMMInv], [EMMSec], [EMMTimers]: the mobility
      management of src/mme/S1/NAS.  The context with its timers and the requests
      to the HSS (EMMCtx.c, EMM_Timers.c, MME_S6a.c), the operations of NAS_EMM.c,
      the handlers of the five states (one linkXxx per state file) and the events
      of a context; in a monad on the context, whose messages to the eNB and to
      ESM are recorded; then its invariants, the abstract machine it refines and
      its timers.
    - [ESM], [ESMSafe]: the session management of a terminal (NAS_ESM.c, the state
      files ESM_*.c, ESM_FSMConfig.c).  EPS sessions, bearers and the S11 sessions
      they hold are objects on heaps that are freed where the code frees them; the
      order of a hash table is the class [HashOrder]; the gateway is the abstract
      machine of [S11FSM].  [ESMSafe] has the invariant and a calculus of weakest
      preconditions in which every operation is shown to keep it.
    - [S1Msg], [S1Stack], [S1Safe], [Shutdown], [S1EMM]: the S1 stack of src/mme/S1
      and the tables of MME.c.  The messages the MME builds; associations, connections
      and contexts as objects on heaps that are freed where the code frees them,
      with the hash tables that point to them, the handlers of the states, the
      callbacks and the events; the invariant of the tables; the release of the
      interface at the end ([s1_free]); and the stack with the mobility management
      put in place of its interface [EMM_ops].
    - [NodeMgr]: nodemgr.c and the start of the interfaces in MME.c.  The parsed
      configuration file is the class [Config] (libconfig); src/mme.cfg is an
      instance.
    - [SHA2], [HMAC], [AES], [Milenage]: the cryptography of src/mme/S6a: sha2.c,
      hmac_sha2.c (whose contexts are values: a context, an output, a next
      context), aes.c with its tables, milenage.c.  Next to each stands what the
      standard says: FIPS 180-4 (in [FIPS180], which takes nothing from the
      source), RFC 2104, FIPS 197, TS 35.206.
    - [HSS]: HSS.c.  The data base is the interface [SQL], the octets of
      /dev/urandom an argument; the statements of the source on the tables of
      src/mme are the instance [table_sql].
    - [Console]: commands.c and logmgr.c; libevent's buffer is the octets that
      arrived.

    Definitions keep the names of the source.  A function of the source that can
    read or write outside of an object, use a null, wild or freed pointer, or
    abort, returns [outcome]; a theorem that it returns [Ok] excludes all that.

    ** What the theorems show

    - NAS security: a protected message is accepted by the peer and decoded to
      what was sent, and a message that was accepted is not accepted again at once;
      the COUNT values of accepted messages increase over any run, as long as the
      greatest, 2^24 - 1, has not been used (after it the counter starts again);
      the handler refines a security context as TS 33.401 describes it; [eia2] is
      the CMAC of NIST SP 800-38B for any cipher.
    - Codecs: what the NAS, GTP and S1AP encoders write, the decoders read back;
      what the decapsulation of GTP and the decoder of optional NAS elements do is
      given for any memory and any length, with the inputs on which they read
      outside of it; S1AP decoding ends on any input.
    - Timers: in every reachable state the manager is consistent, and a timer
      fires as often as it should.
    - S11: the handlers refine an abstract state machine; every request is
      answered by one callback; sessions and peers agree in every reachable state
      for any datagrams; restarts of a gateway are detected exactly.
    - Mobility management: an active security context implies that the terminal
      answered the challenge of a vector and that a message was verified under
      its keys; the handlers refine an abstract machine; keys are derived from
      K_ASME, and timers are consistent in every reachable state, where one
      expiration (the last of T3470) uses a freed context and no other does.
    - S1 stack: as long as none of a few named incidents happens, the tables agree
      with the objects and nothing is used after it was freed, for any octets of
      any eNBs and any behaviour above; an uplink message reaches exactly the
      context of its connection; what is sent is found by the eNB.
    - Session management: no freed object and no null pointer is used and the tables
      of sessions and bearers agree with the objects, for any messages of the
      terminal, requests of the layers below and answers of the gateway, as long as
      a request finds its session ready for it (predicate [calm]); a detach
      completes and leaves nothing; what the other situations do is given.
    - Start and end: the configuration that is loaded is the one the file declares,
      and an eNB is accepted exactly when it broadcasts one of its networks;
      gateways are taken in turn; releasing the S1 interface leaves no association,
      connection or identifier; the level of the log stays an index.
    - Authentication: SHA-2 on any splitting of a message is the hash of FIPS 180,
      HMAC is that of RFC 2104 also when a context is used again, the AES of the
      tables is the cipher of FIPS 197 and decryption is its inverse, Milenage
      computes the functions of TS 35.206; the vectors of the HSS are accepted by
      the USIM with the same key, each with a sequence number above the one
      before, and after a synchronisation failure above the one of the USIM.
    - Subscription, session and identity data are stored and read back; the name
      of an access point is encoded as labels.
    - Where the code breaks: the theorems named ..._overruns, ..._faults,
      ..._crashes, ..._truncated, ..._overreads and the like give the inputs.

    ** Bounds and fuel

    The decoder loops of [NASDec] and [GTP] recurse on the input, or have fuel
    that the theorems show to be enough.  [dec_protocolIEs] has a bound on the
    depth of nested elements; [s1ap_decode] uses the length of the message, since
    an element inside of another one is shorter, and [S1APTerm] proves that a
    greater bound changes nothing.  The numbers of PER call themselves once, for
    their length: fuel 2.  [eint] divides a 64-bit number by 256: fuel 8.
    [value_bits] bounds the size of an encoding from above; it is only used to
    state that a buffer is large enough.

    ** What is not modelled

    The sockets, the connection to MySQL and the reading of files: input and output,
    whose results are arguments.  The functions that free or print the S1AP
    structures (memory is not reclaimed in the model of the codec, and the screen is
    not modelled), and what is written to the log, except for its level and the text
    of packets.  The SDN controller (src/mme/Controller): its socket is opened and
    closed, and no other function of it is called.  An allocation that fails, except
    where the code handles it (AES).  The test programs and the emulators of
    src/exampleProgram and src/TestProgram, and the files of src that a build does
    not compile.
    OpenSSL, libevent, GLib and the sockets are not part of the repository and
    are parameters, or the values they deliver. *)
From Stdlib Require Export ZArith Lia Bool.
From stdpp Require Export base option list list_numbers numbers gmap.

(** ** C integers *)

(** Wrap-around of the unsigned C types. *)
Definition wrap8 (z : Z) : Z := (z mod 2^8)%Z.
Definition wrap16 (z : Z) : Z := (z mod 2^16)%Z.
Definition wrap32 (z : Z) : Z := (z mod 2^32)%Z.
Definition wrap64 (z : Z) : Z := (z mod 2^64)%Z.

Declare Scope c_scope.
Delimit Scope c_scope with c.
(** C's bit operators on unbounded integers; the width is made explicit with
    [wrap8] ... [wrap64] where the source stores the result. *)
Notation "x .& y" := (Z.land x y) (at level 40, left associativity) : c_scope.
Notation "x .| y" := (Z.lor x y) (at level 50, left associativity) : c_scope.
Notation "x .^ y" := (Z.lxor x y) (at level 50, left associativity) : c_scope.
Notation "x << y" := (Z.shiftl x y) (at level 45, left associativity) : c_scope.
Notation "x >> y" := (Z.shiftr x y) (at level 45, left associativity) : c_scope.

Global Open Scope Z_scope.
Global Open Scope c_scope.

(** ** Undefined behaviour as a value *)

(** What a C expression can do besides producing a value.  A definition that
    returns [outcome] never silently reads outside of an object. *)
Inductive fault :=
  | OutOfBounds      (* access outside of the object a pointer points into *)
  | NullCall         (* call through a null function pointer *)
  | NullDeref        (* access through a null pointer *)
  | Uninitialised    (* read of an indeterminate local variable *)
  | UseAfterFree     (* access to an object that was freed *)
  | BadFormat        (* printf directive without a matching argument *)
  | BadCast          (* access through a pointer to another struct *)
  | Aborted          (* [g_error] or [exit] terminates the program *)
  | DivisionByZero   (* a zero divisor *)
  | Overflow         (* a value that its type cannot hold *)
  | Diverges.        (* the loop never ends *)

Inductive outcome (A : Type) :=
  | Ok (a : A)
  | UB (f : fault).
Arguments Ok {A} a.
Arguments UB {A} f.

Global Instance outcome_ret : MRet outcome := fun A a => Ok a.
Global Instance outcome_bind : MBind outcome := fun A B k m =>
  match m with Ok a => k a | UB f => UB f end.
Global Instance outcome_fmap : FMap outcome := fun A B f m =>
  match m with Ok a => Ok (f a) | UB e => UB e end.

Definition is_Ok {A} (m : outcome A) : Prop := exists a, m = Ok a.

(** ** Memory reads *)

(** A [const uint8_t *] into a buffer is the list of the bytes from there to
    the end of the object: [p + n] is [drop n p]. *)
Definition rd (p : list Z) : outcome Z :=
  match p with [] => UB OutOfBounds | b :: _ => Ok b end.

(** [memcpy(dst, p, n)]: the bytes that are copied. *)
Definition rdn (p : list Z) (n : Z) : outcome (list Z) :=
  if Z.of_nat (length p) <? n then UB OutOfBounds else Ok (take (Z.to_nat n) p).

Definition adv (p : list Z) (n : Z) : list Z := drop (Z.to_nat n) p.

(** [p[i]] *)
Definition rdi (p : list Z) (i : Z) : outcome Z := rd (adv p i).

(** [memcpy(dst + off, src, n)] into an array of [length dst] octets. *)
Definition overwrite (dst : list Z) (off : Z) (src : list Z) : outcome (list Z) :=
  if Z.of_nat (length dst) <? off + Z.of_nat (length src) then UB OutOfBounds
  else Ok (take (Z.to_nat off) dst ++ src ++ drop (Z.to_nat off + length src) dst).

(** ** Bytes *)

Definition byte_ok (b : Z) : Prop := 0 <= b < 256.
Abbreviation bytes_ok := (Forall byte_ok).

Global Instance byte_ok_dec b : Decision (byte_ok b).
Proof. unfold byte_ok. apply _. Defined.

(** Big-endian value of a byte string, and the bytes of [htons]/[htonl]. *)
Definition be_val (bs : list Z) : Z := fold_left (fun a b => 256 * a + b) bs 0.
Definition be16 (x : Z) : list Z := [(x >> 8) .& 0xff; x .& 0xff].
Definition be32 (x : Z) : list Z :=
  [(x >> 24) .& 0xff; (x >> 16) .& 0xff; (x >> 8) .& 0xff; x .& 0xff].

(** The two halves of a byte, as the [:4] bit fields of a packed struct (low
    field first). *)
Definition lo4 (b : Z) : Z := b .& 0x0f.
Definition hi4 (b : Z) : Z := (b .& 0xf0) >> 4.
Definition nibbles (lo hi : Z) : Z := (lo .& 0x0f) .| ((hi .& 0x0f) << 4).

(** ** Automation *)

Create HintDb mme.

(** Case analysis of the tests of a handler. *)
Ltac case_bools :=
  repeat match goal with
  | |- context [if ?b then _ else _] => destruct b eqn:?
  | H : context [if ?b then _ else _] |- _ => destruct b eqn:?
  end.

Ltac zbool :=
  repeat match goal with
  | H : (_ =? _) = true |- _ => apply Z.eqb_eq in H
  | H : (_ =? _) = false |- _ => apply Z.eqb_neq in H
  | H : (_ <? _) = true |- _ => apply Z.ltb_lt in H
  | H : (_ <? _) = false |- _ => apply Z.ltb_ge in H
  | H : (_ <=? _) = true |- _ => apply Z.leb_le in H
  | H : (_ <=? _) = false |- _ => apply Z.leb_gt in H
  | H : negb _ = true |- _ => apply negb_true_iff in H
  | H : negb _ = false |- _ => apply negb_false_iff in H
  | H : _ && _ = true |- _ => apply andb_true_iff in H; destruct H
  | H : _ || _ = false |- _ => apply orb_false_iff in H; destruct H
  end.

(** Step through the [outcome] monad. *)
Ltac osimp := cbn [mbind mret fmap outcome_bind outcome_ret outcome_fmap] in *.

Ltac ok_inv :=
  repeat (osimp; match goal with
  | H : Ok _ = Ok _ |- _ => injection H as H; try subst
  | H : Ok _ = UB _ |- _ => discriminate H
  | H : UB _ = Ok _ |- _ => discriminate H
  | H : outcome_bind _ _ _ ?m = Ok _ |- _ => destruct m eqn:?
  | H : match ?m with Ok _ => _ | UB _ => _ end = Ok _ |- _ => destruct m eqn:?
  end).

Lemma bind_Ok {A B} (m : outcome A) (k : A -> outcome B) b :
  (m ≫= k) = Ok b <-> exists a, m = Ok a /\ k a = Ok b.
Proof. destruct m; cbn; naive_solver. Qed.

(** Invert a chain of binds that ended well. *)
Ltac bind_inv :=
  repeat match goal with
  | H : mbind _ _ = Ok _ |- _ => apply bind_Ok in H as (? & ? & ?)
  | H : Ok _ = Ok _ |- _ => injection H as H; try subst
  | H : UB _ = Ok _ |- _ => discriminate H
  | H : (let '(_, _) := ?x in _) = Ok _ |- _ => destruct x
  end.

(** ** Properties of a byte by exhaustion *)

Lemma byte_forall (P : Z -> bool) :
  forallb P (seqZ 0 256) = true -> forall b, byte_ok b -> P b = true.
Proof.
  rewrite forallb_forall. intros H b Hb. apply H, list_elem_of_In, elem_of_seqZ.
  unfold byte_ok in Hb. lia.
Qed.

Lemma byte_forall2 (P : Z -> Z -> bool) :
  forallb (fun a => forallb (P a) (seqZ 0 256)) (seqZ 0 256) = true ->
  forall a b, byte_ok a -> byte_ok b -> P a b = true.
Proof.
  intros H a b Ha Hb.
  exact (byte_forall (P a) (byte_forall (fun a => forallb (P a) (seqZ 0 256)) H a Ha) b Hb).
Qed.

(** ** Masks and shifts *)

Lemma land_ones_mod x n : 0 <= n -> Z.land x (Z.ones n) = x mod 2^n.
Proof. apply Z.land_ones. Qed.

Lemma land_0f x : Z.land x 0x0f = x mod 16.
Proof. apply (Z.land_ones x 4). lia. Qed.
Lemma land_ff x : Z.land x 0xff = x mod 256.
Proof. apply (Z.land_ones x 8). lia. Qed.
Lemma land_ffff x : Z.land x 0xffff = x mod 65536.
Proof. apply (Z.land_ones x 16). lia. Qed.
Lemma land_1f x : Z.land x 0x1f = x mod 32.
Proof. apply (Z.land_ones x 5). lia. Qed.

(** Clearing the low [k] bits of an [n]-bit mask. *)
Lemma land_himask x n k : 0 <= k <= n ->
  Z.land x (Z.shiftl (Z.ones (n - k)) k) = x mod 2^n - x mod 2^k.
Proof.
  intros Hk.
  assert (H : Z.land x (Z.shiftl (Z.ones (n - k)) k) = Z.shiftl (Z.land (Z.shiftr x k) (Z.ones (n - k))) k).
  { apply Z.bits_inj'. intros i Hi. rewrite Z.land_spec, !Z.shiftl_spec by lia.
    destruct (Z.ltb_spec i k).
    - rewrite !(Z.testbit_neg_r _ (i - k)) by lia. now rewrite andb_false_r.
    - rewrite Z.land_spec, Z.shiftr_spec by lia. now replace (i - k + k) with i by lia. }
  rewrite H, Z.land_ones, Z.shiftl_mul_pow2, Z.shiftr_div_pow2 by lia.
  replace (2^n) with (2^k * 2^(n-k)) by (rewrite <- Z.pow_add_r by lia; f_equal; lia).
  pose proof (Z.pow_pos_nonneg 2 k). pose proof (Z.pow_pos_nonneg 2 (n-k)).
  rewrite Z.rem_mul_r by lia. lia.
Qed.

Lemma land_f0 x : Z.land x 0xf0 = x mod 256 - x mod 16.
Proof. apply (land_himask x 8 4). lia. Qed.
Lemma land_ffff00 x : Z.land x 0xffff00 = x mod 2^24 - x mod 256.
Proof. apply (land_himask x 24 8). lia. Qed.
Lemma land_ffffe0 x : Z.land x 0xffffe0 = x mod 2^24 - x mod 32.
Proof. apply (land_himask x 24 5). lia. Qed.

(** Disjoint [|] is addition. *)
Lemma lor_disjoint_add x y k : 0 <= k -> 0 <= y < 2^k -> x mod 2^k = 0 ->
  Z.lor x y = x + y.
Proof.
  intros Hk Hy Hx. rewrite Z.add_nocarry_lxor, <- Z.lxor_lor; [easy| |];
  apply Z.bits_inj'; intros i Hi; rewrite Z.land_spec, Z.bits_0;
  destruct (Z.ltb_spec i k);
  try (replace x with (Z.shiftl (x / 2^k) k)
         by (rewrite Z.shiftl_mul_pow2 by lia; pose proof (Z.div_mod x (2^k) ltac:(lia)); lia);
       rewrite Z.shiftl_spec_low by lia; easy);
  replace y with (y mod 2^k) by (apply Z.mod_small; lia);
  rewrite Z.mod_pow2_bits_high by lia; apply andb_false_r.
Qed.

Lemma nibbles_arith lo hi : nibbles lo hi = lo mod 16 + 16 * (hi mod 16).
Proof.
  unfold nibbles. rewrite !land_0f, Z.shiftl_mul_pow2, Z.lor_comm by lia.
  rewrite (lor_disjoint_add _ _ 4); [lia|lia|apply Z.mod_pos_bound; lia|].
  apply Z.mod_mul. lia.
Qed.
Lemma lo4_arith b : lo4 b = b mod 16.
Proof. apply land_0f. Qed.
Lemma hi4_arith b : hi4 b = (b / 16) mod 16.
Proof.
  unfold hi4. rewrite land_f0, Z.shiftr_div_pow2 by lia.
  change (2^4) with 16. replace (b mod 256) with (b mod (16 * 16)) by easy.
  rewrite Z.rem_mul_r by lia. rewrite <- (Z.div_mul ((b / 16) mod 16) 16) at 2 by lia.
  f_equal. lia.
Qed.

Ltac Zify.zify_post_hook ::= Z.div_mod_to_equations.

Lemma lo4_nibbles lo hi : 0 <= lo < 16 -> lo4 (nibbles lo hi) = lo.
Proof. rewrite lo4_arith, nibbles_arith. lia. Qed.
Lemma hi4_nibbles lo hi : 0 <= hi < 16 -> hi4 (nibbles lo hi) = hi.
Proof. rewrite hi4_arith, nibbles_arith. lia. Qed.
Lemma nibbles_byte lo hi : byte_ok (nibbles lo hi).
Proof. unfold byte_ok. rewrite nibbles_arith. lia. Qed.

(** ** Conversions that do not change the value *)

Lemma wrap8_id x : 0 <= x < 256 -> wrap8 x = x.
Proof. intros. apply Z.mod_small. lia. Qed.
Lemma wrap16_id x : 0 <= x < 65536 -> wrap16 x = x.
Proof. intros. apply Z.mod_small. lia. Qed.
Lemma wrap32_id x : 0 <= x < 2^32 -> wrap32 x = x.
Proof. intros. apply Z.mod_small. lia. Qed.
Lemma wrap64_id x : 0 <= x < 2^64 -> wrap64 x = x.
Proof. intros. apply Z.mod_small. lia. Qed.

Lemma wrap64_sub x y : 0 <= y <= x -> x < 2^64 -> wrap64 (x - y) = x - y.
Proof. intros. apply wrap64_id. lia. Qed.
Lemma wrap8_byte x : byte_ok (wrap8 x).
Proof. unfold byte_ok, wrap8. lia. Qed.

(** ** Big-endian words *)

Lemma be16_arith x : be16 x = [(x / 256) mod 256; x mod 256].
Proof. unfold be16. now rewrite !land_ff, Z.shiftr_div_pow2 by lia. Qed.
Lemma be32_arith x :
  be32 x = [(x / 2^24) mod 256; (x / 2^16) mod 256; (x / 2^8) mod 256; x mod 256].
Proof. unfold be32. now rewrite !land_ff, !Z.shiftr_div_pow2 by lia. Qed.

Lemma be_val_be16 x : 0 <= x < 2^16 -> be_val (be16 x) = x.
Proof. intros. rewrite be16_arith. unfold be_val. cbn [fold_left]. lia. Qed.
Lemma be_val_be32 x : 0 <= x < 2^32 -> be_val (be32 x) = x.
Proof. intros. rewrite be32_arith. unfold be_val. cbn [fold_left]. lia. Qed.
Lemma be32_inj x y : 0 <= x < 2^32 -> 0 <= y < 2^32 -> be32 x = be32 y -> x = y.
Proof. intros Hx Hy H. now rewrite <- (be_val_be32 x), <- (be_val_be32 y), H. Qed.
Lemma be16_length x : length (be16 x) = 2%nat.
Proof. done. Qed.
Lemma be32_length x : length (be32 x) = 4%nat.
Proof. done. Qed.
Lemma be16_bytes x : bytes_ok (be16 x).
Proof. rewrite be16_arith. repeat constructor; lia. Qed.
Lemma be32_bytes x : bytes_ok (be32 x).
Proof. rewrite be32_arith. repeat constructor; lia. Qed.

(** The value and the octets of a big-endian string of any length. *)
Fixpoint be_bytes (n : nat) (x : Z) : list Z :=
  match n with O => [] | S n => be_bytes n (x / 256) ++ [x mod 256] end.

Lemma be_val_snoc l b : be_val (l ++ [b]) = 256 * be_val l + b.
Proof. unfold be_val. by rewrite fold_left_app. Qed.

Lemma be_bytes_val l : bytes_ok l -> be_bytes (length l) (be_val l) = l.
Proof.
  induction l as [|b l IH] using rev_ind; intros H; [done|].
  apply Forall_app in H as [Hl Hb]. inversion Hb as [|? ? H1 _]; subst. unfold byte_ok in H1.
  rewrite length_app, Nat.add_1_r, be_val_snoc. cbn [be_bytes].
  replace ((256 * be_val l + b) / 256) with (be_val l) by lia.
  replace ((256 * be_val l + b) mod 256) with b by lia. by rewrite IH.
Qed.

Lemma be_val_cons b l : be_val (b :: l) = b * 256 ^ Z.of_nat (length l) + be_val l.
Proof.
  induction l as [|x l IH] using rev_ind.
  - unfold be_val. cbn. lia.
  - rewrite app_comm_cons, !be_val_snoc, IH, length_app, Nat2Z.inj_add, Z.pow_add_r by lia.
    cbn [length Z.of_nat Pos.of_succ_nat]. lia.
Qed.

Lemma be_val_bound l : bytes_ok l -> 0 <= be_val l < 256 ^ Z.of_nat (length l).
Proof.
  induction 1 as [|b l Hb Hl IH]; [cbn; lia|]. rewrite be_val_cons. cbn [length].
  rewrite Nat2Z.inj_succ, Z.pow_succ_r by lia. unfold byte_ok in Hb. nia.
Qed.

Lemma high_bits_0 k x i : 0 <= x < 2^k -> 0 <= k <= i -> Z.testbit x i = false.
Proof. intros Hx Hk. rewrite <- (Z.mod_small x (2^k)) by lia. apply Z.mod_pow2_bits_high. lia. Qed.

Lemma lxor_bound k x y : 0 <= k -> 0 <= x < 2^k -> 0 <= y < 2^k -> 0 <= Z.lxor x y < 2^k.
Proof.
  intros Hk Hx Hy. assert (E : Z.lxor x y = Z.lxor x y mod 2^k).
  { apply Z.bits_inj'. intros i Hi. destruct (Z.ltb_spec i k).
    - by rewrite Z.mod_pow2_bits_low by lia.
    - rewrite Z.mod_pow2_bits_high, Z.lxor_spec by lia.
      by rewrite !(high_bits_0 k) by lia. }
  rewrite E. apply Z.mod_pos_bound. lia.
Qed.

(** [^] on the low bits only. *)
Lemma lxor_low k h y f : 0 <= k -> 0 <= y < 2^k -> 0 <= f < 2^k ->
  Z.lxor (h * 2^k + y) f = h * 2^k + Z.lxor y f.
Proof.
  intros Hk Hy Hf. pose proof (lxor_bound k y f Hk Hy Hf).
  rewrite <- !(lor_disjoint_add _ _ k) by (try apply Z.mod_mul; lia).
  apply Z.bits_inj'. intros i Hi. rewrite Z.lxor_spec, !Z.lor_spec, Z.lxor_spec.
  destruct (Z.ltb_spec i k).
  - by rewrite <- Z.shiftl_mul_pow2, Z.shiftl_spec_low by lia.
  - rewrite (high_bits_0 k f) by lia. by rewrite !xorb_false_r.
Qed.

(** ** Reads *)

Lemma rd_cons b p : rd (b :: p) = Ok b.
Proof. done. Qed.
Lemma rdn_app bs p n : n = Z.of_nat (length bs) -> rdn (bs ++ p) n = Ok bs.
Proof.
  intros ->. unfold rdn. rewrite length_app.
  destruct (Z.ltb_spec (Z.of_nat (length bs + length p)) (Z.of_nat (length bs))); [lia|].
  now rewrite Nat2Z.id, take_app_length.
Qed.
Lemma rdn_all bs n : n = Z.of_nat (length bs) -> rdn bs n = Ok bs.
Proof. intros. rewrite <- (app_nil_r bs) at 1. by apply rdn_app. Qed.
Lemma adv_app bs p n : n = Z.of_nat (length bs) -> adv (bs ++ p) n = p.
Proof. intros ->. unfold adv. now rewrite Nat2Z.id, drop_app_length. Qed.
Lemma adv_length p n : 0 <= n -> Z.of_nat (length (adv p n)) = Z.max 0 (Z.of_nat (length p) - n).
Proof. intros. unfold adv. rewrite length_drop. lia. Qed.
Lemma adv_0 p : adv p 0 = p.
Proof. done. Qed.
Lemma adv_1 b p : adv (b :: p) 1 = p.
Proof. done. Qed.
Lemma rdn_Ok p n bs : 0 <= n -> rdn p n = Ok bs ->
  p = bs ++ adv p n /\ n = Z.of_nat (length bs).
Proof.
  unfold rdn, adv. intros Hn. destruct (Z.ltb_spec (Z.of_nat (length p)) n); [done|].
  intros [= <-]. rewrite take_drop, length_take. split; [done|lia].
Qed.
Lemma nth_byte l i : bytes_ok l -> byte_ok (nth i l 0).
Proof.
  intros H. destruct (lt_dec i (length l)) as [Hi|Hi].
  - rewrite Forall_forall in H. apply H. apply list_elem_of_In, nth_In. lia.
  - rewrite nth_overflow by lia. unfold byte_ok. lia.
Qed.

Lemma rdi_nth p i : 0 <= i < Z.of_nat (length p) -> rdi p i = Ok (nth (Z.to_nat i) p 0).
Proof.
  intros Hi. unfold rdi, adv. rewrite <- (Nat.add_0_r (Z.to_nat i)) at 2.
  rewrite <- nth_skipn. destruct (drop (Z.to_nat i) p) eqn:E; [|done].
  apply (f_equal length) in E. rewrite length_drop in E. cbn in E. lia.
Qed.
Lemma rdn_is_Ok p n : n <= Z.of_nat (length p) -> is_Ok (rdn p n).
Proof.
  unfold rdn. destruct (Z.ltb_spec (Z.of_nat (length p)) n); [lia|]. intros _. by eexists.
Qed.
Lemma rd_is_Ok p : 0 < Z.of_nat (length p) -> is_Ok (rd p).
Proof. destruct p; cbn; [lia|]. intros _. by eexists. Qed.

Lemma overwrite_Ok dst off src : 0 <= off -> off + Z.of_nat (length src) <= Z.of_nat (length dst) ->
  overwrite dst off src = Ok (take (Z.to_nat off) dst ++ src ++ drop (Z.to_nat off + length src) dst).
Proof.
  intros. unfold overwrite.
  by destruct (Z.ltb_spec (Z.of_nat (length dst)) (off + Z.of_nat (length src))); [lia|].
Qed.

Lemma overwrite_length dst off src r : 0 <= off -> overwrite dst off src = Ok r -> length r = length dst.
Proof.
  unfold overwrite. destruct (Z.ltb_spec (Z.of_nat (length dst)) (off + Z.of_nat (length src))); [done|].
  intros ? [= <-]. rewrite !length_app, length_take, length_drop. lia.
Qed.
Lemma overwrite_app a old b src off : off = Z.of_nat (length a) -> length old = length src ->
  overwrite (a ++ old ++ b) off src = Ok (a ++ src ++ b).
Proof.
  intros -> Hl. rewrite overwrite_Ok by (rewrite ?length_app; lia). rewrite Nat2Z.id, take_app_length.
  do 3 f_equal. rewrite <- Hl, <- length_app, (assoc (++)). apply drop_app_length.
Qed.

#[export] Hint Resolve rdn_is_Ok rd_is_Ok nibbles_byte be16_bytes be32_bytes : mme.
