(* ===== verification/NASTypes.v ===== *)
(** The enumerations of the NAS library (src/NAS/shared/NASConstants.h and
    NAS.h).  A C enum is an [Inductive] with the source's constructors, the
    number of each constructor ([EnumVal]) and the constructor of a number
    ([EnumOf]); a number that names none is the [default] of a [switch]. *)
From S2P Require Import Prelude.

(** An enumeration with its values: the promise the switches of the decoders
    rely on is that the value determines the constructor. *)
Class CEnum (A : Type) := {
  enum_val : A -> Z;
  enum_of : Z -> option A;
  enum_of_val : forall a, enum_of (enum_val a) = Some a;
  enum_of_inv : forall z a, enum_of z = Some a -> enum_val a = z;
}.

Lemma enum_val_inj {A} `{CEnum A} (a b : A) : enum_val a = enum_val b -> a = b.
Proof. intros E. apply (f_equal enum_of) in E. rewrite !enum_of_val in E. congruence. Qed.

#[export] Instance enum_eq_dec {A} `{CEnum A} : EqDecision A.
Proof.
  intros a b. destruct (Z.eq_dec (enum_val a) (enum_val b)) as [E|E].
  - left. by apply enum_val_inj.
  - right. by intros ->.
Defined.

(** [z == a] for a number and an enumerator. *)
Definition is_enum {A} `{CEnum A} (z : Z) (a : A) : bool := z =? enum_val a.

Lemma is_enum_spec {A} `{CEnum A} z (a : A) : is_enum z a = true <-> enum_of z = Some a.
Proof.
  unfold is_enum. rewrite Z.eqb_eq. split.
  - intros ->. apply enum_of_val.
  - intros E. symmetry. by apply enum_of_inv.
Qed.

(** The association list of an enumeration decides it by lookup. *)
Definition enum_lookup {A} (l : list (Z * A)) (z : Z) : option A :=
  snd <$> List.find (fun p => fst p =? z) l.

Lemma enum_lookup_inv {A} (val : A -> Z) (l : list (Z * A)) z a :
  forallb (fun p => val (snd p) =? fst p) l = true ->
  enum_lookup l z = Some a -> val a = z.
Proof.
  unfold enum_lookup. rewrite forallb_forall. intros Hl.
  destruct (List.find _ l) as [[k b]|] eqn:E; [|done].
  cbn. intros [= <-]. apply List.find_some in E as [Hin Hk].
  apply Hl in Hin. cbn in *. lia.
Qed.

Inductive SecurityHeaderType_t :=
  | PlainNAS
  | IntegrityProtected
  | IntegrityProtectedAndCiphered
  | IntegrityProtectedWithNewEPSSecurityContext
  | IntegrityProtectedAndCipheredWithNewEPSSecurityContext
  | SecurityHeaderForServiceRequestMessage.

Definition SecurityHeaderType_val (x : SecurityHeaderType_t) : Z :=
  match x with
  | PlainNAS => 0x00
  | IntegrityProtected => 0x01
  | IntegrityProtectedAndCiphered => 0x02
  | IntegrityProtectedWithNewEPSSecurityContext => 0x03
  | IntegrityProtectedAndCipheredWithNewEPSSecurityContext => 0x04
  | SecurityHeaderForServiceRequestMessage => 0x0c
  end.

Definition SecurityHeaderType_of (z : Z) : option SecurityHeaderType_t :=
  enum_lookup
    [(0x00, PlainNAS);
     (0x01, IntegrityProtected);
     (0x02, IntegrityProtectedAndCiphered);
     (0x03, IntegrityProtectedWithNewEPSSecurityContext);
     (0x04, IntegrityProtectedAndCipheredWithNewEPSSecurityContext);
     (0x0c, SecurityHeaderForServiceRequestMessage)] z.

#[export] Instance SecurityHeaderType_enum : CEnum SecurityHeaderType_t.
Proof.
  refine {| enum_val := SecurityHeaderType_val; enum_of := SecurityHeaderType_of |}.
  - by intros [].
  - intros z a. by apply (enum_lookup_inv SecurityHeaderType_val).
Defined.

Inductive ProtocolDiscriminator_t :=
  | GroupCallControl
  | BroadcastCallControl
  | EPSSessionManagementMessages
  | CallControl
  | GPRSTransparentTransportProtocol
  | MobilityManagementMessages
  | RadioResourcesManagementMessages
  | EPSMobilityManagementMessages
  | GPRSMobilityManagementMessages
  | SMSMessages
  | GPRSSessionManagementMessages
  | NonCallRelatedSSMessages
  | LocationServices.

Definition ProtocolDiscriminator_val (x : ProtocolDiscriminator_t) : Z :=
  match x with
  | GroupCallControl => 0x00
  | BroadcastCallControl => 0x01
  | EPSSessionManagementMessages => 0x02
  | CallControl => 0x03
  | GPRSTransparentTransportProtocol => 0x04
  | MobilityManagementMessages => 0x05
  | RadioResourcesManagementMessages => 0x06
  | EPSMobilityManagementMessages => 0x07
  | GPRSMobilityManagementMessages => 0x08
  | SMSMessages => 0x09
  | GPRSSessionManagementMessages => 0x0a
  | NonCallRelatedSSMessages => 0x0b
  | LocationServices => 0x0c
  end.

Definition ProtocolDiscriminator_of (z : Z) : option ProtocolDiscriminator_t :=
  enum_lookup
    [(0x00, GroupCallControl);
     (0x01, BroadcastCallControl);
     (0x02, EPSSessionManagementMessages);
     (0x03, CallControl);
     (0x04, GPRSTransparentTransportProtocol);
     (0x05, MobilityManagementMessages);
     (0x06, RadioResourcesManagementMessages);
     (0x07, EPSMobilityManagementMessages);
     (0x08, GPRSMobilityManagementMessages);
     (0x09, SMSMessages);
     (0x0a, GPRSSessionManagementMessages);
     (0x0b, NonCallRelatedSSMessages);
     (0x0c, LocationServices)] z.

#[export] Instance ProtocolDiscriminator_enum : CEnum ProtocolDiscriminator_t.
Proof.
  refine {| enum_val := ProtocolDiscriminator_val; enum_of := ProtocolDiscriminator_of |}.
  - by intros [].
  - intros z a. by apply (enum_lookup_inv ProtocolDiscriminator_val).
Defined.

Inductive ProcedureTransactionId_t :=
  | NoPTIAssigned
  | PTIReserved.

Definition ProcedureTransactionId_val (x : ProcedureTransactionId_t) : Z :=
  match x with
  | NoPTIAssigned => 0x00
  | PTIReserved => 0xff
  end.

Definition ProcedureTransactionId_of (z : Z) : option ProcedureTransactionId_t :=
  enum_lookup
    [(0x00, NoPTIAssigned);
     (0xff, PTIReserved)] z.

#[export] Instance ProcedureTransactionId_enum : CEnum ProcedureTransactionId_t.
Proof.
  refine {| enum_val := ProcedureTransactionId_val; enum_of := ProcedureTransactionId_of |}.
  - by intros [].
  - intros z a. by apply (enum_lookup_inv ProcedureTransactionId_val).
Defined.

Inductive NASMessageType_t :=
  | AttachRequest
  | AttachAccept
  | AttachComplete
  | AttachReject
  | DetachRequest
  | DetachAccept
  | TrackingAreaUpdateRequest
  | TrackingAreaUpdateAccept
  | TrackingAreaUpdateComplete
  | TrackingAreaUpdateReject
  | ExtendedServiceRequest
  | ServiceReject
  | GUTIReallocationCommand
  | GUTIReallocationComplete
  | AuthenticationRequest
  | AuthenticationResponse
  | AuthenticationReject
  | AuthenticationFailure
  | IdentityRequest
  | IdentityResponse
  | SecurityModeCommand
  | SecurityModeComplete
  | SecurityModeReject
  | EMMStatus
  | EMMInformation
  | DownlinkNASTransport
  | UplinkNASTransport
  | CSServiceNotification
  | DownlinkGenericNASTransport
  | UplinkGenericNASTransport
  | ActivateDefaultEPSBearerContextRequest
  | ActivateDefaultEPSBearerContextAccept
  | ActivateDefaultEPSBearerContextReject
  | ActivateDedicatedEPSBearerContextRequest
  | ActivateDedicatedEPSBearerContextAccept
  | ActivateDedicatedEPSBearerContextReject
  | ModifyEPSBearerContextRequest
  | ModifyEPSBearerContextAccept
  | ModifyEPSBearerContextReject
  | DeactivateEPSBearerContextRequest
  | DeactivateEPSBearerContextAccept
  | PDNConnectivityRequest
  | PDNConnectivityReject
  | PDNDisconnectRequest
  | PDNDisconnectReject
  | BearerResourceAllocationRequest
  | BearerResourceAllocationReject
  | BearerResourceModificationRequest
  | BearerResourceModificationReject
  | ESMInformationRequest
  | ESMInformationResponse
  | Notification
  | ESMStatus.

Definition NASMessageType_val (x : NASMessageType_t) : Z :=
  match x with
  | AttachRequest => 0x41
  | AttachAccept => 0x42
  | AttachComplete => 0x43
  | AttachReject => 0x44
  | DetachRequest => 0x45
  | DetachAccept => 0x46
  | TrackingAreaUpdateRequest => 0x48
  | TrackingAreaUpdateAccept => 0x49
  | TrackingAreaUpdateComplete => 0x4a
  | TrackingAreaUpdateReject => 0x4b
  | ExtendedServiceRequest => 0x4c
  | ServiceReject => 0x4e
  | GUTIReallocationCommand => 0x50
  | GUTIReallocationComplete => 0x51
  | AuthenticationRequest => 0x52
  | AuthenticationResponse => 0x53
  | AuthenticationReject => 0x54
  | AuthenticationFailure => 0x5c
  | IdentityRequest => 0x55
  | IdentityResponse => 0x56
  | SecurityModeCommand => 0x5d
  | SecurityModeComplete => 0x5e
  | SecurityModeReject => 0x5f
  | EMMStatus => 0x60
  | EMMInformation => 0x61
  | DownlinkNASTransport => 0x62
  | UplinkNASTransport => 0x63
  | CSServiceNotification => 0x64
  | DownlinkGenericNASTransport => 0x68
  | UplinkGenericNASTransport => 0x69
  | ActivateDefaultEPSBearerContextRequest => 0xc1
  | ActivateDefaultEPSBearerContextAccept => 0xc2
  | ActivateDefaultEPSBearerContextReject => 0xc3
  | ActivateDedicatedEPSBearerContextRequest => 0xc5
  | ActivateDedicatedEPSBearerContextAccept => 0xc6
  | ActivateDedicatedEPSBearerContextReject => 0xc7
  | ModifyEPSBearerContextRequest => 0xc9
  | ModifyEPSBearerContextAccept => 0xca
  | ModifyEPSBearerContextReject => 0xcb
  | DeactivateEPSBearerContextRequest => 0xcd
  | DeactivateEPSBearerContextAccept => 0xce
  | PDNConnectivityRequest => 0xd0
  | PDNConnectivityReject => 0xd1
  | PDNDisconnectRequest => 0xd2
  | PDNDisconnectReject => 0xd3
  | BearerResourceAllocationRequest => 0xd4
  | BearerResourceAllocationReject => 0xd5
  | BearerResourceModificationRequest => 0xd6
  | BearerResourceModificationReject => 0xd7
  | ESMInformationRequest => 0xd9
  | ESMInformationResponse => 0xda
  | Notification => 0xdb
  | ESMStatus => 0xe8
  end.

Definition NASMessageType_of (z : Z) : option NASMessageType_t :=
  enum_lookup
    [(0x41, AttachRequest);
     (0x42, AttachAccept);
     (0x43, AttachComplete);
     (0x44, AttachReject);
     (0x45, DetachRequest);
     (0x46, DetachAccept);
     (0x48, TrackingAreaUpdateRequest);
     (0x49, TrackingAreaUpdateAccept);
     (0x4a, TrackingAreaUpdateComplete);
     (0x4b, TrackingAreaUpdateReject);
     (0x4c, ExtendedServiceRequest);
     (0x4e, ServiceReject);
     (0x50, GUTIReallocationCommand);
     (0x51, GUTIReallocationComplete);
     (0x52, AuthenticationRequest);
     (0x53, AuthenticationResponse);
     (0x54, AuthenticationReject);
     (0x5c, AuthenticationFailure);
     (0x55, IdentityRequest);
     (0x56, IdentityResponse);
     (0x5d, SecurityModeCommand);
     (0x5e, SecurityModeComplete);
     (0x5f, SecurityModeReject);
     (0x60, EMMStatus);
     (0x61, EMMInformation);
     (0x62, DownlinkNASTransport);
     (0x63, UplinkNASTransport);
     (0x64, CSServiceNotification);
     (0x68, DownlinkGenericNASTransport);
     (0x69, UplinkGenericNASTransport);
     (0xc1, ActivateDefaultEPSBearerContextRequest);
     (0xc2, ActivateDefaultEPSBearerContextAccept);
     (0xc3, ActivateDefaultEPSBearerContextReject);
     (0xc5, ActivateDedicatedEPSBearerContextRequest);
     (0xc6, ActivateDedicatedEPSBearerContextAccept);
     (0xc7, ActivateDedicatedEPSBearerContextReject);
     (0xc9, ModifyEPSBearerContextRequest);
     (0xca, ModifyEPSBearerContextAccept);
     (0xcb, ModifyEPSBearerContextReject);
     (0xcd, DeactivateEPSBearerContextRequest);
     (0xce, DeactivateEPSBearerContextAccept);
     (0xd0, PDNConnectivityRequest);
     (0xd1, PDNConnectivityReject);
     (0xd2, PDNDisconnectRequest);
     (0xd3, PDNDisconnectReject);
     (0xd4, BearerResourceAllocationRequest);
     (0xd5, BearerResourceAllocationReject);
     (0xd6, BearerResourceModificationRequest);
     (0xd7, BearerResourceModificationReject);
     (0xd9, ESMInformationRequest);
     (0xda, ESMInformationResponse);
     (0xdb, Notification);
     (0xe8, ESMStatus)] z.

#[export] Instance NASMessageType_enum : CEnum NASMessageType_t.
Proof.
  refine {| enum_val := NASMessageType_val; enum_of := NASMessageType_of |}.
  - by intros [].
  - intros z a. by apply (enum_lookup_inv NASMessageType_val).
Defined.

Inductive ESMCause_t :=
  | ESM_OperatorDeterminedBarring
  | ESM_Insufficientresources
  | ESM_MissingorunknownAPN
  | ESM_UnknownPDNtype
  | ESM_Userauthenticationfailed
  | ESM_RequestRejectedByServingGWorPDNGW
  | ESM_RequestRejectedUnspecified
  | ESM_ServiceOptionNotSupported
  | ESM_RequestedServiceOptionNotSubscribed
  | ESM_ServiceOptionTemporarilyOutOfOrder
  | ESM_PTIAlreadyInUse
  | ESM_RegularDeactivation
  | ESM_EPSQoSNotAccepted
  | ESM_NetworkFailure
  | ESM_ReactivationRequested
  | ESM_SemanticErrorInTheTFTOperation
  | ESM_SyntacticalErrorInTheTFTOperation
  | ESM_InvalidEPSBearerIdentity
  | ESM_SemanticErrorsInPacketFilter
  | ESM_SyntacticalErrorsInPacketFilter
  | ESM_Unused
  | ESM_PTImismatch
  | ESM_LastPDNDisconnectionNotAllowed
  | ESM_PDNTypeIPv4OnlyAllowed
  | ESM_PDNTypeIPv6OnlyAllowed
  | ESM_SingleAddressBearersOnlyAllowed
  | ESM_ESMInformationNotReceived
  | ESM_PDNConnectionDoesNotExist
  | ESM_MultiplePDNConnectionsForAGivenAPNNotAllowed
  | ESM_CollisionWithNetworkInitiatedRequest
  | ESM_UnsupportedQCIValue
  | ESM_BearerHandlingNotSupported
  | ESM_MaximumNumberOfEPSBearersReached
  | ESM_RequestedAPNnotSupportedInCurrentRATAndPLMNCombination
  | ESM_InvalidPTIValue
  | ESM_SemanticallyIncorrectMessage
  | ESM_InvalidMandatoryInformation
  | ESM_MessageTypeNonExistentOrNotImplemented
  | ESM_MessageTypeNotCompatibleWithTheProtocolState
  | ESM_InformationElementNonExistentOrNotImplemented
  | ESM_ConditionalIEError
  | ESM_MessageNotCompatibleWithTheProtocolState
  | ESM_ProtocolErrorUnspecified
  | ESM_APNrestrictionValueIncompatibleWithActiveEPSBearerContext.

Definition ESMCause_val (x : ESMCause_t) : Z :=
  match x with
  | ESM_OperatorDeterminedBarring => 0x08
  | ESM_Insufficientresources => 0x1a
  | ESM_MissingorunknownAPN => 0x1b
  | ESM_UnknownPDNtype => 0x1c
  | ESM_Userauthenticationfailed => 0x1d
  | ESM_RequestRejectedByServingGWorPDNGW => 0x1e
  | ESM_RequestRejectedUnspecified => 0x1f
  | ESM_ServiceOptionNotSupported => 0x20
  | ESM_RequestedServiceOptionNotSubscribed => 0x21
  | ESM_ServiceOptionTemporarilyOutOfOrder => 0x22
  | ESM_PTIAlreadyInUse => 0x23
  | ESM_RegularDeactivation => 0x24
  | ESM_EPSQoSNotAccepted => 0x25
  | ESM_NetworkFailure => 0x26
  | ESM_ReactivationRequested => 0x27
  | ESM_SemanticErrorInTheTFTOperation => 0x29
  | ESM_SyntacticalErrorInTheTFTOperation => 0x2a
  | ESM_InvalidEPSBearerIdentity => 0x2b
  | ESM_SemanticErrorsInPacketFilter => 0x2c
  | ESM_SyntacticalErrorsInPacketFilter => 0x2d
  | ESM_Unused => 0x2e
  | ESM_PTImismatch => 0x2f
  | ESM_LastPDNDisconnectionNotAllowed => 0x31
  | ESM_PDNTypeIPv4OnlyAllowed => 0x32
  | ESM_PDNTypeIPv6OnlyAllowed => 0x33
  | ESM_SingleAddressBearersOnlyAllowed => 0x34
  | ESM_ESMInformationNotReceived => 0x35
  | ESM_PDNConnectionDoesNotExist => 0x36
  | ESM_MultiplePDNConnectionsForAGivenAPNNotAllowed => 0x37
  | ESM_CollisionWithNetworkInitiatedRequest => 0x38
  | ESM_UnsupportedQCIValue => 0x3b
  | ESM_BearerHandlingNotSupported => 0x3c
  | ESM_MaximumNumberOfEPSBearersReached => 0x41
  | ESM_RequestedAPNnotSupportedInCurrentRATAndPLMNCombination => 0x42
  | ESM_InvalidPTIValue => 0x51
  | ESM_SemanticallyIncorrectMessage => 0x5f
  | ESM_InvalidMandatoryInformation => 0x60
  | ESM_MessageTypeNonExistentOrNotImplemented => 0x61
  | ESM_MessageTypeNotCompatibleWithTheProtocolState => 0x62
  | ESM_InformationElementNonExistentOrNotImplemented => 0x63
  | ESM_ConditionalIEError => 0x64
  | ESM_MessageNotCompatibleWithTheProtocolState => 0x65
  | ESM_ProtocolErrorUnspecified => 0x6f
  | ESM_APNrestrictionValueIncompatibleWithActiveEPSBearerContext => 0x70
  end.

Definition ESMCause_of (z : Z) : option ESMCause_t :=
  enum_lookup
    [(0x08, ESM_OperatorDeterminedBarring);
     (0x1a, ESM_Insufficientresources);
     (0x1b, ESM_MissingorunknownAPN);
     (0x1c, ESM_UnknownPDNtype);
     (0x1d, ESM_Userauthenticationfailed);
     (0x1e, ESM_RequestRejectedByServingGWorPDNGW);
     (0x1f, ESM_RequestRejectedUnspecified);
     (0x20, ESM_ServiceOptionNotSupported);
     (0x21, ESM_RequestedServiceOptionNotSubscribed);
     (0x22, ESM_ServiceOptionTemporarilyOutOfOrder);
     (0x23, ESM_PTIAlreadyInUse);
     (0x24, ESM_RegularDeactivation);
     (0x25, ESM_EPSQoSNotAccepted);
     (0x26, ESM_NetworkFailure);
     (0x27, ESM_ReactivationRequested);
     (0x29, ESM_SemanticErrorInTheTFTOperation);
     (0x2a, ESM_SyntacticalErrorInTheTFTOperation);
     (0x2b, ESM_InvalidEPSBearerIdentity);
     (0x2c, ESM_SemanticErrorsInPacketFilter);
     (0x2d, ESM_SyntacticalErrorsInPacketFilter);
     (0x2e, ESM_Unused);
     (0x2f, ESM_PTImismatch);
     (0x31, ESM_LastPDNDisconnectionNotAllowed);
     (0x32, ESM_PDNTypeIPv4OnlyAllowed);
     (0x33, ESM_PDNTypeIPv6OnlyAllowed);
     (0x34, ESM_SingleAddressBearersOnlyAllowed);
     (0x35, ESM_ESMInformationNotReceived);
     (0x36, ESM_PDNConnectionDoesNotExist);
     (0x37, ESM_MultiplePDNConnectionsForAGivenAPNNotAllowed);
     (0x38, ESM_CollisionWithNetworkInitiatedRequest);
     (0x3b, ESM_UnsupportedQCIValue);
     (0x3c, ESM_BearerHandlingNotSupported);
     (0x41, ESM_MaximumNumberOfEPSBearersReached);
     (0x42, ESM_RequestedAPNnotSupportedInCurrentRATAndPLMNCombination);
     (0x51, ESM_InvalidPTIValue);
     (0x5f, ESM_SemanticallyIncorrectMessage);
     (0x60, ESM_InvalidMandatoryInformation);
     (0x61, ESM_MessageTypeNonExistentOrNotImplemented);
     (0x62, ESM_MessageTypeNotCompatibleWithTheProtocolState);
     (0x63, ESM_InformationElementNonExistentOrNotImplemented);
     (0x64, ESM_ConditionalIEError);
     (0x65, ESM_MessageNotCompatibleWithTheProtocolState);
     (0x6f, ESM_ProtocolErrorUnspecified);
     (0x70, ESM_APNrestrictionValueIncompatibleWithActiveEPSBearerContext)] z.

#[export] Instance ESMCause_enum : CEnum ESMCause_t.
Proof.
  refine {| enum_val := ESMCause_val; enum_of := ESMCause_of |}.
  - by intros [].
  - intros z a. by apply (enum_lookup_inv ESMCause_val).
Defined.

Inductive EMMCause_t :=
  | EMM_IMSIUnknownInHSS
  | EMM_IllegalUE
  | EMM_IMEINotAccepted
  | EMM_IllegalME
  | EMM_EPSServicesNotAllowed
  | EMM_EPSServicesAndNonEPSServicesNotAllowed
  | EMM_UEIdentityCannotBeDerivedByTheNetwork
  | EMM_ImplicitlyDetached
  | EMM_PLMNNotAllowed
  | EMM_TrackingAreaNotAllowed
  | EMM_RoamingNotAllowedInThisTrackingArea
  | EMM_EPSServicesNotAllowedInThisPLMN
  | EMM_NoSuitableCellsInTrackingArea
  | EMM_MSCTemporarilyNotReachable
  | EMM_NetworkFailure
  | EMM_CSDomainNotAvailable
  | EMM_ESMFailure
  | EMM_MACFailure
  | EMM_SynchFailure
  | EMM_Congestion
  | EMM_UESecurityCapabilitiesMismatch
  | EMM_SecurityModeRejectedUnspecified
  | EMM_NotAuthorizedForThisCSG
  | EMM_NonEPSAuthenticationUnacceptable
  | EMM_RequestedServiceOptionNotAuthorizedInThisPLMN
  | EMM_CSServiceTemporarilyNotAvailable
  | EMM_NoEPSBearerContextActivated
  | EMM_SevereNetworkFailure
  | EMM_SemanticallyNcorrectMessage
  | EMM_InvalidMandatoryInformation
  | EMM_MessageTypeNonExistentOrNotImplemented
  | EMM_MessageTypeNotCompatibleWithTheProtocolState
  | EMM_InformationElementNonExistentOrNotImplemented
  | EMM_ConditionalIEError
  | EMM_MessageNotCompatibleWithTheProtocolState
  | EMM_ProtocolErrorUnspecified.

Definition EMMCause_val (x : EMMCause_t) : Z :=
  match x with
  | EMM_IMSIUnknownInHSS => 0x02
  | EMM_IllegalUE => 0x03
  | EMM_IMEINotAccepted => 0x05
  | EMM_IllegalME => 0x06
  | EMM_EPSServicesNotAllowed => 0x07
  | EMM_EPSServicesAndNonEPSServicesNotAllowed => 0x08
  | EMM_UEIdentityCannotBeDerivedByTheNetwork => 0x09
  | EMM_ImplicitlyDetached => 0x0a
  | EMM_PLMNNotAllowed => 0x0b
  | EMM_TrackingAreaNotAllowed => 0x0c
  | EMM_RoamingNotAllowedInThisTrackingArea => 0x0d
  | EMM_EPSServicesNotAllowedInThisPLMN => 0x0e
  | EMM_NoSuitableCellsInTrackingArea => 0x0f
  | EMM_MSCTemporarilyNotReachable => 0x10
  | EMM_NetworkFailure => 0x11
  | EMM_CSDomainNotAvailable => 0x12
  | EMM_ESMFailure => 0x13
  | EMM_MACFailure => 0x14
  | EMM_SynchFailure => 0x15
  | EMM_Congestion => 0x16
  | EMM_UESecurityCapabilitiesMismatch => 0x17
  | EMM_SecurityModeRejectedUnspecified => 0x18
  | EMM_NotAuthorizedForThisCSG => 0x19
  | EMM_NonEPSAuthenticationUnacceptable => 0x1a
  | EMM_RequestedServiceOptionNotAuthorizedInThisPLMN => 0x23
  | EMM_CSServiceTemporarilyNotAvailable => 0x27
  | EMM_NoEPSBearerContextActivated => 0x28
  | EMM_SevereNetworkFailure => 0x2a
  | EMM_SemanticallyNcorrectMessage => 0x5f
  | EMM_InvalidMandatoryInformation => 0x60
  | EMM_MessageTypeNonExistentOrNotImplemented => 0x61
  | EMM_MessageTypeNotCompatibleWithTheProtocolState => 0x62
  | EMM_InformationElementNonExistentOrNotImplemented => 0x63
  | EMM_ConditionalIEError => 0x64
  | EMM_MessageNotCompatibleWithTheProtocolState => 0x65
  | EMM_ProtocolErrorUnspecified => 0x6f
  end.

Definition EMMCause_of (z : Z) : option EMMCause_t :=
  enum_lookup
    [(0x02, EMM_IMSIUnknownInHSS);
     (0x03, EMM_IllegalUE);
     (0x05, EMM_IMEINotAccepted);
     (0x06, EMM_IllegalME);
     (0x07, EMM_EPSServicesNotAllowed);
     (0x08, EMM_EPSServicesAndNonEPSServicesNotAllowed);
     (0x09, EMM_UEIdentityCannotBeDerivedByTheNetwork);
     (0x0a, EMM_ImplicitlyDetached);
     (0x0b, EMM_PLMNNotAllowed);
     (0x0c, EMM_TrackingAreaNotAllowed);
     (0x0d, EMM_RoamingNotAllowedInThisTrackingArea);
     (0x0e, EMM_EPSServicesNotAllowedInThisPLMN);
     (0x0f, EMM_NoSuitableCellsInTrackingArea);
     (0x10, EMM_MSCTemporarilyNotReachable);
     (0x11, EMM_NetworkFailure);
     (0x12, EMM_CSDomainNotAvailable);
     (0x13, EMM_ESMFailure);
     (0x14, EMM_MACFailure);
     (0x15, EMM_SynchFailure);
     (0x16, EMM_Congestion);
     (0x17, EMM_UESecurityCapabilitiesMismatch);
     (0x18, EMM_SecurityModeRejectedUnspecified);
     (0x19, EMM_NotAuthorizedForThisCSG);
     (0x1a, EMM_NonEPSAuthenticationUnacceptable);
     (0x23, EMM_RequestedServiceOptionNotAuthorizedInThisPLMN);
     (0x27, EMM_CSServiceTemporarilyNotAvailable);
     (0x28, EMM_NoEPSBearerContextActivated);
     (0x2a, EMM_SevereNetworkFailure);
     (0x5f, EMM_SemanticallyNcorrectMessage);
     (0x60, EMM_InvalidMandatoryInformation);
     (0x61, EMM_MessageTypeNonExistentOrNotImplemented);
     (0x62, EMM_MessageTypeNotCompatibleWithTheProtocolState);
     (0x63, EMM_InformationElementNonExistentOrNotImplemented);
     (0x64, EMM_ConditionalIEError);
     (0x65, EMM_MessageNotCompatibleWithTheProtocolState);
     (0x6f, EMM_ProtocolErrorUnspecified)] z.

#[export] Instance EMMCause_enum : CEnum EMMCause_t.
Proof.
  refine {| enum_val := EMMCause_val; enum_of := EMMCause_of |}.
  - by intros [].
  - intros z a. by apply (enum_lookup_inv EMMCause_val).
Defined.

Inductive NAS_EIA :=
  | NAS_EIA0 | NAS_EIA1 | NAS_EIA2 | NAS_EIA3 | NAS_EIA4 | NAS_EIA5 | NAS_EIA6 | NAS_EIA7.

Definition NAS_EIA_val (x : NAS_EIA) : Z :=
  match x with
  | NAS_EIA0 => 0 | NAS_EIA1 => 1 | NAS_EIA2 => 2 | NAS_EIA3 => 3
  | NAS_EIA4 => 4 | NAS_EIA5 => 5 | NAS_EIA6 => 6 | NAS_EIA7 => 7
  end.

Inductive NAS_EEA :=
  | NAS_EEA0 | NAS_EEA1 | NAS_EEA2 | NAS_EEA3 | NAS_EEA4 | NAS_EEA5 | NAS_EEA6 | NAS_EEA7.

Definition NAS_EEA_val (x : NAS_EEA) : Z :=
  match x with
  | NAS_EEA0 => 0 | NAS_EEA1 => 1 | NAS_EEA2 => 2 | NAS_EEA3 => 3
  | NAS_EEA4 => 4 | NAS_EEA5 => 5 | NAS_EEA6 => 6 | NAS_EEA7 => 7
  end.

Inductive NAS_Direction := NAS_UpLink | NAS_DownLink.

Definition NAS_Direction_val (d : NAS_Direction) : Z :=
  match d with NAS_UpLink => 0 | NAS_DownLink => 1 end.

#[export] Instance NAS_EIA_eq_dec : EqDecision NAS_EIA.
Proof. solve_decision. Defined.
#[export] Instance NAS_EEA_eq_dec : EqDecision NAS_EEA.
Proof. solve_decision. Defined.
#[export] Instance NAS_Direction_eq_dec : EqDecision NAS_Direction.
Proof. solve_decision. Defined.
