(* ===== verification/NASIe.v ===== *)
(** The information element writers of the NAS library
    (src/NAS/src/StandardIeSchemas.c).  Each writer takes the cursor [p] into
    an output buffer, stores its bytes there and advances it; a store outside
    of the buffer is undefined behaviour.  The class [Writes] gives the bytes
    a writer produces and composes over sequences of writers, so that the
    clients (the message encoders) are verified against the bytes only. *)
From S2P Require Import Prelude NASTypes.

(** The output buffer and the cursor [*p] into it. *)
Record wbuf := WBuf { wb_buf : list Z; wb_pos : nat }.

Definition writer := wbuf -> outcome wbuf.

Definition wseq (w1 w2 : writer) : writer := fun s => s' ← w1 s; w2 s'.
Infix ";;;" := wseq (at level 61, left associativity) : c_scope.

(** [( *p )[i]] and [( *p )[i] = b]. *)
Definition peek (i : nat) (s : wbuf) : outcome Z :=
  match wb_buf s !! (wb_pos s + i)%nat with Some b => Ok b | None => UB OutOfBounds end.
Definition poke (i : nat) (b : Z) : writer := fun s =>
  if decide (wb_pos s + i < length (wb_buf s))%nat
  then Ok (WBuf (<[(wb_pos s + i)%nat := wrap8 b]> (wb_buf s)) (wb_pos s))
  else UB OutOfBounds.
(** [( *p ) += n] *)
Definition bump (n : nat) : writer := fun s => Ok (WBuf (wb_buf s) (wb_pos s + n)).

(** [for(i=0; i<n; i++) ( *p )[i] = v[i];] from index [i] on. *)
Fixpoint copy_loop (n i : nat) (v : list Z) : writer := fun s =>
  match n with
  | O => Ok s
  | S n => b ← rdi v (Z.of_nat i); s' ← poke i b s; copy_loop n (S i) v s'
  end.

Definition nasIe_v_t1_l (v : Z) : writer := fun s =>
  b ← peek 0 s; poke 0 (nibbles v (hi4 b)) s.

Definition nasIe_v_t1_h (v : Z) : writer := fun s =>
  b ← peek 0 s; (poke 0 (nibbles (lo4 b) v) ;;; bump 1) s.

Definition nasIe_tv_t1 (t v : Z) : writer := fun s =>
  b ← peek 0 s;
  s' ← poke 0 (nibbles t (hi4 b)) s;
  b' ← peek 0 s';
  (poke 0 (nibbles (lo4 b') v) ;;; bump 1) s'.

Definition nasIe_t_t2 (t : Z) : writer := poke 0 t ;;; bump 1.

(** [vsize] and [len] are [uint8_t] ([uint16_t] for the type 6 elements): the
    caller's value is converted on entry. *)
Definition nasIe_v_t3 (v : list Z) (vsize : Z) : writer :=
  let n := Z.to_nat (wrap8 vsize) in
  copy_loop n 0 v ;;; bump n.

Definition nasIe_tv_t3 (t : Z) (v : list Z) (vsize : Z) : writer :=
  let n := Z.to_nat (wrap8 vsize) in
  poke 0 t ;;; bump 1 ;;; copy_loop n 0 v ;;; bump n.

Definition nasIe_lv_t4 (v : list Z) (len : Z) : writer :=
  let n := Z.to_nat (wrap8 len) in
  poke 0 (wrap8 len) ;;; bump 1 ;;; copy_loop n 0 v ;;; bump n.

Definition nasIe_tlv_t4 (t : Z) (v : list Z) (len : Z) : writer :=
  let n := Z.to_nat (wrap8 len) in
  poke 0 t ;;; poke 1 (wrap8 len) ;;; bump 2 ;;; copy_loop n 0 v ;;; bump n.

(** The 16-bit length goes out in network order ([htons]). *)
Definition poke16 (i : nat) (x : Z) : writer :=
  poke i ((x >> 8) .& 0xff) ;;; poke (S i) (x .& 0xff).

Definition nasIe_lv_t6 (v : list Z) (len : Z) : writer :=
  let n := Z.to_nat (wrap16 len) in
  poke16 0 (wrap16 len) ;;; bump 2 ;;; copy_loop n 0 v ;;; bump n.

Definition nasIe_tlv_t6 (t : Z) (v : list Z) (len : Z) : writer :=
  let n := Z.to_nat (wrap16 len) in
  poke 0 t ;;; poke16 1 (wrap16 len) ;;; bump 3 ;;; copy_loop n 0 v ;;; bump n.

(** ** The bytes a writer produces *)

(** [Writes w bs]: wherever the cursor stands, provided [length bs] bytes are
    left, [w] replaces exactly these bytes with [bs], moves the cursor behind
    them and leaves the rest of the buffer alone. *)
Class Writes (w : writer) (bs : list Z) : Prop :=
  writes : forall pre mid post, length mid = length bs ->
    w (WBuf (pre ++ mid ++ post) (length pre)) =
    Ok (WBuf (pre ++ bs ++ post) (length pre + length bs)).

(** Stores that do not move the cursor, from offset [i] on. *)
Definition Pokes (w : writer) (i : nat) (bs : list Z) : Prop :=
  forall pre hd mid post, length hd = i -> length mid = length bs ->
    w (WBuf (pre ++ hd ++ mid ++ post) (length pre)) =
    Ok (WBuf (pre ++ hd ++ bs ++ post) (length pre)).

Lemma split_at {A} (l : list A) n m : length l = (n + m)%nat ->
  exists a b, l = a ++ b /\ length a = n /\ length b = m.
Proof.
  intros H. exists (take n l), (drop n l). rewrite take_drop, length_take, length_drop.
  split_and!; [done|lia|lia].
Qed.

Lemma pokes_byte i b : byte_ok b -> Pokes (poke i b) i [b].
Proof.
  intros Hb pre hd mid post <- Hm. destruct mid as [|m []]; try done.
  unfold poke. cbn [wb_buf wb_pos]. rewrite decide_True by (rewrite !length_app; cbn; lia).
  unfold wrap8. rewrite Z.mod_small by (unfold byte_ok in Hb; lia). do 2 f_equal.
  rewrite (assoc (++)), (assoc (++) pre hd), <- length_app.
  by rewrite <- (Nat.add_0_r (length (pre ++ hd))), insert_app_r.
Qed.

Lemma pokes_seq w1 w2 i b1 b2 : Pokes w1 i b1 -> Pokes w2 (i + length b1) b2 ->
  Pokes (w1 ;;; w2) i (b1 ++ b2).
Proof.
  intros H1 H2 pre hd mid post Hh Hm. rewrite length_app in Hm.
  apply split_at in Hm as (m1 & m2 & -> & Hm1 & Hm2). unfold wseq.
  rewrite <- (assoc (++) m1), (H1 _ _ _ _ Hh Hm1). osimp.
  rewrite (assoc (++) hd), (H2 pre (hd ++ b1) m2 post) by (rewrite ?length_app; lia).
  by rewrite <- !(assoc (++)).
Qed.

Lemma writes_pokes_bump w bs : Pokes w 0 bs -> Writes (w ;;; bump (length bs)) bs.
Proof.
  intros H pre mid post Hm. unfold wseq.
  pose proof (H pre [] mid post eq_refl Hm) as E. cbn [app] in E. by rewrite E.
Qed.

Lemma wseq_assoc w1 w2 w3 s : (w1 ;;; (w2 ;;; w3)) s = (w1 ;;; w2 ;;; w3) s.
Proof. unfold wseq. by destruct (w1 s). Qed.

Lemma writes_ext w w' bs : (forall s, w s = w' s) -> Writes w bs -> Writes w' bs.
Proof. intros E H pre mid post Hm. rewrite <- E. by apply H. Qed.

#[export] Instance writes_seq w1 w2 b1 b2 :
  Writes w1 b1 -> Writes w2 b2 -> Writes (w1 ;;; w2) (b1 ++ b2).
Proof.
  intros H1 H2 pre mid post Hm. rewrite length_app in Hm.
  apply split_at in Hm as (m1 & m2 & -> & Hm1 & Hm2). unfold wseq.
  rewrite <- (assoc (++) m1), (H1 _ _ _ Hm1). osimp.
  rewrite (assoc (++) pre), <- length_app, (H2 (pre ++ b1) m2 post) by done.
  rewrite !length_app, Nat.add_assoc. by rewrite <- !(assoc (++)).
Qed.

Lemma pokes_copy_loop v : bytes_ok v -> forall done i rest,
  length done = i -> Pokes (copy_loop (length v) i (done ++ v ++ rest)) i v.
Proof.
  induction 1 as [|b v Hb Hv IH]; intros dn i rest Hi pre hd mid post Hh Hm.
  - by destruct mid.
  - destruct mid as [|m mid]; [done|]. cbn [length copy_loop].
    unfold rdi. rewrite adv_app by lia. cbn [rd app]. osimp.
    pose proof (pokes_byte i b Hb pre hd [m] (mid ++ post) Hh eq_refl) as E0.
    cbn [app] in E0 |- *. rewrite E0. osimp.
    pose proof (IH (dn ++ [b]) (S i) rest ltac:(rewrite length_app; cbn; lia)
      pre (hd ++ [b]) mid post ltac:(rewrite length_app; cbn; lia) ltac:(cbn in Hm; lia)) as E.
    rewrite <- !(assoc (++)) in E. exact E.
Qed.

Lemma pokes_copy v rest n : bytes_ok v -> n = length v -> Pokes (copy_loop n 0 (v ++ rest)) 0 v.
Proof. intros Hv ->. exact (pokes_copy_loop v Hv [] 0 rest eq_refl). Qed.

Lemma writes_copy v n : bytes_ok v -> n = length v -> Writes (copy_loop n 0 v ;;; bump n) v.
Proof.
  intros Hv ->. apply writes_pokes_bump. rewrite <- (app_nil_r v) at 2. by apply pokes_copy.
Qed.

Lemma writes_hdr_copy w hd v n k : Pokes w 0 hd -> k = length hd -> bytes_ok v -> n = length v ->
  Writes (w ;;; bump k ;;; copy_loop n 0 v ;;; bump n) (hd ++ v).
Proof.
  intros Hw -> Hv Hn. eapply writes_ext; [intros s; apply wseq_assoc|].
  apply writes_seq; [by apply writes_pokes_bump|by apply writes_copy].
Qed.

(** *** The writers of the library *)


Lemma poke16_be i x : Pokes (poke16 i x) i (be16 x).
Proof.
  pose proof (be16_bytes x) as H. unfold poke16, be16 in *.
  inversion H as [|? ? H1 H2]; inversion H2; subst.
  apply (pokes_seq _ _ i [_] [_]); [by apply pokes_byte|].
  cbn [length]. rewrite Nat.add_1_r. by apply pokes_byte.
Qed.

(** The two half-octet writers always come in pairs: low, then high. *)
#[export] Instance writes_t1_pair v s :
  Writes (nasIe_v_t1_l v ;;; nasIe_v_t1_h s) [nibbles v s].
Proof.
  intros pre mid post Hm. destruct mid as [|m []]; try done.
  unfold wseq, nasIe_v_t1_l, nasIe_v_t1_h, peek. cbn [wb_buf wb_pos app].
  rewrite Nat.add_0_r, list_lookup_middle by done. osimp.
  pose proof (pokes_byte 0 (nibbles v (hi4 m)) (nibbles_byte _ _) pre [] [m] post eq_refl eq_refl) as E.
  cbn [app] in E. rewrite E. osimp. cbn [wb_buf wb_pos].
  rewrite Nat.add_0_r, list_lookup_middle by done. osimp.
  assert (Hn : nibbles (lo4 (nibbles v (hi4 m))) s = nibbles v s).
  { rewrite !nibbles_arith, lo4_arith. lia. }
  rewrite Hn.
  pose proof (writes_pokes_bump _ _ (pokes_byte 0 (nibbles v s) (nibbles_byte _ _))
    pre [nibbles v (hi4 m)] post eq_refl) as E2.
  exact E2.
Qed.

#[export] Instance writes_tv_t1 t v : Writes (nasIe_tv_t1 t v) [nibbles t v].
Proof.
  intros pre mid post Hm. pose proof (writes_t1_pair t v pre mid post Hm) as E.
  rewrite <- E. unfold nasIe_tv_t1, wseq, nasIe_v_t1_l, nasIe_v_t1_h.
  destruct (peek 0 _); [|done]. osimp. by destruct (poke 0 _ _).
Qed.

#[export] Instance writes_t_t2 t : byte_ok t -> Writes (nasIe_t_t2 t) [t].
Proof. intros Ht. by apply (writes_pokes_bump (poke 0 t) [t]), pokes_byte. Qed.

Section ValueWriters.
Context (t : Z) (v : list Z) (Ht : byte_ok t) (Hv : bytes_ok v).

Lemma writes_v_t3 n : n = Z.of_nat (length v) -> n < 256 -> Writes (nasIe_v_t3 v n) v.
Proof. intros. unfold nasIe_v_t3. rewrite wrap8_id by lia. apply writes_copy; [done|lia]. Qed.

Lemma writes_tv_t3 n : n = Z.of_nat (length v) -> n < 256 ->
  Writes (nasIe_tv_t3 t v n) (t :: v).
Proof.
  intros. unfold nasIe_tv_t3. rewrite wrap8_id by lia.
  apply (writes_hdr_copy _ [t]); [by apply pokes_byte|done|done|lia].
Qed.

Lemma writes_lv_t4 n : n = Z.of_nat (length v) -> n < 256 ->
  Writes (nasIe_lv_t4 v n) (n :: v).
Proof.
  intros. unfold nasIe_lv_t4. rewrite wrap8_id by lia.
  apply (writes_hdr_copy _ [n]); [apply pokes_byte; unfold byte_ok; lia|done|done|lia].
Qed.

Lemma writes_tlv_t4 n : n = Z.of_nat (length v) -> n < 256 ->
  Writes (nasIe_tlv_t4 t v n) (t :: n :: v).
Proof.
  intros. unfold nasIe_tlv_t4. rewrite wrap8_id by lia.
  apply (writes_hdr_copy _ [t; n]); [|done|done|lia].
  apply (pokes_seq _ _ _ [t] [n]); apply pokes_byte; [done|unfold byte_ok; lia].
Qed.

Lemma writes_lv_t6 n : n = Z.of_nat (length v) -> n < 65536 ->
  Writes (nasIe_lv_t6 v n) (be16 n ++ v).
Proof.
  intros. unfold nasIe_lv_t6. rewrite wrap16_id by lia.
  apply writes_hdr_copy; [apply poke16_be|done|done|lia].
Qed.

Lemma writes_tlv_t6 n : n = Z.of_nat (length v) -> n < 65536 ->
  Writes (nasIe_tlv_t6 t v n) (t :: be16 n ++ v).
Proof.
  intros. unfold nasIe_tlv_t6. rewrite wrap16_id by lia.
  apply (writes_hdr_copy _ (t :: be16 n)); [|done|done|lia].
  apply (pokes_seq _ _ _ [t] (be16 n)); [by apply pokes_byte|apply poke16_be].
Qed.
End ValueWriters.

#[export] Hint Resolve writes_v_t3 writes_tv_t3 writes_lv_t4 writes_tlv_t4 writes_lv_t6
  writes_tlv_t6 writes_t1_pair writes_tv_t1 writes_t_t2 : mme.

(** Running a writer from the start of an output buffer. *)
Lemma writes_run w bs out : Writes w bs -> (length bs <= length out)%nat ->
  w (WBuf out 0) = Ok (WBuf (bs ++ drop (length bs) out) (length bs)).
Proof.
  intros H Hl. pose proof (H [] (take (length bs) out) (drop (length bs) out)) as E.
  cbn [app length] in E. rewrite take_drop in E. apply E. rewrite length_take. lia.
Qed.
