(* ===== verification/NASDec.v ===== *)
(** The NAS message decoders: src/NAS/src/NASMessages.c, and [dec_EMM],
    [dec_ESM], [dec_NAS], [nas_getHeader] and [nas_NASOpt_lookup] of
    src/NAS/src/NAS.c.  The decoders are total functions into [outcome]: they
    do not check [size] before they read, so a truncated message is undefined
    behaviour ([UB OutOfBounds]) unless a theorem says otherwise. *)
From S2P Require Import Prelude NASTypes NASIe.

(** ** Decoded messages (src/NAS/shared/NASMessages.h) *)

(** [ie_lv_t4_t] and [ie_lv_t6_t]: the length and the bytes that were copied;
    the rest of the array stays zero. *)
Record ie_lv := Ie_lv { lv_l : Z; lv_v : list Z }.

(** [union nAS_ie_member]: the bytes that were copied over a zeroed union. *)
Definition nAS_ie_member := list Z.
(** the members [iei] and [v_t1_h.v] of the union *)
Definition ie_iei (ie : nAS_ie_member) : Z := nth 0 ie 0.
Definition ie_v_t1_h (ie : nAS_ie_member) : Z := hi4 (ie_iei ie).

Record IdentityResponse_t := { IR_mobileId : ie_lv }.
Record AuthenticationResponse_t := { AR_authParam : ie_lv }.
Record AuthenticationFailure_t := { AF_eMMCause : Z; AF_optionals : list nAS_ie_member }.
Record AttachAccept_t := {
  AA_ePSAttachResult : Z; AA_t3412 : Z; AA_tAI_list : ie_lv; AA_eSM_MessageContainer : ie_lv }.
Record AttachComplete_t := { AC_eSM_MessageContainer : ie_lv }.
Record AttachReject_t := { AJ_eMMCause : Z }.
Record AttachRequest_t := {
  AQ_ePSAttachType : Z; AQ_nASKeySetId : Z; AQ_ePSMobileId : ie_lv;
  AQ_uENetworkCapability : ie_lv; AQ_eSM_MessageContainer : ie_lv;
  AQ_optionals : list nAS_ie_member }.
Record DetachRequestUEOrig_t := {
  DO_detachType : Z; DO_nASKeySetId : Z; DO_ePSMobileId : ie_lv }.
Record DetachRequestUETerm_t := { DT_detachType : Z }.
Record TrackingAreaUpdateAccept_t := { TA_ePSUpdateResult : Z }.
Record TrackingAreaUpdateReject_t := { TJ_eMMCause : Z }.
Record TrackingAreaUpdateRequest_t := {
  TQ_ePSUpdateType : Z; TQ_nASKeySetId : Z; TQ_oldGUTI : ie_lv;
  TQ_optionals : list nAS_ie_member }.
Record PDNConnectivityRequest_t := {
  PQ_requestType : Z; PQ_PDNType : Z; PQ_optionals : list nAS_ie_member }.
(** the ESM messages that carry only a cause *)
Record ESMCauseOnly_t := { eSMCause : Z }.
Record ActivateDefaultEPSBearerContextRequest_t := {
  DQ_ePSQoS : ie_lv; DQ_accessPointName : ie_lv; DQ_pDNAddress : ie_lv }.
Record ActivateDedicatedEPSBearerContextRequest_t := {
  ED_linkedEPSId : Z; ED_ePSQoS : ie_lv; ED_tFT : ie_lv }.
Record PDNDisconnectRequest_t := { DR_linkedEPSId : Z }.
Record BearerResourceAllocationRequest_t := {
  BA_linkedEPSId : Z; BA_trafficFlowAggregate : ie_lv; BA_requiredTrafficFlowQoS : ie_lv }.
Record BearerResourceModificationRequest_t := {
  BM_EPSBearerIdForPacketFilter : Z; BM_trafficFlowAggregate : ie_lv }.

(** What the switch of [dec_EMM] ([dec_ESM]) stored behind the message type;
    [..._Nothing] is a message whose decoder is not available. *)
Inductive EMM_body :=
  | B_AttachRequest (m : AttachRequest_t)
  | B_AttachAccept (m : AttachAccept_t)
  | B_AttachComplete (m : AttachComplete_t)
  | B_AttachReject (m : AttachReject_t)
  | B_DetachRequest (m : DetachRequestUEOrig_t)
  | B_TrackingAreaUpdateRequest (m : TrackingAreaUpdateRequest_t)
  | B_AuthenticationResponse (m : AuthenticationResponse_t)
  | B_AuthenticationFailure (m : AuthenticationFailure_t)
  | B_IdentityResponse (m : IdentityResponse_t)
  | B_EMM_Nothing.

Inductive ESM_body :=
  | B_PDNConnectivityRequest (m : PDNConnectivityRequest_t)
  | B_ESM_Nothing.

Record EMM_Message_t := { emm_messageType : Z; emm_body : EMM_body }.
Record ESM_Message_t := {
  esm_procedureTransactionIdentity : Z; esm_messageType : Z; esm_body : ESM_body }.

Inductive NASPlainMsg_t :=
  | plain_zero                       (* memset(msg, 0, ...) and nothing since *)
  | plain_eMM (m : EMM_Message_t)
  | plain_eSM (m : ESM_Message_t).

Record GenericNASMsg_t := {
  gm_protocolDiscriminator : Z; gm_securityHeaderType : Z; gm_plain : NASPlainMsg_t }.

Definition zero_msg : GenericNASMsg_t := Build_GenericNASMsg_t 0 0 plain_zero.

(** ** Mandatory elements *)

(** [ie.l = *buffer; memcpy(ie.v, ++buffer, ie.l); buffer += ie.l;] *)
Definition dec_lv (p : list Z) : outcome (ie_lv * list Z) :=
  l ← rd p; let p := adv p 1 in v ← rdn p l; Ok (Ie_lv l v, adv p l).

(** [memcpy(&ie.l, buffer, 2); ie.l = ntohs(ie.l); buffer += 2; memcpy(ie.v,
    buffer, ie.l); buffer += ie.l;] *)
Definition dec_lve (p : list Z) : outcome (ie_lv * list Z) :=
  lb ← rdn p 2; let l := be_val lb in
  let p := adv p 2 in v ← rdn p l; Ok (Ie_lv l v, adv p l).

Definition dec_IdentityResponse (p : list Z) (size : Z) : outcome IdentityResponse_t :=
  '(id, _) ← dec_lv p; Ok {| IR_mobileId := id |}.

Definition dec_AuthenticationResponse (p : list Z) (size : Z) : outcome AuthenticationResponse_t :=
  '(a, _) ← dec_lv p; Ok {| AR_authParam := a |}.

Definition dec_AuthenticationFailure (p : list Z) (s : Z) : outcome AuthenticationFailure_t :=
  cause ← rd p;
  let p := adv p 1 in
  let size := wrap64 (s - 1) in
  if size =? 0 then Ok {| AF_eMMCause := cause; AF_optionals := [] |}
  else
    opT ← rd p;
    if opT =? 0x30 then
      l ← rdi p 1;
      o ← rdn p (l + 2);
      let p := adv p l in
      let size := wrap64 (wrap64 (size - 2) - l) in
      let m := {| AF_eMMCause := cause; AF_optionals := [o] |} in
      if size =? 0 then Ok m else _ ← rd p; Ok m
    else Ok {| AF_eMMCause := cause; AF_optionals := [] |}.

Definition dec_AttachAccept (p : list Z) (s : Z) : outcome AttachAccept_t :=
  b ← rd p; let p := adv p 1 in
  t ← rd p; let p := adv p 1 in
  '(tai, p) ← dec_lv p;
  '(esm, p) ← dec_lve p;
  Ok {| AA_ePSAttachResult := lo4 b; AA_t3412 := t; AA_tAI_list := tai;
        AA_eSM_MessageContainer := esm |}.

Definition dec_AttachComplete (p : list Z) (size : Z) : outcome AttachComplete_t :=
  '(esm, _) ← dec_lve p; Ok {| AC_eSM_MessageContainer := esm |}.

Definition dec_AttachReject (p : list Z) (size : Z) : outcome AttachReject_t :=
  c ← rd p; Ok {| AJ_eMMCause := c |}.

(** ** Optional elements *)

(** [optionals], [*buffer] and [*size]; [*optIndex] is the number of elements
    stored so far. *)
Record optst := OptSt { os_opts : list nAS_ie_member; os_buf : list Z; os_size : Z }.

(** The store to [optionals[*optIndex]] of an array of [cap] elements. *)
Definition put_opt (cap : nat) (st : optst) (ie : nAS_ie_member) (n : Z) : outcome optst :=
  if decide (length (os_opts st) < cap)%nat
  then Ok (OptSt (os_opts st ++ [ie]) (adv (os_buf st) n) (wrap64 (os_size st - n)))
  else UB OutOfBounds.

Definition dec_NASOpt_tlv (cap : nat) (type : Z) (st : optst) : outcome optst :=
  if os_size st =? 0 then Ok st
  else
    opT ← rd (os_buf st);
    if opT =? type then
      l ← rdi (os_buf st) 1;
      ie ← rdn (os_buf st) (l + 2);
      put_opt cap st ie (l + 2)
    else Ok st.

Definition dec_NASOpt_tv_t3 (cap : nat) (type len : Z) (st : optst) : outcome optst :=
  if os_size st =? 0 then Ok st
  else
    opT ← rd (os_buf st);
    if opT =? type then
      ie ← rdn (os_buf st) len;
      put_opt cap st ie len
    else Ok st.

Definition dec_NASOpt_tv_t1 (cap : nat) (type valueMask : Z) (st : optst) : outcome optst :=
  if os_size st =? 0 then Ok st
  else
    opT ← rd (os_buf st);
    if (opT .& 0xf0) =? (type << 4) then
      put_opt cap st [opT .& (0xf0 .| valueMask)] 1
    else Ok st.

(** A message tries its optional elements in the order of the source. *)
Inductive opt_schema :=
  | OTlv (type : Z)
  | OTv3 (type len : Z)
  | OTv1 (type valueMask : Z).

Definition dec_NASOpt (cap : nat) (o : opt_schema) : optst -> outcome optst :=
  match o with
  | OTlv t => dec_NASOpt_tlv cap t
  | OTv3 t n => dec_NASOpt_tv_t3 cap t n
  | OTv1 t m => dec_NASOpt_tv_t1 cap t m
  end.

Fixpoint dec_NASOpts (cap : nat) (os : list opt_schema) (st : optst) : outcome optst :=
  match os with
  | [] => Ok st
  | o :: os => st ← dec_NASOpt cap o st; dec_NASOpts cap os st
  end.

Definition AttachRequest_schema : list opt_schema :=
  [ OTv3 0x19 4;   (* Old P-TMSI signature *)
    OTlv 0x50;     (* Additional GUTI *)
    OTv3 0x52 6;   (* Last visited registered TAI *)
    OTv3 0x5C 3;   (* DRX Parameter *)
    OTlv 0x31;     (* MS Network Capability *)
    OTv3 0x13 6;   (* Old LAI *)
    OTv1 0x9 0x1;  (* TMSI status *)
    OTlv 0x11;     (* MS Classmark 2 *)
    OTlv 0x20;     (* MS Classmark 3 *)
    OTlv 0x40;     (* Supported Codecs *)
    OTv1 0xF 0x1;  (* Additional update type *)
    OTlv 0x5D;     (* Voice Domain Preference & UE's usage setting *)
    OTv1 0xD 0x1;  (* Device properties *)
    OTv1 0xE 0x1;  (* Old GUTI type *)
    OTv1 0xC 0x1;  (* MS network feature support *)
    OTlv 0x10;     (* TMSI based NRI container *)
    OTlv 0x6A;     (* T3324 value *)
    OTlv 0x5E ].   (* T3412 extended value *)

Definition dec_AttachRequest (p : list Z) (s : Z) : outcome AttachRequest_t :=
  b ← rd p; let p := adv p 1 in let size := wrap64 (s - 1) in
  '(id, p) ← dec_lv p; let size := wrap64 (size - (lv_l id + 1)) in
  '(cap, p) ← dec_lv p; let size := wrap64 (size - (lv_l cap + 1)) in
  '(esm, p) ← dec_lve p; let size := wrap64 (wrap64 (size - 2) - lv_l esm) in
  st ← (if size =? 0 then Ok (OptSt [] p size)
        else dec_NASOpts 17 AttachRequest_schema (OptSt [] p size));
  Ok {| AQ_ePSAttachType := lo4 b; AQ_nASKeySetId := hi4 b; AQ_ePSMobileId := id;
        AQ_uENetworkCapability := cap; AQ_eSM_MessageContainer := esm;
        AQ_optionals := os_opts st |}.

Definition dec_DetachRequestUEOrig (p : list Z) (s : Z) : outcome DetachRequestUEOrig_t :=
  b ← rd p; let p := adv p 1 in
  '(id, _) ← dec_lv p;
  Ok {| DO_detachType := lo4 b; DO_nASKeySetId := hi4 b; DO_ePSMobileId := id |}.

Definition dec_DetachRequestUETerm (p : list Z) (s : Z) : outcome DetachRequestUETerm_t :=
  b ← rd p; Ok {| DT_detachType := lo4 b |}.

Definition dec_TrackingAreaUpdateAccept (p : list Z) (s : Z) : outcome TrackingAreaUpdateAccept_t :=
  b ← rd p; Ok {| TA_ePSUpdateResult := lo4 b |}.

Definition dec_TrackingAreaUpdateReject (p : list Z) (s : Z) : outcome TrackingAreaUpdateReject_t :=
  c ← rd p; Ok {| TJ_eMMCause := c |}.

Definition TrackingAreaUpdateRequest_schema : list opt_schema :=
  [ OTv1 0xB 0xF;  (* Non-current native NAS key set identifier *)
    OTv1 0x8 0x7;  (* GPRS ciphering key sequence number *)
    OTv3 0x19 4;   (* Old P-TMSI signature *)
    OTlv 0x50;     (* Additional GUTI *)
    OTv3 0x55 5;   (* Nonce UE *)
    OTlv 0x58;     (* UE network Capability *)
    OTv3 0x52 6;   (* Last visited registered TAI *)
    OTv3 0x5C 3;   (* DRX Parameter *)
    OTv1 0xA 0x1;  (* UE radio capability information update needed *)
    OTlv 0x57;     (* EPS bearer context status *)
    OTlv 0x31;     (* MS Network Capability *)
    OTv3 0x13 6;   (* Old LAI *)
    OTv1 0x9 0x1;  (* TMSI status *)
    OTlv 0x11;     (* MS Classmark 2 *)
    OTlv 0x20;     (* MS Classmark 3 *)
    OTlv 0x40;     (* Supported Codecs *)
    OTv1 0xF 0x1;  (* Additional update type *)
    OTlv 0x5D;     (* Voice Domain Preference & UE's usage setting *)
    OTv1 0xE 0x1;  (* Old GUTI type *)
    OTv1 0xD 0x1;  (* Device properties *)
    OTv1 0xC 0x1;  (* MS network feature support *)
    OTlv 0x10;     (* TMSI based NRI container *)
    OTlv 0x6A;     (* T3324 value *)
    OTlv 0x5E ].   (* T3412 extended value *)

Definition dec_TrackingAreaUpdateRequest (p : list Z) (s : Z) : outcome TrackingAreaUpdateRequest_t :=
  b ← rd p; let p := adv p 1 in let size := wrap64 (s - 1) in
  '(id, p) ← dec_lv p; let size := wrap64 (size - (lv_l id + 1)) in
  st ← (if size =? 0 then Ok (OptSt [] p size)
        else dec_NASOpts 22 TrackingAreaUpdateRequest_schema (OptSt [] p size));
  Ok {| TQ_ePSUpdateType := lo4 b; TQ_nASKeySetId := hi4 b; TQ_oldGUTI := id;
        TQ_optionals := os_opts st |}.

(** ** ESM messages *)

Definition dec_ActivateDefaultEPSBearerContextAccept (p : list Z) (s : Z) : outcome unit := Ok tt.
Definition dec_ActivateDedicatedEPSBearerContextAccept (p : list Z) (s : Z) : outcome unit := Ok tt.
Definition dec_ModifyEPSBearerContextAccept (p : list Z) (s : Z) : outcome unit := Ok tt.
Definition dec_ModifyEPSBearerContextRequest (p : list Z) (s : Z) : outcome unit := Ok tt.
Definition dec_DeactivateEPSBearerContextAccept (p : list Z) (s : Z) : outcome unit := Ok tt.

(** [memcpy(&msg->eSMCause, buffer, 1)], the body of each of the following. *)
Definition dec_cause (p : list Z) : outcome ESMCauseOnly_t := c ← rd p; Ok {| eSMCause := c |}.
Definition dec_ActivateDefaultEPSBearerContextReject (p : list Z) (s : Z) := dec_cause p.
Definition dec_ActivateDedicatedEPSBearerContextReject (p : list Z) (s : Z) := dec_cause p.
Definition dec_ModifyEPSBearerContextReject (p : list Z) (s : Z) := dec_cause p.
Definition dec_DeactivateEPSBearerContextRequest (p : list Z) (s : Z) := dec_cause p.
Definition dec_PDNConnectivityReject (p : list Z) (s : Z) := dec_cause p.
Definition dec_PDNDisconnectReject (p : list Z) (s : Z) := dec_cause p.
Definition dec_BearerResourceAllocationReject (p : list Z) (s : Z) := dec_cause p.
Definition dec_BearerResourceModificationReject (p : list Z) (s : Z) := dec_cause p.

(** The second [memcpy] has [ePSQoS.v] as its destination: the access point
    name overwrites the quality of service and [accessPointName.v] stays zero. *)
Definition dec_ActivateDefaultEPSBearerContextRequest (p : list Z) (s : Z)
  : outcome ActivateDefaultEPSBearerContextRequest_t :=
  '(qos, p) ← dec_lv p;
  '(apn, p) ← dec_lv p;
  '(pdn, _) ← dec_lv p;
  Ok {| DQ_ePSQoS := Ie_lv (lv_l qos) (lv_v apn ++ drop (length (lv_v apn)) (lv_v qos));
        DQ_accessPointName := Ie_lv (lv_l apn) [];
        DQ_pDNAddress := pdn |}.

(** [buffer -= (l+1); buffer += l;] after [++buffer] brings the pointer back to
    the length octet of the quality of service, which is read again as [tFT]. *)
Definition dec_ActivateDedicatedEPSBearerContextRequest (p : list Z) (s : Z)
  : outcome ActivateDedicatedEPSBearerContextRequest_t :=
  b ← rd p; let p := adv p 1 in
  '(qos, _) ← dec_lv p;
  '(tft, _) ← dec_lv p;
  Ok {| ED_linkedEPSId := lo4 b; ED_ePSQoS := qos; ED_tFT := tft |}.

Definition PDNConnectivityRequest_schema : list opt_schema :=
  [ OTv1 0xD 0x1;  (* ESM information transfer flag *)
    OTlv 0x28;     (* Access point name *)
    OTlv 0x27;     (* Protocol configuration options *)
    OTv1 0xC 0x1 ]. (* Device properties *)

Definition dec_PDNConnectivityRequest (p : list Z) (s : Z) : outcome PDNConnectivityRequest_t :=
  b ← rd p; let p := adv p 1 in let size := wrap64 (s - 1) in
  st ← (if size =? 0 then Ok (OptSt [] p size)
        else dec_NASOpts 4 PDNConnectivityRequest_schema (OptSt [] p size));
  Ok {| PQ_requestType := lo4 b; PQ_PDNType := hi4 b; PQ_optionals := os_opts st |}.

Definition dec_PDNDisconnectRequest (p : list Z) (s : Z) : outcome PDNDisconnectRequest_t :=
  b ← rd p; Ok {| DR_linkedEPSId := lo4 b |}.

Definition dec_BearerResourceAllocationRequest (p : list Z) (s : Z)
  : outcome BearerResourceAllocationRequest_t :=
  b ← rd p; let p := adv p 1 in
  '(tfa, p) ← dec_lv p;
  '(qos, _) ← dec_lv p;
  Ok {| BA_linkedEPSId := lo4 b; BA_trafficFlowAggregate := tfa; BA_requiredTrafficFlowQoS := qos |}.

Definition dec_BearerResourceModificationRequest (p : list Z) (s : Z)
  : outcome BearerResourceModificationRequest_t :=
  b ← rd p; let p := adv p 1 in
  '(tfa, _) ← dec_lv p;
  Ok {| BM_EPSBearerIdForPacketFilter := lo4 b; BM_trafficFlowAggregate := tfa |}.

(** The loop [while(buffer < end)] of [dec_nonImperativeIE]: the pointers it
    stores, as the suffixes they point to; [n] is [end - buffer] and [fuel]
    bounds the iterations (each one advances the pointer). *)
Fixpoint nonImperativeIE_loop (fuel : nat) (p : list Z) (n : Z) : outcome (list (list Z)) :=
  match fuel with
  | O => Ok []
  | S fuel =>
    if n <=? 0 then Ok []
    else
      iei ← rd p;
      let q := adv p 1 in
      k ← (if (iei .& 0x80) =? 0 then
             if (iei .& 0x78) =? 0x78
             then lb ← rdn q 2; Ok (be_val lb + 2)
             else l ← rd q; Ok (l + 1)
           else Ok 0);
      ps ← nonImperativeIE_loop fuel (adv q k) (n - 1 - k);
      Ok (p :: ps)
  end.

Definition dec_nonImperativeIE (p : list Z) (size : Z) : outcome (list (list Z)) :=
  nonImperativeIE_loop (Z.to_nat size) p size.

(** ** Message dispatch *)

(** The switch of [dec_EMM] on the message type. *)
Definition dec_EMM_switch (messageType : Z) (buf : list Z) (size : Z) : outcome EMM_body :=
  match NASMessageType_of messageType with
  | Some AttachRequest => B_AttachRequest <$> dec_AttachRequest buf size
  | Some AttachAccept => B_AttachAccept <$> dec_AttachAccept buf size
  | Some AttachComplete => B_AttachComplete <$> dec_AttachComplete buf size
  | Some AttachReject => B_AttachReject <$> dec_AttachReject buf size
  | Some DetachRequest => B_DetachRequest <$> dec_DetachRequestUEOrig buf size
  | Some TrackingAreaUpdateRequest =>
      B_TrackingAreaUpdateRequest <$> dec_TrackingAreaUpdateRequest buf size
  | Some AuthenticationResponse =>
      B_AuthenticationResponse <$> dec_AuthenticationResponse buf size
  | Some AuthenticationFailure =>
      B_AuthenticationFailure <$> dec_AuthenticationFailure buf size
  | Some IdentityResponse => B_IdentityResponse <$> dec_IdentityResponse buf size
  | _ => Ok B_EMM_Nothing
  end.

Definition dec_EMM (buf : list Z) (s : Z) : outcome EMM_Message_t :=
  messageType ← rd buf;
  body ← dec_EMM_switch messageType (adv buf 1) (wrap64 (s - 1));
  Ok {| emm_messageType := messageType; emm_body := body |}.

(** The switch of [dec_ESM]: the request to activate a default bearer goes to
    the (empty) decoder of the accept. *)
Definition dec_ESM_switch (messageType : Z) (buf : list Z) (size : Z) : outcome ESM_body :=
  match NASMessageType_of messageType with
  | Some ActivateDefaultEPSBearerContextRequest =>
      _ ← dec_ActivateDefaultEPSBearerContextAccept buf size; Ok B_ESM_Nothing
  | Some PDNConnectivityRequest =>
      B_PDNConnectivityRequest <$> dec_PDNConnectivityRequest buf size
  | _ => Ok B_ESM_Nothing
  end.

Definition dec_ESM (buf : list Z) (s : Z) : outcome ESM_Message_t :=
  pti ← rd buf; let buf := adv buf 1 in
  messageType ← rd buf;
  body ← dec_ESM_switch messageType (adv buf 1) (wrap64 (s - 2));
  Ok {| esm_procedureTransactionIdentity := pti; esm_messageType := messageType;
        esm_body := body |}.

(** [nas_getHeader]: the security header type and the protocol discriminator;
    [None] for the return value 0, when the outputs are not written.  [None]
    as the buffer is the null pointer. *)
Definition nas_getHeader (buf : option (list Z)) (size : Z) : outcome (option (Z * Z)) :=
  match buf with
  | None => Ok None
  | Some p => if size <? 1 then Ok None else b ← rd p; Ok (Some (hi4 b, lo4 b))
  end.

(** [dec_NAS]: the return value and the message. *)
Definition dec_NAS (buf : list Z) (size : Z) : outcome (Z * GenericNASMsg_t) :=
  hdr ← nas_getHeader (Some buf) (wrap32 size);
  match hdr with
  | None => Ok (0, zero_msg)
  | Some (s, p) =>
    let msg := Build_GenericNASMsg_t p s plain_zero in
    if negb (is_enum s PlainNAS) ||
       negb (negb (is_enum p EPSSessionManagementMessages) ||
             negb (is_enum p EPSMobilityManagementMessages))
    then Ok (0, msg)
    else if is_enum p EPSMobilityManagementMessages
    then e ← dec_EMM (adv buf 1) (wrap64 (size - 1)); Ok (1, Build_GenericNASMsg_t p s (plain_eMM e))
    else e ← dec_ESM (adv buf 1) (wrap64 (size - 1)); Ok (1, Build_GenericNASMsg_t p s (plain_eSM e))
  end.

(** [nas_NASOpt_lookup]: the index of the element found in the array
    [optionals], whose elements behind the decoded ones are zero. *)
Fixpoint NASOpt_lookup_loop (optionals : list nAS_ie_member) (i maxOpts : nat) (iei : Z) : option nat :=
  match maxOpts with
  | O => None
  | S k =>
    let ie := nth i optionals [] in
    if ie_iei ie =? 0 then None
    else if (iei .& 0xf8) =? 0x08
         then if ie_v_t1_h ie =? iei then Some i else NASOpt_lookup_loop optionals (S i) k iei
         else if ie_iei ie =? iei then Some i else NASOpt_lookup_loop optionals (S i) k iei
  end.

Definition nas_NASOpt_lookup (optionals : list nAS_ie_member) (maxOpts : nat) (iei : Z)
  : option nAS_ie_member :=
  match NASOpt_lookup_loop optionals 0 maxOpts iei with
  | Some i => Some (nth i optionals [])
  | None => None
  end.

(** ** Optional elements: what the decoder accepts *)

(** The test on the first octet. *)
Definition opt_matches (o : opt_schema) (b : Z) : bool :=
  match o with
  | OTlv t | OTv3 t _ => b =? t
  | OTv1 t _ => (b .& 0xf0) =? (t << 4)
  end.

(** A well-formed element of the schema, and what is stored for it. *)
Definition opt_wf (o : opt_schema) (ie : list Z) : Prop :=
  match o, ie with
  | OTlv t, b :: l :: v => opt_matches o b = true /\ l = Z.of_nat (length v) /\ l < 256
  | OTv3 t n, b :: v => opt_matches o b = true /\ n = Z.of_nat (length ie)
  | OTv1 t m, [b] => opt_matches o b = true
  | _, _ => False
  end.
Definition opt_stored (o : opt_schema) (ie : list Z) : nAS_ie_member :=
  match o, ie with
  | OTv1 _ m, b :: _ => [b .& (0xf0 .| m)]
  | _, _ => ie
  end.

(** No octet starts an element of two schemas: decided over all octets. *)
Definition opt_disjoint (o o' : opt_schema) : bool :=
  forallb (fun b => negb (opt_matches o b && opt_matches o' b)) (seqZ 0 256).
Fixpoint schema_distinct (os : list opt_schema) : bool :=
  match os with
  | [] => true
  | o :: os => forallb (opt_disjoint o) os && schema_distinct os
  end.

(** A message carries some of the optional elements, in the schema's order. *)
Inductive opts_of : list opt_schema -> list Z -> list nAS_ie_member -> Prop :=
  | opts_nil : opts_of [] [] []
  | opts_absent o os bs ms : opts_of os bs ms -> opts_of (o :: os) bs ms
  | opts_present o os ie bs ms : opt_wf o ie -> bytes_ok ie -> opts_of os bs ms ->
      opts_of (o :: os) (ie ++ bs) (opt_stored o ie :: ms).

Lemma opt_wf_cons o ie : opt_wf o ie -> exists b v, ie = b :: v /\ opt_matches o b = true.
Proof. destruct o, ie as [|b [|l v]]; cbn; naive_solver. Qed.

Lemma opts_of_head os b bs ms : opts_of os (b :: bs) ms ->
  byte_ok b /\ exists o, o ∈ os /\ opt_matches o b = true.
Proof.
  remember (b :: bs) as l eqn:El. induction 1 as [|o os l' ms H IH|o os ie l' ms Hwf Hb H IH]; [done| |].
  - destruct (IH El) as (? & o' & ? & ?). split; [done|]. exists o'. split; [by right|done].
  - apply opt_wf_cons in Hwf as (b' & v & -> & Hm). cbn in El. simplify_eq.
    inversion Hb; subst. split; [done|]. exists o. split; [by left|done].
Qed.

Lemma opt_no_match o os b bs ms : forallb (opt_disjoint o) os = true ->
  opts_of os (b :: bs) ms -> opt_matches o b = false.
Proof.
  intros Hd H. apply opts_of_head in H as (Hb & o' & Hin & Hm).
  rewrite forallb_forall in Hd. apply list_elem_of_In, Hd in Hin.
  pose proof (byte_forall _ Hin b Hb) as E. cbn beta in E. rewrite Hm, andb_true_r in E.
  by apply negb_true_iff.
Qed.

Definition in_sync (st : optst) : Prop :=
  os_size st = Z.of_nat (length (os_buf st)) /\ os_size st < 2^64.

(** An element that is not there is skipped. *)
Lemma dec_NASOpt_skip cap o st : in_sync st ->
  (forall b q, os_buf st = b :: q -> opt_matches o b = false) ->
  dec_NASOpt cap o st = Ok st.
Proof.
  intros [Hs _] Hm. destruct st as [ms [|b q] n]; cbn in *.
  - subst n. by destruct o.
  - specialize (Hm b q eq_refl).
    destruct o; cbn; unfold dec_NASOpt_tlv, dec_NASOpt_tv_t3, dec_NASOpt_tv_t1; cbn in *;
      (destruct (Z.eqb_spec n 0); [done|]); osimp; by rewrite Hm.
Qed.

(** An element that is there is stored and consumed. *)
Lemma dec_NASOpt_take cap o st ie q : in_sync st -> os_buf st = ie ++ q -> opt_wf o ie ->
  (length (os_opts st) < cap)%nat ->
  dec_NASOpt cap o st =
    Ok (OptSt (os_opts st ++ [opt_stored o ie]) q (Z.of_nat (length q))).
Proof.
  intros [Hs Hlt] Hb Hwf Hc. destruct st as [ms buf n]; cbn in *. subst buf.
  rewrite length_app in Hs.
  assert (Hput : forall m, put_opt cap (OptSt ms (ie ++ q) n) m (Z.of_nat (length ie)) =
            Ok (OptSt (ms ++ [m]) q (Z.of_nat (length q)))).
  { intros m. unfold put_opt. cbn. rewrite decide_True by done.
    rewrite adv_app by done. do 2 f_equal. unfold wrap64. rewrite Z.mod_small; lia. }
  assert (Hn : (n =? 0) = false).
  { apply opt_wf_cons in Hwf as (b & v & -> & _). cbn in Hs. lia. }
  destruct o; unfold dec_NASOpt, dec_NASOpt_tlv, dec_NASOpt_tv_t3, dec_NASOpt_tv_t1;
    cbn [os_size os_buf]; rewrite Hn.
  - destruct ie as [|b [|l v]]; try done. destruct Hwf as (Hm & Hl & _). cbn in Hm.
    cbn [app rd]. osimp. rewrite Hm. unfold rdi. rewrite adv_1. cbn [rd]. osimp.
    replace (l + 2) with (Z.of_nat (length (b :: l :: v))) by (cbn [length]; lia).
    pose proof (rdn_app (b :: l :: v) q _ eq_refl) as E. cbn [app] in E, Hput.
    rewrite E. osimp. apply Hput.
  - destruct ie as [|b v]; try done. destruct Hwf as (Hm & ->). cbn in Hm.
    cbn [app rd]. osimp. rewrite Hm.
    pose proof (rdn_app (b :: v) q _ eq_refl) as E. cbn [app] in E, Hput.
    rewrite E. osimp. apply Hput.
  - destruct ie as [|b [|]]; try done. cbn in Hwf. cbn [app rd]. osimp. rewrite Hwf.
    apply (Hput [b .& (0xf0 .| valueMask)]).
Qed.

Lemma dec_NASOpts_all cap os bs ms : opts_of os bs ms -> forall acc,
  schema_distinct os = true -> Z.of_nat (length bs) < 2^64 ->
  (length acc + length ms <= cap)%nat ->
  dec_NASOpts cap os (OptSt acc bs (Z.of_nat (length bs))) = Ok (OptSt (acc ++ ms) [] 0).
Proof.
  induction 1 as [|o os bs ms H IH|o os ie bs ms Hwf Hb H IH]; intros acc Hd Hlt Hcap;
    cbn [dec_NASOpts].
  - by rewrite app_nil_r.
  - cbn in Hd. apply andb_true_iff in Hd as [Hd1 Hd2].
    rewrite dec_NASOpt_skip; [|done|].
    + osimp. by apply IH.
    + cbn. intros b q ->. eapply opt_no_match; eauto.
  - cbn in Hd. apply andb_true_iff in Hd as [Hd1 Hd2]. cbn in Hcap.
    rewrite (dec_NASOpt_take cap o _ ie bs); [|done|done|done|cbn; lia].
    osimp. cbn [os_opts]. rewrite IH; [by rewrite <- (assoc (++))|done| |].
    + rewrite length_app in Hlt. lia.
    + rewrite length_app. cbn. lia.
Qed.

Lemma dec_NASOpts_empty cap os acc : dec_NASOpts cap os (OptSt acc [] 0) = Ok (OptSt acc [] 0).
Proof.
  induction os as [|o os IH]; cbn [dec_NASOpts]; [done|].
  rewrite dec_NASOpt_skip; [exact IH|by split|done].
Qed.

(** The memory ends inside of the element of a schema, or in front of it. *)
Definition cut_off (o : opt_schema) (rest : list Z) : Prop :=
  match rest with
  | [] => True
  | b :: q => opt_matches o b = true /\
    match o with
    | OTlv _ => match q with [] => True | l :: v => Z.of_nat (length v) < l end
    | OTv3 _ n => Z.of_nat (length rest) < n
    | OTv1 _ _ => False
    end
  end.

(** An element is read ([ie] of [k] octets) and [m] is stored for it. *)
Lemma put_opt_cases cap st m k ie : rdn (os_buf st) k = Ok ie -> 0 <= k ->
  match put_opt cap st m k with
  | Ok st' => os_buf st = ie ++ os_buf st' /\ os_size st' = wrap64 (os_size st - Z.of_nat (length ie)) /\
      os_opts st' = os_opts st ++ [m] /\ (length (os_opts st) < cap)%nat
  | UB f => f = OutOfBounds /\ (cap <= length (os_opts st))%nat /\ exists q, os_buf st = ie ++ q
  end.
Proof.
  intros Hr Hk. apply rdn_Ok in Hr as [E L]; [|done]. unfold put_opt. case_decide; cbn [os_buf os_size os_opts].
  - split_and!; [exact E|by rewrite L|done|done].
  - split; [done|]. split; [lia|eauto].
Qed.

Lemma rdn_UB p n f : rdn p n = UB f -> f = OutOfBounds /\ Z.of_nat (length p) < n.
Proof. unfold rdn. destruct (Z.ltb_spec (Z.of_nat (length p)) n); [|done]. by intros [= <-]. Qed.

(** One step of the optional part. *)
Lemma dec_NASOpt_step cap o st : bytes_ok (os_buf st) -> (forall t n, o = OTv3 t n -> 1 <= n) ->
  match dec_NASOpt cap o st with
  | Ok st' => st' = st \/ (os_size st <> 0 /\ exists ie, os_buf st = ie ++ os_buf st' /\ opt_wf o ie /\
      os_size st' = wrap64 (os_size st - Z.of_nat (length ie)) /\
      os_opts st' = os_opts st ++ [opt_stored o ie] /\ (length (os_opts st) < cap)%nat)
  | UB f => f = OutOfBounds /\ os_size st <> 0 /\
      (cut_off o (os_buf st) \/ ((cap <= length (os_opts st))%nat /\ exists ie q, os_buf st = ie ++ q /\ opt_wf o ie))
  end.
Proof.
  intros Hb Hn. destruct st as [ms buf n]; cbn [os_buf os_size os_opts] in *.
  assert (Hput : forall ie k, rdn buf k = Ok ie -> 0 <= k -> opt_wf o ie -> n <> 0 ->
    match put_opt cap (OptSt ms buf n) (opt_stored o ie) k with
    | Ok st' => st' = OptSt ms buf n \/ (n <> 0 /\ exists ie, buf = ie ++ os_buf st' /\ opt_wf o ie /\
        os_size st' = wrap64 (n - Z.of_nat (length ie)) /\ os_opts st' = ms ++ [opt_stored o ie] /\ (length ms < cap)%nat)
    | UB f => f = OutOfBounds /\ n <> 0 /\ (cut_off o buf \/ ((cap <= length ms)%nat /\ exists ie q, buf = ie ++ q /\ opt_wf o ie))
    end).
  { intros ie k Hr Hk Hw Hne. pose proof (put_opt_cases cap (OptSt ms buf n) (opt_stored o ie) k ie Hr Hk) as P.
    cbn [os_buf os_size os_opts] in P. destruct (put_opt _ _ _ _) as [st'|f].
    - destruct P as (E & Es & Eo & Hc). right. split; [done|]. by exists ie.
    - destruct P as (-> & Hc & q & E). split; [done|]. split; [done|]. right. split; [done|]. by exists ie, q. }
  destruct o; unfold dec_NASOpt, dec_NASOpt_tlv, dec_NASOpt_tv_t3, dec_NASOpt_tv_t1;
    cbn [os_size os_buf]; (destruct (Z.eqb_spec n 0) as [->|Hne]; [by left|]);
    (destruct buf as [|b q]; [by split; [|split; [|left]]|]); cbn [rd]; osimp;
    match goal with |- context [if ?c then _ else _] => destruct c eqn:Hm end; try by left.
  - unfold rdi. rewrite adv_1. destruct q as [|l v]; [by split; [|split; [|left]]|]. cbn [rd]. osimp.
    inversion Hb as [|? ? _ Hb2]; inversion Hb2 as [|? ? Hl _]; subst. unfold byte_ok in Hl.
    destruct (rdn (b :: l :: v) (l + 2)) as [ie|] eqn:Hr; osimp.
    + pose proof Hr as Hr'. apply rdn_Ok in Hr' as [E2 Hl2]; [|lia]. apply (Hput ie (l + 2)); [done|lia| |done].
      destruct ie as [|b' [|l' v']]; [cbn in Hl2; lia|cbn in Hl2; lia|].
      cbn in E2. injection E2 as -> -> _. cbn. cbn in Hl2. split_and!; [done|lia|lia].
    + apply rdn_UB in Hr as [-> L]. split; [done|]. split; [done|]. left. cbn. split; [done|]. cbn in L. lia.
  - specialize (Hn type len eq_refl). destruct (rdn (b :: q) len) as [ie|] eqn:Hr; osimp.
    + pose proof Hr as Hr'. apply rdn_Ok in Hr' as [E2 Hl2]; [|lia]. apply (Hput ie len); [done|lia| |done].
      destruct ie as [|b' v']; [cbn in Hl2; lia|]. cbn in E2. injection E2 as -> _. by split.
    + apply rdn_UB in Hr as [-> L]. split; [done|]. split; [done|]. left. by split.
  - apply (Hput [b] 1 (rdn_app [b] q 1 eq_refl)); [lia|done|done].
Qed.

(** Every fixed-length element of the schema has a tag octet. *)
Definition schema_wf (os : list opt_schema) : bool :=
  forallb (fun o => match o with OTv3 _ n => 1 <=? n | _ => true end) os.

(** One of the elements that [bs] consists of begins in front of the end of the
    [n] announced octets and ends behind it. *)
Definition crosses (os : list opt_schema) (n : Z) (bs : list Z) : Prop := exists bs1 ie bs2,
  bs = bs1 ++ ie ++ bs2 /\ (exists o, o ∈ os /\ opt_wf o ie) /\
  Z.of_nat (length bs1) < n < Z.of_nat (length (bs1 ++ ie)).

Lemma crosses_first o os n ie bs : opt_wf o ie -> 0 < n < Z.of_nat (length ie) -> crosses (o :: os) n (ie ++ bs).
Proof. intros Hw Hn. exists [], ie, bs. split; [done|]. split; [by exists o; split; [left|]|]. cbn. lia. Qed.

Lemma crosses_cons o os n ie bs : crosses os (n - Z.of_nat (length ie)) bs -> crosses (o :: os) n (ie ++ bs).
Proof.
  intros (b1 & e & b2 & -> & (o' & Ho & Hw) & L). exists (ie ++ b1), e, b2. rewrite <- !(assoc_L (++)). split; [done|].
  split; [by exists o'; split; [right|]|]. rewrite !length_app in *. lia.
Qed.

Lemma crosses_skip o os n bs : crosses os n bs -> crosses (o :: os) n bs.
Proof. intros (b1 & e & b2 & E & (o' & Ho & Hw) & L). exists b1, e, b2. split; [done|]. split; [|done]. by exists o'; split; [right|]. Qed.

Lemma wrap64_sub_wrap a b c : wrap64 (wrap64 (a - b) - c) = wrap64 (a - (b + c)).
Proof. unfold wrap64. rewrite Zminus_mod_idemp_l. f_equal. lia. Qed.

(** What the loop has consumed when it stops. *)
Definition consumed (os : list opt_schema) (st : optst) (bs : list Z) (ms : list nAS_ie_member) (rest : list Z) : Prop :=
  os_buf st = bs ++ rest /\ opts_of os bs ms /\
  (Z.of_nat (length bs) <= os_size st \/ crosses os (os_size st) bs).

Lemma consumed_skip o os st bs ms rest : consumed os st bs ms rest -> consumed (o :: os) st bs ms rest.
Proof. intros (E & H & [L|C]); (split; [done|]); (split; [by constructor|]); [by left|right; by apply crosses_skip]. Qed.

Lemma consumed_take o os st st1 ie bs ms rest : 0 <= os_size st < 2^64 -> os_size st <> 0 -> opt_wf o ie -> bytes_ok ie -> os_buf st = ie ++ os_buf st1 ->
  os_size st1 = wrap64 (os_size st - Z.of_nat (length ie)) -> consumed os st1 bs ms rest ->
  consumed (o :: os) st (ie ++ bs) (opt_stored o ie :: ms) rest.
Proof.
  intros Hr Hne Hw Hb E Es (E1 & H & C). split; [by rewrite E, E1, (assoc_L (++))|]. split; [by constructor|].
  rewrite length_app. destruct (Z.le_gt_cases (Z.of_nat (length ie)) (os_size st)) as [L|L].
  - rewrite Es, wrap64_id in C by lia. destruct C as [C|C]; [left; lia|right; by apply crosses_cons].
  - right. apply crosses_first; [done|lia].
Qed.

(** C32: soundness of the optional part, for any octets in memory and any
    announced size, whether or not the memory holds as many octets.
    If the decoder returns, then what it consumed is a sequence of well-formed
    elements in the order of the schema, what it stored is these elements, the
    array was not overrun, and the size counter went down by their octets modulo
    2^64; they end within the announced size unless one of them begins inside of
    it and ends behind it: only then the counter wraps around and the decoder goes
    on behind the end.  The only undefined behaviour is an access out of bounds:
    after such elements the size is not used up, and the memory ends in front of
    or inside of the next one, or the array has no room for it. *)
Theorem dec_NASOpts_sound cap os st : schema_wf os = true -> bytes_ok (os_buf st) ->
  0 <= os_size st < 2^64 -> (length (os_opts st) <= cap)%nat ->
  match dec_NASOpts cap os st with
  | Ok st' => (length (os_opts st') <= cap)%nat /\ exists bs ms,
      consumed os st bs ms (os_buf st') /\ os_opts st' = os_opts st ++ ms /\
      os_size st' = wrap64 (os_size st - Z.of_nat (length bs))
  | UB f => f = OutOfBounds /\ exists os1 o os2 bs ms rest, os = os1 ++ o :: os2 /\
      consumed os1 st bs ms rest /\ wrap64 (os_size st - Z.of_nat (length bs)) <> 0 /\
      (cut_off o rest \/ (length (os_opts st ++ ms) = cap /\ exists ie q, rest = ie ++ q /\ opt_wf o ie))
  end.
Proof.
  revert st. induction os as [|o os IH]; intros st Hwf Hb Hs Hc; cbn [dec_NASOpts].
  - split; [done|]. exists [], []. rewrite app_nil_r, Z.sub_0_r, wrap64_id by done.
    split; [split; [done|split; [constructor|left; cbn; lia]]|done].
  - cbn in Hwf. apply andb_true_iff in Hwf as [Hw1 Hw2].
    pose proof (dec_NASOpt_step cap o st Hb ltac:(intros ? ? ->; lia)) as S1.
    destruct (dec_NASOpt cap o st) as [st1|f]; osimp.
    + destruct S1 as [->|(Hne & ie & E & Hie & Es & Eo & Hc1)].
      * specialize (IH st Hw2 Hb Hs Hc). destruct (dec_NASOpts cap os st) as [st'|f].
        -- destruct IH as (? & bs & ms & C & ?). split; [done|]. exists bs, ms. by split; [apply consumed_skip|].
        -- destruct IH as (-> & os1 & o' & os2 & bs & ms & rest & -> & C & H). split; [done|].
           exists (o :: os1), o', os2, bs, ms, rest. split; [done|]. by split; [apply consumed_skip|].
      * rewrite E in Hb. apply Forall_app in Hb as [Hb1 Hb2].
        assert (Hs1 : 0 <= os_size st1 < 2^64) by (rewrite Es; unfold wrap64; lia).
        specialize (IH st1 Hw2 Hb2 Hs1 ltac:(rewrite Eo, length_app; cbn; lia)). destruct (dec_NASOpts cap os st1) as [st'|f].
        -- destruct IH as (? & bs & ms & C & Eo' & Es'). split; [done|]. exists (ie ++ bs), (opt_stored o ie :: ms).
           split; [by apply (consumed_take o os st st1)|]. rewrite Eo', Eo, <- (assoc_L (++)). split; [done|].
           rewrite Es', Es, wrap64_sub_wrap, length_app. f_equal. lia.
        -- destruct IH as (-> & os1 & o' & os2 & bs & ms & rest & -> & C & H1 & H2). split; [done|].
           exists (o :: os1), o', os2, (ie ++ bs), (opt_stored o ie :: ms), rest. split; [done|].
           split; [by apply (consumed_take o os1 st st1)|]. rewrite Es, wrap64_sub_wrap in H1.
           rewrite length_app, Nat2Z.inj_add. split; [done|]. by rewrite Eo, <- (assoc_L (++)) in H2.
    + destruct S1 as (-> & Hne & H). split; [done|]. exists [], o, os, [], [], (os_buf st). split; [done|].
      split; [split; [done|split; [constructor|left; cbn; lia]]|]. rewrite Z.sub_0_r, wrap64_id, app_nil_r by done. split; [done|].
      destruct H as [H|[H1 H2]]; [by left|right; split; [lia|done]].
Qed.

(** A size that ends inside of an element: the counter wraps around. *)
Lemma dec_NASOpts_sound_witness :
  exists st' bs, dec_NASOpts 4 PDNConnectivityRequest_schema (OptSt [] [0x27; 5; 1; 2; 3; 4; 5; 6] 3) = Ok st' /\
    os_size st' = wrap64 (3 - Z.of_nat (length bs)) /\ os_size st' = 2^64 - 4 /\
    consumed PDNConnectivityRequest_schema (OptSt [] [0x27; 5; 1; 2; 3; 4; 5; 6] 3) bs (os_opts st') (os_buf st').
Proof.
  pose proof (dec_NASOpts_sound 4 PDNConnectivityRequest_schema (OptSt [] [0x27; 5; 1; 2; 3; 4; 5; 6] 3)
    eq_refl ltac:(repeat constructor; unfold byte_ok; lia) ltac:(cbn; lia) ltac:(cbn; lia)) as H.
  destruct (dec_NASOpts 4 PDNConnectivityRequest_schema (OptSt [] [0x27; 5; 1; 2; 3; 4; 5; 6] 3)) as [st'|f] eqn:E; [|vm_compute in E; discriminate E].
  destruct H as (_ & bs & ms & C & Eo & Es). cbn [os_opts app] in Eo. exists st', bs. rewrite Eo. split; [reflexivity|].
  split; [exact Es|]. split; [|exact C]. vm_compute in E. injection E as <-. reflexivity.
Defined.

(** ** Lookup of a decoded element *)

(** The test [nas_NASOpt_lookup] makes on an element. *)
Definition ie_is (iei : Z) (ie : nAS_ie_member) : bool :=
  if (iei .& 0xf8) =? 0x08 then ie_v_t1_h ie =? iei else ie_iei ie =? iei.

(** The elements decoded with this schema have a non-zero first octet. *)
Definition schema_nonzero (os : list opt_schema) : bool :=
  forallb (fun o => match o with OTlv t | OTv3 t _ => negb (t =? 0) | OTv1 t _ => negb (t << 4 =? 0) end) os.

Lemma opt_stored_nonzero o ie : schema_nonzero [o] = true -> opt_wf o ie ->
  ie_iei (opt_stored o ie) <> 0.
Proof.
  unfold schema_nonzero, ie_iei. cbn. rewrite andb_true_r. intros Hz Hwf.
  destruct (opt_wf_cons o ie Hwf) as (b & v & -> & Hm).
  destruct o; cbn in *; zbool; try congruence.
  intros E. apply Hz. rewrite <- Hm. apply (f_equal (fun x => Z.land x 0xf0)) in E.
  rewrite <- Z.land_assoc, (Z.land_comm (Z.lor _ _)), Z.land_lor_distr_r, Z.lor_comm in E.
  rewrite Z.land_diag in E. rewrite Z.lor_comm in E.
  assert (A : Z.lor 0xf0 (Z.land 0xf0 valueMask) = 0xf0).
  { apply Z.bits_inj'. intros i Hi. rewrite Z.lor_spec, Z.land_spec. by destruct (Z.testbit 0xf0 i). }
  by rewrite A in E.
Qed.

Lemma opts_of_nonzero os bs ms : opts_of os bs ms -> schema_nonzero os = true ->
  Forall (fun ie => ie_iei ie <> 0) ms.
Proof.
  induction 1 as [|o os bs ms H IH|o os ie bs ms Hwf Hb H IH]; unfold schema_nonzero; cbn;
    [constructor|..]; intros [Hz Hz2]%andb_true_iff; [by apply IH|].
  constructor; [|by apply IH]. apply opt_stored_nonzero; [|done]. unfold schema_nonzero. cbn.
  by rewrite andb_true_r.
Qed.

Lemma NASOpt_lookup_loop_find ms iei : Forall (fun ie => ie_iei ie <> 0) ms -> forall pre n,
  (length ms <= n)%nat ->
  (fun i => nth i (pre ++ ms) []) <$> NASOpt_lookup_loop (pre ++ ms) (length pre) n iei =
  List.find (ie_is iei) ms.
Proof.
  induction 1 as [|ie ms Hie H IH]; intros pre n Hn.
  - destruct n as [|n]; [done|]. cbn. rewrite app_nil_r, nth_overflow by done. done.
  - destruct n as [|n]; [cbn in Hn; lia|]. cbn [NASOpt_lookup_loop List.find].
    rewrite (app_nth2 pre) by lia. rewrite Nat.sub_diag. cbn [nth].
    destruct (Z.eqb_spec (ie_iei ie) 0); [done|].
    assert (Hstep : (fun i => nth i (pre ++ ie :: ms) []) <$>
        NASOpt_lookup_loop (pre ++ ie :: ms) (S (length pre)) n iei = List.find (ie_is iei) ms).
    { specialize (IH (pre ++ [ie]) n ltac:(cbn in Hn; lia)). rewrite length_app, Nat.add_1_r in IH.
      assert (Ea : (pre ++ [ie]) ++ ms = pre ++ ie :: ms) by by rewrite <- (assoc (++)).
      by rewrite Ea in IH. }
    assert (Hhit : (fun i => nth i (pre ++ ie :: ms) []) <$> Some (length pre) = Some ie).
    { cbn. rewrite app_nth2 by lia. by rewrite Nat.sub_diag. }
    change (ie_is iei ie) with
      (if (iei .& 0xf8) =? 0x08 then ie_v_t1_h ie =? iei else ie_iei ie =? iei).
    destruct ((iei .& 0xf8) =? 0x08).
    + destruct (ie_v_t1_h ie =? iei); [exact Hhit|exact Hstep].
    + destruct (ie_iei ie =? iei); [exact Hhit|exact Hstep].
Qed.

(** on the elements the decoder stored, [nas_NASOpt_lookup] returns the
    first one with the requested identifier (the whole octet, or its high half
    for the identifiers 8 to 15) and the null pointer exactly when there is
    none: the scan never stops early and never leaves the array. *)
Theorem NASOpt_lookup_decoded os bs ms maxOpts iei :
  opts_of os bs ms -> schema_nonzero os = true -> (length ms <= maxOpts)%nat ->
  nas_NASOpt_lookup ms maxOpts iei = List.find (ie_is iei) ms.
Proof.
  intros Ho Hz Hl. unfold nas_NASOpt_lookup.
  rewrite <- (NASOpt_lookup_loop_find ms iei (opts_of_nonzero _ _ _ Ho Hz) [] maxOpts Hl).
  cbn. by destruct (NASOpt_lookup_loop ms 0 maxOpts iei).
Qed.

Lemma NASOpt_lookup_decoded_witness :
  nas_NASOpt_lookup [[0xd1]; [0x27; 1; 0x80]] 4 0x27 = Some [0x27; 1; 0x80].
Proof.
  rewrite (NASOpt_lookup_decoded PDNConnectivityRequest_schema [0xd1; 0x27; 1; 0x80]).
  - reflexivity.
  - apply (opts_present (OTv1 0xD 0x1) _ [0xd1]); [done|repeat constructor; unfold byte_ok; lia|].
    apply opts_absent. apply (opts_present (OTlv 0x27) _ [0x27; 1; 0x80] []);
      [by split|repeat constructor; unfold byte_ok; lia|]. apply opts_absent, opts_nil.
  - reflexivity.
  - cbn. lia.
Defined.

(** ** Where the decoders leave the message *)

(** a message whose length octet announces more than was received is read
    past its end: an Authentication Response (or Identity Response) with [l]
    octets announced and fewer present is undefined behaviour, whatever [size]
    the caller passes. *)
Theorem truncated_response_overreads l v size :
  Z.of_nat (length v) < l -> 1 <= size < 2^32 ->
  dec_NAS (0x07 :: 0x53 :: l :: v) size = UB OutOfBounds /\
  dec_NAS (0x07 :: 0x56 :: l :: v) size = UB OutOfBounds.
Proof.
  intros Hl Hs. assert (E : dec_lv (l :: v) = UB OutOfBounds).
  { unfold dec_lv. cbn [rd]. osimp. rewrite adv_1. unfold rdn.
    by destruct (Z.ltb_spec (Z.of_nat (length v)) l); [|lia]. }
  unfold dec_NAS, nas_getHeader. rewrite wrap32_id by lia.
  destruct (Z.ltb_spec size 1); [lia|]. cbn -[dec_EMM wrap64 adv]. rewrite !adv_1.
  unfold dec_EMM. cbn [rd]. osimp. rewrite !adv_1.
  change (dec_EMM_switch 0x53) with (fun q n => B_AuthenticationResponse <$> dec_AuthenticationResponse q n).
  change (dec_EMM_switch 0x56) with (fun q n => B_IdentityResponse <$> dec_IdentityResponse q n).
  cbn beta. unfold dec_AuthenticationResponse, dec_IdentityResponse. by rewrite E.
Qed.

Lemma truncated_response_overreads_witness :
  dec_NAS [0x07; 0x53; 8; 1; 2] 5 = UB OutOfBounds.
Proof. apply (truncated_response_overreads 8 [1; 2] 5); cbn; lia. Defined.

(** the guard of [dec_NAS] on the protocol discriminator is vacuous: every
    plain message that is not EMM is decoded as an ESM message. *)
Theorem dec_NAS_any_discriminator pd pti mt :
  0 <= pd < 16 -> pd <> enum_val EPSMobilityManagementMessages ->
  NASMessageType_of mt <> Some PDNConnectivityRequest ->
  dec_NAS [nibbles pd 0; pti; mt] 3 =
  Ok (1, Build_GenericNASMsg_t pd 0 (plain_eSM
    {| esm_procedureTransactionIdentity := pti; esm_messageType := mt; esm_body := B_ESM_Nothing |})).
Proof.
  intros Hpd Hne Hmt. unfold dec_NAS. cbn in Hne.
  assert (Hh : nas_getHeader (Some [nibbles pd 0; pti; mt]) (wrap32 3) = Ok (Some (0, pd))).
  { unfold nas_getHeader. change (wrap32 3 <? 1) with false. cbn -[nibbles].
    by rewrite lo4_nibbles, (hi4_nibbles pd 0) by lia. }
  rewrite Hh. osimp.
  assert (G : negb (is_enum 0 PlainNAS) || negb (negb (is_enum pd EPSSessionManagementMessages) ||
    negb (is_enum pd EPSMobilityManagementMessages)) = false).
  { cbn. unfold is_enum. cbn. destruct (Z.eqb_spec pd 2), (Z.eqb_spec pd 7); done || lia. }
  rewrite G. unfold is_enum. cbn [enum_val ProtocolDiscriminator_enum ProtocolDiscriminator_val].
  destruct (Z.eqb_spec pd 7); [done|]. unfold dec_ESM. cbn [rd]. osimp. rewrite !adv_1. cbn [rd]. osimp.
  unfold dec_ESM_switch. by destruct (NASMessageType_of mt) as [[]|].
Qed.

Lemma dec_NAS_any_discriminator_witness :
  exists m, dec_NAS [nibbles 0xf 0; 1; 0xc2] 3 = Ok (1, m).
Proof.
  eexists. apply (dec_NAS_any_discriminator 0xf 1 0xc2); [lia|cbn; lia|vm_compute; discriminate].
Defined.

(** An Attach Request with all the 18 optional elements of the schema. *)
Definition full_attach_request : list Z :=
  [0x07; 0x41; 0x71; 0; 0; 0; 0] ++
  [0x19; 0; 0; 0] ++ [0x50; 0] ++ [0x52; 0; 0; 0; 0; 0] ++ [0x5C; 0; 0] ++ [0x31; 0] ++
  [0x13; 0; 0; 0; 0; 0] ++ [0x90] ++ [0x11; 0] ++ [0x20; 0] ++ [0x40; 0] ++ [0xF0] ++ [0x5D; 0] ++
  [0xD0] ++ [0xE0] ++ [0xC0] ++ [0x10; 0] ++ [0x6A; 0] ++ [0x5E; 0].

(** the array of optional elements of an Attach Request has one element
    less than the decoder can store: a message with all 18 elements overruns
    it, the same message without its last element does not. *)
Theorem full_attach_request_overruns :
  dec_NAS full_attach_request (Z.of_nat (length full_attach_request)) = UB OutOfBounds /\
  exists m, dec_NAS (take 47 full_attach_request) 47 = Ok (1, m).
Proof. split; [vm_compute; reflexivity|eexists; vm_compute; reflexivity]. Qed.
