(* ===== verification/NASEnc.v ===== *)
(** The plain message encoders of src/NAS/src/NAS.c ([newNASMsg_EMM],
    [newNASMsg_ESM], [encaps_EMM], [encaps_ESM]) and the round trips between
    the writers and the decoders: what the library writes, the library reads. *)
From S2P Require Import Prelude NASTypes NASIe NASDec.

(** [curpos] is the address of a local variable at every call, so the test for
    the null pointer never fires. *)
Definition newNASMsg_EMM (protocolDiscriminator securityHeaderType : Z) : writer :=
  nasIe_v_t1_l protocolDiscriminator ;;; nasIe_v_t1_h securityHeaderType.

Definition newNASMsg_ESM (protocolDiscriminator ePSBearerId : Z) : writer :=
  nasIe_v_t1_l protocolDiscriminator ;;; nasIe_v_t1_h ePSBearerId.

(** The first octet of the (little endian) enum is what is copied. *)
Definition encaps_EMM (messageType : Z) : writer := nasIe_v_t3 [wrap8 messageType] 1.

Definition encaps_ESM (procedureTransactionIdentity messageType : Z) : writer :=
  nasIe_v_t3 [wrap8 procedureTransactionIdentity] 1 ;;; nasIe_v_t3 [wrap8 messageType] 1.

(** The mandatory part of the messages a terminal sends, with the library's
    own writers. *)
Definition AttachRequest_writer (attachType ksi : Z) (id cap esm : list Z) : writer :=
  newNASMsg_EMM (enum_val EPSMobilityManagementMessages) (enum_val PlainNAS) ;;;
  encaps_EMM (enum_val AttachRequest) ;;;
  (nasIe_v_t1_l attachType ;;; nasIe_v_t1_h ksi) ;;;
  nasIe_lv_t4 id (Z.of_nat (length id)) ;;;
  nasIe_lv_t4 cap (Z.of_nat (length cap)) ;;;
  nasIe_lv_t6 esm (Z.of_nat (length esm)).

Definition TrackingAreaUpdateRequest_writer (updateType ksi : Z) (guti : list Z) : writer :=
  newNASMsg_EMM (enum_val EPSMobilityManagementMessages) (enum_val PlainNAS) ;;;
  encaps_EMM (enum_val TrackingAreaUpdateRequest) ;;;
  (nasIe_v_t1_l updateType ;;; nasIe_v_t1_h ksi) ;;;
  nasIe_lv_t4 guti (Z.of_nat (length guti)).

(** A message that is one LV element behind the message type. *)
Definition lv_message_writer (t : NASMessageType_t) (v : list Z) : writer :=
  newNASMsg_EMM (enum_val EPSMobilityManagementMessages) (enum_val PlainNAS) ;;;
  encaps_EMM (enum_val t) ;;;
  nasIe_lv_t4 v (Z.of_nat (length v)).

Definition AttachComplete_writer (esm : list Z) : writer :=
  newNASMsg_EMM (enum_val EPSMobilityManagementMessages) (enum_val PlainNAS) ;;;
  encaps_EMM (enum_val AttachComplete) ;;;
  nasIe_lv_t6 esm (Z.of_nat (length esm)).

Definition PDNConnectivityRequest_writer (pti requestType pdnType : Z) : writer :=
  newNASMsg_ESM (enum_val EPSSessionManagementMessages) 0 ;;;
  encaps_ESM pti (enum_val PDNConnectivityRequest) ;;;
  (nasIe_v_t1_l requestType ;;; nasIe_v_t1_h pdnType).

(** ** Lemmas *)


#[export] Instance writes_newNASMsg_EMM p s : Writes (newNASMsg_EMM p s) [nibbles p s].
Proof. apply writes_t1_pair. Qed.
#[export] Instance writes_newNASMsg_ESM p s : Writes (newNASMsg_ESM p s) [nibbles p s].
Proof. apply writes_t1_pair. Qed.
#[export] Instance writes_encaps_EMM m : Writes (encaps_EMM m) [wrap8 m].
Proof. apply writes_v_t3; [repeat constructor; apply wrap8_byte|done|done]. Qed.
#[export] Instance writes_encaps_ESM t m : Writes (encaps_ESM t m) [wrap8 t; wrap8 m].
Proof.
  apply (writes_seq _ _ [_] [_]); apply writes_v_t3; try done;
    repeat constructor; apply wrap8_byte.
Qed.

Lemma dec_lv_app v q : dec_lv (Z.of_nat (length v) :: v ++ q) = Ok (Ie_lv (Z.of_nat (length v)) v, q).
Proof. unfold dec_lv. cbn [rd]. osimp. rewrite adv_1, rdn_app by done. osimp. by rewrite adv_app. Qed.

Lemma dec_lve_app v q : Z.of_nat (length v) < 65536 ->
  dec_lve (be16 (Z.of_nat (length v)) ++ v ++ q) = Ok (Ie_lv (Z.of_nat (length v)) v, q).
Proof.
  intros. unfold dec_lve. rewrite rdn_app by done. osimp.
  rewrite be_val_be16, adv_app by (done || lia). rewrite rdn_app by done. osimp. by rewrite adv_app.
Qed.


(** Normalise the [size] counter of a decoder, innermost subtraction first. *)
Ltac size_simpl :=
  repeat (rewrite ?length_app, ?be16_length; cbn [length]);
  repeat match goal with
  | |- context [wrap64 (?x - ?y)] =>
      lazymatch x with
      | context [wrap64] => fail
      | _ => rewrite (wrap64_sub x y) by lia
      end
  end.

(** A plain message of either protocol reaches its dispatcher. *)
Lemma dec_NAS_plain_EMM mt q : Z.of_nat (length q) < 2^32 - 3 ->
  dec_NAS (nibbles 7 0 :: mt :: q) (Z.of_nat (length (nibbles 7 0 :: mt :: q))) =
  (b ← dec_EMM_switch mt q (Z.of_nat (length q));
   Ok (1, Build_GenericNASMsg_t 7 0 (plain_eMM {| emm_messageType := mt; emm_body := b |}))).
Proof.
  intros Hn. unfold dec_NAS, nas_getHeader. cbn [length]. rewrite wrap32_id by lia.
  match goal with |- context [if ?x <? 1 then _ else _] => destruct (Z.ltb_spec x 1); [lia|] end.
  cbn -[Z.of_nat]. rewrite adv_1. unfold dec_EMM. cbn [rd]. osimp. rewrite adv_1. size_simpl.
  replace (Z.of_nat (S (S (length q))) - 1 - 1) with (Z.of_nat (length q)) by lia.
  by destruct (dec_EMM_switch mt q _).
Qed.

Lemma dec_NAS_plain_ESM pti mt q : Z.of_nat (length q) < 2^32 - 3 ->
  dec_NAS (nibbles 2 0 :: pti :: mt :: q) (Z.of_nat (length (nibbles 2 0 :: pti :: mt :: q))) =
  (b ← dec_ESM_switch mt q (Z.of_nat (length q));
   Ok (1, Build_GenericNASMsg_t 2 0 (plain_eSM
     {| esm_procedureTransactionIdentity := pti; esm_messageType := mt; esm_body := b |}))).
Proof.
  intros Hn. unfold dec_NAS, nas_getHeader. cbn [length]. rewrite wrap32_id by lia.
  match goal with |- context [if ?x <? 1 then _ else _] => destruct (Z.ltb_spec x 1); [lia|] end.
  cbn -[Z.of_nat]. rewrite adv_1. unfold dec_ESM. cbn [rd]. osimp. rewrite adv_1. cbn [rd]. osimp.
  rewrite adv_1. size_simpl.
  replace (Z.of_nat (S (S (S (length q)))) - 1 - 2) with (Z.of_nat (length q)) by lia.
  by destruct (dec_ESM_switch mt q _).
Qed.

(** The optional part of a message, with its early return on [size == 0]. *)
Lemma dec_opts_tail cap os bs ms : opts_of os bs ms -> schema_distinct os = true ->
  Z.of_nat (length bs) < 2^64 -> (length ms <= cap)%nat ->
  exists st, (if Z.of_nat (length bs) =? 0 then Ok (OptSt [] bs (Z.of_nat (length bs)))
              else dec_NASOpts cap os (OptSt [] bs (Z.of_nat (length bs)))) = Ok st /\
             os_opts st = ms.
Proof.
  intros H Hd Hl Hc. destruct bs as [|b bs].
  - exists (OptSt [] [] 0). split; [done|].
    pose proof (dec_NASOpts_all cap os [] ms H [] Hd Hl Hc) as E.
    change (Z.of_nat (length [])) with 0 in E. rewrite dec_NASOpts_empty in E. by simplify_eq.
  - eexists. split; [cbn [length]; destruct (Z.eqb_spec (Z.of_nat (S (length bs))) 0); [lia|]|].
    + apply (dec_NASOpts_all cap os (b :: bs) ms H []); done.
    + done.
Qed.

Section AttachRequestBytes.
Context (t k : Z) (id cap esm opts : list Z) (ms : list nAS_ie_member).
Context (Ht : 0 <= t < 16) (Hk : 0 <= k < 16).
Context (Hid : Z.of_nat (length id) < 256) (Hcap : Z.of_nat (length cap) < 256).
Context (Hesm : Z.of_nat (length esm) < 65536).

Definition AttachRequest_bytes : list Z :=
  nibbles t k :: Z.of_nat (length id) :: id ++ Z.of_nat (length cap) :: cap ++
  be16 (Z.of_nat (length esm)) ++ esm ++ opts.

Lemma dec_AttachRequest_bytes :
  opts_of AttachRequest_schema opts ms -> (length ms <= 17)%nat ->
  Z.of_nat (length opts) < 2^31 ->
  dec_AttachRequest AttachRequest_bytes (Z.of_nat (length AttachRequest_bytes)) =
  Ok {| AQ_ePSAttachType := t; AQ_nASKeySetId := k;
        AQ_ePSMobileId := Ie_lv (Z.of_nat (length id)) id;
        AQ_uENetworkCapability := Ie_lv (Z.of_nat (length cap)) cap;
        AQ_eSM_MessageContainer := Ie_lv (Z.of_nat (length esm)) esm;
        AQ_optionals := ms |}.
Proof.
  intros Ho Hm Hl. unfold AttachRequest_bytes, dec_AttachRequest.
  cbn [rd]. osimp. rewrite adv_1, dec_lv_app. osimp. rewrite dec_lv_app. osimp.
  rewrite dec_lve_app by done. osimp. cbn [lv_l length].
  size_simpl.
  match goal with |- context [if ?x =? 0 then _ else _] =>
    replace x with (Z.of_nat (length opts)) by lia end.
  destruct (dec_opts_tail 17 _ _ _ Ho eq_refl ltac:(lia) Hm) as (st & -> & Hst). osimp.
  by rewrite lo4_nibbles, hi4_nibbles, Hst.
Qed.
End AttachRequestBytes.

(** What a writer left in front of its cursor. *)
Definition written (s : wbuf) : list Z := take (wb_pos s) (wb_buf s).

Lemma written_run w bs out : Writes w bs -> (length bs <= length out)%nat ->
  exists s, w (WBuf out 0) = Ok s /\ written s = bs.
Proof.
  intros H Hl. eexists. split; [by apply writes_run|]. unfold written. cbn. apply take_app_length.
Qed.

(** Find the bytes of a sequence of writers. *)
Ltac solve_writes :=
  repeat (first
    [ apply writes_newNASMsg_EMM | apply writes_newNASMsg_ESM
    | apply writes_encaps_EMM | apply writes_encaps_ESM | apply writes_t1_pair
    | apply writes_lv_t4; [done|done|lia]
    | apply writes_lv_t6; [done|done|lia]
    | eapply writes_seq ]).

Lemma writes_AttachRequest t k id cap esm :
  bytes_ok id -> bytes_ok cap -> bytes_ok esm ->
  Z.of_nat (length id) < 256 -> Z.of_nat (length cap) < 256 -> Z.of_nat (length esm) < 65536 ->
  Writes (AttachRequest_writer t k id cap esm)
    (nibbles 7 0 :: 0x41 :: AttachRequest_bytes t k id cap esm []).
Proof.
  intros. unfold AttachRequest_writer.
  assert (E : nibbles 7 0 :: 0x41 :: AttachRequest_bytes t k id cap esm [] =
    ((((([nibbles (enum_val EPSMobilityManagementMessages) (enum_val PlainNAS)] ++
      [wrap8 (enum_val AttachRequest)]) ++ [nibbles t k]) ++
      (Z.of_nat (length id) :: id)) ++ (Z.of_nat (length cap) :: cap)) ++
      (be16 (Z.of_nat (length esm)) ++ esm))).
  { unfold AttachRequest_bytes. rewrite app_nil_r. rewrite <- !(assoc (++)). done. }
  rewrite E. solve_writes.
Qed.

(** C20: an Attach Request written with the library's writers (any attach type
    and key set, any mobile identity, capability and ESM container of the
    lengths their formats allow, followed by any selection of at most 17 of the
    optional elements in the schema's order) is decoded by [dec_NAS] into
    exactly these fields, without undefined behaviour. *)
Theorem attach_request_roundtrip t k id cap esm opts ms out :
  0 <= t < 16 -> 0 <= k < 16 ->
  bytes_ok id -> bytes_ok cap -> bytes_ok esm ->
  Z.of_nat (length id) < 256 -> Z.of_nat (length cap) < 256 -> Z.of_nat (length esm) < 65536 ->
  opts_of AttachRequest_schema opts ms -> (length ms <= 17)%nat -> Z.of_nat (length opts) < 2^31 ->
  (7 + length id + length cap + length esm <= length out)%nat ->
  exists s, AttachRequest_writer t k id cap esm (WBuf out 0) = Ok s /\
    dec_NAS (written s ++ opts) (Z.of_nat (length (written s ++ opts))) =
    Ok (1, {| gm_protocolDiscriminator := 7; gm_securityHeaderType := 0;
              gm_plain := plain_eMM {| emm_messageType := 0x41;
                emm_body := B_AttachRequest
                 {| AQ_ePSAttachType := t; AQ_nASKeySetId := k;
                    AQ_ePSMobileId := Ie_lv (Z.of_nat (length id)) id;
                    AQ_uENetworkCapability := Ie_lv (Z.of_nat (length cap)) cap;
                    AQ_eSM_MessageContainer := Ie_lv (Z.of_nat (length esm)) esm;
                    AQ_optionals := ms |} |} |}).
Proof.
  intros Ht Hk Hid Hcap Hesm Lid Lcap Lesm Ho Lm Lo Lout.
  destruct (written_run _ _ out (writes_AttachRequest t k id cap esm Hid Hcap Hesm Lid Lcap Lesm))
    as (s & Hs & Hw).
  { unfold AttachRequest_bytes. size_simpl. lia. }
  exists s. split; [done|].
  replace (written s ++ opts) with (nibbles 7 0 :: 0x41 :: AttachRequest_bytes t k id cap esm opts).
  - rewrite dec_NAS_plain_EMM; [|unfold AttachRequest_bytes; size_simpl; lia].
    change (dec_EMM_switch 0x41) with (fun q n => B_AttachRequest <$> dec_AttachRequest q n).
    cbn beta. by rewrite (dec_AttachRequest_bytes t k id cap esm opts ms).
  - rewrite Hw. unfold AttachRequest_bytes. cbn [app]. by repeat (rewrite <- (assoc (++)); cbn [app]).
Qed.

Lemma attach_request_roundtrip_witness : exists s,
  AttachRequest_writer 1 7 [0x29; 0x43; 0x01] [0xe0; 0xe0] [0x02; 0x01; 0xd0; 0x11] (WBuf (repeat 0 20) 0) = Ok s /\
  exists r, dec_NAS (written s ++ [0x52; 1; 2; 3; 4; 5; 0x91; 0x5d; 1; 3]) 26 = Ok (1, r).
Proof.
  destruct (attach_request_roundtrip 1 7 [0x29; 0x43; 0x01] [0xe0; 0xe0] [0x02; 0x01; 0xd0; 0x11]
    [0x52; 1; 2; 3; 4; 5; 0x91; 0x5d; 1; 3] [[0x52; 1; 2; 3; 4; 5]; [0x91]; [0x5d; 1; 3]]
    (repeat 0 20)) as (s & Hs & Hd);
    try (repeat constructor; unfold byte_ok; cbn; lia); try lia.
  - do 2 apply opts_absent. apply (opts_present (OTv3 0x52 6) _ [0x52; 1; 2; 3; 4; 5]);
      [by split|repeat constructor; unfold byte_ok; lia|].
    do 3 apply opts_absent. apply (opts_present (OTv1 0x9 0x1) _ [0x91]);
      [done|repeat constructor; unfold byte_ok; lia|].
    do 4 apply opts_absent. apply (opts_present (OTlv 0x5D) _ [0x5d; 1; 3] []);
      [by split|repeat constructor; unfold byte_ok; lia|].
    repeat apply opts_absent. apply opts_nil.
  - exists s. split; [exact Hs|]. eexists.
    replace 26 with (Z.of_nat (length (written s ++ [0x52; 1; 2; 3; 4; 5; 0x91; 0x5d; 1; 3]))).
    + exact Hd.
    + vm_compute in Hs. injection Hs as <-. reflexivity.
Defined.

(** ** The other uplink messages *)

Lemma writes_TrackingAreaUpdateRequest t k guti : bytes_ok guti -> Z.of_nat (length guti) < 256 ->
  Writes (TrackingAreaUpdateRequest_writer t k guti)
    ([nibbles 7 0; 0x48; nibbles t k; Z.of_nat (length guti)] ++ guti).
Proof.
  intros. unfold TrackingAreaUpdateRequest_writer.
  change (_ ++ guti) with ((([nibbles (enum_val EPSMobilityManagementMessages) (enum_val PlainNAS)] ++
    [wrap8 (enum_val TrackingAreaUpdateRequest)]) ++ [nibbles t k]) ++ (Z.of_nat (length guti) :: guti)).
  solve_writes.
Qed.

Lemma writes_lv_message m v : bytes_ok v -> Z.of_nat (length v) < 256 ->
  Writes (lv_message_writer m v) ([nibbles 7 0; wrap8 (enum_val m); Z.of_nat (length v)] ++ v).
Proof.
  intros. unfold lv_message_writer.
  change (_ ++ v) with (([nibbles (enum_val EPSMobilityManagementMessages) (enum_val PlainNAS)] ++
    [wrap8 (enum_val m)]) ++ (Z.of_nat (length v) :: v)).
  solve_writes.
Qed.

Lemma writes_AttachComplete v : bytes_ok v -> Z.of_nat (length v) < 65536 ->
  Writes (AttachComplete_writer v) ([nibbles 7 0; 0x43] ++ be16 (Z.of_nat (length v)) ++ v).
Proof.
  intros. unfold AttachComplete_writer.
  change [nibbles 7 0; 0x43] with ([nibbles (enum_val EPSMobilityManagementMessages) (enum_val PlainNAS)] ++
    [wrap8 (enum_val AttachComplete)]).
  solve_writes.
Qed.

Lemma writes_PDNConnectivityRequest pti r t : byte_ok pti ->
  Writes (PDNConnectivityRequest_writer pti r t) [nibbles 2 0; pti; 0xd0; nibbles r t].
Proof.
  intros Hp. unfold PDNConnectivityRequest_writer.
  assert (E : [nibbles 2 0; pti; 0xd0; nibbles r t] =
    ([nibbles (enum_val EPSSessionManagementMessages) 0] ++
      [wrap8 pti; wrap8 (enum_val PDNConnectivityRequest)]) ++ [nibbles r t]).
  { rewrite (wrap8_id pti) by done. done. }
  rewrite E. solve_writes.
Qed.

(** a Tracking Area Update Request written with the library's writers and
    followed by any selection of at most 22 optional elements is decoded into
    exactly its update type, key set, old GUTI and optional elements. *)
Theorem tau_request_roundtrip t k guti opts ms out :
  0 <= t < 16 -> 0 <= k < 16 -> bytes_ok guti -> Z.of_nat (length guti) < 256 ->
  opts_of TrackingAreaUpdateRequest_schema opts ms -> (length ms <= 22)%nat ->
  Z.of_nat (length opts) < 2^31 -> (4 + length guti <= length out)%nat ->
  exists s, TrackingAreaUpdateRequest_writer t k guti (WBuf out 0) = Ok s /\
    dec_NAS (written s ++ opts) (Z.of_nat (length (written s ++ opts))) =
    Ok (1, {| gm_protocolDiscriminator := 7; gm_securityHeaderType := 0;
              gm_plain := plain_eMM {| emm_messageType := 0x48;
                emm_body := B_TrackingAreaUpdateRequest
                 {| TQ_ePSUpdateType := t; TQ_nASKeySetId := k;
                    TQ_oldGUTI := Ie_lv (Z.of_nat (length guti)) guti;
                    TQ_optionals := ms |} |} |}).
Proof.
  intros Ht Hk Hg Lg Ho Lm Lo Lout.
  destruct (written_run _ _ out (writes_TrackingAreaUpdateRequest t k guti Hg Lg)) as (s & Hs & Hw).
  { size_simpl. lia. }
  exists s. split; [done|]. rewrite Hw. cbn [app].
  rewrite dec_NAS_plain_EMM by (size_simpl; lia).
  change (dec_EMM_switch 0x48) with
    (fun q n => B_TrackingAreaUpdateRequest <$> dec_TrackingAreaUpdateRequest q n). cbn beta.
  unfold dec_TrackingAreaUpdateRequest. cbn [rd]. osimp. rewrite adv_1, dec_lv_app. osimp.
  cbn [lv_l]. size_simpl.
  match goal with |- context [if ?x =? 0 then _ else _] =>
    replace x with (Z.of_nat (length opts)) by lia end.
  destruct (dec_opts_tail 22 _ _ _ Ho eq_refl ltac:(lia) Lm) as (st & -> & Hst). osimp.
  by rewrite lo4_nibbles, hi4_nibbles, Hst.
Qed.

Lemma tau_request_roundtrip_witness : exists s,
  TrackingAreaUpdateRequest_writer 2 3 [0xf6; 2; 3] (WBuf (repeat 0 9) 0) = Ok s /\
  exists r, dec_NAS (written s ++ [0xb4; 0x57; 2; 0x20; 0]) (Z.of_nat (length (written s ++ [0xb4; 0x57; 2; 0x20; 0]))) = Ok (1, r).
Proof.
  destruct (tau_request_roundtrip 2 3 [0xf6; 2; 3] [0xb4; 0x57; 2; 0x20; 0]
    [[0xb4]; [0x57; 2; 0x20; 0]] (repeat 0 9)) as (s & Hs & Hd);
    try (repeat constructor; unfold byte_ok; cbn; lia); try lia.
  - apply (opts_present (OTv1 0xB 0xF) _ [0xb4]);
      [done|repeat constructor; unfold byte_ok; lia|].
    do 8 apply opts_absent. apply (opts_present (OTlv 0x57) _ [0x57; 2; 0x20; 0] []);
      [by split|repeat constructor; unfold byte_ok; lia|].
    repeat apply opts_absent. apply opts_nil.
  - exists s. split; [exact Hs|]. eexists. exact Hd.
Defined.

(** the responses of the common procedures (Authentication Response,
    Identity Response, Attach Complete) and the PDN Connectivity Request
    written with the library's writers decode into the value written. *)
Theorem uplink_message_roundtrip v pti r t out :
  bytes_ok v -> Z.of_nat (length v) < 256 -> byte_ok pti -> 0 <= r < 16 -> 0 <= t < 16 ->
  (4 + length v <= length out)%nat ->
  let emm m b := Ok (1, Build_GenericNASMsg_t 7 0 (plain_eMM {| emm_messageType := m; emm_body := b |})) in
  let lv := Ie_lv (Z.of_nat (length v)) v in
  (exists s, lv_message_writer AuthenticationResponse v (WBuf out 0) = Ok s /\
     dec_NAS (written s) (Z.of_nat (length (written s))) =
     emm 0x53 (B_AuthenticationResponse {| AR_authParam := lv |})) /\
  (exists s, lv_message_writer IdentityResponse v (WBuf out 0) = Ok s /\
     dec_NAS (written s) (Z.of_nat (length (written s))) =
     emm 0x56 (B_IdentityResponse {| IR_mobileId := lv |})) /\
  (exists s, AttachComplete_writer v (WBuf out 0) = Ok s /\
     dec_NAS (written s) (Z.of_nat (length (written s))) =
     emm 0x43 (B_AttachComplete {| AC_eSM_MessageContainer := lv |})) /\
  (exists s, PDNConnectivityRequest_writer pti r t (WBuf out 0) = Ok s /\
     dec_NAS (written s) (Z.of_nat (length (written s))) =
     Ok (1, Build_GenericNASMsg_t 2 0 (plain_eSM
       {| esm_procedureTransactionIdentity := pti; esm_messageType := 0xd0;
          esm_body := B_PDNConnectivityRequest
            {| PQ_requestType := r; PQ_PDNType := t; PQ_optionals := [] |} |}))).
Proof.
  intros Hv Lv Hp Hr Ht Lo emm lv.
  pose proof (dec_lv_app v []) as D. pose proof (dec_lve_app v [] ltac:(lia)) as D2.
  rewrite app_nil_r in D, D2.
  split_and!.
  - destruct (written_run _ _ out (writes_lv_message AuthenticationResponse v Hv Lv)) as (s & Hs & Hw);
      [size_simpl; lia|]. exists s. split; [done|]. rewrite Hw. cbn [app].
    rewrite dec_NAS_plain_EMM by (size_simpl; lia).
    change (dec_EMM_switch (wrap8 (enum_val AuthenticationResponse))) with (fun q n => B_AuthenticationResponse <$> dec_AuthenticationResponse q n).
    cbn beta. unfold dec_AuthenticationResponse. by rewrite D.
  - destruct (written_run _ _ out (writes_lv_message IdentityResponse v Hv Lv)) as (s & Hs & Hw);
      [size_simpl; lia|]. exists s. split; [done|]. rewrite Hw. cbn [app].
    rewrite dec_NAS_plain_EMM by (size_simpl; lia).
    change (dec_EMM_switch (wrap8 (enum_val IdentityResponse))) with (fun q n => B_IdentityResponse <$> dec_IdentityResponse q n).
    cbn beta. unfold dec_IdentityResponse. by rewrite D.
  - destruct (written_run _ _ out (writes_AttachComplete v Hv ltac:(lia))) as (s & Hs & Hw);
      [size_simpl; lia|]. exists s. split; [done|]. rewrite Hw. cbn [app].
    rewrite dec_NAS_plain_EMM by (size_simpl; lia).
    change (dec_EMM_switch 0x43) with (fun q n => B_AttachComplete <$> dec_AttachComplete q n).
    cbn beta. unfold dec_AttachComplete. by rewrite D2.
  - destruct (written_run _ _ out (writes_PDNConnectivityRequest pti r t Hp)) as (s & Hs & Hw);
      [size_simpl; lia|]. exists s. split; [done|]. rewrite Hw.
    rewrite dec_NAS_plain_ESM by (size_simpl; lia).
    change (dec_ESM_switch 0xd0) with (fun q n => B_PDNConnectivityRequest <$> dec_PDNConnectivityRequest q n).
    cbn beta. unfold dec_PDNConnectivityRequest. cbn -[nibbles]. by rewrite lo4_nibbles, hi4_nibbles.
Qed.

Lemma uplink_message_roundtrip_witness : exists s,
  lv_message_writer AuthenticationResponse [1; 2; 3; 4; 5; 6; 7; 8] (WBuf (repeat 0 12) 0) = Ok s /\
  exists r, dec_NAS (written s) 11 = Ok (1, r).
Proof.
  destruct (uplink_message_roundtrip [1; 2; 3; 4; 5; 6; 7; 8] 1 1 1 (repeat 0 12)) as ((s & Hs & Hd) & _);
    try (repeat constructor; unfold byte_ok; cbn; lia); try lia.
  exists s. split; [exact Hs|]. eexists.
  replace 11 with (Z.of_nat (length (written s))); [exact Hd|].
  vm_compute in Hs. injection Hs as <-. reflexivity.
Defined.
