(* ===== verification/EIA2.v ===== *)
(** The integrity algorithms: 128-EIA2 (src/NAS/src/eia2.c), an AES-CMAC with
    bit lengths on top of OpenSSL's EVP cipher, and the null algorithms
    (src/NAS/src/eia0.c, eea0.c).

    OpenSSL is not part of the repository: [EVP] is the interface eia2.c uses
    of it and [EVP_CBC] its documented behaviour for [EVP_aes_128_cbc()] with a
    zero initial vector, over an abstract block function.  The theorem is
    that, for any such cipher, the code computes the CMAC of NIST SP 800-38B,
    written here as the reference definition [cmac]. *)
From S2P Require Import Prelude NASTypes.

(** ** The interface of the cipher *)

(** [EVP_CIPHER_CTX]: keying with a zero IV, restarting with a zero IV, and
    [EVP_Cipher] of one 16-octet block. *)
Class EVP := {
  evp_ctx : Type;
  evp_blank : evp_ctx;
  EVP_EncryptInit_key : evp_ctx -> list Z -> evp_ctx;
  EVP_EncryptInit_iv : evp_ctx -> evp_ctx;
  EVP_Cipher : evp_ctx -> list Z -> evp_ctx * list Z;
}.

Definition xor_block (a b : list Z) : list Z := zip_with Z.lxor a b.
Definition zero_block : list Z := repeat 0 16.

(** Cipher block chaining: each block is combined with the previous output. *)
Class EVP_CBC (evp : EVP) (AES : list Z -> list Z -> list Z) := {
  cbc_key : evp_ctx -> list Z;
  cbc_iv : evp_ctx -> list Z;
  cbc_init c k : cbc_key (EVP_EncryptInit_key c k) = k /\ cbc_iv (EVP_EncryptInit_key c k) = zero_block;
  cbc_reset c : cbc_key (EVP_EncryptInit_iv c) = cbc_key c /\ cbc_iv (EVP_EncryptInit_iv c) = zero_block;
  cbc_cipher c b : length b = 16%nat ->
    let out := AES (cbc_key c) (xor_block b (cbc_iv c)) in
    (EVP_Cipher c b).2 = out /\ cbc_iv (EVP_Cipher c b).1 = out /\
    cbc_key (EVP_Cipher c b).1 = cbc_key c;
  aes_block k b : length b = 16%nat -> length (AES k b) = 16%nat /\ bytes_ok (AES k b);
}.

(** ** The code *)

(** [for (i = 0; i < bl - 1; i++, c = cnext) k1[i] = (c << 1) | ((cnext = l[i + 1]) >> 7);]
    then the last octet with the carry fixed up. *)
Fixpoint make_kn_loop (carry c : Z) (l : list Z) : list Z :=
  match l with
  | [] => [wrap8 (Z.lxor (c << 1) ((0 - carry) .& 0x87))]
  | cnext :: l => wrap8 ((c << 1) .| (cnext >> 7)) :: make_kn_loop carry cnext l
  end.

Definition make_kn (l : list Z) : list Z :=
  match l with
  | [] => []
  | c :: l => make_kn_loop (c >> 7) c l
  end.

Section Code.
Context {evp : EVP}.

Record NAS_CMAC_CTX := CmacCtx {
  cm_cctx : evp_ctx;
  cm_cipher : bool;           (* the cipher context has a cipher *)
  cm_k1 : list Z;
  cm_k2 : list Z;
  cm_tbl : list Z;
  cm_last_block : list Z;     (* EVP_MAX_BLOCK_LENGTH = 32 octets *)
  cm_nlast_block : Z;         (* bits in last_block, -1: not initialised *)
}.

Definition NAS_CMAC_CTX_new : NAS_CMAC_CTX :=
  CmacCtx evp_blank false (repeat 0 32) (repeat 0 32) (repeat 0 32) (repeat 0 32) (-1).

Definition NAS_CMAC_CTX_cleanup (ctx : NAS_CMAC_CTX) : NAS_CMAC_CTX :=
  CmacCtx evp_blank false (repeat 0 32) (repeat 0 32) (repeat 0 32) (repeat 0 32) (-1).

(** [cipher] tells whether a cipher is given, [key] is [None] for the null
    pointer; AES-128 accepts the key length 16 only. *)
Definition NAS_CMAC_Init (ctx : NAS_CMAC_CTX) (key : option (list Z)) (keylen : Z) (cipher : bool)
  : Z * NAS_CMAC_CTX :=
  if negb (bool_decide (is_Some key)) && negb cipher && (keylen =? 0) then
    if cm_nlast_block ctx =? -1 then (0, ctx)
    else (1, CmacCtx (EVP_EncryptInit_iv (cm_cctx ctx)) (cm_cipher ctx) (cm_k1 ctx) (cm_k2 ctx)
               (zero_block ++ drop 16 (cm_tbl ctx)) (cm_last_block ctx) 0)
  else
    let ctx := CmacCtx (cm_cctx ctx) (cm_cipher ctx || cipher) (cm_k1 ctx) (cm_k2 ctx) (cm_tbl ctx)
                 (cm_last_block ctx) (cm_nlast_block ctx) in
    match key with
    | None => (1, ctx)
    | Some k =>
      if negb (cm_cipher ctx) then (0, ctx)
      else if negb (keylen =? 16) then (0, ctx)
      else
        let c := EVP_EncryptInit_key (cm_cctx ctx) k in
        let '(c, l) := EVP_Cipher c zero_block in
        let k1 := make_kn l in
        let k2 := make_kn k1 in
        let c := EVP_EncryptInit_iv c in
        (1, CmacCtx c true (k1 ++ drop 16 (cm_k1 ctx)) (k2 ++ drop 16 (cm_k2 ctx))
              (zero_block ++ drop 16 (cm_tbl ctx)) (cm_last_block ctx) 0)
    end.

(** [dlen/8 + (dlen%8?1:0)] *)
Definition bits_to_bytes (n : Z) : Z := n / 8 + (if n mod 8 =? 0 then 0 else 1).

(** [while (dlen > bl*8)]: the context, the rest of the data and its length. *)
Fixpoint update_loop (fuel : nat) (c : evp_ctx) (data : list Z) (dlen : Z)
  : outcome (evp_ctx * list Z * Z) :=
  match fuel with
  | O => Ok (c, data, dlen)
  | S fuel =>
    if 128 <? dlen then
      b ← rdn data 16;
      update_loop fuel (EVP_Cipher c b).1 (adv data 16) (dlen - 128)
    else Ok (c, data, dlen)
  end.

(** The copy of the rest of the data into [last_block]. *)
Definition update_tail (ctx : NAS_CMAC_CTX) (c : evp_ctx) (data : list Z) (dlen : Z)
  : outcome (Z * NAS_CMAC_CTX) :=
  '(c, data, dlen) ← update_loop (Z.to_nat (dlen / 128 + 1)) c data dlen;
  bs ← rdn data (bits_to_bytes dlen);
  lb ← overwrite (cm_last_block ctx) 0 bs;
  Ok (1, CmacCtx c (cm_cipher ctx) (cm_k1 ctx) (cm_k2 ctx) (cm_tbl ctx) lb dlen).

Definition NAS_CMAC_Update (ctx : NAS_CMAC_CTX) (data : list Z) (dlen : Z)
  : outcome (Z * NAS_CMAC_CTX) :=
  if cm_nlast_block ctx =? -1 then Ok (0, ctx)
  else if dlen =? 0 then Ok (1, ctx)
  else if 0 <? cm_nlast_block ctx then
    let nleft := wrap64 (128 - cm_nlast_block ctx) in
    let nleft := if dlen <? nleft then dlen else nleft in
    bs ← rdn data (bits_to_bytes nleft);
    (* the offset of the destination is in bits *)
    lb ← overwrite (cm_last_block ctx) (cm_nlast_block ctx) bs;
    let dlen := dlen - nleft in
    let ctx := CmacCtx (cm_cctx ctx) (cm_cipher ctx) (cm_k1 ctx) (cm_k2 ctx) (cm_tbl ctx) lb
                 (cm_nlast_block ctx + nleft) in
    if dlen =? 0 then Ok (1, ctx)
    else
      let data := adv data (nleft / 8) in
      b ← rdn lb 16;
      update_tail ctx (EVP_Cipher (cm_cctx ctx) b).1 data dlen
  else update_tail ctx (cm_cctx ctx) data dlen.

(** [NAS_CMAC_Final] with a non-null [out]: the 16 octets of [out]. *)
Definition NAS_CMAC_Final (ctx : NAS_CMAC_CTX) : outcome (Z * list Z) :=
  if cm_nlast_block ctx =? -1 then Ok (0, zero_block)
  else
    let lb := cm_nlast_block ctx in
    blk ← (if lb =? 128 then
             Ok (xor_block (take 16 (cm_last_block ctx)) (take 16 (cm_k1 ctx)))
           else
             let lastbyte := lb / 8 in
             last ← (if lb mod 8 =? 0 then Ok 0x80
                     else b ← rdi (cm_last_block ctx) lastbyte;
                          Ok (wrap8 ((b .| (1 << (7 - lb mod 8))) .& (0xff << (7 - lb mod 8)))));
             l1 ← overwrite (cm_last_block ctx) lastbyte [last];
             l2 ← (if 1 <? 16 - lastbyte
                   then overwrite l1 (lastbyte + 1) (repeat 0 (Z.to_nat (16 - lastbyte - 1)))
                   else Ok l1);
             Ok (xor_block (take 16 l2) (take 16 (cm_k2 ctx))));
    Ok (1, (EVP_Cipher (cm_cctx ctx) blk).2).

(** [eia2]: the four octets of [digest].  The return values of the three CMAC
    calls are ignored, as in the source. *)
Definition eia2 (k count : list Z) (bearer direction : Z) (msg : list Z) (mLen : Z) : outcome (list Z) :=
  let len := 64 + mLen in
  let sLen := 8 + bits_to_bytes mLen in
  c4 ← rdn count 4;
  m ← rdn msg (sLen - 8);
  let s := c4 ++ [wrap8 ((bearer << 3) .| (direction << 2)); 0; 0; 0] ++ m in
  let ctx := (NAS_CMAC_Init NAS_CMAC_CTX_new (Some k) 16 true).2 in
  '(_, ctx) ← NAS_CMAC_Update ctx s len;
  '(_, mact) ← NAS_CMAC_Final ctx;
  rdn mact 4.
End Code.

Definition eia0 (k count : list Z) (bearer direction : Z) (msg : list Z) (mLen : Z) : outcome (list Z) :=
  Ok [0; 0; 0; 0].

(** [eea0_dec] and [eea0_cyph]: the output and its length. *)
Definition eea0_dec (k count : list Z) (bearer direction : Z) (msg : list Z) (mLen : Z)
  : outcome (list Z * Z) := p ← rdn msg mLen; Ok (p, mLen).
Definition eea0_cyph (k count : list Z) (bearer direction : Z) (plain : list Z) (pLen : Z)
  : outcome (list Z * Z) := m ← rdn plain pLen; Ok (m, pLen).

(** ** The reference: CMAC (NIST SP 800-38B, RFC 4493) over bit strings *)

(** Doubling in GF(2^128), on the big-endian value of a block. *)
Definition gf_double (x : Z) : Z :=
  Z.lxor ((2 * x) mod 2^128) (if 2^127 <=? x then 0x87 else 0).

(** The blocks of all but the last (complete or not) 128 bits. *)
Fixpoint chain (E : list Z -> list Z) (n : nat) (c m : list Z) : list Z * list Z :=
  match n with
  | O => (c, m)
  | S n => chain E n (E (xor_block (take 16 m) c)) (drop 16 m)
  end.

(** [10*] padding of the last [n < 128] bits. *)
Definition pad_block (m : list Z) (n : Z) : list Z :=
  let full := take (Z.to_nat (n / 8)) m in
  let r := n mod 8 in
  let b := nth (Z.to_nat (n / 8)) m 0 in
  let top := b - b mod 2^(8 - r) in
  full ++ [top + 2^(7 - r)] ++ repeat 0 (15 - Z.to_nat (n / 8)).

Definition cmac (E : list Z -> list Z) (m : list Z) (n : Z) : list Z :=
  let L := be_val (E zero_block) in
  let k1 := be_bytes 16 (gf_double L) in
  let k2 := be_bytes 16 (gf_double (gf_double L)) in
  let nb := Z.to_nat ((n - 1) / 128) in
  let '(c, rest) := chain E nb zero_block m in
  let r := n - 128 * Z.of_nat nb in
  let last := if r =? 128 then xor_block (take 16 rest) k1 else xor_block (pad_block rest r) k2 in
  E (xor_block last c).

(** ** Subkeys *)

Lemma land_carry c : 0 <= c < 2 -> Z.land (0 - c) 0x87 = if c =? 1 then 0x87 else 0.
Proof. intros. assert (c = 0 \/ c = 1) as [-> | ->] by lia; done. Qed.

Lemma shl_byte c d : byte_ok c -> byte_ok d ->
  wrap8 ((c << 1) .| (d >> 7)) = (2 * c + d / 128) mod 256.
Proof.
  intros Hc Hd. apply Z.eqb_eq.
  apply (byte_forall2 (fun c d => wrap8 ((c << 1) .| (d >> 7)) =? (2 * c + d / 128) mod 256));
    [vm_compute; reflexivity|done|done].
Qed.

Lemma make_kn_loop_val carry c l : 0 <= carry < 2 -> byte_ok c -> bytes_ok l ->
  let F := if carry =? 1 then 0x87 else 0 in
  length (make_kn_loop carry c l) = S (length l) /\ bytes_ok (make_kn_loop carry c l) /\
  be_val (make_kn_loop carry c l) =
    Z.lxor ((2 * be_val (c :: l)) mod 256 ^ Z.of_nat (S (length l))) F.
Proof.
  intros Hcar Hc Hl F. assert (HF : 0 <= F < 256) by (unfold F; case_bools; lia).
  revert c Hc. induction Hl as [|d l Hd Hl IH]; intros c Hc; cbn [make_kn_loop length].
  - rewrite land_carry by done. fold F. split_and!; [done|repeat constructor; apply wrap8_byte|].
    rewrite Z.shiftl_mul_pow2 by lia. unfold be_val, wrap8. cbn [fold_left].
    change (256 ^ Z.of_nat 1) with 256. change (2^8) with 256. change (256 * 0) with 0.
    rewrite !Z.add_0_l. rewrite (Z.mul_comm 2 c). change (2^1) with 2.
    pose proof (lxor_low 8 ((c * 2) / 256) ((c * 2) mod 256) F ltac:(lia) ltac:(lia) ltac:(lia)) as E.
    replace ((c * 2) / 256 * 2^8 + (c * 2) mod 256) with (c * 2) in E by lia. rewrite E.
    pose proof (lxor_bound 8 ((c * 2) mod 256) F ltac:(lia) ltac:(lia) ltac:(lia)). lia.
  - specialize (IH d Hd) as (IHl & IHb & IHv).
    split_and!; [by rewrite IHl|by constructor; [apply wrap8_byte|]|].
    rewrite be_val_cons, IHl, IHv, shl_byte, (be_val_cons c) by done.
    pose proof (be_val_bound (d :: l) ltac:(by constructor)) as HV. cbn [length] in HV |- *.
    pose proof (be_val_bound l Hl) as HVl.
    set (V := be_val (d :: l)) in *.
    assert (Hcar' : 2 * V / 256 ^ Z.of_nat (S (length l)) = d / 128).
    { unfold V. rewrite be_val_cons, Nat2Z.inj_succ, Z.pow_succ_r by lia.
      set (P := 256 ^ Z.of_nat (length l)) in *. unfold byte_ok in Hd.
      replace (2 * (d * P + be_val l)) with (be_val l * 2 + P * (2 * d)) by lia.
      rewrite (Z.mul_comm 256 P), <- Z.div_div by lia.
      rewrite Z.mul_comm with (n := P), Z.div_add by lia. nia. }
    rewrite (Nat2Z.inj_succ (S (length l))), Z.pow_succ_r by lia.
    set (P := 256 ^ Z.of_nat (S (length l))) in *.
    assert (HP : P = 2 ^ (8 * Z.of_nat (S (length l)))).
    { unfold P. change 256 with (2^8). rewrite <- Z.pow_mul_r by lia. done. }
    replace ((2 * (c * P + V)) mod (256 * P)) with ((2 * c + d / 128) mod 256 * P + (2 * V) mod P).
    + rewrite HP. rewrite lxor_low; [done|lia|rewrite <- HP; apply Z.mod_pos_bound; lia|].
      split; [lia|]. apply Z.lt_le_trans with (2^8); [lia|]. apply Z.pow_le_mono_r; lia.
    + rewrite <- Hcar'. rewrite (Z.mul_comm 256 P), Z.rem_mul_r by lia.
      replace (2 * (c * P + V)) with (2 * V + 2 * c * P) by lia.
      rewrite Z.mod_add, Z.div_add by lia. rewrite (Z.add_comm (2 * V / P)). lia.
Qed.

Lemma make_kn_double l : length l = 16%nat -> bytes_ok l ->
  length (make_kn l) = 16%nat /\ bytes_ok (make_kn l) /\ be_val (make_kn l) = gf_double (be_val l).
Proof.
  intros Hlen H. destruct l as [|c l]; [done|]. inversion H as [|? ? Hc Hl]; subst.
  unfold make_kn. assert (Hs : c >> 7 = c / 128) by (by rewrite Z.shiftr_div_pow2).
  unfold byte_ok in Hc.
  destruct (make_kn_loop_val (c >> 7) c l) as (E1 & E2 & E3); [rewrite Hs; lia|done|done|].
  rewrite E3. cbn [length] in Hlen. split_and!; [lia|done|]. unfold gf_double.
  replace (S (length l)) with 16%nat by lia. change (256 ^ Z.of_nat 16) with (2^128). f_equal.
  pose proof (be_val_bound l Hl). rewrite be_val_cons. replace (length l) with 15%nat in * by lia.
  change (256 ^ Z.of_nat 15) with (2^120) in *. rewrite Hs.
  destruct (Z.eqb_spec (c / 128) 1), (Z.leb_spec (2^127) (c * 2^120 + be_val l)); lia.
Qed.

(** ** Chaining *)

Section Correctness.
Context {evp : EVP} {AES : list Z -> list Z -> list Z} {cbc : EVP_CBC evp AES}.

Definition state_is (c : evp_ctx) (k iv : list Z) : Prop := cbc_key c = k /\ cbc_iv c = iv.

Lemma xor_block_length a b : length a = 16%nat -> length b = 16%nat -> length (xor_block a b) = 16%nat.
Proof. intros. unfold xor_block. rewrite length_zip_with. lia. Qed.

Lemma chain_length E n c m : (forall b, length b = 16%nat -> length (E b) = 16%nat) ->
  length c = 16%nat -> (16 * n <= length m)%nat ->
  length (chain E n c m).1 = 16%nat /\ (chain E n c m).2 = drop (16 * n) m.
Proof.
  intros HE. revert c m. induction n as [|n IH]; intros c m Hc Hm; [done|]. cbn [chain].
  destruct (IH (E (xor_block (take 16 m) c)) (drop 16 m)) as [H1 H2].
  - apply HE, xor_block_length; [rewrite length_take; lia|done].
  - rewrite length_drop. lia.
  - split; [done|]. rewrite H2, drop_drop. f_equal. lia.
Qed.

(** The loop of [NAS_CMAC_Update] is the chaining of the reference. *)
Lemma update_loop_chain k n : forall fuel c data dlen iv,
  state_is c k iv -> length iv = 16%nat ->
  128 * Z.of_nat n < dlen <= 128 * Z.of_nat (S n) -> (n < fuel)%nat ->
  (16 * n <= length data)%nat ->
  exists c', update_loop fuel c data dlen = Ok (c', (chain (AES k) n iv data).2, dlen - 128 * Z.of_nat n)
    /\ state_is c' k (chain (AES k) n iv data).1.
Proof.
  induction n as [|n IH]; intros fuel c data dlen iv Hst Hiv Hd Hf Hl;
    (destruct fuel as [|fuel]; [lia|]); cbn [update_loop].
  - destruct (Z.ltb_spec 128 dlen); [lia|]. exists c. cbn. by rewrite Z.sub_0_r.
  - destruct (Z.ltb_spec 128 dlen); [|lia]. unfold rdn.
    destruct (Z.ltb_spec (Z.of_nat (length data)) 16); [lia|]. osimp.
    change (Z.to_nat 16) with 16%nat. unfold adv. change (Z.to_nat 16) with 16%nat.
    destruct Hst as [Hk Hi].
    destruct (cbc_cipher c (take 16 data)) as (_ & H2 & H3); [rewrite length_take; lia|].
    rewrite Hk in *. rewrite Hi in *.
    destruct (IH fuel (EVP_Cipher c (take 16 data)).1 (drop 16 data) (dlen - 128)
      (AES k (xor_block (take 16 data) iv))) as (c' & E & Hst').
    + done.
    + apply aes_block, xor_block_length; [rewrite length_take; lia|done].
    + lia.
    + lia.
    + rewrite length_drop. lia.
    + exists c'. cbn [chain]. rewrite E. split; [|done].
      by replace (dlen - 128 - 128 * Z.of_nat n) with (dlen - 128 * Z.of_nat (S n)) by lia.
Qed.

(** ** The last block *)

(** The store of the padding octet and the [memset] behind it. *)
Lemma pad_stores l i x (g : list Z -> list Z) : length l = 32%nat -> 0 <= i <= 15 ->
  (l1 ← overwrite l i [x];
   l2 ← (if 1 <? 16 - i then overwrite l1 (i + 1) (repeat 0 (Z.to_nat (16 - i - 1))) else Ok l1);
   Ok (g (take 16 l2))) = Ok (g (take (Z.to_nat i) l ++ [x] ++ repeat 0 (15 - Z.to_nat i))).
Proof.
  intros Hl Hi. rewrite overwrite_Ok by (cbn; lia). osimp.
  set (l1 := take _ l ++ [x] ++ _).
  assert (Hl1 : length l1 = 32%nat).
  { unfold l1. rewrite !length_app, length_take, length_drop. cbn. lia. }
  assert (Ht : take (Z.to_nat i + 1) l1 = take (Z.to_nat i) l ++ [x]).
  { unfold l1. rewrite (assoc (++)). apply take_app_length'. rewrite length_app, length_take. cbn. lia. }
  destruct (Z.ltb_spec 1 (16 - i)).
  - rewrite overwrite_Ok by (rewrite ?repeat_length; lia). osimp. do 2 f_equal.
    replace (Z.to_nat (i + 1)) with (Z.to_nat i + 1)%nat by lia.
    rewrite Ht, (assoc (++)), take_app_length'.
    + rewrite <- (assoc (++)). do 3 f_equal. lia.
    + rewrite !length_app, length_take, repeat_length. cbn. lia.
  - osimp. do 2 f_equal. replace (Z.to_nat i) with 15%nat in * by lia.
    change (15 + 1)%nat with 16%nat in Ht. by rewrite Ht.
Qed.

Lemma pad_bit_byte b r : byte_ok b -> 1 <= r <= 7 ->
  wrap8 ((b .| (1 << (7 - r))) .& (0xff << (7 - r))) = b - b mod 2^(8 - r) + 2^(7 - r).
Proof.
  intros Hb Hr. apply Z.eqb_eq.
  assert (r = 1 \/ r = 2 \/ r = 3 \/ r = 4 \/ r = 5 \/ r = 6 \/ r = 7) as H by lia.
  destruct_or! H; subst r;
  match goal with |- context [7 - ?k] =>
    apply (byte_forall (fun b => wrap8 ((b .| (1 << (7 - k))) .& (0xff << (7 - k))) =? b - b mod 2^(8 - k) + 2^(7 - k)))
  end; try done; vm_compute; reflexivity.
Qed.

Definition subkey1 (k : list Z) : list Z := be_bytes 16 (gf_double (be_val (AES k zero_block))).
Definition subkey2 (k : list Z) : list Z := be_bytes 16 (gf_double (gf_double (be_val (AES k zero_block)))).

Lemma init_ctx k : let ctx := (NAS_CMAC_Init NAS_CMAC_CTX_new (Some k) 16 true).2 in
  state_is (cm_cctx ctx) k zero_block /\ take 16 (cm_k1 ctx) = subkey1 k /\
  take 16 (cm_k2 ctx) = subkey2 k /\ cm_last_block ctx = repeat 0 32 /\ cm_nlast_block ctx = 0.
Proof.
  unfold NAS_CMAC_Init. rewrite bool_decide_true by done.
  cbn [negb andb cm_cipher NAS_CMAC_CTX_new cm_cctx orb Z.eqb Pos.eqb].
  set (c := EVP_EncryptInit_key evp_blank k). destruct (cbc_init evp_blank k) as [Hk Hi]. fold c in Hk, Hi.
  destruct (cbc_cipher c zero_block eq_refl) as (H1 & H2 & H3). rewrite Hk, Hi in *.
  change (xor_block zero_block zero_block) with zero_block in *.
  destruct (EVP_Cipher c zero_block) as [c1 l] eqn:E. cbn in H1, H2, H3. subst l.
  destruct (aes_block k zero_block eq_refl) as [L1 L2].
  destruct (make_kn_double _ L1 L2) as (M1 & M2 & M3).
  destruct (make_kn_double _ M1 M2) as (N1 & N2 & N3).
  cbn [snd cm_cctx cm_k1 cm_k2 cm_last_block cm_nlast_block].
  rewrite !take_app_length' by done. destruct (cbc_reset c1) as [R1 R2]. rewrite H3 in R1.
  split_and!; [by split| | |done|done]; unfold subkey1, subkey2.
  - by rewrite <- M3, <- M1, be_bytes_val.
  - by rewrite <- M3, <- N3, <- N1, be_bytes_val.
Qed.

(** The last block the code encrypts, for [1 <= r <= 128] bits left in [rest]. *)
Definition last_of (k rest : list Z) (r : Z) : list Z :=
  if r =? 128 then xor_block (take 16 rest) (subkey1 k)
  else xor_block (pad_block rest r) (subkey2 k).

Lemma bits_to_bytes_bounds r : 1 <= r <= 128 -> 1 <= bits_to_bytes r <= 16 /\
  r / 8 <= bits_to_bytes r /\ (r mod 8 <> 0 -> bits_to_bytes r = r / 8 + 1).
Proof. intros. unfold bits_to_bytes. destruct (Z.eqb_spec (r mod 8) 0); lia. Qed.

Lemma pad_block_length m r : (Z.to_nat (r / 8) <= length m)%nat -> 0 <= r < 128 ->
  length (pad_block m r) = 16%nat.
Proof. intros. unfold pad_block. rewrite !length_app, length_take, repeat_length. cbn. lia. Qed.

Lemma subkeys_length k : length (subkey1 k) = 16%nat /\ length (subkey2 k) = 16%nat.
Proof. done. Qed.

Lemma final_last ctx k iv rest r : state_is (cm_cctx ctx) k iv -> length iv = 16%nat ->
  take 16 (cm_k1 ctx) = subkey1 k -> take 16 (cm_k2 ctx) = subkey2 k ->
  1 <= r <= 128 -> bytes_ok rest -> bits_to_bytes r <= Z.of_nat (length rest) ->
  let bs := take (Z.to_nat (bits_to_bytes r)) rest in
  cm_last_block ctx = bs ++ drop (length bs) (repeat 0 32) -> cm_nlast_block ctx = r ->
  NAS_CMAC_Final ctx = Ok (1, AES k (xor_block (last_of k rest r) iv)).
Proof.
  intros [Hk Hi] Liv K1 K2 Hr Hb Hl bs Hlb Hn. unfold NAS_CMAC_Final. rewrite Hn.
  destruct (bits_to_bytes_bounds r Hr) as (B1 & B2 & B3).
  assert (Lbs : length bs = Z.to_nat (bits_to_bytes r)) by (unfold bs; rewrite length_take; lia).
  assert (Hc : forall blk, length blk = 16%nat ->
     (EVP_Cipher (cm_cctx ctx) blk).2 = AES k (xor_block blk iv)).
  { intros blk Lb. destruct (cbc_cipher (cm_cctx ctx) blk Lb) as (H1 & _). by rewrite H1, Hk, Hi. }
  destruct (Z.eqb_spec r (-1)); [lia|]. unfold last_of. rewrite K1, K2.
  destruct (Z.eqb_spec r 128) as [->|Hr128].
  - osimp. rewrite Hlb. change (bits_to_bytes 128) with 16 in *. rewrite take_app_length' by (rewrite Lbs; done).
    unfold bs. rewrite Hc; [done|]. apply xor_block_length; [rewrite length_take; lia|done].
  - set (i := r / 8). set (r8 := r mod 8).
    set (x := nth (Z.to_nat i) rest 0 - nth (Z.to_nat i) rest 0 mod 2^(8 - r8) + 2^(7 - r8)).
    assert (Hbyte : byte_ok (nth (Z.to_nat i) rest 0)).
    { destruct (nth_in_or_default (Z.to_nat i) rest 0) as [Hin| ->]; [|unfold byte_ok; lia].
      apply list_elem_of_In in Hin. by eapply Forall_forall in Hin. }
    assert (Hlast : (if r8 =? 0 then Ok 0x80 else b ← rdi (cm_last_block ctx) i;
        Ok (wrap8 ((b .| (1 << (7 - r8))) .& (0xff << (7 - r8))))) = Ok x).
    { unfold x. unfold byte_ok in Hbyte. destruct (Z.eqb_spec r8 0) as [E0|E0].
      - rewrite E0. f_equal. change (2^(8-0)) with 256. change (2^(7-0)) with 128. lia.
      - specialize (B3 E0). rewrite rdi_nth by (rewrite Hlb, length_app; lia). osimp.
        rewrite Hlb, app_nth1 by lia. unfold bs. rewrite nth_firstn.
        destruct (Nat.ltb_spec (Z.to_nat i) (Z.to_nat (bits_to_bytes r))); [|lia].
        f_equal. apply pad_bit_byte; [done|lia]. }
    rewrite Hlast. osimp. rewrite (pad_stores _ i x (fun l => xor_block l (subkey2 k))).
    + osimp. rewrite Hlb, take_app_le by lia. unfold bs. rewrite take_take.
      replace (Z.to_nat i `min` Z.to_nat (bits_to_bytes r))%nat with (Z.to_nat i) by lia.
      change (take (Z.to_nat i) rest ++ _) with (pad_block rest r).
      rewrite Hc; [done|]. apply xor_block_length; [apply pad_block_length; lia|done].
    + rewrite Hlb, length_app, length_drop, repeat_length. lia.
    + lia.
Qed.

(** The incremental CMAC of eia2.c is the CMAC of the standard, for every key
    and every non-empty string of [n] bits. *)
Lemma NAS_CMAC_run k m n : bytes_ok m -> 1 <= n -> bits_to_bytes n <= Z.of_nat (length m) ->
  ('(_, ctx) ← NAS_CMAC_Update (NAS_CMAC_Init NAS_CMAC_CTX_new (Some k) 16 true).2 m n;
   NAS_CMAC_Final ctx) = Ok (1, cmac (AES k) m n).
Proof.
  intros Hm Hn Hl. destruct (init_ctx k) as (Hst & K1 & K2 & Hlb & Hnl).
  set (ctx := (NAS_CMAC_Init _ _ _ _).2) in *. clearbody ctx.
  unfold NAS_CMAC_Update. rewrite Hnl. cbn [Z.eqb Z.ltb Z.compare].
  destruct (Z.eqb_spec n 0); [lia|]. unfold update_tail.
  set (nb := Z.to_nat ((n - 1) / 128)).
  assert (Hnb : 128 * Z.of_nat nb < n <= 128 * Z.of_nat (S nb)) by (unfold nb; lia).
  assert (Hb2b : 16 * Z.of_nat nb + bits_to_bytes (n - 128 * Z.of_nat nb) = bits_to_bytes n).
  { unfold bits_to_bytes. replace ((n - 128 * Z.of_nat nb) mod 8) with (n mod 8) by lia. lia. }
  destruct (bits_to_bytes_bounds (n - 128 * Z.of_nat nb) ltac:(lia)) as (B1 & _ & _).
  destruct (update_loop_chain k nb (Z.to_nat (n / 128 + 1)) (cm_cctx ctx) m n zero_block Hst eq_refl Hnb
    ltac:(lia) ltac:(lia)) as (c' & E & Hst').
  rewrite E. osimp. unfold cmac. fold nb.
  destruct (chain_length (AES k) nb zero_block m) as [Lc Hrest];
    [intros; by apply aes_block|done|lia|].
  destruct (chain (AES k) nb zero_block m) as [c rest]. cbn [fst snd] in *.
  assert (Lr : bits_to_bytes (n - 128 * Z.of_nat nb) <= Z.of_nat (length rest)).
  { rewrite Hrest, length_drop. lia. }
  unfold rdn. destruct (Z.ltb_spec (Z.of_nat (length rest)) (bits_to_bytes (n - 128 * Z.of_nat nb))); [lia|].
  osimp. rewrite overwrite_Ok, Hlb by (rewrite ?Hlb, ?length_take, ?repeat_length; lia). osimp.
  cbn [take app Z.to_nat Nat.add].
  apply (final_last _ k c rest); [done|done|done|done|lia| |lia|done|done].
  rewrite Hrest. by apply Forall_drop.
Qed.

Lemma cmac_block k m n : 1 <= n -> bits_to_bytes n <= Z.of_nat (length m) ->
  length (cmac (AES k) m n) = 16%nat /\ bytes_ok (cmac (AES k) m n).
Proof.
  intros Hn Hl. unfold cmac. set (nb := Z.to_nat ((n - 1) / 128)).
  assert (Hnb : 128 * Z.of_nat nb < n <= 128 * Z.of_nat (S nb)) by (unfold nb; lia).
  assert (Hb2b : 16 * Z.of_nat nb + bits_to_bytes (n - 128 * Z.of_nat nb) = bits_to_bytes n).
  { unfold bits_to_bytes. replace ((n - 128 * Z.of_nat nb) mod 8) with (n mod 8) by lia. lia. }
  destruct (bits_to_bytes_bounds (n - 128 * Z.of_nat nb) ltac:(lia)) as (B1 & B2 & _).
  destruct (chain_length (AES k) nb zero_block m) as [Lc Hrest];
    [intros; by apply aes_block|done|lia|].
  destruct (chain (AES k) nb zero_block m) as [c rest]. cbn [fst snd] in *.
  apply aes_block, xor_block_length; [|done].
  destruct (Z.eqb_spec (n - 128 * Z.of_nat nb) 128) as [E|E]; (apply xor_block_length; [|done]).
  - rewrite E in Hb2b. change (bits_to_bytes 128) with 16 in Hb2b.
    rewrite Hrest, length_take, length_drop. lia.
  - apply pad_block_length; [rewrite Hrest, length_drop; lia|lia].
Qed.

Lemma eia2_run k count bearer direction msg mLen :
  length count = 4%nat -> bytes_ok count -> 0 <= bearer < 32 -> 0 <= direction < 2 ->
  bytes_ok msg -> 0 <= mLen -> bits_to_bytes mLen <= Z.of_nat (length msg) ->
  eia2 k count bearer direction msg mLen =
  Ok (take 4 (cmac (AES k)
    (count ++ [8 * bearer + 4 * direction; 0; 0; 0] ++ take (Z.to_nat (bits_to_bytes mLen)) msg)
    (64 + mLen))).
Proof.
  intros Hc Hcb Hbr Hd Hm Hl Hlm. unfold eia2.
  assert (H4 : wrap8 ((bearer << 3) .| (direction << 2)) = 8 * bearer + 4 * direction).
  { rewrite !Z.shiftl_mul_pow2, (lor_disjoint_add _ _ 3), wrap8_id; lia. }
  rewrite H4. rewrite <- (app_nil_r count) at 1. rewrite rdn_app by (rewrite Hc; done). osimp.
  replace (8 + bits_to_bytes mLen - 8) with (bits_to_bytes mLen) by lia.
  assert (Hr : rdn msg (bits_to_bytes mLen) = Ok (take (Z.to_nat (bits_to_bytes mLen)) msg)).
  { unfold rdn. by destruct (Z.ltb_spec (Z.of_nat (length msg)) (bits_to_bytes mLen)); [lia|]. }
  rewrite Hr. osimp. set (s := count ++ _).
  assert (B : bits_to_bytes (64 + mLen) = 8 + bits_to_bytes mLen).
  { unfold bits_to_bytes. replace ((64 + mLen) mod 8) with (mLen mod 8) by lia. lia. }
  assert (B0 : 0 <= bits_to_bytes mLen) by (unfold bits_to_bytes; case_bools; lia).
  assert (Ls : bits_to_bytes (64 + mLen) <= Z.of_nat (length s)).
  { unfold s. rewrite !length_app, length_take. cbn. lia. }
  assert (Hs : bytes_ok s).
  { unfold s. apply Forall_app. split; [done|]. apply Forall_app.
    split; [repeat constructor; lia|by apply Forall_take]. }
  pose proof (NAS_CMAC_run k s (64 + mLen) Hs ltac:(lia) Ls) as E.
  destruct (NAS_CMAC_Update _ s (64 + mLen)) as [[z ctx]|]; osimp; [|done].
  rewrite E. osimp. unfold rdn. by rewrite (proj1 (cmac_block k s (64 + mLen) ltac:(lia) Ls)).
Qed.

(** The digest has four octets whenever the message is there. *)
Lemma eia2_digest k count bearer direction msg mLen :
  length count = 4%nat -> bytes_ok count -> 0 <= bearer < 32 -> 0 <= direction < 2 ->
  bytes_ok msg -> 0 <= mLen -> bits_to_bytes mLen <= Z.of_nat (length msg) ->
  exists mac, eia2 k count bearer direction msg mLen = Ok mac /\ length mac = 4%nat /\ bytes_ok mac.
Proof.
  intros. eexists. split; [by apply eia2_run|].
  assert (B : bits_to_bytes (64 + mLen) = 8 + bits_to_bytes mLen).
  { unfold bits_to_bytes. replace ((64 + mLen) mod 8) with (mLen mod 8) by lia. lia. }
  assert (B0 : 0 <= bits_to_bytes mLen) by (unfold bits_to_bytes; case_bools; lia).
  match goal with |- context [cmac _ ?m _] => destruct (cmac_block k m (64 + mLen)) as [L Hb] end.
  - lia.
  - rewrite !length_app, length_take. cbn. lia.
  - rewrite length_take, L. split; [done|by apply Forall_take].
Qed.

(** C14: [eia2] is the 128-EIA2 of TS 33.401: for any cipher that chains blocks
    as CBC does, it returns the first 32 bits of the CMAC of COUNT (32 bits),
    BEARER (5 bits), DIRECTION (1 bit), 26 zero bits and the [mLen] bits of
    the message. *)
Theorem eia2_correct k count bearer direction msg mLen :
  length count = 4%nat -> bytes_ok count -> 0 <= bearer < 32 -> 0 <= direction < 2 ->
  bytes_ok msg -> 0 <= mLen -> bits_to_bytes mLen <= Z.of_nat (length msg) ->
  eia2 k count bearer direction msg mLen =
  Ok (take 4 (cmac (AES k)
    (count ++ [8 * bearer + 4 * direction; 0; 0; 0] ++ take (Z.to_nat (bits_to_bytes mLen)) msg)
    (64 + mLen))).
Proof. apply eia2_run. Qed.

(** a second update of an unfinished context is broken: once 32 bits or
    more are pending, the copy behind them uses the number of bits as an
    octet offset and writes outside of the 32-octet block. *)
Theorem second_update_overruns (ctx : NAS_CMAC_CTX) data dlen :
  length (cm_last_block ctx) = 32%nat -> 32 <= cm_nlast_block ctx < 128 ->
  1 <= dlen -> bits_to_bytes dlen <= Z.of_nat (length data) ->
  NAS_CMAC_Update ctx data dlen = UB OutOfBounds.
Proof.
  intros Hlb Hn Hd Hl. unfold NAS_CMAC_Update. unfold wrap64. rewrite (Z.mod_small (128 - _)) by lia.
  destruct (Z.eqb_spec (cm_nlast_block ctx) (-1)), (Z.eqb_spec dlen 0),
    (Z.ltb_spec 0 (cm_nlast_block ctx)); try lia.
  set (nl := if dlen <? _ then _ else _).
  assert (Hnl : 1 <= nl <= dlen /\ nl <= 128).
  { unfold nl. destruct (Z.ltb_spec dlen (128 - cm_nlast_block ctx)); lia. }
  destruct (bits_to_bytes_bounds nl ltac:(lia)) as (B1 & _ & _).
  assert (Bm : bits_to_bytes nl <= bits_to_bytes dlen).
  { unfold bits_to_bytes. destruct (Z.eqb_spec (nl mod 8) 0), (Z.eqb_spec (dlen mod 8) 0); lia. }
  unfold rdn. destruct (Z.ltb_spec (Z.of_nat (length data)) (bits_to_bytes nl)); [lia|]. osimp.
  unfold overwrite. rewrite Hlb, length_take.
  match goal with |- context [if ?a <? ?b then _ else _] => destruct (Z.ltb_spec a b); [done|lia] end.
Qed.
End Correctness.

(** ** The hypotheses can hold: a concrete (toy) chained cipher *)

Definition toy_aes (b : list Z) : list Z := map (fun x => wrap8 (7 * x + 3)) b.

#[local] Instance toy_evp : EVP := {|
  evp_ctx := list Z * list Z;
  evp_blank := ([], zero_block);
  EVP_EncryptInit_key c k := (k, zero_block);
  EVP_EncryptInit_iv c := (c.1, zero_block);
  EVP_Cipher c b := let o := toy_aes (xor_block b c.2) in ((c.1, o), o);
|}.

#[local] Instance toy_cbc : EVP_CBC toy_evp (fun _ => toy_aes).
Proof.
  refine {| cbc_key (c : evp_ctx) := c.1; cbc_iv (c : evp_ctx) := c.2 |}; try done.
  intros _ b Hb. unfold toy_aes. split; [by rewrite length_map|]. apply Forall_forall. intros x Hx.
  apply list_elem_of_fmap in Hx as (y & -> & _). apply wrap8_byte.
Defined.

Lemma eia2_correct_witness :
  eia2 (evp := toy_evp) (repeat 7 16) [0; 0; 0; 1] 0 1 [0x07; 0x5e; 3] 24 = Ok [87; 87; 87; 94].
Proof.
  rewrite (eia2_correct (AES := fun _ => toy_aes)).
  - vm_compute. reflexivity.
  - reflexivity.
  - repeat constructor; unfold byte_ok; lia.
  - lia.
  - lia.
  - repeat constructor; unfold byte_ok; lia.
  - lia.
  - vm_compute. discriminate.
Defined.

Lemma second_update_overruns_witness :
  NAS_CMAC_Update (evp := toy_evp) (CmacCtx evp_blank true [] [] [] (repeat 0 32) 64) [1; 2] 16 = UB OutOfBounds.
Proof.
  apply second_update_overruns; [reflexivity|cbn; lia|lia|].
  vm_compute. discriminate.
Defined.
