(* ===== verification/NASSec.v ===== *)
(** NAS security (src/NAS/src/NAS.c, src/NAS/include/NASHandler.h): the
    security context [NASHandler], the NAS COUNT, key derivation, protection
    of outgoing messages and authentication and deciphering of incoming ones. *)
From Stdlib Require Import Sorted.
From S2P Require Import Prelude NASTypes NASIe NASDec NASEnc EIA2.

(** OpenSSL's HMAC-SHA256 of a message under a key: 32 octets. *)
Class HMAC := {
  HMAC_SHA256 : list Z -> list Z -> list Z;
  HMAC_SHA256_ok k m : length (HMAC_SHA256 k m) = 32%nat /\ bytes_ok (HMAC_SHA256 k m);
}.

(** [NASHandler] *)
Record NASHandler := {
  isValid : bool;
  h_i : NAS_EIA;
  h_ikey : list Z;
  h_e : NAS_EEA;
  h_ekey : list Z;
  nas_count_ul : Z;
  nas_count_dl : Z;
}.

(** [n->nas_count[direction]] *)
Definition nas_count (n : NASHandler) (d : NAS_Direction) : Z :=
  match d with NAS_UpLink => nas_count_ul n | NAS_DownLink => nas_count_dl n end.
Definition set_nas_count (n : NASHandler) (d : NAS_Direction) (c : Z) : NASHandler :=
  match d with
  | NAS_UpLink => Build_NASHandler (isValid n) (h_i n) (h_ikey n) (h_e n) (h_ekey n) c (nas_count_dl n)
  | NAS_DownLink => Build_NASHandler (isValid n) (h_i n) (h_ikey n) (h_e n) (h_ekey n) (nas_count_ul n) c
  end.

(** ** NAS COUNT *)

Definition count_result (c : Z) : Z := if 0xffffff - 5 <? c then 0 else 1.

Definition nas_incrementNASCount (n : NASHandler) (d : NAS_Direction) : Z * NASHandler :=
  let c := wrap32 (nas_count n d + 1) in (count_result c, set_nas_count n d c).

Definition nas_setCOUNT (n : NASHandler) (d : NAS_Direction) (recv : Z) : Z * NASHandler :=
  let c := wrap32 (((nas_count n d .& 0xffff00) .| wrap8 recv) + 1) in
  (count_result c, set_nas_count n d c).

Definition nas_setCOUNTshort (n : NASHandler) (d : NAS_Direction) (recv : Z) : Z * NASHandler :=
  let c := wrap32 (((nas_count n d .& 0xffffe0) .| wrap8 recv) + 1) in
  (count_result c, set_nas_count n d c).

Definition NAS_COUNT_THRESHOLD : Z := 10.

(** [last] is a [uint32_t], so the difference is unsigned. *)
Definition nas_checkCOUNT (last recv : Z) : bool :=
  wrap32 (recv - (last .& 0xff)) <? NAS_COUNT_THRESHOLD.
Definition nas_checkCOUNTshort (last recv : Z) : bool :=
  wrap32 (recv - (last .& 0x1f)) <? NAS_COUNT_THRESHOLD.

Definition nas_getLastCount (n : NASHandler) (d : NAS_Direction) : Z := wrap32 (nas_count n d - 1).

(** ** Keys *)

Section Security.
Context {evp : EVP} {hm : HMAC}.

(** [hmac_sha256]: the last [mac_size] octets of the code. *)
Definition hmac_sha256 (key message : list Z) (mac_size : nat) : list Z :=
  let res := HMAC_SHA256 key message in drop (length res - mac_size) res.

Definition kdf (kasme : list Z) (distinguisher algId : Z) : list Z :=
  hmac_sha256 (take 32 kasme) [0x15; distinguisher; 0x00; 0x01; algId; 0x00; 0x01] 16.

Definition nas_newHandler : NASHandler :=
  Build_NASHandler false NAS_EIA0 (repeat 0 16) NAS_EEA0 (repeat 0 16) 0 0.

Definition nas_setSecurity (h : NASHandler) (i : NAS_EIA) (e : NAS_EEA) (kasme : list Z) : NASHandler :=
  Build_NASHandler true i (kdf kasme 0x02 (NAS_EIA_val i)) e (kdf kasme 0x01 (NAS_EEA_val e)) 0 0.

(** ** Algorithm tables *)

Definition EIAcb := list Z -> list Z -> Z -> Z -> list Z -> Z -> outcome (list Z).
Definition EEAcb := list Z -> list Z -> Z -> Z -> list Z -> Z -> outcome (list Z * Z).

Definition eia_cb : list (option EIAcb) :=
  [Some eia0; None; Some eia2; None; None; None; None].
Definition eea_dec_cb : list (option EEAcb) :=
  [Some eea0_dec; None; None; None; None; None; None].
Definition eea_cyph_cb : list (option EEAcb) :=
  [Some eea0_cyph; None; None; None; None; None; None].

(** A call through the table. *)
Definition table_call {F} (t : list (option F)) (ix : Z) : outcome F :=
  match t !! Z.to_nat ix with
  | Some (Some f) => Ok f
  | Some None => UB NullCall
  | None => UB OutOfBounds
  end.

(** ** Outgoing messages *)

(** Return value, [*len], the output buffer and the handler. *)
Record sec_result := {
  sr_ret : Z; sr_len : Z; sr_out : list Z; sr_handler : NASHandler }.

Definition is_protected (s : Z) : bool :=
  is_enum s IntegrityProtected || is_enum s IntegrityProtectedAndCiphered ||
  is_enum s IntegrityProtectedWithNewEPSSecurityContext ||
  is_enum s IntegrityProtectedAndCipheredWithNewEPSSecurityContext.

Definition is_ciphered (s : Z) : bool :=
  is_enum s IntegrityProtectedAndCiphered ||
  is_enum s IntegrityProtectedAndCipheredWithNewEPSSecurityContext.

Definition newNASMsg_sec (n : NASHandler) (out : list Z) (len p s : Z) (direction : NAS_Direction)
    (plain : list Z) (pLen : Z) : outcome sec_result :=
  if negb (isValid n) then Ok (Build_sec_result 0 len out n)
  else if negb (is_protected s) then Ok (Build_sec_result 0 len out n)
  else
    let count := be32 (nas_count n direction) in
    let dir := NAS_Direction_val direction in
    '(body, cLen) ← (if is_ciphered s
                     then f ← table_call eea_cyph_cb (NAS_EEA_val (h_e n));
                          f (h_ekey n) count 0 dir plain pLen
                     else m ← rdn plain pLen; Ok (m, pLen));
    if is_ciphered s && negb (pLen =? cLen) then Ok (Build_sec_result 0 0 out n)
    else
      let buf := nth 3 count 0 :: body in
      f ← table_call eia_cb (NAS_EIA_val (h_i n));
      mac ← f (h_ikey n) count 0 dir buf ((pLen + 1) * 8);
      w ← (newNASMsg_EMM p s ;;; nasIe_v_t3 mac 4 ;;; nasIe_v_t3 buf (pLen + 1)) (WBuf out 0);
      Ok (Build_sec_result 1 (Z.of_nat (wb_pos w)) (wb_buf w)
            (nas_incrementNASCount n NAS_DownLink).2).

(** ** Incoming messages *)

(** [nas_authenticateMsg]: the return value, [*isAuth] and the handler. *)
Definition nas_authenticateMsg (n : NASHandler) (buf : list Z) (size : Z) (direction : NAS_Direction)
  : outcome (Z * Z * NASHandler) :=
  hdr ← nas_getHeader (Some buf) size;
  if negb (isValid n) then Ok (0, 0, n)
  else
    match hdr with
    | None => UB Uninitialised
    | Some (s, _) =>
      let dir := NAS_Direction_val direction in
      match SecurityHeaderType_of s with
      | Some PlainNAS => Ok (0, 0, n)
      | Some SecurityHeaderForServiceRequestMessage =>
        b1 ← rdi buf 1;
        let nas_sqn := b1 .& 0x1f in
        if negb (nas_checkCOUNTshort (nas_count n direction) nas_sqn) then Ok (2, 0, n)
        else
          short_mac ← rdn (adv buf 2) 2;
          let count := be32 ((nas_count n direction .& 0xffffe0) .| nas_sqn) in
          f ← table_call eia_cb (NAS_EIA_val (h_i n));
          mac_x ← f (h_ikey n) count 0 dir buf (2 * 8);
          if bool_decide (short_mac = drop 2 mac_x) || bool_decide (h_i n = NAS_EIA0)
          then Ok (1, 1, (nas_setCOUNTshort n direction nas_sqn).2)
          else Ok (1, 0, n)
      | Some _ =>
        nas_sqn ← rdi buf 5;
        if negb (nas_checkCOUNT (nas_count n direction) nas_sqn) then Ok (2, 0, n)
        else
          mac ← rdn (adv buf 1) 4;
          let count := be32 ((nas_count n direction .& 0xffff00) .| nas_sqn) in
          f ← table_call eia_cb (NAS_EIA_val (h_i n));
          mac_x ← f (h_ikey n) count 0 dir (adv buf 5) (wrap32 ((size - 5) * 8));
          if bool_decide (mac = mac_x) || bool_decide (h_i n = NAS_EIA0)
          then Ok (1, 1, (nas_setCOUNT n direction nas_sqn).2)
          else Ok (1, 0, n)
      | None => Ok (0, 0, n)
      end
    end.

(** [dec_secNAS]: the return value and the message. *)
Definition dec_secNAS (n : NASHandler) (direction : NAS_Direction) (buf : list Z) (size : Z)
  : outcome (Z * GenericNASMsg_t) :=
  hdr ← nas_getHeader (Some buf) (wrap32 size);
  match hdr with
  | None => UB Uninitialised
  | Some (s, _) =>
    if is_enum s IntegrityProtected then
      '(_, msg) ← dec_NAS (adv buf 6) (wrap64 (size - 6)); Ok (1, msg)
    else if negb (is_ciphered s || is_enum s SecurityHeaderForServiceRequestMessage)
    then Ok (0, zero_msg)
    else if negb (isValid n) then Ok (0, zero_msg)
    else
      f ← table_call eea_dec_cb (NAS_EEA_val (h_e n));
      '(plain, len) ← f (h_ekey n) (be32 (nas_count n direction)) 0 (NAS_Direction_val direction)
                        (adv buf 6) (wrap64 (size - 6));
      dec_NAS plain len
  end.
End Security.

(** [nas_isAuthRequired] *)
Definition nas_isAuthRequired (messageType : Z) : Z :=
  match NASMessageType_of messageType with
  | Some AttachRequest | Some IdentityResponse | Some AuthenticationResponse
  | Some AuthenticationFailure | Some SecurityModeReject | Some DetachRequest
  | Some DetachAccept | Some TrackingAreaUpdateRequest | Some ExtendedServiceRequest => 0
  | _ => 1
  end.

(** ** The counting window *)

Lemma nas_checkCOUNT_spec last recv : 0 <= last -> byte_ok recv ->
  nas_checkCOUNT last recv = true <-> last mod 256 <= recv < last mod 256 + 10.
Proof.
  intros Hl Hr. unfold byte_ok in Hr. unfold nas_checkCOUNT, NAS_COUNT_THRESHOLD, wrap32.
  rewrite land_ff, Z.ltb_lt. lia.
Qed.

Lemma nas_checkCOUNTshort_spec last recv : 0 <= last -> 0 <= recv < 32 ->
  nas_checkCOUNTshort last recv = true <-> last mod 32 <= recv < last mod 32 + 10.
Proof.
  intros Hl Hr. unfold nas_checkCOUNTshort, NAS_COUNT_THRESHOLD, wrap32.
  rewrite land_1f, Z.ltb_lt. lia.
Qed.

(** The COUNT of a message: the stored one with its low bits replaced. *)
Lemma count_of_sqn last recv : byte_ok recv ->
  Z.lor (Z.land last 0xffff00) recv = last mod 2^24 - last mod 256 + recv.
Proof.
  intros Hr. unfold byte_ok in Hr. rewrite land_ffff00. apply (lor_disjoint_add _ _ 8); [lia|lia|].
  change (2^8) with 256. lia.
Qed.
Lemma count_of_sqn_short last recv : 0 <= recv < 32 ->
  Z.lor (Z.land last 0xffffe0) recv = last mod 2^24 - last mod 32 + recv.
Proof.
  intros Hr. rewrite land_ffffe0. apply (lor_disjoint_add _ _ 5); [lia|lia|]. change (2^5) with 32. lia.
Qed.

(** ** Freshness *)

Section Freshness.
Context {evp : EVP} {hm : HMAC}.

Lemma set_count_eq n d c : nas_count (set_nas_count n d c) d = c.
Proof. by destruct d. Qed.
Lemma set_count_ne n d d' c : d <> d' -> nas_count (set_nas_count n d c) d' = nas_count n d'.
Proof. by destruct d, d'. Qed.
Lemma set_count_fields n d c : isValid (set_nas_count n d c) = isValid n /\
  h_i (set_nas_count n d c) = h_i n /\ h_e (set_nas_count n d c) = h_e n /\
  h_ikey (set_nas_count n d c) = h_ikey n /\ h_ekey (set_nas_count n d c) = h_ekey n.
Proof. by destruct d. Qed.

(** What an accepted message looked like: [c] is the COUNT its code was
    computed over. *)
Inductive accepted (n : NASHandler) (buf : list Z) (size : Z) (d : NAS_Direction) (c : Z) : Prop :=
  | accepted_long sqn p4 mac f :
      is_protected (hi4 (nth 0 buf 0)) = true -> rdi buf 5 = Ok sqn ->
      nas_checkCOUNT (nas_count n d) sqn = true ->
      c = Z.lor (Z.land (nas_count n d) 0xffff00) sqn ->
      rdn (adv buf 1) 4 = Ok p4 -> table_call eia_cb (NAS_EIA_val (h_i n)) = Ok f ->
      f (h_ikey n) (be32 c) 0 (NAS_Direction_val d) (adv buf 5) (wrap32 ((size - 5) * 8)) = Ok mac ->
      p4 = mac \/ h_i n = NAS_EIA0 -> accepted n buf size d c
  | accepted_short b1 sqn p2 mac f :
      is_enum (hi4 (nth 0 buf 0)) SecurityHeaderForServiceRequestMessage = true ->
      rdi buf 1 = Ok b1 -> sqn = Z.land b1 0x1f ->
      nas_checkCOUNTshort (nas_count n d) sqn = true ->
      c = Z.lor (Z.land (nas_count n d) 0xffffe0) sqn ->
      rdn (adv buf 2) 2 = Ok p2 -> table_call eia_cb (NAS_EIA_val (h_i n)) = Ok f ->
      f (h_ikey n) (be32 c) 0 (NAS_Direction_val d) buf (2 * 8) = Ok mac ->
      p2 = drop 2 mac \/ h_i n = NAS_EIA0 -> accepted n buf size d c.

Lemma rdi_byte buf i x : bytes_ok buf -> rdi buf i = Ok x -> byte_ok x.
Proof.
  intros Hb. unfold rdi, adv. destruct (drop (Z.to_nat i) buf) as [|y l] eqn:E; [done|].
  cbn. intros [= <-]. apply (Forall_drop _ (Z.to_nat i)) in Hb. rewrite E in Hb. by inversion Hb.
Qed.

Lemma nas_getHeader_inv buf size s p : nas_getHeader (Some buf) size = Ok (Some (s, p)) ->
  s = hi4 (nth 0 buf 0) /\ p = lo4 (nth 0 buf 0) /\ 1 <= size.
Proof.
  unfold nas_getHeader. destruct (Z.ltb_spec size 1); [done|]. destruct buf; [done|].
  cbn [rd nth]. osimp. intros [= <- <-]. done.
Qed.

Lemma header_of_spec s a : SecurityHeaderType_of s = Some a <-> is_enum s a = true.
Proof. change (SecurityHeaderType_of s) with (enum_of (A := SecurityHeaderType_t) s). by rewrite is_enum_spec. Qed.

Lemma bool_decide_or_true (P Q : Prop) `{Decision P, Decision Q} :
  bool_decide P || bool_decide Q = true -> P \/ Q.
Proof. rewrite orb_true_iff, !bool_decide_eq_true. done. Qed.

(** Only a message that passes the window and the code check is accepted, and
    the handler then expects the next COUNT. *)
Lemma authenticate_accepted n buf size d n' : bytes_ok buf ->
  nas_authenticateMsg n buf size d = Ok (1, 1, n') ->
  isValid n = true /\ exists c, accepted n buf size d c /\ n' = set_nas_count n d (wrap32 (c + 1)).
Proof.
  intros Hb H. unfold nas_authenticateMsg in H.
  destruct (nas_getHeader (Some buf) size) as [hdr|] eqn:Eh; [|done]. osimp.
  destruct (isValid n) eqn:Ev; [|done]. split; [done|]. cbn [negb] in H.
  destruct hdr as [[s p]|]; [|done].
  assert (Es : s = hi4 (nth 0 buf 0)).
  { by apply nas_getHeader_inv in Eh as (? & _). }
  subst s.
  assert (Hlong : is_protected (hi4 (nth 0 buf 0)) = true ->
    (nas_sqn ← rdi buf 5;
        if negb (nas_checkCOUNT (nas_count n d) nas_sqn) then Ok (2, 0, n)
        else
          mac ← rdn (adv buf 1) 4;
          f ← table_call eia_cb (NAS_EIA_val (h_i n));
          mac_x ← f (h_ikey n) (be32 ((nas_count n d .& 0xffff00) .| nas_sqn)) 0
             (NAS_Direction_val d) (adv buf 5) (wrap32 ((size - 5) * 8));
          if bool_decide (mac = mac_x) || bool_decide (h_i n = NAS_EIA0)
          then Ok (1, 1, (nas_setCOUNT n d nas_sqn).2)
          else Ok (1, 0, n)) = Ok (1, 1, n') ->
    exists c, accepted n buf size d c /\ n' = set_nas_count n d (wrap32 (c + 1))).
  { intros Hp HL. destruct (rdi buf 5) as [sqn|] eqn:E5; [|done]. osimp.
    destruct (nas_checkCOUNT (nas_count n d) sqn) eqn:Ec; [|done]. cbn [negb] in HL.
    destruct (rdn (adv buf 1) 4) as [p4|] eqn:E4; [|done]. osimp.
    destruct (table_call eia_cb _) as [f|] eqn:Ef; [|done]. osimp.
    destruct (f _ _ _ _ _ _) as [mac|] eqn:Em; [|done]. osimp.
    destruct (bool_decide (p4 = mac) || _) eqn:Eb; [|done]. apply bool_decide_or_true in Eb.
    injection HL as <-. eexists. split; [by eapply accepted_long|].
    cbn. rewrite wrap8_id by (eapply rdi_byte; eauto). done. }
  destruct (SecurityHeaderType_of (hi4 (nth 0 buf 0))) as [[]|] eqn:Et; try done;
    try (apply Hlong; [|exact H]; apply header_of_spec in Et; unfold is_protected; rewrite Et, ?orb_true_r; done).
  destruct (rdi buf 1) as [b1|] eqn:E1; [|done]. osimp.
  destruct (nas_checkCOUNTshort (nas_count n d) _) eqn:Ec; [|done]. cbn [negb] in H.
  destruct (rdn (adv buf 2) 2) as [p2|] eqn:E4; [|done]. osimp.
  destruct (table_call eia_cb _) as [f|] eqn:Ef; [|done]. osimp.
  destruct (f _ _ _ _ _ _) as [mac|] eqn:Em; [|done]. osimp.
  destruct (bool_decide (p2 = _) || _) eqn:Eb; [|done]. apply bool_decide_or_true in Eb.
  injection H as <-. eexists. split.
  - eapply accepted_short; eauto. by apply header_of_spec.
  - cbn. rewrite wrap8_id; [done|]. rewrite land_1f. lia.
Qed.

(** The COUNT of an accepted message is at most nine ahead of the expected one. *)
Lemma accepted_window n buf size d c : bytes_ok buf -> 0 <= nas_count n d < 2^24 ->
  accepted n buf size d c -> nas_count n d <= c < nas_count n d + 10 /\ c < 2^24.
Proof.
  intros Hb Hn [sqn p4 mac f _ E5 Ec -> _ _ _ _|b1 sqn p2 mac f _ E1 -> Ec -> _ _ _ _].
  - apply rdi_byte in E5; [|done]. rewrite count_of_sqn by done. unfold byte_ok in E5.
    apply nas_checkCOUNT_spec in Ec; [|lia|done]. lia.
  - rewrite land_1f in *. rewrite count_of_sqn_short by lia.
    apply nas_checkCOUNTshort_spec in Ec; [|lia|lia]. lia.
Qed.

(** A message outside of the window is refused without touching the handler. *)
Lemma authenticate_window n buf size d sqn : isValid n = true -> 1 <= size ->
  rdi buf 5 = Ok sqn -> is_protected (hi4 (nth 0 buf 0)) = true ->
  nas_checkCOUNT (nas_count n d) sqn = false -> nas_authenticateMsg n buf size d = Ok (2, 0, n).
Proof.
  intros Hv Hs E5 Hp Hc. destruct buf as [|b q]; [done|]. cbn [nth] in Hp.
  unfold nas_authenticateMsg, nas_getHeader. destruct (Z.ltb_spec size 1); [lia|].
  cbn [rd]. osimp. rewrite Hv. cbn [negb]. unfold is_protected in Hp.
  repeat (apply orb_true_iff in Hp as [Hp|Hp]); apply header_of_spec in Hp; rewrite Hp, E5; osimp;
    by rewrite Hc.
Qed.

Lemma authenticate_window_short n buf size d b1 : isValid n = true -> 1 <= size ->
  rdi buf 1 = Ok b1 ->
  is_enum (hi4 (nth 0 buf 0)) SecurityHeaderForServiceRequestMessage = true ->
  nas_checkCOUNTshort (nas_count n d) (b1 .& 0x1f) = false ->
  nas_authenticateMsg n buf size d = Ok (2, 0, n).
Proof.
  intros Hv Hs E5 Hp Hc. destruct buf as [|b q]; [done|]. cbn [nth] in Hp.
  unfold nas_authenticateMsg, nas_getHeader. destruct (Z.ltb_spec size 1); [lia|].
  cbn [rd]. osimp. rewrite Hv. cbn [negb]. apply header_of_spec in Hp. rewrite Hp, E5. osimp.
  by rewrite Hc.
Qed.

Lemma authenticate_size n buf size d n' : isValid n = true ->
  nas_authenticateMsg n buf size d = Ok (1, 1, n') -> 1 <= size.
Proof.
  intros Hv H. unfold nas_authenticateMsg in H.
  destruct (nas_getHeader (Some buf) size) as [[[s p]|]|] eqn:Eh; osimp; rewrite ?Hv in H; try done.
  by apply nas_getHeader_inv in Eh as (_ & _ & ?).
Qed.

(** C12: replay protection: a message that was accepted once is refused with
    "NAS COUNT mismatch" when it is received again, for every message, header
    type and algorithm (the null integrity algorithm included), and the
    handler is left unchanged. *)
Theorem replay_rejected n buf size d n' : bytes_ok buf -> 0 <= nas_count n d < 2^32 ->
  nas_authenticateMsg n buf size d = Ok (1, 1, n') ->
  nas_authenticateMsg n' buf size d = Ok (2, 0, n').
Proof.
  intros Hb Hn H. destruct (authenticate_accepted _ _ _ _ _ Hb H) as (Hv & c & Ha & ->).
  pose proof (authenticate_size _ _ _ _ _ Hv H) as Hs. clear H.
  destruct (set_count_fields n d (wrap32 (c + 1))) as (Ev & _).
  destruct Ha as [sqn p4 mac f Hp E5 Ec -> _ _ _ _|b1 sqn p2 mac f Hp E1 -> Ec -> _ _ _ _].
  - apply (authenticate_window _ _ _ _ sqn); [by rewrite Ev|done|done|done|].
    apply rdi_byte in E5; [|done]. rewrite set_count_eq, count_of_sqn by done. unfold byte_ok in E5.
    apply not_true_iff_false. rewrite nas_checkCOUNT_spec by (done || unfold wrap32; lia).
    unfold wrap32. lia.
  - apply (authenticate_window_short _ _ _ _ b1); [by rewrite Ev|done|done|done|].
    rewrite set_count_eq, land_1f in *. rewrite count_of_sqn_short by lia.
    apply not_true_iff_false. rewrite nas_checkCOUNTshort_spec by (unfold wrap32; lia).
    unfold wrap32. lia.
Qed.

(** Authentication of a sequence of received messages: the COUNT of each
    accepted one. *)
Fixpoint auth_run (n : NASHandler) (d : NAS_Direction) (msgs : list (list Z * Z))
  : outcome (list Z * NASHandler) :=
  match msgs with
  | [] => Ok ([], n)
  | (buf, size) :: msgs =>
    '(ret, isAuth, n1) ← nas_authenticateMsg n buf size d;
    '(cs, n2) ← auth_run n1 d msgs;
    Ok ((if isAuth =? 1 then [nas_getLastCount n1 d] else []) ++ cs, n2)
  end.

(** The possible results: nothing changes unless the message is accepted. *)
Lemma authenticate_cases n buf size d ret isAuth n' :
  nas_authenticateMsg n buf size d = Ok (ret, isAuth, n') ->
  (ret = 1 /\ isAuth = 1) \/ (isAuth = 0 /\ n' = n).
Proof.
  unfold nas_authenticateMsg. intros H.
  repeat first [ progress osimp | progress simplify_eq | by left | by right
    | match goal with
      | H : _ ≫= _ = Ok _ |- _ => apply bind_Ok in H as (? & ? & H)
      | H : (if ?b then _ else _) = _ |- _ => destruct b
      | H : match ?x with _ => _ end = _ |- _ => destruct x
      end ].
Qed.

Lemma auth_run_sorted d msgs : forall n cs n',
  Forall (fun m => bytes_ok m.1) msgs -> 0 <= nas_count n d ->
  nas_count n d + 10 * Z.of_nat (length msgs) < 2^24 ->
  auth_run n d msgs = Ok (cs, n') ->
  StronglySorted Z.lt cs /\ Forall (fun c => nas_count n d <= c < nas_count n' d) cs /\
  nas_count n d <= nas_count n' d <= nas_count n d + 10 * Z.of_nat (length msgs).
Proof.
  induction msgs as [|[buf size] msgs IH]; intros n cs n' Hb H0 Hlt H; cbn [auth_run] in H.
  - injection H as <- <-. split_and!; [constructor|constructor|lia|lia].
  - inversion Hb as [|? ? Hb1 Hb2]; subst. cbn [length] in Hlt |- *.
    destruct (nas_authenticateMsg n buf size d) as [[[ret isAuth] n1]|] eqn:Ea; [|done]. osimp.
    destruct (auth_run n1 d msgs) as [[cs1 n2]|] eqn:Er; [|done]. osimp. injection H as <- <-.
    destruct (authenticate_cases _ _ _ _ _ _ _ Ea) as [[-> ->]|[-> ->]].
    + destruct (authenticate_accepted _ _ _ _ _ Hb1 Ea) as (_ & c & Hc & ->).
      apply accepted_window in Hc; [|done|lia]. rewrite wrap32_id in * by lia.
      apply IH in Er; [|done|rewrite set_count_eq; lia|rewrite set_count_eq; lia].
      rewrite set_count_eq in Er. destruct Er as (S1 & F1 & B1). cbn [Z.eqb Pos.eqb app].
      unfold nas_getLastCount. rewrite set_count_eq.
      replace (wrap32 (c + 1 - 1)) with c by (rewrite wrap32_id; lia).
      split_and!; [|constructor|lia|lia].
      * constructor; [done|]. eapply Forall_impl; [exact F1|]. cbn. lia.
      * lia.
      * eapply Forall_impl; [exact F1|]. cbn. lia.
    + apply IH in Er; [|done|done|lia]. destruct Er as (S1 & F1 & B1). cbn [Z.eqb app]. split_and!; [done|done|lia|lia].
Qed.

(** The COUNT values of accepted messages when [x] is the one expected next:
    each is at most nine ahead of the expected one, up to the last COUNT of 24
    bits; after that one the next is one of the first ten. *)
Fixpoint in_turn (x : Z) (cs : list Z) : Prop :=
  match cs with
  | [] => True
  | c :: cs => (if x <? 2^24 then x <= c < x + 10 /\ c < 2^24 else 0 <= c < 10) /\ in_turn (c + 1) cs
  end.

Lemma accepted_turn n buf size d c : bytes_ok buf -> 0 <= nas_count n d <= 2^24 -> accepted n buf size d c ->
  (if nas_count n d <? 2^24 then nas_count n d <= c < nas_count n d + 10 /\ c < 2^24 else 0 <= c < 10).
Proof.
  intros Hb Hn Ha. destruct (Z.ltb_spec (nas_count n d) (2^24)) as [L|L]; [apply (accepted_window n buf size d); [done|lia|done]|].
  assert (E : nas_count n d = 2^24) by lia.
  destruct Ha as [sqn p4 mac f _ E5 Ec -> _ _ _ _|b1 sqn p2 mac f _ E1 -> Ec -> _ _ _ _].
  - apply rdi_byte in E5; [|done]. rewrite count_of_sqn by done. unfold byte_ok in E5.
    apply nas_checkCOUNT_spec in Ec; [|lia|done]. rewrite E in *. change (2^24 mod 256) with 0 in *. change (2^24 mod 2^24) with 0. lia.
  - rewrite land_1f in *. rewrite count_of_sqn_short by lia.
    apply nas_checkCOUNTshort_spec in Ec; [|lia|lia]. rewrite E in *. change (2^24 mod 32) with 0 in *. change (2^24 mod 2^24) with 0. lia.
Qed.

Lemma auth_run_turn d msgs : forall n cs n', Forall (fun m => bytes_ok m.1) msgs -> 0 <= nas_count n d <= 2^24 ->
  auth_run n d msgs = Ok (cs, n') -> in_turn (nas_count n d) cs.
Proof.
  induction msgs as [|[buf size] msgs IH]; intros n cs n' Hb Hn H; cbn [auth_run] in H; [by injection H as <- <-|].
  inversion Hb as [|? ? Hb1 Hb2]; subst.
  destruct (nas_authenticateMsg n buf size d) as [[[ret isAuth] n1]|] eqn:Ea; [|done]. osimp.
  destruct (auth_run n1 d msgs) as [[cs1 n2]|] eqn:Er; [|done]. osimp. injection H as <- <-.
  destruct (authenticate_cases _ _ _ _ _ _ _ Ea) as [[-> ->]|[-> ->]]; [|by apply IH in Er].
  destruct (authenticate_accepted _ _ _ _ _ Hb1 Ea) as (_ & c & Hc & ->). apply accepted_turn in Hc; [|done|done].
  assert (0 <= c < 2^24) by (destruct (Z.ltb_spec (nas_count n d) (2^24)); lia). rewrite wrap32_id in * by lia.
  apply IH in Er; [|done|rewrite set_count_eq; lia]. rewrite set_count_eq in Er. cbn [Z.eqb Pos.eqb app].
  unfold nas_getLastCount. rewrite set_count_eq. by replace (wrap32 (c + 1 - 1)) with c by (rewrite wrap32_id; lia).
Qed.

Lemma in_turn_bounds x cs : 0 <= x -> in_turn x cs -> Forall (fun c => 0 <= c < 2^24) cs.
Proof.
  revert x. induction cs as [|c cs IH]; intros x Hx H; [constructor|]. destruct H as [Hc H].
  assert (0 <= c < 2^24) by (destruct (Z.ltb_spec x (2^24)); lia). constructor; [done|]. apply (IH (c + 1)); [lia|done].
Qed.

Lemma in_turn_next x cs k c c' : 0 <= x -> in_turn x cs -> cs !! k = Some c -> cs !! S k = Some c' ->
  c < c' <= c + 10 \/ (c = 2^24 - 1 /\ 0 <= c' < 10).
Proof.
  revert x k. induction cs as [|c0 cs IH]; intros x k Hx H E E'; [done|]. destruct H as [Hc H].
  assert (0 <= c0 < 2^24) by (destruct (Z.ltb_spec x (2^24)); lia).
  destruct k as [|k]; [|by apply (IH (c0 + 1) k); [lia|..]]. injection E as ->. destruct cs as [|c1 cs]; [done|]. injection E' as ->.
  destruct H as [Hc1 _]. destruct (Z.ltb_spec (c + 1) (2^24)); lia.
Qed.

(** The values only repeat after the last of them was used. *)
Lemma in_turn_sorted x cs : 0 <= x < 2^24 -> in_turn x cs -> 2^24 - 1 ∉ removelast cs ->
  StronglySorted Z.lt cs /\ Forall (fun c => x <= c) cs.
Proof.
  revert x. induction cs as [|c cs IH]; intros x Hx H Hl; [by split; constructor|]. destruct H as [Hc H].
  destruct (Z.ltb_spec x (2^24)); [|lia]. destruct cs as [|c' cs].
  - split; [by repeat constructor|]. constructor; [lia|constructor].
  - change (removelast (c :: c' :: cs)) with (c :: removelast (c' :: cs)) in Hl. apply not_elem_of_cons in Hl as [Hne Hl].
    destruct (IH (c + 1)) as [S1 F1]; [lia|done|done|]. split.
    + constructor; [done|]. eapply Forall_impl; [exact F1|]. cbn. lia.
    + constructor; [lia|]. eapply Forall_impl; [exact F1|]. cbn. lia.
Qed.

Lemma sorted_last cs m : StronglySorted Z.lt cs -> Forall (fun c => c <= m) cs -> m ∉ removelast cs.
Proof.
  induction cs as [|c cs IH]; intros H F Hin; [by apply elem_of_nil in Hin|]. destruct cs as [|c' cs]; [by apply elem_of_nil in Hin|].
  inversion H as [|? ? S1 F1]; subst. inversion F as [|? ? _ F2]; subst.
  change (removelast (c :: c' :: cs)) with (c :: removelast (c' :: cs)) in Hin. apply elem_of_cons in Hin as [->|Hin]; [|by apply IH].
  inversion F1; subst. inversion F2; subst. lia.
Qed.

(** C13: the COUNT values of the messages accepted in either direction after the
    keys were set, whatever was received in between and for how long: each value
    has 24 bits and is at most ten above the one before, until the last value,
    2^24 - 1, is used; the next message accepted after that one has a COUNT
    below ten.  So no value is used twice (they increase) if and only if no
    message was accepted behind the one with COUNT 2^24 - 1, which cannot happen
    within 1,600,000 received messages. *)
Theorem accepted_counts_fresh h i e kasme d msgs cs n' :
  Forall (fun m => bytes_ok m.1) msgs ->
  auth_run (nas_setSecurity h i e kasme) d msgs = Ok (cs, n') ->
  Forall (fun c => 0 <= c < 2^24) cs /\
  (forall k c c', cs !! k = Some c -> cs !! S k = Some c' -> c < c' <= c + 10 \/ (c = 2^24 - 1 /\ 0 <= c' < 10)) /\
  (StronglySorted Z.lt cs <-> 2^24 - 1 ∉ removelast cs) /\
  (Z.of_nat (length msgs) <= 1600000 -> StronglySorted Z.lt cs).
Proof.
  intros Hb H. assert (H0 : nas_count (nas_setSecurity h i e kasme) d = 0) by (by destruct d).
  pose proof (auth_run_turn _ _ _ _ _ Hb ltac:(rewrite H0; lia) H) as T. rewrite H0 in T.
  pose proof (in_turn_bounds 0 cs ltac:(lia) T) as B. split; [done|]. split; [by intros; eapply in_turn_next; eauto; lia|]. split.
  - split; [|by intros; apply (in_turn_sorted 0)].
    intros S1. apply (sorted_last cs); [done|]. eapply Forall_impl; [exact B|]. cbn. lia.
  - intros Hl. apply auth_run_sorted in H; [by destruct H|done|lia|]. rewrite H0. lia.
Qed.
End Freshness.

(** ** Protection and verification agree *)

Section Agreement.
Context {evp : EVP} {AES : list Z -> list Z -> list Z} {cbc : EVP_CBC evp AES} {hm : HMAC}.

(** The algorithms the tables implement. *)
Definition implemented (n : NASHandler) : Prop :=
  (h_i n = NAS_EIA0 \/ h_i n = NAS_EIA2) /\ h_e n = NAS_EEA0.

Lemma eia_call n count d buf : implemented n -> length count = 4%nat -> bytes_ok count -> bytes_ok buf ->
  exists f mac, table_call eia_cb (NAS_EIA_val (h_i n)) = Ok f /\
    f (h_ikey n) count 0 (NAS_Direction_val d) buf (Z.of_nat (length buf) * 8) = Ok mac /\
    length mac = 4%nat /\ bytes_ok mac.
Proof.
  intros [[Hi|Hi] _] Hl Hc Hb; rewrite Hi.
  - exists eia0, [0; 0; 0; 0]. split_and!; try done. repeat constructor; unfold byte_ok; lia.
  - exists eia2. destruct (eia2_digest (h_ikey n) count 0 (NAS_Direction_val d) buf
      (Z.of_nat (length buf) * 8)) as (mac & E & L & B); try done; try lia.
    + by destruct d.
    + unfold bits_to_bytes. rewrite Z.mod_mul by lia. rewrite Z.div_mul by lia. cbn. lia.
    + by exists mac.
Qed.

(** What the other end sees on the wire. *)
Definition wire (r : sec_result) : list Z := take (Z.to_nat (sr_len r)) (sr_out r).

Lemma writes_sec p s mac buf n : length mac = 4%nat -> bytes_ok mac -> bytes_ok buf ->
  n = Z.of_nat (length buf) -> n < 256 ->
  Writes (newNASMsg_EMM p s ;;; nasIe_v_t3 mac 4 ;;; nasIe_v_t3 buf n) (([nibbles p s] ++ mac) ++ buf).
Proof.
  intros Hl Hm Hb Hn Hlt. repeat apply writes_seq.
  - apply writes_newNASMsg_EMM.
  - apply writes_v_t3; [done|by rewrite Hl|done].
  - apply writes_v_t3; [done|done|done].
Qed.

(** With the null algorithm the body is the plain message. *)
Lemma sec_body n s d plain : h_e n = NAS_EEA0 ->
  (if is_ciphered s
   then f ← table_call eea_cyph_cb (NAS_EEA_val (h_e n));
        f (h_ekey n) (be32 (nas_count n d)) 0 (NAS_Direction_val d) plain (Z.of_nat (length plain))
   else m ← rdn plain (Z.of_nat (length plain)); Ok (m, Z.of_nat (length plain))) =
  Ok (plain, Z.of_nat (length plain)).
Proof.
  intros ->. change (table_call eea_cyph_cb (NAS_EEA_val NAS_EEA0)) with (Ok (eea0_cyph : EEAcb)).
  pose proof (rdn_app plain [] _ eq_refl) as Er. rewrite app_nil_r in Er.
  destruct (is_ciphered s); osimp; unfold eea0_cyph; by rewrite Er.
Qed.

(** The protected message, its length and the next downlink COUNT. *)
Lemma newNASMsg_sec_wire n out len0 p s d plain :
  isValid n = true -> implemented n -> is_protected s = true -> bytes_ok plain ->
  0 <= nas_count n d < 2^32 -> (length plain <= 254)%nat -> (6 + length plain <= length out)%nat ->
  exists r f mac,
    newNASMsg_sec n out len0 p s d plain (Z.of_nat (length plain)) = Ok r /\
    sr_ret r = 1 /\ sr_len r = 6 + Z.of_nat (length plain) /\
    sr_handler r = set_nas_count n NAS_DownLink (wrap32 (nas_count n NAS_DownLink + 1)) /\
    let buf := (nas_count n d mod 256) :: plain in
    wire r = nibbles p s :: mac ++ buf /\ length mac = 4%nat /\
    table_call eia_cb (NAS_EIA_val (h_i n)) = Ok f /\
    f (h_ikey n) (be32 (nas_count n d)) 0 (NAS_Direction_val d) buf (Z.of_nat (length buf) * 8) = Ok mac.
Proof.
  intros Hv Himp Hs Hp Hn Hlen Hout. unfold newNASMsg_sec. rewrite Hv, Hs. cbn [negb].
  set (buf := (nas_count n d mod 256) :: plain).
  assert (Hbuf : bytes_ok buf) by (constructor; [unfold byte_ok; lia|done]).
  destruct (eia_call n (be32 (nas_count n d)) d buf Himp eq_refl (be32_bytes _) Hbuf)
    as (f & mac & Ef & Em & Lm & Bm).
  rewrite sec_body by apply Himp. osimp. rewrite Z.eqb_refl, andb_false_r, Ef. osimp.
  replace (nth 3 (be32 (nas_count n d)) 0) with (nas_count n d mod 256) by (by rewrite be32_arith).
  fold buf. replace ((Z.of_nat (length plain) + 1) * 8) with (Z.of_nat (length buf) * 8) by (cbn; lia).
  rewrite Em. osimp.
  assert (Lb : Z.of_nat (length plain) + 1 = Z.of_nat (length buf)) by (cbn; lia).
  rewrite (writes_run _ _ out (writes_sec p s mac buf _ Lm Bm Hbuf Lb ltac:(lia))).
  - osimp. eexists _, f, mac. split_and!; [done|done| |done| |done|done|done].
    + cbn [sr_len wb_pos]. rewrite !length_app. cbn [length]. lia.
    + unfold wire. cbn [sr_len sr_out wb_pos wb_buf]. rewrite Nat2Z.id, take_app_length.
      by rewrite <- (assoc (++)).
  - rewrite !length_app, Lm. unfold buf. cbn [length]. lia.
Qed.

(** The reader of such a message. *)
Lemma authenticate_wire n d p s mac sqn plain f size :
  isValid n = true -> is_protected s = true -> 0 <= p < 16 -> 0 <= s < 16 -> length mac = 4%nat ->
  size = 6 + Z.of_nat (length plain) -> size < 2^28 ->
  nas_checkCOUNT (nas_count n d) sqn = true -> byte_ok sqn ->
  table_call eia_cb (NAS_EIA_val (h_i n)) = Ok f ->
  f (h_ikey n) (be32 ((nas_count n d .& 0xffff00) .| sqn)) 0 (NAS_Direction_val d) (sqn :: plain)
    (Z.of_nat (length (sqn :: plain)) * 8) = Ok mac ->
  nas_authenticateMsg n (nibbles p s :: mac ++ sqn :: plain) size d =
    Ok (1, 1, set_nas_count n d (wrap32 (((nas_count n d .& 0xffff00) .| sqn) + 1))).
Proof.
  intros Hv Hp Hpd Hs Lm Hsz Hsz2 Hc Hq Ef Em. unfold nas_authenticateMsg, nas_getHeader.
  destruct (Z.ltb_spec size 1); [lia|]. cbn [rd]. osimp. rewrite Hv, hi4_nibbles by done. cbn [negb].
  assert (E5 : adv (nibbles p s :: mac ++ sqn :: plain) 5 = sqn :: plain).
  { apply (adv_app (nibbles p s :: mac)). cbn. lia. }
  assert (Esz : wrap32 ((size - 5) * 8) = Z.of_nat (length (sqn :: plain)) * 8).
  { rewrite wrap32_id; cbn [length]; lia. }
  assert (Hgo : (nas_sqn ← rdi (nibbles p s :: mac ++ sqn :: plain) 5;
        if negb (nas_checkCOUNT (nas_count n d) nas_sqn) then Ok (2, 0, n)
        else
          m ← rdn (adv (nibbles p s :: mac ++ sqn :: plain) 1) 4;
          f ← table_call eia_cb (NAS_EIA_val (h_i n));
          mac_x ← f (h_ikey n) (be32 ((nas_count n d .& 0xffff00) .| nas_sqn)) 0
             (NAS_Direction_val d) (adv (nibbles p s :: mac ++ sqn :: plain) 5) (wrap32 ((size - 5) * 8));
          if bool_decide (m = mac_x) || bool_decide (h_i n = NAS_EIA0)
          then Ok (1, 1, (nas_setCOUNT n d nas_sqn).2)
          else Ok (1, 0, n)) =
     Ok (1, 1, set_nas_count n d (wrap32 (((nas_count n d .& 0xffff00) .| sqn) + 1)))).
  { unfold rdi. rewrite E5. cbn [rd]. osimp. rewrite Hc. cbn [negb]. rewrite adv_1, rdn_app by (rewrite Lm; done).
    osimp. rewrite Ef. osimp. rewrite Esz, Em. osimp. rewrite bool_decide_true by done. cbn [orb].
    cbn. by rewrite wrap8_id. }
  unfold is_protected in Hp.
  repeat (apply orb_true_iff in Hp as [Hp|Hp]); apply header_of_spec in Hp; rewrite Hp; exact Hgo.
Qed.

Lemma dec_secNAS_wire n d p s mac sqn plain :
  isValid n = true -> implemented n -> is_protected s = true ->
  is_enum s IntegrityProtectedWithNewEPSSecurityContext = false ->
  0 <= p < 16 -> 0 <= s < 16 -> length mac = 4%nat -> (length plain <= 254)%nat ->
  dec_secNAS n d (nibbles p s :: mac ++ sqn :: plain) (6 + Z.of_nat (length plain)) =
    '(r, m) ← dec_NAS plain (Z.of_nat (length plain));
    Ok ((if is_enum s IntegrityProtected then 1 else r), m).
Proof.
  intros Hv Himp Hs H3 Hp Hs16 Lm Lp. unfold dec_secNAS, nas_getHeader.
  rewrite wrap32_id by lia. destruct (Z.ltb_spec (6 + Z.of_nat (length plain)) 1); [lia|].
  cbn [rd]. osimp. rewrite hi4_nibbles by done.
  assert (E6 : adv (nibbles p s :: mac ++ sqn :: plain) 6 = plain).
  { replace (nibbles p s :: mac ++ sqn :: plain) with ((nibbles p s :: mac ++ [sqn]) ++ plain)
      by (cbn [app]; by rewrite <- (assoc (++))).
    apply adv_app. cbn [length]. rewrite length_app. cbn. lia. }
  rewrite E6, wrap64_sub by lia.
  replace (6 + Z.of_nat (length plain) - 6) with (Z.of_nat (length plain)) by lia.
  destruct (is_enum s IntegrityProtected) eqn:E1; [done|].
  assert (Hci : is_ciphered s = true).
  { unfold is_protected in Hs. unfold is_ciphered. rewrite E1, H3 in Hs. cbn in Hs. by rewrite orb_false_r in Hs. }
  rewrite Hci. cbn [orb negb]. rewrite Hv. cbn [negb]. destruct Himp as [_ He]. rewrite He.
  change (table_call eea_dec_cb (NAS_EEA_val NAS_EEA0)) with (Ok (eea0_dec : EEAcb)). osimp.
  unfold eea0_dec. pose proof (rdn_app plain [] _ eq_refl) as Er. rewrite app_nil_r in Er.
  rewrite Er. osimp. by destruct (dec_NAS plain (Z.of_nat (length plain))) as [[]|].
Qed.

(** C11: the two ends of a connection agree: what [newNASMsg_sec] protects with
    one handler is authenticated by [nas_authenticateMsg] of any handler with
    the same algorithms and keys whose expected COUNT is at most nine behind
    (in the same block of 256), its COUNT moves to the sender's, and
    [dec_secNAS] then decodes exactly the plain message, for every plain
    message of at most 254 octets and every security header the decoder
    supports. *)
Theorem protect_then_authenticate a b out len0 p s d plain :
  isValid a = true -> implemented a ->
  isValid b = true -> h_i b = h_i a -> h_ikey b = h_ikey a -> h_e b = h_e a ->
  is_protected s = true -> is_enum s IntegrityProtectedWithNewEPSSecurityContext = false ->
  0 <= p < 16 -> 0 <= s < 16 -> bytes_ok plain ->
  (length plain <= 254)%nat -> (6 + length plain <= length out)%nat ->
  0 <= nas_count b d <= nas_count a d -> nas_count a d < nas_count b d + 10 -> nas_count a d < 2^24 ->
  nas_count a d / 256 = nas_count b d / 256 ->
  exists r, newNASMsg_sec a out len0 p s d plain (Z.of_nat (length plain)) = Ok r /\ sr_ret r = 1 /\
    let b' := set_nas_count b d (nas_count a d + 1) in
    nas_authenticateMsg b (wire r) (sr_len r) d = Ok (1, 1, b') /\
    dec_secNAS b' d (wire r) (sr_len r) =
      '(ret, m) ← dec_NAS plain (Z.of_nat (length plain));
      Ok ((if is_enum s IntegrityProtected then 1 else ret), m).
Proof.
  intros Ha Hia Hb Ei Ek Ee Hs H3 Hp Hs16 Hpl Lp Lo Hw1 Hw2 H24 Hblk.
  destruct (newNASMsg_sec_wire a out len0 p s d plain Ha Hia Hs Hpl ltac:(lia) Lp Lo)
    as (r & f & mac & Er & Eret & Elen & _ & Ew & Lm & Ef & Em).
  exists r. split; [done|]. split; [done|]. cbn beta zeta in *. rewrite Ew, Elen.
  assert (Hq : byte_ok (nas_count a d mod 256)) by (unfold byte_ok; lia).
  assert (Ec : Z.lor (Z.land (nas_count b d) 0xffff00) (nas_count a d mod 256) = nas_count a d).
  { rewrite count_of_sqn by done. lia. }
  split.
  - rewrite (authenticate_wire b d p s mac _ plain f); try done; try lia.
    + rewrite Ec, wrap32_id by lia. done.
    + apply nas_checkCOUNT_spec; [lia|done|lia].
    + by rewrite Ei.
    + by rewrite Ec, Ek.
  - destruct (set_count_fields b d (nas_count a d + 1)) as (Fv & Fi & Fe & _).
    apply dec_secNAS_wire; try done; try lia; [by rewrite Fv|].
    unfold implemented. rewrite Fi, Fe, Ei, Ee. exact Hia.
Qed.

(** the octets that leave the function are not those that were protected
    when the plain message has 255 octets or more: the length parameter of the
    writer is 8 bits wide, so only [(pLen + 1) mod 256] octets are copied
    although the call succeeds. *)
Theorem long_message_truncated n out len0 p s d plain :
  isValid n = true -> implemented n -> is_protected s = true -> bytes_ok plain ->
  0 <= nas_count n d < 2^32 -> (255 <= length plain)%nat -> (512 <= length out)%nat ->
  exists r, newNASMsg_sec n out len0 p s d plain (Z.of_nat (length plain)) = Ok r /\ sr_ret r = 1 /\
    sr_len r = 5 + (Z.of_nat (length plain) + 1) mod 256.
Proof.
  intros Hv Himp Hs Hp Hn Hlen Hout. unfold newNASMsg_sec. rewrite Hv, Hs. cbn [negb].
  set (buf := (nas_count n d mod 256) :: plain).
  assert (Hbuf : bytes_ok buf) by (constructor; [unfold byte_ok; lia|done]).
  destruct (eia_call n (be32 (nas_count n d)) d buf Himp eq_refl (be32_bytes _) Hbuf)
    as (f & mac & Ef & Em & Lm & Bm).
  rewrite sec_body by apply Himp. osimp. rewrite Z.eqb_refl, andb_false_r, Ef. osimp.
  replace (nth 3 (be32 (nas_count n d)) 0) with (nas_count n d mod 256) by (by rewrite be32_arith).
  fold buf. replace ((Z.of_nat (length plain) + 1) * 8) with (Z.of_nat (length buf) * 8) by (cbn; lia).
  rewrite Em. osimp.
  set (k := Z.to_nat ((Z.of_nat (length plain) + 1) mod 256)).
  assert (Hw : Writes (newNASMsg_EMM p s ;;; nasIe_v_t3 mac 4 ;;; nasIe_v_t3 buf (Z.of_nat (length plain) + 1))
     (([nibbles p s] ++ mac) ++ take k buf)).
  { repeat apply writes_seq.
    - apply writes_newNASMsg_EMM.
    - apply writes_v_t3; [done|by rewrite Lm|done].
    - unfold nasIe_v_t3. unfold wrap8. change (2^8) with 256. fold k.
      replace k with (length (take k buf)) at 1 2 by (rewrite length_take; unfold buf; cbn [length]; lia).
      apply writes_pokes_bump. rewrite <- (take_drop k buf) at 2.
      apply pokes_copy; [by apply Forall_take|done]. }
  rewrite (writes_run _ _ out Hw).
  - osimp. eexists. split_and!; [done|done|]. cbn [sr_len wb_pos].
    rewrite !length_app, length_take. unfold buf. cbn [length]. lia.
  - rewrite !length_app, Lm, length_take. cbn [length]. lia.
Qed.

(** Protection of a sequence of messages with the same header. *)
Fixpoint send_run (n : NASHandler) (out : list Z) (p s : Z) (plains : list (list Z))
  : outcome (list (list Z) * NASHandler) :=
  match plains with
  | [] => Ok ([], n)
  | pl :: plains =>
    r ← newNASMsg_sec n out 0 p s NAS_DownLink pl (Z.of_nat (length pl));
    '(ws, n') ← send_run (sr_handler r) out p s plains;
    Ok (wire r :: ws, n')
  end.

Lemma implemented_set n d c : implemented n -> implemented (set_nas_count n d c).
Proof. unfold implemented. destruct (set_count_fields n d c) as (_ & -> & -> & _). done. Qed.

(** protecting a sequence of downlink messages never uses a COUNT twice:
    every message of at most 254 octets is sent, the k-th one carries the low
    octet of the starting COUNT plus k as its sequence number, the downlink
    COUNT advances by one each time and the uplink COUNT is not touched. *)
Theorem downlink_counts_advance p s plains : forall n out,
  isValid n = true -> implemented n -> is_protected s = true ->
  Forall (fun pl => bytes_ok pl /\ (length pl <= 254)%nat /\ (6 + length pl <= length out)%nat) plains ->
  0 <= nas_count_dl n -> nas_count_dl n + Z.of_nat (length plains) < 2^32 ->
  exists ws n', send_run n out p s plains = Ok (ws, n') /\ length ws = length plains /\
    nas_count_dl n' = nas_count_dl n + Z.of_nat (length plains) /\ nas_count_ul n' = nas_count_ul n /\
    forall k w, ws !! k = Some w -> nth 5 w 0 = (nas_count_dl n + Z.of_nat k) mod 256.
Proof.
  induction plains as [|pl plains IH]; intros n out Hv Himp Hs Hpl H0 Hlt.
  - exists [], n. split_and!; [done|done|cbn; lia|done|done].
  - inversion Hpl as [|? ? (Hb & Hl & Ho) Hpl']; subst. cbn [length] in Hlt.
    destruct (newNASMsg_sec_wire n out 0 p s NAS_DownLink pl Hv Himp Hs Hb ltac:(cbn; lia) Hl Ho)
      as (r & f & mac & Er & _ & _ & Eh & Ew & Lm & _ & _).
    cbn [nas_count] in *. rewrite wrap32_id in Eh by lia. cbn [send_run]. rewrite Er. osimp. rewrite Eh.
    destruct (set_count_fields n NAS_DownLink (nas_count_dl n + 1)) as (Fv & _).
    destruct (IH (set_nas_count n NAS_DownLink (nas_count_dl n + 1)) out) as (ws & n' & E & L & D & U & K).
    + by rewrite Fv.
    + by apply implemented_set.
    + done.
    + done.
    + cbn. lia.
    + cbn. lia.
    + rewrite E. osimp. exists (wire r :: ws), n'. cbn in D, U.
      split_and!; [done|cbn; lia|cbn; lia|done|].
      intros [|k] w; cbn [lookup list_lookup]; [|intros Hw; rewrite (K k w Hw); cbn; f_equal; lia].
      intros [= <-]. rewrite Ew. cbn [nth]. rewrite app_nth2, Lm by lia. cbn. f_equal. lia.
Qed.

(** the COUNT wraps around under the same keys: the overflow that
    [nas_setCOUNT] reports is not looked at, and a handler whose COUNT reached
    2^24 accepts messages with the COUNT values 0 to 9 again. *)
Theorem count_wraps_around n buf size d n' : bytes_ok buf -> nas_count n d = 2^24 ->
  nas_authenticateMsg n buf size d = Ok (1, 1, n') ->
  exists c, accepted n buf size d c /\ 0 <= c < 10 /\ nas_count n' d = c + 1.
Proof.
  intros Hb Hn H. destruct (authenticate_accepted _ _ _ _ _ Hb H) as (_ & c & Ha & ->).
  exists c. split; [done|]. rewrite set_count_eq. apply accepted_turn in Ha; [|done|lia].
  rewrite Hn, Z.ltb_irrefl in Ha. split; [done|]. rewrite wrap32_id; lia.
Qed.
End Agreement.

(** ** The security context of the specifications *)

Module TS33401.
Section Spec.
Context {AES : list Z -> list Z -> list Z} {hm : HMAC}.

(** The generic key derivation function (TS 33.220, B.2): HMAC-SHA256 of FC and
    the parameters, each followed by its length in two octets. *)
Definition KDF (key : list Z) (FC : Z) (Ps : list (list Z)) : list Z :=
  HMAC_SHA256 key (FC :: concat (map (fun P => P ++ be_bytes 2 (Z.of_nat (length P))) Ps)).

(** A NAS key (TS 33.401, A.7): FC = 0x15, the algorithm type distinguisher and
    the algorithm identity; the last 128 of the 256 bits. *)
Inductive purpose := Ciphering | Integrity.
Definition distinguisher (p : purpose) : Z := match p with Ciphering => 0x01 | Integrity => 0x02 end.
Definition nas_key (p : purpose) (K_ASME : list Z) (identity : Z) : list Z :=
  drop 16 (KDF K_ASME 0x15 [[distinguisher p]; [identity]]).

Definition EIA_identity (i : NAS_EIA) : Z := match i with
  | NAS_EIA0 => 0 | NAS_EIA1 => 1 | NAS_EIA2 => 2 | NAS_EIA3 => 3 | NAS_EIA4 => 4 | NAS_EIA5 => 5 | NAS_EIA6 => 6 | NAS_EIA7 => 7 end.
Definition EEA_identity (e : NAS_EEA) : Z := match e with
  | NAS_EEA0 => 0 | NAS_EEA1 => 1 | NAS_EEA2 => 2 | NAS_EEA3 => 3 | NAS_EEA4 => 4 | NAS_EEA5 => 5 | NAS_EEA6 => 6 | NAS_EEA7 => 7 end.

(** The message authentication code (B.2.3), with bearer 0: four zeros for EIA0,
    the first 32 bits of the CMAC for 128-EIA2. *)
Definition direction_bit (d : NAS_Direction) : Z := match d with NAS_UpLink => 0 | NAS_DownLink => 1 end.
Definition NAS_MAC (i : NAS_EIA) (key : list Z) (count : Z) (d : NAS_Direction) (msg : list Z) : list Z :=
  match i with
  | NAS_EIA2 => take 4 (cmac (AES key) (be_bytes 4 count ++ [4 * direction_bit d; 0; 0; 0] ++ msg) (8 * (8 + Z.of_nat (length msg))))
  | _ => [0; 0; 0; 0]
  end.

(** The context: the algorithms and K_ASME it was activated with, and the COUNT
    of the next message in each direction. *)
Record context := { activated : option (NAS_EIA * NAS_EEA * list Z); next : NAS_Direction -> Z }.
Definition no_context : context := {| activated := None; next _ := 0 |}.
Definition activate (i : NAS_EIA) (e : NAS_EEA) (K_ASME : list Z) : context := {| activated := Some (i, e, K_ASME); next _ := 0 |}.
Definition with_next (x : context) (d : NAS_Direction) (c : Z) : context :=
  {| activated := activated x; next d' := if decide (d' = d) then c else next x d' |}.

(** [c] is the COUNT of a message with sequence number [sqn] of [k] values: in the
    block of the expected COUNT (modulo 2^24), at most nine ahead of it. *)
Definition estimates (x : context) (d : NAS_Direction) (k sqn c : Z) : Prop :=
  let e := next x d mod 2^24 in c / k = e / k /\ c mod k = sqn /\ e <= c < e + 10.

(** A message that the holder of the keys sent with COUNT [c]; the null algorithm
    proves nothing, and every code passes. *)
Definition verified (i : NAS_EIA) (code mac : list Z) : Prop := i = NAS_EIA0 \/ code = mac.
Inductive genuine (x : context) (m : list Z) (d : NAS_Direction) (c : Z) : Prop :=
  | genuine_protected i e K : activated x = Some (i, e, K) -> nth 0 m 0 / 16 ∈ [1; 2; 3; 4] ->
      estimates x d 256 (nth 5 m 0) c ->
      verified i (take 4 (drop 1 m)) (NAS_MAC i (nas_key Integrity K (EIA_identity i)) c d (drop 5 m)) -> genuine x m d c
  | genuine_service_request i e K : activated x = Some (i, e, K) -> nth 0 m 0 / 16 = 12 ->
      estimates x d 32 (nth 1 m 0 mod 32) c ->
      verified i (take 2 (drop 2 m)) (drop 2 (NAS_MAC i (nas_key Integrity K (EIA_identity i)) c d (take 2 m))) -> genuine x m d c.

(** The octets a message has to have for its security header. *)
Definition complete (m : list Z) : Prop :=
  (1 <= length m)%nat /\ (nth 0 m 0 / 16 ∈ [1; 2; 3; 4] -> (6 <= length m)%nat) /\ (nth 0 m 0 / 16 = 12 -> (4 <= length m)%nat).
End Spec.
End TS33401.
Import TS33401.

Section Refinement.
Context {evp : EVP} {AES : list Z -> list Z -> list Z} {cbc : EVP_CBC evp AES} {hm : HMAC}.

(** A [NASHandler] that holds a context. *)
Record represents (x : context) (n : NASHandler) : Prop := {
  r_count d : nas_count n d = next x d /\ 0 <= next x d < 2^32;
  r_keys : match activated x with
           | None => isValid n = false
           | Some (i, e, K) => isValid n = true /\ h_i n = i /\ h_e n = e /\
               h_ikey n = nas_key Integrity K (EIA_identity i) /\ h_ekey n = nas_key Ciphering K (EEA_identity e)
           end }.

(** The algorithms of the tables: EIA0, 128-EIA2 and EEA0. *)
Definition supported (x : context) : Prop :=
  match activated x with None => True | Some (i, e, _) => (i = NAS_EIA0 \/ i = NAS_EIA2) /\ e = NAS_EEA0 end.

Lemma kdf_spec K a b : length K = 32%nat -> kdf K a b = drop 16 (KDF K 0x15 [[a]; [b]]).
Proof using.
  intros L. unfold kdf, hmac_sha256, KDF. rewrite take_ge by lia. cbn [map concat app length]. change (be_bytes 2 (Z.of_nat 1)) with [0; 1].
  cbn [app]. by destruct (HMAC_SHA256_ok K [0x15; a; 0; 1; b; 0; 1]) as [-> _].
Qed.

Lemma represents_new : represents no_context nas_newHandler.
Proof using. split; [by intros []|done]. Qed.

Lemma represents_activate n i e K : length K = 32%nat -> represents (activate i e K) (nas_setSecurity n i e K).
Proof using.
  intros L. split; [by intros []|]. cbn. split_and!; [done|done|done|rewrite kdf_spec by done; by destruct i|rewrite kdf_spec by done; by destruct e].
Qed.

Lemma represents_next x n d c : represents x n -> 0 <= c < 2^32 -> represents (with_next x d c) (set_nas_count n d c).
Proof using.
  intros [R1 R2] Hc. split.
  - intros d'. cbn. destruct (decide (d' = d)) as [->|Hne]; [by rewrite set_count_eq|]. rewrite set_count_ne by congruence. apply R1.
  - cbn. destruct (set_count_fields n d c) as (-> & -> & -> & -> & ->). exact R2.
Qed.

(** The entry of the table computes the code. *)
Lemma eia_mac i key c d m k : i = NAS_EIA0 \/ i = NAS_EIA2 -> bytes_ok m -> (k <= length m)%nat ->
  exists f, table_call eia_cb (NAS_EIA_val i) = Ok f /\
    f key (be32 c) 0 (NAS_Direction_val d) m (Z.of_nat k * 8) = Ok (NAS_MAC (AES := AES) i key c d (take k m)).
Proof using cbc.
  intros [-> | ->] Hb Hk; [by exists eia0|]. exists eia2. split; [done|].
  assert (B : bits_to_bytes (Z.of_nat k * 8) = Z.of_nat k) by (unfold bits_to_bytes; case_bools; zbool; lia).
  rewrite eia2_run by (try done; try apply be32_bytes; try (destruct d; cbn; lia); lia).
  rewrite B, Nat2Z.id. unfold NAS_MAC. rewrite length_take, Nat.min_l by done. do 2 f_equal.
  replace (64 + Z.of_nat k * 8) with (8 * (8 + Z.of_nat k)) by lia. f_equal. destruct d; cbn [NAS_Direction_val direction_bit]; f_equal;
    rewrite be32_arith; cbn [be_bytes app]; by rewrite !Z.div_div by lia.
Qed.

Lemma header_nth m : bytes_ok m -> hi4 (nth 0 m 0) = nth 0 m 0 / 16.
Proof using.
  intros Hb. rewrite hi4_arith. destruct Hb as [|b q Hb _]; [done|]. cbn [nth]. unfold byte_ok in Hb. apply Z.mod_small. lia.
Qed.

Lemma header_cases (s : Z) : (s = 0 /\ SecurityHeaderType_of s = Some PlainNAS) \/
  ((s ∈ [1; 2; 3; 4]) /\ is_protected s = true) \/ (s = 12 /\ SecurityHeaderType_of s = Some SecurityHeaderForServiceRequestMessage) \/
  (s <> 0 /\ (s ∉ [1; 2; 3; 4]) /\ s <> 12 /\ SecurityHeaderType_of s = None).
Proof using.
  destruct (decide (s = 0)) as [->|H0]; [by left|]. destruct (decide (s = 12)) as [->|H12]; [by right; right; left|].
  destruct (decide (s ∈ [1; 2; 3; 4])) as [Hin|Hin].
  - right; left. split; [done|]. set_unfold in Hin. unfold is_protected, is_enum. by destruct Hin as [->|[->|[->|[->|[]]]]].
  - right; right; right. split_and!; [done..|]. destruct (SecurityHeaderType_of s) as [a|] eqn:E; [|done].
    apply header_of_spec in E. unfold is_enum in E. apply Z.eqb_eq in E. exfalso. destruct a; cbn in E; subst s; try done; apply Hin; set_solver.
Qed.

Lemma estimates_sqn x n d sqn : represents x n -> byte_ok sqn ->
  (nas_checkCOUNT (nas_count n d) sqn = true -> estimates x d 256 sqn ((nas_count n d .& 0xffff00) .| sqn)) /\
  (forall c, estimates x d 256 sqn c -> nas_checkCOUNT (nas_count n d) sqn = true /\ c = (nas_count n d .& 0xffff00) .| sqn).
Proof using.
  intros [R _] Hs. destruct (R d) as [-> B]. pose proof Hs as Hs'. unfold byte_ok in Hs'. unfold estimates. cbv zeta. rewrite count_of_sqn by done.
  pose proof (nas_checkCOUNT_spec (next x d) sqn ltac:(lia) Hs) as I.
  assert (E : next x d mod 256 = (next x d mod 2^24) mod 256) by lia. rewrite E in I |- *. clear E.
  set (e := next x d mod 2^24) in *. clearbody e. split; [intros W%I; lia|]. intros c (E1 & E2 & E3). split; [apply I; lia|lia].
Qed.

Lemma estimates_short x n d sqn : represents x n -> 0 <= sqn < 32 ->
  (nas_checkCOUNTshort (nas_count n d) sqn = true -> estimates x d 32 sqn ((nas_count n d .& 0xffffe0) .| sqn)) /\
  (forall c, estimates x d 32 sqn c -> nas_checkCOUNTshort (nas_count n d) sqn = true /\ c = (nas_count n d .& 0xffffe0) .| sqn).
Proof using.
  intros [R _] Hs. destruct (R d) as [-> B]. unfold estimates. cbv zeta. rewrite count_of_sqn_short by done.
  pose proof (nas_checkCOUNTshort_spec (next x d) sqn ltac:(lia) Hs) as I.
  assert (E : next x d mod 32 = (next x d mod 2^24) mod 32) by lia. rewrite E in I |- *. clear E.
  set (e := next x d mod 2^24) in *. clearbody e. split; [intros W%I; lia|]. intros c (E1 & E2 & E3). split; [apply I; lia|lia].
Qed.

Lemma rdn_drop m k j : (k + j <= length m)%nat -> rdn (adv m (Z.of_nat k)) (Z.of_nat j) = Ok (take j (drop k m)).
Proof using.
  intros H. unfold rdn, adv. rewrite Nat2Z.id, length_drop. destruct (Z.ltb_spec (Z.of_nat (length m - k)) (Z.of_nat j)); [lia|].
  by rewrite Nat2Z.id.
Qed.

Lemma verified_test i (code mac : list Z) : bool_decide (code = mac) || bool_decide (i = NAS_EIA0) = true <-> verified i code mac.
Proof using. unfold verified. rewrite orb_true_iff, !bool_decide_eq_true. tauto. Qed.

Lemma not_header_12 : 12 ∉ [1; 2; 3; 4].
Proof using. apply (bool_decide_unpack _). vm_compute. exact I. Qed.
Lemma not_header_0 : 0 ∉ [1; 2; 3; 4].
Proof using. apply (bool_decide_unpack _). vm_compute. exact I. Qed.

(** What the reception of a message comes to. *)
Definition received (x : context) (n : NASHandler) (m : list Z) (d : NAS_Direction) (isAuth : Z) (n' : NASHandler) : Prop :=
  (isAuth = 1 /\ exists c, genuine (AES := AES) x m d c /\ represents (with_next x d (c + 1)) n') \/
  (isAuth = 0 /\ n' = n /\ forall c, ~ genuine (AES := AES) x m d c).

Section Receive.
Context (x : context) (n : NASHandler) (m : list Z) (d : NAS_Direction) (i : NAS_EIA) (e : NAS_EEA) (K : list Z).
Context (R : represents x n) (A : activated x = Some (i, e, K)) (I : i = NAS_EIA0 \/ i = NAS_EIA2) (Hb : bytes_ok m).

Lemma r_handler : h_i n = i /\ h_ikey n = nas_key Integrity K (EIA_identity i).
Proof using R A. clear - R A. destruct R as [_ H]. rewrite A in H. tauto. Qed.

Lemma next_count k sqn c : estimates x d k sqn c -> wrap32 (c + 1) = c + 1 /\ 0 <= c + 1 < 2^32.
Proof using. clear. intros (_ & _ & H). split; [apply wrap32_id|]; lia. Qed.

Lemma receive_protected : nth 0 m 0 / 16 ∈ [1; 2; 3; 4] -> (6 <= length m)%nat -> Z.of_nat (length m) < 2^28 ->
  exists ret isAuth n',
    (nas_sqn ← rdi m 5;
     if negb (nas_checkCOUNT (nas_count n d) nas_sqn) then Ok (2, 0, n)
     else
       mac ← rdn (adv m 1) 4;
       f ← table_call eia_cb (NAS_EIA_val (h_i n));
       mac_x ← f (h_ikey n) (be32 ((nas_count n d .& 0xffff00) .| nas_sqn)) 0 (NAS_Direction_val d) (adv m 5) (wrap32 ((Z.of_nat (length m) - 5) * 8));
       if bool_decide (mac = mac_x) || bool_decide (h_i n = NAS_EIA0) then Ok (1, 1, (nas_setCOUNT n d nas_sqn).2) else Ok (1, 0, n)) =
    Ok (ret, isAuth, n') /\ received x n m d isAuth n'.
Proof using R A I Hb cbc.
  intros Hh L6 L28. destruct r_handler as [Ei Ek]. destruct (estimates_sqn x n d (nth 5 m 0) R (nth_byte m 5 Hb)) as [W1 W2].
  rewrite (rdi_nth m 5 ltac:(lia)). osimp. change (Z.to_nat 5) with 5%nat.
  set (c := (nas_count n d .& 0xffff00) .| nth 5 m 0) in *.
  destruct (nas_checkCOUNT (nas_count n d) (nth 5 m 0)) eqn:Ec; cbn [negb].
  - specialize (W1 eq_refl). rewrite (rdn_drop m 1 4 ltac:(lia) : rdn (adv m 1) 4 = _). osimp.
    rewrite Ei, Ek. destruct (eia_mac i (nas_key Integrity K (EIA_identity i)) c d (drop 5 m) (length (drop 5 m)) I ltac:(by apply Forall_drop) ltac:(lia))
      as (f & -> & Em). osimp. rewrite take_ge in Em by done.
    replace (wrap32 ((Z.of_nat (length m) - 5) * 8)) with (Z.of_nat (length (drop 5 m)) * 8) by (rewrite length_drop, wrap32_id; lia).
    change (adv m 5) with (drop 5 m). rewrite Em. osimp.
    destruct (bool_decide _ || _) eqn:Ev.
    + apply verified_test in Ev. eexists _, _, _. split; [reflexivity|]. left. split; [done|]. exists c.
      split; [by eapply genuine_protected|]. destruct (next_count _ _ _ W1) as [Ew Eb].
      unfold nas_setCOUNT. cbn [snd]. rewrite wrap8_id by (by apply nth_byte). fold c. rewrite Ew. by apply represents_next.
    + eexists _, _, _. split; [reflexivity|]. right. split; [done|]. split; [done|]. intros c' [i' e' K' A' _ Es V|i' e' K' A' H12 _ _].
      * rewrite A in A'. injection A' as <- <- <-. apply W2 in Es as [_ ->]. apply verified_test in V. congruence.
      * rewrite H12 in Hh. by destruct not_header_12.
  - eexists _, _, _. split; [reflexivity|]. right. split; [done|]. split; [done|]. intros c' [i' e' K' A' _ Es V|i' e' K' A' H12 _ _].
    + apply W2 in Es as [? _]. congruence.
    + rewrite H12 in Hh. by destruct not_header_12.
Qed.

Lemma receive_service_request : nth 0 m 0 / 16 = 12 -> (4 <= length m)%nat ->
  exists ret isAuth n',
    (b1 ← rdi m 1;
     if negb (nas_checkCOUNTshort (nas_count n d) (b1 .& 0x1f)) then Ok (2, 0, n)
     else
       short_mac ← rdn (adv m 2) 2;
       f ← table_call eia_cb (NAS_EIA_val (h_i n));
       mac_x ← f (h_ikey n) (be32 ((nas_count n d .& 0xffffe0) .| (b1 .& 0x1f))) 0 (NAS_Direction_val d) m (2 * 8);
       if bool_decide (short_mac = drop 2 mac_x) || bool_decide (h_i n = NAS_EIA0) then Ok (1, 1, (nas_setCOUNTshort n d (b1 .& 0x1f)).2) else Ok (1, 0, n)) =
    Ok (ret, isAuth, n') /\ received x n m d isAuth n'.
Proof using R A I Hb cbc.
  intros Hh L4. destruct r_handler as [Ei Ek]. destruct (estimates_short x n d (nth 1 m 0 mod 32) R ltac:(lia)) as [W1 W2].
  rewrite (rdi_nth m 1 ltac:(lia)). osimp. change (Z.to_nat 1) with 1%nat. rewrite land_1f.
  set (c := (nas_count n d .& 0xffffe0) .| (nth 1 m 0 mod 32)) in *.
  destruct (nas_checkCOUNTshort (nas_count n d) (nth 1 m 0 mod 32)) eqn:Ec; cbn [negb].
  - specialize (W1 eq_refl). rewrite (rdn_drop m 2 2 ltac:(lia) : rdn (adv m 2) 2 = _). osimp.
    rewrite Ei, Ek. destruct (eia_mac i (nas_key Integrity K (EIA_identity i)) c d m 2 I Hb ltac:(lia)) as (f & -> & Em). osimp.
    change (Z.of_nat 2 * 8) with (2 * 8) in *. rewrite Em. osimp.
    destruct (bool_decide _ || _) eqn:Ev.
    + apply verified_test in Ev. eexists _, _, _. split; [reflexivity|]. left. split; [done|]. exists c.
      split; [by eapply genuine_service_request|]. destruct (next_count _ _ _ W1) as [Ew Eb].
      unfold nas_setCOUNTshort. cbn [snd]. rewrite wrap8_id by lia. fold c. rewrite Ew. by apply represents_next.
    + eexists _, _, _. split; [reflexivity|]. right. split; [done|]. split; [done|]. intros c' [i' e' K' A' Hh' _ _|i' e' K' A' _ Es V].
      * rewrite Hh in Hh'. by destruct not_header_12.
      * rewrite A in A'. injection A' as <- <- <-. apply W2 in Es as [_ ->]. apply verified_test in V. congruence.
  - eexists _, _, _. split; [reflexivity|]. right. split; [done|]. split; [done|]. intros c' [i' e' K' A' Hh' _ _|i' e' K' A' _ Es V].
    + rewrite Hh in Hh'. by destruct not_header_12.
    + apply W2 in Es as [? _]. congruence.
Qed.
End Receive.

Lemma represents_receive x n m d : represents x n -> supported x -> bytes_ok m -> complete m -> Z.of_nat (length m) < 2^28 ->
  exists ret isAuth n', nas_authenticateMsg n m (Z.of_nat (length m)) d = Ok (ret, isAuth, n') /\ received x n m d isAuth n'.
Proof.
  intros R Sup Hb (C1 & C2 & C3) L. pose proof (header_nth m Hb) as Hh. unfold nas_authenticateMsg, nas_getHeader.
  destruct (Z.ltb_spec (Z.of_nat (length m)) 1); [lia|]. assert (E0 : rd m = Ok (nth 0 m 0)) by (destruct m; [cbn in C1; lia|done]).
  rewrite E0. osimp. rewrite Hh. pose proof R as [_ Rk]. unfold supported in Sup. destruct (activated x) as [[[i e] K]|] eqn:A.
  - destruct Rk as [-> _]. destruct Sup as [I _]. cbn [negb].
    destruct (header_cases (nth 0 m 0 / 16)) as [[E ->]|[[E P]|[[E ->]|(N0 & N1 & N2 & ->)]]].
    + eexists _, _, _. split; [reflexivity|]. right. split; [done|]. split; [done|]. rewrite E in *.
      intros c [? ? ? _ Hin _ _|? ? ? _ Heq _ _]; [rewrite E in Hin; by destruct not_header_0|congruence].
    + destruct (receive_protected x n m d i e K R A I Hb E (C2 E) L) as (ret & isAuth & n' & Er & Hr).
      exists ret, isAuth, n'. split; [|done]. rewrite <- Er. unfold is_protected in P.
      repeat (apply orb_true_iff in P as [P|P]); apply header_of_spec in P; by rewrite P.
    + exact (receive_service_request x n m d i e K R A I Hb E (C3 E)).
    + eexists _, _, _. split; [reflexivity|]. right. split; [done|]. split; [done|]. by intros c [].
  - rewrite Rk. eexists _, _, _. split; [reflexivity|]. right. split; [done|]. split; [done|]. intros c []; congruence.
Qed.

(** A message that is sent: header, code, sequence number, message. *)
Lemma represents_send x n out len0 p s plain i e K : represents x n -> supported x -> activated x = Some (i, e, K) ->
  is_protected s = true -> bytes_ok plain -> (length plain <= 254)%nat -> (6 + length plain <= length out)%nat ->
  exists r, newNASMsg_sec n out len0 p s NAS_DownLink plain (Z.of_nat (length plain)) = Ok r /\ sr_ret r = 1 /\
    let c := next x NAS_DownLink in let body := (c mod 256) :: plain in
    wire r = nibbles p s :: NAS_MAC (AES := AES) i (nas_key Integrity K (EIA_identity i)) c NAS_DownLink body ++ body /\
    represents (with_next x NAS_DownLink ((c + 1) mod 2^32)) (sr_handler r).
Proof.
  intros R Sup A Hs Hp Hl Ho. pose proof R as [Rc Rk]. unfold supported in Sup. rewrite A in Sup, Rk.
  destruct Rk as (Hv & Hi & He & Hk & _). destruct Sup as [I E0]. destruct (Rc NAS_DownLink) as [Ec Bc].
  assert (Him : implemented n) by (split; congruence).
  destruct (newNASMsg_sec_wire n out len0 p s NAS_DownLink plain Hv Him Hs Hp ltac:(lia) Hl Ho) as (r & f & mac & Er & Eret & _ & Eh & Ew & _ & Ef & Em).
  exists r. split; [done|]. split; [done|]. cbv zeta in *. rewrite Ec in *. set (body := next x NAS_DownLink mod 256 :: plain) in *.
  assert (Bb : bytes_ok body) by (constructor; [unfold byte_ok; lia|done]).
  destruct (eia_mac i (h_ikey n) (next x NAS_DownLink) NAS_DownLink body (length body) I Bb ltac:(done)) as (f' & Ef' & Em').
  rewrite Hi, Ef' in Ef. injection Ef as <-. rewrite Em', take_ge in Em by done. injection Em as <-. rewrite <- Hk. split; [done|].
  rewrite Eh. apply represents_next; [done|unfold wrap32; lia].
Qed.

End Refinement.

(** ** Concrete instances *)

#[local] Instance toy_hmac : HMAC.
Proof.
  refine {| HMAC_SHA256 k m := map (fun x => wrap8 (x + nth 1 m 0)) (repeat 9 32) |}.
  intros k m. split; [done|]. apply Forall_forall. intros x Hx.
  apply list_elem_of_fmap in Hx as (y & -> & _). apply wrap8_byte.
Defined.
#[local] Existing Instance toy_evp.
#[local] Existing Instance toy_cbc.

(** A fresh context and a protected uplink message for it. *)
Definition toy_handler : NASHandler := nas_setSecurity nas_newHandler NAS_EIA2 NAS_EEA0 (repeat 1 32).
Definition toy_wire : list Z := [0x17; 87; 87; 87; 87; 0; 0x07; 0x5e].

Lemma toy_bytes : bytes_ok toy_wire.
Proof. repeat constructor; unfold byte_ok; lia. Qed.

Lemma replay_rejected_witness : exists n',
  nas_authenticateMsg toy_handler toy_wire 8 NAS_UpLink = Ok (1, 1, n') /\
  nas_authenticateMsg n' toy_wire 8 NAS_UpLink = Ok (2, 0, n').
Proof.
  eexists. split; [vm_compute; reflexivity|].
  apply (replay_rejected toy_handler toy_wire 8 NAS_UpLink).
  - exact toy_bytes.
  - vm_compute. split; [discriminate|reflexivity].
  - vm_compute. reflexivity.
Defined.

Lemma accepted_counts_fresh_witness : exists cs n',
  auth_run toy_handler NAS_UpLink [(toy_wire, 8); (toy_wire, 8)] = Ok (cs, n') /\
  Forall (fun c => 0 <= c < 2^24) cs /\ StronglySorted Z.lt cs.
Proof.
  eexists _, _. split; [vm_compute; reflexivity|].
  edestruct (accepted_counts_fresh nas_newHandler NAS_EIA2 NAS_EEA0 (repeat 1 32) NAS_UpLink
    [(toy_wire, 8); (toy_wire, 8)]) as (B & _ & _ & S1).
  - repeat constructor; unfold byte_ok; cbn; lia.
  - vm_compute. reflexivity.
  - split; [exact B|]. apply S1. cbn. lia.
Defined.

Lemma protect_then_authenticate_witness : exists r,
  newNASMsg_sec toy_handler (repeat 0 20) 0 7 2 NAS_UpLink [0x07; 0x5e] 2 = Ok r /\
  exists b', nas_authenticateMsg toy_handler (wire r) (sr_len r) NAS_UpLink = Ok (1, 1, b').
Proof.
  destruct (protect_then_authenticate toy_handler toy_handler (repeat 0 20) 0 7 2 NAS_UpLink [0x07; 0x5e])
    as (r & E & _ & A & _); try reflexivity; try (cbn; lia).
  - split; [right; reflexivity|reflexivity].
  - repeat constructor; unfold byte_ok; lia.
  - exists r. split; [exact E|]. eexists. exact A.
Defined.

Lemma long_message_truncated_witness : exists r,
  newNASMsg_sec toy_handler (repeat 0 512) 0 7 1 NAS_DownLink (repeat 1 300) 300 = Ok r /\ sr_len r = 50.
Proof.
  destruct (long_message_truncated toy_handler (repeat 0 512) 0 7 1 NAS_DownLink (repeat 1 300))
    as (r & E & _ & L); try reflexivity; try (apply Nat.leb_le; reflexivity).
  - split; [right; reflexivity|reflexivity].
  - apply Forall_forall. intros x Hx. apply list_elem_of_In, repeat_spec in Hx. subst. unfold byte_ok. lia.
  - vm_compute. split; [discriminate|reflexivity].
  - exists r. split; [exact E|]. rewrite L. reflexivity.
Defined.

Lemma downlink_counts_advance_witness : exists ws n',
  send_run toy_handler (repeat 0 20) 7 2 [[0x07; 0x52]; [0x07; 0x5d]] = Ok (ws, n') /\ nas_count_dl n' = 2.
Proof.
  destruct (downlink_counts_advance 7 2 [[0x07; 0x52]; [0x07; 0x5d]] toy_handler (repeat 0 20))
    as (ws & n' & E & _ & D & _); try reflexivity; try (cbn; lia).
  - split; [right; reflexivity|reflexivity].
  - repeat constructor; unfold byte_ok; cbn; lia.
  - exists ws, n'. split; [exact E|exact D].
Defined.

Lemma count_wraps_around_witness : exists n' c,
  nas_authenticateMsg (Build_NASHandler true NAS_EIA0 (repeat 0 16) NAS_EEA0 (repeat 0 16) (2^24) 0)
    toy_wire 8 NAS_UpLink = Ok (1, 1, n') /\ nas_count n' NAS_UpLink = c + 1 /\ 0 <= c < 10.
Proof.
  destruct (count_wraps_around (Build_NASHandler true NAS_EIA0 (repeat 0 16) NAS_EEA0 (repeat 0 16) (2^24) 0)
    toy_wire 8 NAS_UpLink (Build_NASHandler true NAS_EIA0 (repeat 0 16) NAS_EEA0 (repeat 0 16) 1 0))
    as (c & _ & Hc & E).
  - exact toy_bytes.
  - reflexivity.
  - vm_compute. reflexivity.
  - eexists _, c. split; [vm_compute; reflexivity|]. split; [exact E|exact Hc].
Defined.

