(* ===== verification/GTP.v ===== *)
(** The GTPv2-C library (src/libgtp): packet headers and information elements
    (gtp.c, gtpie.c) and the telephony BCD conversions.  A packet is its
    memory (a list of octets) together with its length; the array of pointers
    [union gtpie_member *ie[GTPIE_SIZE]] is the list of the suffixes of the
    packet the pointers point to, up to the terminating null pointer. *)
From S2P Require Import Prelude.

Definition GTPIE_SIZE : nat := 256.
Definition GTPIE_MAX : Z := 0xffff.
Definition PACKET_MAX : Z := 8196.
Definition GTP2_MINIMUM_HEADER_SIZE : Z := 8.
Definition EOF : Z := -1.

(** Message types of GTPv2-C the program uses. *)
Definition GTP2_ECHO_REQ : Z := 1.
Definition GTP2_ECHO_RSP : Z := 2.
Definition GTP2_CREATE_SESSION_REQ : Z := 32.
Definition GTP2_CREATE_SESSION_RSP : Z := 33.
Definition GTP2_MODIFY_BEARER_REQ : Z := 34.
Definition GTP2_MODIFY_BEARER_RSP : Z := 35.
Definition GTP2_DELETE_SESSION_REQ : Z := 36.
Definition GTP2_DELETE_SESSION_RSP : Z := 37.
Definition GTP2_RELEASE_ACCESS_BEARERS_REQ : Z := 170.
Definition GTP2_RELEASE_ACCESS_BEARERS_RSP : Z := 171.
Definition GTP2_DOWNLINK_DATA_NOTIFICATION : Z := 176.
Definition GTP2_DOWNLINK_DATA_NOTIFICATION_ACK : Z := 177.

(** ** Headers *)

(** [header->length], octets 2 and 3, in host order, and the store of
    [hton16(x)] to it. *)
Definition get_header_length (pack : list Z) : outcome Z := lb ← rdn (adv pack 2) 2; Ok (be_val lb).
Definition set_header_length (pack : list Z) (x : Z) : outcome (list Z) :=
  overwrite pack 2 (be16 (wrap16 x)).

(** [get_default_gtp]: the length of the header and the packet.  Version 0
    falls through to version 2. *)
Definition get_default_gtp (version type : Z) (packet : list Z) : outcome (Z * list Z) :=
  if (version =? 0) || (version =? 2) then
    p ← (if (type =? GTP2_ECHO_REQ) || (type =? GTP2_ECHO_RSP)
         then overwrite packet 0 ([0x40; 0] ++ be16 4 ++ repeat 0 4)
         else overwrite packet 0 ([0x48; 0] ++ be16 8 ++ repeat 0 8));
    p ← overwrite p 1 [wrap8 type];
    l ← get_header_length p;
    Ok (l + 4, p)
  else Ok (0, packet).

(** The checks of [gtp2_recv] on a datagram of [status] octets; [None] is a
    packet that is discarded ([*len] stays 0). *)
Definition gtp2_recv_check (buffer : list Z) : outcome (option (list Z)) :=
  let status := Z.of_nat (length buffer) in
  if status <? 1 then Ok None
  else
    flags ← rd buffer;
    if negb ((flags .& 0xe0) =? 0x20) && negb ((flags .& 0xe0) =? 0x40) then Ok None
    else if status <? GTP2_MINIMUM_HEADER_SIZE then Ok None
    else
      l ← get_header_length buffer;
      if status <? l + 4 then Ok None else Ok (Some buffer).

(** [gtp2_recv]: the return value, the packet (whose memory behind the
    received octets keeps its previous content) and [*len].  [None] is a failed
    [recvfrom], with whether [errno] is [EAGAIN]. *)
Definition gtp2_recv (received : option (list Z)) (eagain : bool) (packet : list Z)
  : outcome (Z * list Z * Z) :=
  match received with
  | None => Ok ((if eagain then 0 else -1), packet, 0)
  | Some buffer =>
    v ← gtp2_recv_check buffer;
    match v with
    | None => Ok (0, packet, 0)
    | Some b => p ← overwrite packet 0 b; Ok (0, p, Z.of_nat (length b))
    end
  end.

(** ** Information elements *)

(** The fields of a [union gtpie_member] at [p]. *)
Definition ie_t (p : list Z) : outcome Z := rd p.
Definition ie_l (p : list Z) : outcome Z := lb ← rdn (adv p 1) 2; Ok (be_val lb).
Definition ie_i (p : list Z) : outcome Z := rdi p 3.

(** [gtpie_getie]: the index of the first element of this type and instance. *)
Fixpoint getie_loop (ie : list (list Z)) (j fuel : nat) (type instance : Z) : outcome Z :=
  match fuel, ie with
  | S fuel, p :: ie =>
    t ← ie_t p; i ← ie_i p;
    if (t =? type) && (i =? instance) then Ok (Z.of_nat j)
    else getie_loop ie (S j) fuel type instance
  | _, _ => Ok (-1)
  end.
Definition gtpie_getie (ie : list (list Z)) (type instance : Z) : outcome Z :=
  getie_loop ie 0 GTPIE_SIZE type instance.

(** [gtp2ie_gettliv]: the return value, the octets copied to [dst] and
    [*iesize]. *)
Definition gtp2ie_gettliv (ie : list (list Z)) (type instance : Z) : outcome (Z * list Z * Z) :=
  ien ← gtpie_getie ie type instance;
  if 0 <=? ien then
    let p := nth (Z.to_nat ien) ie [] in
    l ← ie_l p;
    v ← rdn (adv p 4) l;
    Ok (0, v, l)
  else Ok (EOF, [], 0).

(** The loop of [gtp2ie_decap] and [gtp2ie_decaps_group]: [p] is the rest of
    the memory, [off] and [len] the offsets of [p] and [end]; the offset where
    it stops and the pointers stored. *)
Fixpoint decap_loop (fuel : nat) (p : list Z) (off len : Z) : outcome (Z * list (list Z)) :=
  match fuel with
  | O => Ok (off, [])
  | S fuel =>
    if off <? len then
      l ← ie_l p;
      '(off', ies) ← decap_loop fuel (adv p (4 + l)) (off + (4 + l)) len;
      Ok (off', p :: ies)
    else Ok (off, [])
  end.

(** The end of both functions; [ie[j] = NULL] is a store to an array of
    [GTPIE_SIZE] elements. *)
Definition decap_end (r : Z * list (list Z)) (len : Z) : outcome (Z * list (list Z)) :=
  let '(off, ies) := r in
  if off =? len then
    if decide (length ies < GTPIE_SIZE)%nat then Ok (0, ies) else UB OutOfBounds
  else Ok (EOF, ies).

Definition gtp2ie_decap (pack : list Z) (len : Z) : outcome (Z * list (list Z)) :=
  flags ← rd pack;
  let h := if (flags .& 0xe8) =? 0x40 then 8 else 12 in
  r ← decap_loop GTPIE_SIZE (adv pack h) h len;
  decap_end r len.

(** [gtp2ie_decaps_group]: also stores the number of elements in [*size]. *)
Definition gtp2ie_decaps_group (from : list Z) (len : Z) : outcome (Z * list (list Z) * Z) :=
  r ← decap_loop GTPIE_SIZE from 0 len;
  '(ret, ies) ← decap_end r len;
  Ok (ret, ies, Z.of_nat (length ies)).

(** [gtp2ie_tliv]: append one element to a packet under construction.  The
    store of the first value octet at the beginning of each iteration is
    overwritten by the last one, so that octet 4 ends up as [value[0]]. *)
Fixpoint tliv_loop (n i : nat) (value : list Z) (at_ : Z) (pack : list Z) : outcome (list Z) :=
  match n with
  | O => Ok pack
  | S n =>
    v0 ← rd value;
    pack ← overwrite pack (at_ + 4) [v0];
    v ← rdi value (Z.of_nat i);
    pack ← overwrite pack (at_ + 4 + Z.of_nat i) [v];
    tliv_loop n (S i) value at_ pack
  end.

Definition gtp2ie_tliv (pack : list Z) (length_ size type instance : Z) (value : list Z) (vsize : Z)
  : outcome (Z * list Z * Z) :=
  if size <=? wrap32 (length_ + 8) then Ok (1, pack, length_)
  else
    pack ← overwrite pack length_ ([wrap8 type] ++ be16 (wrap16 vsize) ++ [wrap8 instance]);
    pack ← tliv_loop (Z.to_nat (wrap16 vsize)) 0 value length_ pack;
    l ← get_header_length pack;
    pack ← set_header_length pack (l + wrap16 vsize + 4);
    Ok (0, pack, wrap32 (length_ + wrap16 vsize + 4)).

(** [gtp2ie_encaps]: [ies] is the array of elements (each at least as long as
    its length field says).  Return value, packet and [*len]. *)
Fixpoint encaps_loop (ies : list (list Z)) (pack : list Z) (p len end_ : Z)
  : outcome (Z * list Z * Z) :=
  match ies with
  | [] => Ok (0, pack, len)
  | ie :: ies =>
    l ← ie_l ie;
    let iesize := 4 + l in
    if p + iesize <? end_ then
      b ← rdn ie iesize;
      pack ← overwrite pack p b;
      h ← get_header_length pack;
      pack ← set_header_length pack (h + iesize);
      encaps_loop ies pack (p + iesize) (wrap32 (len + iesize)) end_
    else Ok (-1, pack, len)
  end.

Definition gtp2ie_encaps (ies : list (list Z)) (pack : list Z) (len : Z) : outcome (Z * list Z * Z) :=
  pack ← overwrite pack len (repeat 0 (Z.to_nat GTPIE_MAX));
  encaps_loop ies pack len len (len + GTPIE_MAX).

(** [gtp2ie_encaps_group]: the grouped element [to], built in a [union
    gtpie_member] of 4 + [GTP2IE_MAX] octets. *)
Fixpoint encaps_group_loop (ies : list (list Z)) (to : list Z) (p : Z) : outcome (Z * list Z) :=
  match ies with
  | [] => Ok (0, to)
  | ie :: ies =>
    l ← ie_l ie;
    let iesize := 4 + l in
    if p + iesize <? 4 + GTPIE_MAX then
      b ← rdn ie iesize;
      to ← overwrite to p b;
      gl ← ie_l to;
      to ← overwrite to 1 (be16 (wrap16 (gl + iesize)));
      encaps_group_loop ies to (p + iesize)
    else Ok (-1, to)
  end.

Definition gtp2ie_encaps_group (type instance : Z) (to : list Z) (ies : list (list Z))
  : outcome (Z * list Z) :=
  to ← overwrite to 0 [wrap8 type; 0; 0; wrap8 instance];
  encaps_group_loop ies to 4.

(** ** F-TEID *)

Record fteid_t := { ft_iface : Z; ft_ipv6 : bool; ft_ipv4 : bool; ft_teid : list Z; ft_addr : list Z }.

(** A [struct sockaddr]: the address in network order, or an IPv6 one. *)
Inductive sockaddr := AF_INET (s_addr : list Z) | AF_INET6 (s6_addr : list Z) | AF_OTHER.

Definition gtp_socktofeid (f : fteid_t) (t teid : Z) (addr : sockaddr) : fteid_t :=
  let f := {| ft_iface := t .& 0x3f; ft_ipv6 := ft_ipv6 f; ft_ipv4 := ft_ipv4 f;
              ft_teid := be32 teid; ft_addr := ft_addr f |} in
  match addr with
  | AF_INET a => {| ft_iface := ft_iface f; ft_ipv6 := false; ft_ipv4 := true; ft_teid := ft_teid f;
                    ft_addr := a ++ drop 4 (ft_addr f) |}
  | AF_INET6 _ => {| ft_iface := ft_iface f; ft_ipv6 := true; ft_ipv4 := false; ft_teid := ft_teid f;
                     ft_addr := ft_addr f |}
  | AF_OTHER => f
  end.

(** ** Telephony BCD *)

(** [tbcd2dec]: the loop over the octets of [bcd], lowest first. *)
Definition tbcd_step (decimal b : Z) : Z :=
  if negb ((b .& 0xf0) =? 0xf0)
  then wrap64 (wrap64 (decimal * 100) + (b .& 0x0f) * 10 + ((b >> 4) .& 0x0f))
  else wrap64 (wrap64 (decimal * 10) + (b .& 0x0f)).

Definition tbcd2dec (tbcd : list Z) (length_ : Z) : outcome Z :=
  if 8 <? length_ then UB OutOfBounds
  else bs ← rdn tbcd length_; Ok (fold_left tbcd_step bs 0).

(** [dec2tbcd]: the octets 6 down to 0 of [bcd]. *)
Fixpoint dec2tbcd_loop (n : nat) (imsi64 : Z) : list Z :=
  match n with
  | O => []
  | S n => let aux := imsi64 mod 100 in
           dec2tbcd_loop n (imsi64 / 100) ++ [wrap8 ((aux mod 10 << 4) + aux / 10)]
  end.

Definition dec2tbcd (dec : Z) : list Z :=
  dec2tbcd_loop 7 (dec / 10) ++ [(dec mod 10) .& 0xf0].

(** ** Elements and their octets *)

Record tliv := Tliv { e_t : Z; e_i : Z; e_v : list Z }.
Definition tliv_bytes (e : tliv) : list Z :=
  [e_t e] ++ be16 (Z.of_nat (length (e_v e))) ++ [e_i e] ++ e_v e.
Definition tliv_ok (e : tliv) : Prop :=
  byte_ok (e_t e) /\ byte_ok (e_i e) /\ bytes_ok (e_v e) /\ Z.of_nat (length (e_v e)) < 65536.
Definition tlivs_bytes (es : list tliv) : list Z := concat (map tliv_bytes es).

(** The pointers of an array of elements followed by [rest]. *)
Fixpoint ptrs (es : list tliv) (rest : list Z) : list (list Z) :=
  match es with
  | [] => []
  | e :: es => (tliv_bytes e ++ tlivs_bytes es ++ rest) :: ptrs es rest
  end.

Lemma tliv_length e : length (tliv_bytes e) = (4 + length (e_v e))%nat.
Proof. unfold tliv_bytes. rewrite !length_app, be16_length. cbn. lia. Qed.

Lemma tlivs_cons e es : tlivs_bytes (e :: es) = tliv_bytes e ++ tlivs_bytes es.
Proof. done. Qed.
Lemma tlivs_length e es :
  length (tlivs_bytes (e :: es)) = (4 + length (e_v e) + length (tlivs_bytes es))%nat.
Proof. by rewrite tlivs_cons, length_app, tliv_length. Qed.

Lemma tliv_bytes_ok e : tliv_ok e -> bytes_ok (tliv_bytes e).
Proof.
  intros (Ht & Hi & Hv & _). unfold tliv_bytes. repeat (apply Forall_app; split); auto.
  apply be16_bytes.
Qed.

Lemma ie_l_tliv e rest : tliv_ok e -> ie_l (tliv_bytes e ++ rest) = Ok (Z.of_nat (length (e_v e))).
Proof.
  intros (_ & _ & _ & Hl). unfold ie_l, tliv_bytes. rewrite <- !(assoc (++)). cbn [app]. rewrite adv_1.
  change (be16 ?x ++ ?y) with (be16 x ++ y). rewrite rdn_app by done. osimp. by rewrite be_val_be16 by lia.
Qed.

Lemma ie_t_tliv e rest : ie_t (tliv_bytes e ++ rest) = Ok (e_t e).
Proof. done. Qed.
Lemma ie_i_tliv e rest : ie_i (tliv_bytes e ++ rest) = Ok (e_i e).
Proof. done. Qed.

Lemma rdn_tliv_value e rest : rdn (adv (tliv_bytes e ++ rest) 4) (Z.of_nat (length (e_v e))) = Ok (e_v e).
Proof.
  unfold tliv_bytes. replace (([e_t e] ++ be16 (Z.of_nat (length (e_v e))) ++ [e_i e] ++ e_v e) ++ rest)
    with (([e_t e] ++ be16 (Z.of_nat (length (e_v e))) ++ [e_i e]) ++ e_v e ++ rest)
    by (by rewrite <- !(assoc (++))).
  rewrite adv_app by done. by apply rdn_app.
Qed.

Lemma decap_loop_elems es : Forall tliv_ok es -> forall fuel rest off,
  (length es <= fuel)%nat -> 
  decap_loop fuel (tlivs_bytes es ++ rest) off (off + Z.of_nat (length (tlivs_bytes es))) =
  Ok (off + Z.of_nat (length (tlivs_bytes es)), ptrs es rest).
Proof.
  induction 1 as [|e es He Hes IH]; intros fuel rest off Hf.
  - cbn. rewrite Z.add_0_r. destruct fuel; cbn; [done|]. by rewrite Z.ltb_irrefl.
  - destruct fuel as [|fuel]; [cbn in Hf; lia|]. cbn [ptrs decap_loop].
    rewrite tlivs_length, tlivs_cons.
    destruct (Z.ltb_spec off (off + Z.of_nat (4 + length (e_v e) + length (tlivs_bytes es)))); [|lia].
    rewrite <- !app_assoc, ie_l_tliv by done. osimp.
    rewrite (adv_app (tliv_bytes e)) by (rewrite tliv_length; lia).
    replace (off + Z.of_nat (4 + length (e_v e) + length (tlivs_bytes es))) with
      (off + (4 + Z.of_nat (length (e_v e))) + Z.of_nat (length (tlivs_bytes es))) by lia.
    rewrite IH by (cbn in Hf; lia). done.
Qed.

Lemma ptrs_length es rest : length (ptrs es rest) = length es.
Proof. induction es; cbn; congruence. Qed.

(** ** Search *)

Definition tliv_is (t i : Z) (e : tliv) : bool := (e_t e =? t) && (e_i e =? i).

Lemma gettliv_from es rest t i : Forall tliv_ok es -> forall j fuel, (length es <= fuel)%nat ->
  match List.find (tliv_is t i) es with
  | Some e => exists k q, getie_loop (ptrs es rest) j fuel t i = Ok (Z.of_nat (j + k)) /\
      nth k (ptrs es rest) [] = tliv_bytes e ++ q /\ tliv_ok e
  | None => getie_loop (ptrs es rest) j fuel t i = Ok (-1)
  end.
Proof.
  induction 1 as [|e es He Hes IH]; intros j fuel Hf; [by destruct fuel|].
  destruct fuel as [|fuel]; [cbn in Hf; lia|]. cbn [List.find ptrs getie_loop].
  rewrite ie_t_tliv, ie_i_tliv. osimp. unfold tliv_is at 1.
  destruct ((e_t e =? t) && (e_i e =? i)) eqn:E.
  - exists 0%nat, (tlivs_bytes es ++ rest). by rewrite Nat.add_0_r.
  - specialize (IH (S j) fuel ltac:(cbn in Hf; lia)).
    destruct (List.find (tliv_is t i) es) as [e'|]; [|done].
    destruct IH as (k & q & E1 & E2 & E3). exists (S k), q. rewrite E1. split_and!; [|done|done].
    do 2 f_equal. lia.
Qed.

Lemma gettliv_elems es rest t i : Forall tliv_ok es -> (length es <= GTPIE_SIZE)%nat ->
  gtp2ie_gettliv (ptrs es rest) t i =
  match List.find (tliv_is t i) es with
  | Some e => Ok (0, e_v e, Z.of_nat (length (e_v e)))
  | None => Ok (EOF, [], 0)
  end.
Proof.
  intros Hes Hl. unfold gtp2ie_gettliv, gtpie_getie.
  pose proof (gettliv_from es rest t i Hes 0 GTPIE_SIZE Hl) as H.
  destruct (List.find (tliv_is t i) es) as [e|].
  - destruct H as (k & q & -> & E2 & He). osimp. cbn [Nat.add].
    destruct (Z.leb_spec 0 (Z.of_nat k)); [|lia]. rewrite Nat2Z.id, E2, ie_l_tliv by done. osimp.
    by rewrite rdn_tliv_value.
  - by rewrite H.
Qed.

(** ** Encapsulation *)

Lemma header_length_at a b x rest : 0 <= x < 65536 ->
  get_header_length ([a; b] ++ be16 x ++ rest) = Ok x.
Proof.
  intros. unfold get_header_length. rewrite adv_app, rdn_app by done. osimp. by rewrite be_val_be16 by lia.
Qed.
Lemma set_header_length_at a b x y rest : 0 <= y < 65536 ->
  set_header_length ([a; b] ++ be16 x ++ rest) y = Ok ([a; b] ++ be16 y ++ rest).
Proof. intros. unfold set_header_length. rewrite wrap16_id by lia. by apply overwrite_app. Qed.

Lemma encaps_loop_elems es : Forall tliv_ok es -> forall a b hl c old post len p end_,
  length old = length (tlivs_bytes es) -> p = 4 + Z.of_nat (length c) ->
  p + Z.of_nat (length (tlivs_bytes es)) < end_ ->
  0 <= hl -> hl + Z.of_nat (length (tlivs_bytes es)) < 65536 ->
  0 <= len -> len + Z.of_nat (length (tlivs_bytes es)) < 2^32 ->
  encaps_loop (map tliv_bytes es) ([a; b] ++ be16 hl ++ c ++ old ++ post) p len end_ =
  Ok (0, [a; b] ++ be16 (hl + Z.of_nat (length (tlivs_bytes es))) ++ c ++ tlivs_bytes es ++ post,
      len + Z.of_nat (length (tlivs_bytes es))).
Proof.
  induction 1 as [|e es He Hes IH]; intros a b hl c old post len p end_ Ho Hp He1 Hh1 Hh2 Hl1 Hl2.
  - destruct old; [|done]. cbn [map encaps_loop tlivs_bytes concat length Z.of_nat]. by rewrite !Z.add_0_r.
  - rewrite tlivs_length in *. rewrite tlivs_cons. cbn [map encaps_loop].
    assert (exists o1 o2, old = o1 ++ o2 /\ length o1 = length (tliv_bytes e) /\
      length o2 = length (tlivs_bytes es)) as (o1 & o2 & -> & L1 & L2).
    { exists (take (length (tliv_bytes e)) old), (drop (length (tliv_bytes e)) old).
      rewrite take_drop, length_take, length_drop, tliv_length. split_and!; [done|lia|lia]. }
    pose proof (ie_l_tliv e [] He) as El. rewrite app_nil_r in El. rewrite El. osimp.
    destruct (Z.ltb_spec (p + (4 + Z.of_nat (length (e_v e)))) end_); [|lia].
    pose proof (rdn_app (tliv_bytes e) [] (4 + Z.of_nat (length (e_v e)))
      ltac:(rewrite tliv_length; lia)) as Er. rewrite app_nil_r in Er. rewrite Er. osimp.
    replace ([a; b] ++ be16 hl ++ c ++ (o1 ++ o2) ++ post) with
      (([a; b] ++ be16 hl ++ c) ++ o1 ++ (o2 ++ post)) by (by rewrite <- !(assoc (++))).
    rewrite overwrite_app by (done || rewrite !length_app, be16_length; cbn; lia). osimp.
    rewrite <- !app_assoc. rewrite header_length_at by lia. osimp.
    rewrite set_header_length_at by lia. osimp. rewrite wrap32_id by lia.
    replace (be16 (hl + (4 + Z.of_nat (length (e_v e)))) ++ c ++ tliv_bytes e ++ o2 ++ post) with
      (be16 (hl + (4 + Z.of_nat (length (e_v e)))) ++ (c ++ tliv_bytes e) ++ o2 ++ post)
      by (by rewrite <- !(assoc (++))).
    rewrite IH; try lia; [|rewrite length_app, tliv_length; lia].
    rewrite <- !app_assoc.
    replace (hl + (4 + Z.of_nat (length (e_v e))) + Z.of_nat (length (tlivs_bytes es))) with
      (hl + Z.of_nat (4 + length (e_v e) + length (tlivs_bytes es))) by lia.
    by replace (len + (4 + Z.of_nat (length (e_v e))) + Z.of_nat (length (tlivs_bytes es))) with
      (len + Z.of_nat (4 + length (e_v e) + length (tlivs_bytes es))) by lia.
Qed.

Lemma default_header type pack : negb ((type =? GTP2_ECHO_REQ) || (type =? GTP2_ECHO_RSP)) = true ->
  byte_ok type -> (12 <= length pack)%nat ->
  get_default_gtp 2 type pack =
  Ok (12, [0x48; type] ++ be16 8 ++ repeat 0 8 ++ drop 12 pack).
Proof.
  intros Ht Hb Hl. unfold get_default_gtp. apply negb_true_iff in Ht. rewrite Ht. cbn [orb Z.eqb Pos.eqb].
  rewrite overwrite_Ok by (cbn; lia). osimp.
  match goal with |- context [overwrite ?l 1 _] =>
    change l with ([0x48] ++ [0] ++ (be16 8 ++ repeat 0 8 ++ drop 12 pack)) end.
  rewrite overwrite_app by done. osimp. rewrite wrap8_id by done.
  change ([0x48] ++ [type] ++ ?r) with ([0x48; type] ++ r).
  rewrite header_length_at by lia. done.
Qed.

Lemma flags_long : ((0x48 .& 0xe8) =? 0x40) = false.
Proof. done. Qed.

(** The octets of a message with the long header: type, the eight octets of
    tunnel endpoint identifier, sequence number and spare, and the elements. *)
Definition packet_bytes (type : Z) (mid : list Z) (es : list tliv) : list Z :=
  [0x48; type] ++ be16 (8 + Z.of_nat (length (tlivs_bytes es))) ++ mid ++ tlivs_bytes es.

Lemma packet_bytes_length type mid es : length mid = 8%nat ->
  length (packet_bytes type mid es) = (12 + length (tlivs_bytes es))%nat.
Proof. intros Hm. unfold packet_bytes. rewrite !length_app, be16_length, Hm. cbn [length]. lia. Qed.

Lemma packet_header_length type mid es rest : Z.of_nat (length (tlivs_bytes es)) <= 65527 ->
  get_header_length (packet_bytes type mid es ++ rest) = Ok (8 + Z.of_nat (length (tlivs_bytes es))).
Proof. intros. unfold packet_bytes. rewrite <- !(assoc (++)). apply header_length_at. lia. Qed.

(** The receiver accepts such a message. *)
Lemma recv_check_packet type mid es : length mid = 8%nat -> Z.of_nat (length (tlivs_bytes es)) <= 65527 ->
  gtp2_recv_check (packet_bytes type mid es) = Ok (Some (packet_bytes type mid es)).
Proof.
  intros Hm Ht. pose proof (packet_header_length type mid es [] Ht) as E. rewrite app_nil_r in E.
  unfold gtp2_recv_check. rewrite packet_bytes_length by done. rewrite E.
  change (rd (packet_bytes type mid es)) with (Ok 0x48).
  set (T := length (tlivs_bytes es)) in *. unfold GTP2_MINIMUM_HEADER_SIZE.
  destruct (Z.ltb_spec (Z.of_nat (12 + T)) 1); [lia|]. osimp.
  change (0x48 .& 0xe0) with 0x40. cbn [Z.eqb Pos.eqb negb andb].
  destruct (Z.ltb_spec (Z.of_nat (12 + T)) 8); [lia|].
  by destruct (Z.ltb_spec (Z.of_nat (12 + T)) (8 + Z.of_nat T + 4)); [lia|].
Qed.

(** [gtp2ie_decap] splits it again. *)
Lemma decap_packet type mid es rest : length mid = 8%nat -> Forall tliv_ok es -> (length es < GTPIE_SIZE)%nat ->
  gtp2ie_decap (packet_bytes type mid es ++ rest) (12 + Z.of_nat (length (tlivs_bytes es))) =
  Ok (0, ptrs es rest).
Proof.
  intros Hm Hes Hn. unfold gtp2ie_decap.
  change (rd (packet_bytes type mid es ++ rest)) with (Ok 0x48). osimp. rewrite flags_long.
  assert (Ea : adv (packet_bytes type mid es ++ rest) 12 = tlivs_bytes es ++ rest).
  { unfold packet_bytes. rewrite !(assoc (++)), <- (assoc (++) _ (tlivs_bytes es)). apply adv_app.
    rewrite !length_app, be16_length, Hm. done. }
  rewrite Ea, (decap_loop_elems es Hes GTPIE_SIZE rest 12) by lia. osimp.
  unfold decap_end. rewrite Z.eqb_refl, decide_True; [done|]. by rewrite ptrs_length.
Qed.

(** The zeroed space behind the header. *)
Lemma clear_body type pack M T : (T <= M)%nat -> (12 + M <= length pack)%nat ->
  overwrite ([0x48; type] ++ be16 8 ++ repeat 0 8 ++ drop 12 pack) 12 (repeat 0 M) =
  Ok ([0x48; type] ++ be16 8 ++ repeat 0 8 ++ repeat 0 T ++ (repeat 0 (M - T) ++ drop (12 + M) pack)).
Proof.
  intros HT Hp.
  replace ([0x48; type] ++ be16 8 ++ repeat 0 8 ++ drop 12 pack) with
    (([0x48; type] ++ be16 8 ++ repeat 0 8) ++ take M (drop 12 pack) ++ drop M (drop 12 pack))
    by (by rewrite take_drop, <- !(assoc (++))).
  rewrite overwrite_app; [|done|rewrite length_take, length_drop, repeat_length; lia].
  rewrite drop_drop, <- !app_assoc, (app_assoc (repeat 0 T)), <- repeat_app.
  by replace (T + (M - T))%nat with M by lia.
Qed.

(** A default header followed by [gtp2ie_encaps]. *)
Lemma encaps_packet es type pack : Forall tliv_ok es -> Z.of_nat (length (tlivs_bytes es)) <= 65527 ->
  byte_ok type -> negb ((type =? GTP2_ECHO_REQ) || (type =? GTP2_ECHO_RSP)) = true ->
  12 + GTPIE_MAX <= Z.of_nat (length pack) ->
  exists p1 rest, get_default_gtp 2 type pack = Ok (12, p1) /\
    gtp2ie_encaps (map tliv_bytes es) p1 12 =
    Ok (0, packet_bytes type (repeat 0 8) es ++ rest, 12 + Z.of_nat (length (tlivs_bytes es))).
Proof.
  intros Hes Ht Hty Hecho Hp. set (T := length (tlivs_bytes es)) in *. unfold gtp2ie_encaps.
  set (M := Z.to_nat GTPIE_MAX).
  assert (HM : Z.of_nat M = GTPIE_MAX) by (unfold M, GTPIE_MAX; lia). clearbody M.
  assert (HG : GTPIE_MAX = 65535) by done.
  exists ([0x48; type] ++ be16 8 ++ repeat 0 8 ++ drop 12 pack), (repeat 0 (M - T) ++ drop (12 + M) pack).
  split; [apply default_header; [done|done|lia]|].
  rewrite (clear_body type pack M T) by lia. osimp. unfold packet_bytes. rewrite <- !(assoc (++)).
  apply (encaps_loop_elems es Hes 0x48 type 8 (repeat 0 8) (repeat 0 T) _ 12 12);
    fold T; rewrite ?repeat_length; lia.
Qed.

(** C21: encapsulation and decapsulation are inverse: fewer than 256 elements
    of at most 65527 octets in total, put behind a default header with
    [gtp2ie_encaps], give a packet whose length field is right, which the
    receiver's checks accept, which [gtp2ie_decap] splits again, and in which
    [gtp2ie_gettliv] finds for every type and instance the value of the first
    such element, and reports its absence exactly when there is none. *)
Theorem gtp_encaps_decap es type pack :
  Forall tliv_ok es -> (length es < GTPIE_SIZE)%nat ->
  Z.of_nat (length (tlivs_bytes es)) <= 65527 ->
  byte_ok type -> negb ((type =? GTP2_ECHO_REQ) || (type =? GTP2_ECHO_RSP)) = true ->
  12 + GTPIE_MAX <= Z.of_nat (length pack) ->
  exists p1 pk len ies,
    get_default_gtp 2 type pack = Ok (12, p1) /\
    gtp2ie_encaps (map tliv_bytes es) p1 12 = Ok (0, pk, len) /\
    len = 12 + Z.of_nat (length (tlivs_bytes es)) /\
    get_header_length pk = Ok (len - 4) /\
    gtp2_recv_check (take (Z.to_nat len) pk) = Ok (Some (take (Z.to_nat len) pk)) /\
    gtp2ie_decap pk len = Ok (0, ies) /\
    forall t i, gtp2ie_gettliv ies t i =
      match List.find (tliv_is t i) es with
      | Some e => Ok (0, e_v e, Z.of_nat (length (e_v e)))
      | None => Ok (EOF, [], 0)
      end.
Proof.
  intros Hes Hn Ht Hty Hecho Hp. destruct (encaps_packet es type pack Hes Ht Hty Hecho Hp) as (p1 & rest & H1 & H2).
  set (pk := packet_bytes type (repeat 0 8) es) in *.
  assert (Htake : take (Z.to_nat (12 + Z.of_nat (length (tlivs_bytes es)))) (pk ++ rest) = pk).
  { apply take_app_length'. unfold pk. rewrite packet_bytes_length by done. lia. }
  exists p1, (pk ++ rest), (12 + Z.of_nat (length (tlivs_bytes es))), (ptrs es rest). split_and!; try done.
  - unfold pk. rewrite packet_header_length by done. f_equal. lia.
  - rewrite Htake. by apply recv_check_packet.
  - by apply decap_packet.
  - intros t i. apply gettliv_elems; [done|lia].
Qed.

Lemma gtp_encaps_decap_witness : exists p1 pk len ies,
  get_default_gtp 2 GTP2_CREATE_SESSION_REQ (repeat 0 (Z.to_nat 65547)) = Ok (12, p1) /\
  gtp2ie_encaps (map tliv_bytes [Tliv 2 0 [16; 0]; Tliv 87 0 [1; 2; 3]]) p1 12 = Ok (0, pk, len) /\
  gtp2ie_decap pk len = Ok (0, ies) /\ gtp2ie_gettliv ies 87 0 = Ok (0, [1; 2; 3], 3).
Proof.
  destruct (gtp_encaps_decap [Tliv 2 0 [16; 0]; Tliv 87 0 [1; 2; 3]] GTP2_CREATE_SESSION_REQ (repeat 0 (Z.to_nat 65547)))
    as (p1 & pk & len & ies & H1 & H2 & _ & _ & _ & H3 & H4).
  - repeat constructor; unfold byte_ok; cbn; lia.
  - unfold GTPIE_SIZE. cbn. lia.
  - cbn. lia.
  - unfold byte_ok, GTP2_CREATE_SESSION_REQ. lia.
  - reflexivity.
  - rewrite repeat_length. unfold GTPIE_MAX. lia.
  - exists p1, pk, len, ies. split_and!; [exact H1|exact H2|exact H3|apply (H4 87 0)].
Defined.

(** ** Decapsulation of arbitrary packets *)

Lemma ie_l_total p : bytes_ok p -> (3 <= length p)%nat ->
  exists l, ie_l p = Ok l /\ 0 <= l < 65536 /\
    (Z.to_nat (4 + l) <= length p -> exists e, tliv_ok e /\ l = Z.of_nat (length (e_v e)) /\
      p = tliv_bytes e ++ adv p (4 + l))%nat.
Proof.
  intros Hb Hl. destruct p as [|t [|a [|b q]]]; cbn in Hl; try lia.
  inversion Hb as [|? ? Ht Hb1]; inversion Hb1 as [|? ? Ha Hb2]; inversion Hb2 as [|? ? Hbb Hq]; subst.
  unfold byte_ok in Ha, Hbb. exists (be_val [a; b]). unfold ie_l. rewrite adv_1.
  change (a :: b :: q) with ([a; b] ++ q). rewrite rdn_app by done. osimp. cbn [app].
  assert (Hv : be_val [a; b] = 256 * a + b) by (unfold be_val; cbn [fold_left]; lia).
  split_and!; [done|lia|lia|]. rewrite Hv. intros Hlen.
  destruct q as [|i v]; [cbn in Hlen; lia|]. inversion Hq as [|? ? Hi Hv']; subst.
  set (l := 256 * a + b) in *. exists (Tliv t i (take (Z.to_nat l) v)).
  assert (Lv : length (take (Z.to_nat l) v) = Z.to_nat l) by (rewrite length_take; cbn in Hlen; lia).
  split_and!.
  - split_and!; cbn; [done|done|by apply Forall_take|rewrite Lv; lia].
  - cbn. rewrite Lv. lia.
  - unfold tliv_bytes. cbn [e_t e_i e_v]. rewrite Lv, Z2Nat.id by lia.
    rewrite be16_arith. replace ((l / 256) mod 256) with a by lia. replace (l mod 256) with b by lia.
    cbn [app]. unfold adv. replace (Z.to_nat (4 + l)) with (4 + Z.to_nat l)%nat by lia.
    cbn [drop Nat.add]. by rewrite take_drop.
Qed.

Lemma ie_l_short p : (length p < 3)%nat -> ie_l p = UB OutOfBounds.
Proof.
  intros H. unfold ie_l, rdn. destruct (Z.ltb_spec (Z.of_nat (length (adv p 1))) 2) as [_|L]; [done|].
  unfold adv in L. rewrite length_drop in L. lia.
Qed.

(** The pointers that are stored, whatever the packet. *)
Lemma decap_loop_Ok fuel : forall p off len off' ies, bytes_ok p -> decap_loop fuel p off len = Ok (off', ies) ->
  off <= off' /\ forall q, q ∈ ies -> exists k, 0 <= k /\ off + k < len /\ q = adv p k /\ (3 <= length q)%nat.
Proof.
  induction fuel as [|fuel IH]; intros p off len off' ies Hb E; cbn [decap_loop] in E; [injection E as <- <-; split; [lia|by intros q Hq%elem_of_nil]|].
  destruct (Z.ltb_spec off len); [|injection E as <- <-; split; [lia|by intros q Hq%elem_of_nil]].
  destruct (Nat.lt_ge_cases (length p) 3) as [H3|H3]; [by rewrite ie_l_short in E|].
  destruct (ie_l_total p Hb H3) as (l & El & Hlb & _). rewrite El in E. osimp.
  destruct (decap_loop fuel (adv p (4 + l)) (off + (4 + l)) len) as [[o i]|] eqn:E'; [|done]. injection E as <- <-.
  destruct (IH _ _ _ _ _ ltac:(by apply Forall_drop) E') as [Ho Hq]. split; [lia|]. intros q [->|Hi]%elem_of_cons.
  - exists 0. split; [lia|]. split; [lia|]. split; [by unfold adv|done].
  - destruct (Hq q Hi) as (k & K1 & K2 & -> & K3). exists (4 + l + k). split; [lia|]. split; [lia|]. split; [|done].
    unfold adv. rewrite drop_drop. f_equal. lia.
Qed.

(** The loop ends at [len]: it has split everything up to there. *)
Lemma decap_loop_exact fuel : forall p off len ies, bytes_ok p -> off <= len <= off + Z.of_nat (length p) ->
  decap_loop fuel p off len = Ok (len, ies) ->
  exists es, Forall tliv_ok es /\ (length es <= fuel)%nat /\ tlivs_bytes es = take (Z.to_nat (len - off)) p /\ ies = ptrs es (adv p (len - off)).
Proof.
  induction fuel as [|fuel IH]; intros p off len ies Hb Hl E; cbn [decap_loop] in E.
  - injection E as -> <-. exists []. by rewrite Z.sub_diag.
  - destruct (Z.ltb_spec off len); [|injection E as -> <-; exists []; rewrite Z.sub_diag; split_and!; [done|cbn; lia|done|done]].
    apply bind_Ok in E as (l & El & E). apply bind_Ok in E as ([off' ies'] & E' & E). injection E as -> <-.
    assert (H3 : (3 <= length p)%nat) by (destruct (Nat.lt_ge_cases (length p) 3) as [L|L]; [by rewrite ie_l_short in El|done]).
    destruct (ie_l_total p Hb H3) as (l' & El' & Hlb & He). rewrite El in El'. injection El' as <-.
    pose proof (proj1 (decap_loop_Ok _ _ _ _ _ _ ltac:(by apply Forall_drop) E')). destruct He as (e & Hok & El' & Ep); [lia|].
    destruct (IH (adv p (4 + l)) (off + (4 + l)) len ies') as (es & Hes & Hn & Eb & ->); [by apply Forall_drop|rewrite adv_length by lia; lia|done|].
    assert (Ea : adv (adv p (4 + l)) (len - (off + (4 + l))) = adv p (len - off)) by (unfold adv; rewrite drop_drop; f_equal; lia).
    exists (e :: es). rewrite Ea in *. split; [by constructor|]. split; [cbn; lia|]. cbn [ptrs]. rewrite tlivs_cons, Eb.
    assert (Ed : tliv_bytes e ++ take (Z.to_nat (len - (off + (4 + l)))) (adv p (4 + l)) = take (Z.to_nat (len - off)) p).
    { rewrite Ep at 2. replace (Z.to_nat (len - off)) with (length (tliv_bytes e) + Z.to_nat (len - (off + (4 + l))))%nat by (rewrite tliv_length; lia).
      by rewrite take_app_add. }
    split; [done|]. f_equal. rewrite (assoc_L (++)), Ed. unfold adv. by rewrite take_drop.
Qed.

(** The only fault of the loop: an element that starts with fewer than three
    octets of memory left. *)
Lemma decap_loop_fault fuel : forall p off len f, bytes_ok p -> len <= off + Z.of_nat (length p) -> decap_loop fuel p off len = UB f ->
  f = OutOfBounds /\ exists es tail, Forall tliv_ok es /\ (length es < fuel)%nat /\ p = tlivs_bytes es ++ tail /\
    off + Z.of_nat (length (tlivs_bytes es)) < len /\ (length tail < 3)%nat.
Proof.
  induction fuel as [|fuel IH]; intros p off len f Hb Hm E; [done|]. cbn [decap_loop] in E.
  destruct (Z.ltb_spec off len); [|done]. destruct (Nat.lt_ge_cases (length p) 3) as [H3|H3].
  - rewrite ie_l_short in E by done. injection E as <-. split; [done|]. exists [], p. repeat split; cbn; try lia. done.
  - destruct (ie_l_total p Hb H3) as (l & El & Hlb & He). rewrite El in E. osimp.
    destruct (decap_loop fuel (adv p (4 + l)) (off + (4 + l)) len) as [[? ?]|f'] eqn:E'; [done|]. injection E as ->.
    destruct (decide (Z.to_nat (4 + l) <= length p)%nat) as [Hle|Hgt].
    + destruct (IH (adv p (4 + l)) (off + (4 + l)) len f ltac:(by apply Forall_drop) ltac:(rewrite adv_length by lia; lia) E') as (-> & es & tail & Hes & Hn & Ep & Ho & Ht).
      split; [done|]. destruct (He Hle) as (e & Hok & -> & Epe). exists (e :: es), tail. rewrite tlivs_cons, <- (assoc_L (++)), <- Ep.
      split; [by constructor|]. split; [cbn; lia|]. split; [done|]. split; [rewrite length_app, tliv_length; lia|done].
    + destruct fuel as [|fuel]; [done|]. cbn [decap_loop] in E'. destruct (Z.ltb_spec (off + (4 + l)) len); [lia|done].
Qed.

(** The loop reaches such an element. *)
Lemma decap_loop_truncated es : Forall tliv_ok es -> forall fuel tail off len, (length es < fuel)%nat ->
  off + Z.of_nat (length (tlivs_bytes es)) < len -> (length tail < 3)%nat ->
  decap_loop fuel (tlivs_bytes es ++ tail) off len = UB OutOfBounds.
Proof.
  induction 1 as [|e es He Hes IH]; intros [|fuel] tail off len Hf Ho Ht; try (cbn in Hf; lia); cbn [decap_loop].
  - cbn in Ho. destruct (Z.ltb_spec off len); [|lia]. cbn [tlivs_bytes map concat app]. by rewrite ie_l_short.
  - rewrite tlivs_length in Ho. destruct (Z.ltb_spec off len); [|lia].
    rewrite tlivs_cons, <- (assoc_L (++)), ie_l_tliv by done. osimp.
    rewrite (adv_app (tliv_bytes e)) by (rewrite tliv_length; lia). rewrite IH; [done|cbn in Hf; lia|lia|done].
Qed.

(** The octets of the header, and those behind it. *)
Definition header_size (pack : list Z) : Z := if (nth 0 pack 0 .& 0xe8) =? 0x40 then 8 else 12.
Definition packet_body (pack : list Z) (len : Z) : list Z := take (Z.to_nat (len - header_size pack)) (adv pack (header_size pack)).

Lemma decap_loop_length fuel : forall p off len off' ies, decap_loop fuel p off len = Ok (off', ies) -> (length ies <= fuel)%nat.
Proof.
  induction fuel as [|fuel IH]; intros p off len off' ies E; cbn [decap_loop] in E; [by injection E as _ <-|].
  destruct (off <? len); [|injection E as _ <-; cbn; lia].
  apply bind_Ok in E as (l & _ & E). apply bind_Ok in E as ([o i] & E' & E). injection E as _ <-. apply IH in E'. cbn. lia.
Qed.

(** The result: elements that fill the packet exactly. *)
Definition tiles (es : list tliv) (body : list Z) : Prop := Forall tliv_ok es /\ tlivs_bytes es = body.

Lemma tiles_loop es p off len : tiles es (take (Z.to_nat (len - off)) p) -> off <= len <= off + Z.of_nat (length p) -> (length es <= GTPIE_SIZE)%nat ->
  decap_loop GTPIE_SIZE p off len = Ok (len, ptrs es (adv p (len - off))).
Proof.
  intros [Hes Hb] Hl Hn. pose proof (decap_loop_elems es Hes GTPIE_SIZE (adv p (len - off)) off Hn) as E.
  rewrite Hb in E. unfold adv in E at 1. rewrite take_drop, length_take in E.
  by replace (off + Z.of_nat (Z.to_nat (len - off) `min` length p)) with len in E by lia.
Qed.

Section Decap.
Context (pack : list Z) (len : Z) (Hb : bytes_ok pack) (H1 : (1 <= length pack)%nat) (Hl : 0 <= len <= Z.of_nat (length pack)).
#[local] Abbreviation h := (header_size pack).

Lemma decap_run : gtp2ie_decap pack len = (r ← decap_loop GTPIE_SIZE (adv pack h) h len; decap_end r len).
Proof using H1. clear - H1. destruct pack as [|f q]; [cbn in H1; lia|done]. Qed.

Lemma header_size_cases : h = 8 \/ h = 12.
Proof using. clear. unfold header_size. case_bools; lia. Qed.

Lemma adv_body : h <= len -> adv (adv pack h) (len - h) = adv pack len.
Proof using. clear. intros L. pose proof header_size_cases. unfold adv. rewrite drop_drop. f_equal. lia. Qed.

Lemma decap_ok ies : gtp2ie_decap pack len = Ok (0, ies) <->
  h <= len /\ exists es, tiles es (packet_body pack len) /\ (length es < GTPIE_SIZE)%nat /\ ies = ptrs es (adv pack len).
Proof.
  pose proof header_size_cases as Hh. rewrite decap_run. split.
  - intros E. apply bind_Ok in E as ([off' ies'] & E & D). unfold decap_end in D. destruct (Z.eqb_spec off' len) as [->|]; [|done].
    case_decide as Hn; [|done]. injection D as <-.
    destruct (decap_loop_Ok _ (adv pack (header_size pack)) _ _ _ _ ltac:(by apply Forall_drop) E) as [Ho _].
    destruct (decap_loop_exact _ (adv pack h) h len _ ltac:(by apply Forall_drop) ltac:(rewrite adv_length by lia; lia) E) as (es & Hes & Hn' & Et & ->).
    split; [done|]. exists es. rewrite adv_body, ptrs_length in * by done. done.
  - intros [L (es & T & Hn & ->)]. rewrite (tiles_loop es) by (done || rewrite ?adv_length by lia; lia). osimp.
    unfold decap_end. rewrite Z.eqb_refl, decide_True, adv_body by (rewrite ?ptrs_length; done). done.
Qed.

Lemma decap_fault f : gtp2ie_decap pack len = UB f <-> f = OutOfBounds /\ h <= len /\
  ((exists es, tiles es (packet_body pack len) /\ length es = GTPIE_SIZE) \/
   (exists es tail, Forall tliv_ok es /\ (length es < GTPIE_SIZE)%nat /\
      adv pack h = tlivs_bytes es ++ tail /\ h + Z.of_nat (length (tlivs_bytes es)) < len /\ (length tail < 3)%nat)).
Proof.
  pose proof header_size_cases as Hh. rewrite decap_run. split.
  - intros E. destruct (decap_loop GTPIE_SIZE (adv pack h) h len) as [[off' ies']|f'] eqn:El; osimp.
    + unfold decap_end in E. destruct (Z.eqb_spec off' len) as [->|]; [|done]. case_decide as Hn; [done|]. injection E as <-.
      destruct (decap_loop_Ok _ _ _ _ _ _ ltac:(by apply Forall_drop) El) as [Ho _].
      destruct (decap_loop_exact _ (adv pack h) h len _ ltac:(by apply Forall_drop) ltac:(rewrite adv_length by lia; lia) El) as (es & Hes & Hn' & Et & ->).
      rewrite ptrs_length in Hn. split; [done|]. split; [done|]. left. exists es. split; [done|]. lia.
    + injection E as ->. destruct (decap_loop_fault _ (adv pack h) h len _ ltac:(by apply Forall_drop) ltac:(rewrite adv_length by lia; lia) El)
        as (-> & es & tail & Hes & Hn & Ep & Ho & Ht).
      split; [done|]. split; [lia|]. right. exists es, tail. by split_and!.
  - intros (-> & L & [(es & T & Hn)|(es & tail & Hes & Hn & Ep & Ho & Ht)]).
    + rewrite (tiles_loop es) by (done || rewrite ?adv_length by lia; lia). osimp.
      unfold decap_end. rewrite Z.eqb_refl, decide_False by (rewrite ptrs_length; lia). done.
    + rewrite Ep. by rewrite decap_loop_truncated.
Qed.
End Decap.

(** C31: decapsulation is safe and sound for any octets held in memory, with any
    length up to their number, and its result is given exactly:
    - it returns 0 if and only if the octets behind the header are a sequence of
      fewer than 256 complete elements, and the pointers are those elements;
    - it returns EOF otherwise, save for the two cases below;
    - each pointer it stores points into the packet, at an element whose length
      field is in memory;
    - the only undefined behaviour is an access out of bounds, and it happens if
      and only if exactly 256 elements fill the packet (the null pointer is
      stored behind the array) or an element starts in the packet with fewer
      than three octets of the memory left. *)
Theorem gtp_decap_sound pack len : bytes_ok pack -> (1 <= length pack)%nat -> 0 <= len <= Z.of_nat (length pack) ->
  (forall ies, gtp2ie_decap pack len = Ok (0, ies) <->
     header_size pack <= len /\
     exists es, tiles es (packet_body pack len) /\ (length es < GTPIE_SIZE)%nat /\ ies = ptrs es (adv pack len)) /\
  (forall ret ies, gtp2ie_decap pack len = Ok (ret, ies) -> (ret = 0 \/ ret = EOF) /\ (length ies <= GTPIE_SIZE)%nat /\
     forall q, q ∈ ies -> exists k, header_size pack <= k < len /\ q = adv pack k /\ (3 <= length q)%nat) /\
  (forall f, gtp2ie_decap pack len = UB f <-> f = OutOfBounds /\ header_size pack <= len /\
     ((exists es, tiles es (packet_body pack len) /\ length es = GTPIE_SIZE) \/
      (exists es tail, Forall tliv_ok es /\ (length es < GTPIE_SIZE)%nat /\
         adv pack (header_size pack) = tlivs_bytes es ++ tail /\
         header_size pack + Z.of_nat (length (tlivs_bytes es)) < len /\ (length tail < 3)%nat))).
Proof.
  intros Hb H1 Hl. split; [intros ies; by apply decap_ok|]. split; [|intros f; by apply decap_fault].
  intros ret ies E. rewrite decap_run in E by done. apply bind_Ok in E as ([off' ies'] & E & D).
  pose proof (header_size_cases pack) as Hh.
  destruct (decap_loop_Ok _ (adv pack (header_size pack)) _ _ _ _ ltac:(by apply Forall_drop) E) as [_ Hq]. pose proof (decap_loop_length _ _ _ _ _ _ E) as Hn.
  unfold decap_end in D. assert (D' : (ret = 0 \/ ret = EOF) /\ ies = ies') by (clear - D; case_bools; injection D as <- <- || discriminate D; auto).
  destruct D' as [? ->]. split; [done|]. split; [done|]. intros q Hi. destruct (Hq q Hi) as (k & K1 & K2 & -> & K3).
  exists (header_size pack + k). split; [lia|]. split; [|done]. unfold adv. rewrite drop_drop. f_equal. lia.
Qed.

(** A packet of one element (and its memory behind it), one that ends inside of
    an element's header at the end of the memory. *)
Lemma gtp_decap_sound_witness :
  (exists ies, gtp2ie_decap [0x48; 33; 0; 14; 0; 0; 0; 1; 0; 0; 1; 0; 2; 0; 2; 0; 16; 0; 9; 9] 18 = Ok (0, ies) /\ length ies = 1%nat) /\
  gtp2ie_decap [0x48; 33; 0; 14; 0; 0; 0; 1; 0; 0; 1; 0; 2; 0] 14 = UB OutOfBounds.
Proof.
  split.
  - exists (ptrs [Tliv 2 0 [16; 0]] [9; 9]). split; [|reflexivity].
    apply (proj1 (gtp_decap_sound [0x48; 33; 0; 14; 0; 0; 0; 1; 0; 0; 1; 0; 2; 0; 2; 0; 16; 0; 9; 9] 18
      ltac:(repeat constructor; unfold byte_ok; lia) ltac:(cbn; lia) ltac:(cbn; lia))).
    split; [vm_compute; congruence|]. exists [Tliv 2 0 [16; 0]]. split; [|split; [unfold GTPIE_SIZE; cbn; lia|reflexivity]].
    split; [repeat constructor; unfold byte_ok; cbn; lia|reflexivity].
  - apply (proj2 (proj2 (gtp_decap_sound [0x48; 33; 0; 14; 0; 0; 0; 1; 0; 0; 1; 0; 2; 0] 14
      ltac:(repeat constructor; unfold byte_ok; lia) ltac:(cbn; lia) ltac:(cbn; lia)))).
    split; [done|]. split; [vm_compute; congruence|]. right. exists [], [2; 0].
    split; [done|]. split; [unfold GTPIE_SIZE; cbn; lia|]. split; [reflexivity|]. split; [reflexivity|]. cbn. lia.
Defined.

(** a packet with exactly 256 elements writes the terminating null pointer
    behind the end of the array. *)
Theorem gtp_decap_256_overruns es rest type :
  Forall tliv_ok es -> length es = GTPIE_SIZE ->
  let len := 12 + Z.of_nat (length (tlivs_bytes es)) in
  gtp2ie_decap ([0x48; type] ++ be16 (len - 4) ++ repeat 0 8 ++ tlivs_bytes es ++ rest) len = UB OutOfBounds.
Proof.
  intros Hes Hn len. unfold gtp2ie_decap. cbn [app rd]. osimp. rewrite flags_long.
  change (adv _ 12) with (tlivs_bytes es ++ rest).
  unfold len. rewrite decap_loop_elems by (done || lia). osimp. unfold decap_end.
  by rewrite Z.eqb_refl, decide_False by (rewrite ptrs_length; lia).
Qed.

Lemma gtp_decap_256_overruns_witness :
  gtp2ie_decap ([0x48; 33] ++ be16 1032 ++ repeat 0 8 ++ tlivs_bytes (repeat (Tliv 3 0 []) 256) ++ []) 1036 = UB OutOfBounds.
Proof.
  apply (gtp_decap_256_overruns (repeat (Tliv 3 0 []) 256) [] 33).
  - apply Forall_forall. intros e He. apply list_elem_of_In, repeat_spec in He. subst.
    repeat constructor; unfold byte_ok; cbn; lia.
  - reflexivity.
Defined.

(** ** Telephony BCD *)

(** The TBCD octets of a digit string: two digits per octet, low half first,
    with the filler [0xF] behind an odd number of digits. *)
Fixpoint tbcd_of (ds : list Z) : list Z :=
  match ds with
  | [] => []
  | [d] => [d + 0xf0]
  | d1 :: d2 :: ds => (d1 + 16 * d2) :: tbcd_of ds
  end.

(** The number a digit string denotes, from [acc] on. *)
Definition digits_val (acc : Z) (ds : list Z) : Z := fold_left (fun a d => 10 * a + d) ds acc.

Lemma tbcd_step_arith acc b : byte_ok b -> 0 <= acc < 10^14 ->
  tbcd_step acc b = if b / 16 =? 15 then acc * 10 + b mod 16 else acc * 100 + (b mod 16) * 10 + b / 16.
Proof.
  intros Hb Ha. unfold byte_ok in Hb. unfold tbcd_step, wrap64. rewrite land_0f, land_f0.
  rewrite land_0f, Z.shiftr_div_pow2 by lia. change (2^4) with 16.
  destruct (Z.eqb_spec (b mod 256 - b mod 16) 0xf0), (Z.eqb_spec (b / 16) 15); cbn [negb];
    rewrite ?Z.mod_small by lia; lia.
Qed.

Lemma tbcd_fold n : forall ds acc k, (length ds <= n)%nat -> Forall (fun d => 0 <= d < 10) ds ->
  0 <= acc < 10^k -> 0 <= k -> k + Z.of_nat (length ds) <= 16 ->
  fold_left tbcd_step (tbcd_of ds) acc = digits_val acc ds.
Proof.
  induction n as [|n IH]; intros ds acc k Hn Hd Ha Hk Hl.
  - destruct ds; [done|cbn in Hn; lia].
  - destruct ds as [|d1 [|d2 ds]]; [done| |].
    + inversion Hd as [|? ? H1 _]; subst. cbn [length] in Hl. cbn [tbcd_of fold_left digits_val].
      assert (10^k <= 10^15) by (apply Z.pow_le_mono_r; lia).
      unfold digits_val. cbn [fold_left]. unfold tbcd_step, wrap64.
      rewrite land_0f, land_f0.
      destruct (Z.eqb_spec ((d1 + 240) mod 256 - (d1 + 240) mod 16) 0xf0); [|lia]. cbn [negb].
      rewrite (Z.mod_small (acc * 10)) by lia. rewrite Z.mod_small by lia. lia.
    + inversion Hd as [|? ? H1 Hd1]; subst. inversion Hd1 as [|? ? H2 Hd2]; subst.
      cbn [length] in Hl, Hn. cbn [tbcd_of fold_left]. unfold digits_val. cbn [fold_left].
      assert (10^k <= 10^14) by (apply Z.pow_le_mono_r; lia).
      rewrite tbcd_step_arith by (unfold byte_ok; lia).
      destruct (Z.eqb_spec ((d1 + 16 * d2) / 16) 15); [lia|].
      replace (acc * 100 + (d1 + 16 * d2) mod 16 * 10 + (d1 + 16 * d2) / 16)
        with (10 * (10 * acc + d1) + d2) by lia.
      apply (IH ds _ (k + 2)); [lia|done| |lia|lia].
      rewrite Z.pow_add_r by lia. change (10^2) with 100. lia.
Qed.

Lemma tbcd_of_length n : forall ds, (length ds <= 2 * n)%nat -> (length (tbcd_of ds) <= n)%nat.
Proof.
  induction n as [|n IH]; intros ds Hl; [destruct ds; cbn in *; lia|].
  destruct ds as [|d1 [|d2 ds]]; cbn in *; try lia. specialize (IH ds ltac:(lia)). lia.
Qed.

(** [tbcd2dec] reads a telephony BCD number: for every string of up to 16
    digits (an IMSI has up to 15), packed two per octet with the filler behind
    an odd number of them, it returns the number the digits denote. *)
Theorem tbcd2dec_correct ds rest : (length ds <= 16)%nat -> Forall (fun d => 0 <= d < 10) ds ->
  tbcd2dec (tbcd_of ds ++ rest) (Z.of_nat (length (tbcd_of ds))) = Ok (digits_val 0 ds).
Proof.
  intros Hl Hd. unfold tbcd2dec. pose proof (tbcd_of_length 8 ds Hl).
  destruct (Z.ltb_spec 8 (Z.of_nat (length (tbcd_of ds)))); [lia|].
  rewrite rdn_app by done. osimp. f_equal. apply (tbcd_fold 16 ds 0 0); try done; lia.
Qed.

Lemma tbcd2dec_correct_witness :
  tbcd2dec [0x42; 0x24; 0x31; 0xf5] 4 = Ok 2442135.
Proof.
  apply (tbcd2dec_correct [2; 4; 4; 2; 1; 3; 5] []); [cbn; lia|repeat constructor; lia].
Defined.

Lemma dec2tbcd_loop_fold n : (n <= 7)%nat -> forall y, 0 <= y ->
  fold_left tbcd_step (dec2tbcd_loop n y) 0 = y mod 100 ^ Z.of_nat n.
Proof.
  induction n as [|n IH]; intros Hn y Hy; [cbn; lia|]. cbn [dec2tbcd_loop].
  rewrite fold_left_app, IH by lia. cbn [fold_left].
  rewrite Z.shiftl_mul_pow2, wrap8_id by lia. change (2^4) with 16.
  assert (100 ^ Z.of_nat n <= 100 ^ 6) by (apply Z.pow_le_mono_r; lia).
  assert (0 < 100 ^ Z.of_nat n) by (apply Z.pow_pos_nonneg; lia).
  pose proof (Z.mod_pos_bound (y / 100) (100 ^ Z.of_nat n) ltac:(lia)).
  rewrite tbcd_step_arith by (unfold byte_ok; lia).
  destruct (Z.eqb_spec ((y mod 100 mod 10 * 16 + y mod 100 / 10) / 16) 15); [lia|].
  rewrite Nat2Z.inj_succ, Z.pow_succ_r by lia. rewrite (Z.rem_mul_r y 100) by lia. lia.
Qed.

(** the encoder drops the last digit: for every number, reading back what
    [dec2tbcd] wrote gives the number with its last digit replaced by two
    zeros (and only the 14 digits in front of it), because the last octet is
    masked with [& 0xF0] instead of being filled with [| 0xF0]. *)
Theorem dec2tbcd_loses_last_digit x : 0 <= x ->
  tbcd2dec (dec2tbcd x) 8 = Ok ((x / 10) mod 10^14 * 100).
Proof.
  intros Hx. unfold tbcd2dec, dec2tbcd. cbn [Z.ltb Z.compare].
  rewrite <- (app_nil_r (dec2tbcd_loop 7 (x / 10) ++ _)), rdn_app.
  - osimp. f_equal. rewrite fold_left_app, dec2tbcd_loop_fold by lia. cbn [fold_left].
    change (100 ^ Z.of_nat 7) with (10^14). rewrite tbcd_step_arith.
    + rewrite land_f0. destruct (Z.eqb_spec (((x mod 10) mod 256 - (x mod 10) mod 16) / 16) 15); lia.
    + unfold byte_ok. rewrite land_f0. lia.
    + lia.
  - rewrite length_app. done.
Qed.

Lemma dec2tbcd_loses_last_digit_witness : tbcd2dec (dec2tbcd 244123456789013) 8 = Ok 2441234567890100.
Proof. rewrite dec2tbcd_loses_last_digit; [reflexivity|lia]. Defined.
