(* ===== verification/MMEUtils.v ===== *)
(** Identities of networks and base stations (src/mme/MMEutils.c): the PLMN in
    telephony BCD, the Global eNB identity, and their use as hash table keys. *)
From S2P Require Import Prelude.

(** [mme_PLMN]: the array [tbcd[3]]. *)
Record mme_PLMN := PLMN { tbcd0 : Z; tbcd1 : Z; tbcd2 : Z }.
Definition plmn_ok (p : mme_PLMN) : Prop := byte_ok (tbcd0 p) /\ byte_ok (tbcd1 p) /\ byte_ok (tbcd2 p).

Record mme_GlobaleNBid := { g_plmn : mme_PLMN; g_macroId : bool; g_eNBid : Z (* 28 bits *) }.

#[export] Instance mme_PLMN_eq_dec : EqDecision mme_PLMN.
Proof. solve_decision. Defined.
#[export] Instance mme_GlobaleNBid_eq_dec : EqDecision mme_GlobaleNBid.
Proof. solve_decision. Defined.

Definition plmn_FillFromTBCD (tbcd : list Z) : outcome mme_PLMN :=
  b ← rdn tbcd 3; Ok (PLMN (nth 0 b 0) (nth 1 b 0) (nth 2 b 0)).

Definition plmn_FillFromMCCMNCs (mcc mnc : Z) : mme_PLMN :=
  let t0 := wrap8 ((((mcc mod 100) / 10) << 4) .| (mcc / 100)) in
  let t1 := wrap8 (mcc mod 10) in
  if mnc / 100 =? 0
  then PLMN t0 (t1 .| 0xf0) (wrap8 ((mnc / 10) .| ((mnc mod 10) << 4)))
  else PLMN t0 (wrap8 (t1 .| ((mnc mod 10) << 4)))
            (wrap8 ((((mnc mod 100) / 10) << 4) .| (mnc / 100))).

Definition plmn_Equal (a b : mme_PLMN) : bool :=
  (tbcd0 a =? tbcd0 b) && (tbcd1 a =? tbcd1 b) && (tbcd2 a =? tbcd2 b).

(** The seven octets of the character array, its terminator included. *)
Definition plmn_FillPLMNFromTBCD (t : mme_PLMN) : list Z :=
  let d0 := 0x30 + lo4 (tbcd0 t) in let d1 := 0x30 + hi4 (tbcd0 t) in
  let d2 := 0x30 + lo4 (tbcd1 t) in let d3 := 0x30 + hi4 (tbcd1 t) in
  let d4 := 0x30 + lo4 (tbcd2 t) in let d5 := 0x30 + hi4 (tbcd2 t) in
  if (tbcd1 t .& 0xf0) =? 0xf0 then [d0; d1; d2; d4; d5; 0; 0] else [d0; d1; d2; d3; d4; d5; 0].

(** The choice of the eNB identity in the S1AP message. *)
Inductive eNBid_choice := macroENB_ID (id : Z) | homeENB_ID (id : Z).

Definition globaleNBID_Fill (plmn : list Z) (eNBid : eNBid_choice) : outcome mme_GlobaleNBid :=
  p ← plmn_FillFromTBCD plmn;
  Ok match eNBid with
     | macroENB_ID id => {| g_plmn := p; g_macroId := true; g_eNBid := wrap32 (id << 4) mod 2^28 |}
     | homeENB_ID id => {| g_plmn := p; g_macroId := false; g_eNBid := wrap32 (id << 12) mod 2^28 |}
     end.

Definition globaleNBID_copy (i : mme_GlobaleNBid) : mme_GlobaleNBid :=
  {| g_plmn := PLMN (tbcd0 (g_plmn i)) (tbcd1 (g_plmn i)) (tbcd2 (g_plmn i));
     g_macroId := g_macroId i; g_eNBid := g_eNBid i |}.

Definition globaleNB_getMCC (g : mme_GlobaleNBid) : Z :=
  (tbcd0 (g_plmn g) .& 0x0f) * 100 + (tbcd0 (g_plmn g) >> 4) * 10 + (tbcd1 (g_plmn g) .& 0x0f).

Definition globaleNB_getMNC (g : mme_GlobaleNBid) : Z :=
  let t1 := tbcd1 (g_plmn g) in let t2 := tbcd2 (g_plmn g) in
  if (t1 >> 4) =? 0xf then (t2 .& 0x0f) * 10 + (t2 >> 4)
  else (t1 >> 4) * 100 + (t2 .& 0x0f) * 10 + (t2 >> 4).

Definition globaleNB_getCI (g : mme_GlobaleNBid) : Z := g_eNBid g.

Definition globaleNBID_Equal (a b : mme_GlobaleNBid) : bool :=
  plmn_Equal (g_plmn a) (g_plmn b) && Bool.eqb (g_macroId a) (g_macroId b) && (g_eNBid a =? g_eNBid b).

(** GLib's [g_int_hash] is a parameter. *)
Section Hash.
Context (g_int_hash : Z -> Z).

Definition plmn_Hash (k : mme_PLMN) : Z :=
  g_int_hash (((tbcd2 k * 10000) .& (tbcd1 k * 100)) .& tbcd0 k).
Definition globaleNBID_Hash (k : mme_GlobaleNBid) : Z :=
  plmn_Hash (g_plmn k) .^ g_int_hash (g_eNBid k).
End Hash.

(** ** Properties *)

Lemma lor_nibble hi lo : 0 <= hi < 16 -> 0 <= lo < 16 -> wrap8 ((hi << 4) .| lo) = 16 * hi + lo.
Proof.
  intros. rewrite Z.shiftl_mul_pow2, (lor_disjoint_add _ _ 4) by lia.
  rewrite wrap8_id; change (2^4) with 16; lia.
Qed.

(** The three octets in arithmetic form. *)
Lemma plmn_octets mcc mnc : 0 <= mcc < 1000 -> 0 <= mnc < 1000 ->
  plmn_FillFromMCCMNCs mcc mnc =
  if mnc <? 100
  then PLMN (16 * (mcc / 10 mod 10) + mcc / 100) (16 * 15 + mcc mod 10) (16 * (mnc mod 10) + mnc / 10)
  else PLMN (16 * (mcc / 10 mod 10) + mcc / 100) (16 * (mnc mod 10) + mcc mod 10)
            (16 * (mnc / 10 mod 10) + mnc / 100).
Proof.
  intros Hc Hn. unfold plmn_FillFromMCCMNCs. rewrite lor_nibble, (wrap8_id (mcc mod 10)) by lia.
  destruct (Z.eqb_spec (mnc / 100) 0), (Z.ltb_spec mnc 100); try lia.
  - f_equal; [lia| |].
    + change 0xf0 with (15 << 4). rewrite Z.lor_comm. rewrite <- (lor_nibble 15 (mcc mod 10)) by lia.
      rewrite wrap8_id; [done|]. rewrite Z.shiftl_mul_pow2, (lor_disjoint_add _ _ 4) by lia. lia.
    + rewrite Z.lor_comm. apply lor_nibble; lia.
  - f_equal; [lia| |].
    + rewrite Z.lor_comm. apply lor_nibble; lia.
    + rewrite lor_nibble by lia. lia.
Qed.

Lemma nibble_parts hi lo : 0 <= hi < 16 -> 0 <= lo < 16 ->
  Z.land (16 * hi + lo) 0x0f = lo /\ Z.shiftr (16 * hi + lo) 4 = hi.
Proof. intros. rewrite land_0f, Z.shiftr_div_pow2 by lia. change (2^4) with 16. lia. Qed.

(** encoding a mobile country and network code in TBCD and reading them
    back: the country code always survives; a network code of two digits does,
    and one of three digits [d1 d2 d3] comes back as [d3 d1 d2], because the
    reader takes the third digit (kept next to the country code) as hundreds. *)
Theorem plmn_codes_roundtrip mcc mnc macro ci : 0 <= mcc < 1000 -> 0 <= mnc < 1000 ->
  let g := {| g_plmn := plmn_FillFromMCCMNCs mcc mnc; g_macroId := macro; g_eNBid := ci |} in
  globaleNB_getMCC g = mcc /\
  globaleNB_getMNC g = if mnc <? 100 then mnc else (mnc mod 10) * 100 + mnc / 10.
Proof.
  intros Hc Hn g. unfold globaleNB_getMCC, globaleNB_getMNC, g. cbn [g_plmn].
  rewrite plmn_octets by done.
  destruct (nibble_parts (mcc / 10 mod 10) (mcc / 100)) as [A1 A2]; [lia|lia|].
  destruct (Z.ltb_spec mnc 100); cbn [tbcd0 tbcd1 tbcd2]; rewrite A1, A2.
  - destruct (nibble_parts 15 (mcc mod 10)) as [B1 B2]; [lia|lia|].
    destruct (nibble_parts (mnc mod 10) (mnc / 10)) as [C1 C2]; [lia|lia|].
    rewrite B1, B2, C1, C2. cbn [Z.eqb Pos.eqb]. lia.
  - destruct (nibble_parts (mnc mod 10) (mcc mod 10)) as [B1 B2]; [lia|lia|].
    destruct (nibble_parts (mnc / 10 mod 10) (mnc / 100)) as [C1 C2]; [lia|lia|].
    rewrite B1, B2, C1, C2. destruct (Z.eqb_spec (mnc mod 10) 15); lia.
Qed.

Lemma plmn_codes_roundtrip_witness :
  globaleNB_getMNC {| g_plmn := plmn_FillFromMCCMNCs 244 123; g_macroId := true; g_eNBid := 0 |} = 312.
Proof. exact (proj2 (plmn_codes_roundtrip 244 123 true 0 ltac:(lia) ltac:(lia))). Defined.

Lemma plmn_Equal_spec a b : plmn_Equal a b = true <-> a = b.
Proof.
  unfold plmn_Equal. destruct a, b; cbn. rewrite !andb_true_iff, !Z.eqb_eq. naive_solver.
Qed.

(** the Global eNB identity is a correct hash table key: two keys are
    equal for the table exactly when they are the same network, kind and
    identity, equal keys have equal hashes for any [g_int_hash], and a copy is
    found under the key of the original. *)
Theorem globaleNBID_key (g_int_hash : Z -> Z) a b :
  (globaleNBID_Equal a b = true <-> a = b) /\
  (globaleNBID_Equal a b = true -> globaleNBID_Hash g_int_hash a = globaleNBID_Hash g_int_hash b) /\
  globaleNBID_Equal a (globaleNBID_copy a) = true.
Proof.
  assert (H : forall a b, globaleNBID_Equal a b = true <-> a = b).
  { intros [p m i] [p' m' i']. unfold globaleNBID_Equal. cbn.
    rewrite !andb_true_iff, plmn_Equal_spec, eqb_true_iff, Z.eqb_eq. naive_solver. }
  split_and!; [apply H|intros ->%H; done|]. apply H. by destruct a as [[] ? ?].
Qed.

(** the stored identity of a macro eNB determines its 20-bit identity; of
    the 28 bits of a home eNB only the low 16 are kept, so that two home eNBs
    of the same network that differ above them share one table entry. *)
Theorem eNB_identity_kept p x y : 
  (0 <= x < 2^20 -> 0 <= y < 2^20 ->
   globaleNBID_Fill p (macroENB_ID x) = globaleNBID_Fill p (macroENB_ID y) -> is_Ok (plmn_FillFromTBCD p) -> x = y) /\
  (0 <= x < 2^28 -> 0 <= y < 2^28 -> x mod 2^16 = y mod 2^16 ->
   globaleNBID_Fill p (homeENB_ID x) = globaleNBID_Fill p (homeENB_ID y)).
Proof.
  unfold globaleNBID_Fill. split.
  - intros Hx Hy E [q Hq]. rewrite Hq in E. osimp. rewrite !Z.shiftl_mul_pow2 in E by lia.
    unfold wrap32 in E. injection E as E. lia.
  - intros Hx Hy E. destruct (plmn_FillFromTBCD p); osimp; [|done].
    rewrite !Z.shiftl_mul_pow2 by lia. unfold wrap32. do 2 f_equal. lia.
Qed.

Lemma eNB_identity_kept_witness :
  globaleNBID_Fill [0x42; 0xf4; 0x10] (homeENB_ID 0x0010001) = globaleNBID_Fill [0x42; 0xf4; 0x10] (homeENB_ID 0x0020001).
Proof.
  apply (eNB_identity_kept [0x42; 0xf4; 0x10] 0x0010001 0x0020001); [lia|lia|reflexivity].
Defined.
