(* ===== verification/Timer.v ===== *)
(** The timer manager (src/Common/timermgr.c): timers that retransmit a bounded
    number of times.  A timer is identified by the address [g_new0] returned
    for it (a natural number that is never reused while the manager lives);
    the table [tm->timers] is a finite map and the libevent loop is the
    sequence of the events that fire.  The callbacks are code of the clients:
    what they do to the manager is the parameter [callback], and every call is
    recorded in [tm_log]. *)
From stdpp Require Import relations fin_maps.
From S2P Require Import Prelude.

Record timeval := { tv_sec : Z; tv_usec : Z }.

(** [Timer_t]; [cb_maxTo] and [cb_free] may be null. *)
Record Timer_t := {
  t_tv : timeval;
  t_max_rtx : Z;
  t_rtx : Z;
  t_maxTo : bool;
  t_free : bool;
}.

Inductive cb_kind := Cb_to | Cb_maxTo | Cb_free.

#[export] Instance cb_kind_eq_dec : EqDecision cb_kind.
Proof. solve_decision. Defined.

(** [TimerMgr_t], the next free address and the record of the callbacks. *)
Record TimerMgr_t := {
  timers : gmap nat Timer_t;
  tm_next : nat;
  tm_log : list (cb_kind * nat);
}.

Definition with_timers (m : TimerMgr_t) (ts : gmap nat Timer_t) : TimerMgr_t :=
  {| timers := ts; tm_next := tm_next m; tm_log := tm_log m |}.
Definition log_cb (m : TimerMgr_t) (k : cb_kind) (t : nat) : TimerMgr_t :=
  {| timers := timers m; tm_next := tm_next m; tm_log := tm_log m ++ [(k, t)] |}.
Definition set_rtx (x : Timer_t) (r : Z) : Timer_t :=
  {| t_tv := t_tv x; t_max_rtx := t_max_rtx x; t_rtx := r; t_maxTo := t_maxTo x; t_free := t_free x |}.

Definition init_timerMgr : TimerMgr_t := {| timers := ∅; tm_next := 0; tm_log := [] |}.

(** [tm_add_timer]: [None] is the null pointer. *)
Definition tm_add_timer (m : TimerMgr_t) (tv : option timeval) (max_rtx : Z)
    (cb_to cb_maxTo cb_free : bool) : option nat * TimerMgr_t :=
  match tv with
  | None => (None, m)
  | Some tv =>
    if negb cb_to then (None, m)
    else if (tv_sec tv =? 0) && (tv_usec tv =? 0) then (None, m)
    else if max_rtx <? 1 then (None, m)
    else
      let t := tm_next m in
      (Some t,
       {| timers := <[t := {| t_tv := tv; t_max_rtx := max_rtx; t_rtx := 0;
                              t_maxTo := cb_maxTo; t_free := cb_free |}]> (timers m);
          tm_next := S t; tm_log := tm_log m |})
  end.

Section Manager.
(** What a callback does to the manager. *)
Context (callback : cb_kind -> nat -> TimerMgr_t -> TimerMgr_t).

Definition call (k : cb_kind) (t : nat) (m : TimerMgr_t) : TimerMgr_t := callback k t (log_cb m k t).

(** [free_timer], the destroy function of the table. *)
Definition free_timer (t : nat) (x : Timer_t) (m : TimerMgr_t) : TimerMgr_t :=
  if t_free x then call Cb_free t m else m.

(** [tm_stop_timer] of a non-null pointer: a timer that is not in the table
    was freed before. *)
Definition tm_stop_timer (t : nat) (m : TimerMgr_t) : outcome TimerMgr_t :=
  match timers m !! t with
  | None => UB OutOfBounds
  | Some x => Ok (free_timer t x (with_timers m (delete t (timers m))))
  end.

(** [timer_cb], called by the event loop when the timer expires. *)
Definition timer_cb (t : nat) (m : TimerMgr_t) : outcome TimerMgr_t :=
  match timers m !! t with
  | None => UB OutOfBounds
  | Some x =>
    let x := set_rtx x (wrap32 (t_rtx x + 1)) in
    let m := with_timers m (<[t := x]> (timers m)) in
    if t_rtx x <=? t_max_rtx x then
      let m := call Cb_to t m in
      let timerExists := bool_decide (is_Some (timers m !! t)) in
      if negb (t_maxTo x) && (t_rtx x =? t_max_rtx x) && timerExists
      then tm_stop_timer t m
      else Ok m
    else
      if negb (t_maxTo x) then UB NullCall
      else
        let m := call Cb_maxTo t m in
        if bool_decide (is_Some (timers m !! t)) then tm_stop_timer t m else Ok m
  end.

(** [n] expirations of timer [t]; the loop only fires timers that exist. *)
Fixpoint fire (n : nat) (t : nat) (m : TimerMgr_t) : outcome TimerMgr_t :=
  match n with
  | O => Ok m
  | S n => m ← fire n t m; if bool_decide (is_Some (timers m !! t)) then timer_cb t m else Ok m
  end.

(** ** Invariant *)

Definition timer_ok (x : Timer_t) : Prop :=
  1 <= t_max_rtx x < 2^32 - 1 /\ 0 <= t_rtx x <= t_max_rtx x /\ (t_maxTo x = false -> t_rtx x < t_max_rtx x).
Definition mgr_ok (m : TimerMgr_t) : Prop := map_Forall (fun _ x => timer_ok x) (timers m).

(** Callbacks use the interface: they stop timers and add new ones but do not
    write into the timers themselves. *)
Definition callback_ok : Prop := forall k t m i x,
  timers (callback k t m) !! i = Some x -> timers m !! i = Some x \/ timer_ok x /\ t_rtx x = 0 /\ timers m !! i = None.

Lemma mgr_ok_call (Hcb : callback_ok) k t m : mgr_ok m -> mgr_ok (call k t m).
Proof.
  intros H i x Hx. unfold call in Hx. apply Hcb in Hx as [Hx|(Hx & _)]; [|done]. exact (H i x Hx).
Qed.

Lemma mgr_ok_stop (Hcb : callback_ok) t m m' : mgr_ok m -> tm_stop_timer t m = Ok m' -> mgr_ok m'.
Proof.
  intros H. unfold tm_stop_timer. destruct (timers m !! t) as [x|] eqn:E; [|done]. intros [= <-].
  assert (H' : mgr_ok (with_timers m (delete t (timers m)))).
  { intros i y Hy. cbn in Hy. apply lookup_delete_Some in Hy as [_ Hy]. exact (H i y Hy). }
  unfold free_timer. destruct (t_free x); [by apply mgr_ok_call|done].
Qed.

(** A timer that is still there after its callback is the one that expired. *)
Lemma after_call (Hcb : callback_ok) k t m x y : timers m !! t = Some x ->
  timers (call k t m) !! t = Some y -> y = x.
Proof.
  intros Hx Hy. unfold call in Hy. apply Hcb in Hy as [Hy|(_ & _ & Hy)]; cbn in Hy; congruence.
Qed.

Lemma timer_cb_ok (Hcb : callback_ok) t m : mgr_ok m -> is_Some (timers m !! t) ->
  exists m', timer_cb t m = Ok m' /\ mgr_ok m'.
Proof.
  intros H [x Hx]. pose proof (H t x Hx) as (Hm & Hr & Hn). unfold timer_cb. rewrite Hx.
  rewrite wrap32_id by lia. set (x' := set_rtx x (t_rtx x + 1)).
  set (m1 := with_timers m (<[t := x']> (timers m))).
  assert (Hx' : timers m1 !! t = Some x') by apply lookup_insert_eq.
  assert (Hother : forall i y, i <> t -> timers m1 !! i = Some y -> timer_ok y).
  { intros i y Hi Hy. cbn in Hy. rewrite lookup_insert_ne in Hy by done. exact (H i y Hy). }
  assert (Hstop : forall k m2, m2 = call k t m1 -> is_Some (timers m2 !! t) ->
    exists m3, tm_stop_timer t m2 = Ok m3 /\ mgr_ok m3).
  { intros k m2 -> [y Hy]. unfold tm_stop_timer. rewrite Hy. eexists. split; [done|].
    assert (Hd : mgr_ok (with_timers (call k t m1) (delete t (timers (call k t m1))))).
    { intros i z Hz. cbn in Hz. apply lookup_delete_Some in Hz as [Hi Hz].
      apply Hcb in Hz as [Hz|(Hz & _)]; [|done]. by apply (Hother i). }
    unfold free_timer. destruct (t_free y); [by apply mgr_ok_call|done]. }
  assert (Hgone : forall k, timers (call k t m1) !! t = None -> mgr_ok (call k t m1)).
  { intros k Hg i z Hz. destruct (decide (i = t)) as [->|Hi]; [congruence|].
    apply Hcb in Hz as [Hz|(Hz & _)]; [|done]. by apply (Hother i). }
  cbn [t_rtx t_max_rtx t_maxTo x' set_rtx].
  destruct (Z.leb_spec (t_rtx x + 1) (t_max_rtx x)).
  - case_bool_decide as He; cbn [andb].
    + destruct (negb (t_maxTo x) && (t_rtx x + 1 =? t_max_rtx x)) eqn:El; cbn [andb].
      * by apply (Hstop Cb_to).
      * eexists. split; [done|]. intros i z Hz. destruct (decide (i = t)) as [->|Hi].
        -- apply (after_call Hcb _ _ _ _ _ Hx') in Hz as ->. split_and!; cbn; try lia.
           intros Hf. rewrite Hf in El. cbn in El. lia.
        -- apply Hcb in Hz as [Hz|(Hz & _)]; [|done]. by apply (Hother i).
    + rewrite andb_false_r. eexists. split; [done|]. apply Hgone. by apply eq_None_not_Some.
  - destruct (t_maxTo x) eqn:Et; cbn [negb]; [|specialize (Hn eq_refl); lia].
    case_bool_decide as He; [by apply (Hstop Cb_maxTo)|].
    eexists. split; [done|]. apply Hgone. by apply eq_None_not_Some.
Qed.

(** What the program does with the manager: add a timer, stop a live one, or
    let a live one expire. *)
Inductive tm_step (m : TimerMgr_t) : TimerMgr_t -> Prop :=
  | step_add tv max_rtx a b c : max_rtx < 2^32 - 1 ->
      tm_step m (tm_add_timer m tv max_rtx a b c).2
  | step_stop t m' : is_Some (timers m !! t) -> tm_stop_timer t m = Ok m' -> tm_step m m'
  | step_fire t m' : is_Some (timers m !! t) -> timer_cb t m = Ok m' -> tm_step m m'.

Lemma mgr_ok_add m tv max_rtx a b c : mgr_ok m -> max_rtx < 2^32 - 1 ->
  mgr_ok (tm_add_timer m tv max_rtx a b c).2.
Proof.
  intros H Hm. unfold tm_add_timer. destruct tv as [tv|]; [|done].
  destruct (negb a); [done|]. destruct (_ && _); [done|]. destruct (Z.ltb_spec max_rtx 1); [done|].
  apply map_Forall_insert_2; [|exact H]. unfold timer_ok. cbn. split_and!; lia.
Qed.

(** C33: safety of the manager: in every state reachable from the initial one
    by adding, stopping and expiring timers, with any callbacks that stop and
    add timers, each timer has been retransmitted at most its maximum number
    of times, and the expiration of any live timer runs to completion: the
    null [cb_maxTo] is never called and a freed timer is never touched. *)
Theorem timers_safe m : callback_ok -> rtc tm_step init_timerMgr m ->
  mgr_ok m /\ forall t, is_Some (timers m !! t) -> exists m', timer_cb t m = Ok m' /\ mgr_ok m'.
Proof.
  intros Hcb Hr. assert (H : mgr_ok m).
  { remember init_timerMgr as m0. assert (H0 : mgr_ok m0) by (subst; apply map_Forall_empty).
    clear Heqm0. induction Hr as [|m0 m1 m2 Hs Hr IH]; [done|]. apply IH.
    destruct Hs as [tv mx a b c Hm|t m1 Hl E|t m1 Hl E].
    - by apply mgr_ok_add.
    - by eapply mgr_ok_stop.
    - destruct (timer_cb_ok Hcb t m0 H0 Hl) as (m' & E' & Hok).
      rewrite E in E'. by injection E' as ->. }
  split; [done|]. intros t Hl. by apply timer_cb_ok.
Qed.
End Manager.

(** ** The life of a timer *)

Section Life.
(** Callbacks that leave the manager alone. *)
Definition inert : cb_kind -> nat -> TimerMgr_t -> TimerMgr_t := fun _ _ m => m.

Context (m : TimerMgr_t) (tv : timeval) (n : nat) (b c : bool).
Context (Htv : (tv_sec tv =? 0) && (tv_usec tv =? 0) = false) (Hn : (1 <= n)%nat) (Hn2 : Z.of_nat n < 2^32 - 1).
Let t := tm_next m.
Let x (r : Z) : Timer_t := {| t_tv := tv; t_max_rtx := Z.of_nat n; t_rtx := r; t_maxTo := b; t_free := c |}.
Let m0 := (tm_add_timer m (Some tv) (Z.of_nat n) true b c).2.

Lemma add_state : m0 = {| timers := <[t := x 0]> (timers m); tm_next := S t; tm_log := tm_log m |}.
Proof.
  unfold m0, tm_add_timer. rewrite Htv. cbn [negb]. by destruct (Z.ltb_spec (Z.of_nat n) 1); [lia|].
Qed.

(** After [k] expirations, while the timer lives. *)
Lemma fire_state k : (k <= n)%nat -> (b = false -> (k < n)%nat) ->
  fire inert k t m0 = Ok {| timers := <[t := x (Z.of_nat k)]> (timers m); tm_next := S t;
                            tm_log := tm_log m ++ repeat (Cb_to, t) k |}.
Proof.
  induction k as [|k IH]; intros Hk Hb; cbn [fire].
  - rewrite add_state. cbn [repeat]. by rewrite app_nil_r.
  - rewrite IH by (intros; try specialize (Hb ltac:(done)); lia). osimp. cbn [timers].
    rewrite lookup_insert_eq, bool_decide_true by done. unfold timer_cb. cbn [timers].
    rewrite lookup_insert_eq. cbn [t_rtx t_max_rtx t_maxTo x set_rtx].
    rewrite wrap32_id by lia. destruct (Z.leb_spec (Z.of_nat k + 1) (Z.of_nat n)); [|lia].
    assert (El : negb b && (Z.of_nat k + 1 =? Z.of_nat n) = false).
    { destruct b; [done|]. specialize (Hb eq_refl). cbn. lia. }
    rewrite El. cbn [andb]. unfold call, inert, log_cb, with_timers. cbn [timers tm_next tm_log].
    rewrite insert_insert_eq, <- app_assoc. replace (repeat (Cb_to, t) k ++ [(Cb_to, t)]) with (repeat (Cb_to, t) (S k)).
    + do 3 f_equal. unfold x, set_rtx. cbn. f_equal. lia.
    + by rewrite <- repeat_cons.
Qed.

(** The last expiration. *)
Definition final_state : TimerMgr_t :=
  {| timers := delete t (timers m); tm_next := S t;
     tm_log := tm_log m ++ repeat (Cb_to, t) n ++ (if b then [(Cb_maxTo, t)] else []) ++
               (if c then [(Cb_free, t)] else []) |}.

Lemma stop_final k l : tm_stop_timer inert t
    {| timers := <[t := x k]> (timers m); tm_next := S t; tm_log := l |} =
  Ok {| timers := delete t (timers m); tm_next := S t; tm_log := l ++ (if c then [(Cb_free, t)] else []) |}.
Proof.
  unfold tm_stop_timer. cbn [timers]. rewrite lookup_insert_eq. unfold free_timer, call, inert, log_cb, with_timers.
  cbn [t_free x timers tm_next tm_log]. rewrite delete_insert_eq. destruct c; [done|]. by rewrite app_nil_r.
Qed.

Lemma fire_last : fire inert (if b then S n else n) t m0 = Ok final_state.
Proof.
  assert (G : forall k, (k <= n)%nat -> (b = false -> (k < n)%nat) -> (if b then k = n else S k = n) ->
     fire inert (S k) t m0 = Ok final_state).
  { intros k Hk Hb Hlast. cbn [fire]. rewrite fire_state by done. osimp. cbn [timers].
    rewrite lookup_insert_eq, bool_decide_true by done. unfold timer_cb. cbn [timers].
    rewrite lookup_insert_eq. cbn [t_rtx t_max_rtx t_maxTo x set_rtx].
    rewrite wrap32_id by lia. unfold call, inert, log_cb, with_timers. cbn [timers tm_next tm_log].
    rewrite insert_insert_eq, !lookup_insert_eq, !bool_decide_true by done. rewrite <- app_assoc.
    fold (x (Z.of_nat k + 1)). change (set_rtx (x (Z.of_nat k)) (Z.of_nat k + 1)) with (x (Z.of_nat k + 1)).
    assert (Eb : b = true \/ b = false) by (clear; by destruct b; auto).
    destruct Eb as [Eb|Eb]; rewrite Eb in Hlast |- *; cbn [negb andb].
    - destruct (Z.leb_spec (Z.of_nat k + 1) (Z.of_nat n)); [lia|].
      rewrite stop_final. unfold final_state. rewrite Eb, Hlast, <- !app_assoc. done.
    - destruct (Z.leb_spec (Z.of_nat k + 1) (Z.of_nat n)); [|lia].
      destruct (Z.eqb_spec (Z.of_nat k + 1) (Z.of_nat n)); [|lia]. cbn [andb].
      rewrite stop_final. unfold final_state. rewrite Eb, <- Hlast, <- !app_assoc.
      replace (repeat (Cb_to, t) (S k)) with (repeat (Cb_to, t) k ++ [(Cb_to, t)]) by (by rewrite <- repeat_cons).
      by rewrite <- !app_assoc. }
  assert (Eb : b = true \/ b = false) by (clear; by destruct b; auto).
  destruct Eb as [Eb|Eb]; rewrite Eb.
  - apply G; [lia|congruence|by rewrite Eb].
  - replace n with (S (n - 1)) at 1 by lia. apply G; [lia|lia|rewrite Eb; lia].
Qed.
End Life.

(** C34: the life of a timer whose callbacks do not touch the manager: however
    often its event fires, [cb_to] is called exactly [max_rtx] times, then
    [cb_maxTo] exactly once if there is one, then [cb_free] exactly once if
    there is one, after which the timer is gone, the other timers are as they
    were and nothing is called any more. *)
Theorem timer_life m tv n b c k :
  (tv_sec tv =? 0) && (tv_usec tv =? 0) = false -> (1 <= n)%nat -> Z.of_nat n < 2^32 - 1 ->
  (S n <= k)%nat ->
  let '(t, m0) := tm_add_timer m (Some tv) (Z.of_nat n) true b c in
  t = Some (tm_next m) /\
  exists m', fire inert k (tm_next m) m0 = Ok m' /\ timers m' = delete (tm_next m) (timers m) /\
    tm_log m' = tm_log m ++ repeat (Cb_to, tm_next m) n ++
      (if b then [(Cb_maxTo, tm_next m)] else []) ++ (if c then [(Cb_free, tm_next m)] else []).
Proof.
  intros Htv Hn Hn2 Hk.
  destruct (tm_add_timer m (Some tv) (Z.of_nat n) true b c) as [t m0] eqn:E. split.
  - unfold tm_add_timer in E. rewrite Htv in E. cbn [negb] in E.
    destruct (Z.ltb_spec (Z.of_nat n) 1); [lia|]. congruence.
  - exists (final_state m n b c). split; [|done].
    replace m0 with (tm_add_timer m (Some tv) (Z.of_nat n) true b c).2 by (by rewrite E).
    assert (Hge : ((if b then S n else n) <= k)%nat) by (destruct b; lia).
    induction Hge as [|k' Hle IH]; [by apply fire_last|]. destruct (decide (S n <= k')%nat) as [Hd|Hd].
    + cbn [fire]. rewrite IH by done. osimp. cbn [timers final_state].
      by rewrite lookup_delete_eq, bool_decide_false by (intros [? ?]; done).
    + assert (b = false /\ k' = n) as [-> ->] by (destruct b; lia).
      assert (EL : fire inert n (tm_next m) (tm_add_timer m (Some tv) (Z.of_nat n) true false c).2 =
        Ok (final_state m n false c)) by exact (fire_last m tv n false c Htv Hn Hn2).
      cbn [fire]. rewrite EL. osimp. cbn [timers final_state].
      by rewrite lookup_delete_eq, bool_decide_false by (intros [? ?]; done).
Qed.

Lemma timer_life_witness : exists m',
  fire inert 5 0 (tm_add_timer init_timerMgr (Some {| tv_sec := 6; tv_usec := 0 |}) 4 true true false).2 = Ok m' /\
  tm_log m' = [(Cb_to, 0%nat); (Cb_to, 0%nat); (Cb_to, 0%nat); (Cb_to, 0%nat); (Cb_maxTo, 0%nat)].
Proof.
  destruct (timer_life init_timerMgr {| tv_sec := 6; tv_usec := 0 |} 4 true false 5) as (_ & m' & E & _ & L);
    [reflexivity|lia|lia|lia|]. exists m'. split; [exact E|exact L].
Defined.

Lemma timers_safe_witness : exists m',
  timer_cb inert 0 (tm_add_timer init_timerMgr (Some {| tv_sec := 6; tv_usec := 0 |}) 4 true true false).2 = Ok m' /\
  mgr_ok m'.
Proof.
  refine (proj2 (timers_safe inert _ _ _) 0%nat _).
  - intros k t m i x H. left. exact H.
  - eapply rtc_l; [|apply rtc_refl]. apply (step_add inert init_timerMgr _ 4 true true false). lia.
  - eexists. reflexivity.
Defined.
