(* ===== verification/Subs.v ===== *)
(** The subscription data of a user (src/mme/Subscription.c): the single PDN
    context, its quality of service and its access point name.  A [GString] is
    the list of its characters; a [struct qos_t] and a [struct PAA_t] are
    records whose octets are given by [qos_bytes] and [paa_bytes]. *)
From S2P Require Import Prelude.

(** [struct qos_t] (src/libgtp/include/gtpie.h), its bit fields in the order
    of the octet. *)
Record qos_t := {
  q_pvi : Z; q_pl : Z; q_pci : Z; q_qci : Z;
  q_mbr_ul : Z; q_mbr_dl : Z; q_gbr_ul : Z; q_gbr_dl : Z;
}.
Definition le_bytes40 (x : Z) : list Z :=
  [x .& 0xff; (x >> 8) .& 0xff; (x >> 16) .& 0xff; (x >> 24) .& 0xff; (x >> 32) .& 0xff].
Definition qos_bytes (q : qos_t) : list Z :=
  [(q_pvi q .& 1) .| ((q_pl q .& 0xf) << 2) .| ((q_pci q .& 1) << 6); q_qci q]
  ++ le_bytes40 (q_mbr_ul q) ++ le_bytes40 (q_mbr_dl q)
  ++ le_bytes40 (q_gbr_ul q) ++ le_bytes40 (q_gbr_dl q).

(** [struct PAA_t]: the type and the 20 octets of the address union. *)
Record PAA_t := { paa_type : Z; paa_addr : list Z }.
Definition PAA_IP4 : Z := 1.
Definition PAA_IP6 : Z := 2.
Definition PAA_IP46 : Z := 3.
Definition paa_bytes (p : PAA_t) : list Z := (paa_type p .& 0x7) :: paa_addr p.

Record ARP := { level : Z; preemption_capability : bool; preemption_vulnerability : bool }.
Record QoS := { qci : Z; arp : ARP }.
Record PDNCtx_t := {
  ctx_id : Z;
  apn : list Z;
  pgw_allocation_type : bool;
  vplmn_dynamic_address_allowed : bool;
  pdn_addr_type : Z;
  pdn_addr : list Z;
  subscribed_apn_ambr_dl : Z;
  subscribed_apn_ambr_up : Z;
  charging_characteristics : Z;
  qos : QoS;
}.
Record Subs_t := {
  msisdn : Z;
  imeisv : Z;
  network_access_mode : Z;
  access_restriction_data : Z;
  ambr_ul : Z;
  ambr_dl : Z;
  apn_io_replacement : option (list Z);
  pdn : PDNCtx_t;
}.

Definition pdnctx_init : PDNCtx_t :=
  {| ctx_id := 0; apn := []; pgw_allocation_type := false; vplmn_dynamic_address_allowed := false;
     pdn_addr_type := 0; pdn_addr := repeat 0 20; subscribed_apn_ambr_dl := 0;
     subscribed_apn_ambr_up := 0; charging_characteristics := 0;
     qos := {| qci := 0; arp := {| level := 0; preemption_capability := false;
                                   preemption_vulnerability := false |} |} |}.
Definition subs_init : Subs_t :=
  {| msisdn := 0; imeisv := 0; network_access_mode := 0; access_restriction_data := 0;
     ambr_ul := 0; ambr_dl := 0; apn_io_replacement := None; pdn := pdnctx_init |}.

Definition with_pdn (s : Subs_t) (p : PDNCtx_t) : Subs_t :=
  {| msisdn := msisdn s; imeisv := imeisv s; network_access_mode := network_access_mode s;
     access_restriction_data := access_restriction_data s; ambr_ul := ambr_ul s; ambr_dl := ambr_dl s;
     apn_io_replacement := apn_io_replacement s; pdn := p |}.

(** ** Operations *)

Definition subs_cpyQoS_GTP (s : Subs_t) : qos_t :=
  let a := arp (qos (pdn s)) in
  {| q_pvi := Z.b2z (preemption_vulnerability a);
     q_pl := level a .& 0xf;
     q_pci := Z.b2z (preemption_vulnerability a);
     q_qci := qci (qos (pdn s));
     q_mbr_ul := 0; q_mbr_dl := 0; q_gbr_ul := 0; q_gbr_dl := 0 |}.

Definition subs_getMSISDN (s : Subs_t) : Z := msisdn s.
Definition subs_getIMEISV (s : Subs_t) : Z := imeisv s.
Definition subs_getAPNlen (s : Subs_t) : Z := Z.of_nat (length (apn (pdn s))).
Definition subs_getAPN (s : Subs_t) : list Z := apn (pdn s).
Definition subs_getPDNType (s : Subs_t) : Z := pdn_addr_type (pdn s).

(** The loop of [subs_getEncodedAPN]: [i] and [label_len] are [uint8_t]; an
    index of [res] is one less than the index of [buffer].  The result is
    the buffer, [i] and [label_len] at the end. *)
Definition dot : Z := 46.
Fixpoint encodedAPN_loop (fuel : nat) (buffer : list Z) (i label_len apnlen maxLen : Z)
  : outcome (list Z * Z * Z) :=
  match fuel with
  | O => UB Diverges
  | S fuel =>
    if (i <? apnlen) && (i <? maxLen) then
      c ← rdi buffer (i + 1);
      if c =? dot then
        buffer ← overwrite buffer (i - label_len) [label_len];
        encodedAPN_loop fuel buffer (wrap8 (i + 1)) 0 apnlen maxLen
      else encodedAPN_loop fuel buffer (wrap8 (i + 1)) (wrap8 (label_len + 1)) apnlen maxLen
    else Ok (buffer, i, label_len)
  end.

(** [subs_getEncodedAPN]: the buffer and [*len].  [i] wraps around at 256, so
    256 iterations are all there can be. *)
Definition subs_getEncodedAPN (s : Subs_t) (buffer : list Z) (maxLen : Z) : outcome (list Z * Z) :=
  let a := apn (pdn s) in
  let apnlen := Z.of_nat (length a) in
  buffer ← overwrite buffer 1 a;
  '(buffer, i, label_len) ← encodedAPN_loop 256 buffer 0 0 apnlen maxLen;
  buffer ← overwrite buffer (i - label_len) [label_len];
  Ok (buffer, apnlen + 1).

(** [subs_getPDNAddr]: the [PAA_t] and [*len]. *)
Definition subs_getPDNAddr (s : Subs_t) : outcome (PAA_t * Z) :=
  let t := pdn_addr_type (pdn s) in
  let a := pdn_addr (pdn s) in
  if t =? PAA_IP4 then Ok ({| paa_type := t; paa_addr := take 4 a ++ repeat 0 16 |}, 5)
  else if t =? PAA_IP6 then Ok ({| paa_type := t; paa_addr := take 16 a ++ repeat 0 4 |}, 17)
  else if t =? PAA_IP46 then Ok ({| paa_type := t; paa_addr := take 16 a ++ take 4 (drop 16 a) |}, 21)
  else UB Aborted.

Definition with_pdn_addr (p : PDNCtx_t) (t : Z) (a : list Z) : PDNCtx_t :=
  {| ctx_id := ctx_id p; apn := apn p; pgw_allocation_type := pgw_allocation_type p;
     vplmn_dynamic_address_allowed := vplmn_dynamic_address_allowed p;
     pdn_addr_type := t; pdn_addr := a;
     subscribed_apn_ambr_dl := subscribed_apn_ambr_dl p;
     subscribed_apn_ambr_up := subscribed_apn_ambr_up p;
     charging_characteristics := charging_characteristics p; qos := qos p |}.

Definition subs_setPDNaddr (s : Subs_t) (paa : PAA_t) : Subs_t :=
  let p := pdn s in
  let t := paa_type paa in
  let a := if t =? PAA_IP4 then take 4 (paa_addr paa) ++ drop 4 (pdn_addr p)
           else if t =? PAA_IP6 then take 16 (paa_addr paa) ++ drop 16 (pdn_addr p)
           else if t =? PAA_IP46 then take 16 (paa_addr paa) ++ take 4 (drop 16 (paa_addr paa))
           else pdn_addr p in
  with_pdn s (with_pdn_addr p t a).

Definition subs_newPDNCtx (s : Subs_t) : PDNCtx_t := pdn s.

Definition subs_setUEAMBR (s : Subs_t) (ul dl : Z) : Subs_t :=
  {| msisdn := msisdn s; imeisv := imeisv s; network_access_mode := network_access_mode s;
     access_restriction_data := access_restriction_data s; ambr_ul := ul; ambr_dl := dl;
     apn_io_replacement := apn_io_replacement s; pdn := pdn s |}.
Definition subs_getUEAMBR (s : Subs_t) : Z * Z := (ambr_ul s, ambr_dl s).

Definition pdnCtx_setDefaultBearerQoS (p : PDNCtx_t) (q : qos_t) : PDNCtx_t :=
  {| ctx_id := ctx_id p; apn := apn p; pgw_allocation_type := pgw_allocation_type p;
     vplmn_dynamic_address_allowed := vplmn_dynamic_address_allowed p;
     pdn_addr_type := pdn_addr_type p; pdn_addr := pdn_addr p;
     subscribed_apn_ambr_dl := wrap32 (q_mbr_ul q);
     subscribed_apn_ambr_up := wrap32 (q_mbr_dl q);
     charging_characteristics := charging_characteristics p;
     qos := {| qci := q_qci q;
               arp := {| level := q_pl q; preemption_capability := negb (q_pci q =? 0);
                         preemption_vulnerability := negb (q_pvi q =? 0) |} |} |}.
Definition pdnCtx_setPDNtype (p : PDNCtx_t) (t : Z) : PDNCtx_t := with_pdn_addr p t (pdn_addr p).
Definition pdnCtx_setAPN (p : PDNCtx_t) (a : list Z) : PDNCtx_t :=
  {| ctx_id := ctx_id p; apn := a; pgw_allocation_type := pgw_allocation_type p;
     vplmn_dynamic_address_allowed := vplmn_dynamic_address_allowed p;
     pdn_addr_type := pdn_addr_type p; pdn_addr := pdn_addr p;
     subscribed_apn_ambr_dl := subscribed_apn_ambr_dl p;
     subscribed_apn_ambr_up := subscribed_apn_ambr_up p;
     charging_characteristics := charging_characteristics p; qos := qos p |}.

(** ** The access point name as DNS labels *)

(** The labels between the dots, the octets of RFC 1035 for them, and the
    reader of such octets. *)
Fixpoint labels (cur a : list Z) : list (list Z) :=
  match a with
  | [] => [cur]
  | c :: a => if c =? dot then cur :: labels [] a else labels (cur ++ [c]) a
  end.
Definition label_bytes (l : list Z) : list Z := Z.of_nat (length l) :: l.
Definition encode_labels (ls : list (list Z)) : list Z := concat (map label_bytes ls).

Fixpoint read_labels (fuel : nat) (p : list Z) : list (list Z) :=
  match fuel, p with
  | S fuel, n :: p => take (Z.to_nat n) p :: read_labels fuel (drop (Z.to_nat n) p)
  | _, _ => []
  end.
Fixpoint join_labels (ls : list (list Z)) : list Z :=
  match ls with
  | [] => []
  | [l] => l
  | l :: ls => l ++ dot :: join_labels ls
  end.

Lemma encode_labels_length a : forall cur, length (encode_labels (labels cur a)) = (1 + length cur + length a)%nat.
Proof.
  unfold encode_labels. induction a as [|c a IH]; intros cur; cbn [labels map concat].
  - rewrite app_nil_r. cbn. lia.
  - destruct (c =? dot); [|rewrite IH, length_app; cbn; lia].
    cbn [map concat]. rewrite length_app, IH. cbn. lia.
Qed.

Lemma labels_not_nil a : forall cur, labels cur a <> [].
Proof. induction a as [|c a IH]; intros cur; cbn [labels]; [done|]. by destruct (c =? dot). Qed.

Lemma join_labels_labels a : forall cur, join_labels (labels cur a) = cur ++ a.
Proof.
  induction a as [|c a IH]; intros cur; cbn [labels]; [by rewrite app_nil_r|].
  destruct (Z.eqb_spec c dot) as [->|].
  - specialize (IH []). pose proof (labels_not_nil a []).
    cbn [join_labels]. destruct (labels [] a); [done|]. by rewrite IH.
  - rewrite IH. by rewrite <- app_assoc.
Qed.

Lemma read_encode_labels ls : read_labels (length ls) (encode_labels ls) = ls.
Proof.
  unfold encode_labels. induction ls as [|l ls IH]; [done|]. cbn. rewrite Nat2Z.id.
  rewrite take_app_length, drop_app_length. by f_equal.
Qed.

(** The loop, with the labels already written in [pre], the place [x] of the
    next length, and the characters of the label so far. *)
Lemma encodedAPN_loop_spec maxLen a : forall fuel pre x cur tail i apnlen,
  (length a < fuel)%nat -> i = Z.of_nat (length pre + length cur) ->
  apnlen = i + Z.of_nat (length a) -> apnlen < 256 -> apnlen <= maxLen ->
  exists b ll, encodedAPN_loop fuel (pre ++ x :: cur ++ a ++ tail) i (Z.of_nat (length cur)) apnlen maxLen
      = Ok (b, apnlen, ll) /\
    overwrite b (apnlen - ll) [ll] = Ok (pre ++ encode_labels (labels cur a) ++ tail).
Proof.
  induction a as [|c a IH]; intros fuel pre x cur tail i apnlen Hf Hi Hn H256 Hmax;
    (destruct fuel as [|fuel]; [cbn in Hf; lia|]); cbn [encodedAPN_loop].
  - cbn [length] in Hn. destruct (Z.ltb_spec i apnlen); [lia|]. cbn [andb].
    exists (pre ++ x :: cur ++ tail), (Z.of_nat (length cur)). split; [cbn; do 2 f_equal; f_equal; lia|].
    change (pre ++ x :: cur ++ tail) with (pre ++ [x] ++ (cur ++ tail)).
    rewrite overwrite_app by (lia || done). unfold encode_labels. cbn. by rewrite app_nil_r.
  - cbn [length] in Hn, Hf. destruct (Z.ltb_spec i apnlen), (Z.ltb_spec i maxLen); try lia. cbn [andb].
    assert (Hc : rdi (pre ++ x :: cur ++ (c :: a) ++ tail) (i + 1) = Ok c).
    { unfold rdi. change (pre ++ x :: cur ++ (c :: a) ++ tail) with (pre ++ [x] ++ cur ++ c :: (a ++ tail)).
      rewrite !(assoc (++)), adv_app; [done|]. rewrite !length_app. cbn. lia. }
    rewrite Hc. osimp. cbn [labels]. destruct (Z.eqb_spec c dot) as [->|Hne].
    + change (pre ++ x :: cur ++ (dot :: a) ++ tail) with (pre ++ [x] ++ (cur ++ dot :: (a ++ tail))).
      rewrite overwrite_app by (lia || done). osimp. rewrite wrap8_id by lia.
      destruct (IH fuel (pre ++ label_bytes cur) dot [] tail (i + 1) apnlen) as (b & ll & E1 & E2);
        [lia|rewrite length_app; cbn; lia|lia|lia|lia|].
      exists b, ll. split.
      * rewrite <- E1. f_equal. unfold label_bytes. by rewrite <- app_assoc.
      * rewrite E2. unfold encode_labels. cbn [map concat]. by rewrite <- !app_assoc.
    + rewrite wrap8_id, wrap8_id by lia.
      destruct (IH fuel pre x (cur ++ [c]) tail (i + 1) apnlen) as (b & ll & E1 & E2);
        [lia|rewrite length_app; cbn; lia|lia|lia|lia|].
      exists b, ll. split; [|done]. rewrite <- E1. rewrite length_app, <- !app_assoc. cbn [length].
      f_equal. lia.
Qed.

Lemma subs_apn_encoded s buffer maxLen :
  Z.of_nat (length (apn (pdn s))) < 256 -> Z.of_nat (length (apn (pdn s))) <= maxLen ->
  (length (apn (pdn s)) < length buffer)%nat ->
  let ls := labels [] (apn (pdn s)) in
  subs_getEncodedAPN s buffer maxLen =
    Ok (encode_labels ls ++ drop (length (encode_labels ls)) buffer, Z.of_nat (length (encode_labels ls))).
Proof.
  intros H256 Hmax Hb ls.
  unfold subs_getEncodedAPN. set (a := apn (pdn s)) in *.
  assert (Hf : (length a < 256)%nat) by lia. revert Hf. generalize 256%nat. intros fuel Hf.
  destruct buffer as [|x buffer]; [cbn in Hb; lia|]. cbn [length] in Hb.
  replace (x :: buffer) with ([x] ++ take (length a) buffer ++ drop (length a) buffer)
    by (by rewrite take_drop).
  rewrite overwrite_app by (done || (rewrite length_take; lia)). osimp.
  destruct (encodedAPN_loop_spec maxLen a fuel [] x [] (drop (length a) buffer) 0 (Z.of_nat (length a)))
    as (b & ll & E1 & E2); [lia|done|done|done|done|].
  change ([] ++ x :: [] ++ a ++ drop (length a) buffer) with ([x] ++ a ++ drop (length a) buffer) in E1.
  change (Z.of_nat (length [])) with 0 in E1.
  rewrite E1. osimp. rewrite E2. osimp. cbn [app].
  unfold ls. rewrite encode_labels_length. cbn [length Nat.add].
  rewrite take_drop. cbn [drop]. do 2 f_equal. lia.
Qed.

(** C40: [subs_getEncodedAPN] writes the access point name as DNS labels: for
    a name of fewer than 256 characters, not longer than [maxLen], and a
    buffer with room for one octet more, the octets written are those of the
    labels between the dots, [*len] is their number, and reading the labels
    back and joining them with dots gives the name. *)
Theorem apn_encoding_correct s buffer maxLen :
  Z.of_nat (length (apn (pdn s))) < 256 -> Z.of_nat (length (apn (pdn s))) <= maxLen ->
  (length (apn (pdn s)) < length buffer)%nat ->
  let ls := labels [] (apn (pdn s)) in
  subs_getEncodedAPN s buffer maxLen =
    Ok (encode_labels ls ++ drop (length (encode_labels ls)) buffer, Z.of_nat (length (encode_labels ls))) /\
  join_labels (read_labels (length ls) (encode_labels ls)) = apn (pdn s).
Proof.
  intros. split; [by apply subs_apn_encoded|]. rewrite read_encode_labels. apply (join_labels_labels _ []).
Qed.

(** "mme.net" *)
Definition sample_apn : list Z := [109; 109; 101; 46; 110; 101; 116].
Definition sample_subs : Subs_t := with_pdn subs_init (pdnCtx_setAPN (subs_newPDNCtx subs_init) sample_apn).
Lemma apn_encoding_correct_witness :
  (exists b, subs_getEncodedAPN sample_subs (repeat 0 256) 150 = Ok ([3; 109; 109; 101; 3; 110; 101; 116] ++ b, 8)) /\
  join_labels [[109; 109; 101]; [110; 101; 116]] = sample_apn.
Proof.
  destruct (apn_encoding_correct sample_subs (repeat 0 256) 150) as [H1 H2];
    [vm_compute; reflexivity|vm_compute; discriminate|vm_compute; lia|].
  split; [eexists; exact H1|exact H2].
Defined.

(** what the subscription keeps.  A PDN address stored with
    [subs_setPDNaddr] is returned by [subs_getPDNAddr], with the octets its
    type does not use cleared; the default bearer's class and priority level
    survive [pdnCtx_setDefaultBearerQoS] and [subs_cpyQoS_GTP], but the
    pre-emption capability sent is a copy of the vulnerability, and the
    uplink and downlink rates are exchanged. *)
Theorem subscription_data_kept s paa q :
  1 <= paa_type paa <= 3 -> length (paa_addr paa) = 20%nat -> length (pdn_addr (pdn s)) = 20%nat ->
  0 <= q_pl q < 16 -> (q_pvi q = 0 \/ q_pvi q = 1) ->
  (exists p len, subs_getPDNAddr (subs_setPDNaddr s paa) = Ok (p, len) /\ paa_type p = paa_type paa /\
    length (paa_addr p) = 20%nat /\
    take (Z.to_nat (len - 1)) (paa_addr p) = take (Z.to_nat (len - 1)) (paa_addr paa) /\
    drop (Z.to_nat (len - 1)) (paa_addr p) = repeat 0 (Z.to_nat (21 - len))) /\
  let s' := with_pdn s (pdnCtx_setDefaultBearerQoS (subs_newPDNCtx s) q) in
  q_qci (subs_cpyQoS_GTP s') = q_qci q /\ q_pl (subs_cpyQoS_GTP s') = q_pl q /\
  q_pvi (subs_cpyQoS_GTP s') = q_pvi q /\ q_pci (subs_cpyQoS_GTP s') = q_pvi q /\
  subscribed_apn_ambr_dl (pdn s') = wrap32 (q_mbr_ul q) /\
  subscribed_apn_ambr_up (pdn s') = wrap32 (q_mbr_dl q).
Proof.
  intros Ht Hl Hl' Hpl Hpvi. split.
  - destruct paa as [t a]. cbn [paa_type paa_addr] in *.
    do 21 (destruct a as [|? a]; try discriminate Hl). destruct s as [? ? ? ? ? ? ? p].
    cbn [pdn] in Hl'. destruct p as [? ? ? ? ? b ? ? ? ?]. cbn in Hl'.
    do 21 (destruct b as [|? b]; try discriminate Hl').
    assert (t = 1 \/ t = 2 \/ t = 3) as [->|[->| ->]] by lia;
      unfold subs_getPDNAddr, subs_setPDNaddr; cbn; do 2 eexists; repeat split.
  - cbn. rewrite land_0f, Z.mod_small by lia. by destruct Hpvi as [-> | ->].
Qed.

Lemma subscription_data_kept_witness :
  q_pci (subs_cpyQoS_GTP (with_pdn subs_init (pdnCtx_setDefaultBearerQoS (subs_newPDNCtx subs_init)
    {| q_pvi := 0; q_pl := 9; q_pci := 1; q_qci := 9; q_mbr_ul := 0; q_mbr_dl := 0; q_gbr_ul := 0; q_gbr_dl := 0 |}))) = 0.
Proof.
  refine (proj1 (proj2 (proj2 (proj2 (proj2 (subscription_data_kept subs_init
    {| paa_type := 1; paa_addr := repeat 0 20 |}
    {| q_pvi := 0; q_pl := 9; q_pci := 1; q_qci := 9; q_mbr_ul := 0; q_mbr_dl := 0; q_gbr_ul := 0; q_gbr_dl := 0 |}
    _ _ _ _ _)))))); cbn; auto; lia.
Defined.
