(* ===== verification/Session.v ===== *)
(** Bearer contexts (src/mme/S1/NAS/ESM_BearerContext.c) and EPS sessions
    (src/mme/S1/NAS/EPS_Session.c): the data the S11 interface reads and fills
    in, and the ESM messages the session builds.  A [struct fteid_t] is its 25
    octets; the calls into S11 and EMM are returned as values of
    [session_call], in the order the code makes them. *)
From S2P Require Import Prelude NASTypes NASIe NASDec NASEnc Subs.

(** ** F-TEID octets *)

Definition FTEID_SIZE : nat := 25.
Definition S1U_eNB : Z := 0.
Definition S1U_SGW : Z := 1.
Definition S5S8U_PGW : Z := 5.

(** The bit fields [iface], [ipv6] and [ipv4] of the first octet. *)
Definition fteid_iface (f : list Z) : outcome Z := b ← rd f; Ok (b .& 0x3f).
Definition fteid_len (f : list Z) : outcome Z :=
  b ← rd f;
  let len := 5 in
  let len := if Z.testbit b 7 then len + 4 else len in
  let len := if Z.testbit b 6 then len + 16 else len in
  Ok len.

(** ** Bearer context *)

Inductive ESMState := Inactive | ActivePending | Active | ModifyPending | InactivePending.

Record ESM_BearerContext_t := {
  ebi : Z;
  bc_state : ESMState;
  s1u_sgw : list Z;
  s1u_enb : list Z;
  s5s8u_pgw : list Z;
}.

Definition esm_bc_init (e : Z) : ESM_BearerContext_t :=
  {| ebi := wrap8 e; bc_state := Inactive; s1u_sgw := repeat 0 FTEID_SIZE;
     s1u_enb := repeat 0 FTEID_SIZE; s5s8u_pgw := repeat 0 FTEID_SIZE |}.
Definition esm_bc_getEBI (b : ESM_BearerContext_t) : Z := ebi b.
Definition esm_bc_setState (b : ESM_BearerContext_t) (s : ESMState) : ESM_BearerContext_t :=
  {| ebi := ebi b; bc_state := s; s1u_sgw := s1u_sgw b; s1u_enb := s1u_enb b; s5s8u_pgw := s5s8u_pgw b |}.

(** The common part of the setters: the interface type must be [iface] (or
    the program aborts), then [len] octets are copied over the stored one. *)
Definition copy_fteid (iface : Z) (stored fteid : list Z) (len : Z) : outcome (list Z) :=
  i ← fteid_iface fteid;
  if negb (i =? iface) then UB Aborted
  else bs ← rdn fteid len; overwrite stored 0 bs.

Definition esm_bc_setS1uSGWfteid (b : ESM_BearerContext_t) (fteid : list Z) (len : Z)
  : outcome ESM_BearerContext_t :=
  f ← copy_fteid S1U_SGW (s1u_sgw b) fteid len;
  Ok {| ebi := ebi b; bc_state := bc_state b; s1u_sgw := f; s1u_enb := s1u_enb b; s5s8u_pgw := s5s8u_pgw b |}.

Definition esm_bc_setS1ueNBfteid (b : ESM_BearerContext_t) (fteid : list Z) : outcome ESM_BearerContext_t :=
  len ← fteid_len fteid;
  f ← copy_fteid S1U_eNB (s1u_enb b) fteid len;
  Ok {| ebi := ebi b; bc_state := bc_state b; s1u_sgw := s1u_sgw b; s1u_enb := f; s5s8u_pgw := s5s8u_pgw b |}.

Definition esm_bc_setS5S8uPGWfteid (b : ESM_BearerContext_t) (fteid : list Z) (len : Z)
  : outcome ESM_BearerContext_t :=
  f ← copy_fteid S5S8U_PGW (s5s8u_pgw b) fteid len;
  Ok {| ebi := ebi b; bc_state := bc_state b; s1u_sgw := s1u_sgw b; s1u_enb := s1u_enb b; s5s8u_pgw := f |}.

(** The getters: the octets copied (their number is [*len]). *)
Definition esm_bc_getS1uSGWfteid (b : ESM_BearerContext_t) : outcome (list Z) :=
  len ← fteid_len (s1u_sgw b); rdn (s1u_sgw b) len.
Definition esm_bc_getS1ueNBfteid (b : ESM_BearerContext_t) : outcome (list Z) :=
  len ← fteid_len (s1u_enb b); rdn (s1u_enb b) len.

(** ** EPS session *)

Definition PCO_SIZE : nat := 257.

(** [EPS_Session_t]; the fields that stay null or zero are left out ([APN],
    [subscribedAPN], [apn_io_replacement], [qos], the rates, [bearers]). *)
Record EPS_Session_t := {
  defaultBearer : ESM_BearerContext_t;
  es_esm : bool;             (* [esm] is not null *)
  es_subs : Subs_t;
  es_pdn_addr_type : Z;
  es_pdn_addr : list Z;      (* 20 octets *)
  pco : list Z;              (* [PCO_SIZE] octets *)
  current_pti : Z;
}.

Definition ePSsession_init (subs : Subs_t) (b : ESM_BearerContext_t) : EPS_Session_t :=
  {| defaultBearer := b; es_esm := true; es_subs := subs; es_pdn_addr_type := 0;
     es_pdn_addr := repeat 0 20; pco := repeat 0 PCO_SIZE; current_pti := 0 |}.

Definition with_bearer (s : EPS_Session_t) (b : ESM_BearerContext_t) : EPS_Session_t :=
  {| defaultBearer := b; es_esm := es_esm s; es_subs := es_subs s; es_pdn_addr_type := es_pdn_addr_type s;
     es_pdn_addr := es_pdn_addr s; pco := pco s; current_pti := current_pti s |}.
Definition with_addr (s : EPS_Session_t) (t : Z) (a : list Z) : EPS_Session_t :=
  {| defaultBearer := defaultBearer s; es_esm := es_esm s; es_subs := es_subs s; es_pdn_addr_type := t;
     es_pdn_addr := a; pco := pco s; current_pti := current_pti s |}.
Definition with_pco (s : EPS_Session_t) (p : list Z) : EPS_Session_t :=
  {| defaultBearer := defaultBearer s; es_esm := es_esm s; es_subs := es_subs s;
     es_pdn_addr_type := es_pdn_addr_type s; es_pdn_addr := es_pdn_addr s; pco := p;
     current_pti := current_pti s |}.
Definition with_pti (s : EPS_Session_t) (t : Z) : EPS_Session_t :=
  {| defaultBearer := defaultBearer s; es_esm := es_esm s; es_subs := es_subs s;
     es_pdn_addr_type := es_pdn_addr_type s; es_pdn_addr := es_pdn_addr s; pco := pco s;
     current_pti := t |}.

Definition ePSsession_getDefaultBearer (s : EPS_Session_t) : ESM_BearerContext_t := defaultBearer s.

(** [ePSsession_getPCO]: the octets copied when it returns TRUE. *)
Definition ePSsession_getPCO (s : EPS_Session_t) : outcome (option (list Z)) :=
  t ← rd (pco s);
  if t =? 0x27 then
    l ← rdi (pco s) 1;
    bs ← rdn (adv (pco s) 2) l;
    Ok (Some bs)
  else Ok None.

Definition ePSsession_setPCO (s : EPS_Session_t) (v : list Z) (len : Z) : outcome EPS_Session_t :=
  p ← overwrite (pco s) 0 [0x27; wrap8 len];
  bs ← rdn v len;
  p ← overwrite p 2 bs;
  Ok (with_pco s p).

Definition ePSsession_setPDNAddress (s : EPS_Session_t) (paa : list Z) (len : Z) : outcome EPS_Session_t :=
  t ← rd paa;
  bs ← rdn (adv paa 1) (len - 1);
  a ← overwrite (es_pdn_addr s) 0 bs;
  Ok (with_addr s (t .& 0x07) a).

Definition ePSsession_getPDNType (s : EPS_Session_t) : Z := es_pdn_addr_type s.

(** [ePSsession_getPDNAddr]: the octets of the transport layer address and
    its length in bits. *)
Definition ePSsession_getPDNAddr (s : EPS_Session_t) : outcome (list Z * Z) :=
  if es_pdn_addr_type s =? 1 then Ok (take 4 (es_pdn_addr s), 32)
  else if es_pdn_addr_type s =? 2 then Ok (take 16 (es_pdn_addr s), 128)
  else if es_pdn_addr_type s =? 3 then Ok (take 20 (es_pdn_addr s), 160)
  else UB Aborted.

(** What the session asks of the other components. *)
Inductive session_call :=
  | S11_newUserAttach_call                    (* callback: activate the default bearer *)
  | S11_modifyBearer_call
  | S11_releaseAccess_call
  | S11_detach_call
  | emm_sendESM_call (msg : list Z)
  | emm_attachAccept_call (esm_msg : list Z).

(** [ePSsession_parsePDNConnectivityRequest]: the session and
    [*infoTxRequired]. *)
Definition ePSsession_parsePDNConnectivityRequest (s : EPS_Session_t) (pti : Z) (m : PDNConnectivityRequest_t)
  : outcome (EPS_Session_t * bool) :=
  let s := with_pti s pti in
  let infoTxRequired :=
    match nas_NASOpt_lookup (PQ_optionals m) 4 0xD with
    | Some ie => negb (lo4 (ie_iei ie) =? 0)
    | None => false
    end in
  s ← match nas_NASOpt_lookup (PQ_optionals m) 4 0x27 with
      | Some ie => ePSsession_setPCO s (drop 2 ie ++ repeat 0 (Z.to_nat (nth 1 ie 0))) (nth 1 ie 0)
      | None => Ok s
      end;
  Ok (s, infoTxRequired).

(** The [struct PAA_t] of the session's address and the number of octets of
    it that go out. *)
Definition session_paa (s : EPS_Session_t) : outcome (list Z * Z) :=
  let t := es_pdn_addr_type s in
  let a := es_pdn_addr s in
  if t =? 1 then Ok (paa_bytes {| paa_type := t; paa_addr := take 4 a ++ repeat 0 16 |}, 5)
  else if t =? 2 then Ok (paa_bytes {| paa_type := t; paa_addr := take 16 a ++ repeat 0 4 |}, 17)
  else if t =? 3 then Ok (paa_bytes {| paa_type := t; paa_addr := take 16 (drop 4 a) ++ take 4 a |}, 21)
  else UB Aborted.

(** [ePSsession_sendActivateDefaultEPSBearerCtxtReq]: the message is built in
    [buffer[356]] and handed to EMM. *)
Definition ActivateDefault_writer (s : EPS_Session_t) (aPN : list Z) (apnlen : Z) (paa : list Z) (paalen : Z)
    (opt : option (list Z)) : writer :=
  newNASMsg_ESM (enum_val EPSSessionManagementMessages) (esm_bc_getEBI (defaultBearer s)) ;;;
  encaps_ESM (current_pti s) (enum_val ActivateDefaultEPSBearerContextRequest) ;;;
  nasIe_lv_t4 [q_qci (subs_cpyQoS_GTP (es_subs s))] 1 ;;;
  nasIe_lv_t4 aPN apnlen ;;;
  nasIe_lv_t4 paa paalen ;;;
  match opt with
  | Some v => nasIe_tlv_t4 0x27 v (Z.of_nat (length v))
  | None => bump 0
  end.

Definition ePSsession_sendActivateDefaultEPSBearerCtxtReq (s : EPS_Session_t) : outcome session_call :=
  '(aPN, apnlen) ← subs_getEncodedAPN (es_subs s) (repeat 0 256) 150;
  '(paa, paalen) ← session_paa s;
  opt ← ePSsession_getPCO s;
  r ← ActivateDefault_writer s aPN apnlen paa paalen opt (WBuf (repeat 0 356) 0);
  Ok (emm_attachAccept_call (take (wb_pos r) (wb_buf r))).

Definition ePSsession_activateDefault (s : EPS_Session_t) (infoTxRequired : bool) : outcome session_call :=
  if negb infoTxRequired then Ok S11_newUserAttach_call
  else
    r ← (newNASMsg_ESM (enum_val EPSSessionManagementMessages) 0 ;;;
         encaps_ESM (current_pti s) (enum_val ESMInformationRequest)) (WBuf (repeat 0 100) 0);
    Ok (emm_sendESM_call (take (wb_pos r) (wb_buf r))).

(** [ePSsession_modifyE_RABList] on the first item of the list: identifier,
    tunnel endpoint and transport layer address. *)
Definition ePSsession_modifyE_RABList (s : EPS_Session_t) (erab_id : Z) (teid addr : list Z) (addrlen : Z)
  : outcome (EPS_Session_t * list session_call) :=
  if negb (esm_bc_getEBI (defaultBearer s) =? erab_id) then Ok (s, [])
  else
    let fteid :=
      if addrlen =? 32 then (0x80 .| S1U_eNB) :: take 4 teid ++ take 4 addr ++ repeat 0 16
      else S1U_eNB :: take 4 teid ++ repeat 0 20 in
    b ← esm_bc_setS1ueNBfteid (defaultBearer s) fteid;
    Ok (with_bearer s b, [S11_modifyBearer_call]).

Definition ePSsession_UEContextReleaseReq (s : EPS_Session_t) : list session_call := [S11_releaseAccess_call].
Definition ePSsession_detach (s : EPS_Session_t) : list session_call := [S11_detach_call].
Definition ePSsession_errorESM (s : EPS_Session_t) : EPS_Session_t * list session_call :=
  ({| defaultBearer := defaultBearer s; es_esm := false; es_subs := es_subs s;
      es_pdn_addr_type := es_pdn_addr_type s; es_pdn_addr := es_pdn_addr s; pco := pco s;
      current_pti := current_pti s |}, [S11_detach_call]).

(** ** Lemmas *)

(** The array sizes of the structures. *)
Definition session_ok (s : EPS_Session_t) : Prop :=
  length (es_pdn_addr s) = 20%nat /\ length (pco s) = PCO_SIZE /\
  length (s1u_sgw (defaultBearer s)) = FTEID_SIZE /\ length (s1u_enb (defaultBearer s)) = FTEID_SIZE /\
  length (s5s8u_pgw (defaultBearer s)) = FTEID_SIZE /\ byte_ok (ebi (defaultBearer s)).

Lemma session_init_ok subs e : session_ok (ePSsession_init subs (esm_bc_init e)).
Proof. repeat split; cbn; try done; apply wrap8_byte. Qed.


(** Lengths of the arrays that were overwritten. *)
Ltac overwrite_lengths :=
  repeat match goal with
  | H : overwrite _ ?o _ = Ok ?r |- context [length ?r] => rewrite (overwrite_length _ o _ _ ltac:(lia) H)
  end.

Lemma setPCO_ok s v len s' : session_ok s -> ePSsession_setPCO s v len = Ok s' -> session_ok s'.
Proof.
  intros (H1 & H2 & H3) E. unfold ePSsession_setPCO in E. bind_inv. split; [done|]. split; [|done]. cbn.
  by overwrite_lengths.
Qed.

Lemma setPDNAddress_ok s v len s' : session_ok s -> ePSsession_setPDNAddress s v len = Ok s' -> session_ok s'.
Proof.
  intros (H1 & H2) E. unfold ePSsession_setPDNAddress in E. bind_inv. split; [|done]. cbn.
  by overwrite_lengths.
Qed.

Lemma setPCO_value s v : session_ok s -> (length v <= 255)%nat ->
  exists s', ePSsession_setPCO s v (Z.of_nat (length v)) = Ok s' /\
    pco s' = [0x27; Z.of_nat (length v)] ++ v ++ drop (2 + length v) (pco s).
Proof.
  intros (_ & Hp & _) Hv. unfold ePSsession_setPCO, PCO_SIZE in *.
  rewrite overwrite_Ok by (cbn; lia). osimp.
  change (take (Z.to_nat 0) (pco s) ++ ?x ++ drop (Z.to_nat 0 + length ?x) (pco s)) with (x ++ drop 2 (pco s)).
  rewrite wrap8_id by lia.
  rewrite rdn_all by done. osimp.
  replace (drop 2 (pco s)) with (take (length v) (drop 2 (pco s)) ++ drop (length v) (drop 2 (pco s)))
    by apply take_drop.
  cbn [app]. change (39 :: ?x :: ?r) with ([39; x] ++ r).
  rewrite overwrite_app; [|done|rewrite length_take, length_drop; lia]. osimp.
  eexists. split; [done|]. cbn. by rewrite drop_drop.
Qed.

(** what the gateway sends is kept within the session's arrays exactly
    when it fits: Protocol Configuration Options of up to 255 octets are
    returned by [ePSsession_getPCO] as they were set, longer ones are written
    outside of the session; an IPv4 address is returned as the terminal's
    address, while the 22 octets of an IPv4v6 PAA are written outside of
    [pdn_addr]. *)
Theorem session_data_kept s v a p : session_ok s -> length a = 4%nat -> length p = 21%nat ->
  ((length v <= 255)%nat ->
    exists s', ePSsession_setPCO s v (Z.of_nat (length v)) = Ok s' /\ session_ok s' /\
      ePSsession_getPCO s' = Ok (Some v)) /\
  ((255 < length v)%nat -> ePSsession_setPCO s v (Z.of_nat (length v)) = UB OutOfBounds) /\
  (exists s', ePSsession_setPDNAddress s (1 :: a) 5 = Ok s' /\ session_ok s' /\
    ePSsession_getPDNAddr s' = Ok (a, 32)) /\
  ePSsession_setPDNAddress s (3 :: p) 22 = UB OutOfBounds.
Proof.
  intros Hs Ha Hp. pose proof Hs as (Hs1 & Hs2 & _). unfold PCO_SIZE in Hs2. split_and!.
  - intros Hv. destruct (setPCO_value s v Hs Hv) as (s' & E & Ep). exists s'.
    split; [done|]. split; [by eapply setPCO_ok|]. unfold ePSsession_getPCO. rewrite Ep. cbn [app rd]. osimp.
    cbn [Z.eqb Pos.eqb]. unfold rdi.
    change (adv (39 :: Z.of_nat (length v) :: v ++ drop (2 + length v) (pco s)) 1)
      with (Z.of_nat (length v) :: v ++ drop (2 + length v) (pco s)). cbn [rd]. osimp.
    change (adv (39 :: Z.of_nat (length v) :: v ++ drop (2 + length v) (pco s)) 2)
      with (v ++ drop (2 + length v) (pco s)). by rewrite rdn_app.
  - intros Hv. unfold ePSsession_setPCO. rewrite overwrite_Ok by (cbn; lia). osimp.
    rewrite rdn_all by done. osimp.
    unfold overwrite. rewrite !length_app, length_take, length_drop. cbn [length].
    match goal with |- context [Z.ltb ?x ?y] => destruct (Z.ltb_spec x y); [done|lia] end.
  - do 5 (destruct a as [|? a]; try discriminate Ha). destruct s as [b ? ? ? pa ? ?]. cbn in Hs1.
    do 21 (destruct pa as [|? pa]; try discriminate Hs1).
    eexists. split; [vm_compute; reflexivity|]. split; [|reflexivity].
    repeat split; cbn; try done; apply Hs.
  - unfold ePSsession_setPDNAddress. cbn [rd]. osimp. rewrite adv_1.
    rewrite rdn_all by lia. osimp.
    unfold overwrite. rewrite Hs1, Hp. done.
Qed.

Definition sample_session : EPS_Session_t := ePSsession_init sample_subs (esm_bc_init 5).
Lemma session_data_kept_witness :
  exists s', ePSsession_setPCO sample_session [0x80; 0] 2 = Ok s' /\ ePSsession_getPCO s' = Ok (Some [0x80; 0]).
Proof.
  destruct (session_data_kept sample_session [0x80; 0] [10; 0; 0; 1] (repeat 0 21)) as [H _];
    [apply session_init_ok|reflexivity|reflexivity|].
  destruct H as (s' & H1 & _ & H2); [cbn; lia|]. exists s'. split; [exact H1|exact H2].
Defined.

(** The octets of the default bearer activation. *)
Definition ActivateDefault_bytes (s : EPS_Session_t) (opt : option (list Z)) : list Z :=
  let name := encode_labels (labels [] (apn (pdn (es_subs s)))) in
  let paa := paa_bytes {| paa_type := es_pdn_addr_type s; paa_addr := take 4 (es_pdn_addr s) |} in
  [nibbles 2 (ebi (defaultBearer s))] ++ [wrap8 (current_pti s); 0xc1]
  ++ [1; qci (qos (pdn (es_subs s)))]
  ++ (Z.of_nat (length name) :: name) ++ (5 :: paa)
  ++ match opt with Some v => 0x27 :: Z.of_nat (length v) :: v | None => [] end.

Lemma writes_bump0 : Writes (bump 0) [].
Proof. intros pre mid post Hm. destruct mid; [|done]. unfold bump. cbn. by rewrite Nat.add_0_r. Qed.

(** [nasIe_lv_t4] from the front of a longer array. *)
Lemma writes_lv_t4_prefix v rest n : bytes_ok v -> n = Z.of_nat (length v) -> n < 256 ->
  Writes (nasIe_lv_t4 (v ++ rest) n) (n :: v).
Proof.
  intros Hv Hn Hlt. unfold nasIe_lv_t4. rewrite wrap8_id by lia.
  eapply writes_ext; [intros st; apply wseq_assoc|].
  change (n :: v) with ([n] ++ v). apply writes_seq.
  - apply (writes_pokes_bump _ [n]), pokes_byte. unfold byte_ok. lia.
  - replace (Z.to_nat n) with (length v) by lia. apply writes_pokes_bump. by apply pokes_copy.
Qed.

Lemma label_bytes_ok ls : Forall (fun l => bytes_ok l /\ (length l < 256)%nat) ls -> bytes_ok (encode_labels ls).
Proof.
  induction 1 as [|l ls [Hl Hn] _ IH]; [constructor|]. unfold encode_labels in *. cbn [map concat].
  apply Forall_app. split; [|done]. constructor; [unfold byte_ok; lia|done].
Qed.

Lemma labels_ok a : bytes_ok a -> forall cur, bytes_ok cur -> (length cur + length a < 256)%nat ->
  Forall (fun l => bytes_ok l /\ (length l < 256)%nat) (labels cur a).
Proof.
  induction 1 as [|c a Hc Ha IH]; intros cur Hcur Hl; cbn [labels].
  - cbn in Hl. constructor; [split; [done|lia]|constructor].
  - cbn [length] in Hl. destruct (c =? dot).
    + constructor; [split; [done|lia]|]. apply IH; [constructor|cbn; lia].
    + apply IH; [apply Forall_app; split; [done|by constructor]|rewrite length_app; cbn; lia].
Qed.

(** once the gateway has answered with an IPv4 address, the session hands
    EMM the Activate Default EPS Bearer Context Request with the bearer and
    transaction identities, the subscribed class, the access point name in
    labels, the address allocated and the gateway's Protocol Configuration
    Options, provided the message fits the buffer of 356 octets. *)
Theorem activate_default_message s v : session_ok s -> es_pdn_addr_type s = 1 ->
  bytes_ok (es_pdn_addr s) -> byte_ok (qci (qos (pdn (es_subs s)))) ->
  bytes_ok (apn (pdn (es_subs s))) -> (length (apn (pdn (es_subs s))) <= 150)%nat ->
  ePSsession_getPCO s = Ok v -> match v with Some v => bytes_ok v /\ (length v <= 255)%nat | None => True end ->
  (length (ActivateDefault_bytes s v) <= 356)%nat ->
  ePSsession_sendActivateDefaultEPSBearerCtxtReq s = Ok (emm_attachAccept_call (ActivateDefault_bytes s v)).
Proof.
  intros Hs Ht Ha Hq Hn Hl Hv Hvb Hfit. unfold ePSsession_sendActivateDefaultEPSBearerCtxtReq.
  rewrite subs_apn_encoded by (rewrite ?repeat_length; lia). osimp.
  set (name := encode_labels (labels [] (apn (pdn (es_subs s))))) in *.
  assert (Hlen : length name = (1 + length (apn (pdn (es_subs s))))%nat) by apply (encode_labels_length _ []).
  assert (Hname : bytes_ok name) by (apply label_bytes_ok, labels_ok; [done|constructor|cbn; lia]).
  unfold session_paa. rewrite Ht. cbn [Z.eqb Pos.eqb]. osimp. rewrite Hv. osimp.
  assert (W : Writes (ActivateDefault_writer s (name ++ drop (length name) (repeat 0 256)) (Z.of_nat (length name))
      (paa_bytes {| paa_type := 1; paa_addr := take 4 (es_pdn_addr s) ++ repeat 0 16 |}) 5 v)
      (ActivateDefault_bytes s v)).
  { unfold ActivateDefault_writer, ActivateDefault_bytes. fold name. rewrite !(assoc (++)).
    repeat apply writes_seq.
    - apply (writes_newNASMsg_ESM 2).
    - apply (writes_encaps_ESM _ 0xc1).
    - apply writes_lv_t4; [by apply Forall_singleton|done|done].
    - apply writes_lv_t4_prefix; [done|done|lia].
    - unfold paa_bytes. cbn [paa_type paa_addr]. rewrite Ht, app_comm_cons.
      apply (writes_lv_t4_prefix (_ :: take 4 (es_pdn_addr s))); [|cbn; destruct Hs as (Hs & _); rewrite length_take, Hs; done|done].
      constructor; [done|by apply Forall_take].
    - destruct v as [v|]; [|apply writes_bump0]. destruct Hvb.
      apply writes_tlv_t4; [done|done|done|lia]. }
  rewrite (writes_run _ _ _ W) by (rewrite repeat_length; lia). osimp. cbn [wb_buf wb_pos].
  by rewrite take_app_length.
Qed.

Definition answered_session : EPS_Session_t :=
  with_addr sample_session 1 ([10; 0; 0; 1] ++ repeat 0 16).
Lemma activate_default_message_witness :
  ePSsession_sendActivateDefaultEPSBearerCtxtReq answered_session =
  Ok (emm_attachAccept_call [0x52; 0; 0xc1; 1; 0; 8; 3; 109; 109; 101; 3; 110; 101; 116; 5; 1; 10; 0; 0; 1]).
Proof.
  rewrite (activate_default_message answered_session None); [reflexivity|..];
    try (vm_compute; reflexivity); try (vm_compute; lia); try (repeat constructor; unfold byte_ok; lia).
  - repeat split; cbn; try done; unfold byte_ok; lia.
  - vm_compute. split; [discriminate|reflexivity].
Defined.
