(* ===== verification/S11Peer.v ===== *)
(** The S11 peers (src/mme/S11/S11_Peer.c and the peer functions of
    src/mme/S11/MME_S11.c): the table of gateways with the number of their
    sessions, their restart counters and the echo timers.  An address is the
    list of the octets of its [struct sockaddr]; the table [peers] is a finite
    map and the pointers to peers are their keys.  Echo timers are timers of
    the manager of [Timer], whose argument pointers are kept in [echo_args]. *)
From stdpp Require Import fin_maps.
From S2P Require Import Prelude GTP Timer.

Definition address := list Z.

(** [Peer_t]; [p_t] is not set until [s11peer_track]. *)
Record Peer_t := {
  p_t : option nat;
  num_sessions : Z;
  restartValid : bool;
  restartCounter : Z;
}.

Record peers_t := {
  peers : gmap address Peer_t;
  ptm : TimerMgr_t;
  echo_args : gmap nat address;
}.

Definition no_peers : peers_t := {| peers := ∅; ptm := init_timerMgr; echo_args := ∅ |}.
Definition with_peers (st : peers_t) (m : gmap address Peer_t) : peers_t :=
  {| peers := m; ptm := ptm st; echo_args := echo_args st |}.
Definition set_timer (p : Peer_t) (t : option nat) : Peer_t :=
  {| p_t := t; num_sessions := num_sessions p; restartValid := restartValid p;
     restartCounter := restartCounter p |}.
Definition set_sessions (p : Peer_t) (n : Z) : Peer_t :=
  {| p_t := p_t p; num_sessions := n; restartValid := restartValid p; restartCounter := restartCounter p |}.
Definition set_restart (p : Peer_t) (valid : bool) (c : Z) : Peer_t :=
  {| p_t := p_t p; num_sessions := num_sessions p; restartValid := valid; restartCounter := c |}.

(** ** Operations *)

Definition s11peer_isFirstSession (m : gmap address Peer_t) (a : address) : bool * gmap address Peer_t :=
  match m !! a with
  | Some p => (false, <[a := set_sessions p (wrap32 (num_sessions p + 1))]> m)
  | None => (true, <[a := {| p_t := None; num_sessions := 1; restartValid := false; restartCounter := 0 |}]> m)
  end.

Definition s11peer_hasRestarted (m : gmap address Peer_t) (a : address) (counter : Z)
  : bool * gmap address Peer_t :=
  match m !! a with
  | None => (false, m)
  | Some p =>
    if (restartCounter p <? counter) || ((counter <? 2) && (254 <? restartCounter p)) then
      (restartValid p, <[a := set_restart p true counter]> m)
    else (false, <[a := set_restart p true (restartCounter p)]> m)
  end.

Definition s11peer_get (m : gmap address Peer_t) (a : address) : option Peer_t := m !! a.

Definition echo_period : timeval := {| tv_sec := 20; tv_usec := 0 |}.

(** [s11peer_track]: one echo timer with the peer as argument. *)
Definition s11peer_track (st : peers_t) (a : address) : outcome peers_t :=
  match peers st !! a with
  | None => UB NullDeref
  | Some p =>
    let '(t, tm) := tm_add_timer (ptm st) (Some echo_period) 1 true false false in
    Ok {| peers := <[a := set_timer p t]> (peers st); ptm := tm;
          echo_args := match t with Some t => <[t := a]> (echo_args st) | None => echo_args st end |}
  end.

(** The echo timers have no [cb_free]: stopping one calls nothing. *)
Definition no_callback (k : cb_kind) (t : nat) (m : TimerMgr_t) : TimerMgr_t := m.

Definition s11peer_untrack (st : peers_t) (a : address) : outcome peers_t :=
  match peers st !! a with
  | None => UB NullDeref
  | Some p =>
    match p_t p with
    | None => Ok st
    | Some t => tm ← tm_stop_timer no_callback t (ptm st);
                Ok {| peers := peers st; ptm := tm; echo_args := echo_args st |}
    end
  end.

(** An echo timer expires: [timer_cb] calls [s11peer_sendEcho], which only
    starts the next one, and then stops the expired timer. *)
Definition echo_callback (k : cb_kind) (t : nat) (m : TimerMgr_t) : TimerMgr_t :=
  match k with
  | Cb_to => snd (tm_add_timer m (Some echo_period) 1 true false false)
  | _ => m
  end.
Definition s11peer_sendEcho (st : peers_t) (t : nat) : outcome peers_t :=
  match echo_args st !! t with
  | None => UB NullDeref
  | Some a =>
    match peers st !! a with
    | None => UB UseAfterFree
    | Some p =>
      let t' := tm_next (ptm st) in
      tm ← timer_cb echo_callback t (ptm st);
      Ok {| peers := <[a := set_timer p (Some t')]> (peers st); ptm := tm;
            echo_args := <[t' := a]> (echo_args st) |}
    end
  end.

(** ** The peer functions of MME_S11.c *)

Definition S11_isFirstSession (st : peers_t) (a : address) : outcome (bool * peers_t) :=
  let '(first, m) := s11peer_isFirstSession (peers st) a in
  if first then st ← s11peer_track (with_peers st m) a; Ok (true, st)
  else Ok (false, with_peers st m).

(** [S11_unrefSession]: the missing peer is logged and then dereferenced. *)
Definition S11_unrefSession (st : peers_t) (a : address) : outcome peers_t :=
  match s11peer_get (peers st) a with
  | None => UB NullDeref
  | Some p =>
    let p := set_sessions p (wrap32 (num_sessions p - 1)) in
    let st := with_peers st (<[a := p]> (peers st)) in
    if num_sessions p =? 0 then
      st ← s11peer_untrack st a;
      Ok (with_peers st (delete a (peers st)))
    else Ok st
  end.

(** [S11_checkPeerRestart]: the peers and whether a restart was logged. *)
Definition S11_checkPeerRestart (st : peers_t) (a : address) (counter : Z) : bool * peers_t :=
  let '(r, m) := s11peer_hasRestarted (peers st) a counter in (r, with_peers st m).

(** [gtp2ie_gettliv] on the array [gtp2ie_decap] filled ([a] is its result): a
    packet that does not end with its last element leaves the array without
    terminator, and the search runs into pointers that were never set. *)
Definition ie_gettliv (a : Z * list (list Z)) (t i : Z) : outcome (list Z) :=
  '(r, v, _) ← gtp2ie_gettliv a.2 t i;
  if negb (a.1 =? 0) && (r =? EOF) then UB Uninitialised else Ok v.

Definition GTPV2C_IE_RECOVERY : Z := 3.

(** The Recovery value of an echo message: [value] is zeroed before. *)
Definition recovery_value (a : Z * list (list Z)) : outcome Z :=
  v ← ie_gettliv a GTPV2C_IE_RECOVERY 0; Ok (nth 0 v 0).

(** [s11peer_processEchoRsp]: [mem] is the memory of the message of [len]
    octets.  The peer is not checked for null. *)
Definition s11peer_processEchoRsp (st : peers_t) (a : address) (mem : list Z) (len : Z) : outcome peers_t :=
  match s11peer_get (peers st) a with
  | None => UB NullDeref
  | Some p =>
    st ← s11peer_untrack st a;
    st ← s11peer_track st a;
    ies ← gtp2ie_decap mem len;
    c ← recovery_value ies;
    Ok (snd (S11_checkPeerRestart st a c))
  end.

(** [processEchoReq]: the peers and the octets of the reply. *)
Definition processEchoReq (st : peers_t) (localCounter : Z) (a : address) (mem : list Z) (len : Z)
  : outcome (peers_t * list Z) :=
  ies ← gtp2ie_decap mem len;
  c ← recovery_value ies;
  let st := snd (S11_checkPeerRestart st a c) in
  '(olen, o) ← get_default_gtp 2 GTP2_ECHO_RSP (repeat 0 (Z.to_nat (12 + GTPIE_MAX)));
  seq ← rdn (adv mem 4) 3;
  o ← overwrite o 4 seq;
  '(_, o, olen) ← gtp2ie_encaps [tliv_bytes (Tliv GTPV2C_IE_RECOVERY 0 [localCounter])] o olen;
  Ok (st, take (Z.to_nat olen) o).

(** ** Invariant *)

(** The peers match the sessions: [cnt a] sessions are open with the gateway
    at [a]; every tracked peer counts them and has one running echo timer that
    points back to it, and no other echo timer runs. *)
Definition echo_timer (x : Timer_t) : Prop :=
  t_max_rtx x = 1 /\ t_rtx x = 0 /\ t_maxTo x = false /\ t_free x = false.

Definition peer_ok (st : peers_t) (a : address) (n : nat) (p : option Peer_t) : Prop :=
  match p with
  | Some p => (0 < n)%nat /\ num_sessions p = Z.of_nat n /\
      exists t x, p_t p = Some t /\ timers (ptm st) !! t = Some x /\ echo_timer x /\ echo_args st !! t = Some a
  | None => n = O
  end.

Record peers_ok (cnt : address -> nat) (st : peers_t) : Prop := {
  po_peer : forall a, peer_ok st a (cnt a) (peers st !! a);
  po_timer : forall t x, timers (ptm st) !! t = Some x ->
    exists a p, peers st !! a = Some p /\ p_t p = Some t;
  po_fresh : forall t x, timers (ptm st) !! t = Some x -> (t < tm_next (ptm st))%nat;
}.

Definition set_cnt (cnt : address -> nat) (a : address) (n : nat) : address -> nat :=
  fun b => if decide (a = b) then n else cnt b.

Lemma set_cnt_eq cnt a n : set_cnt cnt a n a = n.
Proof. unfold set_cnt. by rewrite decide_True. Qed.
Lemma set_cnt_ne cnt a n b : a <> b -> set_cnt cnt a n b = cnt b.
Proof. intros. unfold set_cnt. by rewrite decide_False. Qed.

Lemma set_cnt_same cnt a b : set_cnt cnt a (cnt a) b = cnt b.
Proof. unfold set_cnt. by destruct (decide (a = b)) as [<-|]. Qed.
Lemma peers_ok_ext cnt cnt' st : (forall b, cnt b = cnt' b) -> peers_ok cnt st -> peers_ok cnt' st.
Proof. intros E [H1 H2 H3]. split; [|done|done]. intros b. rewrite <- E. apply H1. Qed.

Lemma no_peers_ok : peers_ok (fun _ => O) no_peers.
Proof. split; intros *; cbn; by rewrite ?lookup_empty. Qed.

Lemma add_echo_timer m : tm_add_timer m (Some echo_period) 1 true false false =
  (Some (tm_next m), {| timers := <[tm_next m := {| t_tv := echo_period; t_max_rtx := 1; t_rtx := 0;
       t_maxTo := false; t_free := false |}]> (timers m); tm_next := S (tm_next m); tm_log := tm_log m |}).
Proof. done. Qed.

(** Two peers never share a timer. *)
Lemma timer_owner cnt st a b p q t : peers_ok cnt st -> peers st !! a = Some p -> peers st !! b = Some q ->
  p_t p = Some t -> p_t q = Some t -> a = b.
Proof.
  intros H Ha Hb Hp Hq. pose proof (po_peer _ _ H a) as Pa. pose proof (po_peer _ _ H b) as Pb.
  rewrite Ha in Pa. rewrite Hb in Pb. destruct Pa as (_ & _ & t1 & x1 & ? & _ & _ & ?).
  destruct Pb as (_ & _ & t2 & x2 & ? & _ & _ & ?). congruence.
Qed.

(** Changing the counters of a peer, not its timer. *)
Lemma peers_ok_update cnt st a p p' n : peers_ok cnt st -> peers st !! a = Some p -> p_t p' = p_t p ->
  (0 < n)%nat -> num_sessions p' = Z.of_nat n ->
  peers_ok (set_cnt cnt a n) (with_peers st (<[a := p']> (peers st))).
Proof.
  intros H Ha Ht Hn Hs. split.
  - intros b. cbn [peers with_peers]. destruct (decide (a = b)) as [<-|Hne].
    + rewrite lookup_insert_eq, set_cnt_eq. pose proof (po_peer _ _ H a) as Pa. rewrite Ha in Pa.
      destruct Pa as (_ & _ & Hx). unfold peer_ok. by rewrite Ht.
    + rewrite lookup_insert_ne, set_cnt_ne by done. exact (po_peer _ _ H b).
  - intros t x Hx. destruct (po_timer _ _ H t x Hx) as (b & q & Hb & Hq). cbn [peers with_peers].
    destruct (decide (a = b)) as [<-|Hne].
    + exists a, p'. rewrite lookup_insert_eq. split; congruence.
    + exists b, q. by rewrite lookup_insert_ne by done.
  - exact (po_fresh _ _ H).
Qed.

(** The same while the peer at [a] has no running timer. *)
Record peers_ok_but (a : address) (cnt : address -> nat) (st : peers_t) : Prop := {
  pb_peer : forall b, a <> b -> peer_ok st b (cnt b) (peers st !! b);
  pb_timer : forall t x, timers (ptm st) !! t = Some x ->
    exists b p, a <> b /\ peers st !! b = Some p /\ p_t p = Some t;
  pb_fresh : forall t x, timers (ptm st) !! t = Some x -> (t < tm_next (ptm st))%nat;
}.

Definition drop_timer (st : peers_t) (t : nat) (log : list (cb_kind * nat)) : peers_t :=
  {| peers := peers st; echo_args := echo_args st;
     ptm := {| timers := delete t (timers (ptm st)); tm_next := tm_next (ptm st); tm_log := log |} |}.

Lemma stop_timer_ok cnt st a p : peers_ok cnt st -> peers st !! a = Some p ->
  exists t, p_t p = Some t /\ (exists x, timers (ptm st) !! t = Some x /\ echo_timer x) /\
    forall log, peers_ok_but a cnt (drop_timer st t log).
Proof.
  intros H Ha. pose proof (po_peer _ _ H a) as Pa. rewrite Ha in Pa.
  destruct Pa as (_ & _ & t & x & Ht & Hx & Hxe & _). exists t. split; [done|]. split; [by exists x|].
  intros log. split.
  - intros b Hne. pose proof (po_peer _ _ H b) as Pb. cbn [peers drop_timer].
    destruct (peers st !! b) as [q|] eqn:Hb; [|done].
    destruct Pb as (? & ? & u & y & Hu & Hy & ? & ?). do 2 (split; [done|]). exists u, y. cbn.
    split; [done|]. split; [|done]. apply lookup_delete_Some. split; [|done].
    intros <-. destruct Hne. by eapply timer_owner.
  - cbn. intros u y [Hne Hy]%lookup_delete_Some. destruct (po_timer _ _ H u y Hy) as (b & q & Hb & Hq).
    exists b, q. split; [|done]. intros <-. congruence.
  - cbn. intros u y [_ Hy]%lookup_delete_Some. exact (po_fresh _ _ H u y Hy).
Qed.

Lemma start_timer_ok a cnt st p n tm x : peers_ok_but a cnt st ->
  timers tm = <[tm_next (ptm st) := x]> (timers (ptm st)) -> tm_next tm = S (tm_next (ptm st)) ->
  echo_timer x -> (0 < n)%nat -> num_sessions p = Z.of_nat n ->
  peers_ok (set_cnt cnt a n)
    {| peers := <[a := set_timer p (Some (tm_next (ptm st)))]> (peers st); ptm := tm;
       echo_args := <[tm_next (ptm st) := a]> (echo_args st) |}.
Proof.
  intros H Htm Hnext Hx Hn Hs. split; cbn [peers ptm echo_args].
  - intros b. destruct (decide (a = b)) as [<-|Hne].
    + rewrite lookup_insert_eq, set_cnt_eq. do 2 (split; [done|]). exists (tm_next (ptm st)), x. cbn.
      rewrite Htm, !lookup_insert_eq. done.
    + rewrite lookup_insert_ne, set_cnt_ne by done. pose proof (pb_peer _ _ _ H b Hne) as Pb.
      destruct (peers st !! b) as [q|]; [|done].
      destruct Pb as (? & ? & u & y & Hu & Hy & ? & ?). do 2 (split; [done|]). exists u, y. cbn.
      pose proof (pb_fresh _ _ _ H u y Hy).
      rewrite Htm, !lookup_insert_ne by lia. done.
  - rewrite Htm. intros u y [[<- <-]|[Hne Hy]]%lookup_insert_Some.
    + exists a, (set_timer p (Some (tm_next (ptm st)))). by rewrite lookup_insert_eq.
    + destruct (pb_timer _ _ _ H u y Hy) as (b & q & Hab & Hb & Hq). exists b, q.
      by rewrite lookup_insert_ne by done.
  - rewrite Htm, Hnext. intros u y [[<- <-]|[Hne Hy]]%lookup_insert_Some; [lia|].
    pose proof (pb_fresh _ _ _ H u y Hy). lia.
Qed.

Lemma track_ok a cnt st p n : peers_ok_but a cnt st -> peers st !! a = Some p ->
  (0 < n)%nat -> num_sessions p = Z.of_nat n ->
  exists st', s11peer_track st a = Ok st' /\ peers_ok (set_cnt cnt a n) st' /\
    (forall b, (peers st' !! b) = if decide (a = b) then Some (set_timer p (Some (tm_next (ptm st)))) else peers st !! b).
Proof.
  intros H Ha Hn Hs. unfold s11peer_track. rewrite Ha, add_echo_timer. eexists. split; [done|]. split.
  - by eapply start_timer_ok.
  - intros b. cbn. destruct (decide (a = b)) as [<-|]; [by rewrite lookup_insert_eq|by rewrite lookup_insert_ne].
Qed.

Lemma untrack_ok cnt st a p : peers_ok cnt st -> peers st !! a = Some p ->
  exists st', s11peer_untrack st a = Ok st' /\ peers st' = peers st /\ peers_ok_but a cnt st'.
Proof.
  intros H Ha. destruct (stop_timer_ok cnt st a p H Ha) as (t & Ht & (x & Hx & Hxe) & Hb).
  unfold s11peer_untrack. rewrite Ha, Ht. unfold tm_stop_timer. rewrite Hx.
  destruct Hxe as (_ & _ & _ & Hf). unfold free_timer. rewrite Hf. osimp. eexists. split; [done|].
  split; [done|]. exact (Hb _).
Qed.

(** A new session. *)
Lemma isFirstSession_ok cnt st a : peers_ok cnt st -> Z.of_nat (S (cnt a)) < 2^32 ->
  exists st', S11_isFirstSession st a = Ok (bool_decide (cnt a = O), st') /\
    peers_ok (set_cnt cnt a (S (cnt a))) st'.
Proof.
  intros H Hlt. unfold S11_isFirstSession, s11peer_isFirstSession. pose proof (po_peer _ _ H a) as Pa.
  destruct (peers st !! a) as [p|] eqn:Ha.
  - destruct Pa as (H0 & Hs & Ht). eexists. rewrite bool_decide_false by lia. split; [done|].
    eapply peers_ok_update; cbn; try done; [lia|]. rewrite Hs, wrap32_id by lia. lia.
  - unfold peer_ok in Pa. set (p := {| p_t := None; num_sessions := 1; restartValid := false; restartCounter := 0 |}).
    assert (Hb : peers_ok_but a cnt (with_peers st (<[a := p]> (peers st)))).
    { split; cbn.
      - intros b Hne. rewrite lookup_insert_ne by done. exact (po_peer _ _ H b).
      - intros t x Hx. destruct (po_timer _ _ H t x Hx) as (b & q & Hbq & Hq). exists b, q.
        assert (a <> b) by congruence. by rewrite lookup_insert_ne.
      - exact (po_fresh _ _ H). }
    destruct (track_ok a cnt _ p (S (cnt a)) Hb) as (st' & E & Hok & _);
      [cbn; by rewrite lookup_insert_eq|lia|cbn; lia|].
    rewrite E. osimp. exists st'. by rewrite bool_decide_true.
Qed.

(** The end of a session. *)
Lemma unrefSession_ok cnt st a n : peers_ok cnt st -> cnt a = S n -> Z.of_nat (S n) < 2^32 ->
  exists st', S11_unrefSession st a = Ok st' /\ peers_ok (set_cnt cnt a n) st'.
Proof.
  intros H Hn Hlt. unfold S11_unrefSession, s11peer_get. pose proof (po_peer _ _ H a) as Pa.
  destruct (peers st !! a) as [p|] eqn:Ha; [|unfold peer_ok in Pa; lia].
  destruct Pa as (_ & Hs & Ht). rewrite Hn in Hs.
  assert (En : wrap32 (num_sessions p - 1) = Z.of_nat n) by (rewrite wrap32_id by lia; lia).
  cbn [num_sessions set_sessions]. rewrite En. destruct (Z.eqb_spec (Z.of_nat n) 0) as [Hz|Hnz].
  - set (st1 := with_peers st (<[a := set_sessions p (Z.of_nat n)]> (peers st))).
    destruct (stop_timer_ok cnt st a p H Ha) as (t & Htp & (x & Hx & Hxe) & Hb).
    unfold s11peer_untrack. cbn [peers st1 with_peers]. rewrite lookup_insert_eq. cbn [p_t set_sessions].
    rewrite Htp. unfold tm_stop_timer. cbn [ptm st1 with_peers]. rewrite Hx.
    destruct Hxe as (_ & _ & _ & Hf). unfold free_timer. rewrite Hf. osimp. eexists. split; [done|].
    specialize (Hb (tm_log (ptm st))). split; cbn.
    + intros b. destruct (decide (a = b)) as [<-|Hne].
      * rewrite lookup_delete_eq, set_cnt_eq. cbn. lia.
      * rewrite lookup_delete_ne, lookup_insert_ne, set_cnt_ne by done. exact (pb_peer _ _ _ Hb b Hne).
    + intros u y Hy. destruct (pb_timer _ _ _ Hb u y Hy) as (b & q & Hne & Hbq & Hq). exists b, q.
      by rewrite lookup_delete_ne, lookup_insert_ne by done.
    + exact (pb_fresh _ _ _ Hb).
  - eexists. split; [done|]. eapply peers_ok_update; try done. lia.
Qed.

(** A report of the restart counter, from any address. *)
Lemma checkPeerRestart_ok cnt st a c : peers_ok cnt st -> peers_ok cnt (S11_checkPeerRestart st a c).2.
Proof.
  intros H. unfold S11_checkPeerRestart, s11peer_hasRestarted. pose proof (po_peer _ _ H a) as Pa.
  destruct (peers st !! a) as [p|] eqn:Ha; [|by destruct st].
  destruct Pa as (H0 & Hs & _).
  assert (G : forall v d, peers_ok cnt (with_peers st (<[a := set_restart p v d]> (peers st)))).
  { intros v d. eapply peers_ok_ext; [|by eapply (peers_ok_update cnt st a p _ (cnt a))]. apply set_cnt_same. }
  destruct (_ || _); apply G.
Qed.

(** An echo timer expires. *)
Lemma sendEcho_ok cnt st t : peers_ok cnt st -> is_Some (timers (ptm st) !! t) ->
  exists st', s11peer_sendEcho st t = Ok st' /\ peers_ok cnt st'.
Proof.
  intros H [x Hx]. destruct (po_timer _ _ H t x Hx) as (a & p & Ha & Hp).
  pose proof (po_peer _ _ H a) as Pa. rewrite Ha in Pa. destruct Pa as (H0 & Hs & t' & x' & Ht' & Hx' & Hxe & Harg).
  assert (t' = t) by congruence. subst t'. assert (x' = x) by congruence. subst x'.
  destruct (stop_timer_ok cnt st a p H Ha) as (t1 & Ht1 & _ & Hb). assert (t1 = t) by congruence. subst t1.
  pose proof (po_fresh _ _ H t x Hx) as Hlt. unfold s11peer_sendEcho. rewrite Harg, Ha.
  destruct Hxe as (Hmax & Hrtx & Hmaxto & Hfree). unfold timer_cb. rewrite Hx. cbn [set_rtx t_rtx t_max_rtx t_maxTo].
  rewrite Hrtx, Hmax, Hmaxto. change (wrap32 (0 + 1)) with 1. cbn [Z.leb Z.compare Pos.compare Pos.compare_cont].
  unfold call, echo_callback. rewrite add_echo_timer. cbn [snd log_cb with_timers timers tm_next tm_log].
  rewrite lookup_insert_ne, lookup_insert_eq by lia. rewrite bool_decide_true by done. cbn [negb andb Z.eqb Pos.eqb].
  unfold tm_stop_timer. cbn [timers]. rewrite lookup_insert_ne, lookup_insert_eq by lia.
  unfold free_timer. change (t_free (set_rtx x 1)) with (t_free x). rewrite Hfree. cbn [with_timers timers]. osimp. eexists. split; [done|].
  eapply peers_ok_ext; [apply (set_cnt_same cnt a)|].
  pose proof (start_timer_ok a cnt _ p (cnt a) {| timers := delete t (<[tm_next (ptm st) := {| t_tv := echo_period;
      t_max_rtx := 1; t_rtx := 0; t_maxTo := false; t_free := false |}]> (<[t := set_rtx x 1]> (timers (ptm st))));
      tm_next := S (tm_next (ptm st)); tm_log := tm_log (ptm st) ++ [(Cb_to, t)] |}
      {| t_tv := echo_period; t_max_rtx := 1; t_rtx := 0; t_maxTo := false; t_free := false |} (Hb [])) as G.
  cbn [ptm drop_timer timers tm_next peers echo_args] in G.
  apply G; try done. by rewrite delete_insert_ne, delete_insert_eq by lia.
Qed.

(** An Echo Response of a tracked peer restarts its timer. *)
Lemma processEchoRsp_ok cnt st a mem len st' : peers_ok cnt st ->
  s11peer_processEchoRsp st a mem len = Ok st' -> peers_ok cnt st'.
Proof.
  intros H E. unfold s11peer_processEchoRsp, s11peer_get in E. destruct (peers st !! a) as [p|] eqn:Ha; [|done].
  destruct (untrack_ok cnt st a p H Ha) as (st1 & E1 & Ep & Hb). rewrite E1 in E. osimp.
  pose proof (po_peer _ _ H a) as Pa. rewrite Ha in Pa. destruct Pa as (H0 & Hs & _).
  destruct (track_ok a cnt st1 p (cnt a) Hb) as (st2 & E2 & H2 & _); [by rewrite Ep|done|done|].
  rewrite E2 in E. cbn [mbind outcome_bind] in E. bind_inv. apply checkPeerRestart_ok.
  eapply peers_ok_ext; [|done]. apply set_cnt_same.
Qed.

(** ** Runs *)

(** The events of the peer table, with the number of open sessions per
    gateway as ghost state. *)
Inductive peer_step : (address -> nat) * peers_t -> (address -> nat) * peers_t -> Prop :=
  | ps_open cnt st a b st' : Z.of_nat (S (cnt a)) < 2^32 -> S11_isFirstSession st a = Ok (b, st') ->
      peer_step (cnt, st) (set_cnt cnt a (S (cnt a)), st')
  | ps_close cnt st a n st' : cnt a = S n -> S11_unrefSession st a = Ok st' ->
      peer_step (cnt, st) (set_cnt cnt a n, st')
  | ps_timer cnt st t st' : is_Some (timers (ptm st) !! t) -> s11peer_sendEcho st t = Ok st' ->
      peer_step (cnt, st) (cnt, st')
  | ps_echo_rsp cnt st a mem len st' : s11peer_processEchoRsp st a mem len = Ok st' ->
      peer_step (cnt, st) (cnt, st')
  | ps_report cnt st a c : peer_step (cnt, st) (cnt, (S11_checkPeerRestart st a c).2).

Definition peers_inv (s : (address -> nat) * peers_t) : Prop :=
  peers_ok s.1 s.2 /\ forall a, Z.of_nat (s.1 a) < 2^32.

Lemma peer_step_inv s s' : peer_step s s' -> peers_inv s -> peers_inv s'.
Proof.
  intros Hstep [H Hlt]. inversion Hstep as [cnt st a b st' Hb E|cnt st a n st' Hn E|cnt st t st' Ht E|cnt st a mem len st' E|cnt st a c];
    subst; cbn [fst snd] in *.
  - destruct (isFirstSession_ok cnt st a H Hb) as (st1 & E1 & H1). rewrite E in E1. simplify_eq.
    split; [done|]. intros x. cbn. unfold set_cnt. destruct (decide (a = x)); [done|apply Hlt].
  - pose proof (Hlt a) as Ha. rewrite Hn in Ha. destruct (unrefSession_ok cnt st a n H Hn Ha) as (st1 & E1 & H1).
    rewrite E in E1. simplify_eq. split; [done|]. intros x. cbn. unfold set_cnt.
    destruct (decide (a = x)); [lia|apply Hlt].
  - destruct (sendEcho_ok cnt st t H Ht) as (st1 & E1 & H1). rewrite E in E1. by simplify_eq.
  - split; [|done]. by eapply processEchoRsp_ok.
  - split; [|done]. by apply checkPeerRestart_ok.
Qed.

(** the peer table is safe over any run: as long as every session that is
    closed was opened, a gateway is in the table exactly while it has
    sessions, with their number; each one has exactly one echo timer, which
    points back to it, so that a timer never runs on a freed peer; opening a
    session reports whether it is the first one, and opening, closing and the
    expiration of a timer never fault. *)
Theorem peers_safe cnt st : rtc peer_step (fun _ => O, no_peers) (cnt, st) ->
  peers_ok cnt st /\
  (forall a, Z.of_nat (S (cnt a)) < 2^32 ->
    exists st', S11_isFirstSession st a = Ok (bool_decide (cnt a = O), st')) /\
  (forall a, cnt a <> O -> exists st', S11_unrefSession st a = Ok st') /\
  (forall t, is_Some (timers (ptm st) !! t) -> exists st', s11peer_sendEcho st t = Ok st').
Proof.
  intros Hr. assert (H : peers_inv (cnt, st)).
  { apply (rtc_ind_r (fun x => peers_inv x) _) in Hr; [done|split; [apply no_peers_ok|done]|].
    intros y z _ Hyz Hy. by eapply peer_step_inv. }
  destruct H as [H Hlt]. cbn in H, Hlt. split_and!; [done| | |].
  - intros a Ha. destruct (isFirstSession_ok cnt st a H Ha) as (st' & E & _). by exists st'.
  - intros a Ha. destruct (cnt a) as [|n] eqn:En; [done|]. pose proof (Hlt a) as Hl. rewrite En in Hl.
    destruct (unrefSession_ok cnt st a n H En Hl) as (st' & E & _). by exists st'.
  - intros t Ht. destruct (sendEcho_ok cnt st t H Ht) as (st' & E & _). by exists st'.
Qed.

Definition sample_addr : address := [2; 0; 8; 75; 10; 0; 0; 2; 0; 0; 0; 0; 0; 0; 0; 0].
Definition one_session : peers_t := match S11_isFirstSession no_peers sample_addr with Ok (_, st) => st | UB _ => no_peers end.
Lemma peers_safe_witness : exists st', S11_unrefSession one_session sample_addr = Ok st'.
Proof.
  refine (proj1 (proj2 (proj2 (peers_safe (set_cnt (fun _ => O) sample_addr 1%nat) one_session _))) sample_addr _).
  - eapply rtc_l; [|apply rtc_refl]. apply (ps_open (fun _ => O) no_peers sample_addr true); [lia|reflexivity].
  - rewrite set_cnt_eq. discriminate.
Defined.

(** ** Restart detection *)

(** The successive answers of [s11peer_hasRestarted] to the counters reported
    by one peer. *)
Fixpoint restart_reports (m : gmap address Peer_t) (a : address) (cs : list Z) : list bool :=
  match cs with
  | [] => []
  | c :: cs => let '(r, m) := s11peer_hasRestarted m a c in r :: restart_reports m a cs
  end.

(** The counter of a peer of which no restart goes unseen: it stays, or is
    incremented modulo 256. *)
Fixpoint counter_chain (c : Z) (cs : list Z) : Prop :=
  match cs with
  | [] => True
  | d :: cs => (d = c \/ d = wrap8 (c + 1)) /\ counter_chain d cs
  end.
Fixpoint counter_changes (c : Z) (cs : list Z) : list bool :=
  match cs with [] => [] | d :: cs => negb (d =? c) :: counter_changes d cs end.

Lemma hasRestarted_valid m a p c : m !! a = Some p -> restartValid p = true -> byte_ok c ->
  byte_ok (restartCounter p) -> (c = restartCounter p \/ c = wrap8 (restartCounter p + 1)) ->
  s11peer_hasRestarted m a c = (negb (c =? restartCounter p), <[a := set_restart p true c]> m).
Proof.
  unfold byte_ok, s11peer_hasRestarted. intros Hp Hv Hc Hr Hcase. rewrite Hp, Hv.
  unfold wrap8 in Hcase. destruct Hcase as [->|Hn].
  - rewrite Z.eqb_refl, Z.ltb_irrefl. cbn [orb negb].
    by destruct (Z.ltb_spec (restartCounter p) 2), (Z.ltb_spec 254 (restartCounter p)); try lia.
  - destruct (Z.eqb_spec c (restartCounter p)); [lia|]. cbn [negb].
    destruct (Z.ltb_spec (restartCounter p) c); [done|].
    by destruct (Z.ltb_spec c 2), (Z.ltb_spec 254 (restartCounter p)); try lia.
Qed.

Lemma restart_reports_valid a cs : forall m p, m !! a = Some p -> restartValid p = true -> bytes_ok cs ->
  byte_ok (restartCounter p) -> counter_chain (restartCounter p) cs ->
  restart_reports m a cs = counter_changes (restartCounter p) cs.
Proof.
  induction cs as [|c cs IH]; intros m p Hp Hv Hcs Hr Hch; [done|]. cbn [restart_reports counter_changes].
  apply Forall_cons in Hcs as [Hc Hcs]. destruct Hch as [Hstep Hch].
  rewrite (hasRestarted_valid m a p c) by done. f_equal.
  apply (IH _ (set_restart p true c)); [by rewrite lookup_insert_eq|done..].
Qed.

(** restart detection: the first counter a new peer reports is never a
    restart; from then on, as long as every restart is seen before the next
    one, [s11peer_hasRestarted] answers TRUE exactly when the counter has
    changed, also when it wraps around from 255 to 0. *)
Theorem restarts_detected m a c cs : m !! a = None -> byte_ok c -> bytes_ok cs -> counter_chain c cs ->
  let m' := (s11peer_isFirstSession m a).2 in
  restart_reports m' a (c :: cs) = false :: counter_changes c cs.
Proof.
  intros Ha Hc Hcs Hch m'. unfold m', s11peer_isFirstSession. rewrite Ha. cbn [snd restart_reports].
  unfold s11peer_hasRestarted. rewrite lookup_insert_eq. cbn [restartCounter restartValid].
  change (254 <? 0) with false. rewrite andb_false_r, orb_false_r. unfold byte_ok in Hc.
  destruct (Z.ltb_spec 0 c).
  - f_equal. erewrite restart_reports_valid; [|by rewrite lookup_insert_eq|done..]. done.
  - assert (c = 0) as -> by lia. f_equal.
    erewrite restart_reports_valid; [|by rewrite lookup_insert_eq|done..]. done.
Qed.

Lemma restarts_detected_witness :
  restart_reports (s11peer_isFirstSession ∅ sample_addr).2 sample_addr [254; 255; 255; 0; 1; 1]
  = [false; true; false; true; true; false].
Proof.
  refine (restarts_detected ∅ sample_addr 254 [255; 255; 0; 1; 1] _ _ _ _).
  - reflexivity.
  - unfold byte_ok. lia.
  - repeat constructor; unfold byte_ok; lia.
  - cbn. unfold wrap8. repeat split; lia.
Defined.
