(* ===== verification/S11User.v ===== *)
(** An S11 session (src/mme/S11/S11_User.c) and its state machine
    (src/mme/S11/S11_FSMConfig.c and the files of the six states).  The code
    runs in a small state monad over the session, the parts of the stack it
    shares with the other sessions and the effects on the outside: datagrams,
    callbacks and paging.  Transactions are objects on a heap with explicit
    allocation and deallocation, because the table of transactions and
    [active_trxn] alias them. *)
From stdpp Require Import fin_maps.
From S2P Require Import Prelude GTP Timer Subs Session S11Peer.

(** ** Data *)

(** [S11State] (S11_FSMConfig.h) *)
Inductive S11State := noCtx | wCtxRsp | ulCtx | wModBearerRsp | ctx | wDel.
#[export] Instance S11State_eq_dec : EqDecision S11State.
Proof. solve_decision. Defined.

(** [S11_TrxnT]: sequence number, the message received and the array of its
    elements (the result of [gtp2ie_decap]), which is not set at first. *)
Record S11_TrxnT := { tr_seq : Z; tr_iMsg : list Z; tr_ie : option (Z * list (list Z)) }.

(** What S11 reads of the EMM context. *)
Record emm_view := {
  ev_imsi : Z;
  ev_msisdn : Z;
  ev_sn : list Z;        (* serving network, 3 octets *)
  ev_sgw : address;
  ev_pgw : sockaddr;
  ev_subs : Subs_t;
}.

(** [S11_user_t]; a callback with its arguments is a number. *)
Record S11_user_t := {
  u_state : S11State;
  lTEID : Z;
  rTEID : list Z;        (* 4 octets, network order *)
  rAddr : address;
  s5s8 : list Z;         (* 25 octets *)
  u_emm : emm_view;
  u_session : EPS_Session_t;
  u_cause : Z;
  u_cb : option nat;
  trxns : gmap Z nat;
  active_trxn : option nat;
  theap : gmap nat S11_TrxnT;
  tnext : nat;
}.

(** The part of [S11_t] the sessions share, and the local address. *)
Record shared := { sh_seq : Z; sh_peers : peers_t; sh_restart : Z; sh_local : list Z }.

Inductive s11_out :=
  | Sent (to : address) (msg : list Z)
  | Callback (cb : nat)
  | Paging.

Record ust := { user : S11_user_t; sh : shared; out : list s11_out; removed : bool }.

(** ** The monad *)

Definition M (A : Type) : Type := ust -> outcome (A * ust).
#[export] Instance M_ret : MRet M := fun A a s => Ok (a, s).
#[export] Instance M_bind : MBind M := fun A B k m s => '(a, s) ← m s; k a s.

Definition lift {A} (o : outcome A) : M A := fun s => a ← o; Ok (a, s).
Definition fault_ {A} (f : fault) : M A := fun _ => UB f.
Definition self : M S11_user_t := fun s => Ok (user s, s).
Definition shared_ : M shared := fun s => Ok (sh s, s).
Definition set_self (u : S11_user_t) : M unit := fun s =>
  Ok (tt, {| user := u; sh := sh s; out := out s; removed := removed s |}).
Definition set_shared (h : shared) : M unit := fun s =>
  Ok (tt, {| user := user s; sh := h; out := out s; removed := removed s |}).
Definition emit (o : s11_out) : M unit := fun s =>
  Ok (tt, {| user := user s; sh := sh s; out := out s ++ [o]; removed := removed s |}).
Definition skip : M unit := mret tt.

(** Stores to single fields. *)
Definition set_state (u : S11_user_t) (x : S11State) : S11_user_t :=
  {| u_state := x; lTEID := lTEID u; rTEID := rTEID u; rAddr := rAddr u; s5s8 := s5s8 u; u_emm := u_emm u;
     u_session := u_session u; u_cause := u_cause u; u_cb := u_cb u; trxns := trxns u;
     active_trxn := active_trxn u; theap := theap u; tnext := tnext u |}.
Definition set_rTEID (u : S11_user_t) (x : list Z) : S11_user_t :=
  {| u_state := u_state u; lTEID := lTEID u; rTEID := x; rAddr := rAddr u; s5s8 := s5s8 u; u_emm := u_emm u;
     u_session := u_session u; u_cause := u_cause u; u_cb := u_cb u; trxns := trxns u;
     active_trxn := active_trxn u; theap := theap u; tnext := tnext u |}.
Definition set_s5s8 (u : S11_user_t) (x : list Z) : S11_user_t :=
  {| u_state := u_state u; lTEID := lTEID u; rTEID := rTEID u; rAddr := rAddr u; s5s8 := x; u_emm := u_emm u;
     u_session := u_session u; u_cause := u_cause u; u_cb := u_cb u; trxns := trxns u;
     active_trxn := active_trxn u; theap := theap u; tnext := tnext u |}.
Definition set_session (u : S11_user_t) (x : EPS_Session_t) : S11_user_t :=
  {| u_state := u_state u; lTEID := lTEID u; rTEID := rTEID u; rAddr := rAddr u; s5s8 := s5s8 u; u_emm := u_emm u;
     u_session := x; u_cause := u_cause u; u_cb := u_cb u; trxns := trxns u;
     active_trxn := active_trxn u; theap := theap u; tnext := tnext u |}.
Definition set_cause (u : S11_user_t) (x : Z) : S11_user_t :=
  {| u_state := u_state u; lTEID := lTEID u; rTEID := rTEID u; rAddr := rAddr u; s5s8 := s5s8 u; u_emm := u_emm u;
     u_session := u_session u; u_cause := x; u_cb := u_cb u; trxns := trxns u;
     active_trxn := active_trxn u; theap := theap u; tnext := tnext u |}.
Definition set_cb (u : S11_user_t) (x : option nat) : S11_user_t :=
  {| u_state := u_state u; lTEID := lTEID u; rTEID := rTEID u; rAddr := rAddr u; s5s8 := s5s8 u; u_emm := u_emm u;
     u_session := u_session u; u_cause := u_cause u; u_cb := x; trxns := trxns u;
     active_trxn := active_trxn u; theap := theap u; tnext := tnext u |}.
(** All the fields of the transactions. *)
Definition set_trxns (u : S11_user_t) (m : gmap Z nat) (a : option nat) (h : gmap nat S11_TrxnT) (n : nat)
  : S11_user_t :=
  {| u_state := u_state u; lTEID := lTEID u; rTEID := rTEID u; rAddr := rAddr u; s5s8 := s5s8 u; u_emm := u_emm u;
     u_session := u_session u; u_cause := u_cause u; u_cb := u_cb u; trxns := m;
     active_trxn := a; theap := h; tnext := n |}.

(** ** Header fields: [seq] is a little-endian bit field of 24 bits *)

Definition le24 (x : Z) : list Z := [x .& 0xff; (x >> 8) .& 0xff; (x >> 16) .& 0xff].
Definition le24_val (b0 b1 b2 : Z) : Z := b0 + 256 * b1 + 65536 * b2.

(** [struct t_message]: the octets received, with zeroed memory behind. *)
Record t_message := { m_bytes : list Z; m_peer : address }.
Definition m_octet (m : t_message) (i : nat) : Z := nth i (m_bytes m) 0.
Definition m_type (m : t_message) : Z := m_octet m 1.
Definition m_teid (m : t_message) : Z := be_val [m_octet m 4; m_octet m 5; m_octet m 6; m_octet m 7].
Definition m_seq (m : t_message) : Z := le24_val (m_octet m 8) (m_octet m 9) (m_octet m 10).

(** ** Transactions *)

Definition s11u_newUser (teid : Z) (emm : emm_view) (s : EPS_Session_t) : S11_user_t :=
  {| u_state := noCtx; lTEID := teid; rTEID := repeat 0 4; rAddr := ev_sgw emm; s5s8 := repeat 0 FTEID_SIZE;
     u_emm := emm; u_session := s; u_cause := 0; u_cb := None; trxns := ∅; active_trxn := None;
     theap := ∅; tnext := O |}.

(** [getNextSeq] (MME_S11.c) *)
Definition getNextSeq : M Z :=
  h ← shared_;
  set_shared {| sh_seq := (sh_seq h + 1) mod 2^24; sh_peers := sh_peers h; sh_restart := sh_restart h;
                sh_local := sh_local h |} ;;
  mret (sh_seq h).

(** [s11uTrxn_new] *)
Definition s11uTrxn_new (seq : Z) : M nat :=
  u ← self;
  let id := tnext u in
  set_self (set_trxns u (trxns u) (active_trxn u)
    (<[id := {| tr_seq := seq; tr_iMsg := []; tr_ie := None |}]> (theap u)) (S id)) ;;
  mret id.

(** [s11uTrxn_destroy] *)
Definition s11uTrxn_destroy (id : nat) : M unit :=
  u ← self;
  match theap u !! id with
  | None => fault_ UseAfterFree
  | Some _ => set_self (set_trxns u (trxns u) (active_trxn u) (delete id (theap u)) (tnext u))
  end.

(** [s11u_newTrxn]; a sequence number that is in the table already (after
    2^24 others) would leave the table with a key inside a freed object. *)
Definition s11u_newTrxn : M unit :=
  seq ← getNextSeq;
  id ← s11uTrxn_new seq;
  u ← self;
  match trxns u !! seq with
  | Some _ => fault_ UseAfterFree
  | None => set_self (set_trxns u (<[seq := id]> (trxns u)) (Some id) (theap u) (tnext u))
  end.

Definition s11u_hasPendingResp (u : S11_user_t) (seq : Z) : option nat := trxns u !! seq.

Definition validateSourceAddr (u : S11_user_t) (src : address) : bool := bool_decide (rAddr u = src).

(** [self->active_trxn->...] *)
Definition active : M (nat * S11_TrxnT) :=
  u ← self;
  match active_trxn u with
  | None => fault_ NullDeref
  | Some id => match theap u !! id with Some t => mret (id, t) | None => fault_ UseAfterFree end
  end.
Definition store_trxn (id : nat) (t : S11_TrxnT) : M unit :=
  u ← self; set_self (set_trxns u (trxns u) (active_trxn u) (<[id := t]> (theap u)) (tnext u)).

(** ** Sending *)

(** [s11__send]: [o] is [oMsg] and [len] is [oMsglen]; [sendto] does not fail. *)
Definition s11__send (o : list Z) (len : Z) : M unit :=
  '(_, t) ← active;
  u ← self;
  o ← lift (overwrite o 8 (le24 (tr_seq t)));
  o ← lift (overwrite o 4 (rTEID u));
  emit (Sent (rAddr u) (take (Z.to_nat len) o)).
Definition s11u_send (o : list Z) (len : Z) : M unit := s11__send o len.
Definition s11_send_resp (o : list Z) (len : Z) : M unit :=
  s11__send o len ;;
  u ← self;
  match active_trxn u with None => fault_ NullDeref | Some id => s11uTrxn_destroy id end.

(** The memory of [oMsg]. *)
Definition gtp_packet_mem : list Z := repeat 0 (Z.to_nat (12 + GTPIE_MAX)).

(** Header and elements of a message. *)
Definition build_msg (type : Z) (ies : list (list Z)) : outcome (list Z * Z) :=
  '(len, o) ← get_default_gtp 2 type gtp_packet_mem;
  '(_, o, len) ← gtp2ie_encaps ies o len;
  Ok (o, len).

Definition isFirstSessionForSGW : M bool :=
  u ← self; h ← shared_;
  '(b, p) ← lift (S11_isFirstSession (sh_peers h) (rAddr u));
  set_shared {| sh_seq := sh_seq h; sh_peers := p; sh_restart := sh_restart h; sh_local := sh_local h |} ;;
  mret b.

(** ** Constants of the elements *)

Definition GTPV2C_IE_IMSI : Z := 1.
Definition GTPV2C_IE_CAUSE : Z := 2.
Definition GTPV2C_IE_APN : Z := 71.
Definition GTPV2C_IE_AMBR : Z := 72.
Definition GTPV2C_IE_EBI : Z := 73.
Definition GTPV2C_IE_MSISDN : Z := 76.
Definition GTPV2C_IE_INDICATION : Z := 77.
Definition GTPV2C_IE_PCO : Z := 78.
Definition GTPV2C_IE_PAA : Z := 79.
Definition GTPV2C_IE_BEARER_LEVEL_QOS : Z := 80.
Definition GTPV2C_IE_RAT_TYPE : Z := 82.
Definition GTPV2C_IE_SERVING_NETWORK : Z := 83.
Definition GTPV2C_IE_FTEID : Z := 87.
Definition GTPV2C_IE_BEARER_CONTEXT : Z := 93.
Definition GTPV2C_IE_PDN_TYPE : Z := 99.
Definition GTPV2C_IE_APN_RESTRICTION : Z := 127.
Definition GTPV2C_IE_SELECTION_MODE : Z := 128.
Definition GTPV2C_CAUSE_REQUEST_ACCEPTED : Z := 16.
Definition S11_MME : Z := 10.
Definition S11S4_SGW : Z := 11.
Definition S5S8C_PGW : Z := 7.
Definition FTEID_IP4_SIZE : nat := 9.

(** ** Requests *)

Definition fteid_octets (f : fteid_t) : list Z :=
  ((ft_iface f .& 0x3f) .| (Z.b2z (ft_ipv6 f) << 6) .| (Z.b2z (ft_ipv4 f) << 7)) :: ft_teid f ++ ft_addr f.

(** The F-TEID of the MME: the local control TEID and address. *)
Definition local_fteid (u : S11_user_t) (h : shared) : fteid_t :=
  {| ft_iface := S11_MME; ft_ipv6 := false; ft_ipv4 := true; ft_teid := be32 (lTEID u);
     ft_addr := sh_local h |}.

(** A grouped element: [gtp2ie_encaps_group] into the [union gtpie_member] at
    [mem] and the octets of it that count. *)
Definition group_ie_at (mem : list Z) (type : Z) (ies : list (list Z)) : outcome (list Z) :=
  '(_, to) ← gtp2ie_encaps_group type 0 mem ies;
  l ← ie_l to;
  rdn to (4 + l).
Definition gtpie_mem : list Z := repeat 0 (Z.to_nat GTPIE_MAX).
Definition group_ie : Z -> list (list Z) -> outcome (list Z) := group_ie_at gtpie_mem.

(** [sprintf(dst, apn, len)]: the name is the format. *)
Definition sprintf_apn (a : list Z) : outcome (list Z) :=
  if bool_decide (37 ∈ a) then UB BadFormat else Ok a.

(** The elements [sendCreateSessionReq] puts before the bearer context. *)
Definition CreateSession_ies (u : S11_user_t) (h : shared) (name : list Z) (opt : option (list Z)) : list tliv :=
  let subs := ev_subs (u_emm u) in
  let '(ul_64, dl_64) := subs_getUEAMBR subs in
  let fteid := local_fteid u h in
  let fteid_pgw := gtp_socktofeid fteid S5S8C_PGW 0 (ev_pgw (u_emm u)) in
  [ Tliv GTPV2C_IE_IMSI 0 (dec2tbcd (ev_imsi (u_emm u)));
    Tliv GTPV2C_IE_MSISDN 0 (dec2tbcd (ev_msisdn (u_emm u)));
    Tliv GTPV2C_IE_SERVING_NETWORK 0 (ev_sn (u_emm u));
    Tliv GTPV2C_IE_RAT_TYPE 0 [6];
    Tliv GTPV2C_IE_FTEID 0 (take FTEID_IP4_SIZE (fteid_octets fteid));
    Tliv GTPV2C_IE_FTEID 1 (take FTEID_IP4_SIZE (fteid_octets fteid_pgw));
    Tliv GTPV2C_IE_APN 0 name;
    Tliv GTPV2C_IE_SELECTION_MODE 0 [1];
    Tliv GTPV2C_IE_PDN_TYPE 0 [subs_getPDNType subs];
    Tliv GTPV2C_IE_PAA 0 [1; 0; 0; 0; 0];
    Tliv GTPV2C_IE_APN_RESTRICTION 0 [0];
    Tliv GTPV2C_IE_AMBR 0 (be32 (wrap32 ul_64 / 1000) ++ be32 (wrap32 dl_64 / 1000)) ]
  ++ match opt with Some v => [Tliv GTPV2C_IE_PCO 0 v] | None => [] end.

(** The Recovery element goes into the first session with a gateway. *)
Definition recovery_ies (first : bool) (h : shared) : list (list Z) :=
  if first then [tliv_bytes (Tliv GTPV2C_IE_RECOVERY 0 [sh_restart h])] else [].

Definition sendCreateSessionReq : M unit :=
  u ← self; h ← shared_;
  let subs := ev_subs (u_emm u) in
  let qos := subs_cpyQoS_GTP subs in
  s11u_newTrxn ;;
  name ← lift (sprintf_apn (subs_getAPN subs));
  opt ← lift (ePSsession_getPCO (u_session u));
  let bearer := ePSsession_getDefaultBearer (u_session u) in
  group ← lift (group_ie GTPV2C_IE_BEARER_CONTEXT
    [ tliv_bytes (Tliv GTPV2C_IE_EBI 0 [esm_bc_getEBI bearer]);
      tliv_bytes (Tliv GTPV2C_IE_BEARER_LEVEL_QOS 0 (qos_bytes qos)) ]);
  first ← isFirstSessionForSGW;
  '(o, len) ← lift (build_msg GTP2_CREATE_SESSION_REQ
    (map tliv_bytes (CreateSession_ies u h name opt) ++ [group] ++ recovery_ies first h));
  s11u_send o len.

Definition sendModifyBearerReq : M unit :=
  u ← self; h ← shared_;
  s11u_newTrxn ;;
  let bearer := ePSsession_getDefaultBearer (u_session u) in
  enb ← lift (esm_bc_getS1ueNBfteid bearer);
  group ← lift (group_ie GTPV2C_IE_BEARER_CONTEXT
    [ tliv_bytes (Tliv GTPV2C_IE_EBI 0 [esm_bc_getEBI bearer]); tliv_bytes (Tliv GTPV2C_IE_FTEID 0 enb) ]);
  '(o, len) ← lift (build_msg GTP2_MODIFY_BEARER_REQ
    [ tliv_bytes (Tliv GTPV2C_IE_FTEID 0 (take FTEID_IP4_SIZE (fteid_octets (local_fteid u h)))); group ]);
  s11u_send o len.

Definition sendDeleteSessionReq : M unit :=
  s11u_newTrxn ;;
  '(o, len) ← lift (build_msg GTP2_DELETE_SESSION_REQ
    [ tliv_bytes (Tliv GTPV2C_IE_EBI 0 [5]); tliv_bytes (Tliv GTPV2C_IE_INDICATION 0 [8; 0; 0; 0]) ]);
  s11u_send o len.

Definition sendReleaseAccessBearersReq : M unit :=
  s11u_newTrxn ;;
  '(len, o) ← lift (get_default_gtp 2 GTP2_RELEASE_ACCESS_BEARERS_REQ gtp_packet_mem);
  s11u_send o len.

Definition sendDownlinkDataNotificationAck : M unit :=
  active ;;
  '(o, len) ← lift (build_msg GTP2_DOWNLINK_DATA_NOTIFICATION_ACK
    [ tliv_bytes (Tliv GTPV2C_IE_CAUSE 0 [GTPV2C_CAUSE_REQUEST_ACCEPTED; 0]) ]);
  s11_send_resp o len.

(** ** Responses *)

Definition parseIEs : M unit :=
  '(id, t) ← active;
  ies ← lift (gtp2ie_decap (tr_iMsg t) (Z.of_nat (length (tr_iMsg t))));
  store_trxn id {| tr_seq := tr_seq t; tr_iMsg := tr_iMsg t; tr_ie := Some ies |}.

Definition getMsgType : M Z := '(_, t) ← active; lift (rdi (tr_iMsg t) 1).

(** [gtp2ie_gettliv(self->active_trxn->ie, t, i, value, &vsize)]: the octets
    copied to [value]. *)
Definition active_gettliv (t i : Z) : M (list Z) :=
  '(_, tr) ← active;
  match tr_ie tr with
  | None => fault_ Uninitialised
  | Some a => lift (ie_gettliv a t i)
  end.

(** The [Cause] element into [value[2]], which is not initialised. *)
Definition cause_value : M Z :=
  v ← active_gettliv GTPV2C_IE_CAUSE 0;
  if 2 <? Z.of_nat (length v) then fault_ OutOfBounds
  else match v with [] => fault_ Uninitialised | b :: _ => mret b end.

(** The tests [if(vsize=2)] always hold. *)
Definition accepted : M bool :=
  c ← cause_value;
  u ← self; set_self (set_cause u c) ;;
  mret (c =? GTPV2C_CAUSE_REQUEST_ACCEPTED).
Definition cause : M Z := cause_value.

Definition s11u_setS11fteid (fteid : list Z) : M unit :=
  i ← lift (fteid_iface fteid);
  if negb (i =? S11S4_SGW) then fault_ Aborted
  else
    teid ← lift (rdn (adv fteid 1) 4);
    u ← self; set_self (set_rTEID u teid).

Definition check_restart (counter : Z) : M unit :=
  u ← self; h ← shared_;
  set_shared {| sh_seq := sh_seq h; sh_peers := (S11_checkPeerRestart (sh_peers h) (rAddr u) counter).2;
                sh_restart := sh_restart h; sh_local := sh_local h |}.

(** [update_session f]: a call of a setter of the session. *)
Definition update_session (f : EPS_Session_t -> outcome EPS_Session_t) : M unit :=
  u ← self; s ← lift (f (u_session u)); set_self (set_session u s).
Definition update_bearer (f : ESM_BearerContext_t -> outcome ESM_BearerContext_t) : M unit :=
  update_session (fun s => b ← f (defaultBearer s); Ok (with_bearer s b)).

(** [if(value != NULL && vsize>0) ...] *)
Definition when_present (v : list Z) (k : M unit) : M unit :=
  if bool_decide (v = []) then skip else k.

(** The bearer context of [parseCtxRsp]: [value] is the array the group was
    copied to, [vsize] its length; TRUE when the function returns early.  The
    array of pointers was zeroed. *)
Definition parseCtxRsp_bearer (value : list Z) (vsize : Z) : M bool :=
  '(_, ies, _) ← lift (gtp2ie_decaps_group value vsize);
  '(_, b, _) ← lift (gtp2ie_gettliv ies GTPV2C_IE_EBI 0);
  u ← self;
  match b with
  | [] => fault_ Uninitialised
  | b :: _ =>
    if negb (esm_bc_getEBI (defaultBearer (u_session u)) =? b) then mret true
    else
      '(_, v, n) ← lift (gtp2ie_gettliv ies GTPV2C_IE_FTEID 0);
      when_present v (update_bearer (fun b => esm_bc_setS1uSGWfteid b v n)) ;;
      '(_, v, n) ← lift (gtp2ie_gettliv ies GTPV2C_IE_FTEID 2);
      when_present v (update_bearer (fun b => esm_bc_setS5S8uPGWfteid b v n)) ;;
      mret false
  end.

Definition GTP2IE_MAX : nat := Z.to_nat 65531.

(** [value] after copying [v] over it. *)
Definition copy_value (value v : list Z) : M (list Z) := lift (overwrite value 0 v).

(** [parseCtxRsp] with the array [value[GTP2IE_MAX]], which is zeroed first. *)
Definition parseCtxRsp_at (value : list Z) : M unit :=
  v ← active_gettliv GTPV2C_IE_FTEID 0;
  value ← copy_value value v;
  when_present v (s11u_setS11fteid value) ;;
  v ← active_gettliv GTPV2C_IE_FTEID 1;
  value ← copy_value value v;
  when_present v (u ← self; f ← lift (overwrite (s5s8 u) 0 v); set_self (set_s5s8 u f)) ;;
  v ← active_gettliv GTPV2C_IE_PAA 0;
  value ← copy_value value v;
  when_present v (update_session (fun s => ePSsession_setPDNAddress s v (Z.of_nat (length v)))) ;;
  v ← active_gettliv GTPV2C_IE_PCO 0;
  value ← copy_value value v;
  when_present v (update_session (fun s => ePSsession_setPCO s v (Z.of_nat (length v)))) ;;
  v ← active_gettliv GTPV2C_IE_BEARER_CONTEXT 0;
  value ← copy_value value v;
  early ← (if bool_decide (v = []) then mret false else parseCtxRsp_bearer value (Z.of_nat (length v)));
  if negb early then
    v ← active_gettliv GTPV2C_IE_RECOVERY 0;
    when_present v (c ← lift (rd v); check_restart c)
  else skip.
Definition parseCtxRsp : M unit := parseCtxRsp_at (repeat 0 GTP2IE_MAX).

(** The pointers of the group, after the array they point into has changed. *)
Definition repoint (value : list Z) (ies : list (list Z)) : list (list Z) :=
  map (fun p => drop (length value - length p) value) ies.

(** [parseModBearerRsp]: FALSE when it sets [err].  The group is copied to
    [value[40]] and split in place; the elements are then copied over the
    array the pointers point into. *)
Definition parseModBearerRsp : M bool :=
  v ← active_gettliv GTPV2C_IE_BEARER_CONTEXT 0;
  if 40 <? Z.of_nat (length v) then fault_ OutOfBounds
  else if bool_decide (v = []) then mret true
  else
    '(r, ies, _) ← lift (gtp2ie_decaps_group v (Z.of_nat (length v)));
    b ← lift (ie_gettliv (r, ies) GTPV2C_IE_EBI 0);
    value ← copy_value v b;
    u ← self;
    first ← lift (rd value);
    if negb (Z.of_nat (length b) =? 1) && negb (esm_bc_getEBI (defaultBearer (u_session u)) =? first)
    then mret false
    else
      f ← lift (ie_gettliv (r, repoint value ies) GTPV2C_IE_FTEID 0);
      if Z.of_nat FTEID_SIZE <? Z.of_nat (length f) then fault_ OutOfBounds else mret true.

Definition parseDelCtxRsp : M unit := u ← self; set_self (set_rTEID u (repeat 0 4)).

(** ** Control *)

Definition s11u_setState (x : S11State) : M unit := u ← self; set_self (set_state u x).
Definition s11changeState (x : S11State) : M unit := s11u_setState x.

Definition returnControl : M unit :=
  u ← self; match u_cb u with Some c => emit (Callback c) | None => skip end.

(** [s11u_freeUser]: the destroy function of the table of the transactions
    frees each of them. *)
Definition s11u_freeUser : M unit :=
  u ← self; h ← shared_;
  p ← lift (S11_unrefSession (sh_peers h) (rAddr u));
  set_shared {| sh_seq := sh_seq h; sh_peers := p; sh_restart := sh_restart h; sh_local := sh_local h |} ;;
  if bool_decide (map_Forall (fun _ id => is_Some (theap u !! id)) (trxns u)) then skip
  else fault_ UseAfterFree.

(** [s11_deleteSession] (MME_S11.c) *)
Definition leave_table : M unit := fun s =>
  Ok (tt, {| user := user s; sh := sh s; out := out s; removed := true |}).
Definition s11_deleteSession : M unit := s11u_freeUser ;; leave_table.

Definition returnControlAndRemoveSession : M unit :=
  u ← self;
  s11_deleteSession ;;
  match u_cb u with Some c => emit (Callback c) | None => skip end.

Definition dl_data_not : M unit := emit Paging.

(** ** The states *)

(** [S11_State] (S11_State.h): the handlers of a state. *)
Record S11_State := {
  h_processMsg : M unit;
  h_attach : M unit;
  h_detach : M unit;
  h_modBearer : M unit;
  h_releaseAccess : M unit;
}.

(** [log_msg(LOG_ERR, 0, "Not Implemented")] *)
Definition not_implemented : M unit := skip.

Definition linkNoCtx : S11_State := {|
  h_processMsg := not_implemented;
  h_attach := sendCreateSessionReq ;; s11changeState wCtxRsp;
  h_detach := not_implemented;
  h_modBearer := not_implemented;
  h_releaseAccess := not_implemented;
|}.

(** [if(!accepted(self)) log_msg(..., cause(self))] *)
Definition log_rejection : M unit := a ← accepted; if negb a then cause ;; skip else skip.

Definition WCtxRsp_processMsg : M unit :=
  parseIEs ;;
  ty ← getMsgType;
  if ty =? GTP2_CREATE_SESSION_RSP then
    log_rejection ;; parseCtxRsp ;; s11changeState ulCtx ;; returnControl
  else skip.
Definition linkWCtxRsp : S11_State := {|
  h_processMsg := WCtxRsp_processMsg;
  h_attach := not_implemented;
  h_detach := not_implemented;
  h_modBearer := not_implemented;
  h_releaseAccess := not_implemented;
|}.

Definition UlCtx_processMsg : M unit :=
  parseIEs ;;
  ty ← getMsgType;
  if ty =? GTP2_DOWNLINK_DATA_NOTIFICATION then sendDownlinkDataNotificationAck ;; dl_data_not else skip.
Definition linkUlCtx : S11_State := {|
  h_processMsg := UlCtx_processMsg;
  h_attach := not_implemented;
  h_detach := sendDeleteSessionReq ;; s11changeState wDel;
  h_modBearer := sendModifyBearerReq ;; s11changeState wModBearerRsp;
  h_releaseAccess := not_implemented;
|}.

Definition WModBearerRsp_processMsg : M unit :=
  parseIEs ;;
  ty ← getMsgType;
  if ty =? GTP2_MODIFY_BEARER_RSP then
    log_rejection ;;
    ok ← parseModBearerRsp;
    if negb ok then skip else s11changeState ctx ;; returnControl
  else if ty =? GTP2_RELEASE_ACCESS_BEARERS_RSP then
    log_rejection ;; s11changeState ulCtx ;; returnControl
  else skip.
Definition linkWModBearerRsp : S11_State := {|
  h_processMsg := WModBearerRsp_processMsg;
  h_attach := not_implemented;
  h_detach := not_implemented;
  h_modBearer := not_implemented;
  h_releaseAccess := not_implemented;
|}.

Definition linkCtx : S11_State := {|
  h_processMsg := not_implemented;
  h_attach := not_implemented;
  h_detach := sendDeleteSessionReq ;; s11changeState wDel;
  h_modBearer := sendModifyBearerReq ;; s11changeState wModBearerRsp;
  h_releaseAccess := sendReleaseAccessBearersReq ;; s11changeState wModBearerRsp;
|}.

Definition WDel_processMsg : M unit :=
  parseIEs ;;
  ty ← getMsgType;
  if ty =? GTP2_DELETE_SESSION_RSP then
    log_rejection ;; parseDelCtxRsp ;; s11changeState noCtx ;; returnControlAndRemoveSession
  else skip.
Definition linkWDel : S11_State := {|
  h_processMsg := WDel_processMsg;
  h_attach := skip;
  h_detach := skip;
  h_modBearer := skip;
  h_releaseAccess := not_implemented;
|}.

(** [s11_states], as [s11ConfigureFSM] fills it. *)
Definition s11_states (x : S11State) : S11_State :=
  match x with
  | noCtx => linkNoCtx
  | wCtxRsp => linkWCtxRsp
  | ulCtx => linkUlCtx
  | wModBearerRsp => linkWModBearerRsp
  | ctx => linkCtx
  | wDel => linkWDel
  end.

(** ** The entry points *)

Definition processMsg (msg : t_message) : M unit :=
  u ← self;
  id ← match s11u_hasPendingResp u (m_seq msg) with
       | Some id => mret id
       | None => s11uTrxn_new (m_seq msg)
       end;
  u ← self;
  set_self (set_trxns u (trxns u) (Some id) (theap u) (tnext u)) ;;
  '(_, t) ← active;
  store_trxn id {| tr_seq := tr_seq t; tr_iMsg := m_bytes msg; tr_ie := tr_ie t |} ;;
  u ← self;
  if negb (validateSourceAddr u (m_peer msg)) then skip
  else h_processMsg (s11_states (u_state u)).

(** [self->cb = cb; self->args = args; self->state->...(self)] *)
Definition request (h : S11_State -> M unit) (cb : option nat) : M unit :=
  u ← self; set_self (set_cb u cb) ;; h (s11_states (u_state u)).
Definition attach : option nat -> M unit := request h_attach.
Definition detach : option nat -> M unit := request h_detach.
Definition modBearer : option nat -> M unit := request h_modBearer.
Definition releaseAccess : option nat -> M unit := request h_releaseAccess.
