(* ===== verification/S11FSM.v ===== *)
(** The state machine of an S11 session: an abstract machine (which request is
    sent in which state, which response moves it) and the theorem that the
    handlers of [S11User] implement it; what a run of requests and messages
    can do.  [Keeps] collects the operations that neither change the state of
    the machine nor have an effect on the outside. *)
From stdpp Require Import fin_maps relations.
From S2P Require Import Prelude GTP Timer Subs Session S11Peer S11User.

(** ** Operations that keep the view from outside *)

Definition view (s : ust) :=
  (u_state (user s), rAddr (user s), u_cb (user s), lTEID (user s), out s, removed s).

Class Keeps {A} (m : M A) : Prop := keeps : forall s a s', m s = Ok (a, s') -> view s' = view s.

#[export] Instance keeps_ret A (a : A) : Keeps (mret a).
Proof. intros s b s' [= <- <-]. done. Qed.
#[export] Instance keeps_skip : Keeps skip.
Proof. apply keeps_ret. Qed.
Lemma keeps_bind A B (m : M A) (k : A -> M B) : Keeps m -> (forall a, Keeps (k a)) -> Keeps (m ≫= k).
Proof.
  intros Hm Hk s b s' E. unfold mbind, M_bind in E. apply bind_Ok in E as ([a s1] & E1 & E2).
  rewrite (Hk a s1 b s' E2). exact (Hm s a s1 E1).
Qed.
#[export] Instance keeps_lift A (o : outcome A) : Keeps (lift o).
Proof. intros s a s' E. apply bind_Ok in E as (b & _ & [= <- <-]). done. Qed.
#[export] Instance keeps_fault A f : Keeps (@fault_ A f).
Proof. done. Qed.
#[export] Instance keeps_self : Keeps self.
Proof. by intros s a s' [= <- <-]. Qed.
#[export] Instance keeps_shared : Keeps shared_.
Proof. by intros s a s' [= <- <-]. Qed.
#[export] Instance keeps_set_shared h : Keeps (set_shared h).
Proof. by intros s a s' [= <- <-]. Qed.

(** Reading the session and storing it with fields changed that the view does
    not have. *)
Definition user_view (u : S11_user_t) := (u_state u, rAddr u, u_cb u, lTEID u).
Lemma keeps_update A (f : S11_user_t -> M A) :
  (forall u s a s', user s = u -> f u s = Ok (a, s') -> view s' = view s) -> Keeps (u ← self; f u).
Proof. intros H s a s' E. exact (H (user s) s a s' eq_refl E). Qed.

Lemma set_self_view u s a s' : user_view u = user_view (user s) -> set_self u s = Ok (a, s') -> view s' = view s.
Proof. intros Hu [= <- <-]. unfold view, user_view in *. cbn. congruence. Qed.

(** One field group of the session is replaced. *)
Lemma keeps_set (f : S11_user_t -> S11_user_t) : (forall u, user_view (f u) = user_view u) ->
  Keeps (u ← self; set_self (f u)).
Proof. intros H. apply keeps_update. intros u s a s' <- E. exact (set_self_view _ _ _ _ (H _) E). Qed.

Ltac stored E := refine (set_self_view _ _ _ _ _ E); reflexivity.

Ltac keeps_tac :=
  repeat first
    [ apply keeps_ret | apply keeps_skip | apply keeps_lift | apply keeps_fault | apply keeps_self
    | apply keeps_shared | apply keeps_set_shared | done
    | typeclasses eauto
    | (apply keeps_set; done)
    | (apply keeps_bind; [|intros])
    | match goal with
      | |- Keeps (match ?x with _ => _ end) => destruct x
      | |- Keeps (if ?x then _ else _) => destruct x
      end ].

#[export] Instance keeps_getNextSeq : Keeps getNextSeq.
Proof. unfold getNextSeq. keeps_tac. Qed.
#[export] Instance keeps_Trxn_new seq : Keeps (s11uTrxn_new seq).
Proof.
  unfold s11uTrxn_new. apply keeps_update. intros u s a s' <- E.
  unfold mbind, M_bind in E. apply bind_Ok in E as ([[] s1] & E1 & E2). rewrite (keeps _ _ _ E2). stored E1.
Qed.
#[export] Instance keeps_newTrxn : Keeps s11u_newTrxn.
Proof.
  unfold s11u_newTrxn. apply keeps_bind; [apply _|]. intros seq. apply keeps_bind; [apply _|]. intros id.
  apply keeps_update. intros u s a s' <- E. destruct (trxns (user s) !! seq); [done|]. stored E.
Qed.
#[export] Instance keeps_Trxn_destroy id : Keeps (s11uTrxn_destroy id).
Proof.
  unfold s11uTrxn_destroy. apply keeps_update. intros u s a s' <- E.
  destruct (theap (user s) !! id); [|done]. stored E.
Qed.
#[export] Instance keeps_active : Keeps active.
Proof. unfold active. keeps_tac. Qed.
#[export] Instance keeps_store_trxn id t : Keeps (store_trxn id t).
Proof. by apply keeps_set. Qed.
#[export] Instance keeps_first : Keeps isFirstSessionForSGW.
Proof. unfold isFirstSessionForSGW. keeps_tac. Qed.
#[export] Instance keeps_parseIEs : Keeps parseIEs.
Proof. unfold parseIEs. keeps_tac. Qed.
#[export] Instance keeps_getMsgType : Keeps getMsgType.
Proof. unfold getMsgType. keeps_tac. Qed.
#[export] Instance keeps_gettliv t i : Keeps (active_gettliv t i).
Proof. unfold active_gettliv. keeps_tac. Qed.
#[export] Instance keeps_cause : Keeps cause_value.
Proof. unfold cause_value. keeps_tac. Qed.
Lemma keeps_set_then A (f : S11_user_t -> S11_user_t) (m : M A) : (forall u, user_view (f u) = user_view u) ->
  Keeps m -> Keeps (u ← self; set_self (f u) ;; m).
Proof.
  intros Hf Hm. apply keeps_update. intros u s a s' <- E. unfold mbind, M_bind in E.
  apply bind_Ok in E as ([[] s1] & E1 & E2). rewrite (Hm _ _ _ E2). exact (set_self_view _ _ _ _ (Hf _) E1).
Qed.
#[export] Instance keeps_accepted : Keeps accepted.
Proof. unfold accepted. apply keeps_bind; [apply _|]. intros c. apply keeps_set_then; [done|apply _]. Qed.
#[export] Instance keeps_log_rejection : Keeps log_rejection.
Proof. unfold log_rejection, cause. keeps_tac. Qed.
#[export] Instance keeps_setS11fteid f : Keeps (s11u_setS11fteid f).
Proof. unfold s11u_setS11fteid. keeps_tac. Qed.
#[export] Instance keeps_check_restart c : Keeps (check_restart c).
Proof. unfold check_restart. keeps_tac. Qed.
#[export] Instance keeps_update_session f : Keeps (update_session f).
Proof.
  unfold update_session. apply keeps_update. intros u s a s' <- E. unfold mbind, M_bind in E.
  apply bind_Ok in E as ([x s1] & E1 & E2). apply bind_Ok in E1 as (y & _ & [= <- <-]). stored E2.
Qed.
#[export] Instance keeps_update_bearer f : Keeps (update_bearer f).
Proof. apply keeps_update_session. Qed.
Lemma keeps_when v m : Keeps m -> Keeps (when_present v m).
Proof. intros. unfold when_present. keeps_tac. Qed.
#[export] Instance keeps_copy_value a b : Keeps (copy_value a b).
Proof. apply keeps_lift. Qed.
#[export] Instance keeps_parseCtxRsp_bearer a b : Keeps (parseCtxRsp_bearer a b).
Proof. unfold parseCtxRsp_bearer, when_present. keeps_tac. Qed.
Lemma keeps_set_s5s8 v : Keeps (u ← self; f ← lift (overwrite (s5s8 u) 0 v); set_self (set_s5s8 u f)).
Proof.
  apply keeps_update. intros u s a s' <- E. unfold mbind, M_bind in E.
  apply bind_Ok in E as ([x s1] & E1 & E2). apply bind_Ok in E1 as (y & _ & [= <- <-]). stored E2.
Qed.
#[export] Instance keeps_parseCtxRsp : Keeps parseCtxRsp.
Proof.
  unfold parseCtxRsp, parseCtxRsp_at. generalize (repeat 0 GTP2IE_MAX). intros mem.
  repeat (apply keeps_bind; [first [apply _ | apply keeps_when; first [apply _ | apply keeps_set_s5s8] | idtac]|intros]).
  - keeps_tac.
  - unfold when_present. keeps_tac.
Qed.
#[export] Instance keeps_parseModBearerRsp : Keeps parseModBearerRsp.
Proof. unfold parseModBearerRsp. keeps_tac. Qed.
#[export] Instance keeps_parseDelCtxRsp : Keeps parseDelCtxRsp.
Proof. by apply keeps_set. Qed.

(** ** Effects *)

Lemma M_bind_Ok A B (m : M A) (k : A -> M B) s b s' :
  (m ≫= k) s = Ok (b, s') -> exists a s1, m s = Ok (a, s1) /\ k a s1 = Ok (b, s').
Proof. intros E. unfold mbind, M_bind in E. apply bind_Ok in E as ([a s1] & E1 & E2). by exists a, s1. Qed.

Definition add_out (s : ust) (o : list s11_out) :=
  (u_state (user s), rAddr (user s), u_cb (user s), lTEID (user s), out s ++ o, removed s).

(** [m] sends one message of type [ty] to the gateway and nothing else. *)
Definition Sends {A} (ty : Z) (m : M A) : Prop := forall s a s', m s = Ok (a, s') ->
  exists msg, nth 1 msg 0 = ty /\ view s' = add_out s [Sent (rAddr (user s)) msg].

Lemma view_eq s s' : view s' = view s -> u_state (user s') = u_state (user s) /\
  rAddr (user s') = rAddr (user s) /\ u_cb (user s') = u_cb (user s) /\ lTEID (user s') = lTEID (user s) /\
  out s' = out s /\ removed s' = removed s.
Proof. unfold view. intros E. by simplify_eq. Qed.

Lemma add_out_view s s' o : view s' = view s -> add_out s' o = add_out s o.
Proof. intros (E1 & E2 & E3 & E4 & E5 & E6)%view_eq. unfold add_out. congruence. Qed.

Lemma sends_bind_l A B ty (m : M A) (k : A -> M B) : Keeps m -> (forall a, Sends ty (k a)) -> Sends ty (m ≫= k).
Proof.
  intros Hm Hk s b s' (a & s1 & E1 & E2)%M_bind_Ok. apply Hm in E1. apply Hk in E2 as (msg & Ht & Ev).
  exists msg. split; [done|]. rewrite Ev, (add_out_view _ _ _ E1). apply view_eq in E1 as (_ & -> & _). done.
Qed.
Lemma sends_bind_r A B ty (m : M A) (k : A -> M B) : Sends ty m -> (forall a, Keeps (k a)) -> Sends ty (m ≫= k).
Proof.
  intros Hm Hk s b s' (a & s1 & E1 & E2)%M_bind_Ok. apply Hm in E1 as (msg & Ht & Ev).
  exists msg. split; [done|]. rewrite (Hk _ _ _ _ E2). done.
Qed.

(** *** The type octet of the messages built *)

Lemma overwrite_split dst off src r : overwrite dst off src = Ok r -> 0 <= off ->
  r = take (Z.to_nat off) dst ++ src ++ drop (Z.to_nat off + length src) dst /\
  (Z.to_nat off + length src <= length dst)%nat.
Proof.
  unfold overwrite. destruct (Z.ltb_spec (Z.of_nat (length dst)) (off + Z.of_nat (length src))); [done|].
  intros [= <-] ?. split; [done|lia].
Qed.

Lemma overwrite_nth dst off src r i : overwrite dst off src = Ok r -> Z.of_nat i < off ->
  nth i r 0 = nth i dst 0.
Proof.
  intros E Hi. apply overwrite_split in E as (-> & Hl); [|lia].
  rewrite app_nth1 by (rewrite length_take; lia).
  rewrite <- (take_drop (Z.to_nat off) dst) at 2. by rewrite app_nth1 by (rewrite length_take; lia).
Qed.

(** The length field of an element is not negative. *)
Definition len_nonneg (ie : list Z) : Prop := 0 <= nth 1 ie 0 /\ 0 <= nth 2 ie 0.

Lemma ie_l_nonneg ie l : len_nonneg ie -> ie_l ie = Ok l -> 0 <= l.
Proof.
  intros [H1 H2] E. unfold ie_l in E.
  destruct ie as [|a [|b [|c ie]]]; try discriminate E. cbn in H1, H2.
  change (adv (a :: b :: c :: ie) 1) with ([b; c] ++ ie) in E. rewrite rdn_app in E by done.
  cbn in E. injection E as <-. lia.
Qed.
Lemma tliv_len_nonneg e : len_nonneg (tliv_bytes e).
Proof. unfold tliv_bytes. rewrite be16_arith. split; cbn; lia. Qed.
Lemma take_len_nonneg n ie : len_nonneg ie -> len_nonneg (take n ie).
Proof.
  intros [H1 H2]. destruct n as [|[|[|n]]], ie as [|a [|b [|c ie]]]; split; cbn in *; done.
Qed.

Lemma encaps_group_nonneg ies : Forall len_nonneg ies -> forall to p r to', 4 <= p -> len_nonneg to ->
  encaps_group_loop ies to p = Ok (r, to') -> len_nonneg to'.
Proof.
  induction 1 as [|ie ies Hie _ IH]; intros to p r to' Hp Hto E; cbn [encaps_group_loop] in E; [by simplify_eq|].
  apply bind_Ok in E as (l & El & E). apply ie_l_nonneg in El; [|done].
  destruct (_ <? _); [|by simplify_eq]. apply bind_Ok in E as (b & Eb & E).
  apply bind_Ok in E as (t1 & E1 & E). apply bind_Ok in E as (gl & Egl & E). apply bind_Ok in E as (t2 & E2 & E).
  eapply IH; [|  |exact E]; [lia|]. apply overwrite_split in E2 as (-> & Hl); [|lia].
  change (Z.to_nat 1) with 1%nat in *. destruct t1 as [|x t1]; [cbn in Hl; lia|].
  rewrite be16_arith. unfold len_nonneg.
  cbn [take app nth]. rewrite take_0. cbn [app nth]. lia.
Qed.

Lemma group_ie_at_nonneg mem ty ies ie : Forall len_nonneg ies -> group_ie_at mem ty ies = Ok ie -> len_nonneg ie.
Proof.
  intros H E. unfold group_ie_at in E.
  apply bind_Ok in E as ([r to] & E1 & E). apply bind_Ok in E as (l & _ & E).
  unfold gtp2ie_encaps_group in E1. apply bind_Ok in E1 as (t0 & E0 & E1).
  unfold rdn in E. destruct (_ <? _); [done|]. injection E as <-. apply take_len_nonneg.
  eapply encaps_group_nonneg; [exact H| | |exact E1]; [lia|].
  apply overwrite_split in E0 as (-> & _); [|lia]. rewrite take_0. unfold len_nonneg. cbn [app nth]. lia.
Qed.
Lemma group_ie_nonneg ty ies ie : Forall len_nonneg ies -> group_ie ty ies = Ok ie -> len_nonneg ie.
Proof. apply group_ie_at_nonneg. Qed.

Lemma encaps_loop_type ies : Forall len_nonneg ies -> forall pack p end_ r pack' len', 12 <= p -> end_ < 2^32 ->
  encaps_loop ies pack p p end_ = Ok (r, pack', len') -> nth 1 pack' 0 = nth 1 pack 0 /\ 12 <= len'.
Proof.
  induction 1 as [|ie ies Hie _ IH]; intros pack p end_ r pack' len' Hp Hend E; cbn [encaps_loop] in E.
  - by simplify_eq.
  - apply bind_Ok in E as (l & El & E). apply ie_l_nonneg in El; [|done].
    destruct (Z.ltb_spec (p + (4 + l)) end_); [|by simplify_eq].
    apply bind_Ok in E as (b & Eb & E). apply bind_Ok in E as (pk & E1 & E).
    apply bind_Ok in E as (h & _ & E). apply bind_Ok in E as (pk2 & E2 & E).
    rewrite wrap32_id in E by lia. apply IH in E as [E Hlen]; [|lia|done]. split; [|done].
    rewrite E, (overwrite_nth _ _ _ _ 1 E2) by lia. by rewrite (overwrite_nth _ _ _ _ 1 E1) by lia.
Qed.

Lemma mem_length : (12 <= length gtp_packet_mem)%nat.
Proof. unfold gtp_packet_mem. rewrite repeat_length. unfold GTPIE_MAX. lia. Qed.
#[local] Opaque gtp_packet_mem.

Definition not_echo (ty : Z) : Prop :=
  byte_ok ty /\ negb ((ty =? GTP2_ECHO_REQ) || (ty =? GTP2_ECHO_RSP)) = true.

Lemma default_type ty mem len o : not_echo ty -> (12 <= length mem)%nat ->
  get_default_gtp 2 ty mem = Ok (len, o) -> nth 1 o 0 = ty /\ len = 12.
Proof.
  intros [Hb He] Hm E. rewrite default_header in E by done. injection E as <- <-. done.
Qed.

Lemma build_msg_type ty ies o len : not_echo ty -> Forall len_nonneg ies -> build_msg ty ies = Ok (o, len) ->
  nth 1 o 0 = ty /\ 12 <= len.
Proof.
  intros Hty Hies E. unfold build_msg in E. apply bind_Ok in E as ([l0 o0] & E0 & E).
  apply default_type in E0 as [Ht ->]; [|done|apply mem_length]. apply bind_Ok in E as ([[r o1] l1] & E1 & [= <- <-]).
  unfold gtp2ie_encaps in E1. apply bind_Ok in E1 as (o2 & E2 & E1).
  apply encaps_loop_type in E1 as [E1 Hl]; [|done|lia|by vm_compute]. split; [|done].
  rewrite E1, (overwrite_nth _ _ _ _ 1 E2) by lia. done.
Qed.

Lemma sends_send o len ty : nth 1 o 0 = ty -> 12 <= len -> Sends ty (s11__send o len).
Proof.
  intros Ht Hl s a s' E. unfold s11__send in E.
  apply M_bind_Ok in E as ([id t] & s1 & E1 & E). apply keeps in E1.
  apply M_bind_Ok in E as (u & s2 & [= <- <-] & E). apply M_bind_Ok in E as (o1 & s3 & E3 & E).
  apply bind_Ok in E3 as (o1' & E3 & [= <- <-]). apply M_bind_Ok in E as (o2 & s4 & E4 & E).
  apply bind_Ok in E4 as (o2' & E4 & [= <- <-]). injection E as <- <-.
  pose proof E1 as (_ & Ea & _)%view_eq. eexists. split; [|rewrite <- (add_out_view _ _ _ E1), <- Ea; reflexivity].
  replace (Z.to_nat len) with (S (S (Z.to_nat len - 2))) by lia.
  assert (E5 : nth 1 o2' 0 = ty)
    by (rewrite (overwrite_nth _ _ _ _ 1 E4), (overwrite_nth _ _ _ _ 1 E3) by lia; done).
  by destruct o2' as [|x [|y o2']].
Qed.

Lemma sends_build ty ies : not_echo ty -> Forall len_nonneg ies ->
  Sends ty ('(o, len) ← lift (build_msg ty ies); s11u_send o len).
Proof.
  intros Hty Hies s a s' E. apply M_bind_Ok in E as ([o len] & s1 & E1 & E).
  apply bind_Ok in E1 as ([o' len'] & E1 & [= <- <- <-]). apply build_msg_type in E1 as [Ht Hl]; [|done..].
  exact (sends_send _ _ _ Ht Hl _ _ _ E).
Qed.

(** *** The requests *)

Ltac not_echo_tac := split; [vm_compute; split; congruence|reflexivity].
Ltac sends_tac := repeat (apply sends_bind_l; [typeclasses eauto|intros ?]).

Lemma tlivs_nonneg es : Forall len_nonneg (map tliv_bytes es).
Proof. induction es; constructor; [apply tliv_len_nonneg|done]. Qed.

(** A lifted computation whose result is constrained. *)
Lemma sends_lift A B ty (o : outcome A) (k : A -> M B) (P : A -> Prop) :
  (forall a, o = Ok a -> P a) -> (forall a, P a -> Sends ty (k a)) -> Sends ty (lift o ≫= k).
Proof.
  intros Ho Hk s b s' (a & s1 & E1 & E2)%M_bind_Ok. apply bind_Ok in E1 as (a' & E1 & [= <- <-]).
  eapply Hk; [by apply Ho|done].
Qed.

Lemma sends_CreateSession : Sends GTP2_CREATE_SESSION_REQ sendCreateSessionReq.
Proof.
  unfold sendCreateSessionReq. apply sends_bind_l; [apply _|intros u]. apply sends_bind_l; [apply _|intros h].
  apply sends_bind_l; [apply _|intros _]. do 2 (apply sends_bind_l; [apply _|intros ?]).
  eapply sends_lift; [intros g; apply group_ie_nonneg; repeat constructor; apply tliv_len_nonneg|].
  intros g Hg. apply sends_bind_l; [apply _|intros first].
  apply sends_build; [not_echo_tac|]. apply Forall_app. split; [apply tlivs_nonneg|].
  apply Forall_app. split; [by apply Forall_singleton|]. destruct first; [apply (tlivs_nonneg [_])|constructor].
Qed.

Lemma sends_ModifyBearer : Sends GTP2_MODIFY_BEARER_REQ sendModifyBearerReq.
Proof.
  unfold sendModifyBearerReq. apply sends_bind_l; [apply _|intros u]. apply sends_bind_l; [apply _|intros h].
  apply sends_bind_l; [apply _|intros _]. apply sends_bind_l; [apply _|intros ?].
  eapply sends_lift; [intros g; apply group_ie_nonneg; repeat constructor; apply tliv_len_nonneg|].
  intros g Hg. apply sends_build; [not_echo_tac|].
  constructor; [apply tliv_len_nonneg|by apply Forall_singleton].
Qed.

Lemma sends_DeleteSession : Sends GTP2_DELETE_SESSION_REQ sendDeleteSessionReq.
Proof.
  unfold sendDeleteSessionReq. apply sends_bind_l; [apply _|intros _].
  apply sends_build; [not_echo_tac|apply (tlivs_nonneg [_; _])].
Qed.

Lemma sends_ReleaseAccess : Sends GTP2_RELEASE_ACCESS_BEARERS_REQ sendReleaseAccessBearersReq.
Proof.
  unfold sendReleaseAccessBearersReq. apply sends_bind_l; [apply _|intros _].
  apply (sends_lift _ _ _ _ _ (fun x => nth 1 x.2 0 = GTP2_RELEASE_ACCESS_BEARERS_REQ /\ x.1 = 12)).
  - intros [len o] E. apply (default_type _ _ _ _) in E; [done|not_echo_tac|apply mem_length].
  - intros [len o] [Ht Hl]. cbn in Ht, Hl. apply sends_send; [done|lia].
Qed.

Lemma sends_DDNAck : Sends GTP2_DOWNLINK_DATA_NOTIFICATION_ACK sendDownlinkDataNotificationAck.
Proof.
  unfold sendDownlinkDataNotificationAck. apply sends_bind_l; [apply _|intros _].
  apply (sends_lift _ _ _ _ _ (fun x => nth 1 x.1 0 = GTP2_DOWNLINK_DATA_NOTIFICATION_ACK /\ 12 <= x.2)).
  - intros [o len] E. apply build_msg_type in E; [done|not_echo_tac|]. apply Forall_singleton, tliv_len_nonneg.
  - intros [o len] [Ht Hl]. cbn in Ht, Hl. unfold s11_send_resp.
    apply sends_bind_r; [by apply sends_send|]. intros _. keeps_tac.
Qed.

(** ** The abstract machine *)

Inductive s11_req := R_attach | R_detach | R_modBearer | R_releaseAccess.
Definition req_handler (r : s11_req) : S11_State -> M unit :=
  match r with
  | R_attach => h_attach
  | R_detach => h_detach
  | R_modBearer => h_modBearer
  | R_releaseAccess => h_releaseAccess
  end.

Inductive s11_event :=
  | Req (r : s11_req) (cb : option nat)
  | Msg (m : t_message).
Definition run_event (e : s11_event) : M unit :=
  match e with
  | Req r cb => request (req_handler r) cb
  | Msg m => processMsg m
  end.

(** The message a request sends in a state, and the next state. *)
Definition fsm_request (x : S11State) (r : s11_req) : option (Z * S11State) :=
  match x, r with
  | noCtx, R_attach => Some (GTP2_CREATE_SESSION_REQ, wCtxRsp)
  | ulCtx, R_detach | ctx, R_detach => Some (GTP2_DELETE_SESSION_REQ, wDel)
  | ulCtx, R_modBearer | ctx, R_modBearer => Some (GTP2_MODIFY_BEARER_REQ, wModBearerRsp)
  | ctx, R_releaseAccess => Some (GTP2_RELEASE_ACCESS_BEARERS_REQ, wModBearerRsp)
  | _, _ => None
  end.

(** The state a response leads to. *)
Definition fsm_response (x : S11State) (ty : Z) : option S11State :=
  match x with
  | wCtxRsp => if ty =? GTP2_CREATE_SESSION_RSP then Some ulCtx else None
  | wModBearerRsp =>
    if ty =? GTP2_MODIFY_BEARER_RSP then Some ctx
    else if ty =? GTP2_RELEASE_ACCESS_BEARERS_RSP then Some ulCtx else None
  | wDel => if ty =? GTP2_DELETE_SESSION_RSP then Some noCtx else None
  | _ => None
  end.

Definition callback_out (cb : option nat) : list s11_out :=
  match cb with Some c => [Callback c] | None => [] end.

(** One step of the machine of a session with the gateway [gw], in state [x]
    with the callback [cb]. *)
Inductive fsm_step (gw : address) : S11State * option nat -> s11_event -> list s11_out -> S11State * option nat -> Prop :=
  | fsm_req x cb r c ty x' msg : fsm_request x r = Some (ty, x') -> nth 1 msg 0 = ty ->
      fsm_step gw (x, cb) (Req r c) [Sent gw msg] (x', c)
  | fsm_req_ignored x cb r c : fsm_request x r = None -> fsm_step gw (x, cb) (Req r c) [] (x, c)
  | fsm_foreign x cb m : m_peer m <> gw -> fsm_step gw (x, cb) (Msg m) [] (x, cb)
  | fsm_rsp x cb m x' : m_peer m = gw -> fsm_response x (m_type m) = Some x' ->
      fsm_step gw (x, cb) (Msg m) (callback_out cb) (x', cb)
  | fsm_ddn cb m ack : m_peer m = gw -> m_type m = GTP2_DOWNLINK_DATA_NOTIFICATION ->
      nth 1 ack 0 = GTP2_DOWNLINK_DATA_NOTIFICATION_ACK ->
      fsm_step gw (ulCtx, cb) (Msg m) [Sent gw ack; Paging] (ulCtx, cb)
  | fsm_bad_bearer cb m : m_peer m = gw -> m_type m = GTP2_MODIFY_BEARER_RSP ->
      fsm_step gw (wModBearerRsp, cb) (Msg m) [] (wModBearerRsp, cb)
  | fsm_msg_ignored x cb m : m_peer m = gw -> fsm_response x (m_type m) = None ->
      (x = ulCtx -> m_type m <> GTP2_DOWNLINK_DATA_NOTIFICATION) ->
      fsm_step gw (x, cb) (Msg m) [] (x, cb).

(** ** Dispatch on a received message *)

(** The active transaction holds the message. *)
Definition loaded (msg : t_message) (s : ust) : Prop :=
  exists id t, active_trxn (user s) = Some id /\ theap (user s) !! id = Some t /\ tr_iMsg t = m_bytes msg.

Lemma active_loaded msg s : loaded msg s -> exists id t, active s = Ok ((id, t), s) /\
  active_trxn (user s) = Some id /\ theap (user s) !! id = Some t /\ tr_iMsg t = m_bytes msg.
Proof.
  intros (id & t & Ha & Hh & Hm). exists id, t. split; [|done].
  unfold active, mbind, M_bind, self. cbn. by rewrite Ha, Hh.
Qed.

Lemma dispatch A (k : Z -> M A) msg s a s' : loaded msg s ->
  (parseIEs ;; ty ← getMsgType; k ty) s = Ok (a, s') ->
  exists s1, k (m_type msg) s1 = Ok (a, s') /\ view s1 = view s /\ loaded msg s1.
Proof.
  intros Hl E. apply M_bind_Ok in E as ([] & s1 & E1 & E). apply M_bind_Ok in E as (ty & s2 & E2 & E).
  assert (H1 : loaded msg s1).
  { destruct (active_loaded msg s Hl) as (id & t & Ea & Ha & Hh & Hm). unfold parseIEs in E1.
    apply M_bind_Ok in E1 as ([id' t'] & s3 & E3 & E1). rewrite Ea in E3. injection E3 as <- <- <-.
    apply M_bind_Ok in E1 as (ies & s4 & E4 & E1). apply bind_Ok in E4 as (ies' & _ & [= <- <-]).
    injection E1 as <-. eexists _, _. cbn. rewrite lookup_insert_eq. done. }
  destruct (active_loaded msg s1 H1) as (id & t & Ea & Ha & Hh & Hm). unfold getMsgType in E2.
  apply M_bind_Ok in E2 as ([id' t'] & s3 & E3 & E2). rewrite Ea in E3. injection E3 as <- <- <-.
  apply bind_Ok in E2 as (ty' & E2 & [= <- <-]). exists s1.
  assert (ty' = m_type msg) as <-.
  { unfold m_type, m_octet. rewrite <- Hm. unfold rdi, adv in E2.
    destruct (tr_iMsg t) as [|x [|y l]]; try discriminate E2. by injection E2 as <-. }
  split; [done|]. split; [exact (keeps_parseIEs _ _ _ E1)|done].
Qed.

(** ** Refinement *)

Lemma changeState_view x s a s' : s11changeState x s = Ok (a, s') ->
  view s' = (x, rAddr (user s), u_cb (user s), lTEID (user s), out s, removed s).
Proof. intros E. unfold s11changeState, s11u_setState in E. by injection E as <- <-. Qed.

Lemma returnControl_view s a s' : returnControl s = Ok (a, s') -> view s' = add_out s (callback_out (u_cb (user s))).
Proof.
  intros E. unfold returnControl, mbind, M_bind, self in E. cbn in E.
  destruct (u_cb (user s)) as [c|] eqn:Ec; injection E as <- <-; unfold view, add_out; cbn; rewrite Ec; [done|].
  by rewrite app_nil_r.
Qed.

Lemma removeSession_view s a s' : returnControlAndRemoveSession s = Ok (a, s') ->
  view s' = (u_state (user s), rAddr (user s), u_cb (user s), lTEID (user s),
             out s ++ callback_out (u_cb (user s)), true).
Proof.
  intros E. unfold returnControlAndRemoveSession in E.
  apply M_bind_Ok in E as (u & s1 & [= <- <-] & E). apply M_bind_Ok in E as ([] & s2 & E2 & E).
  unfold s11_deleteSession in E2. apply M_bind_Ok in E2 as ([] & s3 & E3 & E2). injection E2 as <-.
  assert (K : Keeps s11u_freeUser) by (unfold s11u_freeUser; keeps_tac). apply K, view_eq in E3 as (V1 & V2 & V3 & V4 & V5 & V6).
  destruct (u_cb (user s)) as [c|] eqn:Ec; injection E as <- <-; unfold view; cbn; rewrite V1, V2, V3, V4, V5, ?Ec;
    [done|]. by rewrite app_nil_r.
Qed.

(** What the theorem says of one event. *)
Definition refines (e : s11_event) (s s' : ust) : Prop := exists outs,
  out s' = out s ++ outs /\
  fsm_step (rAddr (user s)) (u_state (user s), u_cb (user s)) e outs (u_state (user s'), u_cb (user s')) /\
  rAddr (user s') = rAddr (user s) /\ lTEID (user s') = lTEID (user s) /\
  removed s' = bool_decide (u_state (user s) = wDel /\ u_state (user s') = noCtx).

Lemma refines_same e s s' : view s' = view s -> removed s = false ->
  fsm_step (rAddr (user s)) (u_state (user s), u_cb (user s)) e [] (u_state (user s), u_cb (user s)) -> refines e s s'.
Proof.
  intros (V1 & V2 & V3 & V4 & V5 & V6)%view_eq Hr Hf. exists []. rewrite V1, V2, V3, V4, V5, V6, app_nil_r, Hr.
  split_and!; try done. symmetry. apply bool_decide_eq_false_2. intros [E1 E2]. congruence.
Qed.

(** A handler that sends its request and moves on. *)
Lemma sends_then A ty (m : M A) x s c a s' : Sends ty m ->
  (m ;; s11changeState x) (Build_ust (set_cb (user s) c) (sh s) (out s) (removed s)) = Ok (a, s') ->
  exists msg, nth 1 msg 0 = ty /\
    view s' = (x, rAddr (user s), c, lTEID (user s), out s ++ [Sent (rAddr (user s)) msg], removed s).
Proof.
  intros Hm (b & s1 & E1 & E2)%M_bind_Ok. apply Hm in E1 as (msg & Ht & Ev). exists msg. split; [done|].
  apply changeState_view in E2. rewrite E2. unfold view, add_out in Ev. cbn in Ev.
  injection Ev as V1 V2 V3 V4 V5 V6. congruence.
Qed.

Lemma request_refines r c s s' : removed s = false -> run_event (Req r c) s = Ok (tt, s') ->
  refines (Req r c) s s'.
Proof.
  intros Hr E. unfold run_event, request in E.
  apply M_bind_Ok in E as (u & s1 & [= <- <-] & E). apply M_bind_Ok in E as ([] & s2 & [= <-] & E).
  assert (Hs : forall ty x', fsm_request (u_state (user s)) r = Some (ty, x') ->
    (exists msg, nth 1 msg 0 = ty /\
      view s' = (x', rAddr (user s), c, lTEID (user s), out s ++ [Sent (rAddr (user s)) msg], removed s)) ->
    refines (Req r c) s s').
  { intros ty x' Hf (msg & Ht & Ev). exists [Sent (rAddr (user s)) msg]. unfold view in Ev. injection Ev as V1 V2 V3 V4 V5 V6.
    rewrite V1, V2, V3, V4, V5, V6, Hr. split_and!; try done; [by eapply fsm_req|]. symmetry. apply bool_decide_eq_false_2. intros [Ew _].
    by rewrite Ew in Hf; destruct r. }
  assert (Hi : fsm_request (u_state (user s)) r = None -> skip (Build_ust (set_cb (user s) c) (sh s) (out s) (removed s)) = Ok (tt, s') ->
    refines (Req r c) s s').
  { intros Hf [= <-]. exists []. cbn. rewrite app_nil_r, Hr. split_and!; try done; [by apply fsm_req_ignored|].
    symmetry. apply bool_decide_eq_false_2. intros [E1 E2]. congruence. }
  destruct (u_state (user s)) eqn:Ex, r; try (by apply Hi); (eapply Hs; [reflexivity|]); eapply sends_then; try exact E.
  - apply sends_CreateSession.
  - apply sends_DeleteSession.
  - apply sends_ModifyBearer.
  - apply sends_DeleteSession.
  - apply sends_ModifyBearer.
  - apply sends_ReleaseAccess.
Qed.

(** The end of the handlers of a response. *)
Lemma respond_view A (m : M A) x s a s' : Keeps m ->
  (m ;; s11changeState x ;; returnControl) s = Ok (a, s') ->
  view s' = (x, rAddr (user s), u_cb (user s), lTEID (user s), out s ++ callback_out (u_cb (user s)), removed s).
Proof.
  intros Hm (b & s1 & E1 & E)%M_bind_Ok. apply M_bind_Ok in E as ([] & s2 & E2 & E).
  apply Hm, view_eq in E1 as (V1 & V2 & V3 & V4 & V5 & V6). apply changeState_view in E2.
  apply returnControl_view in E. unfold view, add_out in *. injection E2 as W1 W2 W3 W4 W5 W6.
  rewrite E. congruence.
Qed.

Lemma refines_response m x' s s' : m_peer m = rAddr (user s) -> removed s = false ->
  fsm_response (u_state (user s)) (m_type m) = Some x' ->
  view s' = (x', rAddr (user s), u_cb (user s), lTEID (user s), out s ++ callback_out (u_cb (user s)),
             bool_decide (u_state (user s) = wDel /\ x' = noCtx)) ->
  refines (Msg m) s s'.
Proof.
  intros Hp Hr Hf Ev. unfold view in Ev. injection Ev as V1 V2 V3 V4 V5 V6. exists (callback_out (u_cb (user s))).
  rewrite V1, V2, V3, V4, V5, V6. split_and!; try done. by apply fsm_rsp.
Qed.

(** What the handler of a state does with the message of the gateway. *)
Lemma handler_refines m s s' : loaded m s -> m_peer m = rAddr (user s) -> removed s = false ->
  h_processMsg (s11_states (u_state (user s))) s = Ok (tt, s') -> refines (Msg m) s s'.
Proof.
  intros Hl Hp Hr E.
  assert (Hsame : forall s1, view s1 = view s -> fsm_response (u_state (user s)) (m_type m) = None ->
    (u_state (user s) = ulCtx -> m_type m <> GTP2_DOWNLINK_DATA_NOTIFICATION) -> skip s1 = Ok (tt, s') -> refines (Msg m) s s').
  { intros s1 V Hf Hd [= <-]. apply refines_same; [done|done|]. by apply fsm_msg_ignored. }
  destruct (u_state (user s)) eqn:Ex; cbn [s11_states h_processMsg linkNoCtx linkWCtxRsp linkUlCtx
    linkWModBearerRsp linkCtx linkWDel] in E.
  1: by apply (Hsame s).
  4: by apply (Hsame s).
  all: apply (dispatch _ _ m) in E as (s1 & E & V & Hl1); [|done]; pose proof V as (V1 & V2 & V3 & V4 & V5 & V6)%view_eq.
  - destruct (m_type m =? GTP2_CREATE_SESSION_RSP) eqn:Et.
    + apply (refines_response m ulCtx); [done|done|rewrite Ex; cbn; by rewrite Et|].
      apply M_bind_Ok in E as ([] & s2 & E2 & E). apply respond_view in E; [|apply _].
      apply keeps, view_eq in E2 as (W1 & W2 & W3 & W4 & W5 & W6). rewrite E, bool_decide_false by naive_solver. congruence.
    + apply (Hsame s1); [done|cbn; by rewrite Et|congruence|done].
  - destruct (Z.eqb_spec (m_type m) GTP2_DOWNLINK_DATA_NOTIFICATION) as [Et|Et].
    + apply M_bind_Ok in E as ([] & s2 & E2 & E). apply sends_DDNAck in E2 as (ack & Ht & W). injection E as <-.
      exists [Sent (rAddr (user s)) ack; Paging]. unfold view, add_out in W. injection W as W1 W2 W3 W4 W5 W6. cbn.
      rewrite W1, W2, W3, W4, W5, W6, <- app_assoc, V1, V2, V3, V4, V5, V6, Ex, Hr.
      split_and!; try done. by apply fsm_ddn.
    + by apply (Hsame s1).
  - destruct (m_type m =? GTP2_MODIFY_BEARER_RSP) eqn:Et; [|destruct (m_type m =? GTP2_RELEASE_ACCESS_BEARERS_RSP) eqn:Et2].
    + apply M_bind_Ok in E as ([] & s2 & E2 & E). apply M_bind_Ok in E as (ok & s3 & E3 & E).
      apply keeps in E2. apply keeps in E3. destruct ok; cbn [negb] in E.
      * apply (refines_response m ctx); [done|done|rewrite Ex; cbn; by rewrite Et|].
        pose proof (respond_view _ skip ctx s3 tt s' _) as R. rewrite bool_decide_false by naive_solver.
        assert (Vs : view s3 = view s) by congruence. apply view_eq in Vs as (? & ? & ? & ? & ? & ?).
        rewrite R; [congruence|exact E].
      * injection E as <-. apply refines_same; [congruence|done|]. rewrite Ex. apply fsm_bad_bearer; [done|]. by apply Z.eqb_eq.
    + apply (refines_response m ulCtx); [done|done|rewrite Ex; cbn; by rewrite Et, Et2|].
      apply respond_view in E; [|apply _]. rewrite E, bool_decide_false by naive_solver. congruence.
    + apply (Hsame s1); [done|cbn; by rewrite Et, Et2|congruence|done].
  - destruct (m_type m =? GTP2_DELETE_SESSION_RSP) eqn:Et.
    + apply (refines_response m noCtx); [done|done|rewrite Ex; cbn; by rewrite Et|].
      apply M_bind_Ok in E as ([] & s2 & E2 & E). apply M_bind_Ok in E as ([] & s3 & E3 & E).
      apply M_bind_Ok in E as ([] & s4 & E4 & E). apply keeps, view_eq in E2 as (? & ? & ? & ? & ? & ?).
      apply keeps, view_eq in E3 as (? & ? & ? & ? & ? & ?). apply changeState_view in E4.
      apply removeSession_view in E. unfold view in *. injection E4 as X1 X2 X3 X4 X5 X6.
      rewrite E, bool_decide_true by done. congruence.
    + apply (Hsame s1); [done|cbn; by rewrite Et|congruence|done].
Qed.

Lemma message_refines m s s' : removed s = false -> run_event (Msg m) s = Ok (tt, s') -> refines (Msg m) s s'.
Proof.
  intros Hr E. unfold run_event, processMsg in E. apply M_bind_Ok in E as (u & s0 & [= <- <-] & E).
  apply M_bind_Ok in E as (id & s1 & E1 & E). apply M_bind_Ok in E as (u & s1' & [= <- <-] & E).
  apply M_bind_Ok in E as ([] & s2 & E2 & E). apply M_bind_Ok in E as ([id' t] & s3 & E3 & E).
  apply M_bind_Ok in E as ([] & s4 & E4 & E). apply M_bind_Ok in E as (u & s5 & [= <- <-] & E).
  assert (V1 : view s1 = view s).
  { destruct (s11u_hasPendingResp (user s) (m_seq m)); [by injection E1 as <- <-|exact (keeps_Trxn_new _ _ _ _ E1)]. }
  assert (V2 : view s2 = view s1) by (by injection E2 as <-).
  pose proof (keeps_active _ _ _ E3) as V3. pose proof (keeps_store_trxn _ _ _ _ _ E4) as V4.
  assert (V : view s4 = view s) by congruence. pose proof V as (W1 & W2 & W3 & W4 & W5 & W6)%view_eq.
  destruct (validateSourceAddr (user s4) (m_peer m)) eqn:Ev; cbn [negb] in E.
  - apply bool_decide_eq_true_1 in Ev.
    assert (Hl : loaded m s4).
    { injection E2 as <-. unfold active, mbind, M_bind, self in E3. cbn in E3.
      destruct (theap (user s1) !! id) as [t0|] eqn:Eh; [|done]. injection E3 as <- <- <-.
      injection E4 as <-. eexists id, _. cbn. rewrite lookup_insert_eq. done. }
    apply (handler_refines m) in E; [|done|by rewrite Ev|congruence].
    destruct E as (outs & F1 & F2 & F3 & F4 & F5). exists outs. rewrite W1, W2, W3, W4, W5 in *. done.
  - injection E as <-. apply refines_same; [done|done|]. apply fsm_foreign.
    apply bool_decide_eq_false_1 in Ev. congruence.
Qed.

Lemma event_refines e s s' : removed s = false -> run_event e s = Ok (tt, s') -> refines e s s'.
Proof. destruct e; [apply request_refines|apply message_refines]. Qed.

(** C36: the session implements the S11 state machine: whatever the session and
    the event (a request of the core or a datagram), when the handler returns,
    the messages sent, the callbacks and the new state are those of a step of
    [fsm_step]; the gateway of the session and its tunnel endpoint stay, and
    the session is removed exactly when the deletion was confirmed.  In
    particular a datagram of another source has no effect, and every response
    moves the machine from the one state that waits for it. *)
Theorem s11_fsm_refines e s s' : removed s = false -> run_event e s = Ok (tt, s') ->
  exists outs, out s' = out s ++ outs /\
  fsm_step (rAddr (user s)) (u_state (user s), u_cb (user s)) e outs (u_state (user s'), u_cb (user s')) /\
  rAddr (user s') = rAddr (user s) /\ lTEID (user s') = lTEID (user s) /\
  removed s' = bool_decide (u_state (user s) = wDel /\ u_state (user s') = noCtx).
Proof. apply event_refines. Qed.

(** ** Runs of a session *)

(** A session that was removed takes no more events. *)
Fixpoint run_events (es : list s11_event) (s : ust) : outcome ust :=
  match es with
  | [] => Ok s
  | e :: es => if removed s then UB UseAfterFree else '(_, s) ← run_event e s; run_events es s
  end.

Definition is_request (o : s11_out) : bool :=
  match o with
  | Sent _ msg => (nth 1 msg 0 =? GTP2_CREATE_SESSION_REQ) || (nth 1 msg 0 =? GTP2_MODIFY_BEARER_REQ) ||
      (nth 1 msg 0 =? GTP2_DELETE_SESSION_REQ) || (nth 1 msg 0 =? GTP2_RELEASE_ACCESS_BEARERS_REQ)
  | _ => false
  end.
Definition is_callback (o : s11_out) : bool := match o with Callback _ => true | _ => false end.
Definition count_out (f : s11_out -> bool) (l : list s11_out) : nat := length (List.filter f l).

Definition waiting (x : S11State) : bool :=
  match x with wCtxRsp | wModBearerRsp | wDel => true | _ => false end.

(** Every request of the core names a callback. *)
Definition with_callback (e : s11_event) : Prop := match e with Req _ None => False | _ => True end.

Lemma count_out_app f l1 l2 : count_out f (l1 ++ l2) = (count_out f l1 + count_out f l2)%nat.
Proof. unfold count_out. by rewrite List.filter_app, length_app. Qed.

Lemma fsm_step_counts gw x cb e outs x' cb' : fsm_step gw (x, cb) e outs (x', cb') -> with_callback e ->
  (waiting x = true -> cb <> None) ->
  (count_out is_request outs + Nat.b2n (waiting x) = count_out is_callback outs + Nat.b2n (waiting x'))%nat /\
  (waiting x' = true -> cb' <> None).
Proof.
  intros H Hc Hw. inversion H; subst; try (split; [reflexivity|done]).
  - destruct cb' as [c|]; [|done]. split; [|done].
    match goal with Hf : fsm_request x ?r = Some _ |- _ =>
      destruct x, r; try discriminate Hf; injection Hf as Ht <- end;
    unfold count_out; cbn [List.filter is_request is_callback]; rewrite <- Ht; reflexivity.
  - destruct cb' as [c|]; [|done]. split; [reflexivity|done].
  - match goal with Hf : fsm_response x _ = Some x' |- _ =>
      assert (waiting x = true /\ waiting x' = false) as [Hx ->] by
        (unfold fsm_response in Hf; destruct x; try discriminate Hf; case_bools; try discriminate Hf; by injection Hf as <-) end.
    rewrite Hx. destruct cb' as [c|]; [done|]. exfalso. by apply Hw.
  - split; [|done]. unfold count_out. cbn [List.filter is_request is_callback].
    match goal with Ha : nth 1 _ 0 = _ |- _ => rewrite Ha end. reflexivity.
Qed.

Lemma run_events_counts es : forall s s', run_events es s = Ok s' -> Forall with_callback es ->
  (waiting (u_state (user s)) = true -> u_cb (user s) <> None) ->
  exists outs, out s' = out s ++ outs /\
  (count_out is_request outs + Nat.b2n (waiting (u_state (user s))) =
   count_out is_callback outs + Nat.b2n (waiting (u_state (user s'))))%nat.
Proof.
  induction es as [|e es IH]; intros s s' E Hcb Hw; cbn [run_events] in E.
  - injection E as <-. exists []. rewrite app_nil_r. split; [done|reflexivity].
  - destruct (removed s) eqn:Hr; [done|]. apply bind_Ok in E as ([[] s1] & E1 & E).
    apply Forall_cons in Hcb as [He Hcb].
    assert (R : refines e s s1) by (destruct e; [by apply request_refines|by apply message_refines]).
    destruct R as (o1 & O1 & F & _). apply fsm_step_counts in F as [F1 F2]; [|done|done].
    destruct (IH s1 s' E Hcb F2) as (o2 & O2 & C2). exists (o1 ++ o2). rewrite O2, O1, <- app_assoc.
    split; [done|]. rewrite !count_out_app. lia.
Qed.

(** C37: one callback per request: in every run of a new session, the requests
    sent to the gateway so far are exactly the callbacks made, plus one while
    a response is awaited; a callback is never made twice for a request and
    none is made without one. *)
Theorem s11_one_callback_per_request es teid emm se h s' : Forall with_callback es ->
  run_events es {| user := s11u_newUser teid emm se; sh := h; out := []; removed := false |} = Ok s' ->
  (count_out is_request (out s') =
   count_out is_callback (out s') + Nat.b2n (waiting (u_state (user s'))))%nat.
Proof.
  intros Hcb E. apply run_events_counts in E as (outs & O & C); [|done|done]. cbn in O, C.
  rewrite O. lia.
Qed.

(** *** A sample session *)

Definition sample_emm : emm_view :=
  {| ev_imsi := 244123456789012; ev_msisdn := 358501234567890; ev_sn := [0x42; 0xf4; 0x21];
     ev_sgw := sample_addr; ev_pgw := AF_INET [10; 0; 0; 3]; ev_subs := sample_subs |}.
Definition sample_shared : shared :=
  {| sh_seq := 0; sh_peers := no_peers; sh_restart := 3; sh_local := [10; 0; 0; 1] |}.
(** A session in state [x] whose request with sequence number 0 is open. *)
Definition sample_user (x : S11State) : S11_user_t :=
  set_cb (set_state (set_trxns (s11u_newUser 7 sample_emm sample_session) {[ 0 := O ]} (Some O)
    {[ O := {| tr_seq := 0; tr_iMsg := []; tr_ie := None |} ]} 1) x) (Some 1%nat).
Definition sample_state (x : S11State) : ust :=
  {| user := sample_user x; sh := sample_shared; out := []; removed := false |}.

Lemma s11_fsm_refines_witness :
  exists s', run_event (Msg {| m_bytes := packet_bytes GTP2_RELEASE_ACCESS_BEARERS_RSP [0; 0; 0; 7; 0; 0; 0; 0]
      [Tliv GTPV2C_IE_CAUSE 0 [16; 0]]; m_peer := sample_addr |}) (sample_state wModBearerRsp) = Ok (tt, s') /\
    u_state (user s') = ulCtx /\ out s' = [Callback 1].
Proof.
  eexists. split; [vm_compute; reflexivity|]. 
  match goal with |- u_state (user ?s) = _ /\ _ =>
    destruct (s11_fsm_refines (Msg {| m_bytes := packet_bytes GTP2_RELEASE_ACCESS_BEARERS_RSP [0; 0; 0; 7; 0; 0; 0; 0]
      [Tliv GTPV2C_IE_CAUSE 0 [16; 0]]; m_peer := sample_addr |}) (sample_state wModBearerRsp) s)
      as (outs & Ho & Hf & _); [reflexivity|vm_compute; reflexivity|] end.
  split; reflexivity.
Defined.
