(* ===== verification/S11Rsp.v ===== *)
(** What the messages of the gateway do to a session: the Create Session
    Response is stored field by field, the octets of the requests are those
    the gateway's decoder expects, and the ways in which a message can break
    the session. *)
From stdpp Require Import fin_maps.
From S2P Require Import Prelude GTP Timer Subs Session S11Peer S11User S11FSM.

(** ** Symbolic execution *)

Lemma M_step A B (m : M A) (k : A -> M B) s a s1 : m s = Ok (a, s1) -> (m ≫= k) s = k a s1.
Proof. intros E. unfold mbind at 1, M_bind. by rewrite E. Qed.

Lemma lift_step A B (o : outcome A) (k : A -> M B) s a : o = Ok a -> (lift o ≫= k) s = k a s.
Proof. intros ->. done. Qed.

(** The elements [es] of the message of the active transaction. *)
Definition parsed (es : list tliv) (u : S11_user_t) : Prop :=
  exists id t, active_trxn u = Some id /\ theap u !! id = Some t /\ tr_ie t = Some (0, ptrs es []).

Definition find_v (es : list tliv) (t i : Z) : list Z :=
  match List.find (tliv_is t i) es with Some e => e_v e | None => [] end.

Lemma gettliv_parsed B es t i (k : list Z -> M B) s : parsed es (user s) -> Forall tliv_ok es ->
  (length es < GTPIE_SIZE)%nat -> (active_gettliv t i ≫= k) s = k (find_v es t i) s.
Proof.
  intros (id & tr & Ha & Hh & Ht) Hes Hl. apply M_step. unfold active_gettliv.
  rewrite (M_step _ _ active _ s (id, tr) s) by (unfold active, mbind, M_bind, self; cbn; by rewrite Ha, Hh).
  rewrite Ht. unfold lift, ie_gettliv. cbn [fst snd]. rewrite gettliv_elems by (done || lia). unfold find_v.
  by destruct (List.find (tliv_is t i) es).
Qed.

(** ** The Create Session Response *)

Section CreateSessionResponse.
(** The elements a gateway answers with: cause [c] and flags [f], its own
    control endpoint, the endpoint of the packet gateway, the terminal's
    address, the bearer with its two endpoints, and its restart counter. *)
Context (c f e counter : Z) (teid addr pgw paa s1u s5u : list Z).

Definition bearer_elements : list tliv :=
  [Tliv GTPV2C_IE_EBI 0 [e]; Tliv GTPV2C_IE_FTEID 0 ((0x80 + S1U_SGW) :: s1u);
   Tliv GTPV2C_IE_FTEID 2 ((0x80 + S5S8U_PGW) :: s5u)].
Definition response_elements : list tliv :=
  [Tliv GTPV2C_IE_CAUSE 0 [c; f];
   Tliv GTPV2C_IE_FTEID 0 ((0x80 + S11S4_SGW) :: teid ++ addr);
   Tliv GTPV2C_IE_FTEID 1 ((0x80 + S5S8C_PGW) :: pgw);
   Tliv GTPV2C_IE_PAA 0 (1 :: paa);
   Tliv GTPV2C_IE_BEARER_CONTEXT 0 (tlivs_bytes bearer_elements);
   Tliv GTPV2C_IE_RECOVERY 0 [counter]].

Definition response_ok : Prop :=
  bytes_ok ([c; f; e; counter] ++ teid ++ addr ++ pgw ++ paa ++ s1u ++ s5u) /\
  length teid = 4%nat /\ length addr = 4%nat /\ length pgw = 8%nat /\ length paa = 4%nat /\
  length s1u = 8%nat /\ length s5u = 8%nat.
End CreateSessionResponse.

Lemma byte_ok_of b : (0 <=? b) && (b <? 256) = true -> byte_ok b.
Proof. intros H. zbool. done. Qed.

Ltac bytes_tac :=
  repeat match goal with
  | H : bytes_ok (_ ++ _) |- _ => apply Forall_app in H as [? ?]
  | H : bytes_ok (_ :: _) |- _ => apply Forall_cons in H as [? ?]
  end.

Ltac tliv_ok_tac :=
  split_and!; cbn [e_t e_i e_v];
  [ by apply byte_ok_of | by apply byte_ok_of
  | first [assumption | repeat (apply Forall_cons_2; [first [done | by apply byte_ok_of]|])];
    first [done | by apply Forall_nil_2 | (apply Forall_app; split; done)]
  | cbn [length]; rewrite ?length_app; lia ].

Lemma bearer_elements_ok c f e n teid addr pgw paa s1u s5u : response_ok c f e n teid addr pgw paa s1u s5u ->
  Forall tliv_ok (bearer_elements e s1u s5u).
Proof.
  intros (Hb & H1 & H2 & H3 & H4 & H5 & H6). bytes_tac. unfold bearer_elements.
  repeat (apply Forall_cons_2; [tliv_ok_tac|]). by apply Forall_nil_2.
Qed.

Lemma bearer_bytes_ok c f e n teid addr pgw paa s1u s5u : response_ok c f e n teid addr pgw paa s1u s5u ->
  bytes_ok (tlivs_bytes (bearer_elements e s1u s5u)) /\ length (tlivs_bytes (bearer_elements e s1u s5u)) = 31%nat.
Proof.
  intros H. pose proof (bearer_elements_ok _ _ _ _ _ _ _ _ _ _ H) as Hb.
  destruct H as (_ & _ & _ & _ & _ & H5 & H6). split.
  - unfold tlivs_bytes. revert Hb. generalize (bearer_elements e s1u s5u).
    induction 1 as [|x l Hx _ IH]; [by apply Forall_nil_2|]. cbn [map concat]. apply Forall_app. split; [|done].
    by apply tliv_bytes_ok.
  - unfold tlivs_bytes, bearer_elements. cbn [map concat]. rewrite !length_app, !tliv_length. cbn [e_v length].
    rewrite H5, H6. done.
Qed.

Lemma response_elements_ok c f e n teid addr pgw paa s1u s5u : response_ok c f e n teid addr pgw paa s1u s5u ->
  Forall tliv_ok (response_elements c f e n teid addr pgw paa s1u s5u).
Proof.
  intros H. destruct (bearer_bytes_ok _ _ _ _ _ _ _ _ _ _ H) as [Hbb Hbl].
  destruct H as (Hb & H1 & H2 & H3 & H4 & H5 & H6). bytes_tac. unfold response_elements.
  repeat (apply Forall_cons_2; [tliv_ok_tac|]). by apply Forall_nil_2.
Qed.

(** ** Parsing it *)

Lemma overwrite_front dst src : (length src <= length dst)%nat ->
  overwrite dst 0 src = Ok (src ++ drop (length src) dst).
Proof. intros H. rewrite overwrite_Ok by lia. done. Qed.

Lemma copy_value_run B value v (k : list Z -> M B) s : (length v <= length value)%nat ->
  (copy_value value v ≫= k) s = k (v ++ drop (length v) value) s.
Proof. intros H. apply lift_step. by apply overwrite_front. Qed.

Lemma copied_length (value v : list Z) : (length v <= length value)%nat ->
  length (v ++ drop (length v) value) = length value.
Proof. intros. rewrite length_app, length_drop. lia. Qed.

Lemma when_present_run B v (m : M unit) (k : M B) s s1 : v <> [] -> m s = Ok (tt, s1) ->
  (when_present v m ;; k) s = k s1.
Proof.
  intros Hv E. apply (M_step _ _ _ (fun _ => k) s tt s1). unfold when_present. by rewrite bool_decide_false by done.
Qed.

Lemma iface_of i t : 0 <= i < 64 -> fteid_iface ((0x80 + i) :: t) = Ok i.
Proof.
  intros Hi. unfold fteid_iface. cbn [rd]. osimp. f_equal.
  change (0x3f) with (Z.ones 6). rewrite Z.land_ones by lia. change (2^6) with 64. lia.
Qed.

Lemma setS11fteid_run teid rest s : length teid = 4%nat ->
  s11u_setS11fteid ((0x80 + S11S4_SGW) :: teid ++ rest) s =
  Ok (tt, Build_ust (set_rTEID (user s) teid) (sh s) (out s) (removed s)).
Proof.
  intros Ht. unfold s11u_setS11fteid. rewrite (lift_step _ _ _ _ _ S11S4_SGW) by (apply iface_of; done).
  change (negb (S11S4_SGW =? S11S4_SGW)) with false. cbv iota.
  rewrite (lift_step _ _ _ _ _ teid) by (rewrite adv_1; apply rdn_app; lia). done.
Qed.

Lemma setPDNAddress_v4 s a : session_ok s -> length a = 4%nat ->
  ePSsession_setPDNAddress s (1 :: a) 5 = Ok (with_addr s 1 (a ++ drop 4 (es_pdn_addr s))).
Proof.
  intros (Hs & _) Ha. unfold ePSsession_setPDNAddress. cbn [rd]. osimp. rewrite adv_1, rdn_all by lia. osimp.
  rewrite overwrite_front by lia. rewrite Ha. done.
Qed.

Lemma copy_fteid_run i stored v : 0 <= i < 64 -> (length v < length stored)%nat ->
  copy_fteid i stored ((0x80 + i) :: v) (Z.of_nat (S (length v))) =
  Ok (((0x80 + i) :: v) ++ drop (S (length v)) stored).
Proof.
  intros Hi Hl. unfold copy_fteid. rewrite iface_of by done. osimp. rewrite Z.eqb_refl. cbn [negb].
  rewrite rdn_all by done. osimp. by rewrite overwrite_front by (cbn; lia).
Qed.

Section ParseResponse.
Context (c f e n : Z) (teid addr pgw paa s1u s5u : list Z).
Context (Hok : response_ok c f e n teid addr pgw paa s1u s5u).
Abbreviation es := (response_elements c f e n teid addr pgw paa s1u s5u).

(** The session after the bearer context. *)
Definition stored_bearer (b : ESM_BearerContext_t) : ESM_BearerContext_t :=
  {| ebi := ebi b; bc_state := bc_state b;
     s1u_sgw := ((0x80 + S1U_SGW) :: s1u) ++ drop 9 (s1u_sgw b);
     s1u_enb := s1u_enb b;
     s5s8u_pgw := ((0x80 + S5S8U_PGW) :: s5u) ++ drop 9 (s5s8u_pgw b) |}.

Lemma parse_bearer_run rest s : session_ok (u_session (user s)) -> ebi (defaultBearer (u_session (user s))) = e ->
  parseCtxRsp_bearer (tlivs_bytes (bearer_elements e s1u s5u) ++ rest)
    (Z.of_nat (length (tlivs_bytes (bearer_elements e s1u s5u)))) s =
  Ok (false, Build_ust (set_session (user s) (with_bearer (u_session (user s))
    (stored_bearer (defaultBearer (u_session (user s)))))) (sh s) (out s) (removed s)).
Proof using Hok.
  intros (_ & _ & Hb1 & Hb2 & Hb3 & _) He.
  pose proof (bearer_elements_ok _ _ _ _ _ _ _ _ _ _ Hok) as Hes.
  destruct Hok as (_ & _ & _ & _ & _ & H5 & H6). unfold FTEID_SIZE in *.
  set (bes := bearer_elements e s1u s5u) in *. unfold parseCtxRsp_bearer.
  assert (Hd : gtp2ie_decaps_group (tlivs_bytes bes ++ rest) (Z.of_nat (length (tlivs_bytes bes))) =
    Ok (0, ptrs bes rest, 3)).
  { unfold gtp2ie_decaps_group. rewrite (decap_loop_elems bes Hes) by (unfold GTPIE_SIZE; cbn; lia). osimp.
    unfold decap_end. rewrite Z.add_0_l, Z.eqb_refl, decide_True by (rewrite ptrs_length; unfold GTPIE_SIZE; cbn; lia). done. }
  rewrite (lift_step _ _ _ _ _ _ Hd).
  assert (G : forall t i, gtp2ie_gettliv (ptrs bes rest) t i = _)
    by (intros t i; apply (gettliv_elems bes rest t i Hes); unfold GTPIE_SIZE; cbn; lia).
  rewrite (lift_step _ _ _ _ _ (0, [e], 1)) by (rewrite G; done).
  rewrite (M_step _ _ self _ s (user s) s) by done.
  unfold esm_bc_getEBI. rewrite He, Z.eqb_refl. cbn [negb].
  rewrite (lift_step _ _ _ _ _ (0, (0x80 + S1U_SGW) :: s1u, Z.of_nat (S (length s1u)))) by (rewrite G; done).
  erewrite when_present_run; [|done|].
  2:{ unfold update_bearer, update_session. rewrite (M_step _ _ self _ s (user s) s) by done.
      erewrite lift_step; [reflexivity|]. unfold esm_bc_setS1uSGWfteid. rewrite copy_fteid_run by (done || lia). osimp. reflexivity. }
  rewrite (lift_step _ _ _ _ _ (0, (0x80 + S5S8U_PGW) :: s5u, Z.of_nat (S (length s5u)))) by (rewrite G; done).
  erewrite when_present_run; [|done|].
  2:{ unfold update_bearer, update_session. cbn [set_self user u_session set_session].
      rewrite (M_step _ _ self _ _ _ _ eq_refl). cbn [user u_session set_session defaultBearer with_bearer].
      erewrite lift_step; [reflexivity|]. unfold esm_bc_setS5S8uPGWfteid. cbn [s5s8u_pgw].
      rewrite copy_fteid_run by (done || lia). osimp. reflexivity. }
  rewrite H5, H6. reflexivity.
Qed.

(** The session after the whole response. *)
Definition stored_session (se : EPS_Session_t) : EPS_Session_t :=
  with_bearer (with_addr se 1 (paa ++ drop 4 (es_pdn_addr se))) (stored_bearer (defaultBearer se)).
Definition stored_user (u : S11_user_t) : S11_user_t :=
  set_session (set_s5s8 (set_rTEID u teid) (((0x80 + S5S8C_PGW) :: pgw) ++ drop 9 (s5s8 u)))
    (stored_session (u_session u)).
Definition restart_seen (u : S11_user_t) (h : shared) : shared :=
  {| sh_seq := sh_seq h; sh_peers := (S11_checkPeerRestart (sh_peers h) (rAddr u) n).2;
     sh_restart := sh_restart h; sh_local := sh_local h |}.

Lemma elements_few : (length es < GTPIE_SIZE)%nat.
Proof. unfold GTPIE_SIZE. cbn [length response_elements]. lia. Qed.

(** Forget the content of the array [value]. *)
Ltac forget_value :=
  match goal with |- context [copy_value (?v ++ drop (length ?v) ?w)] =>
    let H := fresh "Hval" in
    assert (H : (100 <= length (v ++ drop (length v) w))%nat)
      by (rewrite copied_length; [lia|cbn [length]; rewrite ?length_app; lia]);
    revert H; generalize (v ++ drop (length v) w); intros ? H
  end.

Lemma parseCtxRsp_run value s : parsed es (user s) -> session_ok (u_session (user s)) ->
  length (s5s8 (user s)) = FTEID_SIZE -> ebi (defaultBearer (u_session (user s))) = e -> (100 <= length value)%nat ->
  parseCtxRsp_at value s =
  Ok (tt, Build_ust (stored_user (user s)) (restart_seen (user s) (sh s)) (out s) (removed s)).
Proof using Hok.
  intros Hp Hs Hf He Hv. pose proof (response_elements_ok _ _ _ _ _ _ _ _ _ _ Hok) as Hes.
  pose proof elements_few as Hn. pose proof (bearer_bytes_ok _ _ _ _ _ _ _ _ _ _ Hok) as [_ Hbl].
  pose proof Hok as (_ & H1 & H2 & H3 & H4 & H5 & H6). unfold FTEID_SIZE in Hf. unfold parseCtxRsp_at.
  (* F-TEID of the gateway *)
  rewrite (gettliv_parsed _ es) by done.
  change (find_v es GTPV2C_IE_FTEID 0) with ((0x80 + S11S4_SGW) :: teid ++ addr).
  rewrite copy_value_run by (cbn; rewrite length_app; lia).
  erewrite when_present_run; [|done|cbn [app]; rewrite <- app_assoc; by apply setS11fteid_run].
  forget_value.
  (* F-TEID of the packet gateway *)
  rewrite (gettliv_parsed _ es) by done.
  change (find_v es GTPV2C_IE_FTEID 1) with ((0x80 + S5S8C_PGW) :: pgw).
  rewrite copy_value_run by (cbn [length]; lia). forget_value.
  erewrite when_present_run; [|done|].
  2:{ rewrite (M_step _ _ self _ _ _ _ eq_refl). cbn [user set_rTEID s5s8].
      erewrite lift_step; [reflexivity|]. apply overwrite_front. cbn [length]. lia. }
  (* address *)
  rewrite (gettliv_parsed _ es) by done. change (find_v es GTPV2C_IE_PAA 0) with (1 :: paa).
  rewrite copy_value_run by (cbn [length]; lia). forget_value.
  erewrite when_present_run; [|done|].
  2:{ unfold update_session. cbn [set_self user sh out removed]. rewrite (M_step _ _ self _ _ _ _ eq_refl).
      cbn [user u_session set_s5s8 set_rTEID]. cbn [length]. rewrite H4.
      rewrite (lift_step _ _ _ _ _ _ (setPDNAddress_v4 _ paa Hs H4)). reflexivity. }
  (* no Protocol Configuration Options *)
  rewrite (gettliv_parsed _ es) by done. change (find_v es GTPV2C_IE_PCO 0) with (@nil Z).
  rewrite copy_value_run by (cbn; lia). forget_value.
  rewrite (M_step _ _ (when_present [] _) _ _ tt _ eq_refl).
  (* bearer context *)
  rewrite (gettliv_parsed _ es) by done.
  change (find_v es GTPV2C_IE_BEARER_CONTEXT 0) with (tlivs_bytes (bearer_elements e s1u s5u)).
  rewrite copy_value_run by lia.
  rewrite bool_decide_false by (intros E0; rewrite E0 in Hbl; done).
  pose proof (setPDNAddress_ok _ _ _ _ Hs (setPDNAddress_v4 _ paa Hs H4)) as Hs'.
  erewrite M_step; [|apply parse_bearer_run; [exact Hs'|exact He]]. cbn [negb].
  (* restart counter *)
  rewrite (gettliv_parsed _ es) by done. change (find_v es GTPV2C_IE_RECOVERY 0) with [n].
  cbn [length]. rewrite H3. reflexivity.
Qed.
End ParseResponse.

(** ** Receiving a message *)

(** Only the fields of the transactions were changed. *)
Definition trxns_changed (u u' : S11_user_t) : Prop := exists a h nx, u' = set_trxns u (trxns u) a h nx.
Definition with_user (s : ust) (u : S11_user_t) : ust := Build_ust u (sh s) (out s) (removed s).

(** The table has no pointer to a freed transaction for this number. *)
Definition seq_live (u : S11_user_t) (seq : Z) : Prop :=
  forall id, trxns u !! seq = Some id -> is_Some (theap u !! id).

Lemma processMsg_loaded m s : m_peer m = rAddr (user s) -> seq_live (user s) (m_seq m) ->
  exists u', processMsg m s = h_processMsg (s11_states (u_state (user s))) (with_user s u') /\
    loaded m (with_user s u') /\ (forall id, trxns (user s) !! m_seq m = Some id -> active_trxn u' = Some id) /\
    trxns_changed (user s) u'.
Proof.
  intros Hp Hl. unfold processMsg. rewrite (M_step _ _ self _ s (user s) s) by done. unfold s11u_hasPendingResp.
  destruct (trxns (user s) !! m_seq m) as [id|] eqn:E.
  - destruct (Hl id E) as [t Ht]. rewrite (M_step _ _ (mret id) _ s id s) by done.
    rewrite (M_step _ _ self _ s (user s) s), (M_step _ _ (set_self _) _ _ _ _ eq_refl) by done.
    erewrite M_step; [|unfold active, mbind, M_bind, self; cbn; rewrite Ht; reflexivity]. cbv beta iota.
    rewrite (M_step _ _ (store_trxn _ _) _ _ _ _ eq_refl), (M_step _ _ self _ _ _ _ eq_refl).
    cbn [user set_trxns u_state]. unfold validateSourceAddr. cbn [rAddr]. rewrite bool_decide_true by done. cbn [negb].
    eexists. split; [reflexivity|]. split; [|split; [intros ? ?; cbn; congruence|by eexists _, _, _]].
    eexists id, _. cbn. rewrite lookup_insert_eq. done.
  - rewrite (M_step _ _ (s11uTrxn_new _) _ _ _ _ eq_refl), (M_step _ _ self _ _ _ _ eq_refl),
      (M_step _ _ (set_self _) _ _ _ _ eq_refl).
    erewrite M_step; [|unfold active, mbind, M_bind, self; cbn; rewrite lookup_insert_eq; reflexivity]. cbv beta iota.
    rewrite (M_step _ _ (store_trxn _ _) _ _ _ _ eq_refl), (M_step _ _ self _ _ _ _ eq_refl).
    cbn [user set_trxns u_state]. unfold validateSourceAddr. cbn [rAddr]. rewrite bool_decide_true by done. cbn [negb].
    eexists. split; [reflexivity|]. split; [|split; [intros ? ?; cbn; congruence|by eexists _, _, _]].
    eexists _, _. cbn. rewrite lookup_insert_eq. done.
Qed.

(** A message of elements is split and dispatched on its type. *)
Lemma parse_packet A (k : Z -> M A) ty mid es m s : loaded m s -> m_bytes m = packet_bytes ty mid es ->
  length mid = 8%nat -> Forall tliv_ok es -> (length es < GTPIE_SIZE)%nat ->
  exists u', (parseIEs ;; x ← getMsgType; k x) s = k ty (with_user s u') /\ parsed es u' /\
    active_trxn u' = active_trxn (user s) /\ trxns_changed (user s) u'.
Proof.
  intros (id & t & Ha & Hh & Hm) Hb Hmid Hes Hn. rewrite Hb in Hm.
  assert (Hact : active s = Ok ((id, t), s)) by (unfold active, mbind, M_bind, self; cbn; by rewrite Ha, Hh).
  assert (Hd : gtp2ie_decap (tr_iMsg t) (Z.of_nat (length (tr_iMsg t))) = Ok (0, ptrs es [])).
  { rewrite Hm, packet_bytes_length by done. pose proof (decap_packet ty mid es [] Hmid Hes Hn) as E.
    rewrite app_nil_r in E. rewrite <- E. f_equal. lia. }
  set (u' := set_trxns (user s) (trxns (user s)) (active_trxn (user s))
    (<[id := {| tr_seq := tr_seq t; tr_iMsg := tr_iMsg t; tr_ie := Some (0, ptrs es []) |}]> (theap (user s))) (tnext (user s))).
  assert (Hp : parseIEs s = Ok (tt, with_user s u')).
  { unfold parseIEs. rewrite (M_step _ _ active _ _ _ _ Hact), (lift_step _ _ _ _ _ _ Hd). reflexivity. }
  exists u'. rewrite (M_step _ _ parseIEs _ _ _ _ Hp). split; [|split; [|split; [done|by eexists _, _, _]]].
  - apply M_step. unfold getMsgType.
    rewrite (M_step _ _ active _ _ (id, {| tr_seq := tr_seq t; tr_iMsg := tr_iMsg t; tr_ie := Some (0, ptrs es []) |}) (with_user s u'))
      by (unfold active, mbind, M_bind, self; cbn; by rewrite Ha, lookup_insert_eq).
    cbv beta iota. cbn [tr_iMsg]. rewrite Hm. reflexivity.
  - eexists id, _. cbn. rewrite lookup_insert_eq. done.
Qed.

Lemma cause_run es c f s : parsed es (user s) -> Forall tliv_ok es -> (length es < GTPIE_SIZE)%nat ->
  find_v es GTPV2C_IE_CAUSE 0 = [c; f] -> cause_value s = Ok (c, s).
Proof. intros Hp Hes Hn Hf. unfold cause_value. rewrite (gettliv_parsed _ es) by done. by rewrite Hf. Qed.

Lemma log_rejection_run es c f s : parsed es (user s) -> Forall tliv_ok es -> (length es < GTPIE_SIZE)%nat ->
  find_v es GTPV2C_IE_CAUSE 0 = [c; f] -> log_rejection s = Ok (tt, with_user s (set_cause (user s) c)).
Proof.
  intros Hp Hes Hn Hf. unfold log_rejection.
  assert (Ha : accepted s = Ok (c =? GTPV2C_CAUSE_REQUEST_ACCEPTED, with_user s (set_cause (user s) c))).
  { unfold accepted. rewrite (M_step _ _ _ _ _ _ _ (cause_run es c f s Hp Hes Hn Hf)). done. }
  rewrite (M_step _ _ _ _ _ _ _ Ha). destruct (c =? GTPV2C_CAUSE_REQUEST_ACCEPTED); [done|]. cbn [negb].
  unfold cause. by rewrite (M_step _ _ _ _ _ _ _ (cause_run es c f (with_user s (set_cause (user s) c)) Hp Hes Hn Hf)).
Qed.

Lemma value_length : (100 <= length (repeat 0%Z GTP2IE_MAX))%nat.
Proof. rewrite repeat_length. unfold GTP2IE_MAX. lia. Qed.

(** C38: the answer to a Create Session Request is stored and reported,
    whatever its cause: for every session that waits for it and every response
    of its gateway with a cause (accepting or not), the two control endpoints,
    an IPv4 address, the bearer and the restart counter, [processMsg] keeps
    the gateway's endpoint for the next requests, the address and the bearer's
    endpoint for the terminal and the base station, moves to [ulCtx] and
    calls back once.  A rejection is handled as an acceptance. *)
Theorem create_session_response_stored c f e n teid addr pgw paa s1u s5u mid s :
  response_ok c f e n teid addr pgw paa s1u s5u -> length mid = 8%nat ->
  u_state (user s) = wCtxRsp -> session_ok (u_session (user s)) -> length (s5s8 (user s)) = FTEID_SIZE ->
  ebi (defaultBearer (u_session (user s))) = e ->
  let m := {| m_bytes := packet_bytes GTP2_CREATE_SESSION_RSP mid (response_elements c f e n teid addr pgw paa s1u s5u);
              m_peer := rAddr (user s) |} in
  seq_live (user s) (m_seq m) ->
  exists s', processMsg m s = Ok (tt, s') /\ u_state (user s') = ulCtx /\ u_cause (user s') = c /\
    rTEID (user s') = teid /\ take 9 (s5s8 (user s')) = (0x80 + S5S8C_PGW) :: pgw /\
    ePSsession_getPDNAddr (u_session (user s')) = Ok (paa, 32) /\
    esm_bc_getS1uSGWfteid (defaultBearer (u_session (user s'))) = Ok ((0x80 + S1U_SGW) :: s1u) /\
    sh_peers (sh s') = (S11_checkPeerRestart (sh_peers (sh s)) (rAddr (user s)) n).2 /\
    out s' = out s ++ callback_out (u_cb (user s)).
Proof.
  intros Hok Hmid Hst Hse Hs5 He m Hlive. set (es := response_elements c f e n teid addr pgw paa s1u s5u) in *.
  pose proof (response_elements_ok _ _ _ _ _ _ _ _ _ _ Hok) as Hes.
  pose proof (elements_few c f e n teid addr pgw paa s1u s5u) as Hn.
  destruct (processMsg_loaded m s eq_refl Hlive) as (u1 & E1 & Hl & _ & (a1 & h1 & n1 & ->)). rewrite E1, Hst.
  destruct (parse_packet _ (fun ty => if ty =? GTP2_CREATE_SESSION_RSP then
      log_rejection ;; parseCtxRsp ;; s11changeState ulCtx ;; returnControl else skip)
    GTP2_CREATE_SESSION_RSP mid es m _ Hl eq_refl Hmid Hes Hn) as (u2 & E2 & Hp & _ & (a2 & h2 & n2 & ->)).
  cbn [s11_states h_processMsg linkWCtxRsp]. unfold WCtxRsp_processMsg. rewrite E2. cbn [Z.eqb Pos.eqb GTP2_CREATE_SESSION_RSP].
  match goal with |- context [(log_rejection ≫= _) ?s2] =>
    rewrite (M_step _ _ log_rejection _ s2 tt _ (log_rejection_run es c f s2 Hp Hes Hn eq_refl)) end.
  unfold parseCtxRsp.
  erewrite M_step; [|apply (parseCtxRsp_run c f e n teid addr pgw paa s1u s5u Hok);
    [exact Hp|exact Hse|exact Hs5|exact He|apply value_length]].
  rewrite (M_step _ _ (s11changeState ulCtx) _ _ _ _ eq_refl).
  unfold returnControl. rewrite (M_step _ _ self _ _ _ _ eq_refl).
  destruct Hok as (_ & H1 & H2 & H3 & H4 & H5 & H6). destruct Hse as (_ & _ & Hsg & _).
  assert (Hlen : esm_bc_getS1uSGWfteid (stored_bearer s1u s5u (defaultBearer (u_session (user s)))) = Ok ((0x80 + S1U_SGW) :: s1u)).
  { unfold esm_bc_getS1uSGWfteid, fteid_len, stored_bearer. cbn [s1u_sgw app rd]. osimp.
    change (if Z.testbit (128 + S1U_SGW) 6 then _ else _) with 9. rewrite app_comm_cons. apply rdn_app. cbn [length]. lia. }
  destruct (u_cb (user s)) as [cb|] eqn:Ecb; cbn; rewrite Ecb; eexists; (split; [reflexivity|]); cbn;
    (split_and!; try done; by rewrite ?take_app_length', ?app_nil_r).
Qed.

Lemma create_session_response_stored_witness :
  exists s', processMsg {| m_bytes := packet_bytes GTP2_CREATE_SESSION_RSP [0; 0; 0; 7; 0; 0; 0; 0]
      (response_elements 73 0 5 1 [0; 0; 1; 1] [10; 0; 0; 2] (repeat 9 8) [10; 1; 1; 1] (repeat 8 8) (repeat 7 8));
      m_peer := sample_addr |} (sample_state wCtxRsp) = Ok (tt, s') /\
    u_state (user s') = ulCtx /\ rTEID (user s') = [0; 0; 1; 1] /\ out s' = [Callback 1].
Proof.
  destruct (create_session_response_stored 73 0 5 1 [0; 0; 1; 1] [10; 0; 0; 2] (repeat 9 8) [10; 1; 1; 1]
    (repeat 8 8) (repeat 7 8) [0; 0; 0; 7; 0; 0; 0; 0] (sample_state wCtxRsp)) as (s' & H1 & H2 & _ & H3 & _ & _ & _ & _ & H4).
  - split; [|repeat split]. repeat (apply Forall_cons_2; [by apply byte_ok_of|]). apply Forall_nil_2.
  - reflexivity.
  - reflexivity.
  - apply session_init_ok.
  - reflexivity.
  - reflexivity.
  - intros id Hid. vm_compute in Hid. injection Hid as <-. by eexists.
  - exists s'. split; [exact H1|]. split; [exact H2|]. split; [exact H3|exact H4].
Defined.

(** ** Messages that break the session *)

Lemma fault_bind A B (m : M A) (k : A -> M B) s x : m s = UB x -> (m ≫= k) s = UB x.
Proof. intros E. unfold mbind, M_bind. by rewrite E. Qed.

Lemma log_rejection_fault s x : cause_value s = UB x -> log_rejection s = UB x.
Proof. intros E. unfold log_rejection, accepted. by do 2 apply fault_bind. Qed.

(** The long form of the cause has six octets, with the offending element. *)
Lemma cause_overrun es s : parsed es (user s) -> Forall tliv_ok es -> (length es < GTPIE_SIZE)%nat ->
  (2 < length (find_v es GTPV2C_IE_CAUSE 0))%nat -> log_rejection s = UB OutOfBounds.
Proof.
  intros Hp Hes Hn Hl. apply log_rejection_fault. unfold cause_value. rewrite (gettliv_parsed _ es) by done.
  by destruct (Z.ltb_spec 2 (Z.of_nat (length (find_v es GTPV2C_IE_CAUSE 0)))); [|lia].
Qed.

Lemma cause_missing es s : parsed es (user s) -> Forall tliv_ok es -> (length es < GTPIE_SIZE)%nat ->
  find_v es GTPV2C_IE_CAUSE 0 = [] -> log_rejection s = UB Uninitialised.
Proof.
  intros Hp Hes Hn Hl. apply log_rejection_fault. unfold cause_value. rewrite (gettliv_parsed _ es) by done.
  by rewrite Hl.
Qed.

(** The responses a state waits for. *)
Definition awaited (x : S11State) (ty : Z) : bool :=
  match fsm_response x ty with Some _ => true | None => false end.

(** the cause of a response is read into an array of two octets that is
    not initialised, and the test of its size is an assignment: in every
    waiting state, an awaited response of the gateway without a cause makes
    the session act on an indeterminate value, and one with the long form of
    the cause writes outside of the array. *)
Theorem cause_not_checked ty mid es s : Forall tliv_ok es -> (length es < GTPIE_SIZE)%nat -> length mid = 8%nat ->
  awaited (u_state (user s)) ty = true ->
  let m := {| m_bytes := packet_bytes ty mid es; m_peer := rAddr (user s) |} in
  seq_live (user s) (m_seq m) ->
  (find_v es GTPV2C_IE_CAUSE 0 = [] -> processMsg m s = UB Uninitialised) /\
  ((2 < length (find_v es GTPV2C_IE_CAUSE 0))%nat -> processMsg m s = UB OutOfBounds).
Proof.
  intros Hes Hn Hmid Haw m Hlive.
  assert (G : forall r, (forall s0, parsed es (user s0) -> log_rejection s0 = UB r) -> processMsg m s = UB r).
  { intros r Hr. destruct (processMsg_loaded m s eq_refl Hlive) as (u1 & E1 & Hl & _). rewrite E1.
    destruct (u_state (user s)) eqn:Ex; try done;
      cbn [s11_states h_processMsg linkWCtxRsp linkWModBearerRsp linkWDel];
      unfold WCtxRsp_processMsg, WModBearerRsp_processMsg, WDel_processMsg.
    all: match goal with |- context [parseIEs ≫= fun _ => getMsgType ≫= ?k] =>
      destruct (parse_packet _ k ty mid es m _ Hl eq_refl Hmid Hes Hn) as (u2 & E2 & Hp & _) end.
    all: rewrite E2; match goal with |- _ ?s2 = _ => specialize (Hr s2 Hp) end.
    all: unfold awaited, fsm_response in Haw; case_bools; try done; by apply fault_bind. }
  split; intros Hc; apply G; intros s0 Hp.
  - by apply (cause_missing es).
  - by apply (cause_overrun es).
Qed.

Lemma cause_not_checked_witness :
  processMsg {| m_bytes := packet_bytes GTP2_DELETE_SESSION_RSP [0; 0; 0; 7; 0; 0; 0; 0] [];
    m_peer := sample_addr |} (sample_state wDel) = UB Uninitialised /\
  processMsg {| m_bytes := packet_bytes GTP2_DELETE_SESSION_RSP [0; 0; 0; 7; 0; 0; 0; 0]
    [Tliv GTPV2C_IE_CAUSE 0 [64; 0; 73; 0; 0; 0]];
    m_peer := sample_addr |} (sample_state wDel) = UB OutOfBounds.
Proof.
  assert (L : forall m, m_seq m = 0 -> seq_live (user (sample_state wDel)) (m_seq m)).
  { intros m -> id Hid. vm_compute in Hid. injection Hid as <-. by eexists. }
  split.
  - refine (proj1 (cause_not_checked GTP2_DELETE_SESSION_RSP [0; 0; 0; 7; 0; 0; 0; 0] [] (sample_state wDel) _ _ _ _ (L _ _)) _);
      try reflexivity; [apply Forall_nil_2|unfold GTPIE_SIZE; cbn; lia].
  - refine (proj2 (cause_not_checked GTP2_DELETE_SESSION_RSP [0; 0; 0; 7; 0; 0; 0; 0]
      [Tliv GTPV2C_IE_CAUSE 0 [64; 0; 73; 0; 0; 0]] (sample_state wDel) _ _ _ _ (L _ _)) _);
      try reflexivity; [|unfold GTPIE_SIZE; cbn; lia|cbn; lia].
    apply Forall_singleton. split_and!; try (by apply byte_ok_of); [|cbn; lia].
    repeat (apply Forall_cons_2; [by apply byte_ok_of|]). apply Forall_nil_2.
Defined.

(** ** The octets of the requests *)

Lemma build_msg_packet ty es : not_echo ty -> Forall tliv_ok es -> Z.of_nat (length (tlivs_bytes es)) <= 65527 ->
  exists rest, build_msg ty (map tliv_bytes es) =
    Ok (packet_bytes ty (repeat 0 8) es ++ rest, 12 + Z.of_nat (length (tlivs_bytes es))).
Proof.
  intros [Hb He] Hes Ht. unfold build_msg.
  destruct (encaps_packet es ty gtp_packet_mem Hes Ht Hb He) as (p1 & rest & E1 & E2).
  { unfold gtp_packet_mem. rewrite repeat_length. unfold GTPIE_MAX. lia. }
  rewrite E1. osimp. rewrite E2. osimp. by exists rest.
Qed.

(** The header fields are filled in when the message is sent. *)
Definition header_fields (u : S11_user_t) (seq : Z) : list Z := rTEID u ++ le24 seq ++ [0].

Lemma send_packet ty es rest s id t : active_trxn (user s) = Some id -> theap (user s) !! id = Some t ->
  length (rTEID (user s)) = 4%nat ->
  s11__send (packet_bytes ty (repeat 0 8) es ++ rest) (12 + Z.of_nat (length (tlivs_bytes es))) s =
  Ok (tt, Build_ust (user s) (sh s)
    (out s ++ [Sent (rAddr (user s)) (packet_bytes ty (header_fields (user s) (tr_seq t)) es)]) (removed s)).
Proof.
  intros Ha Hh Hr. unfold s11__send.
  erewrite M_step; [|unfold active, mbind, M_bind, self; cbn; rewrite Ha, Hh; reflexivity]. cbv beta iota.
  rewrite (M_step _ _ self _ _ _ _ eq_refl).
  set (hd := [0x48; ty] ++ be16 (8 + Z.of_nat (length (tlivs_bytes es)))).
  assert (E1 : overwrite (packet_bytes ty (repeat 0 8) es ++ rest) 8 (le24 (tr_seq t)) =
    Ok ((hd ++ repeat 0 4) ++ le24 (tr_seq t) ++ ([0] ++ tlivs_bytes es ++ rest))).
  { replace (packet_bytes ty (repeat 0 8) es ++ rest) with ((hd ++ repeat 0 4) ++ repeat 0 3 ++ ([0] ++ tlivs_bytes es ++ rest))
      by (unfold packet_bytes, hd; by rewrite <- !app_assoc). by apply overwrite_app. }
  rewrite (lift_step _ _ _ _ _ _ E1).
  assert (E2 : overwrite ((hd ++ repeat 0 4) ++ le24 (tr_seq t) ++ ([0] ++ tlivs_bytes es ++ rest)) 4 (rTEID (user s)) =
    Ok (hd ++ rTEID (user s) ++ (le24 (tr_seq t) ++ [0] ++ tlivs_bytes es ++ rest))).
  { rewrite <- (app_assoc hd). by apply overwrite_app. }
  rewrite (lift_step _ _ _ _ _ _ E2). unfold emit. do 4 f_equal. f_equal. f_equal.
  replace (hd ++ rTEID (user s) ++ (le24 (tr_seq t) ++ [0] ++ tlivs_bytes es ++ rest)) with
    (packet_bytes ty (header_fields (user s) (tr_seq t)) es ++ rest)
    by (unfold packet_bytes, hd, header_fields; by rewrite <- !app_assoc).
  apply take_app_length'. rewrite packet_bytes_length; [lia|]. unfold header_fields. rewrite !length_app, Hr. done.
Qed.

(** *** Downlink Data Notification *)

Definition ack_elements : list tliv := [Tliv GTPV2C_IE_CAUSE 0 [GTPV2C_CAUSE_REQUEST_ACCEPTED; 0]].

Lemma ack_run s id t : active_trxn (user s) = Some id -> theap (user s) !! id = Some t ->
  length (rTEID (user s)) = 4%nat ->
  sendDownlinkDataNotificationAck s =
  Ok (tt, Build_ust (set_trxns (user s) (trxns (user s)) (Some id) (delete id (theap (user s))) (tnext (user s))) (sh s)
    (out s ++ [Sent (rAddr (user s)) (packet_bytes GTP2_DOWNLINK_DATA_NOTIFICATION_ACK
       (header_fields (user s) (tr_seq t)) ack_elements)]) (removed s)).
Proof.
  intros Ha Hh Hr. unfold sendDownlinkDataNotificationAck.
  erewrite M_step; [|unfold active, mbind, M_bind, self; cbn; rewrite Ha, Hh; reflexivity]. cbv beta iota.
  destruct (build_msg_packet GTP2_DOWNLINK_DATA_NOTIFICATION_ACK ack_elements) as (rest & Eb);
    [not_echo_tac| |cbn; lia|].
  { apply Forall_singleton. split_and!; try (by apply byte_ok_of); [|cbn; lia].
    repeat (apply Forall_cons_2; [by apply byte_ok_of|]). apply Forall_nil_2. }
  rewrite (lift_step _ _ _ _ _ _ Eb). cbv beta iota. unfold s11_send_resp.
  rewrite (M_step _ _ _ _ _ _ _ (send_packet _ ack_elements rest s id t Ha Hh Hr)).
  rewrite (M_step _ _ self _ _ _ _ eq_refl). cbn [user]. rewrite Ha.
  unfold s11uTrxn_destroy. rewrite (M_step _ _ self _ _ _ _ eq_refl). cbn [user]. rewrite Hh.
  unfold set_self. cbn [sh out removed user]. by rewrite Ha.
Qed.

(** a Downlink Data Notification whose sequence number is that of an
    earlier request of the MME frees the transaction of that request: the
    notification is acknowledged and the terminal paged, but the table keeps
    the pointer, so that the next datagram with this number, and the removal
    of the session, use freed memory. *)
Theorem ddn_frees_pending_request id mid es s : u_state (user s) = ulCtx -> length (rTEID (user s)) = 4%nat ->
  Forall tliv_ok es -> (length es < GTPIE_SIZE)%nat -> length mid = 8%nat ->
  let m := {| m_bytes := packet_bytes GTP2_DOWNLINK_DATA_NOTIFICATION mid es; m_peer := rAddr (user s) |} in
  trxns (user s) !! m_seq m = Some id -> is_Some (theap (user s) !! id) ->
  exists s1, processMsg m s = Ok (tt, s1) /\ u_state (user s1) = ulCtx /\ last (out s1) = Some Paging /\
    trxns (user s1) !! m_seq m = Some id /\ theap (user s1) !! id = None /\
    (forall m2, m_seq m2 = m_seq m -> processMsg m2 s1 = UB UseAfterFree) /\
    (forall p, S11_unrefSession (sh_peers (sh s1)) (rAddr (user s1)) = Ok p -> s11_deleteSession s1 = UB UseAfterFree).
Proof.
  intros Hst Hr Hes Hn Hmid m Hid Hh.
  assert (Hlive : seq_live (user s) (m_seq m)) by (intros i Hi; congruence).
  destruct (processMsg_loaded m s eq_refl Hlive) as (u1 & E1 & Hl & Hact & (a1 & h1 & n1 & ->)). specialize (Hact id Hid).
  rewrite E1, Hst. cbn [s11_states h_processMsg linkUlCtx]. unfold UlCtx_processMsg.
  destruct (parse_packet _ (fun ty => if ty =? GTP2_DOWNLINK_DATA_NOTIFICATION then
      sendDownlinkDataNotificationAck ;; dl_data_not else skip)
    GTP2_DOWNLINK_DATA_NOTIFICATION mid es m _ Hl eq_refl Hmid Hes Hn) as (u2 & E2 & Hp & Hact2 & (a2 & h2 & n2 & ->)).
  rewrite E2. cbn [Z.eqb Pos.eqb GTP2_DOWNLINK_DATA_NOTIFICATION].
  destruct Hp as (i & t & Hai & Hti & _). cbn in Hact, Hact2, Hai, Hti. assert (i = id) as -> by congruence.
  match goal with |- context [(sendDownlinkDataNotificationAck ≫= _) ?s2] =>
    rewrite (M_step _ _ sendDownlinkDataNotificationAck _ s2 _ _ (ack_run s2 id t Hai Hti Hr)) end.
  eexists. split; [reflexivity|]. cbn. split_and!; [done|by rewrite last_snoc|done|by rewrite lookup_delete_eq| |].
  - intros m2 Hm2. unfold processMsg. rewrite (M_step _ _ self _ _ _ _ eq_refl). cbn [user]. unfold s11u_hasPendingResp.
    cbn [trxns set_trxns]. rewrite Hm2, Hid. rewrite (M_step _ _ (mret id) _ _ _ _ eq_refl), (M_step _ _ self _ _ _ _ eq_refl),
      (M_step _ _ (set_self _) _ _ _ _ eq_refl). apply fault_bind. unfold active, mbind, M_bind, self. cbn.
    by rewrite lookup_delete_eq.
  - intros p Hup. unfold s11_deleteSession. apply fault_bind. unfold s11u_freeUser.
    rewrite (M_step _ _ self _ _ _ _ eq_refl), (M_step _ _ shared_ _ _ _ _ eq_refl). cbn [user sh] in *.
    rewrite (lift_step _ _ _ _ _ _ Hup), (M_step _ _ (set_shared _) _ _ _ _ eq_refl). cbn [trxns theap set_trxns].
    rewrite bool_decide_false; [done|]. intros Hall. destruct (Hall _ _ Hid) as [x Hx]. by rewrite lookup_delete_eq in Hx.
Qed.

Lemma ddn_frees_pending_request_witness :
  exists s1, processMsg {| m_bytes := packet_bytes GTP2_DOWNLINK_DATA_NOTIFICATION [0; 0; 0; 7; 0; 0; 0; 0] [];
    m_peer := sample_addr |} (sample_state ulCtx) = Ok (tt, s1) /\ last (out s1) = Some Paging /\
    theap (user s1) !! O = None.
Proof.
  destruct (ddn_frees_pending_request O [0; 0; 0; 7; 0; 0; 0; 0] [] (sample_state ulCtx)) as (s1 & H1 & _ & H2 & _ & H3 & _).
  - reflexivity.
  - reflexivity.
  - apply Forall_nil_2.
  - unfold GTPIE_SIZE. cbn. lia.
  - reflexivity.
  - reflexivity.
  - by eexists.
  - exists s1. split; [exact H1|]. split; [exact H2|exact H3].
Defined.
