(* ===== verification/S11Req.v ===== *)
(** The Create Session Request: for a session whose data is well formed, the
    request that leaves the MME is a message the receiving side accepts and
    splits into exactly the elements of the subscription, the terminal, the
    bearer and the MME's own tunnel endpoint. *)
From stdpp Require Import fin_maps.
From S2P Require Import Prelude GTP Timer Subs Session S11Peer S11User S11FSM S11Rsp.
#[local] Opaque gtp_packet_mem build_msg.

Lemma gtpie_mem_length : Z.of_nat (length gtpie_mem) = 65535.
Proof. unfold gtpie_mem. rewrite repeat_length. unfold GTPIE_MAX. lia. Qed.
#[local] Opaque gtpie_mem.

(** ** Grouped elements *)

Lemma encaps_group_elems es : Forall tliv_ok es -> forall a b gl dn old post p,
  length old = length (tlivs_bytes es) -> p = 4 + Z.of_nat (length dn) -> 0 <= gl ->
  gl + Z.of_nat (length (tlivs_bytes es)) < 65536 -> p + Z.of_nat (length (tlivs_bytes es)) < 4 + GTPIE_MAX ->
  encaps_group_loop (map tliv_bytes es) ([a] ++ be16 gl ++ [b] ++ dn ++ old ++ post) p =
  Ok (0, [a] ++ be16 (gl + Z.of_nat (length (tlivs_bytes es))) ++ [b] ++ dn ++ tlivs_bytes es ++ post).
Proof.
  induction 1 as [|e es He Hes IH]; intros a b gl dn old post p Hold Hp Hgl Hlt Hend; cbn [map encaps_group_loop].
  - destruct old; [|done]. unfold tlivs_bytes. cbn [map concat length app Z.of_nat]. by rewrite Z.add_0_r.
  - rewrite tlivs_cons in *. rewrite length_app, tliv_length in Hold.
    rewrite !length_app, tliv_length in Hlt, Hend.
    pose proof (ie_l_tliv e [] He) as El. rewrite app_nil_r in El. rewrite El. osimp.
    destruct (Z.ltb_spec (p + (4 + Z.of_nat (length (e_v e)))) (4 + GTPIE_MAX)); [|lia].
    rewrite rdn_all by (rewrite tliv_length; lia). osimp.
    rewrite <- (take_drop (length (tliv_bytes e)) old).
    rewrite <- (app_assoc (take _ old)), !(app_assoc [a]), !(app_assoc ([a] ++ be16 gl)), (app_assoc (([a] ++ be16 gl) ++ [b])).
    rewrite overwrite_app; [|rewrite !length_app; cbn; lia|rewrite length_take, tliv_length; lia]. osimp.
    rewrite <- !app_assoc.
    assert (Eg : ie_l ([a] ++ be16 gl ++ [b] ++ dn ++ tliv_bytes e ++ drop (length (tliv_bytes e)) old ++ post) = Ok gl).
    { unfold ie_l. rewrite adv_app by done. rewrite rdn_app by done. osimp. by rewrite be_val_be16 by lia. }
    rewrite Eg. osimp. rewrite wrap16_id by lia. rewrite overwrite_app by done. osimp.
    pose proof (IH a b (gl + (4 + Z.of_nat (length (e_v e)))) (dn ++ tliv_bytes e) (drop (length (tliv_bytes e)) old) post
      (p + (4 + Z.of_nat (length (e_v e))))) as IH'.
    rewrite <- !app_assoc in IH'. rewrite IH'; [|rewrite length_drop, tliv_length; lia|rewrite length_app, tliv_length; lia|lia..].
    rewrite !length_app, tliv_length. do 4 f_equal. f_equal. lia.
Qed.

Lemma group_ie_at_elems mem ty es : Forall tliv_ok es -> byte_ok ty ->
  (4 + length (tlivs_bytes es) <= length mem)%nat -> Z.of_nat (length (tlivs_bytes es)) < 65535 ->
  group_ie_at mem ty (map tliv_bytes es) = Ok (tliv_bytes (Tliv ty 0 (tlivs_bytes es))).
Proof.
  intros Hes Hty Hl Hlt. unfold group_ie_at, gtp2ie_encaps_group. set (T := length (tlivs_bytes es)) in *.
  rewrite overwrite_front by (cbn; lia). osimp. rewrite wrap8_id by done. change (length [ty; 0; 0; wrap8 0]) with 4%nat.
  set (t := Tliv ty 0 (tlivs_bytes es)).
  assert (Ht : tliv_ok t).
  { split_and!; [done|done| |cbn; fold T; lia]. unfold t. cbn [e_v]. clear -Hes. unfold tlivs_bytes.
    induction Hes as [|x l Hx _ IH]; [by apply Forall_nil_2|]. cbn [map concat]. apply Forall_app. split; [by apply tliv_bytes_ok|done]. }
  assert (E : encaps_group_loop (map tliv_bytes es) ([ty; 0; 0; wrap8 0] ++ drop 4 mem) 4 =
    Ok (0, tliv_bytes t ++ drop T (drop 4 mem))).
  { pose proof (encaps_group_elems es Hes ty 0 0 [] (take T (drop 4 mem)) (drop T (drop 4 mem)) 4) as E.
    rewrite take_drop in E. etransitivity; [apply E|].
    - rewrite length_take, length_drop. fold T. lia.
    - done.
    - lia.
    - fold T. lia.
    - fold T. unfold GTPIE_MAX. lia.
    - unfold t, tliv_bytes. cbn [e_t e_i e_v]. fold T. rewrite Z.add_0_l, <- !app_assoc. done. }
  rewrite E. osimp. rewrite ie_l_tliv by done. osimp. apply rdn_app. rewrite tliv_length. cbn [e_v t]. lia.
Qed.

(** ** The data of the request *)

Lemma dec2tbcd_ok x : bytes_ok (dec2tbcd x) /\ length (dec2tbcd x) = 8%nat.
Proof.
  unfold dec2tbcd. assert (H : forall n y, bytes_ok (dec2tbcd_loop n y) /\ length (dec2tbcd_loop n y) = n).
  { induction n as [|n IH]; intros y; cbn [dec2tbcd_loop]; [split; [by apply Forall_nil_2|done]|].
    destruct (IH (y / 100)) as [H1 H2]. split; [|rewrite length_app, H2; cbn; lia].
    apply Forall_app. split; [done|]. apply Forall_singleton, wrap8_byte. }
  destruct (H 7%nat (x / 10)) as [H1 H2]. split; [|rewrite length_app, H2; done].
  apply Forall_app. split; [done|]. apply Forall_singleton. rewrite land_f0. unfold byte_ok. lia.
Qed.

(** A property of an octet by evaluation. *)
Ltac by_exhaustion l Hl :=
  match goal with |- ?b = true =>
    let P := eval pattern l in b in
    match P with ?f l => exact (byte_forall f ltac:(vm_compute; reflexivity) l Hl) end
  end.

Lemma qos_bytes_ok s : byte_ok (qci (Subs.qos (pdn s))) ->
  bytes_ok (qos_bytes (subs_cpyQoS_GTP s)) /\ length (qos_bytes (subs_cpyQoS_GTP s)) = 22%nat.
Proof.
  intros Hq. split; [|done]. unfold qos_bytes, subs_cpyQoS_GTP. cbn [q_pvi q_pl q_pci q_qci q_mbr_ul q_mbr_dl q_gbr_ul q_gbr_dl].
  apply Forall_app. split.
  - apply Forall_cons_2; [|by apply Forall_singleton]. apply byte_ok_of. rewrite !land_0f.
    assert (Hl : byte_ok (level (arp (Subs.qos (pdn s))) mod 16)) by (unfold byte_ok; lia). revert Hl.
    generalize (level (arp (Subs.qos (pdn s))) mod 16). intros l Hl.
    destruct (preemption_vulnerability (arp (Subs.qos (pdn s)))); by_exhaustion l Hl.
  - repeat (apply Forall_app; split); repeat (apply Forall_cons_2; [by apply byte_ok_of|]); apply Forall_nil_2.
Qed.

(** A session ready to send: lengths and octets of the fields that go out. *)
Record request_ready (s : ust) (pco : option (list Z)) : Prop := {
  rr_rteid : length (rTEID (user s)) = 4%nat;
  rr_session : session_ok (u_session (user s));
  rr_pco : ePSsession_getPCO (u_session (user s)) = Ok pco;
  rr_pco_ok : match pco with Some v => bytes_ok v /\ (length v <= 255)%nat | None => True end;
  rr_sn : bytes_ok (ev_sn (u_emm (user s))) /\ length (ev_sn (u_emm (user s))) = 3%nat;
  rr_pgw : exists a, ev_pgw (u_emm (user s)) = AF_INET a /\ bytes_ok a /\ length a = 4%nat;
  rr_local : bytes_ok (sh_local (sh s)) /\ length (sh_local (sh s)) = 4%nat;
  rr_restart : byte_ok (sh_restart (sh s));
  rr_apn : bytes_ok (apn (pdn (ev_subs (u_emm (user s))))) /\ (length (apn (pdn (ev_subs (u_emm (user s))))) <= 255)%nat /\
           37 ∉ apn (pdn (ev_subs (u_emm (user s))));
  rr_type : byte_ok (subs_getPDNType (ev_subs (u_emm (user s))));
  rr_qci : byte_ok (qci (Subs.qos (pdn (ev_subs (u_emm (user s))))));
  rr_seq : trxns (user s) !! sh_seq (sh s) = None;
}.

(** The grouped bearer context. *)
Definition bearer_request (u : S11_user_t) : list tliv :=
  [ Tliv GTPV2C_IE_EBI 0 [esm_bc_getEBI (defaultBearer (u_session u))];
    Tliv GTPV2C_IE_BEARER_LEVEL_QOS 0 (qos_bytes (subs_cpyQoS_GTP (ev_subs (u_emm u)))) ].

Definition request_elements (u : S11_user_t) (h : shared) (pco : option (list Z)) (first : bool) : list tliv :=
  CreateSession_ies u h (apn (pdn (ev_subs (u_emm u)))) pco
  ++ [Tliv GTPV2C_IE_BEARER_CONTEXT 0 (tlivs_bytes (bearer_request u))]
  ++ (if first then [Tliv GTPV2C_IE_RECOVERY 0 [sh_restart h]] else []).

Lemma fteid9_ok f : byte_ok (Z.lor (Z.lor (ft_iface f .& 0x3f) (Z.b2z (ft_ipv6 f) << 6)) (Z.b2z (ft_ipv4 f) << 7)).
Proof.
  apply byte_ok_of. change (0x3f) with (Z.ones 6). rewrite Z.land_ones by lia. change (2^6) with 64.
  assert (Hl : byte_ok (ft_iface f mod 64)) by (unfold byte_ok; lia). revert Hl.
  generalize (ft_iface f mod 64). intros l Hl.
  destruct (ft_ipv6 f), (ft_ipv4 f); by_exhaustion l Hl.
Qed.

Lemma fteid_value_ok f : bytes_ok (ft_teid f) -> length (ft_teid f) = 4%nat -> bytes_ok (ft_addr f) ->
  length (ft_addr f) = 4%nat -> bytes_ok (take FTEID_IP4_SIZE (fteid_octets f)) /\
  length (take FTEID_IP4_SIZE (fteid_octets f)) = 9%nat.
Proof.
  intros H1 H2 H3 H4. unfold fteid_octets, FTEID_IP4_SIZE. split.
  - apply Forall_take, Forall_cons_2; [apply fteid9_ok|]. by apply Forall_app.
  - rewrite length_take. cbn [length]. rewrite length_app, H2, H4. done.
Qed.

(** Octets and length of an element's value. *)
Lemma tliv_ok_intro t i v : byte_ok t -> byte_ok i -> bytes_ok v -> (length v < 300)%nat -> tliv_ok (Tliv t i v).
Proof. intros. split_and!; cbn; [done..|lia]. Qed.

Ltac element_tac :=
  apply Forall_cons_2; [apply tliv_ok_intro; [by apply byte_ok_of|by apply byte_ok_of| |]|].

Section Elements.
Context (s : ust) (pco : option (list Z)) (first : bool) (Hr : request_ready s pco).

Lemma bearer_request_ok : Forall tliv_ok (bearer_request (user s)) /\ length (tlivs_bytes (bearer_request (user s))) = 31%nat.
Proof using Hr.
  destruct (qos_bytes_ok (ev_subs (u_emm (user s))) (rr_qci _ _ Hr)) as [Hq Hql]. split.
  - unfold bearer_request. element_tac; [|cbn; lia|].
    + apply Forall_singleton. by destruct (rr_session _ _ Hr) as (_ & _ & _ & _ & _ & H).
    + element_tac; [done|lia|apply Forall_nil_2].
  - unfold bearer_request, tlivs_bytes. cbn [map concat]. rewrite !length_app, !tliv_length. cbn [e_v length]. by rewrite Hql.
Qed.

Lemma fteid_pgw_ok :
  let f := gtp_socktofeid (local_fteid (user s) (sh s)) S5S8C_PGW 0 (ev_pgw (u_emm (user s))) in
  bytes_ok (take FTEID_IP4_SIZE (fteid_octets f)) /\ length (take FTEID_IP4_SIZE (fteid_octets f)) = 9%nat.
Proof using Hr.
  destruct (rr_pgw _ _ Hr) as (a & -> & Ha & Hl). destruct (rr_local _ _ Hr) as [Hb Hbl]. cbn zeta.
  apply fteid_value_ok; cbn [gtp_socktofeid ft_teid ft_addr local_fteid].
  - apply be32_bytes.
  - done.
  - apply Forall_app. split; [done|by apply Forall_drop].
  - rewrite length_app, length_drop, Hl, Hbl. done.
Qed.

Lemma fteid_local_ok :
  bytes_ok (take FTEID_IP4_SIZE (fteid_octets (local_fteid (user s) (sh s)))) /\
  length (take FTEID_IP4_SIZE (fteid_octets (local_fteid (user s) (sh s)))) = 9%nat.
Proof using Hr. destruct (rr_local _ _ Hr). apply fteid_value_ok; [apply be32_bytes|done..]. Qed.

Lemma request_elements_ok : Forall tliv_ok (request_elements (user s) (sh s) pco first).
Proof using Hr.
  destruct fteid_local_ok as [F1 F2]. destruct fteid_pgw_ok as [P1 P2]. destruct bearer_request_ok as [B1 B2].
  destruct (dec2tbcd_ok (ev_imsi (u_emm (user s)))) as [I1 I2]. destruct (dec2tbcd_ok (ev_msisdn (u_emm (user s)))) as [M1 M2].
  destruct (rr_sn _ _ Hr) as [N1 N2]. destruct (rr_apn _ _ Hr) as (A1 & A2 & _).
  unfold request_elements, CreateSession_ies. cbn [subs_getUEAMBR].
  apply Forall_app. split; [apply Forall_app; split|].
  - do 3 (element_tac; [done|lia|]). element_tac; [by apply Forall_singleton, byte_ok_of|cbn; lia|].
    do 2 (element_tac; [done|lia|]). element_tac; [done|lia|].
    element_tac; [by apply Forall_singleton, byte_ok_of|cbn; lia|].
    element_tac; [apply Forall_singleton, (rr_type _ _ Hr)|cbn; lia|].
    element_tac; [repeat (apply Forall_cons_2; [by apply byte_ok_of|]); apply Forall_nil_2|cbn; lia|].
    element_tac; [by apply Forall_singleton, byte_ok_of|cbn; lia|].
    element_tac; [apply Forall_app; split; apply be32_bytes|cbn; lia|apply Forall_nil_2].
  - pose proof (rr_pco_ok _ _ Hr) as Hp. destruct pco as [v|]; [|apply Forall_nil_2].
    destruct Hp. element_tac; [done|lia|apply Forall_nil_2].
  - element_tac; [|lia|].
    + clear -B1. unfold tlivs_bytes. induction B1 as [|x l Hx _ IH]; [by apply Forall_nil_2|].
      cbn [map concat]. apply Forall_app. split; [by apply tliv_bytes_ok|done].
    + destruct first; [|apply Forall_nil_2].
      element_tac; [apply Forall_singleton, (rr_restart _ _ Hr)|cbn; lia|apply Forall_nil_2].
Qed.

Lemma request_elements_length : Z.of_nat (length (tlivs_bytes (request_elements (user s) (sh s) pco first))) <= 65527 /\
  (length (request_elements (user s) (sh s) pco first) < GTPIE_SIZE)%nat.
Proof using Hr.
  pose proof request_elements_ok as Hok.
  assert (Hn : (length (request_elements (user s) (sh s) pco first) <= 15)%nat).
  { unfold request_elements, CreateSession_ies. cbn [subs_getUEAMBR]. rewrite !length_app. destruct pco, first; cbn; lia. }
  split; [|unfold GTPIE_SIZE; lia].
  assert (Hs : Forall (fun e => (length (e_v e) < 300)%nat) (request_elements (user s) (sh s) pco first)).
  { destruct fteid_local_ok as [F1 F2]. destruct fteid_pgw_ok as [P1 P2]. destruct bearer_request_ok as [B1 B2].
    destruct (dec2tbcd_ok (ev_imsi (u_emm (user s)))) as [I1 I2]. destruct (dec2tbcd_ok (ev_msisdn (u_emm (user s)))) as [M1 M2].
    destruct (rr_sn _ _ Hr) as [N1 N2]. destruct (rr_apn _ _ Hr) as (A1 & A2 & _). pose proof (rr_pco_ok _ _ Hr) as Hp.
    unfold request_elements, CreateSession_ies. cbn [subs_getUEAMBR].
    repeat (apply Forall_app; split); repeat (apply Forall_cons_2;
      [first [cbn [e_v length]; lia | cbn [e_v]; rewrite length_app, !be32_length; lia]|]); try apply Forall_nil_2.
    - destruct pco as [v|]; [|apply Forall_nil_2]. destruct Hp. apply Forall_singleton. cbn. lia.
    - destruct first; [|apply Forall_nil_2]. apply Forall_singleton. cbn. lia. }
  clear Hok. revert Hn Hs. generalize (request_elements (user s) (sh s) pco first). intros l Hn Hs.
  assert (Hb : (length (tlivs_bytes l) <= 304 * length l)%nat).
  { clear Hn. induction Hs as [|x l Hx _ IH]; [done|]. rewrite tlivs_length. cbn [length]. lia. }
  lia.
Qed.
End Elements.

(** *** The handler *)

Lemma newTrxn_run s : trxns (user s) !! sh_seq (sh s) = None ->
  s11u_newTrxn s = Ok (tt, {| user := set_trxns (user s) (<[sh_seq (sh s) := tnext (user s)]> (trxns (user s)))
      (Some (tnext (user s)))
      (<[tnext (user s) := {| tr_seq := sh_seq (sh s); tr_iMsg := []; tr_ie := None |}]> (theap (user s))) (S (tnext (user s)));
    sh := {| sh_seq := (sh_seq (sh s) + 1) mod 2^24; sh_peers := sh_peers (sh s); sh_restart := sh_restart (sh s);
             sh_local := sh_local (sh s) |}; out := out s; removed := removed s |}).
Proof.
  intros H. unfold s11u_newTrxn. rewrite (M_step _ _ getNextSeq _ _ _ _ eq_refl), (M_step _ _ (s11uTrxn_new _) _ _ _ _ eq_refl),
    (M_step _ _ self _ _ _ _ eq_refl). cbn [user trxns set_trxns]. rewrite H. reflexivity.
Qed.

(** The elements as the handler lists them. *)
Lemma request_list u h pco first : map tliv_bytes (request_elements u h pco first) =
  map tliv_bytes (CreateSession_ies u h (apn (pdn (ev_subs (u_emm u)))) pco) ++
  [tliv_bytes (Tliv GTPV2C_IE_BEARER_CONTEXT 0 (tlivs_bytes (bearer_request u)))] ++ recovery_ies first h.
Proof. unfold request_elements. rewrite !map_app. by destruct first. Qed.

Lemma bearer_group_run s pco : request_ready s pco ->
  group_ie GTPV2C_IE_BEARER_CONTEXT (map tliv_bytes (bearer_request (user s))) =
  Ok (tliv_bytes (Tliv GTPV2C_IE_BEARER_CONTEXT 0 (tlivs_bytes (bearer_request (user s))))).
Proof.
  intros Hr. destruct (bearer_request_ok s pco Hr) as [B1 B2]. apply group_ie_at_elems; [done|by apply byte_ok_of| |lia].
  pose proof gtpie_mem_length. rewrite B2. lia.
Qed.

Lemma first_run s first p' : S11_isFirstSession (sh_peers (sh s)) (rAddr (user s)) = Ok (first, p') ->
  isFirstSessionForSGW s = Ok (first, Build_ust (user s)
    {| sh_seq := sh_seq (sh s); sh_peers := p'; sh_restart := sh_restart (sh s); sh_local := sh_local (sh s) |} (out s) (removed s)).
Proof. intros H. unfold isFirstSessionForSGW, mbind, M_bind, self, shared_, lift. cbn. by rewrite H. Qed.

Lemma sendCreateSessionReq_run s pco first p' : request_ready s pco ->
  S11_isFirstSession (sh_peers (sh s)) (rAddr (user s)) = Ok (first, p') ->
  let msg := packet_bytes GTP2_CREATE_SESSION_REQ (header_fields (user s) (sh_seq (sh s)))
    (request_elements (user s) (sh s) pco first) in
  exists s2, sendCreateSessionReq s = Ok (tt, s2) /\ u_cb (user s2) = u_cb (user s) /\
    out s2 = out s ++ [Sent (rAddr (user s)) msg] /\ trxns (user s2) !! sh_seq (sh s) = active_trxn (user s2) /\
    sh_seq (sh s2) = (sh_seq (sh s) + 1) mod 2^24 /\ sh_peers (sh s2) = p'.
Proof.
  intros Hr Hfirst msg. pose proof (request_elements_ok s pco first Hr) as Hes.
  destruct (request_elements_length s pco first Hr) as [Ht Hn].
  destruct (build_msg_packet GTP2_CREATE_SESSION_REQ _ ltac:(not_echo_tac) Hes Ht) as (rest & Eb).
  rewrite request_list in Eb.
  unfold sendCreateSessionReq. rewrite (M_step _ _ self _ _ _ _ eq_refl), (M_step _ _ shared_ _ _ _ _ eq_refl).
  rewrite (M_step _ _ _ _ _ _ _ (newTrxn_run s (rr_seq _ _ Hr))).
  destruct (rr_apn _ _ Hr) as (_ & _ & Hpc). unfold sprintf_apn, subs_getAPN.
  rewrite bool_decide_false by done. rewrite (lift_step _ _ _ _ _ _ eq_refl), (lift_step _ _ _ _ _ _ (rr_pco _ _ Hr)).
  unfold ePSsession_getDefaultBearer. rewrite (lift_step _ _ _ _ _ _ (bearer_group_run s pco Hr)).
  match goal with |- context [(isFirstSessionForSGW ≫= _) ?s1] =>
    rewrite (M_step _ _ isFirstSessionForSGW _ s1 _ _ (first_run s1 first p' Hfirst)) end.
  rewrite (lift_step _ _ _ _ _ _ Eb). cbv beta iota. unfold s11u_send.
  match goal with |- context [s11__send _ _ ?s1] =>
    rewrite (send_packet GTP2_CREATE_SESSION_REQ (request_elements (user s) (sh s) pco first) rest s1 (tnext (user s))
      {| tr_seq := sh_seq (sh s); tr_iMsg := []; tr_ie := None |} eq_refl (lookup_insert_eq _ _ _) (rr_rteid _ _ Hr)) end.
  eexists. split; [reflexivity|]. split; [reflexivity|]. split; [reflexivity|].
  split; [apply lookup_insert_eq|]. split; reflexivity.
Qed.

(** the Create Session Request: a new session with well-formed data that
    is attached takes the next sequence number, waits for the response and
    sends its gateway one message, with the TEID and sequence number in its
    header, which the receiver accepts, which splits into exactly the elements
    of [request_elements] (identity, serving network, both control endpoints,
    access point, rates, options and the grouped bearer), and which carries
    the restart counter exactly when it opens the first session with this
    gateway. *)
Theorem create_session_request_sent s pco cb first p' : request_ready s pco -> u_state (user s) = noCtx ->
  S11_isFirstSession (sh_peers (sh s)) (rAddr (user s)) = Ok (first, p') ->
  let es := request_elements (user s) (sh s) pco first in
  let msg := packet_bytes GTP2_CREATE_SESSION_REQ (header_fields (user s) (sh_seq (sh s))) es in
  exists s', attach cb s = Ok (tt, s') /\ u_state (user s') = wCtxRsp /\ u_cb (user s') = cb /\
    out s' = out s ++ [Sent (rAddr (user s)) msg] /\
    trxns (user s') !! sh_seq (sh s) = active_trxn (user s') /\ sh_seq (sh s') = (sh_seq (sh s) + 1) mod 2^24 /\
    sh_peers (sh s') = p' /\ gtp2_recv_check msg = Ok (Some msg) /\
    exists ies, gtp2ie_decap msg (Z.of_nat (length msg)) = Ok (0, ies) /\
      forall t i, gtp2ie_gettliv ies t i =
        match List.find (tliv_is t i) es with
        | Some e => Ok (0, e_v e, Z.of_nat (length (e_v e)))
        | None => Ok (EOF, [], 0)
        end.
Proof.
  intros Hr Hst Hfirst es msg. pose proof (request_elements_ok s pco first Hr) as Hes.
  destruct (request_elements_length s pco first Hr) as [Ht Hn]. fold es in Hes, Ht, Hn.
  assert (Hh : length (header_fields (user s) (sh_seq (sh s))) = 8%nat)
    by (unfold header_fields; rewrite !length_app, (rr_rteid _ _ Hr); done).
  set (s1 := Build_ust (set_cb (user s) cb) (sh s) (out s) (removed s)).
  assert (Hr1 : request_ready s1 pco) by (destruct Hr; by constructor).
  destruct (sendCreateSessionReq_run s1 pco first p' Hr1 Hfirst) as (s2 & E2 & H1 & H2 & H3 & H4 & H5).
  unfold attach, request. rewrite (M_step _ _ self _ _ _ _ eq_refl), (M_step _ _ (set_self _) _ _ _ _ eq_refl), Hst.
  cbn [s11_states linkNoCtx h_attach]. rewrite (M_step _ _ _ _ _ _ _ E2).
  eexists. split; [reflexivity|]. split; [done|]. split; [exact H1|]. split; [exact H2|]. split; [exact H3|].
  split; [exact H4|]. split; [exact H5|]. split; [by apply recv_check_packet|].
  exists (ptrs es []). split; [|intros t i; apply gettliv_elems; [done|lia]].
  unfold msg. rewrite packet_bytes_length by done.
  pose proof (decap_packet GTP2_CREATE_SESSION_REQ _ es [] Hh Hes Hn) as E. rewrite app_nil_r in E. rewrite <- E. f_equal. lia.
Qed.

(** ** Witnesses *)

Definition new_state : ust :=
  {| user := s11u_newUser 7 sample_emm sample_session; sh := sample_shared; out := []; removed := false |}.

Lemma new_state_ready c : request_ready (Build_ust (set_cb (user new_state) c) (sh new_state) [] false) None.
Proof.
  assert (B : forall l, forallb (fun b => (0 <=? b) && (b <? 256)) l = true -> bytes_ok l).
  { intros l H. apply List.Forall_forall. intros x Hx. apply byte_ok_of. by apply (proj1 (forallb_forall _ l) H x). }
  constructor.
  - reflexivity.
  - apply session_init_ok.
  - reflexivity.
  - done.
  - split; [by apply B|reflexivity].
  - exists [10; 0; 0; 3]. split; [reflexivity|]. split; [by apply B|reflexivity].
  - split; [by apply B|reflexivity].
  - by apply byte_ok_of.
  - split; [by apply B|]. split; [cbn; lia|]. apply (bool_decide_unpack _). reflexivity.
  - by apply byte_ok_of.
  - by apply byte_ok_of.
  - reflexivity.
Qed.

Lemma create_session_request_sent_witness :
  exists s' msg, attach (Some 1%nat) new_state = Ok (tt, s') /\ u_state (user s') = wCtxRsp /\
    out s' = [Sent sample_addr msg] /\ gtp2_recv_check msg = Ok (Some msg).
Proof.
  destruct (create_session_request_sent new_state None (Some 1%nat) true one_session (new_state_ready None) eq_refl eq_refl)
    as (s' & H1 & H2 & _ & H3 & _ & _ & _ & H4 & _).
  exists s'. eexists. split; [exact H1|]. split; [exact H2|]. split; [exact H3|exact H4].
Defined.

Lemma attach_run_events c s s2 : removed s = false -> u_state (user s) = noCtx ->
  sendCreateSessionReq (Build_ust (set_cb (user s) c) (sh s) (out s) (removed s)) = Ok (tt, s2) ->
  run_events [Req R_attach c] s = Ok (Build_ust (set_state (user s2) wCtxRsp) (sh s2) (out s2) (removed s2)).
Proof.
  intros Hr Hst E. cbn [run_events]. rewrite Hr. unfold run_event, request.
  rewrite (M_step _ _ self _ _ _ _ eq_refl), (M_step _ _ (set_self _) _ _ _ _ eq_refl), Hst.
  cbn [s11_states linkNoCtx h_attach req_handler]. rewrite (M_step _ _ sendCreateSessionReq _ _ tt s2 E). reflexivity.
Qed.

Lemma s11_one_callback_per_request_witness :
  exists s', run_events [Req R_attach (Some 1%nat)] new_state = Ok s' /\ count_out is_request (out s') = 1%nat.
Proof.
  destruct (sendCreateSessionReq_run (Build_ust (set_cb (user new_state) (Some 1%nat)) (sh new_state) [] false)
    None true one_session (new_state_ready (Some 1%nat)) eq_refl) as (s2 & E & _ & Ho & _).
  pose proof (attach_run_events (Some 1%nat) new_state s2 eq_refl eq_refl E) as Hrun.
  exists (Build_ust (set_state (user s2) wCtxRsp) (sh s2) (out s2) (removed s2)). split; [exact Hrun|].
  rewrite (s11_one_callback_per_request [Req R_attach (Some 1%nat)] 7 sample_emm sample_session sample_shared _
    ltac:(repeat constructor) Hrun).
  cbn [out user set_state u_state waiting]. rewrite Ho. reflexivity.
Defined.
