(* ===== verification/S11.v ===== *)
(** The S11 stack (src/mme/S11/MME_S11.c): the table of the sessions by TEID,
    the dispatch of the datagrams, and the invariant that ties the sessions to
    the table of the peers over any run. *)
From stdpp Require Import fin_maps relations.
From S2P Require Import Prelude GTP Timer Subs Session S11Peer S11User S11FSM S11Rsp.

(** [S11_t], and the static counter of [newTeid] (MME.c). *)
Record S11_t := { users : gmap Z S11_user_t; s_sh : shared; s_teid : Z }.

(** [getLocalRestartCounter]: [file] is the content of the state file, if it
    exists; the counter and the new content. *)
Definition getLocalRestartCounter (file : option (list Z)) : Z * list Z :=
  let r := match file with Some l => wrap8 (nth 0 l 0 + 1) | None => 0 end in (r, [r]).

Definition s11_init (file : option (list Z)) (local : list Z) : S11_t :=
  {| users := ∅; s_teid := 1;
     s_sh := {| sh_seq := 0; sh_peers := no_peers; sh_restart := (getLocalRestartCounter file).1; sh_local := local |} |}.

Definition newTeid (st : S11_t) : Z * S11_t :=
  (s_teid st, {| users := users st; s_sh := s_sh st; s_teid := wrap32 (s_teid st + 1) |}).

(** [s11_newSession]; a TEID that is in use would leave the table with a key
    inside a freed object. *)
Definition s11_newSession (st : S11_t) (emm : emm_view) (se : EPS_Session_t) : outcome (Z * S11_t) :=
  let '(teid, st) := newTeid st in
  match users st !! teid with
  | Some _ => UB UseAfterFree
  | None => Ok (teid, {| users := <[teid := s11u_newUser teid emm se]> (users st); s_sh := s_sh st; s_teid := s_teid st |})
  end.

(** A call on a session of the table: the session may be removed by it. *)
Definition run_user (st : S11_t) (teid : Z) (op : M unit) : outcome (S11_t * list s11_out) :=
  match users st !! teid with
  | None => UB UseAfterFree
  | Some u =>
    '(_, r) ← op {| user := u; sh := s_sh st; out := []; removed := false |};
    Ok ({| users := if removed r then delete teid (users st) else <[teid := user r]> (users st);
           s_sh := sh r; s_teid := s_teid st |}, out r)
  end.

Definition S11_newUserAttach (st : S11_t) (emm : emm_view) (se : EPS_Session_t) (cb : option nat)
  : outcome (S11_t * list s11_out) :=
  '(teid, st) ← s11_newSession st emm se;
  run_user st teid (attach cb).
Definition S11_Attach_ModifyBearerReq (st : S11_t) (teid : Z) (cb : option nat) := run_user st teid (modBearer cb).
Definition S11_detach (st : S11_t) (teid : Z) (cb : option nat) := run_user st teid (detach cb).
Definition S11_ReleaseAccessBearers (st : S11_t) (teid : Z) (cb : option nat) := run_user st teid (releaseAccess cb).

Definition set_peers (st : S11_t) (p : peers_t) : S11_t :=
  {| users := users st; s_teid := s_teid st;
     s_sh := {| sh_seq := sh_seq (s_sh st); sh_peers := p; sh_restart := sh_restart (s_sh st);
                sh_local := sh_local (s_sh st) |} |}.

(** The octets of [struct t_message.packet]. *)
Definition packet_size : Z := 65547.

(** [s11_accept]: [received] is what [recvfrom] returned.  A datagram that
    [gtp2_recv] drops leaves the zeroed message, of type 0. *)
Definition s11_accept (st : S11_t) (received : option (list Z)) (peer : address)
  : outcome (S11_t * list s11_out) :=
  v ← match received with None => Ok None | Some b => gtp2_recv_check b end;
  match v with
  | None => Ok (st, [])
  | Some b =>
    let msg := {| m_bytes := b; m_peer := peer |} in
    let mem := b ++ repeat 0 (Z.to_nat (packet_size - Z.of_nat (length b))) in
    if m_type msg =? GTP2_ECHO_REQ then
      '(p, reply) ← processEchoReq (sh_peers (s_sh st)) (sh_restart (s_sh st)) peer mem (Z.of_nat (length b));
      Ok (set_peers st p, [Sent peer reply])
    else if m_type msg =? GTP2_ECHO_RSP then
      p ← s11peer_processEchoRsp (sh_peers (s_sh st)) peer mem (Z.of_nat (length b));
      Ok (set_peers st p, [])
    else if m_type msg <? 4 then Ok (st, [])
    else
      match users st !! m_teid msg with
      | None => Ok (st, [])
      | Some _ => run_user st (m_teid msg) (processMsg msg)
      end
  end.

(** [s11_free]: the table of the peers is destroyed first, and then the one of the
    sessions, which frees every session; [None] is a table that was destroyed. *)
Definition free_user (t : option peers_t) (u : S11_user_t) : outcome (option peers_t) :=
  match t with
  | None => UB UseAfterFree
  | Some p => Some <$> S11_unrefSession p (rAddr u)
  end.
Fixpoint free_users (t : option peers_t) (l : list S11_user_t) : outcome (option peers_t) :=
  match l with [] => Ok t | u :: l => t ← free_user t u; free_users t l end.
Definition s11_free (st : S11_t) : outcome unit := _ ← free_users None ((map_to_list (users st)).*2); Ok tt.

(** ** The sessions and the peers *)

(** The number of sessions with the gateway at [a]. *)
Definition at_gw (a : address) (x : Z * S11_user_t) : Prop := rAddr x.2 = a.
#[export] Instance at_gw_dec a x : Decision (at_gw a x).
Proof. unfold at_gw. apply _. Defined.
Definition sessions_at (us : gmap Z S11_user_t) (a : address) : nat := size (filter (at_gw a) us).

Lemma sessions_insert us k u a : us !! k = None ->
  sessions_at (<[k := u]> us) a = set_cnt (sessions_at us) (rAddr u) (S (sessions_at us (rAddr u))) a.
Proof.
  intros Hk. unfold sessions_at, set_cnt. destruct (decide (rAddr u = a)) as [<-|Hne].
  - rewrite map_filter_insert_True by done. apply map_size_insert_None.
    apply map_lookup_filter_None. by left.
  - rewrite map_filter_insert_False by done. by rewrite delete_id.
Qed.

Lemma sessions_delete us k u a : us !! k = Some u ->
  sessions_at us a = set_cnt (sessions_at (delete k us)) (rAddr u) (S (sessions_at (delete k us) (rAddr u))) a.
Proof.
  intros Hk. rewrite <- (insert_delete_id us k u Hk) at 1. apply sessions_insert. apply lookup_delete_eq.
Qed.

Lemma sessions_update us k u u' a : us !! k = Some u -> rAddr u' = rAddr u ->
  sessions_at (<[k := u']> us) a = sessions_at us a.
Proof.
  intros Hk Hr. rewrite (sessions_delete us k u a Hk), <- insert_delete_eq, sessions_insert by apply lookup_delete_eq.
  by rewrite Hr.
Qed.

(** The operations that leave the invariant of the peers as it is. *)
Definition PeersKept {A} (m : M A) : Prop := forall s a s' cnt, m s = Ok (a, s') ->
  removed s' = removed s /\ (peers_ok cnt (sh_peers (sh s)) -> peers_ok cnt (sh_peers (sh s'))).

Lemma pk_bind A B (m : M A) (k : A -> M B) : PeersKept m -> (forall a, PeersKept (k a)) -> PeersKept (m ≫= k).
Proof.
  intros Hm Hk s b s' cnt (a & s1 & E1 & E2)%M_bind_Ok. destruct (Hm _ _ _ cnt E1) as [R1 P1].
  destruct (Hk _ _ _ _ cnt E2) as [R2 P2]. split; [congruence|auto].
Qed.
Lemma pk_ret A (a : A) : PeersKept (mret a).
Proof. by intros s b s' cnt [= <- <-]. Qed.
Lemma pk_lift A (o : outcome A) : PeersKept (lift o).
Proof. intros s a s' cnt E. by apply bind_Ok in E as (b & _ & [= <- <-]). Qed.
Lemma pk_fault A f : PeersKept (@fault_ A f).
Proof. done. Qed.
Lemma pk_self : PeersKept self.
Proof. by intros s a s' cnt [= <- <-]. Qed.
Lemma pk_shared : PeersKept shared_.
Proof. by intros s a s' cnt [= <- <-]. Qed.
Lemma pk_set_self u : PeersKept (set_self u).
Proof. by intros s a s' cnt [= <- <-]. Qed.
Lemma pk_emit o : PeersKept (emit o).
Proof. by intros s a s' cnt [= <- <-]. Qed.
Lemma pk_getNextSeq : PeersKept getNextSeq.
Proof. intros s a s' cnt E. unfold getNextSeq in E. by injection E as <- <-. Qed.
Lemma pk_check_restart c : PeersKept (check_restart c).
Proof. intros s a s' cnt E. unfold check_restart in E. injection E as <- <-. split; [done|apply checkPeerRestart_ok]. Qed.

Ltac pk_tac :=
  repeat first
    [ apply pk_ret | apply pk_lift | apply pk_fault | apply pk_self | apply pk_shared | apply pk_set_self
    | apply pk_emit | apply pk_getNextSeq | apply pk_check_restart
    | match goal with
      | |- PeersKept (match ?x with _ => _ end) => destruct x
      | |- PeersKept (if ?x then _ else _) => destruct x
      end
    | (apply pk_bind; [|intros]) ].

Lemma pk_send o len : PeersKept (s11__send o len).
Proof. unfold s11__send, active. pk_tac. Qed.
Lemma pk_newTrxn : PeersKept s11u_newTrxn.
Proof. unfold s11u_newTrxn, s11uTrxn_new. pk_tac. Qed.
Lemma pk_ModifyBearer : PeersKept sendModifyBearerReq.
Proof.
  unfold sendModifyBearerReq. apply pk_bind; [apply pk_self|intros u]. apply pk_bind; [apply pk_shared|intros h].
  apply pk_bind; [apply pk_newTrxn|intros _]. do 2 (apply pk_bind; [apply pk_lift|intros ?]).
  apply pk_bind; [apply pk_lift|intros []]. apply pk_send.
Qed.
Lemma pk_DeleteSession : PeersKept sendDeleteSessionReq.
Proof. unfold sendDeleteSessionReq. apply pk_bind; [apply pk_newTrxn|intros _]. apply pk_bind; [apply pk_lift|intros []]. apply pk_send. Qed.
Lemma pk_ReleaseAccess : PeersKept sendReleaseAccessBearersReq.
Proof. unfold sendReleaseAccessBearersReq. apply pk_bind; [apply pk_newTrxn|intros _]. apply pk_bind; [apply pk_lift|intros []]. apply pk_send. Qed.
Lemma pk_DDNAck : PeersKept sendDownlinkDataNotificationAck.
Proof.
  unfold sendDownlinkDataNotificationAck, active. apply pk_bind; [pk_tac|intros _]. apply pk_bind; [apply pk_lift|intros []].
  unfold s11_send_resp, s11uTrxn_destroy. apply pk_bind; [apply pk_send|intros _]. pk_tac.
Qed.
Lemma pk_changeState x : PeersKept (s11changeState x).
Proof. unfold s11changeState, s11u_setState. pk_tac. Qed.
Lemma pk_parseIEs : PeersKept parseIEs.
Proof. unfold parseIEs, active, store_trxn. pk_tac. Qed.
Lemma pk_getMsgType : PeersKept getMsgType.
Proof. unfold getMsgType, active. pk_tac. Qed.
Lemma pk_log_rejection : PeersKept log_rejection.
Proof. unfold log_rejection, accepted, cause, cause_value, active_gettliv, active, skip. pk_tac. Qed.
Lemma pk_returnControl : PeersKept returnControl.
Proof. unfold returnControl, skip. pk_tac. Qed.
Lemma pk_parseModBearerRsp : PeersKept parseModBearerRsp.
Proof. unfold parseModBearerRsp, active_gettliv, active, copy_value. pk_tac. Qed.
Lemma pk_parseCtxRsp : PeersKept parseCtxRsp.
Proof.
  unfold parseCtxRsp, parseCtxRsp_at. generalize (repeat 0 GTP2IE_MAX). intros mem.
  unfold copy_value, when_present, s11u_setS11fteid, update_session, parseCtxRsp_bearer, update_bearer, update_session,
    active_gettliv, active, skip, when_present. pk_tac.
Qed.

(** ** Events of a session and the peers *)

(** The effect on the count of the gateway [a]: one less when the session is
    removed. *)
Definition count_after (cnt : address -> nat) (a : address) (gone : bool) : address -> nat :=
  if gone then set_cnt cnt a (pred (cnt a)) else cnt.

Lemma request_peers r c s s' cnt : u_state (user s) <> noCtx -> run_event (Req r c) s = Ok (tt, s') ->
  removed s' = removed s /\ (peers_ok cnt (sh_peers (sh s)) -> peers_ok cnt (sh_peers (sh s'))).
Proof.
  intros Hne E. unfold run_event, request in E. apply M_bind_Ok in E as (u & s1 & [= <- <-] & E).
  apply M_bind_Ok in E as ([] & s2 & [= <-] & E).
  assert (H : PeersKept (req_handler r (s11_states (u_state (user s))))).
  { destruct (u_state (user s)); [done|..]; destruct r; try apply pk_ret; (apply pk_bind; [|intros; apply pk_changeState]).
    - apply pk_DeleteSession.
    - apply pk_ModifyBearer.
    - apply pk_DeleteSession.
    - apply pk_ModifyBearer.
    - apply pk_ReleaseAccess. }
  exact (H _ _ _ cnt E).
Qed.

Lemma pk_handler x : x <> wDel -> PeersKept (h_processMsg (s11_states x)).
Proof.
  intros Hx. destruct x; try apply pk_ret; try done; cbn [s11_states h_processMsg linkWCtxRsp linkUlCtx linkWModBearerRsp];
    (apply pk_bind; [apply pk_parseIEs|intros _]; apply pk_bind; [apply pk_getMsgType|intros ty]).
  - destruct (ty =? GTP2_CREATE_SESSION_RSP); [|apply pk_ret]. apply pk_bind; [apply pk_log_rejection|intros _].
    apply pk_bind; [apply pk_parseCtxRsp|intros _]. apply pk_bind; [apply pk_changeState|intros _]. apply pk_returnControl.
  - destruct (ty =? GTP2_DOWNLINK_DATA_NOTIFICATION); [|apply pk_ret].
    apply pk_bind; [apply pk_DDNAck|intros _; apply pk_emit].
  - destruct (ty =? GTP2_MODIFY_BEARER_RSP).
    + apply pk_bind; [apply pk_log_rejection|intros _]. apply pk_bind; [apply pk_parseModBearerRsp|intros []]; [|apply pk_ret].
      apply pk_bind; [apply pk_changeState|intros _]. apply pk_returnControl.
    + destruct (ty =? GTP2_RELEASE_ACCESS_BEARERS_RSP); [|apply pk_ret]. apply pk_bind; [apply pk_log_rejection|intros _].
      apply pk_bind; [apply pk_changeState|intros _]. apply pk_returnControl.
Qed.

(** The session of a confirmed deletion gives up its reference. *)
Lemma removeSession_peers s a s' cnt : returnControlAndRemoveSession s = Ok (a, s') ->
  (0 < cnt (rAddr (user s)))%nat -> Z.of_nat (cnt (rAddr (user s))) < 2^32 ->
  peers_ok cnt (sh_peers (sh s)) -> peers_ok (set_cnt cnt (rAddr (user s)) (pred (cnt (rAddr (user s))))) (sh_peers (sh s')).
Proof.
  intros E H0 Hlt H. unfold returnControlAndRemoveSession in E. apply M_bind_Ok in E as (u & s1 & [= <- <-] & E).
  apply M_bind_Ok in E as ([] & s2 & E2 & E). unfold s11_deleteSession in E2. apply M_bind_Ok in E2 as ([] & s3 & E3 & [= <-]).
  unfold free_user in E3. apply M_bind_Ok in E3 as (u & s4 & [= <- <-] & E3). apply M_bind_Ok in E3 as (h & s4 & [= <- <-] & E3).
  apply M_bind_Ok in E3 as (p & s4 & E4 & E3). apply bind_Ok in E4 as (p' & E4 & [= <- <-]).
  apply M_bind_Ok in E3 as ([] & s5 & [= <-] & E3).
  assert (Hn : cnt (rAddr (user s)) = S (pred (cnt (rAddr (user s))))) by lia.
  rewrite Hn in Hlt. destruct (unrefSession_ok cnt _ _ _ H Hn Hlt) as (p2 & E5 & Hok).
  assert (p2 = p') as -> by congruence.
  destruct (bool_decide _); [|done]. injection E3 as <-. destruct (u_cb (user s)); by injection E as <- <-.
Qed.

Lemma wdel_peers s a s' cnt : h_processMsg (s11_states wDel) s = Ok (a, s') -> removed s = false ->
  (0 < cnt (rAddr (user s)))%nat -> Z.of_nat (cnt (rAddr (user s))) < 2^32 ->
  peers_ok cnt (sh_peers (sh s)) -> peers_ok (count_after cnt (rAddr (user s)) (removed s')) (sh_peers (sh s')).
Proof.
  intros E Hr H0 Hlt H. cbn [s11_states h_processMsg linkWDel] in E. unfold WDel_processMsg in E.
  apply M_bind_Ok in E as ([] & s1 & E1 & E). apply M_bind_Ok in E as (ty & s2 & E2 & E).
  pose proof (keeps _ _ _ E1) as V1. pose proof (keeps _ _ _ E2) as V2.
  destruct (pk_parseIEs _ _ _ cnt E1) as [R1 P1]. destruct (pk_getMsgType _ _ _ cnt E2) as [R2 P2].
  destruct (ty =? GTP2_DELETE_SESSION_RSP).
  - apply M_bind_Ok in E as ([] & s3 & E3 & E). apply M_bind_Ok in E as ([] & s4 & E4 & E).
    apply M_bind_Ok in E as ([] & s5 & E5 & E). pose proof (keeps _ _ _ E3) as V3. pose proof (keeps _ _ _ E4) as V4.
    apply changeState_view in E5 as V5. destruct (pk_log_rejection _ _ _ cnt E3) as [R3 P3].
    destruct (pk_set_self _ _ _ _ cnt E4) as [R4 P4]. destruct (pk_changeState _ _ _ _ cnt E5) as [R5 P5].
    apply removeSession_view in E as VE. apply view_eq in V1, V2, V3, V4. unfold view in V5, VE.
    injection V5 as ? Ha ? ? ? ?. injection VE as ? ? ? ? ? Hrm.
    assert (Er : rAddr (user s5) = rAddr (user s)) by (destruct_and!; congruence).
    rewrite Hrm. cbn [count_after]. rewrite <- Er. apply (removeSession_peers _ _ _ _ E); rewrite ?Er; auto 10.
  - injection E as <- <-. rewrite R2, R1, Hr. cbn [count_after]. auto.
Qed.

Lemma message_peers m s s' cnt : run_event (Msg m) s = Ok (tt, s') -> removed s = false ->
  (0 < cnt (rAddr (user s)))%nat -> Z.of_nat (cnt (rAddr (user s))) < 2^32 ->
  peers_ok cnt (sh_peers (sh s)) -> peers_ok (count_after cnt (rAddr (user s)) (removed s')) (sh_peers (sh s')).
Proof.
  intros E Hr H0 Hlt H. unfold run_event, processMsg in E. apply M_bind_Ok in E as (u & s0 & [= <- <-] & E).
  apply M_bind_Ok in E as (id & s1 & E1 & E). apply M_bind_Ok in E as (u & s1' & [= <- <-] & E).
  apply M_bind_Ok in E as ([] & s2 & E2 & E). apply M_bind_Ok in E as ([id' t] & s3 & E3 & E).
  apply M_bind_Ok in E as ([] & s4 & E4 & E). apply M_bind_Ok in E as (u & s5 & [= <- <-] & E).
  assert (V1 : view s1 = view s /\ removed s1 = removed s /\ sh_peers (sh s1) = sh_peers (sh s)).
  { destruct (s11u_hasPendingResp (user s) (m_seq m)); by injection E1 as <- <-. }
  assert (V2 : view s2 = view s1 /\ sh_peers (sh s2) = sh_peers (sh s1)) by (by injection E2 as <-).
  assert (P3 : s3 = s2).
  { unfold active in E3. apply M_bind_Ok in E3 as (u & s9 & [= <- <-] & E3).
    destruct (active_trxn (user s2)); [|done]. destruct (theap (user s2) !! n); [|done]. by injection E3 as <- <- <-. }
  subst s3. pose proof (keeps_store_trxn _ _ _ _ _ E4) as V4.
  assert (P4 : sh_peers (sh s4) = sh_peers (sh s2)) by (by injection E4 as <-).
  destruct V1 as (V1 & _ & P1), V2 as [V2 P2].
  assert (V : view s4 = view s) by congruence. apply view_eq in V as (W1 & W2 & W3 & W4 & W5 & W6).
  assert (HP : peers_ok cnt (sh_peers (sh s4))) by congruence. rewrite <- W2 in *.
  destruct (validateSourceAddr (user s4) (m_peer m)); cbn [negb] in E.
  - destruct (decide (u_state (user s4) = wDel)) as [Ed|Ed].
    + rewrite Ed in E. apply (wdel_peers _ _ _ _ E); congruence || done.
    + destruct (pk_handler _ Ed _ _ _ cnt E) as [R P]. rewrite R, W6, Hr. cbn. auto.
  - injection E as <-. rewrite W6, Hr. done.
Qed.

(** The first session with a gateway, and the others. *)
Lemma lift_Ok A (o : outcome A) s a s' : lift o s = Ok (a, s') -> o = Ok a /\ s' = s.
Proof. intros E. by apply bind_Ok in E as (b & -> & [= <- <-]). Qed.

Lemma first_peers s b s' cnt : isFirstSessionForSGW s = Ok (b, s') ->
  Z.of_nat (S (cnt (rAddr (user s)))) < 2^32 -> peers_ok cnt (sh_peers (sh s)) ->
  peers_ok (set_cnt cnt (rAddr (user s)) (S (cnt (rAddr (user s))))) (sh_peers (sh s')).
Proof.
  intros E Hlt H. unfold isFirstSessionForSGW in E.
  apply M_bind_Ok in E as (u & s1 & [= <- <-] & E). apply M_bind_Ok in E as (h & s1 & [= <- <-] & E).
  apply M_bind_Ok in E as ([b' p] & s1 & [E1 ->]%lift_Ok & E). apply M_bind_Ok in E as ([] & s2 & [= <-] & [= <- <-]).
  destruct (isFirstSession_ok cnt _ (rAddr (user s)) H Hlt) as (p2 & Ep & Hok). cbn. congruence.
Qed.

Lemma create_peers s a s' cnt : sendCreateSessionReq s = Ok (a, s') ->
  Z.of_nat (S (cnt (rAddr (user s)))) < 2^32 -> peers_ok cnt (sh_peers (sh s)) ->
  peers_ok (set_cnt cnt (rAddr (user s)) (S (cnt (rAddr (user s))))) (sh_peers (sh s')).
Proof.
  intros E Hlt H. unfold sendCreateSessionReq in E.
  apply M_bind_Ok in E as (u & s4 & [= <- <-] & E). apply M_bind_Ok in E as (h & s4 & [= <- <-] & E).
  apply M_bind_Ok in E as ([] & s5 & E5 & E).
  destruct (pk_newTrxn _ _ _ cnt E5) as [_ P5]. specialize (P5 H). apply keeps, view_eq in E5 as V5.
  apply M_bind_Ok in E as (nm & s6 & [_ ->]%lift_Ok & E). apply M_bind_Ok in E as (opt & s6 & [_ ->]%lift_Ok & E).
  apply M_bind_Ok in E as (g & s6 & [_ ->]%lift_Ok & E). apply M_bind_Ok in E as (first & s6 & E6 & E).
  apply (first_peers _ _ _ cnt) in E6; [|by destruct V5 as (_ & -> & _)|done].
  destruct V5 as (_ & Ha & _). rewrite Ha in E6.
  apply M_bind_Ok in E as ([o len] & s9 & [_ ->]%lift_Ok & E).
  by apply (pk_send _ _ _ _ _ (set_cnt cnt (rAddr (user s)) (S (cnt (rAddr (user s)))))) in E as [_ P9]; apply P9.
Qed.

Lemma attach_peers c s s' cnt : attach c s = Ok (tt, s') -> u_state (user s) = noCtx ->
  Z.of_nat (S (cnt (rAddr (user s)))) < 2^32 -> peers_ok cnt (sh_peers (sh s)) ->
  peers_ok (set_cnt cnt (rAddr (user s)) (S (cnt (rAddr (user s))))) (sh_peers (sh s')).
Proof.
  intros E Hst Hlt H. unfold attach, request in E. apply M_bind_Ok in E as (u & s1 & [= <- <-] & E).
  apply M_bind_Ok in E as ([] & s2 & [= <-] & E). rewrite Hst in E. cbn [s11_states linkNoCtx h_attach] in E.
  apply M_bind_Ok in E as ([] & s3 & E3 & E).
  apply (pk_changeState _ _ _ _ (set_cnt cnt (rAddr (user s)) (S (cnt (rAddr (user s)))))) in E as [_ PE].
  apply PE. exact (create_peers _ _ _ cnt E3 Hlt H).
Qed.

(** ** Runs of the stack *)

(** The events of the stack: a session is opened with its attach request, the
    EMM part requests something of a session, a datagram arrives from the
    socket, an echo timer expires.  There are fewer than 2^32 sessions. *)
Inductive stack_step : S11_t -> S11_t -> Prop :=
  | st_attach st emm se cb st' o : Z.of_nat (S (size (users st))) < 2^32 ->
      S11_newUserAttach st emm se cb = Ok (st', o) -> stack_step st st'
  | st_modBearer st teid cb st' o : S11_Attach_ModifyBearerReq st teid cb = Ok (st', o) -> stack_step st st'
  | st_detach st teid cb st' o : S11_detach st teid cb = Ok (st', o) -> stack_step st st'
  | st_release st teid cb st' o : S11_ReleaseAccessBearers st teid cb = Ok (st', o) -> stack_step st st'
  | st_accept st b peer st' o : s11_accept st b peer = Ok (st', o) -> stack_step st st'
  | st_echo st t p : is_Some (timers (ptm (sh_peers (s_sh st))) !! t) ->
      s11peer_sendEcho (sh_peers (s_sh st)) t = Ok p -> stack_step st (set_peers st p).

Record stack_ok (st : S11_t) : Prop := {
  so_peers : peers_ok (sessions_at (users st)) (sh_peers (s_sh st));
  so_user : forall k u, users st !! k = Some u -> lTEID u = k /\ u_state u <> noCtx;
  so_size : Z.of_nat (size (users st)) < 2^32;
}.

Lemma sessions_at_le us a : (sessions_at us a <= size us)%nat.
Proof. apply map_size_filter. Qed.

(** The table after a call on the session [teid]. *)
Lemma stack_ok_user st teid u u' gone p c : stack_ok st -> users st !! teid = Some u ->
  rAddr u' = rAddr u -> lTEID u' = lTEID u -> (gone = false -> u_state u' <> noCtx) ->
  peers_ok (count_after (sessions_at (users st)) (rAddr u) gone) (sh_peers p) ->
  stack_ok {| users := if gone : bool then delete teid (users st) else <[teid := u']> (users st); s_sh := p; s_teid := c |}.
Proof.
  intros [Hp Hu Hs] Hk Ha Ht Hn Hok. split; cbn [users s_sh].
  - eapply peers_ok_ext, Hok. intros b. destruct gone; cbn [count_after].
    + pose proof (sessions_delete _ _ _ b Hk) as Eb. pose proof (sessions_delete _ _ _ (rAddr u) Hk) as Ea.
      rewrite set_cnt_eq in Ea. rewrite Ea. unfold set_cnt in *. destruct (decide (rAddr u = b)) as [<-|]; lia.
    + symmetry. by eapply sessions_update.
  - destruct gone; intros k v Hv.
    + apply lookup_delete_Some in Hv as [_ Hv]. by apply Hu.
    + apply lookup_insert_Some in Hv as [[<- <-]|[_ Hv]]; [|by apply Hu]. destruct (Hu _ _ Hk). split; [congruence|auto].
  - destruct gone.
    + rewrite map_size_delete_Some by done. lia.
    + rewrite map_size_insert_Some by done. lia.
Qed.

Lemma sessions_bound st k u : stack_ok st -> users st !! k = Some u ->
  (0 < sessions_at (users st) (rAddr u))%nat /\ Z.of_nat (sessions_at (users st) (rAddr u)) < 2^32.
Proof.
  intros H Hk. split.
  - rewrite (sessions_delete _ _ _ (rAddr u) Hk), set_cnt_eq. lia.
  - pose proof (sessions_at_le (users st) (rAddr u)). pose proof (so_size _ H). lia.
Qed.

(** Only a session that waits for its deletion loses its context. *)
Lemma fsm_to_noCtx gw x cb e outs cb' : fsm_step gw (x, cb) e outs (noCtx, cb') -> x = noCtx \/ x = wDel.
Proof.
  intros H. inversion H as [? ? r ? ? ? ? Hr|? ? ? ? Hr| |? ? ? ? ? Hr| | |]; subst; auto.
  - by destruct x, r.
  - destruct x; cbn in Hr; repeat case_match; simplify_eq; auto.
Qed.

Lemma run_user_ok st teid e st' o : run_user st teid (run_event e) = Ok (st', o) -> stack_ok st -> stack_ok st'.
Proof.
  intros E H. unfold run_user in E. destruct (users st !! teid) as [u|] eqn:Hk; [|done].
  apply bind_Ok in E as ([[] r] & E & [= <- <-]). set (s := {| user := u; sh := s_sh st; out := []; removed := false |}) in *.
  pose proof (event_refines e s r eq_refl E) as (outs & _ & Hf & Ha & Ht & Hr).
  destruct (so_user _ H _ _ Hk) as [_ Hne]. destruct (sessions_bound _ _ _ H Hk) as [H0 Hlt].
  eapply stack_ok_user; [done..| |].
  - intros Hg Hx. rewrite Hr in Hg. apply bool_decide_eq_false in Hg.
    assert (Hw : u_state (user s) = wDel); [|tauto]. rewrite Hx in Hf. apply fsm_to_noCtx in Hf as [?|?]; done.
  - destruct e as [q c|m].
    + destruct (request_peers q c s r (sessions_at (users st)) Hne E) as [-> P]. exact (P (so_peers _ H)).
    + apply (message_peers _ _ _ _ E); [done..|]. exact (so_peers _ H).
Qed.

Lemma newUserAttach_ok st emm se cb st' o : Z.of_nat (S (size (users st))) < 2^32 ->
  S11_newUserAttach st emm se cb = Ok (st', o) -> stack_ok st -> stack_ok st'.
Proof.
  intros Hsz E [Hp Hu Hs]. unfold S11_newUserAttach, s11_newSession, newTeid in E. cbn [users s_sh] in E.
  destruct (users st !! s_teid st) as [v|] eqn:Hk; [done|]. cbn [mbind outcome_bind] in E. unfold run_user in E.
  cbn [users s_sh s_teid] in E. rewrite lookup_insert_eq in E. apply bind_Ok in E as ([[] r] & E & [= <- <-]).
  set (u := s11u_newUser (s_teid st) emm se) in *.
  set (s := {| user := u; sh := s_sh st; out := []; removed := false |}) in *.
  pose proof (event_refines (Req R_attach cb) s r eq_refl E) as (outs & _ & Hf & Ha & Ht & Hr).
  pose proof (sessions_at_le (users st) (rAddr u)).
  pose proof (attach_peers cb s r (sessions_at (users st)) E eq_refl ltac:(cbn [user s]; lia) Hp) as Hok.
  assert (Hx : u_state (user r) = wCtxRsp).
  { inversion Hf as [? ? ? ? ? ? ? Hq|? ? ? ? Hq| | | | |]; [|done]. by injection Hq. }
  rewrite bool_decide_false in Hr by (rewrite Hx; naive_solver). rewrite Hr, insert_insert_eq. split; cbn [users s_sh].
  - eapply peers_ok_ext, Hok. intros b. rewrite sessions_insert by done. by rewrite Ha.
  - intros k v [[<- <-]|[_ Hv]]%lookup_insert_Some; [|by apply Hu]. by rewrite Ht, Hx.
  - rewrite map_size_insert_None by done. lia.
Qed.

Lemma set_peers_ok st p : stack_ok st -> peers_ok (sessions_at (users st)) p -> stack_ok (set_peers st p).
Proof. intros [Hp Hu Hs] H. by split. Qed.

Lemma accept_ok st b peer st' o : s11_accept st b peer = Ok (st', o) -> stack_ok st -> stack_ok st'.
Proof.
  intros E H. unfold s11_accept in E. apply bind_Ok in E as (v & _ & E). destruct v as [v|]; [|by injection E as <- <-].
  cbv zeta in E. revert E. generalize (repeat 0 (Z.to_nat (packet_size - Z.of_nat (length v)))). intros mem E.
  destruct (_ =? GTP2_ECHO_REQ).
  - apply bind_Ok in E as ([p r] & E & [= <- <-]). apply set_peers_ok; [done|].
    unfold processEchoReq in E. apply bind_Ok in E as (ies & _ & E). apply bind_Ok in E as (c & _ & E).
    apply bind_Ok in E as ([n q] & _ & E). apply bind_Ok in E as (sq & _ & E). apply bind_Ok in E as (q' & _ & E).
    apply bind_Ok in E as ([[z q''] n'] & _ & [= <- <-]). apply checkPeerRestart_ok, so_peers, H.
  - destruct (_ =? GTP2_ECHO_RSP).
    + apply bind_Ok in E as (p & E & [= <- <-]). apply set_peers_ok; [done|]. eapply processEchoRsp_ok, E. apply so_peers, H.
    + destruct (_ <? 4); [by injection E as <- <-|]. destruct (users st !! _); [|by injection E as <- <-].
      by apply (run_user_ok _ _ (Msg _)) in E.
Qed.

Lemma stack_step_ok st st' : stack_step st st' -> stack_ok st -> stack_ok st'.
Proof.
  intros Hstep H. destruct Hstep as [st emm se cb st' o Hs E|st teid cb st' o E|st teid cb st' o E|st teid cb st' o E|st b peer st' o E|st t p Ht E].
  - by eapply newUserAttach_ok.
  - by apply (run_user_ok _ _ (Req R_modBearer cb)) in E.
  - by apply (run_user_ok _ _ (Req R_detach cb)) in E.
  - by apply (run_user_ok _ _ (Req R_releaseAccess cb)) in E.
  - by eapply accept_ok.
  - apply set_peers_ok; [done|]. destruct (sendEcho_ok _ _ t (so_peers _ H) Ht) as (p' & E' & Hok). congruence.
Qed.

Lemma s11_init_ok file local : stack_ok (s11_init file local).
Proof.
  split; cbn.
  - eapply peers_ok_ext, no_peers_ok. done.
  - intros k u Hk. by rewrite lookup_empty in Hk.
  - rewrite map_size_empty. lia.
Qed.

Lemma stack_reachable_ok file local st : rtc stack_step (s11_init file local) st -> stack_ok st.
Proof.
  intros H. assert (G : stack_ok (s11_init file local)) by apply s11_init_ok.
  induction H as [|st st1 st2 Hs _ IH]; [done|]. apply IH. by eapply stack_step_ok.
Qed.

(** C39: the sessions and the peers of the stack agree in every reachable state,
    whatever datagrams arrive: a gateway is tracked exactly when a session with
    it is open, and its peer counts those sessions; a session is found under
    its own TEID and has left the initial state; removing any session's
    reference succeeds; an expired echo timer finds its peer. *)
Theorem stack_safe file local st : rtc stack_step (s11_init file local) st ->
  (forall a, match peers (sh_peers (s_sh st)) !! a with
             | Some p => num_sessions p = Z.of_nat (sessions_at (users st) a) /\ 0 < num_sessions p
             | None => sessions_at (users st) a = O
             end) /\
  (forall k u, users st !! k = Some u -> lTEID u = k /\ u_state u <> noCtx /\
     exists p, S11_unrefSession (sh_peers (s_sh st)) (rAddr u) = Ok p) /\
  (forall t, is_Some (timers (ptm (sh_peers (s_sh st))) !! t) ->
     exists p, s11peer_sendEcho (sh_peers (s_sh st)) t = Ok p).
Proof.
  intros H%stack_reachable_ok. split_and!.
  - intros a. pose proof (po_peer _ _ (so_peers _ H) a) as Pa. destruct (peers _ !! a); [|done].
    destruct Pa as (H0 & Hn & _). lia.
  - intros k u Hk. destruct (so_user _ H k u Hk) as [Ht Hn]. split; [done|]. split; [done|].
    destruct (sessions_bound _ _ _ H Hk) as [H0 Hlt].
    assert (Hs : sessions_at (users st) (rAddr u) = S (pred (sessions_at (users st) (rAddr u)))) by lia.
    rewrite Hs in Hlt. destruct (unrefSession_ok _ _ _ _ (so_peers _ H) Hs Hlt) as (p & E & _). by exists p.
  - intros t Ht. destruct (sendEcho_ok _ _ t (so_peers _ H) Ht) as (p & E & _). by exists p.
Qed.

(** an Echo Response from a gateway without sessions dereferences a null
    pointer: in every reachable state, for every such source and any datagram
    that [gtp2_recv] accepts. *)
Theorem echo_response_untracked_crashes file local st b peer : rtc stack_step (s11_init file local) st ->
  sessions_at (users st) peer = O -> gtp2_recv_check b = Ok (Some b) -> nth 1 b 0 = GTP2_ECHO_RSP ->
  s11_accept st (Some b) peer = UB NullDeref.
Proof.
  intros H%stack_reachable_ok H0 Hb Hty. pose proof (po_peer _ _ (so_peers _ H) peer) as Pa.
  destruct (peers (sh_peers (s_sh st)) !! peer) as [p|] eqn:Hp; [destruct Pa as [Pa _]; lia|].
  unfold s11_accept. rewrite Hb. cbn [mbind outcome_bind]. cbv zeta. unfold m_type, m_octet. cbn [m_bytes]. rewrite Hty.
  change (GTP2_ECHO_RSP =? GTP2_ECHO_REQ) with false. change (GTP2_ECHO_RSP =? GTP2_ECHO_RSP) with true. cbv iota.
  generalize (b ++ repeat 0 (Z.to_nat (packet_size - Z.of_nat (length b)))). intros mem.
  unfold s11peer_processEchoRsp, s11peer_get. by rewrite Hp.
Qed.

(** A stack with one session. *)
Definition sample_stack : S11_t := s11_init None [10; 0; 0; 1].
Lemma sample_attached : exists st o, S11_newUserAttach sample_stack sample_emm sample_session (Some 1%nat) = Ok (st, o) /\
  users st !! 1 <> None.
Proof.
  assert (H : match S11_newUserAttach sample_stack sample_emm sample_session (Some 1%nat) with
              | Ok (st, _) => bool_decide (users st !! 1 = None) | UB _ => true end = false) by (vm_compute; reflexivity).
  destruct (S11_newUserAttach _ _ _ _) as [[st o]|]; [|discriminate H]. exists st, o. split; [reflexivity|]. exact (bool_decide_eq_false_1 _ H).
Qed.

Lemma stack_safe_witness : exists st u, stack_step sample_stack st /\ users st !! 1 = Some u /\ lTEID u = 1 /\
  exists p, S11_unrefSession (sh_peers (s_sh st)) (rAddr u) = Ok p.
Proof.
  destruct sample_attached as (st & o & E & H). destruct (users st !! 1) as [u|] eqn:Hu; [|destruct (H eq_refl)].
  assert (Hsz : Z.of_nat (S (size (users sample_stack))) < 2^32) by (cbn; rewrite map_size_empty; lia).
  pose proof (st_attach _ _ _ _ _ _ Hsz E) as Hs.
  exists st, u. split; [exact Hs|]. split; [exact Hu|]. clear E.
  destruct (stack_safe None [10; 0; 0; 1] st (rtc_once _ _ Hs)) as (_ & G & _).
  destruct (G 1 u Hu) as (G1 & _ & G2). exact (conj G1 G2).
Defined.

Lemma echo_response_untracked_crashes_witness :
  s11_accept sample_stack (Some [0x40; 2; 0; 9; 0; 0; 1; 0; 3; 0; 1; 0; 7]) sample_addr = UB NullDeref.
Proof.
  apply (echo_response_untracked_crashes None [10; 0; 0; 1]); [apply rtc_refl|reflexivity..].
Defined.

(** Shutting down uses the destroyed table of the peers unless no session is left. *)
Theorem s11_free_faults st : s11_free st = if decide (users st = ∅) then Ok tt else UB UseAfterFree.
Proof.
  unfold s11_free. destruct (decide (users st = ∅)) as [->|H]; [by rewrite map_to_list_empty|].
  destruct (map_to_list (users st)) as [|[k u] l] eqn:E; [|done]. by apply map_to_list_empty_iff in E.
Qed.
Lemma s11_free_attached : exists st o, S11_newUserAttach sample_stack sample_emm sample_session (Some 1%nat) = Ok (st, o) /\
  s11_free st = UB UseAfterFree.
Proof.
  destruct sample_attached as (st & o & E & H). exists st, o. split; [done|]. rewrite s11_free_faults, decide_False; [done|].
  intros Q. rewrite Q in H. by destruct H.
Qed.
