(* ===== verification/EMMCtx.v ===== *)
(** The context of a terminal in the mobility management (src/mme/S1/NAS/EMMCtx.h,
    EMMCtx.c), its timers (EMM_Timers.c) and what it uses of the layers around it:
    the ECM session (src/mme/S1/ECMSession.c), S6a (src/mme/S6a/MME_S6a.c) and
    ESM.  The code runs in a small state monad over the context, the timer
    manager and the calls that leave the component.

    Calls into ESM are recorded; what ESM does later (an Attach Accept, a
    message to be sent, the end of a detach) are events of their own: every call
    into ESM is the last action of its handler.  The HSS answers at once, so
    that the functions of S6a call back before they return, as in the code. *)
From coqutil Require Import Datatypes.RecordSetters.
From stdpp Require Import fin_maps.
From S2P Require Import Prelude NASTypes NASIe NASDec NASEnc EIA2 NASSec Timer Subs S11Peer.
Export OCamlLikeNotations.

(** ** Data *)

(** [AuthQuadruplet] *)
Record AuthQuadruplet := { rAND : list Z; xRES : list Z; aUTN : list Z; kASME : list Z }.

(** [EMMState] (EMM_FSMConfig.h) *)
Inductive EMMState :=
  | EMM_Deregistered | EMM_Registered | EMM_SpecificProcedureInitiated
  | EMM_CommonProcedureInitiated | EMM_DeregisteredInitiated.
#[export] Instance EMMState_eq_dec : EqDecision EMMState.
Proof. solve_decision. Defined.

(** [EMM_TimerCode] (EMM_Timers.h) *)
Inductive EMM_TimerCode :=
  | TNULL | T3402 | T3410 | T3411 | T3412 | T3416 | T3417 | T3417ext | T3418 | T3420 | T3421
  | T3423 | T3430 | T3440 | T3442 | T3413 | T3422 | T3450 | T3460 | T3470
  | TMOBILE_REACHABLE | TIMPLICIT_DETACH.
#[export] Instance EMM_TimerCode_eq_dec : EqDecision EMM_TimerCode.
Proof. solve_decision. Defined.

(** [EMM_rtx] *)
Definition EMM_rtx (c : EMM_TimerCode) : Z :=
  match c with TNULL => 0 | TMOBILE_REACHABLE | TIMPLICIT_DETACH => 1 | _ => 4 end.

(** [EMM_tv] *)
Definition EMM_tv (c : EMM_TimerCode) : timeval :=
  {| tv_sec :=
       match c with
       | TNULL => 0 | T3402 => 12 * 60 | T3410 => 15 | T3411 => 10 | T3412 => 54 * 60 | T3416 => 30
       | T3417 => 5 | T3417ext => 10 | T3418 => 20 | T3420 => 15 | T3421 => 15 | T3423 => 54 * 60
       | T3430 => 15 | T3440 => 10 | T3442 => 60 * 60 | T3413 => 60 | T3422 => 6 | T3450 => 6
       | T3460 => 6 | T3470 => 6 | TMOBILE_REACHABLE => 54 * 60 + 4 * 60 | TIMPLICIT_DETACH => 1
       end;
     tv_usec := 0 |}.

(** [EMM_Timer] *)
Record EMM_Timer := { et_code : EMM_TimerCode; et_msg : list Z }.

(** What the mobility management reads of its ECM session: the tracking area
    (3 octets of PLMN and the 2 octets of [tAC], as in memory). *)
Record ecm_view := { tAI_sn : list Z; tAI_tAC : list Z }.

(** [EMMCtx_t], without the fields that no code uses.  [guti_t] is packed: its
    10 octets as they are in memory. *)
Record EMMCtx_t := {
  ecm : option ecm_view;
  stateName : EMMState;
  activeTimers : EMM_TimerCode -> option nat;
  imsi : Z;
  e_msisdn : Z;
  guti : list Z;
  subs : Subs_t;
  sgwIP : address;
  pgwIP : address;
  t3412 : Z;
  attachStarted : bool;
  s1BearersActive : bool;
  attachResult : Z;
  updateResult : Z;
  pendingESMmsg : list (list Z);
  msg_attachType : Z;
  msg_detachType : Z;
  msg_updateType : Z;
  msg_activeFlag : Z;
  msg_ksi : Z;
  msg_guti : list Z;
  msg_additionalUpdateType : bool;
  msg_smsOnly : bool;
  msg_bearerCtxI : bool;
  msg_bearerCtx : list Z;
  sn : list Z;
  tac : list Z;
  ksi : Z;
  parser : NASHandler;
  sci : bool;
  nasUlCountForSC : Z;
  kasme : list Z;
  authQuadrsLen : Z;
  authQuadrs : list AuthQuadruplet;
  nh : list Z;
  ncc : Z;
  ueCapabilitiesLen : Z;
  ueCapabilities : list Z;
  msNetCapLen : Z;
  msNetCap : list Z;
  old_ksi : Z;
  old_ncc : Z;
  old_kasme : list Z;
  old_nh : list Z;
}.

(** ** Effects *)

(** The errors S6a reports. *)
Inductive S6aCause := S6a_UNKNOWN_EPS_SUBSCRIPTION | S6a_UNKNOWN_ERROR.

(** [CauseNas] *)
Inductive CauseNas_e := CauseNas_normal_release | CauseNas_authentication_failure | CauseNas_detach
  | CauseNas_unspecified.

Inductive emm_out :=
  | Ecm_send (msg : list Z)                            (* Downlink NAS Transport *)
  | Ecm_release (cause : CauseNas_e)                   (* UE Context Release Command *)
  | Ecm_ctxtSUReq (msg : list Z) (keNB : list Z)       (* Initial Context Setup Request *)
  | Mme_registerEMMCtxt (mtmsi : list Z)
  | Esm_processMsg (m : GenericNASMsg_t)
  | Esm_errorEMM
  | Esm_detach
  | Esm_modifyE_RABList
  | Esm_UEContextReleaseReq.

(** The answers of the HSS. *)
Inductive auth_answer :=
  | Auth_vec (q : AuthQuadruplet)   (* a new vector *)
  | Auth_rows                       (* neither 0 nor 1 rows: no vector and no error *)
  | Auth_unknown.                   (* DIAMETER_UNKNOWN_EPS_SUBSCRIPTION *)
Inductive sync_answer :=
  | Sync_vec (q : AuthQuadruplet)
  | Sync_already                    (* SEQ Already synchronized *)
  | Sync_nothing.                   (* not one row, or an invalid AUTS: no vector and no error *)
Inductive location_answer :=
  | Loc_profile (msisdn : Z) (s : Subs_t)
  | Loc_failed.

(** The surroundings: HSS, identity of the MME, node manager, [rand()], GLib's
    hash of a 64-bit integer and the contents of uninitialised memory.  The
    [nat] is the number of calls so far. *)
Class EMMEnv := {
  hss_auth : nat -> auth_answer;
  hss_sync : nat -> sync_answer;
  hss_location : nat -> location_answer;
  served_mmegi : list Z;
  served_mmec : Z;
  node_SGW : nat -> address;
  node_PGW : nat -> address;
  rand_ : nat -> Z;
  g_int64_hash : Z -> Z;
  stack_garbage : nat -> list Z;
}.

(** ** The monad *)

(** [ctx] is [None] when the context was freed; [tdata] are the [EMM_Timer]
    objects the timers point to; [sessions] is the number of EPS sessions of ESM. *)
Record est := {
  ctx : option EMMCtx_t;
  tmgr : TimerMgr_t;
  tdata : gmap nat EMM_Timer;
  sessions : nat;
  out : list emm_out;
  calls : nat;
}.

Definition M (A : Type) : Type := est -> outcome (A * est).
#[export] Instance M_ret : MRet M := fun A a s => Ok (a, s).
#[export] Instance M_bind : MBind M := fun A B k m s => '(a, s) ← m s; k a s.

Definition lift {A} (o : outcome A) : M A := fun s => a ← o; Ok (a, s).
Definition fault_ {A} (f : fault) : M A := fun _ => UB f.
Definition skip : M unit := mret tt.
Definition self : M EMMCtx_t := fun s =>
  match ctx s with Some e => Ok (e, s) | None => UB UseAfterFree end.
(** A store to fields of the context. *)
Definition upd (f : EMMCtx_t -> EMMCtx_t) : M unit := fun s =>
  match ctx s with Some e => Ok (tt, { s with ctx := Some (f e) }) | None => UB UseAfterFree end.
Definition emit (o : emm_out) : M unit := fun s => Ok (tt, { s with out := out s ++ [o] }).
(** The next value of the surroundings. *)
Definition env {A} (f : nat -> A) : M A := fun s => Ok (f (calls s), { s with calls := S (calls s) }).

Section Ctx.
Context {evp : EVP} {hm : HMAC} {ee : EMMEnv}.

(** ** Keys of the radio link *)

(** [generate_KeNB] *)
Definition generate_KeNB (kasme : list Z) (ulNASCount : Z) : list Z :=
  hmac_sha256 (take 32 kasme) (0x11 :: be32 ulNASCount ++ [0x00; 0x04]) 32.

(** [emm_getKeNB] *)
Definition emm_getKeNB (e : EMMCtx_t) : list Z := generate_KeNB (kasme e) (nasUlCountForSC e).

(** ** The ECM session *)

(** [emm->ecm->...] *)
Definition ecm_ : M ecm_view :=
  e ← self; match ecm e with Some v => mret v | None => fault_ NullDeref end.

(** [ecm_send] and the functions below do nothing without a session. *)
Definition ecm_send (msg : list Z) (len : Z) : M unit :=
  e ← self;
  match ecm e with None => skip | Some _ => m ← lift (rdn msg len); emit (Ecm_send m) end.

(** [ecm_sendUEContextReleaseCommand] with a cause of [CauseNas]; the session of
    a context is connected. *)
Definition ecm_sendUEContextReleaseCommand (c : CauseNas_e) : M unit :=
  e ← self; match ecm e with None => skip | Some _ => emit (Ecm_release c) end.

(** [ecm_sendCtxtSUReq] takes the first session of the list. *)
Definition ecm_sendCtxtSUReq (msg : list Z) (len : Z) (nsessions : nat) : M unit :=
  e ← self;
  match ecm e with
  | None => skip
  | Some _ =>
    m ← lift (rdn msg len);
    match nsessions with
    | O => fault_ NullDeref
    | S _ => emit (Ecm_ctxtSUReq m (emm_getKeNB e))
    end
  end.

(** [ecmSession_getTAI] *)
Definition ecmSession_getTAI : M (list Z * list Z) := v ← ecm_; mret (tAI_sn v, tAI_tAC v).

(** [ecmSession_getTAIlist]: the octets of the list, of which 6 are used. *)
Definition ecmSession_getTAIlist : M (list Z) := v ← ecm_; mret (0 :: tAI_sn v ++ tAI_tAC v).

(** [guint32] as it is in memory. *)
Definition le32 (x : Z) : list Z := [x .& 0xff; (x >> 8) .& 0xff; (x >> 16) .& 0xff; (x >> 24) .& 0xff].
(** [guti.mtmsi] *)
Definition guti_mtmsi (g : list Z) : list Z := drop 6 g.

(** [ecmSession_newGUTI] *)
Definition ecmSession_newGUTI : M unit :=
  v ← ecm_;
  r ← env rand_;
  e ← self;
  let r := wrap32 r in
  let n := Z.lxor (imsi e) (r .& wrap64 (r << 32)) in
  upd (fun e => { e with guti := tAI_sn v ++ served_mmegi ++ [served_mmec] ++ le32 (g_int64_hash n) }) ;;
  emit (Mme_registerEMMCtxt (le32 (g_int64_hash n))).

(** ** EMMCtx.c *)

(** [emmCtx_init] *)
Definition emmCtx_init : EMMCtx_t :=
  {| ecm := None; stateName := EMM_Deregistered; activeTimers := fun _ => None; imsi := 0; e_msisdn := 0;
     guti := repeat 0 10; subs := subs_init; sgwIP := []; pgwIP := []; t3412 := 0x49;
     attachStarted := false; s1BearersActive := false; attachResult := 0; updateResult := 0;
     pendingESMmsg := []; msg_attachType := 0; msg_detachType := 0; msg_updateType := 0;
     msg_activeFlag := 0; msg_ksi := 1; msg_guti := repeat 0 10; msg_additionalUpdateType := false;
     msg_smsOnly := false; msg_bearerCtxI := false; msg_bearerCtx := repeat 0 2; sn := repeat 0 3;
     tac := repeat 0 2; ksi := 7; parser := nas_newHandler; sci := false; nasUlCountForSC := 0;
     kasme := repeat 0 32; authQuadrsLen := 0; authQuadrs := []; nh := repeat 0 32; ncc := 0;
     ueCapabilitiesLen := 0; ueCapabilities := repeat 0 15; msNetCapLen := 0; msNetCap := repeat 0 10;
     old_ksi := 0; old_ncc := 0; old_kasme := repeat 0 32; old_nh := repeat 0 32 |}.

(** [emmChangeState]; the table of handlers is a function of the name. *)
Definition emmChangeState (x : EMMState) : M unit := upd (fun e => { e with stateName := x }).

(** [emmCtx_setNewAuthQuadruplet] *)
Definition emmCtx_setNewAuthQuadruplet (q : AuthQuadruplet) : M unit :=
  upd (fun e => { e with authQuadrs := authQuadrs e ++ [q];
                         authQuadrsLen := wrap64 (authQuadrsLen e + 1) }).

(** [emmCtx_freeAuthQuadruplets]; GLib refuses a range that is not in the array. *)
Definition emmCtx_freeAuthQuadruplets : M unit :=
  upd (fun e => { e with authQuadrs := if Z.of_nat (length (authQuadrs e)) <? wrap32 (authQuadrsLen e)
                                       then authQuadrs e
                                       else drop (Z.to_nat (wrap32 (authQuadrsLen e))) (authQuadrs e);
                         authQuadrsLen := 0 }).

(** [emmCtx_getFirstAuthQuadruplet]: the index is not checked. *)
Definition emmCtx_getFirstAuthQuadruplet : M AuthQuadruplet :=
  e ← self; match authQuadrs e with q :: _ => mret q | [] => fault_ OutOfBounds end.

(** [emmCtx_removeFirstAuthQuadruplet]; GLib refuses an index that is not in the
    array, the counter is decremented in any case. *)
Definition emmCtx_removeFirstAuthQuadruplet : M unit :=
  upd (fun e => { e with authQuadrs := drop 1 (authQuadrs e);
                         authQuadrsLen := wrap64 (authQuadrsLen e - 1) }).

(** [emmCtx_newGUTI] with [guti == NULL] *)
Definition emmCtx_newGUTI : M unit :=
  e ← self;
  if bool_decide (guti_mtmsi (guti e) = [0; 0; 0; 0]) then ecmSession_newGUTI else skip.

(** ** Timers (EMM_Timers.c) *)

Definition tm_ : M TimerMgr_t := fun s => Ok (tmgr s, s).
Definition set_tm (m : TimerMgr_t) : M unit := fun s => Ok (tt, { s with tmgr := m }).
Definition set_tdata (t : nat) (x : option EMM_Timer) : M unit := fun s =>
  Ok (tt, { s with tdata := partial_alter (fun _ => x) t (tdata s) }).

Definition set_active (c : EMM_TimerCode) (x : option nat) : M unit :=
  upd (fun e => { e with activeTimers := fun c' => if decide (c' = c) then x else activeTimers e c' }).

(** [emm_timer_free_cb] *)
Definition emm_timer_free_cb (t : nat) : M unit := fun s =>
  match tdata s !! t with
  | None => UB UseAfterFree
  | Some x => (set_active (et_code x) None ;; set_tdata t None) s
  end.

(** [tm_stop_timer] of a timer of this module: the manager frees it and calls
    [emm_timer_free_cb]. *)
Definition emm_tm_stop_timer (t : nat) : M unit :=
  m ← tm_;
  m ← lift (tm_stop_timer inert t m);
  set_tm m ;; emm_timer_free_cb t.

(** [emm_setTimer] *)
Definition emm_setTimer (c : EMM_TimerCode) (msg : list Z) (len : Z) : M unit :=
  d ← lift (rdn msg len);
  m ← tm_;
  match tm_add_timer m (Some (EMM_tv c)) (EMM_rtx c) true true true with
  | (None, _) => fault_ Aborted
  | (Some t, m) =>
    set_tm m ;; set_tdata t (Some {| et_code := c; et_msg := d |}) ;;
    e ← self;
    match activeTimers e c with Some t' => emm_tm_stop_timer t' | None => skip end ;;
    set_active c (Some t)
  end.

(** [emm_stopTimer] *)
Definition emm_stopTimer (c : EMM_TimerCode) : M unit :=
  e ← self;
  match activeTimers e c with
  | None => skip
  | Some t => emm_tm_stop_timer t ;; set_active c None
  end.

(** [emm_stopAllTimers] *)
Definition all_timers : list EMM_TimerCode :=
  [TNULL; T3402; T3410; T3411; T3412; T3416; T3417; T3417ext; T3418; T3420; T3421; T3423; T3430;
   T3440; T3442; T3413; T3422; T3450; T3460; T3470; TMOBILE_REACHABLE; TIMPLICIT_DETACH].
Fixpoint stop_each (cs : list EMM_TimerCode) : M unit :=
  match cs with
  | [] => skip
  | c :: cs => emm_stopTimer c ;; stop_each cs
  end.
Definition emm_stopAllTimers : M unit := stop_each all_timers.

(** ** S6a (MME_S6a.c): [None] is success *)

(** [s6a_GetAuthInformation]; [HSS_getAuthVec] needs the serving network for a
    new vector. *)
Definition s6a_GetAuthInformation (cb : M unit) (error_cb : S6aCause -> M unit) : M unit :=
  a ← env hss_auth;
  match a with
  | Auth_unknown => error_cb S6a_UNKNOWN_EPS_SUBSCRIPTION
  | Auth_rows => cb
  | Auth_vec q => _ ← ecm_; emmCtx_setNewAuthQuadruplet q ;; cb
  end.

(** [s6a_SynchAuthVector]; the random number of the first vector is read. *)
Definition s6a_SynchAuthVector (cb : M unit) (error_cb : S6aCause -> M unit) : M unit :=
  a ← env hss_sync;
  match a with
  | Sync_nothing => cb
  | Sync_already => _ ← emmCtx_getFirstAuthQuadruplet; emmCtx_freeAuthQuadruplets ;; error_cb S6a_UNKNOWN_ERROR
  | Sync_vec q =>
    _ ← emmCtx_getFirstAuthQuadruplet;
    emmCtx_freeAuthQuadruplets ;; _ ← ecm_; emmCtx_setNewAuthQuadruplet q ;; cb
  end.

(** [s6a_UpdateLocation] *)
Definition s6a_UpdateLocation (cb : M unit) : M unit :=
  a ← env hss_location;
  match a with
  | Loc_profile m s => upd (fun e => { e with e_msisdn := m; subs := s }) ;; cb
  | Loc_failed => cb
  end.

(** ** ESM *)

(** [esm_processMsg] asserts that it was given an ESM message. *)
Definition esm_processMsg (m : GenericNASMsg_t) : M unit :=
  if is_enum (gm_protocolDiscriminator m) EPSSessionManagementMessages
  then emit (Esm_processMsg m) else fault_ Aborted.

(** [esm_errorEMM] removes every session. *)
Definition esm_errorEMM : M unit :=
  fun s => emit Esm_errorEMM { s with sessions := O }.

(** [esm_getSessions] *)
Definition esm_getSessions : M nat := fun s => Ok (sessions s, s).
End Ctx.
