(* ===== verification/EMM.v ===== *)
(** The operations of the mobility management (src/mme/S1/NAS/NAS_EMM.c): what
    messages of the terminal store, the messages that are sent, the AKA
    procedure, the keys of the radio link and the life of a context.  The
    handlers of the five states are in [EMMFSM]. *)
From coqutil Require Import Datatypes.RecordSetters.
From S2P Require Import Prelude NASTypes NASIe NASDec NASEnc EIA2 NASSec Timer Subs S11Peer EMMCtx.

(** ** Reading a message *)

(** [msg.plain.eMM.messageType]: in an ESM message this octet is the procedure
    transaction identity. *)
Definition eMM_messageType (m : GenericNASMsg_t) : Z :=
  match gm_plain m with
  | plain_zero => 0
  | plain_eMM e => emm_messageType e
  | plain_eSM e => esm_procedureTransactionIdentity e
  end.

(** The casts of [msg->plain.eMM] to a message structure. *)
Definition eMM_body (m : GenericNASMsg_t) : EMM_body :=
  match gm_plain m with plain_eMM e => emm_body e | _ => B_EMM_Nothing end.
Definition as_AttachRequest (m : GenericNASMsg_t) : outcome AttachRequest_t :=
  match eMM_body m with B_AttachRequest a => Ok a | _ => UB BadCast end.
Definition as_TrackingAreaUpdateRequest (m : GenericNASMsg_t) : outcome TrackingAreaUpdateRequest_t :=
  match eMM_body m with B_TrackingAreaUpdateRequest a => Ok a | _ => UB BadCast end.
Definition as_DetachRequest (m : GenericNASMsg_t) : outcome DetachRequestUEOrig_t :=
  match eMM_body m with B_DetachRequest a => Ok a | _ => UB BadCast end.
Definition as_IdentityResponse (m : GenericNASMsg_t) : outcome IdentityResponse_t :=
  match eMM_body m with B_IdentityResponse a => Ok a | _ => UB BadCast end.
Definition as_AuthenticationResponse (m : GenericNASMsg_t) : outcome AuthenticationResponse_t :=
  match eMM_body m with B_AuthenticationResponse a => Ok a | _ => UB BadCast end.
Definition as_AuthenticationFailure (m : GenericNASMsg_t) : outcome AuthenticationFailure_t :=
  match eMM_body m with B_AuthenticationFailure a => Ok a | _ => UB BadCast end.
Definition as_AttachComplete (m : GenericNASMsg_t) : outcome AttachComplete_t :=
  match eMM_body m with B_AttachComplete a => Ok a | _ => UB BadCast end.

(** [ie.v]: the array of 255 octets. *)
Definition lv_array (ie : ie_lv) : list Z := lv_v ie ++ repeat 0 (255 - length (lv_v ie)).

(** [((ePSMobileId_header_t* )ie.v)->type] and [->parity] *)
Definition mobileId_type (ie : ie_lv) : Z := nth 0 (lv_array ie) 0 .& 0x7.
Definition mobileId_parity (ie : ie_lv) : Z := (nth 0 (lv_array ie) 0 >> 3) .& 0x1.

(** The loop that reads the digits of an IMSI; [i] is unsigned. *)
Fixpoint mobid_loop (n : nat) (i : Z) (v : list Z) (mobid : Z) : outcome Z :=
  match n with
  | O => Ok mobid
  | S n =>
    b ← rdi v i;
    c ← rdi v (i + 1);
    let mobid := wrap64 (mobid * 10 + (b >> 4)) in
    let mobid := wrap64 (mobid * 10 + (c .& 0x0F)) in
    mobid_loop n (i + 1) v mobid
  end.
Definition mobid_of (ie : ie_lv) : outcome Z :=
  let n := wrap32 (lv_l ie - 1) in
  mobid ← mobid_loop (Z.to_nat n) 0 (lv_array ie) 0;
  if mobileId_parity ie =? 1
  then b ← rdi (lv_array ie) n; Ok (wrap64 (mobid * 10 + (b >> 4)))
  else Ok mobid.

(** [(guti_t * )(ie.v+1)], 10 octets *)
Definition mobileId_guti (ie : ie_lv) : list Z := take 10 (drop 1 (lv_array ie)).

(** [optIE->tlv_t4.l], [optIE->tlv_t4.v] (its first [l] octets) and
    [optIE->v_t1_l.v] *)
Definition opt_l (ie : nAS_ie_member) : Z := nth 1 ie 0.
Definition opt_v (ie : nAS_ie_member) : list Z := take (Z.to_nat (opt_l ie)) (drop 2 ie ++ repeat 0 255).
Definition opt_t1 (ie : nAS_ie_member) : Z := lo4 (ie_iei ie).

(** [emm_getGUTIfromMsg]: the identity found, [None] when [*guti] is not written. *)
Definition emm_peek (buffer : list Z) (len : Z) : outcome (option GenericNASMsg_t) :=
  hdr ← nas_getHeader (Some buffer) len;
  match hdr with
  | None => UB Aborted
  | Some (s, _) =>
    if is_enum s PlainNAS then '(_, m) ← dec_NAS buffer len; Ok (Some m)
    else if is_enum s IntegrityProtected
    then '(_, m) ← dec_NAS (adv buffer 6) (wrap64 (len - 6)); Ok (Some m)
    else Ok None
  end.
Definition emm_getGUTIfromMsg (buffer : list Z) (len : Z) : outcome (option (list Z)) :=
  m ← emm_peek buffer len;
  match m with
  | None => Ok None
  | Some m =>
    match NASMessageType_of (eMM_messageType m) with
    | Some AttachRequest =>
      a ← as_AttachRequest m;
      Ok (if mobileId_type (AQ_ePSMobileId a) =? 6 then Some (mobileId_guti (AQ_ePSMobileId a)) else None)
    | Some TrackingAreaUpdateRequest =>
      a ← as_TrackingAreaUpdateRequest m;
      Ok (if mobileId_type (TQ_oldGUTI a) =? 6 then Some (mobileId_guti (TQ_oldGUTI a)) else None)
    | _ => Ok None
    end
  end.

(** [emm_getIMSIfromAttach]: [None] when [*imsi] is not written. *)
Definition emm_getIMSIfromAttach (buffer : list Z) (len : Z) : outcome (option Z) :=
  m ← emm_peek buffer len;
  match m with
  | None => Ok None
  | Some m =>
    if negb (is_enum (eMM_messageType m) AttachRequest) then Ok None
    else
      a ← as_AttachRequest m;
      if mobileId_type (AQ_ePSMobileId a) =? 1 then i ← mobid_of (AQ_ePSMobileId a); Ok (Some i) else Ok None
  end.

(** ** Key set identifiers *)

Definition emm_nextKSI (k : Z) : Z := if k <? 6 then k + 1 else 1.
Definition emm_generateNewKSI (k1 k2 : Z) : Z :=
  let k2 := emm_nextKSI (wrap8 k2) in if k1 =? k2 then emm_nextKSI k2 else k2.

Section EMM.
Context {evp : EVP} {hm : HMAC} {ee : EMMEnv}.

(** ** What messages of the terminal store *)

(** [memcpy(emm->ueCapabilities, v, l); emm->ueCapabilitiesLen = l;] *)
Definition store_ueCapabilities (v : list Z) (l : Z) : M unit :=
  e ← self; c ← lift (overwrite (ueCapabilities e) 0 v);
  upd (fun e => { e with ueCapabilities := c; ueCapabilitiesLen := l }).
Definition store_msNetCap (v : list Z) (l : Z) : M unit :=
  e ← self; c ← lift (overwrite (msNetCap e) 0 v);
  upd (fun e => { e with msNetCap := c; msNetCapLen := l }).

(** [processAttach] *)
Definition processAttach (m : GenericNASMsg_t) : M unit :=
  a ← lift (as_AttachRequest m);
  upd (fun e => { e with attachStarted := true;
                         msg_attachType := AQ_ePSAttachType a;
                         msg_ksi := AQ_nASKeySetId a .& 0x07;
                         pendingESMmsg := pendingESMmsg e ++ [lv_v (AQ_eSM_MessageContainer a)] }) ;;
  (if mobileId_type (AQ_ePSMobileId a) =? 1 then
     mobid ← lift (mobid_of (AQ_ePSMobileId a));
     upd (fun e => { e with imsi := mobid })
   else if mobileId_type (AQ_ePSMobileId a) =? 6 then
     upd (fun e => { e with msg_guti := mobileId_guti (AQ_ePSMobileId a) })
   else skip) ;;
  store_ueCapabilities (lv_v (AQ_uENetworkCapability a)) (lv_l (AQ_uENetworkCapability a)) ;;
  match nas_NASOpt_lookup (AQ_optionals a) 17 0x31 with
  | Some ie => store_msNetCap (opt_v ie) (opt_l ie)
  | None => skip
  end ;;
  upd (fun e => { e with msg_additionalUpdateType := false }) ;;
  match nas_NASOpt_lookup (AQ_optionals a) 17 0xF with
  | Some ie => upd (fun e => { e with msg_additionalUpdateType := true;
                                      msg_smsOnly := negb (opt_t1 ie =? 0) })
  | None => skip
  end.

(** [emm_selectAttachType] *)
Definition emm_selectAttachType : M bool :=
  e ← self;
  if msg_attachType e =? 2 then upd (fun e => { e with attachResult := 2 }) ;; mret true
  else if (msg_attachType e =? 4) || (msg_attachType e =? 7) then mret false
  else upd (fun e => { e with attachResult := 1 }) ;; mret true.

(** [processDetachReq] *)
Definition processDetachReq (m : GenericNASMsg_t) : M unit :=
  d ← lift (as_DetachRequest m);
  upd (fun e => { e with msg_detachType := DO_detachType d; msg_ksi := DO_nASKeySetId d }) ;;
  if mobileId_type (DO_ePSMobileId d) =? 1 then _ ← lift (mobid_of (DO_ePSMobileId d)); skip
  else skip.

(** [emm_processTAUReq] *)
Definition emm_processTAUReq (m : GenericNASMsg_t) : M unit :=
  t ← lift (as_TrackingAreaUpdateRequest m);
  upd (fun e => { e with msg_updateType := TQ_ePSUpdateType t .& 0x07;
                         msg_activeFlag := (TQ_ePSUpdateType t .& 0x08) >> 3;
                         msg_ksi := TQ_nASKeySetId t .& 0x07 }) ;;
  (if mobileId_type (TQ_oldGUTI t) =? 6
   then upd (fun e => { e with msg_guti := mobileId_guti (TQ_oldGUTI t) }) else skip) ;;
  match nas_NASOpt_lookup (TQ_optionals t) 22 0x58 with
  | Some ie => store_ueCapabilities (opt_v ie) (opt_l ie)
  | None => skip
  end ;;
  upd (fun e => { e with msg_bearerCtxI := false }) ;;
  match nas_NASOpt_lookup (TQ_optionals t) 22 0x57 with
  | Some ie => if opt_l ie =? 2
               then upd (fun e => { e with msg_bearerCtxI := true; msg_bearerCtx := opt_v ie }) else skip
  | None => skip
  end ;;
  match nas_NASOpt_lookup (TQ_optionals t) 22 0x31 with
  | Some ie => store_msNetCap (opt_v ie) (opt_l ie)
  | None => skip
  end ;;
  match nas_NASOpt_lookup (TQ_optionals t) 22 0xF with
  | Some ie => upd (fun e => { e with msg_additionalUpdateType := true;
                                      msg_smsOnly := negb (opt_t1 ie =? 0) })
  | None => skip
  end.

(** ** Messages to the terminal *)

(** A message written from the start of a local buffer of [n] octets; the
    buffer and the length written. *)
Definition build (n : nat) (w : writer) : M (list Z * Z) :=
  b ← lift (w (WBuf (repeat 0 n) 0)); mret (wb_buf b, Z.of_nat (wb_pos b)).

Definition EMM_header (t : NASMessageType_t) : writer :=
  newNASMsg_EMM (enum_val EPSMobilityManagementMessages) (enum_val PlainNAS) ;;; encaps_EMM (enum_val t).

(** [newNASMsg_sec(emm->parser, out, &len, ...)] with [out] of [n] octets;
    [len0] is the value of [len] before, [None] when it has none. *)
Definition protect (len0 : option Z) (n : nat) (s : SecurityHeaderType_t) (plain : list Z) (pLen : Z)
  : M (list Z * Z) :=
  e ← self;
  r ← lift (newNASMsg_sec (parser e) (repeat 0 n) (default 0 len0)
              (enum_val EPSMobilityManagementMessages) (enum_val s) NAS_DownLink plain pLen);
  upd (fun e => { e with parser := sr_handler r }) ;;
  if negb (isValid (parser e)) && bool_decide (len0 = None) then fault_ Uninitialised
  else mret (sr_out r, sr_len r).

(** Protected when there is a security context, plain otherwise. *)
Definition send_maybe_protected (n : nat) (plain : list Z) (len : Z) : M unit :=
  e ← self;
  if sci e then '(o, olen) ← protect None n IntegrityProtectedAndCiphered plain len; ecm_send o olen
  else ecm_send plain len.

(** [emm_sendAttachReject] *)
Definition emm_sendAttachReject (cause : EMMCause_t) (esm_msg : list Z) (msgLen : Z) : M unit :=
  e ← self;
  if negb (attachStarted e) then skip
  else
    upd (fun e => { e with attachStarted := false }) ;;
    '(plain, len) ← build 250 (EMM_header AttachReject ;;; nasIe_v_t3 [wrap8 (enum_val cause)] 1 ;;;
      (if msgLen =? 0 then bump 0 else nasIe_tlv_t6 0x78 esm_msg msgLen));
    upd (fun e => { e with s1BearersActive := false }) ;;
    send_maybe_protected 256 plain len.

(** [emm_sendServiceReject] *)
Definition emm_sendServiceReject (cause : EMMCause_t) : M unit :=
  '(plain, len) ← build 250 (EMM_header ServiceReject ;;; nasIe_v_t3 [wrap8 (enum_val cause)] 1);
  send_maybe_protected 256 plain len ;;
  emmChangeState EMM_Deregistered.

(** [emm_sendTAUReject] *)
Definition emm_sendTAUReject (cause : EMMCause_t) : M unit :=
  '(plain, len) ← build 150 (EMM_header TrackingAreaUpdateReject ;;; nasIe_v_t3 [wrap8 (enum_val cause)] 1);
  e ← self;
  if sci e then '(o, olen) ← protect (Some 0) 156 IntegrityProtectedAndCiphered plain len; ecm_send o olen
  else ecm_send plain len.

(** [emm_sendAuthRequest] *)
Definition emm_sendAuthRequest : M unit :=
  sec ← emmCtx_getFirstAuthQuadruplet;
  upd (fun e => { e with ksi := emm_generateNewKSI (ksi e) (msg_ksi e) }) ;;
  e ← self;
  '(buffer, len) ← build 150 (EMM_header AuthenticationRequest ;;;
     nasIe_v_t1_l (ksi e .& 0x0F) ;;; bump 1 ;;;
     nasIe_v_t3 (rAND sec) 16 ;;; nasIe_lv_t4 (aUTN sec) 16);
  ecm_send buffer len ;;
  emm_setTimer T3460 buffer len ;;
  emmChangeState EMM_CommonProcedureInitiated.

(** [emm_setSecurityQuadruplet] *)
Definition emm_setSecurityQuadruplet : M unit :=
  sec ← emmCtx_getFirstAuthQuadruplet;
  upd (fun e => { e with old_kasme := kasme e; kasme := kASME sec }) ;;
  emmCtx_removeFirstAuthQuadruplet.

(** [capabilities] of the Security Mode Command: a local array of 5 octets. *)
Definition replayed_capabilities (e : EMMCtx_t) : outcome (list Z) :=
  c ← rdn (ueCapabilities e) (ueCapabilitiesLen e);
  cap ← overwrite (repeat 0 5) 0 c;
  Ok [nth 0 cap 0; nth 1 cap 0; nth 2 cap 0; nth 3 cap 0 .& 0x7F;
      ((nth 0 (msNetCap e) 0 .& 0x80) >> 1) .| ((nth 1 (msNetCap e) 0 .& 0x7E) >> 1)].

(** [emm_sendSecurityModeCommand] *)
Definition emm_sendSecurityModeCommand : M unit :=
  e ← self;
  capabilities ← lift (replayed_capabilities e);
  '(plain, len) ← build 150 (EMM_header SecurityModeCommand ;;;
     nasIe_v_t3 [(NAS_EEA_val NAS_EEA0 << 4) .| NAS_EIA_val NAS_EIA2] 1 ;;;
     nasIe_v_t1_l (ksi e .& 0x0F) ;;; bump 1 ;;;
     nasIe_lv_t4 capabilities 5 ;;;
     nasIe_v_t3 [(0xc0 .& 0xf0) .| (0x01 .& 0x07)] 1);
  '(o, olen) ← protect None 156 IntegrityProtectedWithNewEPSSecurityContext plain len;
  ecm_send o olen ;;
  emm_setTimer T3460 plain len ;;
  emmChangeState EMM_CommonProcedureInitiated.

(** [emm_sendIdentityReq] *)
Definition emm_sendIdentityReq : M unit :=
  '(buffer, len) ← build 150 (EMM_header IdentityRequest ;;; nasIe_v_t1_l 1 ;;; bump 1);
  emm_setTimer T3470 buffer len ;;
  ecm_send buffer len.

(** The identities of a combined attach or update: LAI and TMSI, and the result
    for the additional update type. *)
Definition combined_writer (e : EMMCtx_t) (lAI mtmsi : list Z) : writer :=
  (if negb (msg_additionalUpdateType e && msg_smsOnly e)
   then nasIe_tv_t3 0x13 lAI 5 ;;; nasIe_tlv_t4 0x23 (0xf4 :: mtmsi) 5 else bump 0) ;;;
  (if msg_additionalUpdateType e
   then nasIe_v_t1_l (if msg_smsOnly e then 2 else 0) ;;; nasIe_v_t1_h 0xF else bump 0).

(** [emm_sendTAUAccept] *)
Definition emm_sendTAUAccept : M unit :=
  tAIl ← ecmSession_getTAIlist;
  e ← self;
  '(plain, len) ← build 150 (EMM_header TrackingAreaUpdateAccept ;;;
     nasIe_v_t1_l (updateResult e) ;;; bump 1 ;;;
     nasIe_tv_t3 0x5A [t3412 e] 1 ;;;
     nasIe_tlv_t4 0x50 (0xF6 :: guti e) 11 ;;;
     nasIe_tlv_t4 0x54 tAIl 6 ;;;
     (if msg_bearerCtxI e then nasIe_tlv_t4 0x57 (be16 0x2000) 2 else bump 0) ;;;
     (if (updateResult e =? 1) || (updateResult e =? 5)
      then combined_writer e (take 5 (drop 1 tAIl)) (guti_mtmsi (guti e)) else bump 0));
  '(o, olen) ← protect (Some 0) 156 IntegrityProtectedAndCiphered plain len;
  emm_setTimer T3450 plain len ;;
  ecm_send o olen.

(** [emm_internalSendESM] *)
Definition emm_internalSendESM (msg : list Z) (len : Z) : M unit :=
  e ← self;
  if negb (sci e) then ecm_send msg len
  else '(o, olen) ← protect None (Z.to_nat len + 6) IntegrityProtectedAndCiphered msg len; ecm_send o olen.

(** [emm_detachAccept] *)
Definition emm_detachAccept : M unit :=
  upd (fun e => { e with s1BearersActive := false }) ;;
  e ← self;
  (if negb ((msg_detachType e .& 0x8) =? 0x8)
   then '(buffer, len) ← build 150 (EMM_header DetachAccept); ecm_send buffer len else skip) ;;
  emmChangeState EMM_Deregistered ;;
  ecm_sendUEContextReleaseCommand CauseNas_detach.

(** ** ESM *)

(** [emm_processFirstESMmsg] *)
Definition emm_processFirstESMmsg : M unit :=
  e ← self;
  match pendingESMmsg e with
  | [] => fault_ OutOfBounds
  | esmRaw :: _ =>
    '(_, m) ← lift (dec_NAS esmRaw (Z.of_nat (length esmRaw)));
    esm_processMsg m ;;
    upd (fun e => { e with pendingESMmsg := drop 1 (pendingESMmsg e) })
  end.

(** [emm_selectGateways] *)
Definition emm_selectGateways : M unit :=
  s ← env node_SGW;
  upd (fun e => { e with sgwIP := s }) ;;
  p ← env node_PGW;
  upd (fun e => { e with pgwIP := p }) ;;
  emm_processFirstESMmsg.

(** ** AKA *)

(** [emm_removeCurrentSC] *)
Definition emm_removeCurrentSC : M unit :=
  upd (fun e => { e with old_ksi := ksi e; ksi := 7; sci := false; ncc := 0; old_ncc := 0;
                         nh := repeat 0 32; old_nh := repeat 0 32; nasUlCountForSC := 0 }).

(** [emm_checkIdentity] *)
Definition emm_checkIdentity : M bool :=
  e ← self;
  if imsi e =? 0 then emm_sendIdentityReq ;; mret false
  else emmCtx_newGUTI ;; mret true.

(** [emm_checkAuthInformation]; [error_cb] is [emm_processS6aError]. *)
Definition emm_checkAuthInformation (error_cb : S6aCause -> M unit) : M bool :=
  e ← self;
  if authQuadrsLen e =? 0 then s6a_GetAuthInformation emm_sendAuthRequest error_cb ;; mret false
  else mret true.

(** [emm_checkSCAvailability] *)
Definition emm_checkSCAvailability : M bool :=
  e ← self;
  if (ksi e =? 7) || negb (ksi e =? msg_ksi e) then emm_sendAuthRequest ;; mret false
  else mret true.

(** [emm_checkSCActive] *)
Definition emm_checkSCActive : M bool :=
  e ← self;
  if negb (sci e) then emm_sendSecurityModeCommand ;; mret false else mret true.

(** [emm_triggerAKAprocedure] *)
Definition emm_triggerAKAprocedure (error_cb : S6aCause -> M unit) : M unit :=
  emm_removeCurrentSC ;;
  b ← emm_checkIdentity;
  if negb b then emmChangeState EMM_CommonProcedureInitiated
  else
    b ← emm_checkAuthInformation error_cb;
    if negb b then skip
    else
      b ← emm_checkSCAvailability;
      if negb b then emmChangeState EMM_CommonProcedureInitiated
      else fault_ Aborted.

(** ** Keys of the radio link *)

(** [emm_getNH]: [nh] and [ncc] *)
Definition emm_getNH : M (list Z * Z) :=
  e ← self;
  (if bool_decide (nh e = repeat 0 32)
   then upd (fun e => { e with old_nh := emm_getKeNB e; old_ncc := 0; ncc := 0 })
   else upd (fun e => { e with old_nh := nh e; old_ncc := ncc e })) ;;
  upd (fun e => { e with nh := hmac_sha256 (take 32 (kasme e)) (0x12 :: old_nh e ++ [0x00; 0x20]) 32;
                         ncc := wrap8 (ncc e + 1) }) ;;
  e ← self;
  mret (old_nh e, old_ncc e .& 7).

(** [emm_getUESecurityCapabilities]: encryption and integrity algorithms, 16 bits *)
Definition emm_getUESecurityCapabilities (e : EMMCtx_t) : Z * Z :=
  (nth 0 (ueCapabilities e) 0 << 8, nth 1 (ueCapabilities e) 0 << 8).

(** [emm_getUEAMBR]: downlink and uplink *)
Definition emm_getUEAMBR (e : EMMCtx_t) : Z * Z :=
  let '(ul, dl) := subs_getUEAMBR (subs e) in (dl, ul).

(** ** Life of a context *)

(** [emm_init] *)
Definition emm_init (v : ecm_view) (m : TimerMgr_t) (calls : nat) : est :=
  {| ctx := Some { emmCtx_init with stateName := EMM_Deregistered; ecm := Some v };
     tmgr := m; tdata := ∅; sessions := O; out := []; calls := calls |}.

(** [emm_free]; [esm_free] and [emmCtx_free] are [release_ctx]. *)
Definition release_ctx : M unit := fun s => Ok (tt, { s with ctx := None; sessions := O }).
Definition emm_free : M unit := emm_stopAllTimers ;; release_ctx.

(** [emm_registerECM] *)
Definition emm_registerECM (v : ecm_view) : M unit :=
  ecm_sendUEContextReleaseCommand CauseNas_normal_release ;;
  upd (fun e => { e with ecm := Some v }).

(** [emm_deregister] *)
Definition emm_deregister : M unit :=
  e ← self;
  (if negb (bool_decide (stateName e = EMM_Deregistered)) then emm_setTimer TMOBILE_REACHABLE [] 0 else skip) ;;
  upd (fun e => { e with nh := repeat 0 32; ncc := 0; old_nh := repeat 0 32; old_ncc := 0; ecm := None }).

(** [emm_stop] *)
Definition emm_stop : M unit :=
  esm_errorEMM ;;
  emm_stopTimer T3413 ;; emm_stopTimer T3422 ;; emm_stopTimer T3450 ;; emm_stopTimer T3460 ;;
  emm_stopTimer T3470 ;; emm_stopTimer TMOBILE_REACHABLE ;; emm_stopTimer TIMPLICIT_DETACH ;;
  emmChangeState EMM_Deregistered.

(** [emm_modifyE_RABList], [emm_UEContextReleaseReq] *)
Definition emm_modifyE_RABList : M unit := emit Esm_modifyE_RABList.
Definition emm_UEContextReleaseReq : M unit :=
  upd (fun e => { e with s1BearersActive := false }) ;; emit Esm_UEContextReleaseReq.
End EMM.
