(* ===== verification/EMMFSM.v ===== *)
(** The state machine of the mobility management: the handlers of the five
    states (src/mme/S1/NAS/EMM_Deregistered.c, EMM_Registered.c,
    EMM_SpecificProcedureInitiated.c, EMM_CommonProcedureInitiated.c,
    EMM_DeregisteredInitiated.c), their table (EMM_FSMConfig.c), the dispatch
    ([emm_processMsg] and its like in NAS_EMM.c) and the events of a context. *)
From coqutil Require Import Datatypes.RecordSetters.
From S2P Require Import Prelude NASTypes NASIe NASDec NASEnc EIA2 NASSec Timer Subs S11Peer EMMCtx EMM.

Section FSM.
Context {evp : EVP} {hm : HMAC} {ee : EMMEnv}.

(** ** Errors of S6a *)

Definition Deregistered_processError (err : S6aCause) : M unit :=
  match err with
  | S6a_UNKNOWN_EPS_SUBSCRIPTION =>
    e ← self;
    if attachStarted e then emm_sendAttachReject EMM_EPSServicesAndNonEPSServicesNotAllowed [] 0 else skip
  | S6a_UNKNOWN_ERROR => skip
  end.

Definition Common_processError (err : S6aCause) : M unit :=
  match err with
  | S6a_UNKNOWN_EPS_SUBSCRIPTION =>
    e ← self;
    (if attachStarted e then emm_sendAttachReject EMM_EPSServicesAndNonEPSServicesNotAllowed [] 0 else skip) ;;
    emm_stop
  | S6a_UNKNOWN_ERROR => emm_stop
  end.

(** The column [processError] of the table, and [emm_processS6aError]. *)
Definition state_processError (x : EMMState) : S6aCause -> M unit :=
  match x with
  | EMM_Deregistered => Deregistered_processError
  | EMM_CommonProcedureInitiated => Common_processError
  | _ => fun _ => skip
  end.
Definition emm_processS6aError (err : S6aCause) : M unit :=
  e ← self; state_processError (stateName e) err.

(** ** Protected messages *)

(** The code every [emm_processSecMsg] starts with: verify, decipher. *)
Definition authenticate (buf : list Z) (len : Z) (k : bool -> GenericNASMsg_t -> M unit) : M unit :=
  e ← self;
  '(res, isAuth, h) ← lift (nas_authenticateMsg (parser e) buf len NAS_UpLink);
  upd (fun e => { e with parser := h }) ;;
  if res =? 0 then fault_ Aborted
  else if res =? 2 then skip
  else
    '(ok, m) ← lift (dec_secNAS h NAS_UpLink buf len);
    if ok =? 0 then fault_ Aborted else k (negb (isAuth =? 0)) m.

(** [!isAuth && nas_isAuthRequired(msg.plain.eMM.messageType)] *)
Definition refused (isAuth : bool) (m : GenericNASMsg_t) : bool :=
  negb isAuth && negb (nas_isAuthRequired (eMM_messageType m) =? 0).

(** [nas_getHeader(buf, len, &s, &p)] without a look at its result. *)
Definition header (buf : list Z) (len : Z) : M (Z * Z) :=
  h ← lift (nas_getHeader (Some buf) len);
  match h with Some x => mret x | None => fault_ Uninitialised end.

(** [ecmSession_getTAI(emm->ecm, emm->sn, &(emm->tac));] *)
Definition store_TAI : M unit :=
  '(s, t) ← ecmSession_getTAI; upd (fun e => { e with sn := s; tac := t }).

(** The authenticated attach: the security context is kept. *)
Definition attach_with_context : M unit :=
  upd (fun e => { e with nasUlCountForSC := nas_getLastCount (parser e) NAS_UpLink }) ;;
  emmChangeState EMM_SpecificProcedureInitiated ;;
  emm_processFirstESMmsg.

(** [case DetachRequest] *)
Definition detach_request (m : GenericNASMsg_t) : M unit :=
  processDetachReq m ;;
  e ← self;
  if negb (ksi e =? msg_ksi e) then skip else emit Esm_detach.

(** ** EMM_Deregistered.c *)

Definition Deregistered_processMsg (m : GenericNASMsg_t) : M unit :=
  if negb (is_enum (gm_securityHeaderType m) PlainNAS) then skip
  else match NASMessageType_of (eMM_messageType m) with
  | Some AttachRequest =>
    store_TAI ;; processAttach m ;;
    b ← emm_selectAttachType;
    if negb b then skip else emm_triggerAKAprocedure emm_processS6aError
  | Some TrackingAreaUpdateRequest => emm_sendTAUReject EMM_ImplicitlyDetached
  | _ => skip
  end.

Definition Deregistered_switch (isAuth : bool) (m : GenericNASMsg_t) : M unit :=
  if refused isAuth m then skip
  else match NASMessageType_of (eMM_messageType m) with
  | Some AttachRequest =>
    store_TAI ;; processAttach m ;;
    b ← emm_selectAttachType;
    if negb b then skip
    else if negb isAuth then emm_triggerAKAprocedure emm_processS6aError
    else attach_with_context
  | Some TrackingAreaUpdateRequest => emm_sendTAUReject EMM_ImplicitlyDetached
  | Some DetachRequest => detach_request m
  | _ => skip
  end.

(** The message inside of a protected one, without verification. *)
Definition unverified (buf : list Z) (len : Z) : M GenericNASMsg_t :=
  '(_, m) ← lift (dec_NAS (adv buf 6) (wrap64 (len - 6))); mret m.

Definition Deregistered_processSecMsg (buf : list Z) (len : Z) : M unit :=
  _ ← ecm_;
  _ ← header buf len;
  e ← self;
  if sci e then authenticate buf len Deregistered_switch
  else m ← unverified buf len; Deregistered_switch false m.

Definition Deregistered_processSrvReq (buf : list Z) (len : Z) : M unit :=
  emm_sendServiceReject EMM_ImplicitlyDetached.

(** ** EMM_CommonProcedureInitiated.c *)

(** [processIdentityRsp] *)
Definition processIdentityRsp (m : GenericNASMsg_t) : M unit :=
  r ← lift (as_IdentityResponse m);
  (if mobileId_type (IR_mobileId r) =? 1
   then mobid ← lift (mobid_of (IR_mobileId r)); upd (fun e => { e with imsi := mobid })
   else skip) ;;
  emmCtx_newGUTI.

(** [sendAuthReject] *)
Definition sendAuthReject : M unit :=
  '(buffer, len) ← build 150 (EMM_header AuthenticationReject);
  ecm_send buffer len ;; emmChangeState EMM_Deregistered.

(** [processAuthResp] *)
Definition processAuthResp (m : GenericNASMsg_t) : M unit :=
  r ← lift (as_AuthenticationResponse m);
  sec ← emmCtx_getFirstAuthQuadruplet;
  if negb (lv_l (AR_authParam r) =? 8) then skip
  else if negb (bool_decide (take 8 (lv_array (AR_authParam r)) = xRES sec)) then sendAuthReject
  else
    emm_setSecurityQuadruplet ;;
    upd (fun e => { e with parser := nas_setSecurity (parser e) NAS_EIA2 NAS_EEA0 (kasme e) }) ;;
    emm_sendSecurityModeCommand.

(** [syncError] *)
Definition syncError (err : S6aCause) : M unit := emm_stop.

(** [processAuthFailure] *)
Definition processAuthFailure (m : GenericNASMsg_t) : M unit :=
  f ← lift (as_AuthenticationFailure m);
  if is_enum (AF_eMMCause f) EMM_SynchFailure then s6a_SynchAuthVector emm_sendAuthRequest syncError
  else emmCtx_removeFirstAuthQuadruplet ;; emm_stop.

(** The cases both switches have. *)
Definition identity_response (m : GenericNASMsg_t) : M unit :=
  emm_stopTimer T3470 ;; processIdentityRsp m ;;
  s6a_GetAuthInformation emm_sendAuthRequest emm_processS6aError.

Definition Common_processMsg (m : GenericNASMsg_t) : M unit :=
  if negb (is_enum (gm_securityHeaderType m) PlainNAS) then fault_ Aborted
  else match NASMessageType_of (eMM_messageType m) with
  | Some IdentityResponse => identity_response m
  | Some AuthenticationResponse => emm_stopTimer T3460 ;; processAuthResp m
  | Some AuthenticationFailure => emm_stopTimer T3460 ;; processAuthFailure m
  | Some SecurityModeReject => emm_stopTimer T3460
  | _ => skip
  end.

(** [case SecurityModeComplete]; [! s == 4] is the comparison of a truth value. *)
Definition security_mode_complete (s : Z) : M unit :=
  emm_stopTimer T3460 ;;
  if Z.b2z (s =? 0) =? enum_val IntegrityProtectedAndCipheredWithNewEPSSecurityContext then skip
  else
    upd (fun e => { e with sci := true; nasUlCountForSC := nas_getLastCount (parser e) NAS_UpLink }) ;;
    emmChangeState EMM_SpecificProcedureInitiated ;;
    s6a_UpdateLocation emm_selectGateways.

(** Without bearers or without an attach the connection is released. *)
Definition release_if_unused (keep : EMMCtx_t -> bool) : M unit :=
  e ← self; if keep e then skip else ecm_sendUEContextReleaseCommand CauseNas_normal_release.

Definition Common_switch (s : Z) (isAuth : bool) (m : GenericNASMsg_t) : M unit :=
  if refused isAuth m then skip
  else match NASMessageType_of (eMM_messageType m) with
  | Some IdentityResponse => identity_response m
  | Some AuthenticationResponse => emm_stopTimer T3460 ;; processAuthResp m
  | Some AuthenticationFailure => emm_stopTimer T3460 ;; processAuthFailure m
  | Some SecurityModeReject => emm_stopTimer T3460
  | Some SecurityModeComplete => security_mode_complete s
  | _ => release_if_unused (fun e => s1BearersActive e && attachStarted e)
  end.

Definition Common_processSecMsg (buf : list Z) (len : Z) : M unit :=
  '(s, _) ← header buf len;
  e ← self;
  if sci e || is_enum s IntegrityProtectedAndCipheredWithNewEPSSecurityContext
  then authenticate buf len (Common_switch s)
  else m ← unverified buf len; Common_switch s false m.

(** [(NASMessageType_t)((guint8* )buf)[1]]: the data of an empty array is null. *)
Definition timer_type (buf : list Z) : M Z :=
  match buf with [] => fault_ NullDeref | [_] => fault_ OutOfBounds | _ :: t :: _ => mret t end.

(** [case TMOBILE_REACHABLE] and [case TIMPLICIT_DETACH] *)
Definition mobile_unreachable : M unit :=
  emm_stopTimer TMOBILE_REACHABLE ;; emm_setTimer TIMPLICIT_DETACH [] 0.
Definition implicit_detach : M unit := emm_stopTimer TIMPLICIT_DETACH ;; emm_stop.

Definition Common_processTimeout (buf : list Z) (c : EMM_TimerCode) : M unit :=
  let len := Z.of_nat (length buf) in
  type ← timer_type buf;
  match c with
  | T3460 =>
    e ← self;
    if sci e || is_enum type SecurityModeCommand then
      '(o, olen) ← protect (Some 0) 1500
         (if is_enum type SecurityModeCommand then IntegrityProtectedWithNewEPSSecurityContext
          else IntegrityProtectedAndCiphered) buf len;
      ecm_send o olen
    else ecm_send buf len
  | T3470 => ecm_send buf len
  | TMOBILE_REACHABLE => mobile_unreachable
  | TIMPLICIT_DETACH => implicit_detach
  | _ => skip
  end.

Definition Common_processTimeoutMax (buf : list Z) (c : EMM_TimerCode) : M unit :=
  _ ← timer_type buf;
  match c with
  | T3460 => emm_stop
  | T3470 => emm_stop ;; emm_free ;; ecm_sendUEContextReleaseCommand CauseNas_normal_release
  | _ => skip
  end.

(** ** EMM_SpecificProcedureInitiated.c *)

(** [processAttachComplete] *)
Definition processAttachComplete (m : GenericNASMsg_t) : M unit :=
  c ← lift (as_AttachComplete m);
  '(_, esm_msg) ← lift (dec_NAS (lv_v (AC_eSM_MessageContainer c)) (lv_l (AC_eSM_MessageContainer c)));
  upd (fun e => { e with attachStarted := false }) ;;
  emmChangeState EMM_Registered ;;
  esm_processMsg esm_msg.

(** [p == ESM || msg.header.protocolDiscriminator.v == ESM] *)
Definition is_ESM (p : Z) (m : GenericNASMsg_t) : bool :=
  is_enum p EPSSessionManagementMessages ||
  is_enum (gm_protocolDiscriminator m) EPSSessionManagementMessages.

Definition Specific_switch (p : Z) (isAuth : bool) (m : GenericNASMsg_t) : M unit :=
  if refused isAuth m then skip
  else if is_ESM p m then esm_processMsg m
  else match NASMessageType_of (eMM_messageType m) with
  | Some AttachComplete => emm_stopTimer T3450 ;; processAttachComplete m
  | Some TrackingAreaUpdateComplete =>
    emm_stopTimer T3450 ;; release_if_unused s1BearersActive ;; emmChangeState EMM_Registered
  | Some DetachRequest => emm_stopTimer T3450 ;; detach_request m
  | _ => release_if_unused (fun e => s1BearersActive e && attachStarted e)
  end.

Definition Specific_processSecMsg (buf : list Z) (len : Z) : M unit :=
  '(_, p) ← header buf len;
  e ← self;
  if negb (sci e) then fault_ Aborted else authenticate buf len (Specific_switch p).

(** [emmAttachAccept]; the TMSI of a combined attach is copied from a local
    variable that was never set. *)
Definition emmAttachAccept (esm_msg : list Z) (msgLen : Z) (bearers : nat) : M unit :=
  e ← self;
  if negb (attachStarted e) then skip
  else
    upd (fun e => { e with attachStarted := false }) ;;
    tAIl ← ecmSession_getTAIlist;
    emmCtx_newGUTI ;;
    garbage ← env stack_garbage;
    e ← self;
    '(plain, len) ← build 250 (EMM_header AttachAccept ;;;
       nasIe_v_t1_l (attachResult e) ;;; bump 1 ;;;
       nasIe_v_t3 [t3412 e] 1 ;;; nasIe_lv_t4 tAIl 6 ;;; nasIe_lv_t6 esm_msg msgLen ;;;
       nasIe_tlv_t4 0x50 (0xF6 :: guti e) 11 ;;;
       (if attachResult e =? 2 then combined_writer e (take 5 (drop 1 tAIl)) garbage else bump 0));
    '(o, olen) ← protect None 256 IntegrityProtectedAndCiphered plain len;
    upd (fun e => { e with s1BearersActive := true }) ;;
    emm_setTimer T3450 plain len ;;
    ecm_sendCtxtSUReq o olen bearers.

Definition Specific_processSrvReq (buf : list Z) (len : Z) : M unit := emm_stop.

Definition Specific_processTimeout (buf : list Z) (c : EMM_TimerCode) : M unit :=
  let len := Z.of_nat (length buf) in
  _ ← timer_type buf;
  match c with
  | T3450 =>
    e ← self;
    if sci e then '(o, olen) ← protect (Some 0) 1500 IntegrityProtectedAndCiphered buf len; ecm_send o olen
    else skip
  | TMOBILE_REACHABLE => mobile_unreachable
  | TIMPLICIT_DETACH => implicit_detach
  | _ => skip
  end.

Definition Specific_processTimeoutMax (buf : list Z) (c : EMM_TimerCode) : M unit :=
  type ← timer_type buf;
  match c with
  | T3450 =>
    (if is_enum type AttachComplete then emm_stop else emmChangeState EMM_Registered) ;;
    ecm_sendUEContextReleaseCommand CauseNas_normal_release
  | _ => skip
  end.

(** ** EMM_Registered.c *)

(** [emm_selectUpdateType] *)
Definition emm_selectUpdateType : M bool :=
  e ← self;
  if (msg_updateType e =? 0) || (msg_updateType e =? 4) || (msg_updateType e =? 5) || (msg_updateType e =? 3)
  then upd (fun e => { e with updateResult := 0 }) ;; mret true
  else if (msg_updateType e =? 1) || (msg_updateType e =? 2)
  then upd (fun e => { e with updateResult := 1 }) ;; mret true
  else mret false.

Definition Registered_processMsg (m : GenericNASMsg_t) : M unit :=
  match NASMessageType_of (eMM_messageType m) with
  | Some AttachRequest =>
    esm_errorEMM ;; store_TAI ;; processAttach m ;;
    b ← emm_selectAttachType;
    if negb b then skip else emm_triggerAKAprocedure emm_processS6aError
  | _ => skip
  end.

Definition Registered_switch (p : Z) (isAuth : bool) (m : GenericNASMsg_t) : M unit :=
  if refused isAuth m then skip
  else if is_ESM p m then esm_processMsg m
  else match NASMessageType_of (eMM_messageType m) with
  | Some AttachRequest =>
    esm_errorEMM ;; store_TAI ;; processAttach m ;;
    b ← emm_selectAttachType;
    if negb b then skip
    else if negb isAuth then emm_triggerAKAprocedure emm_processS6aError
    else attach_with_context
  | Some DetachRequest => detach_request m
  | Some TrackingAreaUpdateRequest =>
    store_TAI ;;
    emm_processTAUReq m ;;
    b ← emm_selectUpdateType;
    if negb b then skip
    else if negb isAuth then emm_triggerAKAprocedure emm_processS6aError
    else
      upd (fun e => { e with nasUlCountForSC := nas_getLastCount (parser e) NAS_UpLink }) ;;
      emm_sendTAUAccept ;;
      emmChangeState EMM_SpecificProcedureInitiated
  | _ => release_if_unused s1BearersActive
  end.

Definition Registered_processSecMsg (buf : list Z) (len : Z) : M unit :=
  '(_, p) ← header buf len;
  e ← self;
  if negb (sci e) then fault_ Aborted else authenticate buf len (Registered_switch p).

Definition Registered_processSrvReq (buf : list Z) (len : Z) : M unit :=
  '(_, p) ← header buf len;
  e ← self;
  if negb (sci e) then fault_ Aborted
  else
    '(res, isAuth, h) ← lift (nas_authenticateMsg (parser e) buf len NAS_UpLink);
    upd (fun e => { e with parser := h }) ;;
    if res =? 0 then fault_ Aborted
    else if res =? 2 then skip
    else if negb (is_enum p EPSMobilityManagementMessages) then skip
    else
      b1 ← lift (rdi buf 1);
      upd (fun e => { e with msg_ksi := (b1 .& 0xe0) >> 5 }) ;;
      e ← self;
      if negb (ksi e =? msg_ksi e) || (isAuth =? 0) then skip
      else
        upd (fun e => { e with nasUlCountForSC := nas_getLastCount (parser e) NAS_UpLink;
                               s1BearersActive := true }) ;;
        n ← esm_getSessions;
        ecm_sendCtxtSUReq [] 0 n.

Definition Registered_processTimeout (buf : list Z) (c : EMM_TimerCode) : M unit :=
  match c with
  | TMOBILE_REACHABLE => mobile_unreachable
  | TIMPLICIT_DETACH => implicit_detach
  | _ => skip
  end.

(** ** The table (EMM_State.h, EMM_FSMConfig.c); [None] is a null pointer *)

Record EMM_State := {
  processMsg : GenericNASMsg_t -> M unit;
  attachAccept : option (list Z -> Z -> nat -> M unit);
  processSecMsg : list Z -> Z -> M unit;
  processSrvReq : list Z -> Z -> M unit;
  sendESM : option (list Z -> Z -> M unit);
  processError : S6aCause -> M unit;
  processTimeout : list Z -> EMM_TimerCode -> M unit;
  processTimeoutMax : list Z -> EMM_TimerCode -> M unit;
}.

Definition linkEMMDeregistered : EMM_State :=
  {| processMsg := Deregistered_processMsg; attachAccept := None;
     processSecMsg := Deregistered_processSecMsg; processSrvReq := Deregistered_processSrvReq;
     sendESM := None; processError := Deregistered_processError;
     processTimeout := fun _ _ => skip; processTimeoutMax := fun _ _ => skip |}.
Definition linkEMMRegistered : EMM_State :=
  {| processMsg := Registered_processMsg; attachAccept := None;
     processSecMsg := Registered_processSecMsg; processSrvReq := Registered_processSrvReq;
     sendESM := Some emm_internalSendESM; processError := fun _ => skip;
     processTimeout := Registered_processTimeout; processTimeoutMax := fun _ _ => skip |}.
Definition linkEMMSpecificProcedureInitiated : EMM_State :=
  {| processMsg := fun _ => skip; attachAccept := Some emmAttachAccept;
     processSecMsg := Specific_processSecMsg; processSrvReq := Specific_processSrvReq;
     sendESM := Some emm_internalSendESM; processError := fun _ => skip;
     processTimeout := Specific_processTimeout; processTimeoutMax := Specific_processTimeoutMax |}.
Definition linkEMMCommonProcedureInitiated : EMM_State :=
  {| processMsg := Common_processMsg; attachAccept := None;
     processSecMsg := Common_processSecMsg; processSrvReq := fun _ _ => skip;
     sendESM := None; processError := Common_processError;
     processTimeout := Common_processTimeout; processTimeoutMax := Common_processTimeoutMax |}.
Definition linkEMMDeregisteredInitiated : EMM_State :=
  {| processMsg := fun _ => skip; attachAccept := None;
     processSecMsg := fun _ _ => skip; processSrvReq := fun _ _ => skip;
     sendESM := None; processError := fun _ => skip;
     processTimeout := fun _ _ => skip; processTimeoutMax := fun _ _ => skip |}.

Definition emm_states (x : EMMState) : EMM_State :=
  match x with
  | EMM_Deregistered => linkEMMDeregistered
  | EMM_Registered => linkEMMRegistered
  | EMM_SpecificProcedureInitiated => linkEMMSpecificProcedureInitiated
  | EMM_CommonProcedureInitiated => linkEMMCommonProcedureInitiated
  | EMM_DeregisteredInitiated => linkEMMDeregisteredInitiated
  end.

(** [emm->state] *)
Definition state_ : M EMM_State := e ← self; mret (emm_states (stateName e)).

(** ** Dispatch *)

(** [emm_processMsg] *)
Definition emm_processMsg (buffer : list Z) (len : Z) : M unit :=
  emm_stopTimer TMOBILE_REACHABLE ;;
  hdr ← lift (nas_getHeader (Some buffer) len);
  match hdr with
  | None => fault_ Aborted
  | Some (s, _) =>
    if is_enum s PlainNAS then
      '(_, m) ← lift (dec_NAS buffer len); st ← state_; processMsg st m
    else if (enum_val PlainNAS <? s) &&
            (s <=? enum_val IntegrityProtectedAndCipheredWithNewEPSSecurityContext) then
      st ← state_; processSecMsg st buffer len
    else if is_enum s SecurityHeaderForServiceRequestMessage then
      st ← state_; processSrvReq st buffer len
    else skip
  end.

(** [emm_attachAccept], [emm_sendESM] *)
Definition emm_attachAccept (esm_msg : list Z) (len : Z) (bearers : nat) : M unit :=
  st ← state_;
  match attachAccept st with Some f => f esm_msg len bearers | None => fault_ NullCall end.
Definition emm_sendESM (msg : list Z) (len : Z) : M unit :=
  st ← state_;
  match sendESM st with Some f => f msg len | None => fault_ NullCall end.

(** [emm_timer_cb], [emm_timer_max_cb] *)
Definition emm_timer_cb (x : EMM_Timer) : M unit :=
  st ← state_; processTimeout st (et_msg x) (et_code x).
Definition emm_timer_max_cb (x : EMM_Timer) : M unit :=
  st ← state_; processTimeoutMax st (et_msg x) (et_code x).

(** The expiration of timer [t]: [timer_cb] of the manager with the callbacks of
    this module. *)
Definition emm_expire (t : nat) : M unit := fun s =>
  match timers (tmgr s) !! t, tdata s !! t with
  | Some x, Some d =>
    let x := set_rtx x (wrap32 (t_rtx x + 1)) in
    let s := { s with tmgr := with_timers (tmgr s) (<[t := x]> (timers (tmgr s))) } in
    if t_rtx x <=? t_max_rtx x then emm_timer_cb d s
    else
      '(_, s) ← emm_timer_max_cb d s;
      if bool_decide (is_Some (timers (tmgr s) !! t)) then emm_tm_stop_timer t s else Ok (tt, s)
  | _, _ => UB UseAfterFree
  end.

(** ** The events of a context *)

Inductive emm_event :=
  | Ev_msg (buf : list Z)                    (* a NAS message from the ECM session *)
  | Ev_attachAccept (esm : list Z)           (* ESM has set up the session *)
  | Ev_sendESM (esm : list Z)                (* ESM sends a message *)
  | Ev_detached                              (* ESM has finished a detach *)
  | Ev_sessions (n : nat)                    (* ESM changed the number of sessions *)
  | Ev_registerECM (v : ecm_view)
  | Ev_deregister
  | Ev_stop
  | Ev_release                               (* the eNB asks for a release *)
  | Ev_modify
  | Ev_getNH
  | Ev_timer (t : nat).

Definition set_sessions (n : nat) : M unit := fun s => Ok (tt, { s with sessions := n }).
Definition discard {A} (m : M A) : M unit := _ ← m; skip.

Definition run_event (ev : emm_event) : M unit :=
  match ev with
  | Ev_msg buf => emm_processMsg buf (Z.of_nat (length buf))
  | Ev_attachAccept esm => emm_attachAccept esm (Z.of_nat (length esm)) 1
  | Ev_sendESM esm => emm_sendESM esm (Z.of_nat (length esm))
  | Ev_detached => emm_detachAccept
  | Ev_sessions n => set_sessions n
  | Ev_registerECM v => emm_registerECM v
  | Ev_deregister => emm_deregister
  | Ev_stop => emm_stop
  | Ev_release => emm_UEContextReleaseReq
  | Ev_modify => emm_modifyE_RABList
  | Ev_getNH => discard emm_getNH
  | Ev_timer t => emm_expire t
  end.

(** The event loop only fires timers that exist, and once the context is freed
    nobody uses it. *)
Definition may_happen (s : est) (ev : emm_event) : Prop :=
  is_Some (ctx s) /\
  match ev with Ev_timer t => is_Some (timers (tmgr s) !! t) | _ => True end.

Inductive emm_step (s : est) (ev : emm_event) (s' : est) : Prop :=
  | Emm_step : may_happen s ev -> run_event ev s = Ok (tt, s') -> emm_step s ev s'.

Inductive emm_reachable : est -> Prop :=
  | Emm_start v n : emm_reachable (emm_init v init_timerMgr n)
  | Emm_next s ev s' : emm_reachable s -> emm_step s ev s' -> emm_reachable s'.

(** A whole sequence of events, for which every event may happen. *)
Definition may_happenb (s : est) (ev : emm_event) : bool :=
  bool_decide (is_Some (ctx s)) &&
  match ev with Ev_timer t => bool_decide (is_Some (timers (tmgr s) !! t)) | _ => true end.

Fixpoint exec (evs : list emm_event) (s : est) : outcome est :=
  match evs with
  | [] => Ok s
  | ev :: evs => if may_happenb s ev then '(_, s) ← run_event ev s; exec evs s else UB UseAfterFree
  end.

Lemma may_happen_spec s ev : may_happenb s ev = true <-> may_happen s ev.
Proof.
  unfold may_happenb, may_happen. rewrite andb_true_iff, bool_decide_eq_true.
  destruct ev; rewrite ?bool_decide_eq_true; naive_solver.
Qed.
End FSM.

(** ** A concrete network *)

(** One subscriber, whose vector the HSS always returns, and the messages with
    which it attaches. *)
Section Toy.
#[local] Existing Instance toy_evp.
#[local] Existing Instance toy_hmac.

Definition toy_vector : AuthQuadruplet :=
  {| rAND := repeat 1 16; xRES := repeat 2 8; aUTN := repeat 3 16; kASME := repeat 1 32 |}.

Definition toy_env : EMMEnv :=
  {| hss_auth _ := Auth_vec toy_vector; hss_sync _ := Sync_nothing; hss_location _ := Loc_failed;
     served_mmegi := [1; 2]; served_mmec := 3; node_SGW _ := []; node_PGW _ := []; rand_ _ := 5;
     g_int64_hash x := wrap32 x; stack_garbage _ := [9; 9; 9; 9] |}.

Definition toy_view : ecm_view := {| tAI_sn := [0; 241; 16]; tAI_tAC := [0; 1] |}.

Definition toy_attach_request : list Z :=
  [0x07; 0x41; 0x71; 8; 0x09; 0x10; 0x10; 0; 0; 0; 0; 0x10; 2; 0xe0; 0xe0; 0; 4; 0x02; 0x01; 0xd0; 0x11].

(** The message the terminal protects with the handler it derived itself. *)
Definition toy_protect (n : NASHandler) (s : Z) (pl : list Z) : list Z :=
  match newNASMsg_sec n (repeat 0 200) 0 7 s NAS_UpLink pl (Z.of_nat (length pl)) with
  | Ok r => take (Z.to_nat (sr_len r)) (sr_out r)
  | _ => []
  end.

Definition toy_challenge_run : list emm_event :=
  [Ev_msg toy_attach_request; Ev_msg ([0x07; 0x53; 8] ++ repeat 2 8)].

Definition toy_attach_run : list emm_event :=
  toy_challenge_run ++
  [Ev_msg (toy_protect toy_handler 4 [0x07; 0x5e]);
   Ev_sessions 1; Ev_attachAccept [0x52; 1; 0xc1];
   Ev_msg (toy_protect (set_nas_count toy_handler NAS_UpLink 1) 2 [0x07; 0x43; 0; 3; 0x52; 0; 0xc2])].
End Toy.

