(* ===== verification/EMMInv.v ===== *)
(** What the operations of the mobility management can change: a relational
    calculus for the monad of [EMMCtx] ([Does R m]: every successful run of [m]
    is in [R]), and from it the invariants of a context: which states and which
    keys are possible, and which messages can establish a security context. *)
From coqutil Require Import Datatypes.RecordSetters.
From stdpp Require Import relations.
From S2P Require Import Prelude NASTypes NASIe NASDec NASEnc EIA2 NASSec Timer Subs S11Peer EMMCtx EMM EMMFSM.

(** Operations are compared by name. *)
#[export] Hint Opaque lift fault_ skip self upd emit env ecm_ ecm_send ecm_sendUEContextReleaseCommand ecm_sendCtxtSUReq
  ecmSession_getTAI ecmSession_getTAIlist ecmSession_newGUTI emmChangeState
  emmCtx_setNewAuthQuadruplet emmCtx_freeAuthQuadruplets emmCtx_getFirstAuthQuadruplet
  emmCtx_removeFirstAuthQuadruplet emmCtx_newGUTI tm_ set_tm set_tdata set_active emm_timer_free_cb
  emm_tm_stop_timer emm_setTimer emm_stopTimer stop_each emm_stopAllTimers s6a_GetAuthInformation
  s6a_SynchAuthVector s6a_UpdateLocation esm_processMsg esm_errorEMM esm_getSessions
  store_ueCapabilities store_msNetCap processAttach emm_selectAttachType processDetachReq
  emm_processTAUReq build protect send_maybe_protected emm_sendAttachReject emm_sendServiceReject
  emm_sendTAUReject emm_sendAuthRequest emm_setSecurityQuadruplet emm_sendSecurityModeCommand
  emm_sendIdentityReq emm_sendTAUAccept emm_internalSendESM emm_detachAccept emm_processFirstESMmsg
  emm_selectGateways emm_removeCurrentSC emm_checkIdentity emm_checkAuthInformation
  emm_checkSCAvailability emm_checkSCActive emm_triggerAKAprocedure emm_getNH release_ctx emm_free
  emm_registerECM emm_deregister emm_stop emm_modifyE_RABList emm_UEContextReleaseReq
  Deregistered_processError Common_processError state_processError emm_processS6aError authenticate
  header store_TAI attach_with_context detach_request Deregistered_processMsg Deregistered_switch
  unverified Deregistered_processSecMsg Deregistered_processSrvReq processIdentityRsp sendAuthReject
  processAuthResp syncError processAuthFailure identity_response Common_processMsg
  security_mode_complete release_if_unused Common_switch Common_processSecMsg timer_type
  mobile_unreachable implicit_detach Common_processTimeout Common_processTimeoutMax
  processAttachComplete Specific_switch Specific_processSecMsg emmAttachAccept Specific_processSrvReq
  Specific_processTimeout Specific_processTimeoutMax emm_selectUpdateType Registered_processMsg
  Registered_switch Registered_processSecMsg Registered_processSrvReq Registered_processTimeout state_
  emm_processMsg emm_attachAccept emm_sendESM emm_timer_cb emm_timer_max_cb emm_expire set_sessions
  discard run_event : typeclass_instances.

(** ** Runs of the monad *)

Lemma emm_bind_Ok {A B} (m : M A) (k : A -> M B) s b s' :
  (m ≫= k) s = Ok (b, s') <-> exists a s1, m s = Ok (a, s1) /\ k a s1 = Ok (b, s').
Proof.
  unfold mbind, M_bind. rewrite bind_Ok. split.
  - intros ([a s1] & E1 & E2). eauto.
  - intros (a & s1 & E1 & E2). exists (a, s1). eauto.
Qed.

Lemma emm_lift_Ok {A} (o : outcome A) s a s' : lift o s = Ok (a, s') <-> o = Ok a /\ s' = s.
Proof. unfold lift. destruct o; cbn; naive_solver. Qed.

Lemma self_Ok s e s' : self s = Ok (e, s') <-> ctx s = Some e /\ s' = s.
Proof. unfold self. destruct (ctx s); naive_solver. Qed.

Lemma ret_Ok {A} (x : A) s a s' : (mret x : M A) s = Ok (a, s') <-> a = x /\ s' = s.
Proof. unfold mret, M_ret. naive_solver. Qed.

Lemma upd_Ok f s a s' e' : upd f s = Ok (a, s') -> ctx s' = Some e' -> exists e, ctx s = Some e /\ e' = f e.
Proof.
  unfold upd. destruct (ctx s) as [e|]; [|done]. intros [= <- <-] [= <-]. eauto.
Qed.

(** ** Relations *)

Class Does (R : est -> est -> Prop) {A} (m : M A) : Prop :=
  does : forall s a s', m s = Ok (a, s') -> R s s'.

(** Relations that do not see what is sent and counted, and relations on the
    context alone. *)
Class Silent (R : est -> est -> Prop) := {
  silent_pre :: PreOrder R;
  silent_same s s' : ctx s' = ctx s -> tmgr s' = tmgr s -> tdata s' = tdata s -> R s s';
}.
Class CtxRel (R : est -> est -> Prop) := {
  ctxrel_silent :: Silent R;
  ctxrel_same s s' : ctx s' = ctx s -> R s s';
}.

Definition on_ctx (R : EMMCtx_t -> EMMCtx_t -> Prop) (s s' : est) : Prop :=
  forall e', ctx s' = Some e' -> exists e, ctx s = Some e /\ R e e'.

#[export] Instance on_ctx_rel R : PreOrder R -> CtxRel (on_ctx R).
Proof.
  intros HR. assert (Hs : forall s s', ctx s' = ctx s -> on_ctx R s s').
  { intros s s' E e' He'. rewrite E in He'. exists e'. split; [done|reflexivity]. }
  split; [split|]; [split|auto|auto].
  - intros s. by apply Hs.
  - intros s1 s2 s3 H12 H23 e3 He3. destruct (H23 _ He3) as (e2 & He2 & H).
    destruct (H12 _ He2) as (e1 & He1 & H'). exists e1. split; [done|by etransitivity].
Qed.

Section Calculus.
Context (R : est -> est -> Prop) {HR : Silent R}.

#[export] Instance does_ret A (a : A) : Does R (mret a).
Proof. intros s b s' E. apply ret_Ok in E as [_ ->]. reflexivity. Qed.
#[export] Instance does_skip : Does R skip.
Proof. apply does_ret. Qed.
Lemma does_bind A B (m : M A) (k : A -> M B) : Does R m -> (forall a, Does R (k a)) -> Does R (m ≫= k).
Proof. intros Hm Hk s b s' E. apply emm_bind_Ok in E as (a & s1 & E1 & E2). transitivity s1; [exact (Hm _ _ _ E1)|exact (Hk a _ _ _ E2)]. Qed.
#[export] Instance does_lift A (o : outcome A) : Does R (lift o).
Proof. intros s a s' E. apply emm_lift_Ok in E as [_ ->]. reflexivity. Qed.
#[export] Instance does_fault A f : Does R (@fault_ A f).
Proof. done. Qed.
#[export] Instance does_self : Does R self.
Proof. intros s a s' E. apply self_Ok in E as [_ ->]. reflexivity. Qed.
#[export] Instance does_emit o : Does R (emit o).
Proof. intros s a s' [= <- <-]. by apply silent_same. Qed.
#[export] Instance does_env A (f : nat -> A) : Does R (env f).
Proof. intros s a s' [= <- <-]. by apply silent_same. Qed.
#[export] Instance does_tm : Does R tm_.
Proof. intros s a s' [= <- <-]. reflexivity. Qed.
#[export] Instance does_set_sessions n : Does R (set_sessions n).
Proof. intros s a s' [= <- <-]. by apply silent_same. Qed.
#[export] Instance does_getSessions : Does R esm_getSessions.
Proof. intros s a s' [= <- <-]. reflexivity. Qed.
#[export] Instance does_errorEMM : Does R esm_errorEMM.
Proof. intros s a s' [= <- <-]. by apply silent_same. Qed.
End Calculus.

#[export] Instance does_set_tm R `{!CtxRel R} m : Does R (set_tm m).
Proof. intros s a s' [= <- <-]. by apply ctxrel_same. Qed.
#[export] Instance does_set_tdata R `{!CtxRel R} t x : Does R (set_tdata t x).
Proof. intros s a s' [= <- <-]. by apply ctxrel_same. Qed.

Lemma does_upd (R : EMMCtx_t -> EMMCtx_t -> Prop) f : (forall e, R e (f e)) -> Does (on_ctx R) (upd f).
Proof.
  intros H s a s' E e' He'. unfold upd in E. destruct (ctx s) as [e|]; [|done].
  injection E as <- <-. cbn in He'. injection He' as <-. eauto.
Qed.

Lemma does_weaken (R R' : est -> est -> Prop) A (m : M A) : (forall s s', R s s' -> R' s s') -> Does R m -> Does R' m.
Proof. intros H Hm s a s' E. exact (H _ _ (Hm _ _ _ E)). Qed.

(** By the shape of the program; named operations by their instance. *)
Ltac does_tac :=
  repeat lazymatch goal with
  | |- Does _ (mbind _ _) => apply does_bind; [typeclasses eauto| |intros]
  | |- Does _ (upd _) => apply does_upd; intros; repeat split; reflexivity
  | |- Does _ (match ?x with _ => _ end) => destruct x
  | |- Does _ (mret _) => apply does_ret; typeclasses eauto
  | |- Does _ (lift _) => apply does_lift; typeclasses eauto
  | |- Does _ _ => first [assumption | typeclasses eauto]
  end.

(** ** What most operations keep *)

(** The part of the security context that does not depend on the COUNTs. *)
Definition keys (n : NASHandler) := (isValid n, h_i n, h_ikey n, h_e n, h_ekey n).

(** The security context of the terminal. *)
Definition same_sc (e e' : EMMCtx_t) : Prop :=
  kasme e' = kasme e /\ sci e' = sci e /\ keys (parser e') = keys (parser e).
(** ... and the state of the machine. *)
Definition same_view (e e' : EMMCtx_t) : Prop := stateName e' = stateName e /\ same_sc e e'.

#[export] Instance same_sc_pre : PreOrder same_sc.
Proof. unfold same_sc. split; [by intros ?|]. intros ? ? ? (?&?&?) (?&?&?). split_and!; congruence. Qed.
#[export] Instance same_view_pre : PreOrder same_view.
Proof. unfold same_view. split; [by intros ?|]. intros ? ? ? [? ?] [? ?]. split; [congruence|by etransitivity]. Qed.

Abbreviation Keeps := (Does (on_ctx same_view)).

Section Keeps.
Context {evp : EVP} {hm : HMAC} {ee : EMMEnv}.

#[export] Instance keeps_ecm_ : Keeps ecm_.
Proof. unfold ecm_. does_tac. Qed.
#[export] Instance keeps_ecm_send m l : Keeps (ecm_send m l).
Proof. unfold ecm_send. does_tac. Qed.
#[export] Instance keeps_release c : Keeps (ecm_sendUEContextReleaseCommand c).
Proof. unfold ecm_sendUEContextReleaseCommand. does_tac. Qed.
#[export] Instance keeps_ctxtSUReq m l n : Keeps (ecm_sendCtxtSUReq m l n).
Proof. unfold ecm_sendCtxtSUReq. does_tac. Qed.
#[export] Instance keeps_getTAI : Keeps ecmSession_getTAI.
Proof. unfold ecmSession_getTAI. does_tac. Qed.
#[export] Instance keeps_getTAIlist : Keeps ecmSession_getTAIlist.
Proof. unfold ecmSession_getTAIlist. does_tac. Qed.
#[export] Instance keeps_newGUTI_ : Keeps ecmSession_newGUTI.
Proof. unfold ecmSession_newGUTI. does_tac. Qed.
#[export] Instance keeps_newGUTI : Keeps emmCtx_newGUTI.
Proof. unfold emmCtx_newGUTI. does_tac. Qed.
#[export] Instance keeps_setQuad q : Keeps (emmCtx_setNewAuthQuadruplet q).
Proof. unfold emmCtx_setNewAuthQuadruplet. does_tac. Qed.
#[export] Instance keeps_freeQuads : Keeps emmCtx_freeAuthQuadruplets.
Proof. unfold emmCtx_freeAuthQuadruplets. does_tac. Qed.
#[export] Instance keeps_firstQuad : Keeps emmCtx_getFirstAuthQuadruplet.
Proof. unfold emmCtx_getFirstAuthQuadruplet. does_tac. Qed.
#[export] Instance keeps_removeQuad : Keeps emmCtx_removeFirstAuthQuadruplet.
Proof. unfold emmCtx_removeFirstAuthQuadruplet. does_tac. Qed.
#[export] Instance keeps_set_active c x : Keeps (set_active c x).
Proof. unfold set_active. does_tac. Qed.
#[export] Instance keeps_free_cb t : Keeps (emm_timer_free_cb t).
Proof.
  intros s a s' E. unfold emm_timer_free_cb in E. destruct (tdata s !! t); [|done].
  revert s a s' E. change (Keeps (set_active (et_code e) None ;; set_tdata t None)). does_tac.
Qed.
#[export] Instance keeps_tm_stop t : Keeps (emm_tm_stop_timer t).
Proof. unfold emm_tm_stop_timer. does_tac. Qed.
#[export] Instance keeps_setTimer c m l : Keeps (emm_setTimer c m l).
Proof. unfold emm_setTimer. does_tac. Qed.
#[export] Instance keeps_stopTimer c : Keeps (emm_stopTimer c).
Proof. unfold emm_stopTimer. does_tac. Qed.
#[export] Instance keeps_stop_each cs : Keeps (stop_each cs).
Proof. induction cs; cbn [stop_each]; does_tac. Qed.
#[export] Instance keeps_esm m : Keeps (esm_processMsg m).
Proof. unfold esm_processMsg. does_tac. Qed.
#[export] Instance keeps_store_cap v l : Keeps (store_ueCapabilities v l).
Proof. unfold store_ueCapabilities. does_tac. Qed.
#[export] Instance keeps_store_msNetCap v l : Keeps (store_msNetCap v l).
Proof. unfold store_msNetCap. does_tac. Qed.
#[export] Instance keeps_processAttach m : Keeps (processAttach m).
Proof. unfold processAttach. does_tac. Qed.
#[export] Instance keeps_selectAttachType : Keeps emm_selectAttachType.
Proof. unfold emm_selectAttachType. does_tac. Qed.
#[export] Instance keeps_processDetachReq m : Keeps (processDetachReq m).
Proof. unfold processDetachReq. does_tac. Qed.
#[export] Instance keeps_processTAUReq m : Keeps (emm_processTAUReq m).
Proof. unfold emm_processTAUReq. does_tac. Qed.
#[export] Instance keeps_build n w : Keeps (build n w).
Proof. unfold build. does_tac. Qed.

(** *** COUNTs change, keys do not *)

Lemma keys_set n d c : keys (set_nas_count n d c) = keys n.
Proof. by destruct d. Qed.

Lemma sec_keys n o l p s d plain pl r : newNASMsg_sec n o l p s d plain pl = Ok r -> keys (sr_handler r) = keys n.
Proof.
  unfold newNASMsg_sec. intros H.
  repeat first [ progress osimp | progress simplify_eq
    | match goal with
      | H : _ ≫= _ = Ok _ |- _ => apply bind_Ok in H as (? & ? & H)
      | H : (if ?b then Ok _ else _) = Ok _ |- _ => destruct b
      | H : (let '(_, _) := ?x in _) = Ok _ |- _ => destruct x
      end ]; done.
Qed.

Lemma auth_keys n buf size d r i h : nas_authenticateMsg n buf size d = Ok (r, i, h) -> keys h = keys n.
Proof.
  unfold nas_authenticateMsg, nas_setCOUNT, nas_setCOUNTshort. intros H.
  repeat first [ progress osimp | progress simplify_eq
    | match goal with
      | H : _ ≫= _ = Ok _ |- _ => apply bind_Ok in H as (? & ? & H)
      | H : (if ?b then _ else _) = _ |- _ => destruct b
      | H : match ?x with _ => _ end = _ |- _ => destruct x
      end ]; cbn; try done; apply keys_set.
Qed.

Lemma set_parser_Ok s h a s' e : ctx s = Some e -> upd (fun e => { e with parser := h }) s = Ok (a, s') ->
  ctx s' = Some { e with parser := h }.
Proof. intros He E. unfold upd in E. rewrite He in E. by injection E as <- <-. Qed.

#[export] Instance keeps_protect l0 n t plain pl : Keeps (protect l0 n t plain pl).
Proof.
  intros s a s' E. unfold protect in E.
  apply emm_bind_Ok in E as (e & s1 & E1 & E). apply self_Ok in E1 as [He ->].
  apply emm_bind_Ok in E as (r & s1 & E1 & E). apply emm_lift_Ok in E1 as [Er ->].
  apply emm_bind_Ok in E as ([] & s1 & E1 & E). apply (set_parser_Ok _ _ _ _ _ He) in E1.
  assert (Hs : s' = s1) by (destruct (negb _ && _); [done|by apply ret_Ok in E as [_ ->]]). subst s'.
  intros e' He'. rewrite E1 in He'. injection He' as <-. exists e. split; [done|].
  repeat split. exact (sec_keys _ _ _ _ _ _ _ _ _ Er).
Qed.
#[export] Instance keeps_maybe n plain l : Keeps (send_maybe_protected n plain l).
Proof. unfold send_maybe_protected. does_tac. Qed.
#[export] Instance keeps_attachReject c m l : Keeps (emm_sendAttachReject c m l).
Proof. unfold emm_sendAttachReject. does_tac. Qed.
#[export] Instance keeps_TAUReject c : Keeps (emm_sendTAUReject c).
Proof. unfold emm_sendTAUReject. does_tac. Qed.
#[export] Instance keeps_identityReq : Keeps emm_sendIdentityReq.
Proof. unfold emm_sendIdentityReq. does_tac. Qed.
#[export] Instance keeps_TAUAccept : Keeps emm_sendTAUAccept.
Proof. unfold emm_sendTAUAccept. does_tac. Qed.
#[export] Instance keeps_internalSendESM m l : Keeps (emm_internalSendESM m l).
Proof. unfold emm_internalSendESM. does_tac. Qed.
#[export] Instance keeps_firstESM : Keeps emm_processFirstESMmsg.
Proof. unfold emm_processFirstESMmsg. does_tac. Qed.
#[export] Instance keeps_selectGateways : Keeps emm_selectGateways.
Proof. unfold emm_selectGateways. does_tac. Qed.
#[export] Instance keeps_checkIdentity : Keeps emm_checkIdentity.
Proof. unfold emm_checkIdentity. does_tac. Qed.
#[export] Instance keeps_getNH : Keeps emm_getNH.
Proof. unfold emm_getNH. does_tac. Qed.
#[export] Instance keeps_registerECM v : Keeps (emm_registerECM v).
Proof. unfold emm_registerECM. does_tac. Qed.
#[export] Instance keeps_deregister : Keeps emm_deregister.
Proof. unfold emm_deregister. does_tac. Qed.
#[export] Instance keeps_releaseReq : Keeps emm_UEContextReleaseReq.
Proof. unfold emm_UEContextReleaseReq. does_tac. Qed.
#[export] Instance keeps_store_TAI : Keeps store_TAI.
Proof. unfold store_TAI. does_tac. Qed.
#[export] Instance keeps_header b l : Keeps (header b l).
Proof. unfold header. does_tac. Qed.
#[export] Instance keeps_unverified b l : Keeps (unverified b l).
Proof. unfold unverified. does_tac. Qed.
#[export] Instance keeps_detach_request m : Keeps (detach_request m).
Proof. unfold detach_request. does_tac. Qed.
#[export] Instance keeps_identityRsp m : Keeps (processIdentityRsp m).
Proof. unfold processIdentityRsp. does_tac. Qed.
#[export] Instance keeps_unused f : Keeps (release_if_unused f).
Proof. unfold release_if_unused. does_tac. Qed.
#[export] Instance keeps_timer_type b : Keeps (timer_type b).
Proof. unfold timer_type. does_tac. Qed.
#[export] Instance keeps_unreachable : Keeps mobile_unreachable.
Proof. unfold mobile_unreachable. does_tac. Qed.
#[export] Instance keeps_selectUpdateType : Keeps emm_selectUpdateType.
Proof. unfold emm_selectUpdateType. does_tac. Qed.
#[export] Instance keeps_attachAccept m l n : Keeps (emmAttachAccept m l n).
Proof. unfold emmAttachAccept. does_tac. Qed.
#[export] Instance keeps_Dereg_error err : Keeps (Deregistered_processError err).
Proof. unfold Deregistered_processError. does_tac. Qed.
End Keeps.

(** ** Operations that change the state *)

(** The security context is kept and the state is the old one or one of [l]. *)
Definition moves_to (l : list EMMState) (e e' : EMMCtx_t) : Prop :=
  same_sc e e' /\ (stateName e' = stateName e \/ stateName e' ∈ l).

#[export] Instance moves_to_pre l : PreOrder (moves_to l).
Proof.
  split; [intros e; split; [reflexivity|by left]|]. intros a b c [S1 M1] [S2 M2].
  split; [by etransitivity|]. destruct M2 as [->|]; auto.
Qed.

Abbreviation Moves l := (Does (on_ctx (moves_to l))).

Lemma on_ctx_weaken (R R' : EMMCtx_t -> EMMCtx_t -> Prop) : (forall e e', R e e' -> R' e e') ->
  forall s s', on_ctx R s s' -> on_ctx R' s s'.
Proof. intros H s s' Hs e' He'. destruct (Hs _ He') as (e & He & HR). eauto. Qed.

#[export] Instance keeps_moves l A (m : M A) : Keeps m -> Moves l m.
Proof. apply does_weaken, on_ctx_weaken. intros e e' [E S]. by split; [|left]. Qed.

Ltac moves_tac :=
  repeat lazymatch goal with
  | |- Does _ (mbind _ _) => apply does_bind; [typeclasses eauto| |intros]
  | |- Does _ (upd _) => apply keeps_moves, does_upd; intros; repeat split; reflexivity
  | |- Does _ (emmChangeState _) =>
      apply does_upd; intros; split; [repeat split; reflexivity|right; cbn; set_solver]
  | |- Does _ (match ?x with _ => _ end) => destruct x
  | |- Does _ (mret _) => apply does_ret; typeclasses eauto
  | |- Does _ (lift _) => apply does_lift; typeclasses eauto
  | |- Does _ _ => first [assumption | typeclasses eauto | apply keeps_moves; typeclasses eauto]
  end.

Section Moves.
Context {evp : EVP} {hm : HMAC} {ee : EMMEnv}.

#[export] Instance moves_serviceReject c : Moves [EMM_Deregistered] (emm_sendServiceReject c).
Proof. unfold emm_sendServiceReject. moves_tac. Qed.
#[export] Instance moves_authRequest : Moves [EMM_CommonProcedureInitiated] emm_sendAuthRequest.
Proof. unfold emm_sendAuthRequest. moves_tac. Qed.
#[export] Instance moves_SMC : Moves [EMM_CommonProcedureInitiated] emm_sendSecurityModeCommand.
Proof. unfold emm_sendSecurityModeCommand. moves_tac. Qed.
#[export] Instance moves_detachAccept : Moves [EMM_Deregistered] emm_detachAccept.
Proof. unfold emm_detachAccept. moves_tac. Qed.
#[export] Instance moves_stop : Moves [EMM_Deregistered] emm_stop.
Proof. unfold emm_stop. moves_tac. Qed.
#[export] Instance moves_authReject : Moves [EMM_Deregistered] sendAuthReject.
Proof. unfold sendAuthReject. moves_tac. Qed.
#[export] Instance moves_implicit : Moves [EMM_Deregistered] implicit_detach.
Proof. unfold implicit_detach. moves_tac. Qed.
#[export] Instance moves_Common_error err : Moves [EMM_Deregistered] (Common_processError err).
Proof. unfold Common_processError. moves_tac. Qed.
End Moves.
