(* ===== verification/EMMSec.v ===== *)
(** The abstract machine of the mobility management: for every event the changes
    of the state and of the security context that are possible, and the message
    that justifies them.  The handlers refine it; over whole runs it shows that
    a terminal gets a security context only after it has proved to know the key
    of an authentication vector. *)
From coqutil Require Import Datatypes.RecordSetters.
From stdpp Require Import relations.
From S2P Require Import Prelude NASTypes NASIe NASDec NASEnc EIA2 NASSec Timer Subs S11Peer EMMCtx EMM EMMFSM EMMInv.

(** ** Relations that allow what keeps the view before and after *)

Class Compat (R : EMMCtx_t -> EMMCtx_t -> Prop) := {
  compat_stay e e' : same_view e e' -> R e e';
  compat_l e1 e2 e3 : same_view e1 e2 -> R e2 e3 -> R e1 e3;
  compat_r e1 e2 e3 : R e1 e2 -> same_view e2 e3 -> R e1 e3;
}.

Abbreviation Within R := (Does (on_ctx R)).

Lemma within_keep R `{!Compat R} A (m : M A) : Keeps m -> Within R m.
Proof. apply does_weaken, on_ctx_weaken, compat_stay. Qed.

Lemma within_after R `{!Compat R} A B (m : M A) (k : A -> M B) :
  Keeps m -> (forall a, Within R (k a)) -> Within R (m ≫= k).
Proof.
  intros Hm Hk s b s' E e' He'. apply emm_bind_Ok in E as (a & s1 & E1 & E2).
  destruct (Hk a _ _ _ E2 _ He') as (e1 & He1 & H1). destruct (Hm _ _ _ E1 _ He1) as (e & He & H).
  exists e. split; [done|by eapply compat_l].
Qed.

Lemma within_before R `{!Compat R} A B (m : M A) (k : A -> M B) :
  Within R m -> (forall a, Keeps (k a)) -> Within R (m ≫= k).
Proof.
  intros Hm Hk s b s' E e' He'. apply emm_bind_Ok in E as (a & s1 & E1 & E2).
  destruct (Hk a _ _ _ E2 _ He') as (e1 & He1 & H1). destruct (Hm _ _ _ E1 _ He1) as (e & He & H).
  exists e. split; [done|by eapply compat_r].
Qed.

(** What follows [e ← self] may use the state it read. *)
Lemma within_self R A (k : EMMCtx_t -> M A) :
  (forall e0, Within (fun e e' => e = e0 -> R e e') (k e0)) -> Within R (self ≫= k).
Proof.
  intros Hk s a s' E e' He'. apply emm_bind_Ok in E as (e0 & s1 & E1 & E2). apply self_Ok in E1 as [He ->].
  destruct (Hk e0 _ _ _ E2 _ He') as (e & He2 & H). rewrite He in He2. injection He2 as <-. eauto.
Qed.

Lemma within_weaken R R' A (m : M A) : (forall e e', R e e' -> R' e e') -> Within R m -> Within R' m.
Proof. intros H. apply does_weaken, on_ctx_weaken, H. Qed.

Ltac within_tac :=
  repeat lazymatch goal with
  | |- Does _ (mbind _ _) =>
      first [ apply within_keep; [typeclasses eauto|]; solve [does_tac]
            | apply within_after; [typeclasses eauto|solve [typeclasses eauto | does_tac]|intros] ]
  | |- Does _ (match ?x with _ => _ end) => destruct x
  | |- Does _ _ => first [assumption | typeclasses eauto | apply within_keep; [typeclasses eauto|solve [does_tac]]]
  end.

(** ** The start of AKA *)

(** The security context is put aside; the challenge is sent or not. *)
Definition aka (e e' : EMMCtx_t) : Prop :=
  kasme e' = kasme e /\ keys (parser e') = keys (parser e) /\ sci e' = false /\
  (stateName e' = stateName e \/ stateName e' = EMM_CommonProcedureInitiated).

Definition idle (x : EMMState) : Prop := x = EMM_Deregistered \/ x = EMM_Registered.

(** After the security context is gone, in a state where errors are only
    reported. *)
Definition challenge (e e' : EMMCtx_t) : Prop :=
  same_sc e e' /\
  (idle (stateName e) -> stateName e' = stateName e \/ stateName e' = EMM_CommonProcedureInitiated).

#[export] Instance challenge_compat : Compat challenge.
Proof.
  unfold challenge, same_view. split.
  - intros e e' [E S]. eauto.
  - intros e1 e2 e3 [E S] [S' H]. rewrite E in H. split; [by etransitivity|done].
  - intros e1 e2 e3 [S H] [E S']. rewrite E. split; [by etransitivity|done].
Qed.

Lemma moves_challenge A (m : M A) : Moves [EMM_CommonProcedureInitiated] m -> Within challenge m.
Proof. apply within_weaken. intros e e' [S [E|E]]; split; [done|by left|done|right; set_solver]. Qed.

Section AKA.
Context {evp : EVP} {hm : HMAC} {ee : EMMEnv}.

#[export] Instance challenge_request : Within challenge emm_sendAuthRequest.
Proof. apply moves_challenge. apply _. Qed.

#[export] Instance challenge_error err : Within challenge (emm_processS6aError err).
Proof.
  unfold emm_processS6aError. apply within_self. intros e0.
  destruct (stateName e0) eqn:E0; cbn [state_processError].
  1,2,3,5: apply (within_weaken same_view); [by intros e e' V _; apply compat_stay|typeclasses eauto].
  eapply within_weaken; [|apply moves_Common_error]. intros e e' [S _] ->. split; [done|].
  intros [I|I]; congruence.
Qed.

#[export] Instance challenge_getAuth : Within challenge (s6a_GetAuthInformation emm_sendAuthRequest emm_processS6aError).
Proof. unfold s6a_GetAuthInformation. within_tac. Qed.

Lemma removeCurrentSC_Ok s a s' e' : emm_removeCurrentSC s = Ok (a, s') -> ctx s' = Some e' ->
  exists e, ctx s = Some e /\ kasme e' = kasme e /\ parser e' = parser e /\ sci e' = false /\
    stateName e' = stateName e.
Proof.
  intros E He'. unfold emm_removeCurrentSC, upd in E. destruct (ctx s) as [e|]; [|done]. injection E as <- <-.
  cbn in He'. injection He' as <-. exists e. split_and!; reflexivity.
Qed.

(** [emm_triggerAKAprocedure] *)
Lemma trigger_aka s a s' e' : emm_triggerAKAprocedure emm_processS6aError s = Ok (a, s') -> ctx s' = Some e' ->
  exists e, ctx s = Some e /\ (idle (stateName e) -> aka e e').
Proof.
  intros E He'. unfold emm_triggerAKAprocedure in E. apply emm_bind_Ok in E as ([] & s1 & E1 & E).
  enough (exists e1, ctx s1 = Some e1 /\ challenge e1 e') as (e1 & He1 & (K & C & P) & D).
  { destruct (removeCurrentSC_Ok _ _ _ _ E1 He1) as (e & He & K1 & P1 & C1 & S1). exists e. split; [done|].
    intros I. rewrite S1 in D. unfold aka. split_and!; [congruence|congruence|congruence|auto]. }
  clear E1. apply emm_bind_Ok in E as (b & s2 & E2 & E).
  enough (exists e2, ctx s2 = Some e2 /\ challenge e2 e') as (e2 & He2 & D).
  { destruct (keeps_checkIdentity _ _ _ E2 _ He2) as (e1 & He1 & V). exists e1. split; [done|by eapply compat_l]. }
  clear E2. destruct b; cbn [negb] in E.
  2: { refine (moves_challenge _ _ _ _ _ _ E _ He'). moves_tac. }
  apply emm_bind_Ok in E as (b & s3 & E3 & E). unfold emm_checkAuthInformation in E3.
  apply emm_bind_Ok in E3 as (e2 & s2' & E2 & E3). apply self_Ok in E2 as [He2 ->].
  destruct (authQuadrsLen e2 =? 0).
  - apply emm_bind_Ok in E3 as ([] & s4 & E4 & E3). apply ret_Ok in E3 as [-> ->]. cbn [negb] in E.
    apply ret_Ok in E as [_ ->]. exact (challenge_getAuth _ _ _ E4 _ He').
  - apply ret_Ok in E3 as [-> ->]. cbn [negb] in E. refine (moves_challenge _ _ _ _ _ _ E _ He').
    unfold emm_checkSCAvailability. moves_tac.
Qed.
End AKA.

(** ** Timers change nothing else *)

Definition timers_only (e e' : EMMCtx_t) : Prop := exists f, e' = { e with activeTimers := f }.

#[export] Instance timers_only_pre : PreOrder timers_only.
Proof.
  split.
  - intros e. exists (activeTimers e). by destruct e.
  - intros a b c [f ->] [g ->]. by exists g.
Qed.

Section TimersOnly.
Context {evp : EVP} {hm : HMAC} {ee : EMMEnv}.

#[export] Instance only_set_active c x : Within timers_only (set_active c x).
Proof. unfold set_active. apply does_upd. intros e. by eexists. Qed.
#[export] Instance only_free_cb t : Within timers_only (emm_timer_free_cb t).
Proof.
  intros s a s' E. unfold emm_timer_free_cb in E. destruct (tdata s !! t); [|done].
  revert s a s' E. change (Within timers_only (set_active (et_code e) None ;; set_tdata t None)). does_tac.
Qed.
#[export] Instance only_tm_stop t : Within timers_only (emm_tm_stop_timer t).
Proof. unfold emm_tm_stop_timer. does_tac. Qed.
#[export] Instance only_setTimer c m l : Within timers_only (emm_setTimer c m l).
Proof. unfold emm_setTimer. does_tac. Qed.
#[export] Instance only_stopTimer c : Within timers_only (emm_stopTimer c).
Proof. unfold emm_stopTimer. does_tac. Qed.
End TimersOnly.

(** ** The handlers by state *)

Section Handlers.
Context {evp : EVP} {hm : HMAC} {ee : EMMEnv}.

(** Deregistered and Registered: nothing, the start of AKA, or, for a message
    that was verified, a specific procedure under the context there is. *)
Definition reaction (isAuth : bool) (e e' : EMMCtx_t) : Prop :=
  idle (stateName e) ->
  same_view e e' \/ aka e e' \/
  (isAuth = true /\ same_sc e e' /\ stateName e' = EMM_SpecificProcedureInitiated).

#[export] Instance reaction_compat i : Compat (reaction i).
Proof.
  unfold reaction, aka. split.
  - auto.
  - intros e1 e2 e3 [E S] H I. destruct (H ltac:(by rewrite E)) as [V|[(K&P&C&D)|(A&S'&D)]].
    + left. by transitivity e2.
    + right. left. destruct S as (?&?&?). rewrite E in D. split_and!; [congruence|congruence|done|done].
    + right. right. split_and!; [done|by transitivity e2|done].
  - intros e1 e2 e3 H [E S] I. destruct (H I) as [V|[(K&P&C&D)|(A&S'&D)]].
    + left. by transitivity e2.
    + right. left. destruct S as (?&?&?). rewrite E. split_and!; [congruence|congruence|congruence|done].
    + right. right. rewrite E. split_and!; [done|by transitivity e2|done].
Qed.

#[export] Instance reaction_trigger i : Within (reaction i) (emm_triggerAKAprocedure emm_processS6aError).
Proof. intros s a s' E e' He'. destruct (trigger_aka _ _ _ _ E He') as (e & He & H). exists e. split; [done|]. intros I. auto. Qed.

(** The start of a specific procedure. *)
Lemma enter_specific : Within (reaction true) (emmChangeState EMM_SpecificProcedureInitiated).
Proof.
  apply (within_weaken (fun e e' => e' = { e with stateName := EMM_SpecificProcedureInitiated })).
  - intros e e' -> I. right. right. repeat split.
  - by apply does_upd.
Qed.

#[export] Instance reaction_with_context : Within (reaction true) attach_with_context.
Proof.
  unfold attach_with_context. apply within_after; [apply _|does_tac|intros []].
  apply within_before; [apply _|apply enter_specific|intros []; apply _].
Qed.

#[export] Instance reaction_Dereg_plain m : Within (reaction false) (Deregistered_processMsg m).
Proof. unfold Deregistered_processMsg. within_tac. Qed.
#[export] Instance reaction_Dereg_switch i m : Within (reaction i) (Deregistered_switch i m).
Proof. unfold Deregistered_switch. destruct i; cbn [negb]; within_tac. Qed.
#[export] Instance reaction_Reg_plain m : Within (reaction false) (Registered_processMsg m).
Proof. unfold Registered_processMsg. within_tac. Qed.
#[export] Instance reaction_Reg_switch p i m : Within (reaction i) (Registered_switch p i m).
Proof.
  unfold Registered_switch. destruct i; cbn [negb]; within_tac.
  apply enter_specific.
Qed.

(** SpecificProcedureInitiated: a verified message completes the procedure. *)
Definition completion (isAuth : bool) (e e' : EMMCtx_t) : Prop :=
  same_view e e' \/ (isAuth = true /\ same_sc e e' /\ stateName e' = EMM_Registered).

#[export] Instance completion_compat i : Compat (completion i).
Proof.
  unfold completion. split.
  - auto.
  - intros e1 e2 e3 V [V'|(A&S'&D)]; [left; by transitivity e2|right].
    destruct V as [E S]. split_and!; [done|by transitivity e2|done].
  - intros e1 e2 e3 [V'|(A&S'&D)] V; [left; by transitivity e2|right].
    destruct V as [E S]. rewrite E. split_and!; [done|by transitivity e2|done].
Qed.

Lemma enter_registered : Within (completion true) (emmChangeState EMM_Registered).
Proof.
  apply (within_weaken (fun e e' => e' = { e with stateName := EMM_Registered })); [|by apply does_upd].
  intros e e' ->. right. repeat split.
Qed.

Lemma refused_false i m t : NASMessageType_of (eMM_messageType m) = Some t -> refused i m = false ->
  nas_isAuthRequired (enum_val t) = 1 -> i = true.
Proof.
  unfold refused. intros Ht H Hr. pose proof (@enum_of_inv _ NASMessageType_enum _ _ Ht) as Ht'. rewrite <- Ht', Hr in H.
  by destruct i.
Qed.

#[export] Instance completion_switch p i m : Within (completion i) (Specific_switch p i m).
Proof.
  unfold Specific_switch. destruct (refused i m) eqn:Hr; [within_tac|]. destruct (is_ESM p m); [within_tac|].
  destruct (NASMessageType_of (eMM_messageType m)) as [t|] eqn:Ht; [|within_tac]. destruct t; try solve [within_tac].
  - assert (i = true) as -> by (eapply refused_false; eauto).
    apply within_after; [apply _|apply _|intros []]. unfold processAttachComplete.
    apply within_after; [apply _|does_tac|intros c].
    apply within_after; [apply _|does_tac|intros [? ?]].
    apply within_after; [apply _|does_tac|intros []].
    apply within_before; [apply _|apply enter_registered|intros []; apply _].
  - assert (i = true) as -> by (eapply refused_false; eauto).
    do 2 (apply within_after; [apply _|apply _|intros []]). apply enter_registered.
Qed.

(** CommonProcedureInitiated: the answer to the challenge establishes the keys, a
    message verified with them the context. *)
Definition confirmed (m : GenericNASMsg_t) (q : AuthQuadruplet) : Prop := exists r,
  as_AuthenticationResponse m = Ok r /\ lv_l (AR_authParam r) = 8 /\
  take 8 (lv_array (AR_authParam r)) = xRES q.

(** The keys of a K_ASME. *)
Definition keys_of (k : list Z) := keys (nas_setSecurity nas_newHandler NAS_EIA2 NAS_EEA0 k).

Definition agreement (m : GenericNASMsg_t) (e e' : EMMCtx_t) : Prop := exists q,
  head (authQuadrs e) = Some q /\ confirmed m q /\
  stateName e' = EMM_CommonProcedureInitiated /\ sci e' = sci e /\
  kasme e' = kASME q /\ keys (parser e') = keys_of (kASME q).

Definition secured (e e' : EMMCtx_t) : Prop :=
  stateName e' = EMM_SpecificProcedureInitiated /\ sci e' = true /\
  kasme e' = kasme e /\ keys (parser e') = keys (parser e).

Definition common_reaction (isAuth : bool) (m : GenericNASMsg_t) (e e' : EMMCtx_t) : Prop :=
  stateName e = EMM_CommonProcedureInitiated ->
  moves_to [EMM_CommonProcedureInitiated; EMM_Deregistered] e e' \/ agreement m e e' \/
  (isAuth = true /\ secured e e').

Lemma moves_more l l' A (m : M A) : l ⊆ l' -> Moves l m -> Moves l' m.
Proof. intros H. apply within_weaken. intros e e' [S [E|E]]; split; auto. Qed.

Lemma common_moves i m A (x : M A) : Moves [EMM_CommonProcedureInitiated; EMM_Deregistered] x ->
  Within (common_reaction i m) x.
Proof. apply within_weaken. intros e e' H _. by left. Qed.

Lemma after_stopTimer (R : EMMCtx_t -> EMMCtx_t -> Prop) c A (m : M A) :
  (forall f e e', R { e with activeTimers := f } e' -> R e e') -> Within R m -> Within R (emm_stopTimer c ;; m).
Proof.
  intros HR Hm s a s' E e' He'. apply emm_bind_Ok in E as ([] & s1 & E1 & E2).
  destruct (Hm _ _ _ E2 _ He') as (e1 & He1 & H1). destruct (only_stopTimer _ _ _ _ E1 _ He1) as (e & He & f & ->).
  eauto.
Qed.

Lemma set_quadruplet s a s' e' : emm_setSecurityQuadruplet s = Ok (a, s') -> ctx s' = Some e' ->
  exists e q, ctx s = Some e /\ head (authQuadrs e) = Some q /\ kasme e' = kASME q /\
    sci e' = sci e /\ stateName e' = stateName e /\ parser e' = parser e.
Proof.
  intros E He'. unfold emm_setSecurityQuadruplet in E. apply emm_bind_Ok in E as (q & s1 & E1 & E).
  unfold emmCtx_getFirstAuthQuadruplet in E1. apply emm_bind_Ok in E1 as (e & s2 & E2 & E1).
  apply self_Ok in E2 as [He ->]. destruct (authQuadrs e) as [|q' l] eqn:Hq; [done|].
  apply ret_Ok in E1 as [-> ->]. apply emm_bind_Ok in E as ([] & s2 & E2 & E).
  destruct (upd_Ok _ _ _ _ _ E He') as (e2 & He2 & ->). destruct (upd_Ok _ _ _ _ _ E2 He2) as (e1 & He1 & ->).
  rewrite He in He1. injection He1 as <-. exists e, q'. rewrite Hq. split_and!; first [done|reflexivity].
Qed.

Lemma authResp_reaction i m : Within (common_reaction i m) (processAuthResp m).
Proof.
  intros s a s' E e' He'. unfold processAuthResp in E.
  apply emm_bind_Ok in E as (r & s1 & E1 & E). apply emm_lift_Ok in E1 as [Hr ->].
  apply emm_bind_Ok in E as (q & s1 & E1 & E).
  unfold emmCtx_getFirstAuthQuadruplet in E1. apply emm_bind_Ok in E1 as (e & s2 & E2 & E1).
  apply self_Ok in E2 as [He ->]. destruct (authQuadrs e) as [|q' l] eqn:Hq; [done|].
  apply ret_Ok in E1 as [-> ->]. destruct (lv_l (AR_authParam r) =? 8) eqn:Hl; cbn [negb] in E.
  2: { exact (common_moves i m _ _ _ _ _ _ E _ He'). }
  case_bool_decide as Hx; cbn [negb] in E.
  2: { refine (common_moves i m _ _ _ _ _ _ E _ He'). apply (moves_more [EMM_Deregistered]); [set_solver|apply _]. }
  apply emm_bind_Ok in E as ([] & s1 & E1 & E). apply emm_bind_Ok in E as ([] & s2 & E2 & E).
  destruct (moves_SMC _ _ _ E _ He') as (e2 & He2 & (K & C & P) & D).
  destruct (upd_Ok _ _ _ _ _ E2 He2) as (e1 & He1 & ->).
  destruct (set_quadruplet _ _ _ _ E1 He1) as (e0 & q & He0 & Hq0 & K0 & C0 & S0 & P0).
  rewrite He in He0. injection He0 as <-. rewrite Hq in Hq0. injection Hq0 as <-.
  exists e. split; [done|]. intros S. right. left. exists q'. rewrite Hq.
  change (kasme e' = kasme e1) in K. change (sci e' = sci e1) in C.
  change (keys (parser e') = keys_of (kasme e1)) in P. rewrite K0 in *.
  split_and!; [done|by exists r; zbool|..|congruence|done|done].
  change (stateName e' = stateName e1 \/ stateName e' ∈ [EMM_CommonProcedureInitiated]) in D.
  rewrite S0, S in D. set_solver.
Qed.

#[export] Instance moves_authFailure m :
  Moves [EMM_CommonProcedureInitiated; EMM_Deregistered] (processAuthFailure m).
Proof.
  unfold processAuthFailure, s6a_SynchAuthVector, syncError.
  assert (Moves [EMM_CommonProcedureInitiated; EMM_Deregistered] emm_sendAuthRequest)
    by (apply (moves_more [EMM_CommonProcedureInitiated]); [set_solver|apply _]).
  assert (Moves [EMM_CommonProcedureInitiated; EMM_Deregistered] emm_stop)
    by (apply (moves_more [EMM_Deregistered]); [set_solver|apply _]).
  moves_tac.
Qed.

#[export] Instance moves_identity m :
  Moves [EMM_CommonProcedureInitiated; EMM_Deregistered] (identity_response m).
Proof.
  unfold identity_response, s6a_GetAuthInformation, emm_processS6aError.
  assert (Moves [EMM_CommonProcedureInitiated; EMM_Deregistered] emm_sendAuthRequest)
    by (apply (moves_more [EMM_CommonProcedureInitiated]); [set_solver|apply _]).
  assert (forall x err, Moves [EMM_CommonProcedureInitiated; EMM_Deregistered] (state_processError x err)).
  { intros x err. apply (moves_more [EMM_Deregistered]); [set_solver|]. destruct x; cbn [state_processError]; moves_tac. }
  moves_tac.
Qed.

Lemma security_mode_secured s : Within secured (security_mode_complete s).
Proof.
  unfold security_mode_complete. apply after_stopTimer; [by intros f e e' H|].
  destruct (_ =? _) eqn:E; [by destruct (s =? 0)|].
  intros st a st' H e' He'. apply emm_bind_Ok in H as ([] & s1 & E1 & H). apply emm_bind_Ok in H as ([] & s2 & E2 & H).
  unfold s6a_UpdateLocation in H.
  assert (Kl : Keeps (a0 ← env hss_location; match a0 with
     | Loc_profile m s => upd (fun e => { e with e_msisdn := m; subs := s }) ;; emm_selectGateways
     | Loc_failed => emm_selectGateways end)) by does_tac.
  destruct (Kl _ _ _ H _ He') as (e2 & He2 & D & K & C & P).
  destruct (upd_Ok _ _ _ _ _ E2 He2) as (e1 & He1 & ->). destruct (upd_Ok _ _ _ _ _ E1 He1) as (e & He & ->).
  exists e. split; [done|]. repeat split; [exact D|exact C|exact K|exact P].
Qed.

Lemma common_plain m : Within (common_reaction false m) (Common_processMsg m).
Proof.
  unfold Common_processMsg. destruct (negb _); [done|].
  destruct (NASMessageType_of (eMM_messageType m)) as [t|]; [destruct t|];
    try (apply common_moves; solve [moves_tac]).
  apply after_stopTimer; [done|apply authResp_reaction].
Qed.

Lemma common_switch s i m : Within (common_reaction i m) (Common_switch s i m).
Proof.
  unfold Common_switch. destruct (refused i m) eqn:Hr; [apply common_moves; solve [moves_tac]|].
  destruct (NASMessageType_of (eMM_messageType m)) as [t|] eqn:Ht; [destruct t|];
    try (apply common_moves; solve [moves_tac]).
  - apply after_stopTimer; [done|apply authResp_reaction].
  - assert (i = true) as -> by (eapply refused_false; eauto).
    eapply within_weaken; [|apply security_mode_secured]. intros e e' H _. right. right. done.
Qed.
End Handlers.

(** ** The abstract machine *)

Section Machine.
Context {evp : EVP} {hm : HMAC} {ee : EMMEnv}.

(** The message inside of [buf], as one of the decoders reads it. *)
Definition decodes (buf : list Z) (m : GenericNASMsg_t) : Prop :=
  let len := Z.of_nat (length buf) in
  (exists x, dec_NAS buf len = Ok (x, m)) \/
  (exists x, dec_NAS (adv buf 6) (wrap64 (len - 6)) = Ok (x, m)) \/
  (exists h x, dec_secNAS h NAS_UpLink buf len = Ok (x, m)).

(** The code of [buf] was computed with the integrity key of the context, under a
    COUNT of the window. *)
Definition verified (e : EMMCtx_t) (buf : list Z) : Prop := exists h,
  nas_authenticateMsg (parser e) buf (Z.of_nat (length buf)) NAS_UpLink = Ok (1, 1, h).

Inductive abs_step (e : EMMCtx_t) : emm_event -> EMMCtx_t -> Prop :=
  | A_stay ev e' : same_view e e' -> abs_step e ev e'
  | A_stop ev e' : same_sc e e' -> stateName e' = EMM_Deregistered -> abs_step e ev e'
  | A_aka buf e' : idle (stateName e) -> aka e e' -> abs_step e (Ev_msg buf) e'
  | A_agree buf m e' : stateName e = EMM_CommonProcedureInitiated -> decodes buf m -> agreement m e e' ->
      abs_step e (Ev_msg buf) e'
  | A_secured buf e' : stateName e = EMM_CommonProcedureInitiated -> verified e buf -> secured e e' ->
      abs_step e (Ev_msg buf) e'
  | A_accept buf e' : idle (stateName e) -> sci e = true -> verified e buf -> same_sc e e' ->
      stateName e' = EMM_SpecificProcedureInitiated -> abs_step e (Ev_msg buf) e'
  | A_complete buf e' : stateName e = EMM_SpecificProcedureInitiated -> verified e buf -> same_sc e e' ->
      stateName e' = EMM_Registered -> abs_step e (Ev_msg buf) e'
  | A_expired t e' : stateName e = EMM_SpecificProcedureInitiated -> same_sc e e' ->
      stateName e' = EMM_Registered -> abs_step e (Ev_timer t) e'.

Lemma stop_step ev e e' : moves_to [EMM_Deregistered] e e' -> abs_step e ev e'.
Proof. intros [S [E|E]]; [by apply A_stay|apply A_stop; [done|set_solver]]. Qed.

Lemma authenticate_Ok buf len k s a s' e e' : ctx s = Some e -> authenticate buf len k s = Ok (a, s') ->
  ctx s' = Some e' ->
  same_view e e' \/
  exists i h x m s1, dec_secNAS h NAS_UpLink buf len = Ok (x, m) /\ ctx s1 = Some { e with parser := h } /\
    keys h = keys (parser e) /\ k i m s1 = Ok (a, s') /\
    (i = true -> nas_authenticateMsg (parser e) buf len NAS_UpLink = Ok (1, 1, h)).
Proof.
  intros He E He'. unfold authenticate in E. apply emm_bind_Ok in E as (e0 & s1 & E1 & E).
  apply self_Ok in E1 as [He0 ->]. rewrite He in He0. injection He0 as <-.
  apply emm_bind_Ok in E as ([[r i] h] & s1 & E1 & E). apply emm_lift_Ok in E1 as [Ea ->].
  apply emm_bind_Ok in E as ([] & s1 & E1 & E). apply (set_parser_Ok _ _ _ _ _ He) in E1.
  pose proof (auth_keys _ _ _ _ _ _ _ Ea) as Hk.
  destruct (r =? 0); [done|]. destruct (r =? 2).
  { apply ret_Ok in E as [_ ->]. rewrite E1 in He'. injection He' as <-. left. by repeat split. }
  apply emm_bind_Ok in E as ([x m] & s2 & E2 & E). apply emm_lift_Ok in E2 as [Ed ->].
  destruct (x =? 0); [done|]. right. exists (negb (i =? 0)), h, x, m, s1. split_and!; try done.
  intros Hi. destruct (authenticate_cases _ _ _ _ _ _ _ Ea) as [[-> ->]|[-> _]]; [done|done].
Qed.

(** The context behind the first statement of [emm_processMsg]. *)
Lemma abs_step_timers f e ev e' : abs_step { e with activeTimers := f } ev e' -> abs_step e ev e'.
Proof.
  intros H. inversion H; subst.
  - by apply A_stay.
  - by apply A_stop.
  - by apply A_aka.
  - by eapply A_agree.
  - by apply A_secured.
  - by apply A_accept.
  - by apply A_complete.
  - by apply A_expired.
Qed.

Lemma reaction_step e e' buf i : idle (stateName e) -> (i = true -> sci e = true /\ verified e buf) ->
  reaction i e e' -> abs_step e (Ev_msg buf) e'.
Proof.
  intros I Hi H. destruct (H I) as [V|[A|(-> & S & D)]].
  - by apply A_stay.
  - by apply A_aka.
  - destruct (Hi eq_refl). by apply A_accept.
Qed.

Lemma common_step e e' buf i m : stateName e = EMM_CommonProcedureInitiated -> decodes buf m ->
  (i = true -> verified e buf) -> common_reaction i m e e' -> abs_step e (Ev_msg buf) e'.
Proof.
  intros C Hd Hi H. destruct (H C) as [[S D]|[A|[-> S]]].
  - destruct D as [D|D]; [by apply A_stay|].
    apply elem_of_cons in D as [D|D]; [apply A_stay; split; [congruence|done]|].
    apply A_stop; [done|set_solver].
  - by eapply A_agree.
  - apply A_secured; auto.
Qed.

(** A protected message: after the verification the context has another COUNT
    only, which no relation sees. *)
Lemma protected_step (R : bool -> GenericNASMsg_t -> EMMCtx_t -> EMMCtx_t -> Prop) buf k s a s' e e' ev :
  ctx s = Some e -> authenticate buf (Z.of_nat (length buf)) k s = Ok (a, s') -> ctx s' = Some e' ->
  (forall i m, Within (R i m) (k i m)) ->
  (forall i m e1, R i m e1 e' -> same_view e e1 -> authQuadrs e1 = authQuadrs e -> decodes buf m ->
     (i = true -> verified e buf) -> abs_step e ev e') -> abs_step e ev e'.
Proof.
  intros He E He' Hk H. destruct (authenticate_Ok _ _ _ _ _ _ _ _ He E He') as [V|(i&h&x&m&s1&Ed&E1&K&Ek&Hi)].
  - by apply A_stay.
  - destruct (Hk i m _ _ _ Ek _ He') as (e1 & He1 & HR). rewrite E1 in He1. injection He1 as <-.
    apply (H i m { e with parser := h }); [done|by repeat split|done| |].
    + right. right. eauto.
    + intros ->. exists h. auto.
Qed.

Lemma reaction_view i e e1 e' : same_view e e1 -> reaction i e1 e' -> reaction i e e'.
Proof. apply compat_l. Qed.

Lemma common_view i m e e1 e' : same_view e e1 -> authQuadrs e1 = authQuadrs e ->
  common_reaction i m e1 e' -> common_reaction i m e e'.
Proof.
  intros [E (K & C & P)] Hq H I. destruct H as [[(K'&C'&P') D]|[(q & Hq' & F & D & C' & R1 & R2)|[-> (D&C'&K'&P')]]].
  - congruence.
  - left. split; [|rewrite <- E; done]. split_and!; congruence.
  - right. left. exists q. rewrite <- Hq. split_and!; try done. congruence.
  - right. right. split; [done|]. split_and!; try done; congruence.
Qed.

Lemma idle_secured buf s a s' e e' (k : bool -> GenericNASMsg_t -> M unit) :
  ctx s = Some e -> idle (stateName e) -> sci e = true -> (forall i m, Within (reaction i) (k i m)) ->
  authenticate buf (Z.of_nat (length buf)) k s = Ok (a, s') -> ctx s' = Some e' -> abs_step e (Ev_msg buf) e'.
Proof.
  intros He I Hs Hk E He'. eapply protected_step; [done|done|done|intros i m; apply Hk|].
  cbn. intros i m e1 HR V _ _ Hi. apply (reaction_step e e' buf i); [done|auto|by eapply reaction_view].
Qed.

Lemma header_Ok buf l s x s' : header buf l s = Ok (x, s') -> s' = s.
Proof.
  unfold header. intros E. apply emm_bind_Ok in E as (hd & s1 & E1 & E). apply emm_lift_Ok in E1 as [_ ->].
  destruct hd; [|done]. by apply ret_Ok in E as [_ ->].
Qed.
Lemma ecm_Ok s v s' : ecm_ s = Ok (v, s') -> s' = s.
Proof.
  unfold ecm_. intros E. apply emm_bind_Ok in E as (e & s1 & E1 & E). apply self_Ok in E1 as [_ ->].
  destruct (ecm e); [|done]. by apply ret_Ok in E as [_ ->].
Qed.
Lemma unverified_Ok buf l s m s' : unverified buf l s = Ok (m, s') ->
  exists x, dec_NAS (adv buf 6) (wrap64 (l - 6)) = Ok (x, m) /\ s' = s.
Proof.
  unfold unverified. intros E. apply emm_bind_Ok in E as ([x m'] & s1 & E1 & E). apply emm_lift_Ok in E1 as [Ed ->].
  apply ret_Ok in E as [-> ->]. eauto.
Qed.

Section Step.
Context (buf : list Z) (s s' : est) (a : unit) (e e' : EMMCtx_t).
Context (He : ctx s = Some e) (He' : ctx s' = Some e').
Local Abbreviation len := (Z.of_nat (length buf)).

Lemma dereg_sec_step : stateName e = EMM_Deregistered -> Deregistered_processSecMsg buf len s = Ok (a, s') ->
  abs_step e (Ev_msg buf) e'.
Proof.
  intros S E. unfold Deregistered_processSecMsg in E. apply emm_bind_Ok in E as (v & s1 & E1 & E).
  apply ecm_Ok in E1 as ->.
  apply emm_bind_Ok in E as (hd & s1 & E1 & E). apply header_Ok in E1 as ->.
  apply emm_bind_Ok in E as (e2 & s2 & E2 & E). apply self_Ok in E2 as [He2 ->]. rewrite He in He2. injection He2 as <-.
  destruct (sci e) eqn:Hs.
  - refine (idle_secured _ _ _ _ _ _ _ He _ Hs _ E He'). by left.
  - apply emm_bind_Ok in E as (m & s1 & E1 & E). apply unverified_Ok in E1 as (x & Ed & ->).
    destruct (reaction_Dereg_switch false m _ _ _ E _ He') as (e1' & He1 & HR). rewrite He in He1. injection He1 as <-.
    apply (reaction_step e e' buf false); [by left|done|done].
Qed.

Lemma reg_sec_step : stateName e = EMM_Registered -> Registered_processSecMsg buf len s = Ok (a, s') ->
  abs_step e (Ev_msg buf) e'.
Proof.
  intros S E. unfold Registered_processSecMsg in E.
  apply emm_bind_Ok in E as ([h p] & s1 & E1 & E). apply header_Ok in E1 as ->.
  apply emm_bind_Ok in E as (e2 & s2 & E2 & E). apply self_Ok in E2 as [He2 ->]. rewrite He in He2. injection He2 as <-.
  destruct (sci e) eqn:Hs; [cbn [negb] in E|done].
  refine (idle_secured _ _ _ _ _ _ _ He _ Hs _ E He'). by right.
Qed.

Lemma specific_sec_step : stateName e = EMM_SpecificProcedureInitiated ->
  Specific_processSecMsg buf len s = Ok (a, s') -> abs_step e (Ev_msg buf) e'.
Proof.
  intros S E. unfold Specific_processSecMsg in E.
  apply emm_bind_Ok in E as ([h p] & s1 & E1 & E). apply header_Ok in E1 as ->.
  apply emm_bind_Ok in E as (e2 & s2 & E2 & E). apply self_Ok in E2 as [He2 ->]. rewrite He in He2. injection He2 as <-.
  destruct (sci e) eqn:Hs; [cbn [negb] in E|done].
  refine (protected_step (fun i _ => completion i) _ _ _ _ _ _ _ _ He E He' _ _).
  cbn. intros i m e1 [V|(-> & Sc & D)] V1 _ _ Hi; [apply A_stay; by transitivity e1|].
  apply A_complete; [done|auto| |done]. transitivity e1; [apply V1|done].
Qed.

Lemma common_sec_step : stateName e = EMM_CommonProcedureInitiated ->
  Common_processSecMsg buf len s = Ok (a, s') -> abs_step e (Ev_msg buf) e'.
Proof.
  intros S E. unfold Common_processSecMsg in E.
  apply emm_bind_Ok in E as ([h p] & s1 & E1 & E). apply header_Ok in E1 as ->.
  apply emm_bind_Ok in E as (e2 & s2 & E2 & E). apply self_Ok in E2 as [He2 ->]. rewrite He in He2. injection He2 as <-.
  destruct (sci e || _).
  - eapply protected_step; [done|done|done|intros i m; apply common_switch|].
    cbn. intros i m e1 HR V Hq Hd Hi. eapply common_step; [done|done|done|by eapply common_view].
  - apply emm_bind_Ok in E as (m & s1 & E1 & E). apply unverified_Ok in E1 as (x & Ed & ->).
    destruct (common_switch h false m _ _ _ E _ He') as (e1' & He1 & HR). rewrite He in He1. injection He1 as <-.
    apply (common_step e e' buf false m); [done| |done|done]. right. left. eauto.
Qed.

Lemma srvreq_step : stateName e = EMM_Registered -> Registered_processSrvReq buf len s = Ok (a, s') -> same_view e e'.
Proof.
  intros S E. unfold Registered_processSrvReq in E.
  apply emm_bind_Ok in E as ([h p] & s1 & E1 & E). apply header_Ok in E1 as ->.
  apply emm_bind_Ok in E as (e2 & s2 & E2 & E). apply self_Ok in E2 as [He2 ->]. rewrite He in He2. injection He2 as <-.
  destruct (sci e) eqn:Hs; [cbn [negb] in E|done].
  apply emm_bind_Ok in E as ([[r i] n] & s1 & E1 & E). apply emm_lift_Ok in E1 as [Ea ->].
  apply emm_bind_Ok in E as ([] & s1 & E1 & E). apply (set_parser_Ok _ _ _ _ _ He) in E1.
  assert (K : Keeps (if r =? 0 then fault_ Aborted else if r =? 2 then skip
    else if negb (is_enum p EPSMobilityManagementMessages) then skip
    else b1 ← lift (rdi buf 1);
      upd (fun e => { e with msg_ksi := (b1 .& 0xe0) >> 5 }) ;;
      e ← self;
      if negb (ksi e =? msg_ksi e) || (i =? 0) then skip
      else
        upd (fun e => { e with nasUlCountForSC := nas_getLastCount (parser e) NAS_UpLink;
                               s1BearersActive := true }) ;;
        n ← esm_getSessions;
        ecm_sendCtxtSUReq [] 0 n)) by does_tac.
  destruct (K _ _ _ E _ He') as (e1 & He1 & V). rewrite E1 in He1. injection He1 as <-.
  etransitivity; [|exact V]. repeat split. exact (auth_keys _ _ _ _ _ _ _ Ea).
Qed.
End Step.

Lemma state_Ok s st s1 e : state_ s = Ok (st, s1) -> ctx s = Some e -> st = emm_states (stateName e) /\ s1 = s.
Proof.
  intros Es Hs. unfold state_ in Es. apply emm_bind_Ok in Es as (e1 & s2 & E2 & Es).
  apply self_Ok in E2 as [E2 ->]. rewrite Hs in E2. injection E2 as <-. by apply ret_Ok in Es.
Qed.

(** A relation between the contexts before and after. *)
Lemma within_Ok R A (m : M A) s a s' e e' : Within R m -> m s = Ok (a, s') -> ctx s = Some e -> ctx s' = Some e' ->
  R e e'.
Proof. intros Hm E He He'. destruct (Hm _ _ _ E _ He') as (e1 & He1 & V). rewrite He in He1. by injection He1 as <-. Qed.

Section Dispatch.
Context (buf : list Z) (s s' : est) (a : unit) (e e' : EMMCtx_t).
Context (He : ctx s = Some e) (He' : ctx s' = Some e').

Lemma stay_within ev (m : M unit) : Keeps m -> m s = Ok (a, s') -> abs_step e ev e'.
Proof. intros Hm E. apply A_stay. exact (within_Ok _ _ _ _ _ _ _ _ Hm E He He'). Qed.
Lemma stop_within ev (m : M unit) : Moves [EMM_Deregistered] m -> m s = Ok (a, s') -> abs_step e ev e'.
Proof. intros Hm E. apply stop_step. exact (within_Ok _ _ _ _ _ _ _ _ Hm E He He'). Qed.

Lemma plain_dispatch x m : dec_NAS buf (Z.of_nat (length buf)) = Ok (x, m) ->
  processMsg (emm_states (stateName e)) m s = Ok (a, s') -> abs_step e (Ev_msg buf) e'.
Proof.
  intros Ed E. destruct (stateName e) eqn:S; cbn [emm_states] in E.
  - apply (reaction_step e e' buf false); [by left|done|].
    exact (within_Ok _ _ _ _ _ _ _ _ (reaction_Dereg_plain m) E He He').
  - apply (reaction_step e e' buf false); [by right|done|].
    exact (within_Ok _ _ _ _ _ _ _ _ (reaction_Reg_plain m) E He He').
  - exact (stay_within _ skip _ E).
  - apply (common_step e e' buf false m); [done|by left; eauto|done|].
    exact (within_Ok _ _ _ _ _ _ _ _ (common_plain m) E He He').
  - exact (stay_within _ skip _ E).
Qed.

Lemma sec_dispatch : processSecMsg (emm_states (stateName e)) buf (Z.of_nat (length buf)) s = Ok (a, s') ->
  abs_step e (Ev_msg buf) e'.
Proof.
  intros E. destruct (stateName e) eqn:S; cbn [emm_states] in E.
  - exact (dereg_sec_step _ _ _ _ _ _ He He' S E).
  - exact (reg_sec_step _ _ _ _ _ _ He He' S E).
  - exact (specific_sec_step _ _ _ _ _ _ He He' S E).
  - exact (common_sec_step _ _ _ _ _ _ He He' S E).
  - exact (stay_within _ skip _ E).
Qed.

Lemma srv_dispatch : processSrvReq (emm_states (stateName e)) buf (Z.of_nat (length buf)) s = Ok (a, s') ->
  abs_step e (Ev_msg buf) e'.
Proof.
  intros E. destruct (stateName e) eqn:S; cbn [emm_states] in E.
  - exact (stop_within _ _ (moves_serviceReject _) E).
  - apply A_stay. exact (srvreq_step _ _ _ _ _ _ He He' S E).
  - exact (stop_within _ _ moves_stop E).
  - exact (stay_within _ skip _ E).
  - exact (stay_within _ skip _ E).
Qed.
End Dispatch.

(** The context is not freed by a timer that is stopped. *)
Lemma stopTimer_some c s a s' e : emm_stopTimer c s = Ok (a, s') -> ctx s = Some e ->
  exists f, ctx s' = Some { e with activeTimers := f }.
Proof.
  intros E He. unfold emm_stopTimer in E. apply emm_bind_Ok in E as (e0 & s0 & E0 & E). apply self_Ok in E0 as [He0 ->].
  destruct (activeTimers e0 c).
  - pose proof E as E'. apply emm_bind_Ok in E' as ([] & s1 & _ & E1).
    assert (exists e', ctx s' = Some e') as [e' He'].
    { unfold set_active, upd in E1. destruct (ctx s1); [|done]. injection E1 as <- <-. by eexists. }
    assert (W : Within timers_only (emm_tm_stop_timer n ;; set_active c None)) by does_tac.
    destruct (within_Ok _ _ _ _ _ _ _ _ W E He He') as [f ->]. eauto.
  - apply ret_Ok in E as [_ ->]. exists (activeTimers e). rewrite He. by destruct e.
Qed.

(** [emm_processMsg] *)
Lemma message_step buf s a s' e e' : ctx s = Some e -> ctx s' = Some e' ->
  emm_processMsg buf (Z.of_nat (length buf)) s = Ok (a, s') -> abs_step e (Ev_msg buf) e'.
Proof.
  intros He He' E. unfold emm_processMsg in E. apply emm_bind_Ok in E as ([] & s0 & E0 & E).
  apply emm_bind_Ok in E as (hdr & s1 & E1 & E). apply emm_lift_Ok in E1 as [_ ->].
  destruct (stopTimer_some _ _ _ _ _ E0 He) as [f He0]. apply (abs_step_timers f).
  destruct hdr as [[h p]|]; [|done]. destruct (is_enum h PlainNAS).
  { apply emm_bind_Ok in E as ([x m] & s1 & E1 & E). apply emm_lift_Ok in E1 as [Ed ->].
    apply emm_bind_Ok in E as (st & s1 & E1 & E). destruct (state_Ok _ _ _ _ E1 He0) as [-> ->].
    exact (plain_dispatch _ _ _ _ _ _ He0 He' _ _ Ed E). }
  destruct (_ && _).
  { apply emm_bind_Ok in E as (st & s1 & E1 & E). destruct (state_Ok _ _ _ _ E1 He0) as [-> ->].
    exact (sec_dispatch _ _ _ _ _ _ He0 He' E). }
  destruct (is_enum h _).
  { apply emm_bind_Ok in E as (st & s1 & E1 & E). destruct (state_Ok _ _ _ _ E1 He0) as [-> ->].
    exact (srv_dispatch _ _ _ _ _ _ He0 He' E). }
  exact (stay_within _ _ _ _ _ He0 He' _ skip _ E).
Qed.

(** ** Timers *)

Lemma freed_release s : ctx s = None -> forall r, ecm_sendUEContextReleaseCommand CauseNas_normal_release s <> Ok r.
Proof. intros Hs r. unfold ecm_sendUEContextReleaseCommand, mbind, M_bind, self. by rewrite Hs. Qed.

(** Expirations: the state becomes Deregistered, or Registered when a procedure
    was not completed in time. *)
Definition expiry (e e' : EMMCtx_t) : Prop :=
  moves_to [EMM_Deregistered] e e' \/
  (stateName e = EMM_SpecificProcedureInitiated /\ same_sc e e' /\ stateName e' = EMM_Registered).

Lemma expiry_Common_max b c : Moves [EMM_Deregistered] (Common_processTimeoutMax b c).
Proof.
  unfold Common_processTimeoutMax. apply does_bind; [apply _|apply _|intros t].
  destruct c; try solve [moves_tac]. intros s a s' E. exfalso.
  apply emm_bind_Ok in E as ([] & s1 & _ & E). apply emm_bind_Ok in E as ([] & s2 & E2 & E).
  unfold emm_free in E2. apply emm_bind_Ok in E2 as ([] & s3 & _ & [= <-]). by apply freed_release in E.
Qed.

Lemma expiry_cb x s a s' e e' : ctx s = Some e -> ctx s' = Some e' -> emm_timer_cb x s = Ok (a, s') ->
  moves_to [EMM_Deregistered] e e'.
Proof.
  intros He He' E. unfold emm_timer_cb in E. apply emm_bind_Ok in E as (st & s1 & E1 & E).
  destruct (state_Ok _ _ _ _ E1 He) as [-> ->]. refine (within_Ok _ _ _ _ _ _ _ _ _ E He He').
  destruct (stateName e); cbn [emm_states linkEMMDeregistered linkEMMRegistered linkEMMSpecificProcedureInitiated linkEMMCommonProcedureInitiated
    linkEMMDeregisteredInitiated processTimeout].
  - moves_tac.
  - unfold Registered_processTimeout. moves_tac.
  - unfold Specific_processTimeout. moves_tac.
  - unfold Common_processTimeout. moves_tac.
  - moves_tac.
Qed.

Lemma expiry_max_cb x s a s' e e' : ctx s = Some e -> ctx s' = Some e' -> emm_timer_max_cb x s = Ok (a, s') ->
  expiry e e'.
Proof.
  intros He He' E. unfold emm_timer_max_cb in E. apply emm_bind_Ok in E as (st & s1 & E1 & E).
  destruct (state_Ok _ _ _ _ E1 He) as [-> ->].
  destruct (stateName e) eqn:S; cbn [emm_states linkEMMDeregistered linkEMMRegistered linkEMMSpecificProcedureInitiated linkEMMCommonProcedureInitiated
    linkEMMDeregisteredInitiated processTimeoutMax] in E.
  1,2,5: left; refine (within_Ok _ _ _ _ _ _ _ _ _ E He He').
  - assert (W : Moves [EMM_Deregistered; EMM_Registered] (Specific_processTimeoutMax (et_msg x) (et_code x))).
    { unfold Specific_processTimeoutMax.
      assert (Moves [EMM_Deregistered; EMM_Registered] emm_stop) by (apply (moves_more [EMM_Deregistered]); [set_solver|apply _]).
      moves_tac. }
    destruct (within_Ok _ _ _ _ _ _ _ _ W E He He') as [Sc [D|D]]; [left; by split; [|left]|].
    apply elem_of_cons in D as [D|D]; [left; split; [done|right; set_solver]|right].
    split; [done|split; [exact Sc|set_solver]].
  - left. exact (within_Ok _ _ _ _ _ _ _ _ (expiry_Common_max _ _) E He He').
Qed.

Lemma expire_step t s a s' e e' : ctx s = Some e -> ctx s' = Some e' -> emm_expire t s = Ok (a, s') ->
  abs_step e (Ev_timer t) e'.
Proof.
  intros He He' E. unfold emm_expire in E. destruct (timers (tmgr s) !! t) as [x|]; [|done].
  destruct (tdata s !! t) as [d|]; [|done]. destruct (_ <=? _).
  - apply stop_step. refine (expiry_cb d _ _ _ _ _ _ He' E). exact He.
  - apply bind_Ok in E as ([[] s1] & E1 & E).
    assert (exists e1, ctx s1 = Some e1 /\ same_view e1 e') as (e1 & He1 & V).
    { destruct (bool_decide _).
      - exact (keeps_tm_stop _ _ _ _ E _ He').
      - injection E as _ ->. exists e'. split; [done|reflexivity]. }
    assert (expiry e e1) as [Hm|(S & Sc & D)] by (refine (expiry_max_cb d _ _ _ _ _ _ He1 E1); exact He).
    + apply stop_step. destruct V as [D S]. destruct Hm as [S' [D'|D']].
      * split; [by transitivity e1|left; congruence].
      * split; [by transitivity e1|right; by rewrite D].
    + destruct V as [D' S']. apply A_expired; [done|by transitivity e1|congruence].
Qed.

Lemma step_abs s ev s' e e' :
  emm_step s ev s' -> ctx s = Some e -> ctx s' = Some e' -> abs_step e ev e'.
Proof.
  intros [_ E] He He'. destruct ev; cbn [run_event] in E.
  - exact (message_step _ _ _ _ _ _ He He' E).
  - unfold emm_attachAccept in E. apply emm_bind_Ok in E as (st & s1 & E1 & E).
    destruct (state_Ok _ _ _ _ E1 He) as [-> ->]. destruct (stateName e); try done.
    exact (stay_within _ _ _ _ _ He He' _ _ (keeps_attachAccept _ _ _) E).
  - unfold emm_sendESM in E. apply emm_bind_Ok in E as (st & s1 & E1 & E).
    destruct (state_Ok _ _ _ _ E1 He) as [-> ->]. destruct (stateName e); try done;
    exact (stay_within _ _ _ _ _ He He' _ _ (keeps_internalSendESM _ _) E).
  - exact (stop_within _ _ _ _ _ He He' _ _ moves_detachAccept E).
  - exact (stay_within _ _ _ _ _ He He' _ _ _ E).
  - exact (stay_within _ _ _ _ _ He He' _ _ _ E).
  - exact (stay_within _ _ _ _ _ He He' _ _ _ E).
  - exact (stop_within _ _ _ _ _ He He' _ _ moves_stop E).
  - exact (stay_within _ _ _ _ _ He He' _ _ _ E).
  - refine (stay_within _ _ _ _ _ He He' _ _ _ E). unfold emm_modifyE_RABList. does_tac.
  - refine (stay_within _ _ _ _ _ He He' _ _ _ E). unfold discard. does_tac.
  - exact (expire_step _ _ _ _ _ _ He He' E).
Qed.

(** ** The invariant of the security context *)

Lemma verified_valid e buf : verified e buf -> isValid (parser e) = true.
Proof.
  intros [h E]. unfold nas_authenticateMsg in E. apply bind_Ok in E as (hd & _ & E).
  by destruct (isValid (parser e)).
Qed.

Record sec_inv (e : EMMCtx_t) : Prop := {
  inv_keys : isValid (parser e) = true -> keys (parser e) = keys_of (kasme e);
  inv_sci : sci e = true -> isValid (parser e) = true;
  inv_specific : stateName e = EMM_SpecificProcedureInitiated -> sci e = true;
  inv_common : stateName e = EMM_CommonProcedureInitiated -> sci e = false;
  inv_state : stateName e <> EMM_DeregisteredInitiated;
}.

Lemma keys_valid n n' : keys n' = keys n -> isValid n' = isValid n.
Proof. unfold keys. congruence. Qed.

Lemma sec_inv_sc e e' : sec_inv e -> same_sc e e' ->
  (isValid (parser e') = true -> keys (parser e') = keys_of (kasme e')) /\
  (sci e' = true -> isValid (parser e') = true).
Proof.
  intros [K V _ _ _] (HK & HC & HP). apply keys_valid in HP as HV. rewrite HV, HP, HK, HC. auto.
Qed.

Lemma sec_inv_step e ev e' : sec_inv e -> abs_step e ev e' -> sec_inv e'.
Proof.
  intros I H. pose proof I as [K V Sp C St]. inversion H as
    [? ? [E Sc]|? ? Sc D|buf ? Id (HK&HP&HC&D)|buf m ? S Hd (q&Hq&_&D&HC&HK&HP)|buf ? S Hv (D&HC&HK&HP)
    |buf ? Id Hs Hv Sc D|buf ? S Hv Sc D|t ? S Sc D]; subst.
  - destruct (sec_inv_sc _ _ I Sc). destruct Sc as (_ & HC & _).
    split; [done|done|rewrite E, HC; auto|rewrite E, HC; auto|by rewrite E].
  - destruct (sec_inv_sc _ _ I Sc). split; [done|done|congruence..].
  - apply keys_valid in HP as HV.
    split; [rewrite HV, HP, HK; auto|congruence|..]; destruct Id as [Id|Id], D as [D|D]; congruence.
  - specialize (C S). split; [by rewrite HP, HK|..]; congruence.
  - apply keys_valid in HP as HV. apply verified_valid in Hv. split; [rewrite HV, HP, HK; auto|..]; congruence.
  - destruct (sec_inv_sc _ _ I Sc). destruct Sc as (_ & HC & _). split; [done|done|congruence..].
  - destruct (sec_inv_sc _ _ I Sc). split; [done|done|congruence..].
  - destruct (sec_inv_sc _ _ I Sc). split; [done|done|congruence..].
Qed.

Lemma init_inv v n e : ctx (emm_init v init_timerMgr n) = Some e -> sec_inv e.
Proof. intros [= <-]. by split. Qed.

(** C7: in every reachable state of a context the keys in use are those derived
    from K_ASME, a security context that is marked active has keys, a specific
    procedure runs only under an active context and a common procedure only
    without one. *)
Theorem emm_keys_invariant s e : emm_reachable s -> ctx s = Some e -> sec_inv e.
Proof.
  intros H. revert e. induction H as [v n|s ev s' Hr IH Hs]; intros e He.
  - exact (init_inv _ _ _ He).
  - destruct Hs as [[[e0 He0] Hm] Hrun]. apply (sec_inv_step e0 ev); [by apply IH|].
    exact (step_abs _ _ _ _ _ (Emm_step _ _ _ (conj (mk_is_Some _ _ He0) Hm) Hrun) He0 He).
Qed.
(** ** Runs *)

(** The contexts and the events of a run, oldest first. *)
Inductive emm_run (s0 : est) : list (EMMCtx_t * emm_event) -> est -> Prop :=
  | Run_nil : emm_run s0 [] s0
  | Run_step tr s e ev s' : emm_run s0 tr s -> ctx s = Some e -> emm_step s ev s' ->
      emm_run s0 (tr ++ [(e, ev)]) s'.

(** In the run the terminal answered the challenge of a vector with K_ASME [k]. *)
Definition challenged (tr : list (EMMCtx_t * emm_event)) (k : list Z) : Prop :=
  exists tr1 e1 buf m q tr2, tr = tr1 ++ (e1, Ev_msg buf) :: tr2 /\
    stateName e1 = EMM_CommonProcedureInitiated /\ head (authQuadrs e1) = Some q /\
    decodes buf m /\ confirmed m q /\ k = kASME q.

(** ... and later sent a message whose code verified under the keys of [k]. *)
Definition sealed (tr : list (EMMCtx_t * emm_event)) (k : list Z) : Prop :=
  exists tr1 e2 buf tr2, tr = tr1 ++ (e2, Ev_msg buf) :: tr2 /\ challenged tr1 k /\
    verified e2 buf /\ keys (parser e2) = keys_of k.

Lemma challenged_snoc tr x k : challenged tr k -> challenged (tr ++ [x]) k.
Proof.
  intros (tr1 & e1 & buf & m & q & tr2 & -> & H). exists tr1, e1, buf, m, q, (tr2 ++ [x]).
  split; [by rewrite <- app_assoc|done].
Qed.
Lemma sealed_snoc tr x k : sealed tr k -> sealed (tr ++ [x]) k.
Proof.
  intros (tr1 & e2 & buf & tr2 & -> & H). exists tr1, e2, buf, (tr2 ++ [x]). split; [by rewrite <- app_assoc|done].
Qed.

Definition justified (tr : list (EMMCtx_t * emm_event)) (e : EMMCtx_t) : Prop :=
  (isValid (parser e) = true -> challenged tr (kasme e)) /\ (sci e = true -> sealed tr (kasme e)).

Lemma justified_sc tr x e e' : justified tr e -> kasme e' = kasme e -> isValid (parser e') = isValid (parser e) ->
  (sci e' = true -> sci e = true) -> justified (tr ++ [x]) e'.
Proof.
  intros [J1 J2] K V C. split; rewrite K, ?V; auto using challenged_snoc, sealed_snoc.
Qed.

Lemma justified_step tr e ev e' : sec_inv e -> justified tr e -> abs_step e ev e' ->
  justified (tr ++ [(e, ev)]) e'.
Proof.
  intros I J H.
  assert (SC : same_sc e e' -> justified (tr ++ [(e, ev)]) e').
  { intros (K & C & P). apply keys_valid in P. apply (justified_sc _ _ e); congruence || done. }
  inversion H as
    [? ? [E Sc]|? ? Sc D|buf ? Id (HK&HP&HC&D)|buf m ? S Hd (q&Hq&Hc&D&HC&HK&HP)|buf ? S Hv (D&HC&HK&HP)
    |buf ? Id Hs Hv Sc D|buf ? S Hv Sc D|t ? S Sc D]; subst; auto.
  - apply keys_valid in HP. apply (justified_sc _ _ e); congruence || done.
  - split.
    + intros _. rewrite HK. exists tr, e, buf, m, q, []. by split_and!.
    + rewrite HC, (inv_common _ I S). done.
  - apply keys_valid in HP as HV. pose proof (verified_valid _ _ Hv) as Va. destruct J as [J1 J2].
    split.
    + intros _. rewrite HK. apply challenged_snoc. auto.
    + intros _. exists tr, e, buf, []. rewrite HK. split_and!; [done|auto|done|]. exact (inv_keys _ I Va).
Qed.

(** C3: whenever, after any sequence of events, a context has an active security
    context, its K_ASME is that of an authentication vector whose challenge the
    terminal answered with the expected response, and afterwards the terminal
    sent a message whose code verified under the keys derived from that K_ASME. *)
Theorem emm_authenticated v n tr s e :
  emm_run (emm_init v init_timerMgr n) tr s -> ctx s = Some e -> sci e = true ->
  sealed tr (kasme e) /\ keys (parser e) = keys_of (kasme e).
Proof.
  intros H. assert (forall e, ctx s = Some e -> sec_inv e /\ justified tr e) as IH.
  { induction H as [|tr s e1 ev s' Hr IH He1 Hs]; intros e0 He0.
    - split; [exact (init_inv _ _ _ He0)|]. by injection He0 as <-.
    - destruct (IH _ He1) as [I J]. pose proof (step_abs _ _ _ _ _ Hs He1 He0) as A.
      split; [exact (sec_inv_step _ _ _ I A)|exact (justified_step _ _ _ _ I J A)]. }
  intros He Hs. destruct (IH _ He) as [I [_ J]]. split; [by apply J|].
  apply (inv_keys _ I), (inv_sci _ I), Hs.
Qed.

(** C6: every event of a terminal's context is a step of the abstract machine:
    the state of the mobility management and its security context change only as
    the machine allows, a new key needs the answer to the challenge, and a
    specific procedure starts or ends only with a message verified under the keys. *)
Theorem emm_fsm_refines s ev s' e e' :
  emm_step s ev s' -> ctx s = Some e -> ctx s' = Some e' -> abs_step e ev e'.
Proof. apply step_abs. Qed.

(** The runs that [exec] computes. *)
Lemma exec_run evs s0 s : exec evs s0 = Ok s -> exists tr, emm_run s0 tr s /\ map snd tr = evs.
Proof.
  intros H. cut (forall tr s1, emm_run s0 tr s1 -> exec evs s1 = Ok s ->
    exists tr', emm_run s0 tr' s /\ map snd tr' = map snd tr ++ evs).
  { intros C. exact (C [] s0 (Run_nil s0) H). }
  clear H. induction evs as [|ev evs IH]; intros tr s1 R H; cbn [exec] in H.
  - injection H as ->. exists tr. by rewrite app_nil_r.
  - destruct (may_happenb s1 ev) eqn:Hm; [|done]. apply may_happen_spec in Hm.
    apply bind_Ok in H as ([[] s2] & E & H). pose proof Hm as [[e He] _].
    destruct (IH _ _ (Run_step _ _ _ _ _ _ R He (Emm_step _ _ _ Hm E)) H) as (tr' & R' & M).
    exists tr'. split; [done|]. by rewrite M, map_app, <- app_assoc.
Qed.

Lemma exec_reachable evs s0 s : emm_reachable s0 -> exec evs s0 = Ok s -> emm_reachable s.
Proof.
  intros H E. apply exec_run in E as (tr & R & _). induction R; [done|]. eapply Emm_next; eauto.
Qed.

(** What a computed run ends in. *)
Definition ends (evs : list emm_event) (s0 : est) (P : EMMCtx_t -> bool) : bool :=
  match exec evs s0 with
  | Ok s => match ctx s with Some e => P e | None => false end
  | _ => false
  end.
Lemma ends_spec evs s0 P : ends evs s0 P = true ->
  exists s e, exec evs s0 = Ok s /\ ctx s = Some e /\ P e = true.
Proof.
  unfold ends. destruct (exec evs s0) as [s|]; [|done]. destruct (ctx s) as [e|] eqn:E; [|done]. eauto.
Qed.
End Machine.

Section Witness.
#[local] Existing Instance toy_evp.
#[local] Existing Instance toy_hmac.
#[local] Existing Instance toy_env.

Let start : est := emm_init toy_view init_timerMgr 0.

(** After the run of an attach the context is registered with the keys of the vector. *)
Lemma toy_attach_ends : ends toy_attach_run start (fun e =>
  bool_decide (stateName e = EMM_Registered) && sci e && bool_decide (kasme e = kASME toy_vector)) = true.
Proof. vm_compute. reflexivity. Qed.

Lemma emm_keys_invariant_witness : exists s e, exec toy_attach_run start = Ok s /\ ctx s = Some e /\
  stateName e = EMM_Registered /\ sec_inv e.
Proof.
  destruct (ends_spec _ _ _ toy_attach_ends) as (s & e & E & He & P).
  apply andb_true_iff in P as [P _]. apply andb_true_iff in P as [P _]. apply bool_decide_eq_true in P.
  exists s, e. split; [exact E|]. split; [exact He|]. split; [exact P|].
  exact (emm_keys_invariant s e (exec_reachable _ _ _ (Emm_start _ _) E) He).
Defined.

Lemma emm_authenticated_witness : exists tr s e, emm_run start tr s /\ map snd tr = toy_attach_run /\
  ctx s = Some e /\ sci e = true /\ sealed tr (kASME toy_vector).
Proof.
  destruct (ends_spec _ _ _ toy_attach_ends) as (s & e & E & He & P).
  apply andb_true_iff in P as [P K]. apply andb_true_iff in P as [_ C]. apply bool_decide_eq_true in K.
  destruct (exec_run _ _ _ E) as (tr & R & M). exists tr, s, e. rewrite <- K.
  split; [exact R|]. split; [exact M|]. split; [exact He|]. split; [exact C|].
  exact (proj1 (emm_authenticated _ _ _ _ _ R He C)).
Defined.

Lemma emm_fsm_refines_witness : exists s e e', ctx start = Some e /\ ctx s = Some e' /\
  stateName e' = EMM_CommonProcedureInitiated /\ abs_step e (Ev_msg toy_attach_request) e'.
Proof.
  assert (P : ends [Ev_msg toy_attach_request] start
    (fun e => bool_decide (stateName e = EMM_CommonProcedureInitiated)) = true) by (vm_compute; reflexivity).
  destruct (ends_spec _ _ _ P) as (s & e' & E & He' & S). apply bool_decide_eq_true in S.
  destruct (exec_run _ _ _ E) as (tr & R & M). inversion R as [X Y|tr0 s1 e ev s2 R0 He1 Hs X Y].
  { subst. discriminate M. }
  subst. rewrite map_app in M. inversion R0 as [X Y|tr1 s3 e1 ev1 s4 R1 He2 Hs2 X Y]; subst.
  - injection M as ->. exists s, e, e'. split; [exact He1|]. split; [exact He'|]. split; [exact S|].
    exact (emm_fsm_refines _ _ _ _ _ Hs He1 He').
  - exfalso. rewrite map_app in M. apply (f_equal (@length _)) in M. rewrite !length_app in M. cbn in M. lia.
Defined.
End Witness.
