(* ===== verification/EMMTimers.v ===== *)
(** The timers of a terminal's context: [activeTimers], the objects the timers
    point to and the table of the timer manager agree in every reachable state,
    so that timers can always be set, replaced and stopped.  An expiration keeps
    the agreement, and only one uses a freed object: the last of T3470 in the
    state CommonProcedureInitiated.  [Spared] is the calculus of the operations
    that do not. *)
From coqutil Require Import Datatypes.RecordSetters.
From stdpp Require Import fin_maps relations.
From S2P Require Import Prelude NASTypes NASIe NASDec NASEnc EIA2 NASSec Timer Subs S11Peer EMMCtx EMM EMMFSM EMMInv.

Record timers_ok (s : est) : Prop := {
  tk_active e c t : ctx s = Some e -> activeTimers e c = Some t ->
    exists d, tdata s !! t = Some d /\ et_code d = c;
  tk_data t d : tdata s !! t = Some d ->
    is_Some (timers (tmgr s) !! t) /\ forall e, ctx s = Some e -> activeTimers e (et_code d) = Some t;
  tk_mgr t : is_Some (timers (tmgr s) !! t) -> is_Some (tdata s !! t);
  tk_fresh t : (tm_next (tmgr s) <= t)%nat -> tdata s !! t = None;
}.

(** What an operation on timers leaves alone. *)
Definition rest (s s' : est) : Prop :=
  sessions s' = sessions s /\ out s' = out s /\ calls s' = calls s.

(** ** Stopping *)

Definition without (c : EMM_TimerCode) (f : EMM_TimerCode -> option nat) : EMM_TimerCode -> option nat :=
  fun c' => if decide (c' = c) then None else f c'.

Lemma tm_stop_eq s e t d : tdata s !! t = Some d -> is_Some (timers (tmgr s) !! t) -> ctx s = Some e ->
  exists s', emm_tm_stop_timer t s = Ok (tt, s') /\
    ctx s' = Some { e with activeTimers := without (et_code d) (activeTimers e) } /\
    timers (tmgr s') = delete t (timers (tmgr s)) /\ tm_next (tmgr s') = tm_next (tmgr s) /\
    tdata s' = delete t (tdata s) /\ rest s s'.
Proof.
  destruct s as [c m td n o k]. cbn [ctx tmgr tdata]. intros Hd [x Hx] ->.
  unfold emm_tm_stop_timer, tm_, lift, set_tm, mbind, M_bind, tm_stop_timer.
  cbn [tmgr mbind outcome_bind]. rewrite Hx. cbn. unfold emm_timer_free_cb. cbn. rewrite Hd. unfold set_active, upd. cbn.
  eexists. split; [reflexivity|]. unfold free_timer, call, inert, log_cb, with_timers.
  destruct (t_free x); cbn; by repeat split.
Qed.

Lemma tm_stop_ok s s' e t d f : timers_ok s -> tdata s !! t = Some d -> ctx s = Some e ->
  ctx s' = Some { e with activeTimers := f } -> (forall c, f c = without (et_code d) (activeTimers e) c) ->
  timers (tmgr s') = delete t (timers (tmgr s)) -> tm_next (tmgr s') = tm_next (tmgr s) ->
  tdata s' = delete t (tdata s) -> timers_ok s'.
Proof.
  intros [A D G F] Hd He He' Hf Ht Hn Hdt. destruct (D _ _ Hd) as [_ Hact]. specialize (Hact _ He).
  split.
  - intros e1 c t1 He1 Hc. rewrite He' in He1. injection He1 as <-. change (f c = Some t1) in Hc.
    rewrite Hf in Hc. unfold without in Hc. case_decide as Hcd; [done|].
    destruct (A _ _ _ He Hc) as (d1 & Hd1 & Hc1). exists d1. rewrite Hdt.
    rewrite lookup_delete_ne; [done|]. intros ->. congruence.
  - intros t1 d1 Hd1. rewrite Hdt in Hd1. apply lookup_delete_Some in Hd1 as [Hne Hd1].
    destruct (D _ _ Hd1) as [Hm Ha]. split; [by rewrite Ht, lookup_delete_ne|].
    intros e1 He1. rewrite He' in He1. injection He1 as <-. change (f (et_code d1) = Some t1).
    rewrite Hf. unfold without. rewrite (Ha _ He). case_decide as Hcd; [|done].
    rewrite Hcd in Ha. rewrite (Ha _ He) in Hact. congruence.
  - intros t1 H. rewrite Ht in H. destruct H as [x H]. apply lookup_delete_Some in H as [Hne H].
    rewrite Hdt, lookup_delete_ne by done. by apply G.
  - intros t1 H. rewrite Hdt. rewrite Hn in H. destruct (decide (t1 = t)) as [->|Hne].
    + apply lookup_delete_eq.
    + rewrite lookup_delete_ne by done. by apply F.
Qed.

Section Timers.
Context {evp : EVP} {hm : HMAC} {ee : EMMEnv}.

(** [emm_stopTimer] succeeds. *)
Lemma stopTimer_ok s e c : timers_ok s -> ctx s = Some e -> exists s' f,
  emm_stopTimer c s = Ok (tt, s') /\ ctx s' = Some { e with activeTimers := f } /\
  (forall c', f c' = without c (activeTimers e) c') /\ timers_ok s' /\ rest s s'.
Proof.
  intros H He. unfold emm_stopTimer, mbind, M_bind, self. rewrite He. cbn.
  destruct (activeTimers e c) as [t|] eqn:Hc.
  - destruct (tk_active _ H _ _ _ He Hc) as (d & Hd & Hcd).
    destruct (tm_stop_eq _ _ _ _ Hd (proj1 (tk_data _ H _ _ Hd)) He) as (s1 & E1 & He1 & T1 & N1 & D1 & R1).
    rewrite E1. cbn. unfold set_active, upd. rewrite He1. cbn. eexists _, _. split; [reflexivity|].
    split; [reflexivity|]. rewrite Hcd in *. split_and!.
    + intros c'. unfold constant, without. by repeat case_decide.
    + eapply (tm_stop_ok s); [done|done|done|reflexivity| |exact T1|exact N1|exact D1].
      intros c'. unfold constant, without. rewrite Hcd. by repeat case_decide.
    + exact R1.
  - exists s, (activeTimers e). split; [done|]. split; [rewrite He; by destruct e|]. split_and!; [|done|done..].
    intros c'. unfold without. by case_decide as Hd; [rewrite Hd|].
Qed.

(** ** Setting *)

Lemma add_timer_eq m c : c <> TNULL ->
  tm_add_timer m (Some (EMM_tv c)) (EMM_rtx c) true true true =
  (Some (tm_next m),
   {| timers := <[tm_next m := {| t_tv := EMM_tv c; t_max_rtx := EMM_rtx c; t_rtx := 0; t_maxTo := true; t_free := true |}]>
                  (timers m); tm_next := S (tm_next m); tm_log := tm_log m |}).
Proof. by destruct c. Qed.

(** The state with the new timer, before the old one of the same code is stopped. *)
Definition added (s : est) (c : EMM_TimerCode) (d : list Z) : est :=
  let t := tm_next (tmgr s) in
  {| ctx := ctx s;
     tmgr := {| timers := <[t := {| t_tv := EMM_tv c; t_max_rtx := EMM_rtx c; t_rtx := 0; t_maxTo := true; t_free := true |}]>
                            (timers (tmgr s)); tm_next := S t; tm_log := tm_log (tmgr s) |};
     tdata := <[t := {| et_code := c; et_msg := d |}]> (tdata s);
     sessions := sessions s; out := out s; calls := calls s |}.

Definition stop_old (o : option nat) : M unit := match o with Some t => emm_tm_stop_timer t | None => skip end.

Lemma setTimer_eq s e c msg len d : ctx s = Some e -> c <> TNULL -> rdn msg len = Ok d ->
  emm_setTimer c msg len s =
  (stop_old (activeTimers e c) ;; set_active c (Some (tm_next (tmgr s)))) (added s c d).
Proof.
  destruct s as [cx m td n o k]. cbn [ctx]. intros -> Hn Hd. unfold emm_setTimer, mbind, M_bind, lift, tm_.
  rewrite Hd. cbn [mbind outcome_bind tmgr]. rewrite (add_timer_eq _ _ Hn). reflexivity.
Qed.

Lemma stop_old_ok s e c d : timers_ok s -> ctx s = Some e -> exists s2 f,
  stop_old (activeTimers e c) (added s c d) = Ok (tt, s2) /\
  ctx s2 = Some { e with activeTimers := f } /\ (forall c', c' <> c -> f c' = activeTimers e c') /\
  (forall t, timers (tmgr s2) !! t =
     if decide (activeTimers e c = Some t) then None else timers (tmgr (added s c d)) !! t) /\
  (forall t, tdata s2 !! t = if decide (activeTimers e c = Some t) then None else tdata (added s c d) !! t) /\
  tm_next (tmgr s2) = S (tm_next (tmgr s)) /\ rest s s2.
Proof.
  intros H He. destruct (activeTimers e c) as [t'|] eqn:Hc; cbn [stop_old].
  - destruct (tk_active _ H _ _ _ He Hc) as (d' & Hd' & Hcd). destruct (tk_data _ H _ _ Hd') as [Hm _].
    assert (t' <> tm_next (tmgr s)) by (intros ->; rewrite (tk_fresh _ H _ (le_n _)) in Hd'; done).
    destruct (tm_stop_eq (added s c d) e t' d') as (s2 & E2 & He2 & T2 & N2 & D2 & R2);
      [by cbn; rewrite lookup_insert_ne|by cbn; rewrite lookup_insert_ne|exact He|].
    exists s2, (without (et_code d') (activeTimers e)). split_and!; try done.
    + intros c' Hne. unfold without. case_decide; congruence.
    + intros t1. rewrite T2. case_decide as Ht; [injection Ht as ->; by rewrite lookup_delete_eq|].
      rewrite lookup_delete_ne; [done|congruence].
    + intros t1. rewrite D2. case_decide as Ht; [injection Ht as ->; by rewrite lookup_delete_eq|].
      rewrite lookup_delete_ne; [done|congruence].
  - exists (added s c d), (activeTimers e). split; [done|]. split; [cbn; rewrite He; by destruct e|].
    split_and!; try done; intros t1; by rewrite decide_False by done.
Qed.

(** [emm_setTimer] succeeds, also when the timer runs already. *)
Lemma setTimer_ok s e c msg len d : timers_ok s -> ctx s = Some e -> c <> TNULL -> rdn msg len = Ok d ->
  exists s' f, emm_setTimer c msg len s = Ok (tt, s') /\ ctx s' = Some { e with activeTimers := f } /\
    (forall c', f c' = if decide (c' = c) then Some (tm_next (tmgr s)) else activeTimers e c') /\
    timers_ok s' /\ rest s s' /\ tdata s' !! tm_next (tmgr s) = Some {| et_code := c; et_msg := d |}.
Proof.
  intros H He Hn Hd. rewrite (setTimer_eq _ _ _ _ _ _ He Hn Hd). set (t := tm_next (tmgr s)).
  destruct (stop_old_ok s e c d H He) as (s2 & f & E2 & He2 & Hf & T2 & D2 & N2 & R2).
  assert (Hold : forall t', activeTimers e c = Some t' -> t' <> t).
  { intros t' Hc ->. destruct (tk_active _ H _ _ _ He Hc) as (d' & Hd' & _). by rewrite (tk_fresh _ H t (le_n t)) in Hd'. }
  pose (g := fun c' => if decide (c' = c) then Some t else f c').
  exists { s2 with ctx := Some { e with activeTimers := g } }, g.
  assert (Hg : forall c', g c' = if decide (c' = c) then Some t else activeTimers e c').
  { intros c'. unfold g. case_decide; auto. }
  assert (Ht : tdata s2 !! t = Some {| et_code := c; et_msg := d |}).
  { rewrite D2, decide_False by (intros Hc; by apply (Hold t)). cbn. apply lookup_insert_eq. }
  split; [unfold mbind, M_bind; rewrite E2; cbn [mbind outcome_bind]; unfold set_active, upd; by rewrite He2|].
  split; [done|]. split; [done|]. split; [|split; [exact R2|exact Ht]]. split; cbn [ctx tmgr tdata].
  - intros e1 c1 t1 [= <-] Hc1. change (g c1 = Some t1) in Hc1. rewrite Hg in Hc1.
    change (exists d0, tdata s2 !! t1 = Some d0 /\ et_code d0 = c1). case_decide as Hcd.
    + injection Hc1 as <-. eexists. split; [exact Ht|done].
    + destruct (tk_active _ H _ _ _ He Hc1) as (d1 & Hd1 & Hc1'). exists d1. split; [|done].
      rewrite D2, decide_False by (intros Hc; destruct (tk_active _ H _ _ _ He Hc) as (?&?&?); congruence).
      cbn. rewrite lookup_insert_ne; [done|]. intros <-. by rewrite (tk_fresh _ H _ (le_n _)) in Hd1.
  - change (forall t1 d1, tdata s2 !! t1 = Some d1 -> is_Some (timers (tmgr s2) !! t1) /\
      forall e1, Some { e with activeTimers := g } = Some e1 -> activeTimers e1 (et_code d1) = Some t1).
    intros t1 d1 Hd1. rewrite D2 in Hd1. case_decide as Ho; [done|]. rewrite T2, decide_False by done.
    cbn [added tdata tmgr timers] in Hd1 |- *. fold t in Hd1 |- *. destruct (decide (t1 = t)) as [->|Hne].
    + rewrite lookup_insert_eq in Hd1. rewrite lookup_insert_eq. injection Hd1 as <-. split; [done|]. intros e1 [= <-].
      change (g c = Some t). rewrite Hg. by rewrite decide_True.
    + rewrite lookup_insert_ne in Hd1 by done. rewrite lookup_insert_ne by done. destruct (tk_data _ H _ _ Hd1) as [Hm Ha]. split; [done|].
      intros e1 [= <-]. change (g (et_code d1) = Some t1). rewrite Hg. specialize (Ha _ He).
      rewrite decide_False; [done|]. intros Hc. rewrite Hc in Ha. done.
  - change (forall t1, is_Some (timers (tmgr s2) !! t1) -> is_Some (tdata s2 !! t1)). intros t1.
    rewrite T2, D2. case_decide; [by intros []|]. cbn [added tdata tmgr timers]. fold t. intros H1. destruct (decide (t1 = t)) as [->|Hne].
    + by rewrite lookup_insert_eq.
    + rewrite lookup_insert_ne in H1 by done. rewrite lookup_insert_ne by done. by apply (tk_mgr _ H).
  - change (forall t1, (tm_next (tmgr s2) <= t1)%nat -> tdata s2 !! t1 = None). intros t1 Hle. rewrite N2 in Hle.
    rewrite D2. case_decide; [done|]. cbn [added tdata]. rewrite lookup_insert_ne by (unfold t in *; lia).
    apply (tk_fresh _ H). lia.
Qed.

(** ** Every operation keeps the invariant *)

Definition keeps_timers (s s' : est) : Prop := timers_ok s -> timers_ok s'.

#[local] Instance keeps_timers_silent : Silent keeps_timers.
Proof.
  split; [split|].
  - by intros s H.
  - intros s1 s2 s3 H1 H2 H. auto.
  - intros s s' Ec Em Ed [A D G F]. split; rewrite ?Em, ?Ed; [|intros t d Hd; rewrite Ec; auto|done|done].
    rewrite Ec. done.
Qed.

Lemma timers_upd f : (forall e, activeTimers (f e) = activeTimers e) -> Does keeps_timers (upd f).
Proof.
  intros Hf s a s' E [A D G F]. unfold upd in E. destruct (ctx s) as [e|] eqn:He; [|done]. injection E as <- <-.
  split; [|intros t d Hd; destruct (D _ _ Hd) as [Hm Ha]; split; [done|]|done|done].
  - intros e1 c t [= <-]. rewrite Hf. eauto.
  - intros e1 [= <-]. rewrite Hf. auto.
Qed.

#[local] Instance timers_setTimer c msg len : Does keeps_timers (emm_setTimer c msg len).
Proof.
  intros s a s' E H. destruct (rdn msg len) as [d|] eqn:Hd.
  - destruct (decide (c = TNULL)) as [->|Hn].
    { unfold emm_setTimer, mbind, M_bind, lift, tm_ in E. rewrite Hd in E. done. }
    destruct (ctx s) as [e|] eqn:He.
    + destruct (setTimer_ok _ _ _ _ _ _ H He Hn Hd) as (s1 & f & E1 & _ & _ & H1 & _). rewrite E in E1. by injection E1 as _ ->.
    + unfold emm_setTimer, mbind, M_bind, lift, tm_ in E. rewrite Hd in E. cbn [mbind outcome_bind] in E.
      rewrite (add_timer_eq _ _ Hn) in E. unfold set_tm, set_tdata, self in E. destruct s. cbn in He. subst. done.
  - unfold emm_setTimer, mbind, M_bind, lift in E. rewrite Hd in E. done.
Qed.

#[local] Instance timers_stopTimer c : Does keeps_timers (emm_stopTimer c).
Proof.
  intros s a s' E H. destruct (ctx s) as [e|] eqn:He.
  - destruct (stopTimer_ok _ _ c H He) as (s1 & f & E1 & _ & _ & H1 & _). rewrite E in E1. by injection E1 as _ ->.
  - unfold emm_stopTimer, mbind, M_bind, self in E. by rewrite He in E.
Qed.

Lemma timers_tm_stop t s a s' : emm_tm_stop_timer t s = Ok (a, s') -> timers_ok s -> timers_ok s'.
Proof.
  intros E H. destruct (timers (tmgr s) !! t) as [x|] eqn:Hx.
  - destruct (tk_mgr _ H t) as [d Hd]; [by rewrite Hx|]. destruct (ctx s) as [e|] eqn:He.
    + destruct (tm_stop_eq _ _ _ _ Hd (mk_is_Some _ _ Hx) He) as (s1 & E1 & He1 & T1 & N1 & D1 & _).
      rewrite E in E1. injection E1 as _ ->. eapply (tm_stop_ok s); done.
    + destruct s as [cx m td n o k]. cbn [ctx tmgr tdata] in *. subst cx.
      unfold emm_tm_stop_timer, mbind, M_bind, tm_, lift, tm_stop_timer in E. cbn [tmgr mbind outcome_bind] in E.
      rewrite Hx in E. cbn [mbind outcome_bind] in E. unfold set_tm, emm_timer_free_cb, set_active, upd in E. cbn in E.
      rewrite Hd in E. done.
  - destruct s as [cx m td n o k]. cbn [ctx tmgr tdata] in *.
    unfold emm_tm_stop_timer, mbind, M_bind, tm_, lift, tm_stop_timer in E. cbn [tmgr mbind outcome_bind] in E.
    by rewrite Hx in E.
Qed.

#[local] Instance timers_release : Does keeps_timers release_ctx.
Proof.
  intros s a s' [= <- <-] [A D G F]. split; [done|intros t d Hd|done|done].
  destruct (D _ _ Hd) as [Hm _]. by split.
Qed.

Ltac timers_tac :=
  repeat lazymatch goal with
  | |- Does _ (mbind _ _) => apply does_bind; [typeclasses eauto| |intros]
  | |- Does _ (upd _) => apply timers_upd; reflexivity
  | |- Does _ (match ?x with _ => _ end) => destruct x
  | |- Does _ (match ?x with _ => _ end _) => destruct x
  | |- Does _ (mret _) => apply does_ret; typeclasses eauto
  | |- Does _ (lift _) => apply does_lift; typeclasses eauto
  | |- Does _ (emm_setTimer _ _ _) => apply timers_setTimer
  | |- Does _ (emm_stopTimer _) => apply timers_stopTimer
  | |- Does _ (stop_each _) => typeclasses eauto
  | |- Does _ ?m => first [assumption | typeclasses eauto | let h := head m in unfold h; cbn beta]
  end.

#[local] Instance timers_stop_each cs : Does keeps_timers (stop_each cs).
Proof. induction cs; cbn [stop_each]; timers_tac. Qed.
#[local] Instance timers_protect l0 n t plain pl : Does keeps_timers (protect l0 n t plain pl).
Proof. timers_tac. Qed.
#[local] Instance timers_stop : Does keeps_timers emm_stop.
Proof. timers_tac. Qed.
#[local] Instance timers_authRequest : Does keeps_timers emm_sendAuthRequest.
Proof. timers_tac. Qed.
#[local] Instance timers_s6aError err : Does keeps_timers (emm_processS6aError err).
Proof. timers_tac. Qed.
#[local] Instance timers_aka : Does keeps_timers (emm_triggerAKAprocedure emm_processS6aError).
Proof. timers_tac. Qed.
#[local] Instance timers_attach m : Does keeps_timers (processAttach m).
Proof. timers_tac. Qed.
#[local] Instance timers_switch_dereg i m : Does keeps_timers (Deregistered_switch i m).
Proof. timers_tac. Qed.
#[local] Instance timers_switch_common x i m : Does keeps_timers (Common_switch x i m).
Proof. timers_tac. Qed.
#[local] Instance timers_switch_specific x i m : Does keeps_timers (Specific_switch x i m).
Proof. timers_tac. Qed.
#[local] Instance timers_switch_reg x i m : Does keeps_timers (Registered_switch x i m).
Proof. timers_tac. Qed.
#[local] Instance timers_authenticate buf len k : (forall i m, Does keeps_timers (k i m)) ->
  Does keeps_timers (authenticate buf len k).
Proof. intros Hk. timers_tac. Qed.

#[local] Instance timers_state_msg x m : Does keeps_timers (processMsg (emm_states x) m).
Proof. destruct x; cbn; timers_tac. Qed.
#[local] Instance timers_state_sec x b l : Does keeps_timers (processSecMsg (emm_states x) b l).
Proof. destruct x; cbn; timers_tac. Qed.
#[local] Instance timers_state_srv x b l : Does keeps_timers (processSrvReq (emm_states x) b l).
Proof. destruct x; cbn; timers_tac. Qed.
#[local] Instance timers_state_timeout x b c : Does keeps_timers (processTimeout (emm_states x) b c).
Proof. destruct x; cbn; timers_tac. Qed.
#[local] Instance timers_state_max x b c : Does keeps_timers (processTimeoutMax (emm_states x) b c).
Proof. destruct x; cbn; timers_tac. Qed.

(** A handler of the state the context is in. *)
Lemma timers_in_state A (f : EMM_State -> M A) : (forall x, Does keeps_timers (f (emm_states x))) ->
  Does keeps_timers (st ← state_; f st).
Proof.
  intros Hf s a s' E. apply emm_bind_Ok in E as (st & s1 & E1 & E). unfold state_ in E1.
  apply emm_bind_Ok in E1 as (e & s2 & E2 & E1). apply self_Ok in E2 as [_ ->]. apply ret_Ok in E1 as [-> ->].
  exact (Hf _ _ _ _ E).
Qed.

Lemma timers_event ev : (forall t, ev <> Ev_timer t) -> Does keeps_timers (run_event ev).
Proof.
  intros Hev. destruct ev; cbn [run_event]; try by edestruct Hev. 4-11: timers_tac.
  - unfold emm_processMsg. apply does_bind; [apply _|apply timers_stopTimer|intros []].
    apply does_bind; [apply _|apply _|intros hdr]. destruct hdr as [[h p]|]; [|apply _].
    destruct (is_enum h PlainNAS); [|destruct (_ && _); [|destruct (is_enum h _); [|apply _]]].
    + apply does_bind; [apply _|apply _|intros [x m]].
      apply (timers_in_state _ (fun st => processMsg st m)). apply _.
    + apply (timers_in_state _ (fun st => processSecMsg st buf (Z.of_nat (length buf)))). apply _.
    + apply (timers_in_state _ (fun st => processSrvReq st buf (Z.of_nat (length buf)))). apply _.
  - unfold emm_attachAccept. apply (timers_in_state _ (fun st =>
      match attachAccept st with Some f => f esm (Z.of_nat (length esm)) 1%nat | None => fault_ NullCall end)).
    intros []; cbn; timers_tac.
  - unfold emm_sendESM. apply (timers_in_state _ (fun st =>
      match sendESM st with Some f => f esm (Z.of_nat (length esm)) | None => fault_ NullCall end)).
    intros []; cbn; timers_tac.
Qed.

Lemma timers_set_rtx s t x y : timers_ok s -> timers (tmgr s) !! t = Some x ->
  timers_ok { s with tmgr := with_timers (tmgr s) (<[t := y]> (timers (tmgr s))) }.
Proof.
  intros [A D G F] Hx. destruct s as [cx m td n o k]. cbn [ctx tmgr tdata] in *.
  split; cbn [ctx tmgr tdata with_timers timers tm_next apply_update constant].
  - exact A.
  - intros t1 d Hd. destruct (D _ _ Hd) as [Hm Ha]. split; [|done]. cbn. apply lookup_insert_is_Some.
    destruct (decide (t = t1)); auto.
  - cbn. intros t1 H. apply lookup_insert_is_Some in H as [<-|[_ H]]; apply G; [by rewrite Hx|done].
  - exact F.
Qed.

Lemma timers_expire t : Does keeps_timers (emm_expire t).
Proof.
  intros s a s' E H. unfold emm_expire in E. destruct (timers (tmgr s) !! t) as [x|] eqn:Hx; [|done].
  destruct (tdata s !! t) as [d|] eqn:Hd; [|done].
  pose proof (timers_set_rtx s t x (set_rtx x (wrap32 (t_rtx x + 1))) H Hx) as H1.
  destruct (_ <=? _).
  - assert (K : Does keeps_timers (emm_timer_cb d)).
    { apply (timers_in_state _ (fun st => processTimeout st (et_msg d) (et_code d))). apply _. }
    exact (K _ _ _ E H1).
  - apply bind_Ok in E as ([[] s1] & E1 & E).
    assert (K : Does keeps_timers (emm_timer_max_cb d)).
    { apply (timers_in_state _ (fun st => processTimeoutMax st (et_msg d) (et_code d))). apply _. }
    pose proof (K _ _ _ E1 H1) as H2. destruct (bool_decide _); [exact (timers_tm_stop _ _ _ _ E H2)|].
    by injection E as _ ->.
Qed.

(** ** Expirations and freed objects *)

(** No computation on octets touches a freed object. *)
Class Spared {A} (o : outcome A) : Prop := spared : o <> UB UseAfterFree.

#[local] Instance spared_Ok A (a : A) : Spared (Ok a).
Proof. done. Qed.
#[local] Instance spared_bind A B (o : outcome A) (k : A -> outcome B) : Spared o -> (forall a, Spared (k a)) -> Spared (o ≫= k).
Proof. intros H Hk. destruct o as [a|f]; [apply Hk|]. intros [= ->]. by apply H. Qed.
#[local] Instance spared_rdn p n : Spared (rdn p n).
Proof. unfold rdn, Spared. by case_bools. Qed.
#[local] Instance spared_rd p : Spared (rd p).
Proof. by destruct p. Qed.
#[local] Instance spared_rdi p i : Spared (rdi p i).
Proof. unfold rdi. apply _. Qed.
#[local] Instance spared_overwrite d o x : Spared (overwrite d o x).
Proof. unfold overwrite, Spared. by case_bools. Qed.
#[local] Instance spared_poke i b w : Spared (poke i b w).
Proof. unfold poke, Spared. by case_decide. Qed.
#[local] Instance spared_peek i w : Spared (peek i w).
Proof. unfold peek, Spared. by case_match. Qed.
#[local] Instance spared_bump i w : Spared (bump i w).
Proof. done. Qed.
#[local] Instance spared_wseq w1 w2 w : (forall w, Spared (w1 w)) -> (forall w, Spared (w2 w)) -> Spared ((w1 ;;; w2) w).
Proof. intros H1 H2. unfold wseq. apply _. Qed.
#[local] Instance spared_copy n i v w : Spared (copy_loop n i v w).
Proof. revert i w. induction n as [|n IH]; intros i w; cbn [copy_loop]; apply _. Qed.

Ltac spared_tac :=
  repeat lazymatch goal with
  | |- Spared (mbind _ _) => apply spared_bind; [|intros]
  | |- Spared (match ?x with _ => _ end) => destruct x
  | |- Spared ((_ ;;; _) _) => apply spared_wseq; intros
  | |- Spared ?m => first [done | typeclasses eauto | let h := head m in unfold h; cbn beta zeta]
  end.

#[local] Instance spared_update_loop fuel c d n : Spared (update_loop fuel c d n).
Proof. revert c d n. induction fuel as [|fuel IH]; intros c d n; cbn [update_loop]; spared_tac. Qed.
#[local] Instance spared_eia2 k c b d m n : Spared (eia2 k c b d m n).
Proof. spared_tac. Qed.

Lemma spared_table {F} (t : list (option F)) ix : Spared (table_call t ix).
Proof. unfold table_call. by repeat case_match. Qed.
#[local] Instance spared_eia B ix (k : EIAcb -> outcome B) : (Spared (k eia0)) -> (Spared (k eia2)) -> Spared (f ← table_call eia_cb ix; k f).
Proof.
  intros H0 H2. unfold table_call. destruct (eia_cb !! Z.to_nat ix) as [[f|]|] eqn:E; [|done|done]. change (Spared (k f)).
  unfold eia_cb in E. revert E; generalize (Z.to_nat ix); intros j E. do 8 (destruct j as [|j]; [cbn in E; first [discriminate E|injection E as <-; assumption]|cbn in E]). done.
Qed.

#[local] Instance spared_eea B ix (k : EEAcb -> outcome B) : Spared (k eea0_cyph) -> Spared (f ← table_call eea_cyph_cb ix; k f).
Proof.
  intros H0. unfold table_call. destruct (eea_cyph_cb !! Z.to_nat ix) as [[f|]|] eqn:E; [|done|done]. change (Spared (k f)).
  unfold eea_cyph_cb in E. revert E; generalize (Z.to_nat ix); intros j E. do 8 (destruct j as [|j]; [cbn in E; first [discriminate E|injection E as <-; assumption]|cbn in E]). done.
Qed.

#[local] Instance spared_sec n o l p x d plain pl : Spared (newNASMsg_sec n o l p x d plain pl).
Proof.
  unfold newNASMsg_sec. destruct (negb (isValid n)); [done|]. destruct (negb (is_protected x)); [done|].
  apply spared_bind; [destruct (is_ciphered x); [apply spared_eea|]; spared_tac|]. intros [body cl]. destruct (is_ciphered x && _); [done|].
  apply spared_eia; spared_tac.
Qed.

(** A context that exists and whose timers agree with the manager. *)
Definition alive (s : est) : Prop := timers_ok s /\ is_Some (ctx s).

(** Computations that leave the context alive and touch nothing freed, and those
    that moreover always end. *)
Definition spares {A} (m : M A) : Prop := forall s, alive s ->
  match m s with Ok (_, s') => alive s' | UB f => f <> UseAfterFree end.
Definition succeeds {A} (m : M A) : Prop := forall s, alive s -> exists a s', m s = Ok (a, s') /\ alive s'.

Lemma succeeds_spares {A} (m : M A) : succeeds m -> spares m.
Proof. intros H s Hs. by destruct (H s Hs) as (a & s' & -> & ?). Qed.

Lemma spares_bind {A B} (m : M A) (k : A -> M B) : spares m -> (forall a, spares (k a)) -> spares (m ≫= k).
Proof.
  intros H Hk s Hs. specialize (H s Hs). unfold mbind, M_bind. destruct (m s) as [[a s1]|f]; [by apply Hk|done].
Qed.
Lemma succeeds_bind {A B} (m : M A) (k : A -> M B) : succeeds m -> (forall a, succeeds (k a)) -> succeeds (m ≫= k).
Proof.
  intros H Hk s Hs. destruct (H s Hs) as (a & s1 & E & Hs1). destruct (Hk a s1 Hs1) as (b & s2 & E2 & Hs2).
  exists b, s2. split; [|done]. unfold mbind, M_bind. by rewrite E.
Qed.

Lemma succeeds_ret {A} (a : A) : succeeds (mret a : M A).
Proof. intros s Hs. by exists a, s. Qed.
Lemma succeeds_self : succeeds self.
Proof. intros s [H [e He]]. exists e, s. split; [unfold self; by rewrite He|by split; [|exists e]]. Qed.
Lemma succeeds_upd f : (forall e, activeTimers (f e) = activeTimers e) -> succeeds (upd f).
Proof.
  intros Hf s [H [e He]]. assert (E : upd f s = Ok (tt, { s with ctx := Some (f e) })) by (unfold upd; by rewrite He).
  exists tt, { s with ctx := Some (f e) }. split; [done|]. split; [exact (timers_upd f Hf _ _ _ E H)|]. by exists (f e).
Qed.
Lemma succeeds_emit o : succeeds (emit o).
Proof.
  intros s [H [e He]]. exists tt, { s with out := out s ++ [o] }. split; [done|]. split; [|by exists e].
  by apply (silent_same (R := keeps_timers) s { s with out := out s ++ [o] }).
Qed.
Lemma succeeds_errorEMM : succeeds esm_errorEMM.
Proof.
  intros s [H [e He]]. apply (succeeds_emit Esm_errorEMM { s with sessions := O }). split; [|by exists e].
  by apply (silent_same (R := keeps_timers) s { s with sessions := O }).
Qed.
Lemma succeeds_stopTimer c : succeeds (emm_stopTimer c).
Proof.
  intros s [H [e He]]. destruct (stopTimer_ok s e c H He) as (s' & f & E & He' & _ & H' & _).
  exists tt, s'. split; [done|]. split; [done|by eexists].
Qed.
Lemma succeeds_setTimer c : c <> TNULL -> succeeds (emm_setTimer c [] 0).
Proof.
  intros Hn s [H [e He]]. destruct (setTimer_ok s e c [] 0 [] H He Hn eq_refl) as (s' & f & E & He' & _ & H' & _).
  exists tt, s'. split; [done|]. split; [done|by eexists].
Qed.
Lemma spares_lift {A} (o : outcome A) : Spared o -> spares (lift o).
Proof. intros Ho s Hs. unfold lift. destruct o as [a|f]; [exact Hs|]. intros ->. by apply Ho. Qed.
Lemma spares_fault {A} f : f <> UseAfterFree -> spares (fault_ f : M A).
Proof. by intros Hf s _. Qed.

Ltac spares_tac :=
  repeat lazymatch goal with
  | |- spares (mbind _ _) => apply spares_bind; [|intros]
  | |- succeeds (mbind _ _) => apply succeeds_bind; [|intros]
  | |- _ (upd _) => first [apply succeeds_spares, succeeds_upd | apply succeeds_upd]; reflexivity
  | |- spares (match ?x with _ => _ end) => destruct x
  | |- spares (lift _) => apply spares_lift; typeclasses eauto
  | |- spares (fault_ _) => by apply spares_fault
  | |- _ (mret _) => first [apply succeeds_spares, succeeds_ret | apply succeeds_ret]
  | |- _ self => first [apply succeeds_spares, succeeds_self | apply succeeds_self]
  | |- _ (emit _) => first [apply succeeds_spares, succeeds_emit | apply succeeds_emit]
  | |- _ esm_errorEMM => first [apply succeeds_spares, succeeds_errorEMM | apply succeeds_errorEMM]
  | |- _ (emm_stopTimer _) => first [apply succeeds_spares, succeeds_stopTimer | apply succeeds_stopTimer]
  | |- _ (emm_setTimer _ [] 0) => first [apply succeeds_spares; by apply succeeds_setTimer | by apply succeeds_setTimer]
  | |- spares ?m => let h := head m in unfold h; cbn beta zeta
  | |- succeeds ?m => let h := head m in unfold h; cbn beta zeta
  end.

Lemma succeeds_stop : succeeds emm_stop.
Proof. spares_tac. Qed.
Lemma succeeds_stopAll : succeeds emm_stopAllTimers.
Proof. unfold emm_stopAllTimers. induction all_timers as [|c cs IH]; cbn [stop_each]; [spares_tac|]. apply succeeds_bind; [spares_tac|done]. Qed.

Lemma spares_timeout x b c : spares (processTimeout (emm_states x) b c).
Proof. destruct x; cbn; spares_tac. Qed.

(** The last expiration of T3470 in the state CommonProcedureInitiated. *)
Lemma timeout_max x b c s : alive s ->
  match processTimeoutMax (emm_states x) b c s with
  | Ok (_, s') => alive s'
  | UB f => f = UseAfterFree <-> x = EMM_CommonProcedureInitiated /\ c = T3470 /\ (2 <= length b)%nat
  end.
Proof.
  intros Hs. destruct (decide (x = EMM_CommonProcedureInitiated /\ c = T3470 /\ (2 <= length b)%nat)) as [(-> & -> & Lb)|Hn].
  - destruct b as [|? [|? b]]; cbn in Lb; [lia|lia|]. cbn. unfold Common_processTimeoutMax, timer_type.
    destruct (succeeds_stop s Hs) as (? & s1 & E1 & H1). destruct (succeeds_stopAll s1 H1) as (? & s2 & E2 & H2).
    assert (E3 : emm_free s1 = Ok (tt, { { s2 with ctx := None } with sessions := O })) by (unfold emm_free, mbind, M_bind; by rewrite E2).
    assert (E : (emm_stop ;; emm_free ;; ecm_sendUEContextReleaseCommand CauseNas_normal_release) s = UB UseAfterFree)
      by (unfold mbind at 1, M_bind at 1; rewrite E1; cbn [mbind outcome_bind]; unfold mbind at 1, M_bind at 1; by rewrite E3).
    change (match (emm_stop ;; emm_free ;; ecm_sendUEContextReleaseCommand CauseNas_normal_release) s with
      | Ok (_, s') => alive s' | UB f => f = UseAfterFree <-> EMM_CommonProcedureInitiated = EMM_CommonProcedureInitiated /\ T3470 = T3470 /\ (2 <= S (S (length b)))%nat end).
    rewrite E. by repeat split; try lia.
  - assert (S1 : spares (processTimeoutMax (emm_states x) b c) \/ (x = EMM_CommonProcedureInitiated /\ c = T3470)).
    { destruct (decide (x = EMM_CommonProcedureInitiated)) as [->|Hx]; [destruct (decide (c = T3470)) as [->|Hc]; [by right|]|]; left.
      - cbn. unfold Common_processTimeoutMax. destruct c; try done; spares_tac.
      - destruct x; try done; cbn; spares_tac. }
    destruct S1 as [S1|[-> ->]].
    + specialize (S1 s Hs). destruct (processTimeoutMax _ _ _ _) as [[? ?]|f]; [done|]. by split.
    + cbn. unfold Common_processTimeoutMax, timer_type, fault_, mbind, M_bind. destruct b as [|? [|? b]]; [done|done|].
      exfalso. apply Hn. repeat split. cbn. lia.
Qed.

Lemma expire_alive s t x y : alive s -> timers (tmgr s) !! t = Some x ->
  alive { s with tmgr := with_timers (tmgr s) (<[t := y]> (timers (tmgr s))) }.
Proof. intros [H [e He]] Hx. split; [by apply (timers_set_rtx s t x)|]. destruct s. cbn in *. by exists e. Qed.

Lemma in_state {A} (f : EMM_State -> M A) s e : ctx s = Some e -> (st ← state_; f st) s = f (emm_states (stateName e)) s.
Proof. intros He. unfold state_, mbind, M_bind, self. rewrite He. done. Qed.

(** An expiration, whether or not it is the last one. *)
Lemma expire_outcome s t x d e : timers_ok s -> ctx s = Some e -> timers (tmgr s) !! t = Some x -> tdata s !! t = Some d ->
  match emm_expire t s with
  | Ok (_, s') => timers_ok s' /\ is_Some (ctx s') /\ (t_max_rtx x < wrap32 (t_rtx x + 1) -> tdata s' !! t = None)
  | UB f => f = UseAfterFree <->
      t_max_rtx x < wrap32 (t_rtx x + 1) /\ stateName e = EMM_CommonProcedureInitiated /\ et_code d = T3470 /\ (2 <= length (et_msg d))%nat
  end.
Proof.
  intros H He Hx Hd. unfold emm_expire. rewrite Hx, Hd. set (x' := set_rtx x (wrap32 (t_rtx x + 1))).
  set (s1 := { s with tmgr := with_timers (tmgr s) (<[t := x']> (timers (tmgr s))) }).
  assert (A1 : alive s1) by (apply (expire_alive s t x); [by split; [|exists e]|done]).
  assert (He1 : ctx s1 = Some e) by (subst s1; by destruct s).
  change (t_rtx x') with (wrap32 (t_rtx x + 1)). change (t_max_rtx x') with (t_max_rtx x).
  destruct (Z.leb_spec (wrap32 (t_rtx x + 1)) (t_max_rtx x)) as [L|L].
  - unfold emm_timer_cb. rewrite (in_state _ s1 e He1). pose proof (spares_timeout (stateName e) (et_msg d) (et_code d) s1 A1) as S1.
    destruct (processTimeout _ _ _ s1) as [[u s']|f].
    + destruct S1 as [S1 S2]. split; [done|]. split; [done|]. lia.
    + split; [done|lia].
  - unfold emm_timer_max_cb. rewrite (in_state _ s1 e He1). pose proof (timeout_max (stateName e) (et_msg d) (et_code d) s1 A1) as S1.
    destruct (processTimeoutMax _ _ _ s1) as [[u s']|f]; cbn [mbind outcome_bind].
    + destruct S1 as [S1 [e' He']]. case_bool_decide as Ht.
      * destruct (tk_mgr _ S1 t Ht) as [d' Hd']. destruct (tm_stop_eq s' e' t d' Hd' Ht He') as (s2 & E2 & He2 & T2 & N2 & D2 & _).
        rewrite E2. split; [eapply (tm_stop_ok s'); done|]. split; [by rewrite He2|]. intros _. by rewrite D2, lookup_delete_eq.
      * split; [done|]. split; [by exists e'|]. intros _. destruct (tdata s' !! t) as [d'|] eqn:E; [|done].
        by destruct (tk_data _ S1 t d' E) as [? _].
    + rewrite S1. split; [by intros|by intros (_ & ?)].
Qed.

Lemma timers_init v n : timers_ok (emm_init v init_timerMgr n).
Proof. split; cbn; [by intros e c t [= <-]|done|by intros t []|done]. Qed.

Lemma timers_reachable s : emm_reachable s -> timers_ok s.
Proof.
  intros Hr. induction Hr as [v n|s ev s' Hr IH [_ Hs]]; [apply timers_init|].
  destruct ev as [| | | | | | | | | | |t]; [refine (timers_event _ _ _ _ _ Hs IH); done..|].
  exact (timers_expire _ _ _ _ Hs IH).
Qed.

End Timers.

Section Witness.
#[local] Existing Instance toy_evp.
#[local] Existing Instance toy_hmac.
#[local] Existing Instance toy_env.

End Witness.
