(* ===== verification/PER.v ===== *)
(** The PER run time of the S1AP codec (src/S1AP/src/rt_per_bin.c).  All
    functions run on a [struct BinaryData] in one state and error monad.

    [data] is the memory from the pointer [data] to the end of the object and
    [offset] the distance of the pointer [offset] from [data].  A destination
    buffer is given by its size, or [None] when its pointer was never set; the
    octets written into it are returned.  Log output is left out. *)
From S2P Require Import Prelude.

Record BinaryData := { data : list Z; offset : Z; pos : Z; len : Z }.

(** ** The monad *)

Definition P (A : Type) : Type := BinaryData -> outcome (A * BinaryData).
#[export] Instance P_ret : MRet P := fun A a st => Ok (a, st).
#[export] Instance P_bind : MBind P := fun A B k m st => '(a, st) ← m st; k a st.

Definition plift {A} (o : outcome A) : P A := fun st => a ← o; Ok (a, st).
Definition pfault {A} (f : fault) : P A := fun _ => UB f.
Definition get : P BinaryData := fun st => Ok (st, st).
Definition put (st : BinaryData) : P unit := fun _ => Ok (tt, st).
Definition nop : P unit := mret tt.

(** [n] times the same reader. *)
Fixpoint repeatP {A} (n : nat) (m : P A) : P (list A) :=
  match n with O => mret [] | S n => a ← m; l ← repeatP n m; mret (a :: l) end.
(** A writer for each element. *)
Fixpoint eachP {A} (f : A -> P unit) (l : list A) : P unit :=
  match l with [] => nop | a :: l => f a ;; eachP f l end.

Definition MAXDATABYTES : Z := 4096.

(** ** Decoding *)

Definition align_dec : P unit :=
  st ← get;
  if pos st =? 0 then nop
  else put {| data := adv (data st) 1; offset := offset st; pos := 0; len := wrap32 (len st - 8) |}.

Definition getbit : P Z :=
  st ← get;
  let p := if 8 <=? pos st then 0 else pos st in
  byte ← plift (rd (data st));
  put {| data := if p + 1 =? 8 then adv (data st) 1 else data st; offset := offset st; pos := (p + 1) mod 8; len := len st |} ;;
  mret ((byte >> (7 - p)) .& 1).

(** The loop over [tmp]: it changes [tmp[i]] and reads [tmp[i+1]]. *)
Fixpoint getbits_loop (limit : nat) (i num p newused : Z) (tmp : list Z) : outcome (list Z) :=
  match limit with
  | O => Ok []
  | S limit =>
    t ← rd tmp;
    let t := wrap8 (t << p) in
    t ← (if ((i + 1) * 8 <=? num) || (num <? 8) then
           t1 ← rdi tmp 1; Ok (t .| ((t1 .& (0xff << (8 - p))) >> (8 - p)))
         else Ok (t .& (0xff << (8 - newused))));
    r ← getbits_loop limit (i + 1) num p newused (adv tmp 1);
    Ok (wrap8 t :: r)
  end.

Definition fits (cap : option Z) (n : Z) : outcome unit :=
  match cap with None => UB Uninitialised | Some c => if c <? n then UB OutOfBounds else Ok tt end.

Definition octets_up (num : Z) : Z := if num mod 8 =? 0 then num / 8 else num / 8 + 1.

Definition getbits (cap : option Z) (num : Z) : P (list Z) :=
  st ← get;
  if (num mod 8 =? 0) && (pos st =? 0) then
    o ← plift (rdn (data st) (num / 8));
    plift (fits cap (num / 8)) ;;
    put {| data := adv (data st) (num / 8); offset := offset st; pos := pos st; len := wrap32 (len st - num) |} ;;
    mret o
  else
    let newused := (num + pos st) mod 8 in
    let numbytes := octets_up (num + pos st) in
    tmp ← plift (rdn (data st) numbytes);
    o ← (if pos st + num <=? 8 then
           t ← plift (rd tmp); plift (fits cap 1) ;; mret [wrap8 (t << pos st)]
         else
           o ← plift (getbits_loop (Z.to_nat (octets_up num)) 0 num (pos st) newused tmp);
           plift (fits cap (octets_up num)) ;; mret o);
    put {| data := adv (data st) (if newused =? 0 then numbytes else numbytes - 1); offset := offset st;
           pos := newused; len := len st |} ;;
    mret o.

(** [getbits] into a buffer whose first octet is the result. *)
Definition getopt (cap k : Z) : P Z := o ← getbits (Some cap) k; plift (rd o).

(** [getoctets]: [None] when more is asked for than [length] says there is. *)
Definition getoctets (cap : option Z) (num : Z) : P (option (list Z)) :=
  align_dec ;;
  st ← get;
  if len st / 8 <? num then mret None
  else
    o ← plift (rdn (data st) num);
    plift (fits cap num) ;;
    put {| data := adv (data st) num; offset := offset st; pos := pos st; len := wrap32 (len st - num * 8) |} ;;
    mret (Some o).

(** The value of the first [n] bits in a buffer of one octet. *)
Definition bits_value (n : Z) : P Z :=
  o ← getbits (Some MAXDATABYTES) n; b ← plift (rd o); mret ((b .& 0xff) >> (8 - n)).

(** The value of [n] octets, copied into the 4 octets of [val] after they were
    reversed; there is no reversal of 5 octets or more. *)
Definition octets_value (n : Z) : P Z :=
  o ← getoctets (Some MAXDATABYTES) n;
  match o with
  | None => pfault Uninitialised
  | Some o => if 4 <? n then pfault OutOfBounds else mret (be_val o)
  end.

(** [decode_constrained_number]: it calls itself once, for the length. *)
Fixpoint decode_constrained_number_ (fuel : nat) (Lb Ub : Z) : P Z :=
  match fuel with
  | O => pfault Diverges
  | S fuel =>
    let range := wrap64 (Ub - Lb + 1) in
    val ← (if range =? 2 then bits_value 1
           else if range <=? 4 then bits_value 2
           else if range <=? 8 then bits_value 3
           else if range <=? 16 then bits_value 4
           else if range <=? 32 then bits_value 5
           else if range <=? 64 then bits_value 6
           else if range <=? 128 then bits_value 7
           else if range <=? 255 then bits_value 8
           else if range <=? 256 then octets_value 1
           else if range <=? 65536 then octets_value 2
           else if range <=? 0x1000000 then n ← decode_constrained_number_ fuel 1 3; octets_value n
           else if range <=? 0x100000000 then n ← decode_constrained_number_ fuel 1 4; octets_value n
           else if range <=? 0x10000000000 then n ← decode_constrained_number_ fuel 1 5; octets_value n
           else pfault Uninitialised);
    mret (wrap32 (val + Lb))
  end.
Definition decode_constrained_number : Z -> Z -> P Z := decode_constrained_number_ 2.

Definition decode_length_undef : P Z :=
  align_dec ;;
  st ← get;
  b ← plift (rd (data st));
  if (b .& 0x80) =? 0 then
    put {| data := adv (data st) 1; offset := offset st; pos := pos st; len := wrap32 (len st - 8) |} ;;
    mret (b .& 0x7f)
  else if (b .& 0xc0) =? 0x80 then
    v ← plift (rdn (data st) 2);
    put {| data := adv (data st) 2; offset := offset st; pos := pos st; len := wrap32 (len st - 16) |} ;;
    mret (be_val v .& 0x3fff)
  else pfault Uninitialised.

(** [decode_semi_constrained_number]: the destination pointer is never set. *)
Definition decode_semi_constrained_number (Lb : Z) : P Z :=
  n ← decode_length_undef;
  o ← getoctets None n;
  match o with None => pfault Uninitialised | Some o => mret (wrap32 (be_val o + Lb)) end.

(** [decode_small_number]: neither is it here. *)
Definition decode_small_number : P Z :=
  bit ← getbit;
  if bit =? 0 then o ← getbits None 6; plift (rd o)
  else decode_semi_constrained_number 0.

Definition getchoice (numChoices ext : Z) : P Z :=
  if (numChoices =? 1) && (ext =? 0) then mret 0
  else if ext =? 1 then decode_small_number
  else decode_constrained_number 0 (numChoices - 1).

Definition decode_enumerated (Lb Ub : Z) : P Z := decode_constrained_number Lb Ub.

(** [decode_open_type]: the contents as a buffer of their own.  When there are
    not enough octets the buffer stays unset. *)
Definition decode_open_type (cap : Z) : P BinaryData :=
  n ← decode_length_undef;
  o ← getoctets (Some cap) n;
  mret {| data := match o with Some o => o | None => [] end; offset := 0; pos := 0; len := n * 8 |}.

(** [decode_octet_string]: the copy is zeroed before. *)
Definition decode_octet_string (size : Z) : P (list Z) :=
  if size =? 0 then mret []
  else if size =? 1 then getbits (Some 1) 8
  else if size =? 2 then getbits (Some 2) 16
  else if size <=? 65535 then
    o ← getoctets (Some size) size;
    mret (match o with Some o => o | None => repeat 0 (Z.to_nat size) end)
  else mret (repeat 0 (Z.to_nat size)).

(** [decode_known_multiplier_string_PrintableString_withExt] into [str[cap]]:
    the characters before the terminator, [None] when [str] is left alone. *)
Definition decode_PrintableString (cap Lb Ub : Z) : P (option (list Z)) :=
  bit ← getbit;
  if bit =? 0 then
    n ← decode_constrained_number Lb Ub;
    align_dec ;;
    s ← repeatP (Z.to_nat n) (c ← getbits (Some Ub) 8; plift (rd c));
    plift (fits (Some cap) (n + 1)) ;;
    mret (Some s)
  else mret None.

(** [decode_bit_string]: the octets of [tmp] that are not set are shifted out. *)
Definition decode_bit_string (num : Z) : P Z :=
  (if 16 <=? num then align_dec else nop) ;;
  o ← getbits (Some MAXDATABYTES) num;
  plift (fits (Some 4) (octets_up num)) ;;
  mret (be_val (take 4 (o ++ repeat 0 4)) >> (32 - num)).

(** ** Encoding *)

Definition align_enc : P unit :=
  st ← get;
  if pos st =? 0 then nop
  else put {| data := data st; offset := offset st + 1; pos := 0; len := wrap32 (len st + (8 - pos st)) |}.

(** [l[i] |= b] *)
Definition or_at (l : list Z) (i b : Z) : outcome (list Z) :=
  x ← rdi l i; overwrite l i [wrap8 (x .| b)].

Fixpoint setbits_loop (n : nat) (i val off p : Z) (l : list Z) : outcome (list Z) :=
  match n with
  | O => Ok l
  | S n =>
    let byte := wrap8 ((val .& (0xff << (32 - 8 * (i + 1)))) >> (32 - 8 * (i + 1))) in
    l ← or_at l (off + i) (byte >> p);
    l ← or_at l (off + i + 1) ((byte .& (0xff >> (8 - p))) << (8 - p));
    setbits_loop n (i + 1) val off p l
  end.

Definition setbits (numbits val : Z) : P unit :=
  st ← get;
  let numbytes := octets_up numbits in
  l ← plift (
    if numbits + pos st <=? 8 then
      let byte := wrap8 (val .& (0xff >> ((8 - numbits) mod 8))) in
      or_at (data st) (offset st) (byte << ((8 - numbits - pos st) mod 8))
    else if pos st =? 0 then
      overwrite (data st) (offset st) (take (Z.to_nat numbytes) (be32 (wrap32 (val << (32 - numbits)))))
    else
      setbits_loop (Z.to_nat numbytes) 0 (wrap32 (val << (32 - numbits))) (offset st) (pos st) (data st));
  let p := wrap8 (pos st + numbits) in
  put {| data := l; offset := if 8 <=? p then offset st + numbytes else offset st;
         pos := if 8 <=? p then p mod 8 else p; len := wrap32 (len st + numbits) |}.

Definition setoctets (val : list Z) : P unit := align_enc ;; eachP (setbits 8) val.

(** [eint]: the octets of a number, at least one. *)
Fixpoint eint_loop (fuel : nat) (tmp : Z) (acc : list Z) : outcome (list Z) :=
  if tmp =? 0 then Ok acc
  else match fuel with O => UB Diverges | S fuel => eint_loop fuel (tmp >> 8) ((tmp .& 0xff) :: acc) end.
Definition eint (Val2 : Z) : outcome (list Z) :=
  l ← eint_loop 8 Val2 [];
  Ok (match l with [] => [0] | _ => l end).

Fixpoint encode_constrained_number_ (fuel : nat) (Val Lb Ub : Z) : P unit :=
  match fuel with
  | O => pfault Diverges
  | S fuel =>
    let range := wrap64 (Ub - Lb + 1) in
    let Val2 := wrap32 (Val - Lb) in
    let long n := byte ← plift (eint Val); encode_constrained_number_ fuel (Z.of_nat (length byte)) 1 n ;; setoctets byte in
    if range =? 2 then setbits 1 Val2
    else if range <=? 4 then setbits 2 Val2
    else if range <=? 8 then setbits 3 Val2
    else if range <=? 16 then setbits 4 Val2
    else if range <=? 32 then setbits 5 Val2
    else if range <=? 64 then setbits 6 Val2
    else if range <=? 128 then setbits 7 Val2
    else if range <=? 255 then setbits 8 Val2
    else if range <=? 256 then setoctets [wrap8 Val2]
    else if range <=? 65536 then setoctets [(Val2 .& 0xff00) >> 8; Val2 .& 0xff]
    else if range <=? 0x1000000 then long 3
    else if range <=? 0x100000000 then long 4
    else if range <=? 0x10000000000 then long 5
    else nop
  end.
Definition encode_constrained_number : Z -> Z -> Z -> P unit := encode_constrained_number_ 2.

(** [set_choice_ext]: an extension alternative is not encoded. *)
Definition set_choice_ext (choice maxChoices ext : Z) : P unit :=
  setbits 1 ext ;;
  if ext =? 1 then nop
  else if 1 <? maxChoices then encode_constrained_number choice 0 (maxChoices - 1)
  else nop.

(** [encode_unconstrained_number]: nothing is written from 16384 on. *)
Definition encode_unconstrained_number (val : Z) : P unit :=
  if val <? 128 then setoctets [val .& 0x7f]
  else if val <? 16384 then setoctets [((val .& 0x3f00) >> 8) .| 0x80; val .& 0xff]
  else nop.

Definition encode_open_type (o : BinaryData) : P unit :=
  let numBytes := octets_up (len o) in
  encode_unconstrained_number numBytes ;;
  v ← plift (rdn (data o) numBytes);
  setoctets v.

Definition encode_octet_string (str : list Z) (size : Z) : P unit :=
  if size =? 0 then nop
  else if size =? 1 then a ← plift (rd str); setbits 8 a
  else if size =? 2 then a ← plift (rd str); b ← plift (rdi str 1); setbits 16 ((a << 8) .| b)
  else if size <=? 65535 then v ← plift (rdn str size); setoctets v
  else nop.

(** [encode_known_multiplier_string_PrintableString_withExt]; [str] is the
    memory of the string, read up to [str[slen+1]]. *)
Definition encode_PrintableString (Lb Ub : Z) (str : list Z) (slen ext : Z) : P unit :=
  setbits 1 ext ;;
  if negb (ext =? 0) then nop
  else
    encode_constrained_number slen Lb Ub ;;
    align_enc ;;
    v ← plift (rdn str slen);
    eachP (setbits 8) v ;;
    plift (rdi str (slen + 1)) ;; nop.

(** [encode_semi_constrained_number] is not implemented. *)
Definition encode_semi_constrained_number (Lb val : Z) : P unit := nop.

Definition encode_small_number (val : Z) : P unit :=
  if val <=? 63 then setbits 1 0 ;; setbits 6 val
  else setbits 1 1 ;; encode_semi_constrained_number 0 val.

(** ** Open types *)

(** [uint8_t buffer[n]; memset(buffer, 0, n)] *)
Definition new_buffer (n : Z) : BinaryData := {| data := repeat 0 (Z.to_nat n); offset := 0; pos := 0; len := 0 |}.

(** Encode into a buffer of [n] octets, and put it out as an open type. *)
Definition enc_open (n : Z) (e : P unit) : P unit :=
  '(_, tmp) ← plift (e (new_buffer n)); encode_open_type tmp.
(** Get an open type into a buffer of [n] octets and decode from it. *)
Definition dec_open {A} (n : Z) (d : P A) : P A :=
  tmp ← decode_open_type n; '(v, _) ← plift (d tmp); mret v.

(** ** Lists *)

(** The [additem] of a list type: the item is dropped when the list would
    reach its maximum.  [size] is a [uint8_t] but in the two types for groups and
    for the elements of a message; the decoders add at most 255 items. *)
Definition additem {A} (max : Z) (l : list A) (item : A) : list A :=
  if Z.of_nat (length l) + 1 =? max then l else l ++ [item].

(** Decode [n] items and add each to the list. *)
Fixpoint dec_items {A} (n : nat) (max : Z) (d : P A) (l : list A) : P (list A) :=
  match n with O => mret l | S n => item ← d; dec_items n max d (additem max l item) end.
