(* ===== verification/PERBits.v ===== *)
(** Bit-level theory of the PER run time: a buffer is the sequence of its bits,
    most significant first; writers append bits and readers consume them. *)
From S2P Require Import Prelude PER.

(** ** Bits *)

(** Bit [i] of the memory [l]. *)
Definition membit (l : list Z) (i : Z) : bool := Z.testbit (nth (Z.to_nat (i / 8)) l 0) (7 - i mod 8).
(** The low [k] bits of [v]. *)
Definition bits (k : nat) (v : Z) : list bool := map (fun j => Z.testbit v (Z.of_nat k - 1 - Z.of_nat j)) (seq 0 k).
Definition bitn (B : list bool) (i : Z) : bool := nth (Z.to_nat i) B false.
(** Filling up to the next octet after [n] bits. *)
Definition pad (n : nat) : list bool := repeat false (Z.to_nat ((- Z.of_nat n) mod 8)).

Lemma bits_length k v : length (bits k v) = k.
Proof. unfold bits. by rewrite length_map, length_seq. Qed.
Lemma pad_length n : length (pad n) = Z.to_nat ((- Z.of_nat n) mod 8).
Proof. apply repeat_length. Qed.
Lemma pad_aligns n : (Z.of_nat (n + length (pad n))) mod 8 = 0.
Proof. rewrite pad_length. lia. Qed.
Lemma pad_aligned n : Z.of_nat n mod 8 = 0 -> pad n = [].
Proof. intros H. unfold pad. replace ((- Z.of_nat n) mod 8) with 0 by lia. done. Qed.

Lemma bitn_bits k v i : 0 <= i < Z.of_nat k -> bitn (bits k v) i = Z.testbit v (Z.of_nat k - 1 - i).
Proof.
  intros Hi. unfold bitn, bits.
  rewrite (nth_indep _ false ((fun j => Z.testbit v (Z.of_nat k - 1 - Z.of_nat j)) O)) by (rewrite length_map, length_seq; lia).
  rewrite (map_nth (fun j => Z.testbit v (Z.of_nat k - 1 - Z.of_nat j))), seq_nth by lia. f_equal. lia.
Qed.
Lemma bitn_app_l A B i : 0 <= i < Z.of_nat (length A) -> bitn (A ++ B) i = bitn A i.
Proof. intros. unfold bitn. apply app_nth1. lia. Qed.
Lemma bitn_app_r A B i : Z.of_nat (length A) <= i -> bitn (A ++ B) i = bitn B (i - Z.of_nat (length A)).
Proof. intros. unfold bitn. rewrite app_nth2 by lia. f_equal. lia. Qed.
Lemma bitn_high B i : Z.of_nat (length B) <= i -> bitn B i = false.
Proof. intros. unfold bitn. apply nth_overflow. lia. Qed.
Lemma bitn_repeat n i : bitn (repeat false n) i = false.
Proof.
  unfold bitn. destruct (lt_dec (Z.to_nat i) n); [apply nth_repeat_lt; lia|].
  apply nth_overflow. rewrite repeat_length. lia.
Qed.
Lemma bitn_ext A B : length A = length B -> (forall i, 0 <= i < Z.of_nat (length A) -> bitn A i = bitn B i) -> A = B.
Proof.
  intros Hl H. apply (nth_ext _ _ false false Hl). intros n Hn. specialize (H (Z.of_nat n) ltac:(lia)).
  unfold bitn in H. by rewrite Nat2Z.id in H.
Qed.

Lemma byte_bit_high b i : byte_ok b -> 8 <= i -> Z.testbit b i = false.
Proof. intros Hb Hi. apply (high_bits_0 8); [exact Hb|lia]. Qed.

(** Two octets with the same bits. *)
Lemma byte_ext a b : byte_ok a -> byte_ok b -> (forall i, 0 <= i < 8 -> Z.testbit a i = Z.testbit b i) -> a = b.
Proof.
  intros Ha Hb H. apply Z.bits_inj'. intros i Hi. destruct (Z.ltb_spec i 8); [apply H; lia|].
  by rewrite !byte_bit_high by (done || lia).
Qed.

Lemma wrap8_bit x i : 0 <= i < 8 -> Z.testbit (wrap8 x) i = Z.testbit x i.
Proof. intros. apply Z.mod_pow2_bits_low. lia. Qed.
Lemma wrap32_bit x i : 0 <= i < 32 -> Z.testbit (wrap32 x) i = Z.testbit x i.
Proof. intros. apply Z.mod_pow2_bits_low. lia. Qed.
Lemma wrap32_bit_high x i : 32 <= i -> Z.testbit (wrap32 x) i = false.
Proof. intros. apply Z.mod_pow2_bits_high. lia. Qed.

Lemma membit_adv l n i : 0 <= n -> 0 <= i -> membit (adv l n) i = membit l (8 * n + i).
Proof.
  intros Hn Hi. unfold membit, adv. rewrite nth_skipn. f_equal; [f_equal; lia|lia].
Qed.
Lemma membit_app_l a b i : 0 <= i < 8 * Z.of_nat (length a) -> membit (a ++ b) i = membit a i.
Proof. intros. unfold membit. rewrite app_nth1 by lia. done. Qed.
Lemma membit_app_r a b i : 8 * Z.of_nat (length a) <= i ->
  membit (a ++ b) i = membit b (i - 8 * Z.of_nat (length a)).
Proof. intros. unfold membit. rewrite app_nth2 by lia. f_equal; [f_equal; lia|lia]. Qed.
Lemma membit_high l i : 8 * Z.of_nat (length l) <= i -> membit l i = false.
Proof. intros. unfold membit. rewrite nth_overflow by lia. apply Z.bits_0. Qed.
Lemma membit_ext a b : bytes_ok a -> bytes_ok b -> length a = length b ->
  (forall i, 0 <= i < 8 * Z.of_nat (length a) -> membit a i = membit b i) -> a = b.
Proof.
  intros Ha Hb Hl H. apply (nth_ext _ _ 0 0 Hl). intros n Hn. apply byte_ext; [by apply nth_byte..|].
  intros i Hi. specialize (H (8 * Z.of_nat n + (7 - i)) ltac:(lia)). unfold membit in H.
  replace ((8 * Z.of_nat n + (7 - i)) / 8) with (Z.of_nat n) in H by lia. rewrite Nat2Z.id in H.
  by replace (7 - (8 * Z.of_nat n + (7 - i)) mod 8) with i in H by lia.
Qed.

(** Writing octets. *)
Lemma overwrite_nth' l off src r i : overwrite l off src = Ok r -> 0 <= off ->
  nth i r 0 = if (off <=? Z.of_nat i) && (Z.of_nat i <? off + Z.of_nat (length src))
              then nth (i - Z.to_nat off) src 0 else nth i l 0.
Proof.
  unfold overwrite. destruct (Z.ltb_spec (Z.of_nat (length l)) (off + Z.of_nat (length src))); [done|].
  intros [= <-] Ho. destruct (Z.leb_spec off (Z.of_nat i)), (Z.ltb_spec (Z.of_nat i) (off + Z.of_nat (length src))); cbn [andb].
  - rewrite app_nth2; rewrite length_take; [|lia]. rewrite app_nth1 by lia. f_equal. lia.
  - rewrite app_nth2; rewrite length_take; [|lia]. rewrite app_nth2 by lia. rewrite nth_skipn. f_equal. lia.
  - rewrite app_nth1; [|rewrite length_take; lia]. rewrite nth_firstn. by destruct (Nat.ltb_spec i (Z.to_nat off)); [|lia].
  - lia.
Qed.

Lemma overwrite_bytes l off src r : overwrite l off src = Ok r -> bytes_ok l -> bytes_ok src -> bytes_ok r.
Proof.
  unfold overwrite. destruct (_ <? _); [done|]. intros [= <-] Hl Hs.
  apply Forall_app. split; [by apply Forall_take|]. apply Forall_app. split; [done|by apply Forall_drop].
Qed.

Lemma or_at_ok l i b : 0 <= i < Z.of_nat (length l) -> bytes_ok l ->
  exists r, or_at l i b = Ok r /\ length r = length l /\ bytes_ok r /\
    forall j, 0 <= j -> membit r j = membit l j || ((j / 8 =? i) && Z.testbit b (7 - j mod 8)).
Proof.
  intros Hi Hl. unfold or_at. rewrite rdi_nth by done. osimp.
  assert (E : exists r, overwrite l i [wrap8 (nth (Z.to_nat i) l 0 .| b)] = Ok r).
  { unfold overwrite. cbn [length]. destruct (Z.ltb_spec (Z.of_nat (length l)) (i + Z.of_nat 1)); [lia|]. by eexists. }
  destruct E as [r E]. exists r. split; [done|]. split; [eapply overwrite_length; [|done]; lia|]. split.
  { eapply overwrite_bytes; [done..|]. constructor; [apply wrap8_byte|done]. }
  intros j Hj. unfold membit. rewrite (overwrite_nth' _ _ _ _ _ E) by lia. cbn [length].
  rewrite Z2Nat.id by lia. destruct (Z.eqb_spec (j / 8) i) as [<-|Hne].
  - destruct (Z.leb_spec (j / 8) (j / 8)), (Z.ltb_spec (j / 8) (j / 8 + Z.of_nat 1)); try lia. cbn [andb].
    rewrite Nat.sub_diag. cbn [nth]. rewrite wrap8_bit by lia. by rewrite Z.lor_spec.
  - destruct (Z.leb_spec i (j / 8)), (Z.ltb_spec (j / 8) (i + Z.of_nat 1)); try lia; cbn [andb]; by rewrite orb_false_r.
Qed.

(** ** Writers *)

(** The buffer holds the bits [B] and zeros after them. *)
Record holds (st : BinaryData) (B : list bool) : Prop := {
  h_bits : forall i, 0 <= i -> membit (data st) i = bitn B i;
  h_bytes : bytes_ok (data st);
  h_len : len st = Z.of_nat (length B);
  h_size : Z.of_nat (length (data st)) < 2^28;
}.
(** And the next bit is written after them. *)
Record writing (st : BinaryData) (B : list bool) : Prop := {
  w_holds : holds st B;
  w_pos : pos st = Z.of_nat (length B) mod 8;
  w_off : offset st = Z.of_nat (length B) / 8;
}.
(** There is room for [n] bits, and one octet more that is touched. *)
Definition room (st : BinaryData) (B : list bool) (n : nat) : Prop :=
  Z.of_nat (length B + n) + 8 <= 8 * Z.of_nat (length (data st)).

Lemma octets_up_spec n : 0 <= n -> octets_up n = (n + 7) / 8.
Proof. intros. unfold octets_up. destruct (Z.eqb_spec (n mod 8) 0); lia. Qed.

Lemma be32_nth x i : 0 <= i < 4 -> 0 <= x < 2^32 ->
  forall j, 0 <= j < 8 -> Z.testbit (nth (Z.to_nat i) (be32 x) 0) j = Z.testbit x (24 - 8 * i + j).
Proof.
  intros Hi Hx j Hj. assert (G : forall s, 0 <= s -> Z.testbit ((x >> s) .& 0xff) j = Z.testbit x (s + j)).
  { intros s Hs. rewrite Z.land_spec, Z.shiftr_spec by lia. change 0xff with (Z.ones 8).
    rewrite Z.ones_spec_low by lia. rewrite andb_true_r. f_equal. lia. }
  assert (i = 0 \/ i = 1 \/ i = 2 \/ i = 3) as [-> | [-> | [-> | ->]]] by lia; unfold be32; cbn [nth Z.to_nat Pos.to_nat Pos.iter_op].
  - exact (G 24 ltac:(lia)).
  - exact (G 16 ltac:(lia)).
  - exact (G 8 ltac:(lia)).
  - pose proof (G 0 ltac:(lia)) as G0. rewrite Z.shiftr_0_r in G0. exact G0.
Qed.

(** The unaligned loop: it ors the first [8 n] bits of [val] from bit
    [8 off + p] on. *)
Lemma setbits_loop_ok n : forall i val off p l, 0 <= i -> i + Z.of_nat n <= 4 -> 0 < p < 8 -> 0 <= off ->
  off + i + Z.of_nat n < Z.of_nat (length l) -> bytes_ok l -> 0 <= val < 2^32 ->
  exists r, setbits_loop n i val off p l = Ok r /\ length r = length l /\ bytes_ok r /\
    forall j, 0 <= j -> membit r j =
      membit l j || ((8 * (off + i) + p <=? j) && (j <? 8 * (off + i + Z.of_nat n) + p) && Z.testbit val (31 - (j - 8 * off - p))).
Proof.
  induction n as [|n IH]; intros i val off p l Hi Hn Hp Ho Hlen Hl Hv.
  { exists l. split; [done|]. split; [done|]. split; [done|]. intros j Hj.
    destruct (Z.leb_spec (8 * (off + i) + p) j), (Z.ltb_spec j (8 * (off + i + Z.of_nat 0) + p)); try lia; cbn [andb]; by rewrite orb_false_r. }
  cbn [setbits_loop].
  set (byte := wrap8 ((val .& (0xff << (32 - 8 * (i + 1)))) >> (32 - 8 * (i + 1)))).
  assert (Hb : forall k, 0 <= k < 8 -> Z.testbit byte k = Z.testbit val (24 - 8 * i + k)).
  { intros k Hk. unfold byte. rewrite wrap8_bit, Z.shiftr_spec, Z.land_spec, Z.shiftl_spec by lia.
    replace (k + (32 - 8 * (i + 1)) - (32 - 8 * (i + 1))) with k by lia. change 0xff with (Z.ones 8).
    rewrite Z.ones_spec_low by lia. rewrite andb_true_r. f_equal. lia. }
  destruct (or_at_ok l (off + i) (byte >> p)) as (l1 & E1 & L1 & B1 & M1); [lia|done|].
  destruct (or_at_ok l1 (off + i + 1) ((byte .& (0xff >> (8 - p))) << (8 - p))) as (l2 & E2 & L2 & B2 & M2); [lia|done|].
  destruct (IH (i + 1) val off p l2) as (r & E & L & B & M); [lia..|done|done|].
  exists r. rewrite E1. osimp. rewrite E2. osimp. split; [done|]. split; [lia|]. split; [done|].
  intros j Hj. rewrite M, M2, M1 by done. rewrite <- !orb_assoc. f_equal. clear IH M M1 M2 E E1 E2.
  assert (G1 : forall k, 0 <= k < 8 -> Z.testbit (byte >> p) k = (k + p <? 8) && Z.testbit val (24 - 8 * i + k + p)).
  { intros k Hk. rewrite Z.shiftr_spec by lia. destruct (Z.ltb_spec (k + p) 8); cbn [andb].
    - rewrite Hb by lia. f_equal. lia.
    - apply byte_bit_high; [apply wrap8_byte|lia]. }
  assert (G2 : forall k, 0 <= k < 8 -> Z.testbit ((byte .& (0xff >> (8 - p))) << (8 - p)) k =
    (8 - p <=? k) && Z.testbit val (24 - 8 * i + k - (8 - p))).
  { intros k Hk. rewrite Z.shiftl_spec by lia. destruct (Z.leb_spec (8 - p) k); cbn [andb].
    - rewrite Z.land_spec, Hb, Z.shiftr_spec by lia. change 0xff with (Z.ones 8). rewrite Z.ones_spec_low by lia.
      rewrite andb_true_r. f_equal. lia.
    - by apply Z.testbit_neg_r; lia. }
  rewrite G1, G2 by lia.
  destruct (Z.eqb_spec (j / 8) (off + i)) as [Ea|Ea]; cbn [andb].
  - destruct (Z.eqb_spec (j / 8) (off + i + 1)); [lia|]. cbn [andb orb].
    destruct (Z.leb_spec (8 * (off + (i + 1)) + p) j); [lia|]. cbn [andb]. rewrite orb_false_r.
    destruct (Z.ltb_spec (7 - j mod 8 + p) 8), (Z.leb_spec (8 * (off + i) + p) j); try lia; cbn [andb].
    destruct (Z.ltb_spec j (8 * (off + i + Z.of_nat (S n)) + p)); [|lia]. cbn [andb]. f_equal. lia.
  - cbn [orb]. destruct (Z.eqb_spec (j / 8) (off + i + 1)) as [Eb|Eb]; cbn [andb orb].
    + destruct (Z.leb_spec (8 - p) (7 - j mod 8)), (Z.leb_spec (8 * (off + (i + 1)) + p) j),
        (Z.leb_spec (8 * (off + i) + p) j), (Z.ltb_spec j (8 * (off + i + Z.of_nat (S n)) + p)),
        (Z.ltb_spec j (8 * (off + (i + 1) + Z.of_nat n) + p)); try lia; cbn [andb orb]; rewrite ?orb_false_r; try done; try (f_equal; lia).
    + destruct (Z.leb_spec (8 * (off + (i + 1)) + p) j), (Z.leb_spec (8 * (off + i) + p) j),
       (Z.ltb_spec j (8 * (off + i + Z.of_nat (S n)) + p)),
        (Z.ltb_spec j (8 * (off + (i + 1) + Z.of_nat n) + p)); try lia; cbn [andb orb]; try done; f_equal; lia.
Qed.

Lemma bitn_append B k v i : 0 <= i -> bitn (B ++ bits k v) i =
  bitn B i || ((Z.of_nat (length B) <=? i) && (i <? Z.of_nat (length B) + Z.of_nat k) &&
               Z.testbit v (Z.of_nat k - 1 - (i - Z.of_nat (length B)))).
Proof.
  intros Hi. destruct (Z.leb_spec (Z.of_nat (length B)) i); cbn [andb].
  - rewrite bitn_app_r, (bitn_high B) by lia. cbn [orb].
    destruct (Z.ltb_spec i (Z.of_nat (length B) + Z.of_nat k)); cbn [andb].
    + by rewrite bitn_bits by lia.
    + apply bitn_high. rewrite bits_length. lia.
  - rewrite bitn_app_l by lia. by rewrite orb_false_r.
Qed.

(** The memory after [setbits]. *)
Definition setbits_mem (numbits val : Z) (st : BinaryData) : outcome (list Z) :=
  if numbits + pos st <=? 8 then
    let byte := wrap8 (val .& (0xff >> ((8 - numbits) mod 8))) in
    or_at (data st) (offset st) (byte << ((8 - numbits - pos st) mod 8))
  else if pos st =? 0 then
    overwrite (data st) (offset st) (take (Z.to_nat (octets_up numbits)) (be32 (wrap32 (val << (32 - numbits)))))
  else
    setbits_loop (Z.to_nat (octets_up numbits)) 0 (wrap32 (val << (32 - numbits))) (offset st) (pos st) (data st).

Section SetBits.
Context (k : nat) (v : Z) (st : BinaryData) (B : list bool).
Context (Hw : writing st B) (Hk : (1 <= k <= 32)%nat) (Hv : 0 <= v < 2^32) (Hroom : room st B k).

Let result (r : list Z) : Prop := length r = length (data st) /\ bytes_ok r /\
  forall i, 0 <= i -> membit r i = bitn (B ++ bits k v) i.

Lemma setbits_one : Z.of_nat k + pos st <= 8 -> exists r, setbits_mem (Z.of_nat k) v st = Ok r /\ result r.
Proof.
  intros Hs. pose proof (w_pos _ _ Hw) as Hp. pose proof (w_off _ _ Hw) as Ho. pose proof (w_holds _ _ Hw) as Hh.
  unfold setbits_mem. destruct (Z.leb_spec (Z.of_nat k + pos st) 8); [|lia]. cbv zeta.
  set (byte := wrap8 (v .& (0xff >> ((8 - Z.of_nat k) mod 8)))). unfold room in Hroom.
  destruct (or_at_ok (data st) (offset st) (byte << ((8 - Z.of_nat k - pos st) mod 8))) as (r & E & L & Bk & M);
    [lia|apply Hh|]. exists r. split; [done|]. split; [done|]. split; [done|].
  intros i Hi. rewrite M, (h_bits _ _ Hh), bitn_append by done. f_equal.
  assert (Hb : forall j, 0 <= j -> Z.testbit byte j = (j <? Z.of_nat k) && Z.testbit v j).
  { intros j Hj. unfold byte. destruct (Z.ltb_spec j 8).
    - rewrite wrap8_bit, Z.land_spec, Z.shiftr_spec by lia. change 0xff with (Z.ones 8).
      destruct (Z.ltb_spec j (Z.of_nat k)); cbn [andb].
      + rewrite Z.ones_spec_low by lia. by rewrite andb_true_r.
      + rewrite Z.ones_spec_high by lia. by rewrite andb_false_r.
    - rewrite byte_bit_high by (apply wrap8_byte || lia). by destruct (Z.ltb_spec j (Z.of_nat k)); [lia|]. }
  replace ((8 - Z.of_nat k - pos st) mod 8) with (8 - Z.of_nat k - pos st) by (rewrite Z.mod_small; lia).
  rewrite Z.shiftl_spec by lia. destruct (Z.eqb_spec (i / 8) (offset st)) as [Ei|Ei]; cbn [andb].
  - destruct (Z.leb_spec (Z.of_nat (length B)) i), (Z.ltb_spec i (Z.of_nat (length B) + Z.of_nat k)); cbn [andb]; try lia.
    + rewrite Hb by lia. destruct (Z.ltb_spec (7 - i mod 8 - (8 - Z.of_nat k - pos st)) (Z.of_nat k)); [|lia]. cbn [andb]. f_equal. lia.
    + apply Z.testbit_neg_r. lia.
    + rewrite Hb by lia. by destruct (Z.ltb_spec (7 - i mod 8 - (8 - Z.of_nat k - pos st)) (Z.of_nat k)); [lia|].
  - destruct (Z.leb_spec (Z.of_nat (length B)) i), (Z.ltb_spec i (Z.of_nat (length B) + Z.of_nat k)); cbn [andb]; try lia.
Qed.

Lemma shifted_bit j : 0 <= j < Z.of_nat k -> Z.testbit (wrap32 (v << (32 - Z.of_nat k))) (31 - j) = Z.testbit v (Z.of_nat k - 1 - j).
Proof. intros. rewrite wrap32_bit, Z.shiftl_spec by lia. f_equal. lia. Qed.
Lemma shifted_bit_low j : Z.of_nat k <= j < 32 -> Z.testbit (wrap32 (v << (32 - Z.of_nat k))) (31 - j) = false.
Proof. intros. rewrite wrap32_bit, Z.shiftl_spec by lia. apply Z.testbit_neg_r. lia. Qed.

Lemma setbits_aligned : 8 < Z.of_nat k + pos st -> pos st = 0 -> exists r, setbits_mem (Z.of_nat k) v st = Ok r /\ result r.
Proof.
  intros Hs Hp0. pose proof (w_pos _ _ Hw) as Hp. pose proof (w_off _ _ Hw) as Ho. pose proof (w_holds _ _ Hw) as Hh.
  unfold setbits_mem. destruct (Z.leb_spec (Z.of_nat k + pos st) 8); [lia|]. rewrite Hp0. cbn [Z.eqb].
  set (w := wrap32 (v << (32 - Z.of_nat k))). assert (Hwb : 0 <= w < 2^32) by (apply Z.mod_pos_bound; lia).
  pose proof (octets_up_spec (Z.of_nat k) ltac:(lia)) as Hup. unfold room in Hroom.
  assert (Lt : length (take (Z.to_nat (octets_up (Z.of_nat k))) (be32 w)) = Z.to_nat (octets_up (Z.of_nat k)))
    by (rewrite length_take, be32_length; lia).
  destruct (overwrite (data st) (offset st) (take (Z.to_nat (octets_up (Z.of_nat k))) (be32 w))) as [r|f] eqn:E;
    [|unfold overwrite in E; rewrite Lt in E; destruct (Z.ltb_spec (Z.of_nat (length (data st))) (offset st + Z.of_nat (Z.to_nat (octets_up (Z.of_nat k))))); [lia|done]].
  exists r. split; [done|]. split; [eapply overwrite_length; [|done]; lia|].
  split; [eapply overwrite_bytes; [done|apply Hh|apply Forall_take, be32_bytes]|].
  intros i Hi. rewrite bitn_append, <- (h_bits _ _ Hh) by done. unfold membit at 1.
  rewrite (overwrite_nth' _ _ _ _ _ E), Lt by lia.
  destruct (Z.leb_spec (offset st) (Z.of_nat (Z.to_nat (i / 8)))), (Z.ltb_spec (Z.of_nat (Z.to_nat (i / 8))) (offset st + Z.of_nat (Z.to_nat (octets_up (Z.of_nat k)))));
    cbn [andb].
  - rewrite (h_bits _ _ Hh), (bitn_high B) by lia. cbn [orb].
    rewrite nth_firstn. destruct (Nat.ltb_spec (Z.to_nat (i / 8) - Z.to_nat (offset st)) (Z.to_nat (octets_up (Z.of_nat k)))); [|lia].
    replace (Z.to_nat (i / 8) - Z.to_nat (offset st))%nat with (Z.to_nat (i / 8 - offset st)) by lia.
    rewrite be32_nth by lia. replace (24 - 8 * (i / 8 - offset st) + (7 - i mod 8)) with (31 - (i - Z.of_nat (length B))) by lia.
    destruct (Z.leb_spec (Z.of_nat (length B)) i); [|lia]. cbn [andb].
    destruct (Z.ltb_spec i (Z.of_nat (length B) + Z.of_nat k)); cbn [andb]; [apply shifted_bit; lia|apply shifted_bit_low; lia].
  - fold (membit (data st) i). destruct (Z.ltb_spec i (Z.of_nat (length B) + Z.of_nat k)); [lia|]. by rewrite andb_false_r, orb_false_r.
  - fold (membit (data st) i). destruct (Z.leb_spec (Z.of_nat (length B)) i); [lia|]. by rewrite orb_false_r.
  - lia.
Qed.

Lemma setbits_unaligned : 8 < Z.of_nat k + pos st -> pos st <> 0 -> exists r, setbits_mem (Z.of_nat k) v st = Ok r /\ result r.
Proof.
  intros Hs Hp0. pose proof (w_pos _ _ Hw) as Hp. pose proof (w_off _ _ Hw) as Ho. pose proof (w_holds _ _ Hw) as Hh.
  unfold setbits_mem. destruct (Z.leb_spec (Z.of_nat k + pos st) 8); [lia|]. destruct (Z.eqb_spec (pos st) 0); [lia|].
  set (w := wrap32 (v << (32 - Z.of_nat k))). assert (Hwb : 0 <= w < 2^32) by (apply Z.mod_pos_bound; lia).
  pose proof (octets_up_spec (Z.of_nat k) ltac:(lia)) as Hup. unfold room in Hroom.
  destruct (setbits_loop_ok (Z.to_nat (octets_up (Z.of_nat k))) 0 w (offset st) (pos st) (data st)) as (r & E & L & Bk & M);
    [lia..|apply Hh|lia|]. exists r. split; [done|]. split; [done|]. split; [done|].
  intros i Hi. rewrite M, (h_bits _ _ Hh), bitn_append by done. f_equal.
  replace (8 * (offset st + 0) + pos st) with (Z.of_nat (length B)) by lia.
  replace (31 - (i - 8 * offset st - pos st)) with (31 - (i - Z.of_nat (length B))) by lia.
  destruct (Z.leb_spec (Z.of_nat (length B)) i); [|done]. cbn [andb].
  destruct (Z.ltb_spec i (8 * (offset st + 0 + Z.of_nat (Z.to_nat (octets_up (Z.of_nat k)))) + pos st)),
    (Z.ltb_spec i (Z.of_nat (length B) + Z.of_nat k)); cbn [andb]; try lia; [apply shifted_bit; lia|apply shifted_bit_low; lia].
Qed.
End SetBits.

(** [setbits] appends the low [k] bits of the value; the position after it is
    right for up to 8 bits and for whole octets. *)
Lemma setbits_ok k v st B : writing st B -> (1 <= k <= 32)%nat -> 0 <= v < 2^32 -> room st B k ->
  exists st', setbits (Z.of_nat k) v st = Ok (tt, st') /\ holds st' (B ++ bits k v) /\
    length (data st') = length (data st) /\ ((k <= 8)%nat \/ Z.of_nat k mod 8 = 0 -> writing st' (B ++ bits k v)).
Proof.
  intros Hw Hk Hv Hr.
  assert (E : exists r, setbits_mem (Z.of_nat k) v st = Ok r /\ length r = length (data st) /\ bytes_ok r /\
    forall i, 0 <= i -> membit r i = bitn (B ++ bits k v) i).
  { destruct (Z.leb_spec (Z.of_nat k + pos st) 8); [by apply setbits_one|].
    destruct (Z.eqb_spec (pos st) 0); [by apply setbits_aligned|by apply setbits_unaligned]. }
  destruct E as (r & E & L & Bk & M). unfold setbits, get, put, plift, mbind, P_bind. osimp.
  change (if Z.of_nat k + pos st <=? 8 then _ else _) with (setbits_mem (Z.of_nat k) v st).
  rewrite E. osimp. eexists. split; [done|].
  pose proof (w_pos _ _ Hw) as Hp. pose proof (w_off _ _ Hw) as Ho. pose proof (w_holds _ _ Hw) as Hh.
  pose proof (h_size _ _ Hh) as Hsz. pose proof (h_len _ _ Hh) as Hl. unfold room in Hr.
  assert (Hh' : holds {| data := r; offset := if 8 <=? wrap8 (pos st + Z.of_nat k) then offset st + octets_up (Z.of_nat k) else offset st;
      pos := if 8 <=? wrap8 (pos st + Z.of_nat k) then wrap8 (pos st + Z.of_nat k) mod 8 else wrap8 (pos st + Z.of_nat k);
      len := wrap32 (len st + Z.of_nat k) |} (B ++ bits k v)).
  { split; cbn [data len]; [done|done| |lia]. rewrite length_app, bits_length, Hl. rewrite wrap32_id by lia. lia. }
  split; [exact Hh'|]. split; [done|]. intros Hk8. split; [exact Hh'|..]; cbn [pos offset];
    rewrite length_app, bits_length; rewrite wrap8_id by lia; pose proof (octets_up_spec (Z.of_nat k) ltac:(lia)) as Hup;
    destruct (Z.leb_spec 8 (pos st + Z.of_nat k)); try lia.
Qed.
