(* ===== verification/PERRead.v ===== *)
(** Readers of the PER run time: what each primitive returns when the bits it
    reads are in the buffer. *)
From S2P Require Import Prelude PER PERBits.

(** The next bits of the buffer are [R], [n] bits were read before. *)
Record reading (st : BinaryData) (n : nat) (R : list bool) : Prop := {
  r_pos : pos st = Z.of_nat n mod 8;
  r_bytes : bytes_ok (data st);
  r_len : 8 * Z.of_nat (length (data st)) <= len st < 2^32;
  r_fit : Z.of_nat n mod 8 + Z.of_nat (length R) <= 8 * Z.of_nat (length (data st));
  r_bits : forall i, 0 <= i < Z.of_nat (length R) -> membit (data st) (Z.of_nat n mod 8 + i) = bitn R i;
}.

(** The octets of a string. *)
Definition octbits (l : list Z) : list bool := concat (map (bits 8) l).

Lemma octbits_length l : length (octbits l) = (8 * length l)%nat.
Proof. induction l as [|b l IH]; [done|]. unfold octbits in *. cbn [map concat length]. rewrite length_app, bits_length, IH. lia. Qed.
Lemma octbits_app a b : octbits (a ++ b) = octbits a ++ octbits b.
Proof. unfold octbits. by rewrite map_app, concat_app. Qed.
Lemma octbits_cons b l : octbits (b :: l) = bits 8 b ++ octbits l.
Proof. done. Qed.

Lemma membit_octbits l i : 0 <= i -> membit l i = bitn (octbits l) i.
Proof.
  revert i. induction l as [|b l IH]; intros i Hi.
  - rewrite membit_high by (cbn; lia). symmetry. apply bitn_high. cbn. lia.
  - rewrite octbits_cons. change (b :: l) with ([b] ++ l). destruct (Z.ltb_spec i 8).
    + rewrite membit_app_l, bitn_app_l, bitn_bits by (rewrite ?bits_length; cbn [length]; lia).
      unfold membit. replace (i / 8) with 0 by lia. cbn [Z.to_nat nth]. f_equal. lia.
    + rewrite membit_app_r, bitn_app_r by (rewrite ?bits_length; cbn [length]; lia). rewrite bits_length. cbn [length].
      rewrite IH by lia. f_equal.
Qed.

(** A number is determined by its bits. *)
Lemma bits_eq k x y : 0 <= x < 2^(Z.of_nat k) -> 0 <= y < 2^(Z.of_nat k) ->
  (forall i, 0 <= i < Z.of_nat k -> Z.testbit x i = Z.testbit y i) -> x = y.
Proof.
  intros Hx Hy H. apply Z.bits_inj'. intros i Hi. destruct (Z.ltb_spec i (Z.of_nat k)); [by apply H|].
  by rewrite !(high_bits_0 (Z.of_nat k)) by lia.
Qed.

Lemma be_val_bit l i : bytes_ok l -> 0 <= i < 8 * Z.of_nat (length l) ->
  Z.testbit (be_val l) i = membit l (8 * Z.of_nat (length l) - 1 - i).
Proof.
  revert i. induction l as [|b l IH] using rev_ind; intros i Hl Hi; [cbn in Hi; lia|].
  apply Forall_app in Hl as [Hl Hb]. inversion Hb as [|? ? H1 _]; subst. rewrite length_app in *. cbn [length] in *.
  rewrite be_val_snoc, (Z.add_comm (256 * be_val l)). replace (256 * be_val l) with (be_val l * 2^8) by lia.
  rewrite Z.add_comm, <- (lor_disjoint_add _ _ 8) by (unfold byte_ok in H1; try lia; apply Z.mod_mul; lia).
  rewrite Z.lor_spec, Z.mul_pow2_bits by lia. destruct (Z.ltb_spec i 8).
  - rewrite (Z.testbit_neg_r _ (i - 8)) by lia. cbn [orb]. rewrite membit_app_r by lia. unfold membit.
    replace ((8 * Z.of_nat (length l + 1) - 1 - i - 8 * Z.of_nat (length l)) / 8) with 0 by lia. cbn [Z.to_nat nth]. f_equal. lia.
  - rewrite (byte_bit_high b i), orb_false_r by (done || lia). rewrite IH by (done || lia). rewrite membit_app_l by lia. f_equal. lia.
Qed.

(** ** Primitives *)

Lemma reading_app st n A R : reading st n (A ++ R) -> reading st n A.
Proof.
  intros [H1 H2 H3 H4 H5]. rewrite length_app in *. split; try done; [lia|].
  intros i Hi. rewrite H5 by lia. apply bitn_app_l. lia.
Qed.

(** The state after [k] more bits, when the data pointer moved by the octets
    that are used up. *)
Lemma reading_next st n A R q l' : reading st n (A ++ R) -> q = (Z.of_nat n mod 8 + Z.of_nat (length A)) / 8 ->
  8 * (Z.of_nat (length (data st)) - q) <= l' < 2^32 ->
  reading {| data := adv (data st) q; offset := offset st; pos := Z.of_nat (n + length A) mod 8; len := l' |} (n + length A) R.
Proof.
  intros [H1 H2 H3 H4 H5] -> Hl. rewrite length_app in *. split; cbn [pos data len].
  - done.
  - by apply Forall_drop.
  - rewrite adv_length by lia. lia.
  - rewrite adv_length by lia. lia.
  - intros i Hi. rewrite membit_adv by lia.
    transitivity (bitn (A ++ R) (Z.of_nat (length A) + i)).
    + rewrite <- H5 by lia. f_equal. lia.
    + rewrite bitn_app_r by lia. f_equal. lia.
Qed.

Lemma align_dec_ok st n R : reading st n (pad n ++ R) ->
  exists st', align_dec st = Ok (tt, st') /\ reading st' (n + length (pad n)) R.
Proof.
  intros H. pose proof (r_pos _ _ _ H) as Hp. pose proof (r_len _ _ _ H) as Hl. pose proof (r_fit _ _ _ H) as Hf.
  unfold align_dec, get, put, nop, mbind, P_bind. osimp. destruct (Z.eqb_spec (pos st) 0).
  - rewrite pad_aligned in * by lia. cbn [app length] in *. rewrite Nat.add_0_r. by eexists.
  - eexists. split; [done|]. pose proof (pad_aligns n) as Ha. rewrite length_app in Hf. rewrite pad_length in Ha, Hf.
    pose proof (reading_next st n (pad n) R 1 (wrap32 (len st - 8)) H) as G. rewrite pad_length in G.
    replace (Z.of_nat (n + Z.to_nat ((- Z.of_nat n) mod 8)) mod 8) with 0 in G by lia. rewrite pad_length. apply G; [lia|].
    rewrite wrap32_id by lia. lia.
Qed.

Lemma getbit_ok st n b R : reading st n (b :: R) ->
  exists st', getbit st = Ok (Z.b2z b, st') /\ reading st' (n + 1) R.
Proof.
  intros H. pose proof (r_pos _ _ _ H) as Hp. pose proof (r_len _ _ _ H) as Hl. pose proof (r_fit _ _ _ H) as Hf.
  cbn [length] in Hf. unfold getbit, get, put, plift, mbind, P_bind, mret, P_ret. osimp.
  destruct (Z.leb_spec 8 (pos st)); [lia|]. destruct (data st) as [|x d] eqn:Ed; [cbn in Hf; lia|]. osimp.
  cbn [rd]. osimp. eexists. split.
  - f_equal. f_equal. pose proof (r_bits _ _ _ H 0 ltac:(cbn [length]; lia)) as E. rewrite Ed in E.
    unfold membit in E. replace ((Z.of_nat n mod 8 + 0) / 8) with 0 in E by lia. cbn [Z.to_nat nth] in E.
    change (bitn (b :: R) 0) with b in E. rewrite <- E. replace ((Z.of_nat n mod 8 + 0) mod 8) with (pos st) by lia.
    change 1 with (Z.ones 1). rewrite Z.land_ones by lia.
    change (2^1) with 2. by rewrite <- Z.bit0_mod, Z.shiftr_spec by lia.
  - pose proof (reading_next st n [b] R ((Z.of_nat n mod 8 + 1) / 8) (len st) H eq_refl) as G. cbn [length] in G.
    rewrite Ed in *. replace (Z.of_nat (n + 1) mod 8) with ((pos st + 1) mod 8) in G by lia.
    destruct (Z.eqb_spec (pos st + 1) 8).
    + replace ((Z.of_nat n mod 8 + 1) / 8) with 1 in G by lia. apply G. lia.
    + replace ((Z.of_nat n mod 8 + 1) / 8) with 0 in G by lia. apply G. lia.
Qed.

(** [getbits] *)
Lemma shl_bit t p k : byte_ok t -> 0 <= p -> 0 <= k < 8 -> Z.testbit (wrap8 (t << p)) k = (p <=? k) && Z.testbit t (k - p).
Proof.
  intros Ht Hp Hk. rewrite wrap8_bit, Z.shiftl_spec by lia. destruct (Z.leb_spec p k); [done|]. apply Z.testbit_neg_r. lia.
Qed.

(** The two octets a result octet is made of. *)
Lemma merge_bit t t1 p j : byte_ok t -> byte_ok t1 -> 0 <= p < 8 -> 0 <= j < 8 ->
  Z.testbit (wrap8 (t << p) .| ((t1 .& (0xff << (8 - p))) >> (8 - p))) (7 - j) =
  if p + j <? 8 then Z.testbit t (7 - p - j) else Z.testbit t1 (15 - p - j).
Proof.
  intros Ht Ht1 Hp Hj. rewrite Z.lor_spec, shl_bit, Z.shiftr_spec, Z.land_spec, Z.shiftl_spec by (done || lia).
  change 0xff with (Z.ones 8). rewrite Z.ones_spec_low, andb_true_r by lia.
  destruct (Z.ltb_spec (p + j) 8), (Z.leb_spec p (7 - j)); try lia; cbn [andb orb].
  - rewrite (byte_bit_high t1) by (done || lia). rewrite orb_false_r. f_equal. lia.
  - f_equal. lia.
Qed.

Lemma getbits_loop_ok limit : forall i num p newused tmp, 0 <= i -> 0 <= p < 8 -> 0 <= num -> bytes_ok tmp ->
  newused = (num + p) mod 8 -> Z.of_nat limit = octets_up num - i -> p + num - 8 * i <= 8 * Z.of_nat (length tmp) ->
  (0 < p \/ num mod 8 <> 0) -> (num < 8 -> 8 < p + num) -> (num < 8 \/ num mod 8 = 0 \/ num mod 8 + p < 8) ->
  exists r, getbits_loop limit i num p newused tmp = Ok r /\ length r = limit /\ bytes_ok r /\
    forall j, 0 <= j < 8 * Z.of_nat limit -> 8 * i + j < num -> membit r j = membit tmp (p + j).
Proof.
  induction limit as [|limit IH]; intros i num p newused tmp Hi Hp Hn Ht Hu Hl Hlen Hc1 Hc2 Hc3.
  { exists []. split; [done|]. split; [done|]. split; [constructor|]. intros j Hj. lia. }
  pose proof (octets_up_spec num Hn) as Hup. destruct tmp as [|t tmp]; [cbn [length] in Hlen; lia|].
  inversion Ht as [|? ? Hb Ht']; subst. destruct (IH (i + 1) num p ((num + p) mod 8) tmp) as (r & E & L & Bk & M);
    [lia|lia|lia|done|done|lia|cbn [length] in Hlen; lia|done|done|done|].
  cbn [getbits_loop rd]. osimp. rewrite adv_1.
  assert (G : exists h, (if ((i + 1) * 8 <=? num) || (num <? 8) then t1 ← rdi (t :: tmp) 1;
        Ok (wrap8 (t << p) .| ((t1 .& (0xff << (8 - p))) >> (8 - p)))
      else Ok (wrap8 (t << p) .& (0xff << (8 - (num + p) mod 8)))) = Ok h /\
      forall j, 0 <= j < 8 -> 8 * i + j < num -> Z.testbit h (7 - j) = membit (t :: tmp) (p + j)).
  { destruct (Z.leb_spec ((i + 1) * 8) num), (Z.ltb_spec num 8); cbn [orb]; try lia.
    3: { eexists. split; [done|]. intros j Hj Hjn. rewrite Z.land_spec, shl_bit, Z.shiftl_spec by (done || lia).
         destruct (Z.leb_spec p (7 - j)); [|lia]. cbn [andb]. change 0xff with (Z.ones 8). rewrite Z.ones_spec_low by lia.
         rewrite andb_true_r. unfold membit. replace ((p + j) / 8) with 0 by lia. cbn [Z.to_nat nth]. f_equal. lia. }
    all: destruct tmp as [|t1 tmp]; [cbn [length] in Hlen; lia|]; inversion Ht' as [|? ? Hb1 _]; subst;
      change (rdi (t :: t1 :: tmp) 1) with (Ok t1); osimp; eexists; (split; [done|]); intros j Hj Hjn;
      rewrite merge_bit by (done || lia); unfold membit; destruct (Z.ltb_spec (p + j) 8);
      [ replace ((p + j) / 8) with 0 by lia | replace ((p + j) / 8) with 1 by lia ]; cbn [Z.to_nat Pos.to_nat Pos.iter_op Nat.add nth]; f_equal; lia. }
  destruct G as (h & Eh & Gh). rewrite Eh. osimp. rewrite E. osimp. eexists. split; [done|]. split; [cbn [length]; lia|].
  split; [constructor; [apply wrap8_byte|done]|]. intros j Hj Hjn. change (wrap8 h :: r) with ([wrap8 h] ++ r).
  destruct (Z.ltb_spec j 8).
  - rewrite membit_app_l by (cbn [length]; lia). rewrite <- Gh by lia. unfold membit. replace (j / 8) with 0 by lia.
    change (Z.to_nat 0) with O. cbn [nth]. rewrite wrap8_bit by lia. f_equal. lia.
  - rewrite membit_app_r by (cbn [length]; lia). cbn [length]. rewrite M by lia.
    change (t :: tmp) with ([t] ++ tmp). rewrite (membit_app_r [t] tmp) by (cbn [length]; lia). cbn [length]. f_equal. lia.
Qed.

(** The bits that [getbits] reads right. *)
Definition readable (num : Z) (n : nat) : Prop :=
  num <= 8 \/ num mod 8 = 0 \/ num mod 8 + Z.of_nat n mod 8 < 8.

Lemma getbits_ok st n A R cap : reading st n (A ++ R) -> readable (Z.of_nat (length A)) n ->
  octets_up (Z.of_nat (length A)) <= cap -> (0 < length A)%nat ->
  exists o st', getbits (Some cap) (Z.of_nat (length A)) st = Ok (o, st') /\ reading st' (n + length A) R /\ bytes_ok o /\
    Z.of_nat (length o) = octets_up (Z.of_nat (length A)) /\ forall j, 0 <= j < Z.of_nat (length A) -> membit o j = bitn A j.
Proof.
  intros H Hr Hcap H0. pose proof (r_pos _ _ _ H) as Hp. pose proof (r_len _ _ _ H) as Hl. pose proof (r_fit _ _ _ H) as Hf.
  pose proof (r_bytes _ _ _ H) as Hby. pose proof (r_bits _ _ _ (reading_app _ _ _ _ H)) as Hbits. rewrite length_app in Hf.
  set (num := Z.of_nat (length A)) in *. assert (Hn : 0 < num) by lia.
  pose proof (octets_up_spec num ltac:(lia)) as Hup. pose proof (octets_up_spec (num + pos st) ltac:(lia)) as Hup2.
  assert (Hfits : forall m, m <= octets_up num -> fits (Some cap) m = Ok tt).
  { intros m Hm. unfold fits. by destruct (Z.ltb_spec cap m); [lia|]. }
  unfold getbits, get, put, plift, mbind, P_bind, mret, P_ret. osimp.
  destruct (Z.eqb_spec (num mod 8) 0) as [Hm|Hm], (Z.eqb_spec (pos st) 0) as [Hz|Hz]; cbn [andb].
  { assert (E : rdn (data st) (num / 8) = Ok (take (Z.to_nat (num / 8)) (data st))).
    { unfold rdn. by destruct (Z.ltb_spec (Z.of_nat (length (data st))) (num / 8)); [lia|]. }
    rewrite E. osimp. rewrite Hfits by lia. osimp. do 2 eexists. split; [done|]. split; [|split; [by apply Forall_take|split]].
    - pose proof (reading_next st n A R (num / 8) (wrap32 (len st - num)) H) as G.
      replace (pos st) with (Z.of_nat (n + length A) mod 8) by lia. apply G; [lia|]. rewrite wrap32_id by lia. lia.
    - rewrite length_take. lia.
    - intros j Hj. rewrite <- Hbits by lia. rewrite <- (take_drop (Z.to_nat (num / 8)) (data st)) at 2.
      rewrite membit_app_l by (rewrite length_take; lia). f_equal. lia. }
  all: set (tmp := take (Z.to_nat (octets_up (num + pos st))) (data st)).
  all: assert (E : rdn (data st) (octets_up (num + pos st)) = Ok tmp) by
    (unfold rdn; by destruct (Z.ltb_spec (Z.of_nat (length (data st))) (octets_up (num + pos st))); [lia|]).
  all: assert (Lt : Z.of_nat (length tmp) = octets_up (num + pos st)) by (unfold tmp; rewrite length_take; lia).
  all: assert (Bt : bytes_ok tmp) by (by apply Forall_take).
  all: assert (Mt : forall j, 0 <= j < num -> membit tmp (pos st + j) = bitn A j) by
    (intros j Hj; rewrite <- Hbits by lia; rewrite <- (take_drop (Z.to_nat (octets_up (num + pos st))) (data st)) at 1;
     fold tmp; rewrite membit_app_l by lia; f_equal; lia).
  all: assert (Hst : reading {| data := adv (data st) (if (num + pos st) mod 8 =? 0 then octets_up (num + pos st) else octets_up (num + pos st) - 1);
      offset := offset st; pos := (num + pos st) mod 8; len := len st |} (n + length A) R) by
    (pose proof (reading_next st n A R ((Z.of_nat n mod 8 + num) / 8) (len st) H eq_refl ltac:(lia)) as G;
     replace (Z.of_nat (n + length A) mod 8) with ((num + pos st) mod 8) in G by lia;
     replace (if (num + pos st) mod 8 =? 0 then octets_up (num + pos st) else octets_up (num + pos st) - 1)
       with ((Z.of_nat n mod 8 + num) / 8) by (destruct (Z.eqb_spec ((num + pos st) mod 8) 0); lia); exact G).
  all: rewrite E; osimp; destruct (Z.leb_spec (pos st + num) 8).
  all: try (destruct (getbits_loop_ok (Z.to_nat (octets_up num)) 0 num (pos st) ((num + pos st) mod 8) tmp) as (r & Er & Lr & Br & Mr);
    [lia|lia|lia|done|done|lia|lia|lia|lia|unfold readable in Hr; lia|];
    rewrite Er; osimp; rewrite Hfits by lia; osimp; do 2 eexists; split; [done|]; split; [exact Hst|]; split; [done|]; split; [lia|];
    intros j Hj; rewrite Mr by lia; apply Mt; lia).
  all: destruct tmp as [|t tl] eqn:Et; [cbn [length] in Lt; lia|]; cbn [rd]; osimp; rewrite Hfits by lia; osimp; do 2 eexists;
    split; [done|]; split; [exact Hst|]; split; [constructor; [apply wrap8_byte|done]|]; split; [cbn [length]; lia|];
    intros j Hj; rewrite <- Mt by lia; unfold membit; replace (j / 8) with 0 by lia; replace ((pos st + j) / 8) with 0 by lia;
    change (Z.to_nat 0) with O; cbn [nth]; inversion Bt; subst; rewrite shl_bit by (done || lia);
    destruct (Z.leb_spec (pos st) (7 - j mod 8)); [|lia]; cbn [andb]; f_equal; lia.
Qed.

(** The octets at an aligned position, and the state after them. *)
Lemma reading_octets st n l R : reading st n (octbits l ++ R) -> Z.of_nat n mod 8 = 0 -> bytes_ok l ->
  (length l <= length (data st))%nat /\ take (length l) (data st) = l /\
  reading {| data := adv (data st) (Z.of_nat (length l)); offset := offset st; pos := pos st;
             len := wrap32 (len st - Z.of_nat (length l) * 8) |} (n + length (octbits l)) R.
Proof.
  intros H Hn Hl. pose proof (r_pos _ _ _ H) as Hp. pose proof (r_len _ _ _ H) as Hln.
  pose proof (r_fit _ _ _ H) as Hf. rewrite length_app, octbits_length in Hf. split; [lia|]. split.
  - apply membit_ext; [apply Forall_take, (r_bytes _ _ _ H)|done|rewrite length_take; lia|].
    rewrite length_take. intros i Hi. rewrite (membit_octbits l) by lia.
    transitivity (bitn (octbits l ++ R) i); [|apply bitn_app_l; rewrite octbits_length; lia].
    rewrite <- (r_bits _ _ _ H) by (rewrite length_app, octbits_length; lia).
    rewrite <- (take_drop (length l) (data st)) at 2. rewrite membit_app_l by (rewrite length_take; lia). f_equal. lia.
  - pose proof (reading_next st n (octbits l) R (Z.of_nat (length l)) (wrap32 (len st - Z.of_nat (length l) * 8)) H) as G.
    replace (pos st) with (Z.of_nat (n + length (octbits l)) mod 8) by (rewrite octbits_length; lia).
    rewrite octbits_length in *. apply G; [lia|]. rewrite wrap32_id by lia. lia.
Qed.

(** [getoctets] skips to the next octet and returns the octets. *)
Lemma getoctets_ok st n l R cap : reading st n (pad n ++ octbits l ++ R) -> bytes_ok l -> Z.of_nat (length l) <= cap ->
  exists st', getoctets (Some cap) (Z.of_nat (length l)) st = Ok (Some l, st') /\
    reading st' (n + length (pad n) + length (octbits l)) R.
Proof.
  intros H Hl Hcap. destruct (align_dec_ok _ _ _ H) as (s1 & E1 & H1). unfold getoctets, mbind, P_bind. rewrite E1. osimp.
  unfold get, plift, put, mret, P_ret. osimp. destruct (reading_octets _ _ _ _ H1 (pad_aligns n) Hl) as (L & T & H2).
  pose proof (r_len _ _ _ H1) as Hln. destruct (Z.ltb_spec (len s1 / 8) (Z.of_nat (length l))); [lia|].
  unfold rdn. destruct (Z.ltb_spec (Z.of_nat (length (data s1))) (Z.of_nat (length l))); [lia|]. osimp.
  unfold fits. destruct (Z.ltb_spec cap (Z.of_nat (length l))); [lia|]. osimp. rewrite Nat2Z.id, T. eauto.
Qed.

(** The bits of a number, read as an octet. *)
Lemma bits_value_ok st n k v R : reading st n (bits k v ++ R) -> (1 <= k <= 8)%nat -> 0 <= v < 2^(Z.of_nat k) ->
  exists st', bits_value (Z.of_nat k) st = Ok (v, st') /\ reading st' (n + k) R.
Proof.
  intros H Hk Hv. destruct (getbits_ok st n (bits k v) R MAXDATABYTES H) as (o & s & E & Hs & Ho & Lo & M);
    rewrite bits_length in *; [left; lia|unfold octets_up, MAXDATABYTES; case_match; lia|lia|].
  exists s. split; [|done]. unfold bits_value, mbind, P_bind. rewrite E. osimp. pose proof (octets_up_spec (Z.of_nat k) ltac:(lia)) as Hu.
  destruct o as [|b o]; [cbn [length] in Lo; lia|]. inversion Ho as [|? ? Hb _]; subst. unfold plift, mret, P_ret. cbn [rd]. osimp. f_equal. f_equal.
  change 0xff with (Z.ones 8). rewrite Z.land_ones by lia. rewrite (Z.mod_small b) by (unfold byte_ok in Hb; lia).
  apply (bits_eq k); [|done|].
  - rewrite Z.shiftr_div_pow2 by lia. split; [apply Z.div_pos; unfold byte_ok in Hb; lia|].
    apply Z.div_lt_upper_bound; [lia|]. rewrite <- Z.pow_add_r by lia. replace (8 - Z.of_nat k + Z.of_nat k) with 8 by lia. apply Hb.
  - intros i Hi. rewrite Z.shiftr_spec by lia. specialize (M (Z.of_nat k - 1 - i) ltac:(lia)). rewrite bitn_bits in M by lia.
    unfold membit in M. replace ((Z.of_nat k - 1 - i) / 8) with 0 in M by lia. change (Z.to_nat 0) with O in M. cbn [nth] in M.
    replace (7 - (Z.of_nat k - 1 - i) mod 8) with (i + (8 - Z.of_nat k)) in M by lia. rewrite M. f_equal. lia.
Qed.

Lemma octets_value_ok st n l R : reading st n (pad n ++ octbits l ++ R) -> bytes_ok l -> (length l <= 4)%nat ->
  exists st', octets_value (Z.of_nat (length l)) st = Ok (be_val l, st') /\ reading st' (n + length (pad n) + length (octbits l)) R.
Proof.
  intros H Hl L4. destruct (getoctets_ok st n l R MAXDATABYTES H Hl) as (s & E & Hs); [unfold MAXDATABYTES; lia|].
  exists s. split; [|done]. unfold octets_value, mbind, P_bind. rewrite E. osimp.
  destruct (Z.ltb_spec 4 (Z.of_nat (length l))); [lia|done].
Qed.
