(* ===== verification/PERCodec.v ===== *)
(** Writers and readers of the PER run time that fit together.

    [Codec m e d Q]: the writer [e] appends at most [m] bits to a buffer, and
    the reader [d], run on these bits at the same position, returns a value in
    [Q].  The codecs of the S1AP information elements are put together from
    those of the primitives with [codec_bind]. *)
From S2P Require Import Prelude PER PERBits PERRead.

Definition codec_ (W : BinaryData -> list bool -> Prop) {A} (m : nat) (e : P unit) (d : P A) (Q : A -> Prop) : Prop :=
  forall st B, writing st B -> room st B m -> exists st' G, e st = Ok (tt, st') /\ W st' (B ++ G) /\
    length (data st') = length (data st) /\ (length G <= m)%nat /\
    forall s R, reading s (length B) (G ++ R) -> exists a s', d s = Ok (a, s') /\ Q a /\ reading s' (length B + length G) R.

Abbreviation Codec := (codec_ writing).
(** The writer leaves a wrong position, so that nothing can follow. *)
Abbreviation CodecEnd := (codec_ holds).

Lemma room_le st B n m : room st B m -> (n <= m)%nat -> room st B n.
Proof. unfold room. lia. Qed.

Lemma holds_inj st X Y : holds st X -> holds st Y -> X = Y.
Proof.
  intros HX HY. pose proof (h_len _ _ HX) as L. rewrite (h_len _ _ HY) in L. apply bitn_ext; [lia|].
  intros i Hi. by rewrite <- (h_bits _ _ HX), <- (h_bits _ _ HY) by lia.
Qed.

Section Combinators.
Context {A C : Type} {W : BinaryData -> list bool -> Prop} (HW : forall st B, W st B -> holds st B).

Lemma codec_weaken m n e (d : P A) (Q Q' : A -> Prop) : codec_ W m e d Q -> (m <= n)%nat -> (forall a, Q a -> Q' a) -> codec_ W n e d Q'.
Proof.
  intros H Hm HQ st B Hw Hr. destruct (H st B Hw (room_le _ _ _ _ Hr Hm)) as (st' & G & E & Hw' & L & Lg & D).
  exists st', G. split; [done|]. split; [done|]. split; [done|]. split; [lia|].
  intros s R Hs. destruct (D s R Hs) as (a & s' & Ed & HA & Hs'). eauto 10.
Qed.

Lemma codec_bind m1 m2 e1 e2 (d1 : P A) (d2 : A -> P C) (Q1 : A -> Prop) Q2 :
  Codec m1 e1 d1 Q1 -> (exists a, Q1 a) -> (forall a, Q1 a -> codec_ W m2 e2 (d2 a) Q2) ->
  codec_ W (m1 + m2) (e1 ;; e2) (a ← d1; d2 a) Q2.
Proof.
  intros H1 [a0 Ha0] H2 st B Hw Hr.
  destruct (H1 st B Hw) as (s1 & G1 & E1 & Hw1 & L1 & Lg1 & D1); [apply (room_le _ _ _ _ Hr); lia|].
  assert (Hr1 : room s1 (B ++ G1) m2) by (unfold room in *; rewrite length_app, L1; lia).
  destruct (H2 a0 Ha0 s1 (B ++ G1) Hw1 Hr1) as (s2 & G2 & E2 & Hw2 & L2 & Lg2 & _).
  exists s2, (G1 ++ G2). split; [unfold mbind, P_bind; rewrite E1; osimp; exact E2|]. rewrite app_assoc. split; [done|].
  split; [congruence|]. rewrite length_app. split; [lia|]. intros s R Hs. rewrite <- app_assoc in Hs.
  destruct (D1 _ _ Hs) as (a & s' & Ed & HA & Hs').
  destruct (H2 a HA s1 (B ++ G1) Hw1 Hr1) as (s2' & G2' & E2' & Hw2' & _ & _ & D2).
  rewrite E2 in E2'. injection E2' as <-. pose proof (holds_inj _ _ _ (HW _ _ Hw2) (HW _ _ Hw2')) as EG.
  apply app_inv_head in EG. subst G2'. rewrite length_app in D2. destruct (D2 _ _ Hs') as (c & s'' & Ed2 & HC & Hs'').
  exists c, s''. split; [unfold mbind, P_bind; rewrite Ed; osimp; exact Ed2|]. split; [done|].
  by replace (length B + (length G1 + length G2))%nat with (length B + length G1 + length G2)%nat by lia.
Qed.

(** The reader applies a function to what it read. *)
Lemma codec_map m e (d : P A) (f : A -> C) (Q : A -> Prop) (Q' : C -> Prop) :
  codec_ W m e d Q -> (forall a, Q a -> Q' (f a)) -> codec_ W m e (a ← d; mret (f a)) Q'.
Proof.
  intros H HQ st B Hw Hr. destruct (H st B Hw Hr) as (st' & G & E & Hw' & L & Lg & D). exists st', G. do 4 (split; [done|]).
  intros s R Hs. destruct (D s R Hs) as (a & s' & Ed & HA & Hs'). exists (f a), s'. split; [|auto].
  unfold mbind, P_bind. rewrite Ed. done.
Qed.

(** Another way to write the same program. *)
Lemma codec_ext m e e' (d d' : P A) Q : codec_ W m e d Q -> (forall st, e' st = e st) -> (forall st, d' st = d st) -> codec_ W m e' d' Q.
Proof.
  intros H He Hd st B Hw Hr. destruct (H st B Hw Hr) as (st' & G & E & Hw' & L & Lg & D). exists st', G.
  rewrite He. do 4 (split; [done|]). intros s R Hs. rewrite Hd. eauto.
Qed.
End Combinators.

Lemma holds_id st B : holds st B -> holds st B.
Proof. done. Qed.
#[export] Hint Resolve w_holds holds_id : mme.

Lemma codec_end {A} m e (d : P A) Q : Codec m e d Q -> CodecEnd m e d Q.
Proof.
  intros H st B Hw Hr. destruct (H st B Hw Hr) as (st' & G & E & Hw' & L & Lg & D). exists st', G. split; [done|].
  split; [by apply w_holds|]. done.
Qed.

Lemma codec_nop {A} (v : A) (Q : A -> Prop) : Q v -> Codec 0 nop (mret v) Q.
Proof.
  intros HQ st B Hw _. exists st, []. split; [done|]. rewrite app_nil_r. split; [done|]. split; [done|]. split; [done|].
  intros s R Hs. exists v, s. cbn [app length] in *. rewrite Nat.add_0_r. done.
Qed.

(** ** Primitives *)

Section Bits.
Context {A : Type} (k v : Z) (d : P A) (Q : A -> Prop) (Hk : 1 <= k <= 32) (Hv : 0 <= v < 2^32).
Context (Hd : forall s n R, reading s n (bits (Z.to_nat k) v ++ R) ->
  exists a s', d s = Ok (a, s') /\ Q a /\ reading s' (n + Z.to_nat k) R).

Lemma codec_bits_end : CodecEnd (Z.to_nat k) (setbits k v) d Q.
Proof.
  intros st B Hw Hr. destruct (setbits_ok (Z.to_nat k) v st B Hw ltac:(lia) Hv Hr) as (st' & E & Hh & L & _).
  rewrite Z2Nat.id in E by lia. exists st', (bits (Z.to_nat k) v). split; [done|]. split; [done|]. split; [done|].
  rewrite bits_length. split; [done|]. intros s R Hs. by apply Hd.
Qed.

Lemma codec_bits : k <= 8 \/ k mod 8 = 0 -> Codec (Z.to_nat k) (setbits k v) d Q.
Proof.
  intros Hk8 st B Hw Hr. destruct (setbits_ok (Z.to_nat k) v st B Hw ltac:(lia) Hv Hr) as (st' & E & _ & L & Hw').
  rewrite Z2Nat.id in E by lia. exists st', (bits (Z.to_nat k) v). split; [done|]. split; [apply Hw'; lia|]. split; [done|].
  rewrite bits_length. split; [done|]. intros s R Hs. by apply Hd.
Qed.
End Bits.

(** Flags. *)
Lemma codec_bit b : b = 0 \/ b = 1 -> Codec 1 (setbits 1 b) getbit (eq b).
Proof.
  intros Hb. apply (codec_bits 1 b); [lia|lia| |lia]. intros s n R Hs. change (Z.to_nat 1) with 1%nat in *.
  replace (bits 1 b ++ R) with (Z.testbit b 0 :: R) in Hs by done. destruct (getbit_ok _ _ _ _ Hs) as (s' & E & H').
  exists b, s'. split; [|done]. rewrite E. f_equal. f_equal. by destruct Hb as [-> | ->].
Qed.

(** A field of [k] flags in the upper bits of an octet: the reader returns the
    octet with the bits that follow in the lower bits. *)
Definition upper (k opt : Z) : Z := opt .& (0xff << (8 - k)).

Lemma upper_bit k opt i : 0 <= k <= 8 -> 0 <= i < 8 -> Z.testbit (upper k opt) i = Z.testbit opt i && (8 - k <=? i).
Proof.
  intros Hk Hi. unfold upper. rewrite Z.land_spec, Z.shiftl_spec by lia. f_equal. change 0xff with (Z.ones 8).
  destruct (Z.leb_spec (8 - k) i); [apply Z.ones_spec_low; lia|apply Z.testbit_neg_r; lia].
Qed.
Lemma upper_byte k opt : 0 <= k <= 8 -> byte_ok opt -> byte_ok (upper k opt).
Proof.
  intros Hk Hb. assert (E : upper k opt = upper k opt mod 2^8).
  { apply Z.bits_inj'. intros i Hi. destruct (Z.ltb_spec i 8); [by rewrite Z.mod_pow2_bits_low by lia|].
    rewrite Z.mod_pow2_bits_high by lia. unfold upper. by rewrite Z.land_spec, byte_bit_high by (done || lia). }
  rewrite E. apply Z.mod_pos_bound. lia.
Qed.

Lemma codec_opt cap k opt : 1 <= k <= 8 -> 1 <= cap -> byte_ok opt -> upper k opt = opt ->
  Codec 8 (setbits k (opt >> (8 - k))) (getopt cap k) (fun o => byte_ok o /\ upper k o = opt).
Proof.
  intros Hk Hc Hb Hu. eapply codec_weaken; [apply (codec_bits k (opt >> (8 - k)) (getopt cap k) (fun o => byte_ok o /\ upper k o = opt)); [lia| | |lia]|lia|done].
  { rewrite Z.shiftr_div_pow2 by lia. unfold byte_ok in Hb. split; [apply Z.div_pos; lia|]. apply Z.div_lt_upper_bound; nia. }
  intros s n R Hs. destruct (getbits_ok s n _ R cap Hs) as (o & s' & E & Hs' & Ho & Lo & M); rewrite bits_length in *;
    rewrite ?Z2Nat.id in * by lia; [left; lia|unfold octets_up; case_match; lia|lia|].
  assert (Hup : octets_up k = 1) by (unfold octets_up; case_match; lia). rewrite Hup in Lo.
  destruct o as [|b [|? ?]]; cbn [length] in Lo; try lia. inversion Ho as [|? ? Hbb _]; subst. exists b, s'. split; [|split; [split; [done|]|done]].
  { unfold getopt, mbind, P_bind. rewrite E. done. }
  rewrite <- Hu. apply byte_ext; [apply upper_byte; (done || lia).. |]. intros i Hi. rewrite !upper_bit by lia.
  destruct (Z.leb_spec (8 - k) i); [|by rewrite !andb_false_r]. rewrite !andb_true_r.
  specialize (M (7 - i) ltac:(lia)). unfold membit in M. replace ((7 - i) / 8) with 0 in M by lia. change (Z.to_nat 0) with O in M.
  cbn [nth] in M. replace (7 - (7 - i) mod 8) with i in M by lia. rewrite M, bitn_bits, Z.shiftr_spec by lia. f_equal. lia.
Qed.

Lemma align_enc_ok st B : writing st B -> room st B 7 -> exists st', align_enc st = Ok (tt, st') /\
  writing st' (B ++ pad (length B)) /\ length (data st') = length (data st).
Proof.
  intros Hw Hr. pose proof (w_pos _ _ Hw) as Hp. pose proof (w_off _ _ Hw) as Ho. pose proof (w_holds _ _ Hw) as Hh.
  pose proof (h_len _ _ Hh) as Hl. pose proof (h_size _ _ Hh) as Hs. unfold room in Hr.
  unfold align_enc, get, put, nop, mbind, P_bind. osimp. destruct (Z.eqb_spec (pos st) 0).
  - exists st. rewrite pad_aligned by lia. by rewrite app_nil_r.
  - eexists. split; [done|]. split; [|done]. assert (Lp : length (pad (length B)) = Z.to_nat (8 - pos st)) by (rewrite pad_length; lia).
    split; [split|..]; cbn [data len pos offset]; rewrite ?length_app, ?Lp; [|apply Hh|rewrite wrap32_id by lia; lia|lia|lia|lia].
    intros i Hi. rewrite (h_bits _ _ Hh) by done. destruct (Z.ltb_spec i (Z.of_nat (length B))).
    + by rewrite bitn_app_l by lia.
    + rewrite bitn_app_r by lia. unfold pad. rewrite bitn_repeat. apply bitn_high. lia.
Qed.

Lemma codec_align : Codec 7 align_enc align_dec (fun _ => True).
Proof.
  intros st B Hw Hr. destruct (align_enc_ok st B Hw Hr) as (st' & E & Hw' & L). exists st', (pad (length B)).
  split; [done|]. split; [done|]. split; [done|]. split; [rewrite pad_length; lia|].
  intros s R Hsr. destruct (align_dec_ok _ _ _ Hsr) as (s' & E' & H'). eauto.
Qed.

(** Octets. *)
Lemma write_octets l : forall st B, bytes_ok l -> writing st B -> room st B (8 * length l) ->
  exists st', eachP (setbits 8) l st = Ok (tt, st') /\ writing st' (B ++ octbits l) /\ length (data st') = length (data st).
Proof.
  induction l as [|b l IH]; intros st B Hl Hw Hr.
  { exists st. split; [done|]. by rewrite app_nil_r. }
  inversion Hl as [|? ? Hb Hl']; subst. cbn [length] in Hr.
  destruct (setbits_ok 8 b st B Hw ltac:(lia)) as (s1 & E1 & _ & L1 & Hw1); [unfold byte_ok in Hb; lia|apply (room_le _ _ _ _ Hr); lia|].
  specialize (Hw1 ltac:(lia)). destruct (IH s1 (B ++ bits 8 b) Hl' Hw1) as (s2 & E2 & Hw2 & L2).
  { unfold room in *. rewrite length_app, bits_length, L1. lia. }
  exists s2. change (Z.of_nat 8) with 8 in E1. split; [cbn [eachP]; unfold mbind, P_bind; rewrite E1; osimp; exact E2|].
  rewrite octbits_cons, app_assoc. split; [done|congruence].
Qed.

Lemma codec_octets {A} l (d : P A) Q : bytes_ok l ->
  (forall s n R, reading s n (pad n ++ octbits l ++ R) -> exists a s', d s = Ok (a, s') /\ Q a /\ reading s' (n + length (pad n) + length (octbits l)) R) ->
  Codec (7 + 8 * length l) (setoctets l) d Q.
Proof.
  intros Hl Hd st B Hw Hr. destruct (align_enc_ok st B Hw) as (s1 & E1 & Hw1 & L1); [apply (room_le _ _ _ _ Hr); lia|].
  destruct (write_octets l s1 (B ++ pad (length B)) Hl Hw1) as (s2 & E2 & Hw2 & L2).
  { unfold room in *. rewrite length_app, pad_length, L1. lia. }
  exists s2, (pad (length B) ++ octbits l). split; [unfold setoctets, mbind, P_bind; rewrite E1; osimp; exact E2|].
  rewrite app_assoc. split; [done|]. split; [congruence|]. rewrite length_app, octbits_length, pad_length. split; [lia|].
  intros s R Hs. rewrite <- app_assoc in Hs. destruct (Hd _ _ _ Hs) as (a & s' & Ed & HQ & Hs'). exists a, s'. split; [done|].
  split; [done|]. rewrite octbits_length, pad_length in Hs'. by rewrite Nat.add_assoc.
Qed.

Lemma codec_getoctets l cap n : bytes_ok l -> n = Z.of_nat (length l) -> n <= cap ->
  Codec (7 + 8 * length l) (setoctets l) (getoctets (Some cap) n) (eq (Some l)).
Proof.
  intros Hl -> Hn. apply codec_octets; [done|]. intros s n R Hs. destruct (getoctets_ok _ _ _ _ cap Hs Hl Hn) as (s' & E & H'). eauto.
Qed.

Lemma codec_octets_value l v n : bytes_ok l -> n = Z.of_nat (length l) -> (length l <= 4)%nat -> v = be_val l ->
  Codec 39 (setoctets l) (octets_value n) (eq v).
Proof.
  intros Hl -> L4 ->. eapply codec_weaken; [apply codec_octets; [done|]|cbn; lia|done]. intros s n R Hs.
  destruct (octets_value_ok _ _ _ _ Hs Hl L4) as (s' & E & H'). eauto.
Qed.

(** ** Numbers *)

Lemma codec_bits_value k v : 1 <= k <= 8 -> 0 <= v < 2^k -> Codec 8 (setbits k v) (bits_value k) (eq v).
Proof.
  intros Hk Hv. assert (2^k <= 2^8) by (apply Z.pow_le_mono_r; lia).
  eapply codec_weaken; [apply (codec_bits k v (bits_value k) (eq v)); [lia|lia| |lia]|lia|done].
  intros s n R Hs. destruct (bits_value_ok _ _ _ _ _ Hs) as (s' & E & H'); [lia|by rewrite Z2Nat.id by lia|].
  rewrite Z2Nat.id in E by lia. eauto.
Qed.

(** Numbers of up to two octets. *)
Lemma codec_number_small f f' v Lb Ub : 0 <= Lb <= v -> v <= Ub -> Ub < 2^32 -> Ub - Lb < 65536 ->
  Codec 39 (encode_constrained_number_ (S f) v Lb Ub) (decode_constrained_number_ (S f') Lb Ub) (eq v).
Proof.
  intros Hl Hu H32 Hr. cbn [encode_constrained_number_ decode_constrained_number_].
  assert (E64 : wrap64 (Ub - Lb + 1) = Ub - Lb + 1) by (unfold wrap64; apply Z.mod_small; lia).
  rewrite E64, (wrap32_id (v - Lb)) by lia. set (range := Ub - Lb + 1) in *. cbv zeta.
  assert (F : forall x, v - Lb = x -> v = wrap32 (x + Lb)) by (intros x <-; rewrite wrap32_id by lia; lia).
  assert (Hb : forall k, 1 <= k <= 8 -> range <= 2^k ->
    Codec 39 (setbits k (v - Lb)) (val ← bits_value k; mret (wrap32 (val + Lb))) (eq v)).
  { intros k Hk Hrk. eapply (codec_map _ _ _ _ (eq (v - Lb))); [|exact F].
    eapply codec_weaken; [apply codec_bits_value; [done|lia]|lia|done]. }
  assert (Ho : forall l, bytes_ok l -> (length l <= 4)%nat -> v - Lb = be_val l ->
    Codec 39 (setoctets l) (val ← octets_value (Z.of_nat (length l)); mret (wrap32 (val + Lb))) (eq v)).
  { intros l Hbl L4 E. eapply (codec_map _ _ _ _ (eq (v - Lb))); [|exact F]. by apply codec_octets_value. }
  destruct (Z.eqb_spec range 2); [apply Hb; lia|]. destruct (Z.leb_spec range 4); [apply Hb; lia|].
  destruct (Z.leb_spec range 8); [apply Hb; lia|]. destruct (Z.leb_spec range 16); [apply Hb; lia|].
  destruct (Z.leb_spec range 32); [apply Hb; lia|]. destruct (Z.leb_spec range 64); [apply Hb; lia|].
  destruct (Z.leb_spec range 128); [apply Hb; lia|]. destruct (Z.leb_spec range 255); [apply Hb; lia|].
  destruct (Z.leb_spec range 256).
  { rewrite wrap8_id by lia. apply (Ho [v - Lb]); [by repeat constructor; lia|cbn; lia|done]. }
  destruct (Z.leb_spec range 65536); [|lia].
  assert (E : [((v - Lb) .& 0xff00) >> 8; (v - Lb) .& 0xff] = be16 (v - Lb)).
  { rewrite be16_arith, land_ff, (land_himask _ 16 8 ltac:(lia)), Z.shiftr_div_pow2 by lia. f_equal. lia. }
  rewrite E. apply (Ho (be16 (v - Lb))); [apply be16_bytes|cbn; lia|by rewrite be_val_be16 by lia].
Qed.

(** The octets of a number. *)
Lemma eint_loop_ok k : forall fuel x acc, (k <= fuel)%nat -> 0 <= x < 256 ^ Z.of_nat k ->
  exists l, eint_loop fuel x acc = Ok (l ++ acc) /\ bytes_ok l /\ be_val l = x /\ (length l <= k)%nat.
Proof.
  induction k as [|k IH]; intros fuel x acc Hf Hx.
  { exists []. assert (x = 0) as -> by (cbn in Hx; lia). by destruct fuel. }
  destruct fuel as [|fuel]; [lia|]. cbn [eint_loop]. destruct (Z.eqb_spec x 0) as [->|Hne]; [exists []; cbn; auto with lia|].
  rewrite Nat2Z.inj_succ, Z.pow_succ_r in Hx by lia. rewrite land_ff, Z.shiftr_div_pow2 by lia. change (2^8) with 256.
  destruct (IH fuel (x / 256) (x mod 256 :: acc)) as (l & E & Hl & V & L); [lia|lia|]. exists (l ++ [x mod 256]).
  rewrite E, <- app_assoc. split; [done|]. split; [apply Forall_app; split; [done|repeat constructor; lia]|].
  rewrite be_val_snoc, V, length_app. cbn [length]. split; lia.
Qed.
Lemma eint_ok k x : (1 <= k <= 8)%nat -> 0 <= x < 256 ^ Z.of_nat k ->
  exists l, eint x = Ok l /\ bytes_ok l /\ be_val l = x /\ (1 <= length l <= k)%nat.
Proof.
  intros Hk Hx. unfold eint. destruct (eint_loop_ok k 8 x [] ltac:(lia) Hx) as (l & E & Hl & V & L). rewrite E. osimp.
  rewrite app_nil_r. destruct l as [|b l].
  - exists [0]. split; [done|]. split; [by repeat constructor; lia|]. split; [done|]. cbn; lia.
  - exists (b :: l). cbn [length] in *. split; [done|]. split; [done|]. split; [done|]. lia.
Qed.

(** Longer numbers: their length, and as many octets as are needed. *)
Lemma codec_number_long f f' v Ub : 0 <= v <= Ub -> v < 2^32 -> 65536 <= Ub < 2^40 ->
  Codec 78 (encode_constrained_number_ (S (S f)) v 0 Ub) (decode_constrained_number_ (S (S f')) 0 Ub) (eq v).
Proof.
  intros Hv H32 HU.
  assert (E64 : wrap64 (Ub - 0 + 1) = Ub + 1) by (unfold wrap64; rewrite Z.mod_small; lia).
  assert (Hlong : forall n k, 3 <= n <= 5 -> (1 <= k <= 4)%nat -> Z.of_nat k <= n -> v < 256 ^ Z.of_nat k ->
    Codec 78 (byte ← plift (eint v); encode_constrained_number_ (S f) (Z.of_nat (length byte)) 1 n ;; setoctets byte)
      (n0 ← decode_constrained_number_ (S f') 1 n; octets_value n0) (eq v)).
  { intros n k Hn Hk Hkn Hvk. destruct (eint_ok k v) as (l & E & Hl & V & L); [lia|lia|].
    eapply (codec_ext _ (encode_constrained_number_ (S f) (Z.of_nat (length l)) 1 n ;; setoctets l)); [|intros; unfold plift, mbind, P_bind; rewrite E; done|done].
    eapply codec_weaken; [eapply (codec_bind w_holds); [apply codec_number_small; lia|by eexists|]|..].
    - intros a <-. by apply codec_octets_value; [|..|lia|].
    - lia.
    - done. }
  remember (S f) as f1. remember (S f') as f1'. cbn [encode_constrained_number_ decode_constrained_number_]. rewrite E64. cbv zeta.
  assert (F : forall x, v = x -> v = wrap32 (x + 0)) by (intros x <-; rewrite wrap32_id by lia; lia).
  assert (256 ^ Z.of_nat 3 = 0x1000000 /\ 256 ^ Z.of_nat 4 = 0x100000000) as [E3 E4] by done.
  destruct (Z.eqb_spec (Ub + 1) 2); [lia|].
  repeat (match goal with |- context [Ub + 1 <=? ?n] => assert_succeeds (assert (n <= 65536) by lia); destruct (Z.leb_spec (Ub + 1) n); [lia|] end).
  destruct (Z.leb_spec (Ub + 1) 0x1000000); [eapply codec_map; [apply (Hlong 3 3%nat); lia|exact F]|].
  destruct (Z.leb_spec (Ub + 1) 0x100000000); [eapply codec_map; [apply (Hlong 4 4%nat); lia|exact F]|].
  destruct (Z.leb_spec (Ub + 1) 0x10000000000); [eapply codec_map; [apply (Hlong 5 4%nat); lia|exact F]|lia].
Qed.

(** The numbers of the S1AP messages. *)
Definition number_ok (v Lb Ub : Z) : Prop :=
  0 <= Lb <= v /\ v <= Ub /\ ((Ub - Lb < 65536 /\ Ub < 2^32) \/ (Lb = 0 /\ 65536 <= Ub < 2^40 /\ v < 2^32)).

Lemma codec_number v Lb Ub : number_ok v Lb Ub ->
  Codec 78 (encode_constrained_number v Lb Ub) (decode_constrained_number Lb Ub) (eq v).
Proof.
  intros (Hl & Hu & [[Hr H32] | (-> & HU & H32)]).
  - eapply codec_weaken; [by apply codec_number_small|lia|done].
  - apply (codec_number_long 0 0); lia.
Qed.

(** ** Strings *)

Lemma bits_be_val l : bytes_ok l -> bits (8 * length l) (be_val l) = octbits l.
Proof.
  intros Hl. apply bitn_ext; rewrite bits_length, ?octbits_length; [done|]. intros i Hi.
  rewrite bitn_bits, be_val_bit, membit_octbits by (done || lia). f_equal. lia.
Qed.

Lemma getbits_octets_ok st n l R cap k : reading st n (octbits l ++ R) -> bytes_ok l -> (0 < length l)%nat ->
  k = 8 * Z.of_nat (length l) -> Z.of_nat (length l) <= cap ->
  exists st', getbits (Some cap) k st = Ok (l, st') /\ reading st' (n + 8 * length l) R.
Proof.
  intros H Hl H0 -> Hc. pose proof (octets_up_spec (8 * Z.of_nat (length l)) ltac:(lia)) as Hu.
  destruct (getbits_ok st n (octbits l) R cap H) as (o & s & E & Hs & Ho & Lo & M); rewrite octbits_length in *;
    replace (Z.of_nat (8 * length l)) with (8 * Z.of_nat (length l)) in * by lia; [right; left; lia|lia|lia|].
  exists s. split; [|done]. rewrite E. f_equal. f_equal. apply membit_ext; [done|done|lia|].
  intros i Hi. rewrite (membit_octbits l) by lia. apply M. lia.
Qed.

Lemma codec_bits_octets {A} l k v (d : P A) Q : bytes_ok l -> (1 <= length l <= 4)%nat -> k = 8 * Z.of_nat (length l) -> v = be_val l ->
  (forall s n R, reading s n (octbits l ++ R) -> exists a s', d s = Ok (a, s') /\ Q a /\ reading s' (n + 8 * length l) R) ->
  Codec (8 * length l) (setbits k v) d Q.
Proof.
  intros Hl L -> -> Hd. pose proof (be_val_bound l Hl) as Hb.
  assert (256 ^ Z.of_nat (length l) <= 256 ^ 4) by (apply Z.pow_le_mono_r; lia).
  eapply codec_weaken; [apply (codec_bits (8 * Z.of_nat (length l)) (be_val l) d Q); [lia|lia| |lia]|lia|done].
  intros s n R Hs. replace (Z.to_nat (8 * Z.of_nat (length l))) with (8 * length l)%nat in * by lia.
  rewrite bits_be_val in Hs by done. by apply Hd.
Qed.

Lemma codec_octet_string l n : bytes_ok l -> n = Z.of_nat (length l) -> n <= 65535 ->
  Codec (7 + 8 * length l) (encode_octet_string l n) (decode_octet_string n) (eq l).
Proof.
  intros Hl -> Hn. unfold encode_octet_string, decode_octet_string. destruct l as [|a l].
  { eapply codec_weaken; [exact (codec_nop [] (eq []) eq_refl)|lia|done]. }
  inversion Hl as [|? ? Ha Hl']; subst. destruct (Z.eqb_spec (Z.of_nat (length (a :: l))) 0); [cbn in *; lia|].
  destruct (Z.eqb_spec (Z.of_nat (length (a :: l))) 1).
  { destruct l; [|cbn in *; lia]. eapply codec_weaken; [apply (codec_bits_octets [a] 8 a)|cbn; lia|done]; try done; [cbn; lia|].
    intros s k R Hs. destruct (getbits_octets_ok _ _ _ _ 1 8 Hs) as (s' & E & H'); try done; cbn; try lia. eauto. }
  destruct (Z.eqb_spec (Z.of_nat (length (a :: l))) 2).
  { destruct l as [|b [|? ?]]; cbn [length] in *; try lia. inversion Hl' as [|? ? Hb _]; subst.
    eapply codec_weaken; [apply (codec_bits_octets [a; b] 16 ((a << 8) .| b)); [done|cbn; lia|done| |]|cbn; lia|done].
    - unfold byte_ok in *. rewrite Z.shiftl_mul_pow2, (lor_disjoint_add _ _ 8) by (try lia; apply Z.mod_mul; lia).
      unfold be_val. cbn [fold_left]. lia.
    - intros s k R Hs. destruct (getbits_octets_ok _ _ _ _ 2 16 Hs) as (s' & E & H'); try done; cbn; try lia. eauto. }
  destruct (Z.leb_spec (Z.of_nat (length (a :: l))) 65535); [|lia]. rewrite rdn_all by done.
  eapply codec_ext; [eapply (codec_map _ _ _ _ (eq (Some (a :: l))));
    [apply (codec_getoctets (a :: l) (Z.of_nat (length (a :: l)))); [done|done|lia]|]|done|done].
  by intros ? <-.
Qed.

(** Strings of a fixed number of bits. *)
Lemma bit_string_ok st n k v R cap : reading st n (bits (Z.to_nat k) v ++ R) -> readable k n -> 1 <= k <= 32 -> 0 <= v < 2^k ->
  4 <= cap -> exists o st', getbits (Some cap) k st = Ok (o, st') /\ reading st' (n + Z.to_nat k) R /\
    Z.of_nat (length o) = octets_up k /\ be_val (take 4 (o ++ repeat 0 4)) >> (32 - k) = v.
Proof.
  intros H Hr Hk Hv Hc. pose proof (octets_up_spec k ltac:(lia)) as Hu.
  destruct (getbits_ok st n _ R cap H) as (o & s & E & Hs & Ho & Lo & M); rewrite bits_length in *; rewrite ?Z2Nat.id in * by lia;
    [done|lia|lia|]. exists o, s. split; [done|]. split; [done|]. split; [done|].
  assert (Hby : bytes_ok (take 4 (o ++ repeat 0 4))) by (apply Forall_take, Forall_app; split; [done|by repeat constructor; lia]).
  assert (L4 : length (take 4 (o ++ repeat 0 4)) = 4%nat) by (rewrite length_take, length_app; cbn [repeat length]; lia).
  pose proof (be_val_bound _ Hby) as Hb. rewrite L4 in Hb. change (256 ^ Z.of_nat 4) with (2^32) in Hb.
  apply (bits_eq (Z.to_nat k)); rewrite ?Z2Nat.id by lia; [|done|].
  - rewrite Z.shiftr_div_pow2 by lia. split; [apply Z.div_pos; lia|]. apply Z.div_lt_upper_bound; [lia|].
    rewrite <- Z.pow_add_r by lia. replace (32 - k + k) with 32 by lia. lia.
  - intros i Hi. rewrite Z.shiftr_spec, be_val_bit by (done || lia). rewrite L4.
    replace (8 * Z.of_nat 4 - 1 - (i + (32 - k))) with (k - 1 - i) by lia.
    transitivity (membit o (k - 1 - i)).
    + unfold membit. f_equal. rewrite nth_firstn.
      destruct (Nat.ltb_spec (Z.to_nat ((k - 1 - i) / 8)) 4); [|lia]. apply app_nth1. lia.
    + rewrite M by lia. rewrite bitn_bits by lia. f_equal. lia.
Qed.

Lemma codec_bit_string k v : 16 <= k <= 32 -> 0 <= v < 2^k ->
  CodecEnd (7 + Z.to_nat k) (align_enc ;; setbits k v) (decode_bit_string k) (eq v).
Proof.
  intros Hk Hv. assert (2^k <= 2^32) by (apply Z.pow_le_mono_r; lia).
  intros st B Hw Hr. destruct (align_enc_ok st B Hw) as (s1 & E1 & Hw1 & L1); [apply (room_le _ _ _ _ Hr); lia|].
  destruct (setbits_ok (Z.to_nat k) v s1 (B ++ pad (length B)) Hw1) as (s2 & E2 & Hh & L2 & _); [lia|lia| |].
  { unfold room in *. rewrite length_app, pad_length, L1. lia. }
  rewrite Z2Nat.id in E2 by lia. exists s2, (pad (length B) ++ bits (Z.to_nat k) v).
  split; [unfold mbind, P_bind; rewrite E1; osimp; exact E2|]. rewrite app_assoc. split; [done|]. split; [congruence|].
  rewrite length_app, bits_length, pad_length. split; [lia|]. intros s R Hs. rewrite <- app_assoc in Hs.
  destruct (align_dec_ok _ _ _ Hs) as (s' & E' & H'). unfold decode_bit_string. destruct (Z.leb_spec 16 k); [|lia].
  pose proof (pad_aligns (length B)) as Ha.
  destruct (bit_string_ok _ _ k v R MAXDATABYTES H') as (o & s'' & E'' & H'' & Lo & V); [unfold readable; lia|lia|done|unfold MAXDATABYTES; lia|].
  exists v, s''. split; [|split; [done|by rewrite pad_length, Nat.add_assoc in *]].
  unfold mbind, P_bind. rewrite E'. osimp. rewrite E''. osimp. unfold plift, fits. pose proof (octets_up_spec k ltac:(lia)).
  destruct (Z.ltb_spec 4 (octets_up k)); [lia|]. osimp. unfold mret, P_ret. by rewrite V.
Qed.

(** ** Lengths and open types *)

Lemma be_val_2 a b : be_val [a; b] = 256 * a + b.
Proof. unfold be_val. cbn [fold_left]. lia. Qed.

Lemma length_undef_1 st n v R : reading st n (pad n ++ octbits [v] ++ R) -> 0 <= v < 128 ->
  exists st', decode_length_undef st = Ok (v, st') /\ reading st' (n + length (pad n) + length (octbits [v])) R.
Proof.
  intros H Hv. destruct (align_dec_ok _ _ _ H) as (s1 & E1 & H1). unfold decode_length_undef, mbind, P_bind. rewrite E1. osimp.
  unfold get, plift, put, mret, P_ret. osimp.
  destruct (reading_octets _ _ [v] _ H1 (pad_aligns n)) as (L & T & H2); [repeat constructor; unfold byte_ok; lia|].
  cbn [length] in L, T. destruct (data s1) as [|x rest] eqn:Ed; [cbn in L; lia|]. cbn [take] in T. injection T as ->.
  cbn [rd]. osimp. assert (v .& 0x80 = 0) as ->. { rewrite (land_himask _ 8 7 ltac:(lia)). rewrite !Z.mod_small by lia. lia. }
  cbn [Z.eqb]. eexists. split; [|exact H2]. f_equal. f_equal. change 0x7f with (Z.ones 7). rewrite Z.land_ones by lia. apply Z.mod_small. lia.
Qed.

Lemma length_undef_2 st n v a b R : reading st n (pad n ++ octbits [a; b] ++ R) -> 0 <= v < 16384 -> a = v / 256 + 128 -> b = v mod 256 ->
  exists st', decode_length_undef st = Ok (v, st') /\ reading st' (n + length (pad n) + length (octbits [a; b])) R.
Proof.
  intros H Hv Ha Hb. destruct (align_dec_ok _ _ _ H) as (s1 & E1 & H1). unfold decode_length_undef, mbind, P_bind. rewrite E1. osimp.
  unfold get, plift, put, mret, P_ret. osimp.
  destruct (reading_octets _ _ [a; b] _ H1 (pad_aligns n)) as (L & T & H2); [repeat constructor; unfold byte_ok; lia|].
  cbn [length] in L, T. destruct (data s1) as [|x [|y rest]] eqn:Ed; [cbn in L; lia..|]. cbn [take] in T. injection T as -> ->.
  cbn [rd]. osimp. assert (a .& 0x80 = 128) as -> by (rewrite (land_himask _ 8 7 ltac:(lia)); lia).
  assert (a .& 0xc0 = 128) as -> by (rewrite (land_himask _ 8 6 ltac:(lia)); lia). cbn [Z.eqb Pos.eqb].
  change (rdn (a :: b :: rest) 2) with (rdn ([a; b] ++ rest) 2). rewrite rdn_app by done. osimp. eexists. split; [|exact H2]. f_equal. f_equal.
  rewrite be_val_2. change 0x3fff with (Z.ones 14). rewrite Z.land_ones by lia. lia.
Qed.

(** The octets of a length, and what is read from them. *)
Lemma length_octets v : 0 <= v < 16384 -> exists lo, bytes_ok lo /\ (1 <= length lo <= 2)%nat /\
  encode_unconstrained_number v = setoctets lo /\
  forall s n R, reading s n (pad n ++ octbits lo ++ R) ->
    exists s', decode_length_undef s = Ok (v, s') /\ reading s' (n + length (pad n) + length (octbits lo)) R.
Proof.
  intros Hv. unfold encode_unconstrained_number. destruct (Z.ltb_spec v 128).
  - exists [v]. split; [constructor; [unfold byte_ok; lia|done]|]. split; [cbn; lia|]. split.
    + do 2 f_equal. change 0x7f with (Z.ones 7). rewrite Z.land_ones by lia. apply Z.mod_small. lia.
    + intros s n R Hs. apply length_undef_1; [done|lia].
  - exists [v / 256 + 128; v mod 256]. split; [repeat (constructor; [unfold byte_ok; lia|]); done|]. split; [cbn; lia|]. split.
    + destruct (Z.ltb_spec v 16384); [|lia]. rewrite land_ff. do 2 f_equal.
      rewrite (land_himask _ 14 8 ltac:(lia)), Z.shiftr_div_pow2 by lia.
      rewrite Z.lor_comm, (lor_disjoint_add _ _ 7) by (try lia; done). lia.
    + intros s n R Hs. by apply length_undef_2.
Qed.

Lemma codec_length v : 0 <= v < 16384 -> Codec 23 (encode_unconstrained_number v) decode_length_undef (eq v).
Proof.
  intros Hv. destruct (length_octets v Hv) as (lo & Hl & L & -> & D).
  eapply codec_weaken; [apply (codec_octets lo _ (eq v) Hl)|lia|done]. intros s n R Hs. destruct (D s n R Hs) as (s' & E & H'). eauto.
Qed.

(** At an aligned position [encode_octet_string] writes the octets. *)
Lemma write_octet_string l n st B : bytes_ok l -> n = Z.of_nat (length l) -> n <= 65535 -> writing st B -> Z.of_nat (length B) mod 8 = 0 ->
  room st B (8 * length l) ->
  exists st', encode_octet_string l n st = Ok (tt, st') /\ writing st' (B ++ octbits l) /\ length (data st') = length (data st).
Proof.
  intros Hl -> Hn Hw Ha Hr. destruct l as [|a [|b [|c l]]].
  - exists st. by rewrite app_nil_r.
  - destruct (write_octets [a] st B Hl Hw Hr) as (st' & E & H). exists st'. split; [|done].
    change (setbits 8 a st = Ok (tt, st')). cbn [eachP] in E. unfold mbind, P_bind, nop, mret, P_ret in E.
    destruct (setbits 8 a st) as [[[] ?]|]; [|done]. osimp. done.
  - inversion Hl as [|? ? Hxa Hl']; subst. inversion Hl' as [|? ? Hxb _]; subst. pose proof (be_val_bound _ Hl) as Hb.
    change (256 ^ Z.of_nat (length [a; b])) with 65536 in Hb.
    destruct (setbits_ok 16 (be_val [a; b]) st B Hw) as (st' & E & _ & L & Hw'); [lia|lia|done|]. exists st'.
    change (bits 16 (be_val [a; b])) with (bits (8 * length [a; b]) (be_val [a; b])) in Hw'. rewrite bits_be_val in Hw' by done.
    split; [|split; [apply Hw'; lia|done]]. change (setbits 16 ((a << 8) .| b) st = Ok (tt, st')). rewrite <- E. f_equal. unfold byte_ok in *.
    rewrite Z.shiftl_mul_pow2, (lor_disjoint_add _ _ 8) by (try lia; apply Z.mod_mul; lia). rewrite be_val_2. lia.
  - destruct (write_octets (a :: b :: c :: l) st B Hl Hw Hr) as (st' & E & H). exists st'. split; [|done]. unfold encode_octet_string.
    set (l' := a :: b :: c :: l) in *. assert (3 <= Z.of_nat (length l')) by (unfold l'; cbn [length]; lia).
    repeat (match goal with |- context [Z.of_nat (length l') =? ?k] => destruct (Z.eqb_spec (Z.of_nat (length l')) k); [lia|] end).
    destruct (Z.leb_spec (Z.of_nat (length l')) 65535); [|lia]. unfold plift, mbind, P_bind. rewrite rdn_all by done. osimp.
    unfold setoctets, mbind, P_bind, align_enc, get, mbind, P_bind. osimp. pose proof (w_pos _ _ Hw). destruct (Z.eqb_spec (pos st) 0); [|lia].
    unfold nop, mret, P_ret. osimp. exact E.
Qed.

(** A length and an octet string of that length. *)
Lemma codec_counted l cap : bytes_ok l -> Z.of_nat (length l) < 16384 -> Z.of_nat (length l) <= cap (Z.of_nat (length l)) ->
  Codec (30 + 8 * length l) (encode_unconstrained_number (Z.of_nat (length l)) ;; encode_octet_string l (Z.of_nat (length l)))
    (n ← decode_length_undef; (o ← getoctets (Some (cap n)) n; mret (n, o))) (eq (Z.of_nat (length l), Some l)).
Proof.
  intros Hl Hn Hc st B Hw Hr. destruct (length_octets (Z.of_nat (length l)) ltac:(lia)) as (lo & Hlo & L2 & Ee & D).
  destruct (align_enc_ok st B Hw) as (s1 & E1 & Hw1 & L1); [apply (room_le _ _ _ _ Hr); lia|].
  set (B1 := B ++ pad (length B)) in *. assert (LB1 : length B1 = (length B + length (pad (length B)))%nat) by (unfold B1; by rewrite length_app).
  pose proof (pad_aligns (length B)) as Ha. pose proof (pad_length (length B)) as Lp.
  destruct (write_octets lo s1 B1 Hlo Hw1) as (s2 & E2 & Hw2 & L3); [unfold room in *; lia|].
  destruct (write_octet_string l _ s2 (B1 ++ octbits lo) Hl eq_refl ltac:(lia) Hw2) as (s3 & E3 & Hw3 & L4);
    [rewrite length_app, octbits_length; lia|unfold room in *; rewrite length_app, octbits_length; lia|].
  exists s3, (pad (length B) ++ octbits lo ++ octbits l).
  split; [rewrite Ee; unfold setoctets, mbind, P_bind; rewrite E1; osimp; rewrite E2; osimp; exact E3|].
  split; [unfold B1 in Hw3; by rewrite <- !app_assoc in Hw3|]. split; [congruence|].
  rewrite !length_app, !octbits_length. split; [lia|]. intros s R Hs. rewrite <- !app_assoc in Hs.
  destruct (D _ _ _ Hs) as (s' & Ed & Hs'). rewrite octbits_length in Hs'. set (n' := (length B + length (pad (length B)) + 8 * length lo)%nat) in *.
  assert (Ep : pad n' = []) by (apply pad_aligned; unfold n'; lia).
  destruct (getoctets_ok s' n' l R (cap (Z.of_nat (length l)))) as (s'' & E'' & Hs''); [by rewrite Ep|done|done|].
  eexists _, s''. split; [unfold mbind, P_bind; rewrite Ed; osimp; rewrite E''; done|]. split; [done|].
  rewrite Ep, octbits_length in Hs''. cbn [length] in Hs''. by replace (length B + (length (pad (length B)) + (8 * length lo + 8 * length l)))%nat with (n' + 0 + 8 * length l)%nat by (unfold n'; lia).
Qed.

(** The contents of an open type: from the start of a buffer of their own. *)
Definition CodecValue {A} (m : nat) (e : P unit) (d : P A) (Q : A -> Prop) : Prop :=
  forall st, writing st [] -> room st [] m -> exists st' G, e st = Ok (tt, st') /\ holds st' G /\
    length (data st') = length (data st) /\ (length G <= m)%nat /\
    forall s R, reading s 0 (G ++ R) -> exists a s', d s = Ok (a, s') /\ Q a.

Lemma codec_value {A} m e (d : P A) Q : CodecEnd m e d Q -> CodecValue m e d Q.
Proof.
  intros H st Hw Hr. destruct (H st [] Hw Hr) as (st' & G & E & Hw' & L & Lg & D). exists st', G. do 4 (split; [done|]).
  intros s R Hs. destruct (D s R Hs) as (a & s' & Ed & HA & _). eauto.
Qed.

Lemma codec_value_weaken {A} m n e (d : P A) (Q Q' : A -> Prop) : CodecValue m e d Q -> (m <= n)%nat -> (forall a, Q a -> Q' a) -> CodecValue n e d Q'.
Proof.
  intros H Hm HQ st Hw Hr. destruct (H st Hw (room_le _ _ _ _ Hr Hm)) as (st' & G & E & Hw' & L & Lg & D).
  exists st', G. split; [done|]. split; [done|]. split; [done|]. split; [lia|].
  intros s R Hs. destruct (D s R Hs) as (a & s' & Ed & HA). eauto.
Qed.

Lemma nth_zero n i : nth i (repeat 0 n) 0 = 0.
Proof. destruct (lt_dec i n); [by apply nth_repeat_lt|]. apply nth_overflow. rewrite repeat_length. lia. Qed.
Lemma new_buffer_writing n : 0 <= n < 2^28 -> writing (new_buffer n) [].
Proof.
  intros Hn. split; [split|..]; cbn [data len pos offset new_buffer length]; [|..|done|done].
  - intros i Hi. rewrite (bitn_high []) by (cbn; lia). unfold membit. rewrite nth_zero. apply Z.bits_0.
  - apply Forall_forall. intros x Hx. apply list_elem_of_In, repeat_spec in Hx. subst x. unfold byte_ok. lia.
  - done.
  - rewrite repeat_length. lia.
Qed.

(** The first octets of a buffer hold its bits. *)
Lemma holds_octets st G k : holds st G -> k = octets_up (len st) -> k <= Z.of_nat (length (data st)) ->
  exists Z0, octbits (take (Z.to_nat k) (data st)) = G ++ Z0.
Proof.
  intros Hh -> Hk. pose proof (h_len _ _ Hh) as Hl. pose proof (octets_up_spec (len st) ltac:(lia)) as Hu.
  set (n := Z.to_nat (octets_up (len st))) in *. set (X := octbits (take n (data st))).
  assert (LX : length X = (8 * n)%nat) by (unfold X; rewrite octbits_length, length_take; lia).
  exists (drop (length G) X). rewrite <- (take_drop (length G) X) at 1. f_equal. apply bitn_ext; [rewrite length_take; lia|].
  rewrite length_take. intros i Hi. rewrite <- (h_bits _ _ Hh) by lia. transitivity (bitn X i).
  - unfold bitn. rewrite nth_firstn. by destruct (Nat.ltb_spec (Z.to_nat i) (length G)); [|lia].
  - unfold X. rewrite <- membit_octbits by lia. rewrite <- (take_drop n (data st)) at 2.
    by rewrite membit_app_l by (rewrite length_take; lia).
Qed.

Lemma open_type_reading l off : bytes_ok l -> Z.of_nat (length l) < 2^28 ->
  reading {| data := l; offset := off; pos := 0; len := Z.of_nat (length l) * 8 |} 0 (octbits l).
Proof.
  intros Hl Hn. split; cbn [pos data len]; [done|done|lia|rewrite octbits_length; lia|].
  intros i Hi. change (Z.of_nat 0 mod 8 + i) with i. by rewrite membit_octbits by lia.
Qed.

Lemma codec_open_type {A} m e (d : P A) Q N cap : CodecValue m e d Q -> Z.of_nat m + 8 <= 8 * N ->
  Z.of_nat m <= 8 * cap -> N < 16384 ->
  Codec (m + 45) (enc_open N e) (dec_open cap d) Q.
Proof.
  intros H Hm HN Hc. destruct (H (new_buffer N)) as (tmp & G & E & Hh & L & Lg & D); [apply new_buffer_writing; lia| |].
  { unfold room, new_buffer. cbn [data]. rewrite repeat_length. cbn [length]. lia. }
  cbn [new_buffer data] in L. rewrite repeat_length in L. pose proof (h_len _ _ Hh) as Hl.
  pose proof (octets_up_spec (len tmp) ltac:(lia)) as Hu. set (k := octets_up (len tmp)) in *.
  destruct (holds_octets _ _ k Hh eq_refl ltac:(lia)) as [Z0 EO]. set (v := take (Z.to_nat k) (data tmp)) in *.
  assert (Lv : Z.of_nat (length v) = k) by (unfold v; rewrite length_take; lia).
  assert (Hv : bytes_ok v) by (apply Forall_take, Hh).
  eapply (codec_ext _ (encode_unconstrained_number k ;; setoctets v) _
    (n ← decode_length_undef; (o ← getoctets (Some cap) n; '(a, _) ← plift (d {| data := match o with Some o => o | None => [] end; offset := 0; pos := 0; len := n * 8 |}); mret a))).
  - eapply codec_weaken; [eapply (codec_bind w_holds 23 (7 + 8 * length v)); [apply codec_length; lia|by eexists|]|lia|done].
    intros ? <-. apply codec_octets; [done|]. intros s n R Hs.
    destruct (getoctets_ok _ _ _ _ cap Hs Hv ltac:(lia)) as (s' & E' & H'). rewrite Lv in E'.
    destruct (D {| data := v; offset := 0; pos := 0; len := k * 8 |} Z0) as (a & s'' & Ea & HQ).
    { rewrite <- EO, <- Lv. apply open_type_reading; [done|lia]. }
    exists a, s'. split; [|done]. unfold plift, mbind, P_bind. rewrite E'. osimp. rewrite Ea. done.
  - intros st. unfold enc_open, plift, mbind, P_bind. rewrite E. osimp. unfold encode_open_type, plift, mbind, P_bind. fold k.
    destruct (encode_unconstrained_number k st) as [[[] ?]|]; [|done]. osimp. unfold rdn.
    destruct (Z.ltb_spec (Z.of_nat (length (data tmp))) k); [lia|]. done.
  - intros st. unfold dec_open, decode_open_type, plift, mbind, P_bind, mret, P_ret.
    destruct (decode_length_undef st) as [[n ?]|]; [|done]. osimp. destruct (getoctets (Some cap) n _) as [[o ?]|]; done.
Qed.

(** ** Lists *)

Lemma codec_items {A} (f : A -> nat) e (d : P A) (Rel : A -> A -> Prop) max l : forall acc,
  Forall (fun x => Codec (f x) (e x) d (Rel x) /\ exists a, Rel x a) l -> Z.of_nat (length acc + length l) < max ->
  Codec (sum_list_with f l) (eachP e l) (dec_items (length l) max d acc) (fun r => exists l', r = acc ++ l' /\ Forall2 Rel l l').
Proof.
  induction l as [|x l IH]; intros acc Hl Hm.
  { apply codec_nop. exists []. by rewrite app_nil_r. }
  inversion Hl as [|? ? [Hx Ex] Hl']; subst. cbn [eachP dec_items length sum_list_with fmap] in *.
  apply (codec_bind w_holds (f x) (sum_list_with f l) _ _ _ _ (Rel x)); [done|done|]. intros a Ha. unfold additem.
  destruct (Z.eqb_spec (Z.of_nat (length acc) + 1) max); [lia|].
  eapply codec_weaken; [apply (IH (acc ++ [a])); [done|rewrite length_app; cbn [length]; lia]|done|].
  intros r (l' & -> & HF). exists (a :: l'). rewrite <- app_assoc. split; [done|by constructor].
Qed.

Lemma codec_chars v cap : bytes_ok v -> 1 <= cap ->
  Codec (8 * length v) (eachP (setbits 8) v) (repeatP (length v) (c ← getbits (Some cap) 8; plift (rd c))) (eq v).
Proof.
  intros Hv Hc. induction Hv as [|b v Hb Hv IH]; [by apply codec_nop|]. cbn [eachP repeatP length].
  replace (8 * S (length v))%nat with (8 + 8 * length v)%nat by lia.
  apply (codec_bind w_holds 8 (8 * length v) _ _ _ _ (eq b)); [|by eexists|].
  - apply (codec_bits_octets [b] 8 b); [by constructor|cbn; lia|done|done|]. intros s n R Hs.
    destruct (getbits_octets_ok _ _ _ _ cap 8 Hs) as (s' & E & H'); [by constructor|cbn; lia|done|cbn; lia|].
    exists b, s'. split; [|done]. unfold mbind, P_bind. rewrite E. done.
  - intros ? <-. eapply codec_map; [exact IH|]. by intros ? <-.
Qed.

Lemma codec_PrintableString str slen cap Lb Ub : bytes_ok str -> 0 <= Lb <= slen -> slen <= Ub -> Ub - Lb < 65536 -> Ub < 2^32 ->
  1 <= Ub -> slen + 1 < Z.of_nat (length str) -> slen + 1 <= cap ->
  Codec (86 + 8 * Z.to_nat slen) (encode_PrintableString Lb Ub str slen 0) (decode_PrintableString cap Lb Ub) (eq (Some (take (Z.to_nat slen) str))).
Proof.
  intros Hs Hl Hu Hr H32 HU Hlen Hc. unfold encode_PrintableString, decode_PrintableString.
  replace (86 + 8 * Z.to_nat slen)%nat with (1 + (78 + (7 + (8 * Z.to_nat slen))))%nat by lia.
  apply (codec_bind w_holds 1 _ _ _ _ _ (eq 0)); [apply codec_bit; lia|by eexists|]. intros ? <-. cbn [Z.eqb negb].
  apply (codec_bind w_holds 78 _ _ _ _ _ (eq slen)); [apply codec_number; unfold number_ok; lia|by eexists|]. intros ? <-.
  apply (codec_bind w_holds 7 _ _ _ _ _ (fun _ => True)); [apply codec_align|by exists tt|]. intros ? _.
  set (v := take (Z.to_nat slen) str). assert (Lv : length v = Z.to_nat slen) by (unfold v; rewrite length_take; lia).
  eapply codec_ext; [eapply (codec_map _ _ _ Some (eq v)); [rewrite <- Lv; apply (codec_chars v Ub); [by apply Forall_take|done]|by intros ? <-]|..].
  - intros st. unfold plift, mbind, P_bind, rdn. destruct (Z.ltb_spec (Z.of_nat (length str)) slen); [lia|]. osimp. fold v.
    destruct (eachP (setbits 8) v st) as [[[] ?]|]; [|done]. osimp. rewrite rdi_nth by lia. done.
  - intros st. rewrite Lv. unfold plift, mbind, P_bind. destruct (repeatP _ _ st) as [[? ?]|]; [|done]. osimp. unfold fits.
    destruct (Z.ltb_spec cap (slen + 1)); [lia|]. done.
Qed.
