(* ===== verification/S1APTypes.v ===== *)
(** The data of the S1AP codec: the structures of src/S1AP/shared/S1AP_IE.h,
    Containers.h and S1AP_PDU.h, their constructors (src/S1AP/src/S1AP_IE.c,
    Containers.c, S1AP_PDU.c) and the access functions of src/S1AP/src/S1AP.c.

    A structure is an inductive type with one constructor whose arguments are
    the members of the source, in their order.  A pointer member is an
    [option]; an array member and the items of a list type are lists.  The
    methods ([freeIE], [showIE], [additem], ...) are not kept: each structure
    type has one set of them.  Neither is the pointer [iEext]: no constructor
    and no other function ever sets it, so that it is [NULL] in every object.
    An array that [malloc] returned and nothing wrote to is [[]]. *)
From S2P Require Import Prelude PER.

(** ** Constants *)

Definition maxProtocolIEs : Z := 65535.
Definition maxNrOfCSGs : Z := 256.
Definition maxNrOfERABs : Z := 256.
Definition maxnoofTAIs : Z := 256.
Definition maxnoofTACs : Z := 256.
Definition maxNrOfErrors : Z := 256.
Definition maxnoofBPLMNs : Z := 6.
Definition maxnoofPLMNsPerMME : Z := 32.
Definition maxNrOfIndividualS1ConnectionsToReset : Z := 256.
Definition maxnoofRATs : Z := 8.
Definition maxnoofGroupIDs : Z := 65535.
Definition maxnoofMMECs : Z := 256.
Definition MAXBITRATE : Z := 10000000000.

(** ** Parts of information elements *)

Inductive PLMNidentity_t := PLMNidentity (tbc : list Z) (MCC MNC : Z).
Definition new_PLMNidentity : PLMNidentity_t := PLMNidentity [0; 0; 0] 0 0.

Inductive ENB_ID_t := ENB_ID (ext choice id : Z).
Definition new_ENB_ID : ENB_ID_t := ENB_ID 0 0 0.

(** [size] items are expected, [n] were added. *)
Inductive BPLMNs_t := BPLMNs (size : Z) (pLMNidentity : list PLMNidentity_t).
Definition new_BPLMNs : BPLMNs_t := BPLMNs 0 [].
Definition BPLMNs_addPLMNid (c : BPLMNs_t) (item : PLMNidentity_t) : BPLMNs_t :=
  let '(BPLMNs size l) := c in BPLMNs size (additem maxnoofTACs l item).

(** The constructor clears the item once more, not the array [tAC]. *)
Inductive SupportedTAs_Item_t := SupportedTAs_Item (ext opt : Z) (tAC : list Z) (broadcastPLMNs : option BPLMNs_t).
Definition new_SupportedTAs_Item : SupportedTAs_Item_t := SupportedTAs_Item 0 0 [] None.

Inductive CSG_IdList_Item_t := CSG_IdList_Item (ext opt : Z) (cSG_id : option Z).
Definition new_CSG_IdList_Item : CSG_IdList_Item_t := CSG_IdList_Item 0 0 None.

(** [MME_Group_ID_t] and [MME_Code_t] hold an array only. *)
Definition new_MME_Group_ID : list Z := [0; 0].
Definition new_MME_Code : list Z := [0].

Inductive ServedGUMMEIsItem_t := ServedGUMMEIsItem (ext opt : Z) (servedPLMNs : option (list PLMNidentity_t))
  (servedGroupIDs servedMMECs : option (list (list Z))).
Definition new_ServedGUMMEIsItem : ServedGUMMEIsItem_t := ServedGUMMEIsItem 0 0 None None None.

Inductive CriticalityDiagnostics_IE_Item_t := CriticalityDiagnostics_IE_Item (ext opt iECriticality iE_ID typeOfError : Z).
Definition new_CriticalityDiagnostics_IE_Item : CriticalityDiagnostics_IE_Item_t := CriticalityDiagnostics_IE_Item 0 0 0 0 0.

(** [Cause_t]: the members of the union have one layout. *)
Inductive Cause_t := Cause (ext choice cause_ext cause : Z).
Definition new_Cause : Cause_t := Cause 0 0 0 0.

Inductive TAI_t := TAI (ext opt : Z) (pLMNidentity : option PLMNidentity_t) (tAC : list Z).
Definition new_TAI : TAI_t := TAI 0 0 None [0; 0].

Inductive E_RAB_ID_t := E_RAB_ID (ext id : Z).

Inductive AllocationAndRetentionPriority_t := AllocationAndRetentionPriority (ext opt priorityLevel pre_emptionCapability pre_emptionVulnerability : Z).
Definition new_AllocationAndRetentionPriority : AllocationAndRetentionPriority_t := AllocationAndRetentionPriority 0 0 0 0 0.

Inductive GBR_QosInformation_t := GBR_QosInformation (ext opt eRAB_MaximumBitrateDL eRAB_MaximumBitrateUL
  eRAB_GuaranteedBitrateDL eRAB_GuaranteedBitrateUL : Z).
Definition new_GBR_QosInformation : GBR_QosInformation_t := GBR_QosInformation 0 0 0 0 0 0.

Inductive E_RABLevelQoSParameters_t := E_RABLevelQoSParameters (ext opt qCI : Z)
  (allocationRetentionPriority : option AllocationAndRetentionPriority_t) (gbrQosInformation : option GBR_QosInformation_t).
Definition new_E_RABLevelQoSParameters : E_RABLevelQoSParameters_t := E_RABLevelQoSParameters 0 0 0 None None.

Inductive TransportLayerAddress_t := TransportLayerAddress (ext len : Z) (addr : list Z).
Definition new_TransportLayerAddress : TransportLayerAddress_t := TransportLayerAddress 0 0 (repeat 0 20).

(** [Unconstrained_Octed_String_t], also the layout of [UERadioCapability_t]. *)
Inductive Unconstrained_Octed_String_t := Unconstrained_Octed_String (len : Z) (str : list Z).
Definition new_Unconstrained_Octed_String : Unconstrained_Octed_String_t := Unconstrained_Octed_String 0 [].

Inductive UE_S1AP_ID_pair_t := UE_S1AP_ID_pair (ext opt mME_UE_S1AP_ID eNB_UE_S1AP_ID : Z).
Definition new_UE_S1AP_ID_pair : UE_S1AP_ID_pair_t := UE_S1AP_ID_pair 0 0 0 0.

Inductive COUNTvalue_t := COUNTvalue (ext opt pDCP_SN hFN : Z).
Definition new_COUNTvalue : COUNTvalue_t := COUNTvalue 0 0 0 0.

Inductive Global_ENB_ID_t := Global_ENB_ID (ext opt : Z) (pLMNidentity : option PLMNidentity_t) (eNBid : ENB_ID_t).
Definition new_Global_ENB_ID : Global_ENB_ID_t := Global_ENB_ID 0 0 None new_ENB_ID.

Inductive TargeteNB_ID_t := TargeteNB_ID (ext opt : Z) (global_ENB_ID : option Global_ENB_ID_t) (selected_TAI : option TAI_t).
Definition new_TargeteNB_ID : TargeteNB_ID_t := TargeteNB_ID 0 0 None None.

Inductive LAI_t := LAI (ext opt : Z) (pLMNidentity : option PLMNidentity_t) (lAC : list Z).
Definition new_LAI : LAI_t := LAI 0 0 None [0; 0].

Inductive TargetRNC_ID_t := TargetRNC_ID (ext opt : Z) (lAI : option LAI_t) (rNC_ID : Z).
Definition new_TargetRNC_ID : TargetRNC_ID_t := TargetRNC_ID 0 0 None 0.

Inductive CGI_t := CGI (ext opt : Z) (pLMNidentity : option PLMNidentity_t) (lAC cI : list Z).
Definition new_CGI : CGI_t := CGI 0 0 None [0; 0] [0; 0].

Inductive S_TMSI_t := S_TMSI (ext opt : Z) (mMEC m_TMSI : list Z).
Definition new_S_TMSI : S_TMSI_t := S_TMSI 0 0 new_MME_Code [0; 0; 0; 0].

(** ** Information elements *)

(** What [ie->value] points to.  The list types made with
    [SEQ_OF_CONTAINER_HEADER] have one layout, the older list types, which lack
    the method [newItem], another one. *)
Inductive ie_value :=
  | V_MME_UE_S1AP_ID (mme_id : Z)
  | V_ENB_UE_S1AP_ID (eNB_id : Z)
  | V_HandoverType (ext ht : Z)
  | V_Cause (v : Cause_t)
  | V_TargetID (ext choice : Z) (targetID : TargetID_u)
  | V_SeqOfContainer (item : list S1AP_PROTOCOL_IES_t)
  | V_ListBearer (item : list S1AP_PROTOCOL_IES_t)
  | V_E_RABDataForwardingItem (ext opt : Z) (eRAB_ID : E_RAB_ID_t) (dL_transportLayerAddress : option TransportLayerAddress_t)
      (dL_GTP_TEID : list Z) (uL_transportLayerAddress : option TransportLayerAddress_t) (uL_GTP_TEID : list Z)
  | V_E_RABToBeSetupItemBearerSUReq (ext opt : Z) (eRAB_ID : E_RAB_ID_t) (eRABLevelQoSParameters : option E_RABLevelQoSParameters_t)
      (transportLayerAddress : option TransportLayerAddress_t) (gTP_TEID : list Z) (nAS_PDU : option Unconstrained_Octed_String_t)
  | V_E_RABAdmittedItem (ext opt : Z) (eRAB_ID : E_RAB_ID_t) (transportLayerAddress : option TransportLayerAddress_t) (gTP_TEID : list Z)
      (dL_transportLayerAddress : option TransportLayerAddress_t) (dL_GTP_TEID : list Z)
      (uL_transportLayerAddress : option TransportLayerAddress_t) (uL_GTP_TEID : list Z)
  | V_E_RABSetupItemBearerSURes (ext opt : Z) (eRAB_ID : E_RAB_ID_t) (transportLayerAddress : option TransportLayerAddress_t) (gTP_TEID : list Z)
  | V_Unconstrained_Octed_String (v : Unconstrained_Octed_String_t)
  | V_E_RABToBeSetupItemHOReq (ext opt : Z) (eRAB_ID : E_RAB_ID_t) (transportLayerAddress : option TransportLayerAddress_t) (gTP_TEID : list Z)
      (eRABLevelQoSParameters : option E_RABLevelQoSParameters_t)
  | V_E_RABItem (ext opt : Z) (eRAB_ID : E_RAB_ID_t) (cause : option Cause_t)
  | V_E_RABToBeModifiedItemBearerModReq (ext opt : Z) (eRAB_ID : E_RAB_ID_t) (eRABLevelQoSParameters : option E_RABLevelQoSParameters_t)
      (nAS_PDU : option Unconstrained_Octed_String_t)
  | V_SecurityContext (ext opt nextHopChainingCount : Z) (nextHopParameter : option (list Z))
  | V_UEPagingID (ext choice : Z) (s_TMSI : option S_TMSI_t)
  | V_TAIItem (ext opt : Z) (tAI : TAI_t)
  | V_E_RABToBeSetupItemCtxtSUReq (ext opt : Z) (eRAB_ID : E_RAB_ID_t) (eRABlevelQoSParameters : option E_RABLevelQoSParameters_t)
      (transportLayerAddress : option TransportLayerAddress_t) (gTP_TEID : list Z) (nAS_PDU : option Unconstrained_Octed_String_t)
  | V_CriticalityDiagnostics (ext opt procedureCode triggeringMessage procedureCriticality : Z)
      (iEsCriticalityDiagnostics : option (list CriticalityDiagnostics_IE_Item_t))
  | V_Global_ENB_ID (v : Global_ENB_ID_t)
  | V_ENBname (ext : Z) (name : list Z)
  | V_MMEname (ext : Z) (name : list Z)
  | V_ServedPLMNs (item : list PLMNidentity_t)
  | V_SupportedTAs (item : list SupportedTAs_Item_t)
  | V_TimeToWait (ext time : Z)
  | V_UEAggregateMaximumBitrate (ext opt uEaggregateMaximumBitRateDL uEaggregateMaximumBitRateUL : Z)
  | V_TAI (v : TAI_t)
  | V_SecurityKey (key : list Z)
  | V_UERadioCapability (v : Unconstrained_Octed_String_t)
  | V_Direct_Forwarding_Path_Availability (ext ind : Z)
  | V_UEIdentityIndexValue (id : Z)
  | V_RelativeMMECapacity (cap : Z)
  | V_Bearers_SubjectToStatusTransfer_Item (ext opt : Z) (eRAB_ID : E_RAB_ID_t) (uL_COUNTvalue dL_COUNTvalue : option COUNTvalue_t)
  | V_ENB_StatusTransfer_TransparentContainer (ext opt : Z) (bearers_SubjectToStatusTransferList : option (list S1AP_PROTOCOL_IES_t))
  | V_UE_associatedLogicalS1_ConnectionItem (ext opt : Z) (mME_UE_S1AP_ID eNB_UE_S1AP_ID : option Z)
  | V_ResetType (ext choice : Z) (type : ResetType_u)
  | V_S_TMSI (v : S_TMSI_t)
  | V_UE_S1AP_IDs (ext choice : Z) (uE_S1AP_ID : UE_S1AP_IDs_u)
  | V_EUTRAN_CGI (ext opt : Z) (pLMNidentity : option PLMNidentity_t) (cell_ID : Z)
  | V_ServedGUMMEIs (item : list ServedGUMMEIsItem_t)
  | V_SubscriberProfileIDforRFP (subscriberProfileIDforRFP : Z)
  | V_UESecurityCapabilities (ext opt encryptionAlgorithms_ext encryptionAlgorithms_v
      integrityProtectionAlgorithms_ext integrityProtectionAlgorithms_v : Z)
  | V_CNDomain (domain : Z)
  | V_CSG_id (id : Z)
  | V_CSG_IdList (item : list CSG_IdList_Item_t)
  | V_RRC_Establishment_Cause (ext cause : Z)
  | V_PagingDRX (pagingDRX : Z)
  | V_LAI (v : LAI_t)
  | V_MMERelaySupportIndicator (ext ind : Z)
  | V_TransportLayerAddress (v : TransportLayerAddress_t)
(** [S1AP_PROTOCOL_IES_t], also [ProtocolIE_SingleContainer_t]. *)
with S1AP_PROTOCOL_IES_t :=
  | IE (id criticality presence : Z) (value : option ie_value)
(** The union of [ResetType_t]; the pointer of the second member is null when
    nothing was stored. *)
with ResetType_u :=
  | s1_Interface (v : Z)
  | partOfS1_Interface (l : list S1AP_PROTOCOL_IES_t)
(** The union of [TargetID_t]. *)
with TargetID_u :=
  | targetID_unset
  | targeteNB_ID (v : TargeteNB_ID_t)
  | targetRNC_ID (v : TargetRNC_ID_t)
  | cGI (v : CGI_t)
(** The union of [UE_S1AP_IDs_t]. *)
with UE_S1AP_IDs_u :=
  | uE_S1AP_ID_unset
  | uE_S1AP_ID_pair (v : UE_S1AP_ID_pair_t)
  | mME_UE_S1AP_ID (v : Z).

Definition ie_id (ie : S1AP_PROTOCOL_IES_t) : Z := let '(IE i _ _ _) := ie in i.
Definition ie_val (ie : S1AP_PROTOCOL_IES_t) : option ie_value := let '(IE _ _ _ v) := ie in v.

Definition newProtocolIE : S1AP_PROTOCOL_IES_t := IE 0 0 0 None.

(** ** Constructors of the values *)

Definition zeros (n : nat) : list Z := repeat 0 n.
Definition new_teid : list Z := zeros 4.

Definition new_MME_UE_S1AP_ID : ie_value := V_MME_UE_S1AP_ID 0.
Definition new_ENB_UE_S1AP_ID : ie_value := V_ENB_UE_S1AP_ID 0.
Definition new_HandoverType : ie_value := V_HandoverType 0 0.
Definition new_TargetID : ie_value := V_TargetID 0 0 targetID_unset.
(** The [new_] function of every list type made with [SEQ_OF_CONTAINER_FUNC]. *)
Definition new_SEQ_OF_CONTAINER : ie_value := V_SeqOfContainer [].
Definition new_E_RABList : ie_value := new_SEQ_OF_CONTAINER.
Definition new_E_RABToBeSetupListBearerSUReq : ie_value := V_ListBearer [].
Definition new_E_RABToBeModifiedListBearerModReq : ie_value := V_ListBearer [].
Definition new_E_RABDataForwardingItem : ie_value := V_E_RABDataForwardingItem 0 0 (E_RAB_ID 0 0) None new_teid None new_teid.
Definition new_E_RABToBeSetupItemBearerSUReq : ie_value := V_E_RABToBeSetupItemBearerSUReq 0 0 (E_RAB_ID 0 0) None None new_teid None.
Definition new_E_RABAdmittedItem : ie_value := V_E_RABAdmittedItem 0 0 (E_RAB_ID 0 0) None new_teid None new_teid None new_teid.
Definition new_E_RABSetupItemBearerSURes : ie_value := V_E_RABSetupItemBearerSURes 0 0 (E_RAB_ID 0 0) None new_teid.
Definition new_E_RABToBeSetupItemHOReq : ie_value := V_E_RABToBeSetupItemHOReq 0 0 (E_RAB_ID 0 0) None new_teid None.
Definition new_E_RABItem : ie_value := V_E_RABItem 0 0 (E_RAB_ID 0 0) None.
Definition new_E_RABToBeModifiedItemBearerModReq : ie_value := V_E_RABToBeModifiedItemBearerModReq 0 0 (E_RAB_ID 0 0) None None.
Definition new_SecurityContext : ie_value := V_SecurityContext 0 0 0 None.
Definition new_UEPagingID : ie_value := V_UEPagingID 0 0 None.
Definition new_TAIItem : ie_value := V_TAIItem 0 0 new_TAI.
Definition new_E_RABToBeSetupItemCtxtSUReq : ie_value := V_E_RABToBeSetupItemCtxtSUReq 0 0 (E_RAB_ID 0 0) None None new_teid None.
Definition new_CriticalityDiagnostics : ie_value := V_CriticalityDiagnostics 0 0 0 0 0 None.
Definition new_ENBname : ie_value := V_ENBname 0 (zeros 150).
Definition new_MMEname : ie_value := V_MMEname 0 (zeros 150).
Definition new_ServedPLMNs : ie_value := V_ServedPLMNs [].
Definition new_SupportedTAs : ie_value := V_SupportedTAs [].
Definition new_TimeToWait : ie_value := V_TimeToWait 0 0.
Definition new_UEAggregateMaximumBitrate : ie_value := V_UEAggregateMaximumBitrate 0 0 0 0.
Definition new_SecurityKey : ie_value := V_SecurityKey (zeros 32).
Definition new_UERadioCapability : ie_value := V_UERadioCapability new_Unconstrained_Octed_String.
Definition new_Direct_Forwarding_Path_Availability : ie_value := V_Direct_Forwarding_Path_Availability 0 0.
Definition new_UEIdentityIndexValue : ie_value := V_UEIdentityIndexValue 0.
Definition new_RelativeMMECapacity : ie_value := V_RelativeMMECapacity 0.
Definition new_Bearers_SubjectToStatusTransfer_Item : ie_value := V_Bearers_SubjectToStatusTransfer_Item 0 0 (E_RAB_ID 0 0) None None.
Definition new_ENB_StatusTransfer_TransparentContainer : ie_value := V_ENB_StatusTransfer_TransparentContainer 0 0 None.
Definition new_UE_associatedLogicalS1_ConnectionItem : ie_value := V_UE_associatedLogicalS1_ConnectionItem 0 0 None None.
Definition new_ResetType : ie_value := V_ResetType 0 0 (s1_Interface 0).
Definition new_UE_S1AP_IDs : ie_value := V_UE_S1AP_IDs 0 0 uE_S1AP_ID_unset.
Definition new_EUTRAN_CGI : ie_value := V_EUTRAN_CGI 0 0 None 0.
Definition new_ServedGUMMEIs : ie_value := V_ServedGUMMEIs [].
Definition new_SubscriberProfileIDforRFP : ie_value := V_SubscriberProfileIDforRFP 0.
Definition new_UESecurityCapabilities : ie_value := V_UESecurityCapabilities 0 0 0 0 0 0.
Definition new_CNDomain : ie_value := V_CNDomain 0.
Definition new_CSG_id : ie_value := V_CSG_id 0.
Definition new_CSG_IdList : ie_value := V_CSG_IdList [].
Definition new_RRC_Establishment_Cause : ie_value := V_RRC_Establishment_Cause 0 0.
Definition new_PagingDRX : ie_value := V_PagingDRX 0.
Definition new_MMERelaySupportIndicator : ie_value := V_MMERelaySupportIndicator 0 0.

(** [getconstructor[]], by the number of the information element. *)
Definition getconstructor : list (option ie_value) :=
  [ Some new_MME_UE_S1AP_ID; Some new_HandoverType; Some (V_Cause new_Cause); None; Some new_TargetID; None; None; None;
    Some new_ENB_UE_S1AP_ID; None; None; None; Some new_E_RABList; Some new_E_RABList; None; None;
    Some new_E_RABToBeSetupListBearerSUReq; Some new_E_RABToBeSetupItemBearerSUReq; Some new_SEQ_OF_CONTAINER; None;
    Some new_E_RABAdmittedItem; None; Some new_SEQ_OF_CONTAINER; Some new_E_RABSetupItemBearerSURes; Some new_SEQ_OF_CONTAINER;
    None; Some (V_Unconstrained_Octed_String new_Unconstrained_Octed_String); Some new_E_RABToBeSetupItemHOReq;
    Some new_SEQ_OF_CONTAINER; Some new_E_RABList; None; None; Some new_E_RABList; Some new_E_RABList; Some new_E_RABList;
    Some new_E_RABItem; Some new_E_RABToBeModifiedItemBearerModReq; None; None; Some new_E_RABSetupItemBearerSURes;
    Some new_SecurityContext; None; None; Some new_UEPagingID; Some new_PagingDRX; None; Some new_SEQ_OF_CONTAINER;
    Some new_TAIItem; Some new_E_RABList; None; Some new_E_RABSetupItemBearerSURes; Some new_SEQ_OF_CONTAINER;
    Some new_E_RABToBeSetupItemCtxtSUReq; Some new_SEQ_OF_CONTAINER; None; None; None; None; Some new_CriticalityDiagnostics;
    Some (V_Global_ENB_ID new_Global_ENB_ID); Some new_ENBname; Some new_MMEname; None; Some new_ServedPLMNs;
    Some new_SupportedTAs; Some new_TimeToWait; Some new_UEAggregateMaximumBitrate; Some (V_TAI new_TAI); None; None; None; None;
    None; Some new_SecurityKey; Some new_UERadioCapability; None; None; None; None; Some new_Direct_Forwarding_Path_Availability;
    Some new_UEIdentityIndexValue; None; None; None; None; None; None; Some new_RelativeMMECapacity; Some new_MME_UE_S1AP_ID;
    Some new_Bearers_SubjectToStatusTransfer_Item; None; None; None; Some new_SEQ_OF_CONTAINER;
    Some new_E_RABSetupItemBearerSURes; Some new_SEQ_OF_CONTAINER; Some (V_S_TMSI new_S_TMSI); None; None; Some new_UE_S1AP_IDs;
    Some new_EUTRAN_CGI; None; None; None; Some (V_Unconstrained_Octed_String new_Unconstrained_Octed_String);
    Some new_ServedGUMMEIs; Some new_SubscriberProfileIDforRFP; Some new_UESecurityCapabilities; None; Some new_CNDomain;
    Some new_E_RABList; None; None; None; None; None; None; None; None; None; None; None; None;
    Some (V_Unconstrained_Octed_String new_Unconstrained_Octed_String); None; None; None; Some new_CSG_id; Some new_CSG_IdList;
    None; None; None; None; None; Some new_RRC_Establishment_Cause;
    Some (V_Unconstrained_Octed_String new_Unconstrained_Octed_String);
    Some (V_Unconstrained_Octed_String new_Unconstrained_Octed_String); Some new_PagingDRX;
    Some (V_Unconstrained_Octed_String new_Unconstrained_Octed_String);
    Some (V_Unconstrained_Octed_String new_Unconstrained_Octed_String); None; None; None; None; None; None; None; None; None;
    None; None; None; None; None; None; Some (V_TransportLayerAddress new_TransportLayerAddress); None; None; None; None; None;
    None; None; Some new_MMERelaySupportIndicator; None; None; None; None; Some (V_Cause new_Cause); None; None ].

(** ** PLMN identities *)

Definition plmnId_tbcd2MccMnc (self : PLMNidentity_t) : outcome PLMNidentity_t :=
  let '(PLMNidentity s _ _) := self in
  s0 ← rdi s 0; s1 ← rdi s 1; s2 ← rdi s 2;
  let mnc := (s2 .& 0x0f) * 10 + ((s2 .& 0xf0) >> 4) in
  Ok (PLMNidentity s (((s0 .& 0xf0) >> 4) * 10 + (s0 .& 0x0f) * 100 + (s1 .& 0x0f))
       (if (s1 .& 0xf0) >> 4 =? 0xf then mnc else mnc + ((s1 .& 0xf0) >> 4) * 100)).

Definition plmnId_MccMnc2tbcd (self : PLMNidentity_t) : PLMNidentity_t :=
  let '(PLMNidentity _ MCC MNC) := self in
  let s0 := wrap8 ((((MCC mod 100) / 10) << 4) .| (MCC / 100)) in
  let s1 := wrap8 (MCC mod 10) in
  if MNC / 100 =? 0 then
    PLMNidentity [s0; wrap8 (s1 .| 0xf0); wrap8 ((MNC / 10) .| ((MNC mod 10) << 4))] MCC MNC
  else
    PLMNidentity [s0; wrap8 (s1 .| ((MNC mod 10) << 4)); wrap8 ((((MNC mod 100) / 10) << 4) .| (MNC / 100))] MCC MNC.

(** ** Messages *)

Record S1AP_PDU_t := { procedureCode : Z; pdu_criticality : Z; pdu_ext : Z; pdu_value : list S1AP_PROTOCOL_IES_t }.
Record S1AP_Message_t := { extension : Z; choice : Z; pdu : S1AP_PDU_t }.

Definition S1AP_newMsg : S1AP_Message_t :=
  {| extension := 0; choice := 0; pdu := {| procedureCode := 0; pdu_criticality := 0; pdu_ext := 0; pdu_value := [] |} |}.

Definition protocolIE_Container_addIE (c : list S1AP_PROTOCOL_IES_t) (ie : S1AP_PROTOCOL_IES_t) : list S1AP_PROTOCOL_IES_t :=
  additem maxProtocolIEs c ie.

Definition set_value (msg : S1AP_Message_t) (l : list S1AP_PROTOCOL_IES_t) : S1AP_Message_t :=
  {| extension := extension msg; choice := choice msg;
     pdu := {| procedureCode := procedureCode (pdu msg); pdu_criticality := pdu_criticality (pdu msg);
               pdu_ext := pdu_ext (pdu msg); pdu_value := l |} |}.

(** [s1ap_findIe]: the value of the first element with this number. *)
Fixpoint find_elem (l : list S1AP_PROTOCOL_IES_t) (id : Z) : option ie_value :=
  match l with
  | [] => None
  | ie :: l => if ie_id ie =? id then ie_val ie else find_elem l id
  end.
Definition s1ap_findIe (msg : S1AP_Message_t) (id : Z) : option ie_value := find_elem (pdu_value (pdu msg)) id.

(** [s1ap_getIe]: the loop keeps the index of the last element with this
    number, which is then taken out of the vector. *)
Fixpoint last_elem (l : list S1AP_PROTOCOL_IES_t) (id i elem : Z) : Z :=
  match l with
  | [] => elem
  | ie :: l => last_elem l id (i + 1) (if ie_id ie =? id then i else elem)
  end.
Definition s1ap_getIe (msg : S1AP_Message_t) (id : Z) : option ie_value * S1AP_Message_t :=
  let l := pdu_value (pdu msg) in
  let elem := last_elem l id 0 (-1) in
  if elem =? -1 then (None, msg)
  else (match l !! Z.to_nat elem with Some ie => ie_val ie | None => None end,
        set_value msg (take (Z.to_nat elem) l ++ drop (S (Z.to_nat elem)) l)).

(** [s1ap_setValueOnNewIE]: [val->showIE] is read. *)
Definition s1ap_setValueOnNewIE (msg : S1AP_Message_t) (id p c : Z) (val : option ie_value) : outcome S1AP_Message_t :=
  match val with
  | None => UB NullDeref
  | Some v => Ok (set_value msg (protocolIE_Container_addIE (pdu_value (pdu msg)) (IE id c p (Some v))))
  end.
Definition s1ap_copyValueOnNewIE : S1AP_Message_t -> Z -> Z -> Z -> option ie_value -> outcome S1AP_Message_t :=
  s1ap_setValueOnNewIE.

(** [s1ap_newIE]: an element without a constructor calls a null pointer. *)
Definition s1ap_newIE (msg : S1AP_Message_t) (id p c : Z) : outcome (ie_value * S1AP_Message_t) :=
  match getconstructor !! Z.to_nat id with
  | None => UB OutOfBounds
  | Some None => UB NullCall
  | Some (Some val) => m ← s1ap_copyValueOnNewIE msg id p c (Some val); Ok (val, m)
  end.

(** [newItem] of a list type: an element with a new value is added. *)
Definition newItem (id presence criticality max : Z) (item : ie_value) (l : list S1AP_PROTOCOL_IES_t) : list S1AP_PROTOCOL_IES_t :=
  additem max l (IE id criticality presence (Some item)).
