(* ===== verification/S1APEnc.v ===== *)
(** The encoder of S1AP messages (src/S1AP/src/S1AP_IEenc.c and the encoding
    half of src/S1AP/src/S1AP.c).

    A function that takes [S1AP_PROTOCOL_IES_t *ie] uses [ie->value] only,
    through a cast: it takes the value here, and another type of value is the
    fault [BadCast].  An element that only carries a value ([fakeie]) is left
    out.  Writing an [iEext] dereferences its null pointer.  What is only
    logged (extensions that are not implemented) is [nop]. *)
From S2P Require Import Prelude PER S1APTypes.

(** ** Helpers *)

(** Use of a pointer member. *)
Definition with_ptr {A B} (p : option A) (k : A -> P B) : P B :=
  match p with Some a => k a | None => pfault NullDeref end.
(** The value has another type than the encoder expects. *)
Definition badval {A} (v : option ie_value) : P A :=
  match v with None => pfault NullDeref | Some _ => pfault BadCast end.
Definition enc_iEext (present : bool) : P unit := if present then pfault NullDeref else nop.
Definition when (b : bool) (e : P unit) : P unit := if b then e else nop.
(** [(opt & mask) == mask] for a mask of one bit. *)
Definition flag (opt mask : Z) : bool := (opt .& mask) =? mask.

(** The number of items and the items.  A list has at most 255 of them. *)
Definition enc_list {A} (max : Z) (e : A -> P unit) (l : list A) : P unit :=
  encode_constrained_number (Z.of_nat (length l)) 1 max ;; eachP e l.

Fixpoint strlen (s : list Z) : outcome Z :=
  match s with
  | [] => UB OutOfBounds
  | c :: s => if c =? 0 then Ok 0 else n ← strlen s; Ok (n + 1)
  end.

(** ** Parts of information elements *)

Definition enc_PLMNidentity (id : PLMNidentity_t) : P unit :=
  let '(PLMNidentity s _ _) := id in
  s0 ← plift (rdi s 0); s1 ← plift (rdi s 1); s2 ← plift (rdi s 2);
  let '(PLMNidentity s _ _) := if (s0 =? 0) && (s1 =? 0) && (s2 =? 0) then plmnId_MccMnc2tbcd id else id in
  encode_octet_string s 3.

Definition enc_BPLMNs (v : BPLMNs_t) : P unit :=
  let '(BPLMNs size l) := v in
  encode_constrained_number size 1 maxnoofBPLMNs ;;
  eachP enc_PLMNidentity (take (Z.to_nat size) l) ;;
  when (Z.of_nat (length l) <? size) (pfault OutOfBounds).

Definition enc_SupportedTAs_Item (item : SupportedTAs_Item_t) : P unit :=
  let '(SupportedTAs_Item ext opt tAC broadcastPLMNs) := item in
  setbits 1 ext ;; setbits 1 opt ;;
  encode_octet_string tAC 2 ;;
  with_ptr broadcastPLMNs enc_BPLMNs ;;
  nop.

Definition enc_CSGid (id : Z) : P unit := setbits 27 id.

Definition enc_CSGidList_Item (item : CSG_IdList_Item_t) : P unit :=
  let '(CSG_IdList_Item ext opt cSG_id) := item in
  setbits 1 ext ;; setbits 1 opt ;;
  match cSG_id with Some id => enc_CSGid id | None => nop end.

Definition enc_MME_Group_ID (id : list Z) : P unit := encode_octet_string id 2.
Definition enc_ServedGroupIDs (g : list (list Z)) : P unit := enc_list maxnoofGroupIDs enc_MME_Group_ID g.
Definition enc_MME_Code (id : list Z) : P unit := encode_octet_string id 1.
Definition enc_ServedMMECs (g : list (list Z)) : P unit := enc_list maxnoofMMECs enc_MME_Code g.
Definition enc_ServedPLMNs (l : list PLMNidentity_t) : P unit := enc_list maxnoofPLMNsPerMME enc_PLMNidentity l.

Definition enc_ServedGUMMEIsItem (item : ServedGUMMEIsItem_t) : P unit :=
  let '(ServedGUMMEIsItem ext opt servedPLMNs servedGroupIDs servedMMECs) := item in
  setbits 1 ext ;; setbits 1 opt ;;
  match servedPLMNs with Some l => enc_ServedPLMNs l | None => nop end ;;
  match servedGroupIDs with Some l => enc_ServedGroupIDs l | None => nop end ;;
  match servedMMECs with Some l => enc_ServedMMECs l | None => nop end ;;
  nop.

Definition enc_CriticalityDiagnostics_IE_Item (item : CriticalityDiagnostics_IE_Item_t) : P unit :=
  let '(CriticalityDiagnostics_IE_Item ext opt iECriticality iE_ID typeOfError) := item in
  setbits 1 ext ;; setbits 4 (opt >> (8 - 4)) ;;
  when (flag opt 0x8) (encode_constrained_number iECriticality 0 2) ;;
  when (flag opt 0x4) (encode_constrained_number iE_ID 0 255) ;;
  when (flag opt 0x2) (encode_constrained_number typeOfError 0 1) ;;
  nop.
Definition enc_CriticalityDiagnostics_IE_List (l : list CriticalityDiagnostics_IE_Item_t) : P unit :=
  enc_list maxNrOfErrors enc_CriticalityDiagnostics_IE_Item l.

Definition enc_AllocationAndRetentionPriority (v : AllocationAndRetentionPriority_t) : P unit :=
  let '(AllocationAndRetentionPriority ext opt priorityLevel capability vulnerability) := v in
  setbits 1 ext ;; setbits 1 opt ;;
  encode_constrained_number priorityLevel 0 15 ;;
  encode_constrained_number capability 0 1 ;;
  encode_constrained_number vulnerability 0 1 ;;
  nop.

Definition enc_GBR_QosInformation (v : GBR_QosInformation_t) : P unit :=
  let '(GBR_QosInformation ext opt maxDL maxUL guaranteedDL guaranteedUL) := v in
  setbits 1 ext ;; setbits 1 opt ;;
  encode_constrained_number maxDL 0 MAXBITRATE ;;
  encode_constrained_number maxUL 0 MAXBITRATE ;;
  encode_constrained_number guaranteedDL 0 MAXBITRATE ;;
  encode_constrained_number guaranteedUL 0 MAXBITRATE ;;
  nop.

Definition enc_E_RABLevelQoSParameters (v : E_RABLevelQoSParameters_t) : P unit :=
  let '(E_RABLevelQoSParameters ext opt qCI priority gbr) := v in
  setbits 1 ext ;; setbits 5 (opt >> (8 - 5)) ;;
  encode_constrained_number qCI 0 255 ;;
  with_ptr priority enc_AllocationAndRetentionPriority ;;
  when (flag opt 0x80) (with_ptr gbr enc_GBR_QosInformation) ;;
  nop.

(** The last octet is taken from one place too far. *)
Definition enc_TransportLayerAddress (v : TransportLayerAddress_t) : P unit :=
  let '(TransportLayerAddress ext len addr) := v in
  setbits 1 ext ;;
  encode_constrained_number len 1 160 ;;
  align_enc ;;
  l ← plift (rdn addr (len / 8));
  eachP (setbits 8) l ;;
  when (negb (len mod 8 =? 0)) (b ← plift (rdi addr (len / 8 + 1)); setbits (len mod 8) b).

Definition enc_MME_UE_S1AP_ID (mme_id : Z) : P unit := encode_constrained_number mme_id 0 4294967295.
Definition enc_ENB_UE_S1AP_ID (eNB_id : Z) : P unit := encode_constrained_number eNB_id 0 16777215.

Definition enc_UE_S1AP_ID_pair (v : UE_S1AP_ID_pair_t) : P unit :=
  let '(UE_S1AP_ID_pair ext opt mme_id eNB_id) := v in
  setbits 1 ext ;; setbits 1 opt ;;
  enc_MME_UE_S1AP_ID mme_id ;;
  enc_ENB_UE_S1AP_ID eNB_id ;;
  enc_iEext (opt =? 1).

Definition enc_COUNTvalue (v : COUNTvalue_t) : P unit :=
  let '(COUNTvalue ext opt pDCP_SN hFN) := v in
  setbits 1 ext ;; setbits 1 opt ;;
  encode_constrained_number pDCP_SN 0 4095 ;;
  encode_constrained_number hFN 0 1048575 ;;
  enc_iEext (opt =? 1).

Definition enc_E_RAB_ID (v : E_RAB_ID_t) : P unit :=
  let '(E_RAB_ID ext id) := v in
  setbits 1 ext ;;
  if ext =? 0 then encode_constrained_number id 0 15 else encode_semi_constrained_number 0 id.

Definition enc_Global_ENB_ID (v : Global_ENB_ID_t) : P unit :=
  let '(Global_ENB_ID ext opt pLMNidentity (ENB_ID id_ext id_choice id)) := v in
  setbits 1 ext ;; setbits 1 opt ;;
  with_ptr pLMNidentity enc_PLMNidentity ;;
  set_choice_ext id_choice 2 id_ext ;;
  align_enc ;;
  if negb (id_ext =? 0) || (1 <? id_choice) then nop
  else
    align_enc ;;
    if id_choice =? 0 then setbits 20 id else setbits 28 id.

Definition enc_TAI (v : TAI_t) : P unit :=
  let '(TAI ext opt pLMNidentity tAC) := v in
  setbits 1 ext ;; setbits 1 opt ;;
  with_ptr pLMNidentity enc_PLMNidentity ;;
  encode_octet_string tAC 2 ;;
  nop.

Definition enc_TargeteNB_ID (v : TargeteNB_ID_t) : P unit :=
  let '(TargeteNB_ID ext opt global_ENB_ID selected_TAI) := v in
  setbits 1 ext ;; setbits 1 opt ;;
  with_ptr global_ENB_ID enc_Global_ENB_ID ;;
  with_ptr selected_TAI enc_TAI ;;
  enc_iEext (opt =? 1).

Definition enc_LAI (v : LAI_t) : P unit :=
  let '(LAI ext opt pLMNidentity lAC) := v in
  setbits 1 ext ;; setbits 1 opt ;;
  with_ptr pLMNidentity enc_PLMNidentity ;;
  encode_octet_string lAC 2 ;;
  enc_iEext (opt =? 1).

Definition enc_TargetRNC_ID (v : TargetRNC_ID_t) : P unit :=
  let '(TargetRNC_ID ext opt lAI rNC_ID) := v in
  setbits 1 ext ;; setbits 3 (opt >> (8 - 3)) ;;
  with_ptr lAI enc_LAI ;;
  encode_constrained_number rNC_ID 0 4095 ;;
  enc_iEext (flag opt 0x20).

Definition enc_CGI (v : CGI_t) : P unit :=
  let '(CGI ext opt pLMNidentity lAC cI) := v in
  setbits 1 ext ;; setbits 2 (opt >> (8 - 2)) ;;
  with_ptr pLMNidentity enc_PLMNidentity ;;
  encode_octet_string lAC 2 ;;
  encode_octet_string cI 2 ;;
  enc_iEext (flag opt 0x40).

(** The cause of a group: its extension flag, and the number when it is one of
    the first [max + 1]. *)
Definition enc_cause_value (ext cause max : Z) (e_ext : P unit) : P unit :=
  setbits 1 ext ;;
  if ext =? 0 then encode_constrained_number cause 0 max else e_ext.

Definition enc_Cause (v : Cause_t) : P unit :=
  let '(Cause ext choice cause_ext cause) := v in
  set_choice_ext choice 5 ext ;;
  if ext =? 0 then
    if choice =? 0 then enc_cause_value cause_ext cause 35 (encode_small_number cause)
    else if choice =? 1 then enc_cause_value cause_ext cause 1 nop
    else if choice =? 2 then enc_cause_value cause_ext cause 3 (encode_small_number cause)
    else if choice =? 3 then enc_cause_value cause_ext cause 6 nop
    else if choice =? 4 then enc_cause_value cause_ext cause 5 nop
    else nop
  else nop.

Definition enc_Unconstrained_Octed_String (v : Unconstrained_Octed_String_t) : P unit :=
  let '(Unconstrained_Octed_String len str) := v in
  encode_unconstrained_number len ;;
  encode_octet_string str len.

Definition enc_SecurityKey (key : list Z) : P unit := v ← plift (rdn key 32); setoctets v.

Definition enc_S_TMSI (v : S_TMSI_t) : P unit :=
  let '(S_TMSI ext opt mMEC m_TMSI) := v in
  setbits 1 ext ;; setbits 1 opt ;;
  enc_MME_Code mMEC ;;
  encode_octet_string m_TMSI 4 ;;
  enc_iEext (opt =? 1).

(** ** Information elements *)

Section Elements.
(** [enc_protocolIEs], which the encoders of the containers call. *)
Context (enc_protocolIEs : S1AP_PROTOCOL_IES_t -> P unit).

(** The functions made with [SEQ_OF_CONTAINER_ENC]. *)
Definition SEQ_OF_CONTAINER_ENC (max_items : Z) (v : option ie_value) : P unit :=
  match v with Some (V_SeqOfContainer l) => enc_list max_items enc_protocolIEs l | _ => badval v end.

Definition enc_E_RABToBeModifiedListBearerModReq (v : option ie_value) : P unit :=
  match v with Some (V_ListBearer l) => enc_list maxNrOfERABs enc_protocolIEs l | _ => badval v end.
Definition enc_E_RABToBeSetupListBearerSUReq (v : option ie_value) : P unit :=
  match v with Some (V_ListBearer l) => enc_list maxNrOfERABs enc_protocolIEs l | _ => badval v end.

Definition enc_Bearers_SubjectToStatusTransferList (l : list S1AP_PROTOCOL_IES_t) : P unit :=
  enc_list maxNrOfERABs enc_protocolIEs l.
Definition enc_ENB_StatusTransfer_TransparentContainer (v : option ie_value) : P unit :=
  match v with
  | Some (V_ENB_StatusTransfer_TransparentContainer ext opt bearers) =>
    setbits 1 ext ;; setbits 1 opt ;;
    with_ptr bearers enc_Bearers_SubjectToStatusTransferList ;;
    enc_iEext (opt =? 1)
  | _ => badval v
  end.

(** The union holds a pointer to a list in the second case. *)
Definition enc_ResetType (v : option ie_value) : P unit :=
  match v with
  | Some (V_ResetType ext choice type) =>
    set_choice_ext choice 2 ext ;;
    if negb (ext =? 0) || (1 <? choice) then nop
    else if choice =? 0 then
      match type with
      | s1_Interface x => encode_constrained_number x 0 1
      | partOfS1_Interface _ => pfault BadCast
      end
    else if choice =? 1 then
      match type with
      | s1_Interface _ => pfault BadCast
      | partOfS1_Interface l => enc_list maxNrOfIndividualS1ConnectionsToReset enc_protocolIEs l
      end
    else nop
  | _ => badval v
  end.
End Elements.

Definition enc_UE_associatedLogicalS1_ConnectionItem (v : option ie_value) : P unit :=
  match v with
  | Some (V_UE_associatedLogicalS1_ConnectionItem ext opt mme_id eNB_id) =>
    setbits 1 ext ;; setbits 3 (opt >> (8 - 3)) ;;
    when (flag opt 0x80) (with_ptr mme_id enc_MME_UE_S1AP_ID) ;;
    when (flag opt 0x40) (with_ptr eNB_id enc_ENB_UE_S1AP_ID) ;;
    enc_iEext (flag opt 0x20)
  | _ => badval v
  end.

Definition enc_ENBname (v : option ie_value) : P unit :=
  match v with
  | Some (V_ENBname ext name) => n ← plift (strlen name); encode_PrintableString 1 150 name n ext
  | _ => badval v
  end.
Definition enc_MMEname (v : option ie_value) : P unit :=
  match v with
  | Some (V_MMEname ext name) => n ← plift (strlen name); encode_PrintableString 1 150 name n ext
  | _ => badval v
  end.

Definition enc_SupportedTAs (v : option ie_value) : P unit :=
  match v with Some (V_SupportedTAs l) => enc_list maxnoofTACs enc_SupportedTAs_Item l | _ => badval v end.
Definition enc_PagingDRX (v : option ie_value) : P unit :=
  match v with Some (V_PagingDRX x) => encode_constrained_number x 0 3 | _ => badval v end.
Definition enc_CNDomain (v : option ie_value) : P unit :=
  match v with Some (V_CNDomain x) => encode_constrained_number x 0 1 | _ => badval v end.
Definition enc_CSGidList (v : option ie_value) : P unit :=
  match v with Some (V_CSG_IdList l) => enc_list maxNrOfCSGs enc_CSGidList_Item l | _ => badval v end.
Definition enc_ServedGUMMEIs (v : option ie_value) : P unit :=
  match v with Some (V_ServedGUMMEIs l) => enc_list maxnoofRATs enc_ServedGUMMEIsItem l | _ => badval v end.
Definition enc_RelativeMMECapacity (v : option ie_value) : P unit :=
  match v with Some (V_RelativeMMECapacity cap) => encode_constrained_number cap 0 255 | _ => badval v end.

Definition enc_MMERelaySupportIndicator (v : option ie_value) : P unit :=
  match v with
  | Some (V_MMERelaySupportIndicator ext ind) =>
    setbits 1 ext ;; if (ind =? 0) && (ext =? 0) then nop else encode_small_number ind
  | _ => badval v
  end.
Definition enc_Direct_Forwarding_Path_Availability (v : option ie_value) : P unit :=
  match v with
  | Some (V_Direct_Forwarding_Path_Availability ext ind) =>
    setbits 1 ext ;; if (ind =? 0) && (ext =? 0) then nop else encode_small_number ind
  | _ => badval v
  end.

(** The function is not in the table. *)
Definition enc_CriticalityDiagnostics (v : option ie_value) : P unit :=
  match v with
  | Some (V_CriticalityDiagnostics ext opt procedureCode triggeringMessage procedureCriticality iEs) =>
    setbits 1 ext ;; setbits 5 opt ;;
    when (flag opt 0x10) (encode_constrained_number procedureCode 0 255) ;;
    when (flag opt 0x8) (encode_constrained_number triggeringMessage 0 2) ;;
    when (flag opt 0x4) (encode_constrained_number procedureCriticality 0 2) ;;
    when (flag opt 0x2) (with_ptr iEs enc_CriticalityDiagnostics_IE_List) ;;
    nop
  | _ => badval v
  end.

Definition enc_TimeToWait (v : option ie_value) : P unit :=
  match v with
  | Some (V_TimeToWait ext time) => setbits 1 ext ;; when (ext =? 0) (encode_constrained_number time 0 5)
  | _ => badval v
  end.

Definition enc_EUTRAN_CGI (v : option ie_value) : P unit :=
  match v with
  | Some (V_EUTRAN_CGI ext opt pLMNidentity cell_ID) =>
    setbits 1 ext ;; setbits 1 opt ;;
    with_ptr pLMNidentity enc_PLMNidentity ;;
    align_enc ;;
    setbits 28 cell_ID
  | _ => badval v
  end.

Definition enc_RRC_Establishment_Cause (v : option ie_value) : P unit :=
  match v with
  | Some (V_RRC_Establishment_Cause ext cause) =>
    setbits 1 ext ;; if ext =? 0 then encode_constrained_number cause 0 4 else encode_small_number cause
  | _ => badval v
  end.

Definition enc_UEAggregateMaximumBitrate (v : option ie_value) : P unit :=
  match v with
  | Some (V_UEAggregateMaximumBitrate ext opt dl ul) =>
    setbits 1 ext ;; setbits 1 opt ;;
    encode_constrained_number dl 0 MAXBITRATE ;;
    encode_constrained_number ul 0 MAXBITRATE ;;
    nop
  | _ => badval v
  end.

Definition enc_E_RABToBeSetupItemCtxtSUReq (v : option ie_value) : P unit :=
  match v with
  | Some (V_E_RABToBeSetupItemCtxtSUReq ext opt eRAB_ID qos addr gTP_TEID nAS_PDU) =>
    setbits 1 ext ;; setbits 2 (opt >> (8 - 2)) ;;
    enc_E_RAB_ID eRAB_ID ;;
    with_ptr qos enc_E_RABLevelQoSParameters ;;
    with_ptr addr enc_TransportLayerAddress ;;
    encode_octet_string gTP_TEID 4 ;;
    when (flag opt 0x80) (with_ptr nAS_PDU enc_Unconstrained_Octed_String) ;;
    enc_iEext (flag opt 0x40)
  | _ => badval v
  end.

Definition enc_SubscriberProfileIDforRFP (v : option ie_value) : P unit :=
  match v with Some (V_SubscriberProfileIDforRFP x) => encode_constrained_number x 1 256 | _ => badval v end.

Definition enc_UESecurityCapabilities (v : option ie_value) : P unit :=
  match v with
  | Some (V_UESecurityCapabilities ext opt e_ext e i_ext i) =>
    setbits 1 ext ;; setbits 1 opt ;;
    setbits 1 e_ext ;;
    when (e_ext =? 0) (setbits 16 e) ;;
    setbits 1 i_ext ;;
    when (i_ext =? 0) (setbits 16 i) ;;
    enc_iEext (opt =? 1)
  | _ => badval v
  end.

Definition enc_UERadioCapability (v : option ie_value) : P unit :=
  match v with Some (V_UERadioCapability s) => enc_Unconstrained_Octed_String s | _ => badval v end.

Definition enc_UE_S1AP_IDs (v : option ie_value) : P unit :=
  match v with
  | Some (V_UE_S1AP_IDs ext choice id) =>
    set_choice_ext choice 2 ext ;;
    if negb (ext =? 0) || (1 <? choice) then nop
    else match id with
    | uE_S1AP_ID_unset => pfault NullDeref
    | uE_S1AP_ID_pair p => if choice =? 0 then enc_UE_S1AP_ID_pair p else pfault BadCast
    | mME_UE_S1AP_ID x => if choice =? 0 then pfault BadCast else enc_MME_UE_S1AP_ID x
    end
  | _ => badval v
  end.

Definition enc_Bearers_SubjectToStatusTransfer_Item (v : option ie_value) : P unit :=
  match v with
  | Some (V_Bearers_SubjectToStatusTransfer_Item ext opt eRAB_ID uL dL) =>
    setbits 1 ext ;; setbits 2 (opt >> (8 - 2)) ;;
    enc_E_RAB_ID eRAB_ID ;;
    with_ptr uL enc_COUNTvalue ;;
    with_ptr dL enc_COUNTvalue ;;
    enc_iEext (flag opt 0x40)
  | _ => badval v
  end.

Definition enc_E_RABItem (v : option ie_value) : P unit :=
  match v with
  | Some (V_E_RABItem ext opt eRAB_ID cause) =>
    setbits 1 ext ;; setbits 1 opt ;;
    enc_E_RAB_ID eRAB_ID ;;
    with_ptr cause enc_Cause ;;
    enc_iEext (opt =? 1)
  | _ => badval v
  end.

Definition enc_E_RABToBeModifiedItemBearerModReq (v : option ie_value) : P unit :=
  match v with
  | Some (V_E_RABToBeModifiedItemBearerModReq ext opt eRAB_ID qos nAS_PDU) =>
    setbits 1 ext ;; setbits 1 opt ;;
    enc_E_RAB_ID eRAB_ID ;;
    with_ptr qos enc_E_RABLevelQoSParameters ;;
    with_ptr nAS_PDU enc_Unconstrained_Octed_String ;;
    enc_iEext (opt =? 1)
  | _ => badval v
  end.

Definition enc_E_RABToBeSetupItemBearerSUReq (v : option ie_value) : P unit :=
  match v with
  | Some (V_E_RABToBeSetupItemBearerSUReq ext opt eRAB_ID qos addr gTP_TEID nAS_PDU) =>
    setbits 1 ext ;; setbits 1 opt ;;
    enc_E_RAB_ID eRAB_ID ;;
    with_ptr qos enc_E_RABLevelQoSParameters ;;
    with_ptr addr enc_TransportLayerAddress ;;
    encode_octet_string gTP_TEID 4 ;;
    with_ptr nAS_PDU enc_Unconstrained_Octed_String ;;
    enc_iEext (opt =? 1)
  | _ => badval v
  end.

Definition enc_E_RABSetupItemBearerSURes (v : option ie_value) : P unit :=
  match v with
  | Some (V_E_RABSetupItemBearerSURes ext opt eRAB_ID addr gTP_TEID) =>
    setbits 1 ext ;; setbits 1 opt ;;
    enc_E_RAB_ID eRAB_ID ;;
    with_ptr addr enc_TransportLayerAddress ;;
    encode_octet_string gTP_TEID 4 ;;
    enc_iEext (opt =? 1)
  | _ => badval v
  end.

Definition enc_HandoverType (v : option ie_value) : P unit :=
  match v with
  | Some (V_HandoverType ext ht) => setbits 1 ext ;; when (ext =? 0) (encode_constrained_number ht 0 4)
  | _ => badval v
  end.

(** The third case has the condition of the second, and does not get there. *)
Definition enc_TargetID (v : option ie_value) : P unit :=
  match v with
  | Some (V_TargetID ext choice t) =>
    set_choice_ext choice 3 ext ;;
    if negb (ext =? 0) || (1 <? choice) then nop
    else match t with
    | targetID_unset => pfault NullDeref
    | targeteNB_ID x => if choice =? 0 then enc_TargeteNB_ID x else pfault BadCast
    | targetRNC_ID x => if choice =? 0 then pfault BadCast else enc_TargetRNC_ID x
    | cGI _ => pfault BadCast
    end
  | _ => badval v
  end.

Definition enc_UEIdentityIndexValue (v : option ie_value) : P unit :=
  match v with Some (V_UEIdentityIndexValue id) => setbits 10 id | _ => badval v end.

Definition enc_E_RABToBeSetupItemHOReq (v : option ie_value) : P unit :=
  match v with
  | Some (V_E_RABToBeSetupItemHOReq ext opt eRAB_ID addr gTP_TEID qos) =>
    setbits 1 ext ;; setbits 1 opt ;;
    enc_E_RAB_ID eRAB_ID ;;
    with_ptr addr enc_TransportLayerAddress ;;
    encode_octet_string gTP_TEID 4 ;;
    with_ptr qos enc_E_RABLevelQoSParameters ;;
    enc_iEext (opt =? 1)
  | _ => badval v
  end.

Definition enc_SecurityContext (v : option ie_value) : P unit :=
  match v with
  | Some (V_SecurityContext ext opt nextHopChainingCount nextHopParameter) =>
    setbits 1 ext ;; setbits 1 opt ;;
    encode_constrained_number nextHopChainingCount 0 7 ;;
    with_ptr nextHopParameter enc_SecurityKey ;;
    enc_iEext (flag opt 0x40)
  | _ => badval v
  end.

Definition enc_E_RABAdmittedItem (v : option ie_value) : P unit :=
  match v with
  | Some (V_E_RABAdmittedItem ext opt eRAB_ID addr gTP_TEID dL_addr dL_TEID uL_addr uL_TEID) =>
    setbits 1 ext ;; setbits 5 (opt >> (8 - 5)) ;;
    enc_E_RAB_ID eRAB_ID ;;
    with_ptr addr enc_TransportLayerAddress ;;
    encode_octet_string gTP_TEID 4 ;;
    when (flag opt 0x80) (with_ptr dL_addr enc_TransportLayerAddress) ;;
    when (flag opt 0x40) (encode_octet_string dL_TEID 4) ;;
    when (flag opt 0x20) (with_ptr uL_addr enc_TransportLayerAddress) ;;
    when (flag opt 0x10) (encode_octet_string uL_TEID 4) ;;
    enc_iEext (flag opt 0x08)
  | _ => badval v
  end.

Definition enc_E_RABDataForwardingItem (v : option ie_value) : P unit :=
  match v with
  | Some (V_E_RABDataForwardingItem ext opt eRAB_ID dL_addr dL_TEID uL_addr uL_TEID) =>
    setbits 1 ext ;; setbits 5 (opt >> (8 - 5)) ;;
    enc_E_RAB_ID eRAB_ID ;;
    when (flag opt 0x80) (with_ptr dL_addr enc_TransportLayerAddress) ;;
    when (flag opt 0x40) (encode_octet_string dL_TEID 4) ;;
    when (flag opt 0x20) (with_ptr uL_addr enc_TransportLayerAddress) ;;
    when (flag opt 0x10) (encode_octet_string uL_TEID 4) ;;
    enc_iEext (flag opt 0x08)
  | _ => badval v
  end.

Definition enc_UEPagingID (v : option ie_value) : P unit :=
  match v with
  | Some (V_UEPagingID ext choice s_TMSI) =>
    set_choice_ext choice 2 ext ;;
    if negb (ext =? 0) || (1 <? choice) then nop
    else if choice =? 0 then with_ptr s_TMSI enc_S_TMSI
    else pfault Aborted
  | _ => badval v
  end.

Definition enc_TAIItem (v : option ie_value) : P unit :=
  match v with
  | Some (V_TAIItem ext opt tAI) =>
    setbits 1 ext ;; setbits 1 opt ;; enc_TAI tAI ;; enc_iEext (opt =? 1)
  | _ => badval v
  end.

(** The encoders above that are also called for parts, as entries of the
    table. *)
Definition ie_MME_UE_S1AP_ID (v : option ie_value) : P unit :=
  match v with Some (V_MME_UE_S1AP_ID x) => enc_MME_UE_S1AP_ID x | _ => badval v end.
Definition ie_ENB_UE_S1AP_ID (v : option ie_value) : P unit :=
  match v with Some (V_ENB_UE_S1AP_ID x) => enc_ENB_UE_S1AP_ID x | _ => badval v end.
Definition ie_Cause (v : option ie_value) : P unit :=
  match v with Some (V_Cause x) => enc_Cause x | _ => badval v end.
Definition ie_Unconstrained_Octed_String (v : option ie_value) : P unit :=
  match v with Some (V_Unconstrained_Octed_String x) => enc_Unconstrained_Octed_String x | _ => badval v end.
Definition ie_Global_ENB_ID (v : option ie_value) : P unit :=
  match v with Some (V_Global_ENB_ID x) => enc_Global_ENB_ID x | _ => badval v end.
Definition ie_ServedPLMNs (v : option ie_value) : P unit :=
  match v with Some (V_ServedPLMNs x) => enc_ServedPLMNs x | _ => badval v end.
Definition ie_TAI (v : option ie_value) : P unit :=
  match v with Some (V_TAI x) => enc_TAI x | _ => badval v end.
Definition ie_SecurityKey (v : option ie_value) : P unit :=
  match v with Some (V_SecurityKey x) => enc_SecurityKey x | _ => badval v end.
Definition ie_S_TMSI (v : option ie_value) : P unit :=
  match v with Some (V_S_TMSI x) => enc_S_TMSI x | _ => badval v end.
Definition ie_CSGid (v : option ie_value) : P unit :=
  match v with Some (V_CSG_id x) => enc_CSGid x | _ => badval v end.
Definition ie_LAI (v : option ie_value) : P unit :=
  match v with Some (V_LAI x) => enc_LAI x | _ => badval v end.

(** ** Messages *)

(** [getenc_S1AP_IE[]], applied to the value. *)
Definition getenc_S1AP_IE (enc_protocolIEs : S1AP_PROTOCOL_IES_t -> P unit) (v : option ie_value) : list (option (P unit)) :=
  [ Some (ie_MME_UE_S1AP_ID v); Some (enc_HandoverType v); Some (ie_Cause v); None; Some (enc_TargetID v); None; None; None;
    Some (ie_ENB_UE_S1AP_ID v); None; None; None; Some (SEQ_OF_CONTAINER_ENC enc_protocolIEs maxNrOfERABs v);
    Some (SEQ_OF_CONTAINER_ENC enc_protocolIEs maxNrOfERABs v); Some (enc_E_RABDataForwardingItem v); None;
    Some (enc_E_RABToBeSetupListBearerSUReq enc_protocolIEs v); Some (enc_E_RABToBeSetupItemBearerSUReq v);
    Some (SEQ_OF_CONTAINER_ENC enc_protocolIEs maxNrOfERABs v); None; Some (enc_E_RABAdmittedItem v); None;
    Some (SEQ_OF_CONTAINER_ENC enc_protocolIEs maxNrOfERABs v); Some (enc_E_RABSetupItemBearerSURes v);
    Some (SEQ_OF_CONTAINER_ENC enc_protocolIEs maxNrOfERABs v); None; Some (ie_Unconstrained_Octed_String v);
    Some (enc_E_RABToBeSetupItemHOReq v); Some (SEQ_OF_CONTAINER_ENC enc_protocolIEs maxNrOfERABs v);
    Some (SEQ_OF_CONTAINER_ENC enc_protocolIEs maxNrOfERABs v); Some (enc_E_RABToBeModifiedListBearerModReq enc_protocolIEs v);
    None; Some (SEQ_OF_CONTAINER_ENC enc_protocolIEs maxNrOfERABs v); Some (SEQ_OF_CONTAINER_ENC enc_protocolIEs maxNrOfERABs v);
    Some (SEQ_OF_CONTAINER_ENC enc_protocolIEs maxNrOfERABs v); Some (enc_E_RABItem v);
    Some (enc_E_RABToBeModifiedItemBearerModReq v); None; None; Some (enc_E_RABSetupItemBearerSURes v);
    Some (enc_SecurityContext v); None; None; Some (enc_UEPagingID v); None; None;
    Some (SEQ_OF_CONTAINER_ENC enc_protocolIEs maxnoofTAIs v); Some (enc_TAIItem v);
    Some (SEQ_OF_CONTAINER_ENC enc_protocolIEs maxNrOfERABs v); None; Some (enc_E_RABSetupItemBearerSURes v);
    Some (SEQ_OF_CONTAINER_ENC enc_protocolIEs maxNrOfERABs v); Some (enc_E_RABToBeSetupItemCtxtSUReq v);
    Some (SEQ_OF_CONTAINER_ENC enc_protocolIEs maxNrOfERABs v); None; None; None; None; None; Some (ie_Global_ENB_ID v);
    Some (enc_ENBname v); Some (enc_MMEname v); None; Some (ie_ServedPLMNs v); Some (enc_SupportedTAs v);
    Some (enc_TimeToWait v); Some (enc_UEAggregateMaximumBitrate v); Some (ie_TAI v); None; None; None; None; None;
    Some (ie_SecurityKey v); Some (enc_UERadioCapability v); None; None; None; None;
    Some (enc_Direct_Forwarding_Path_Availability v); Some (enc_UEIdentityIndexValue v); None; None; None; None; None; None;
    Some (enc_RelativeMMECapacity v); Some (ie_MME_UE_S1AP_ID v); Some (enc_Bearers_SubjectToStatusTransfer_Item v);
    Some (enc_ENB_StatusTransfer_TransparentContainer enc_protocolIEs v); Some (enc_UE_associatedLogicalS1_ConnectionItem v);
    Some (enc_ResetType enc_protocolIEs v); Some (SEQ_OF_CONTAINER_ENC enc_protocolIEs maxNrOfIndividualS1ConnectionsToReset v);
    Some (enc_E_RABSetupItemBearerSURes v); Some (SEQ_OF_CONTAINER_ENC enc_protocolIEs maxNrOfERABs v); Some (ie_S_TMSI v); None;
    None; Some (enc_UE_S1AP_IDs v); Some (enc_EUTRAN_CGI v); None; None; None; Some (ie_Unconstrained_Octed_String v);
    Some (enc_ServedGUMMEIs v); Some (enc_SubscriberProfileIDforRFP v); Some (enc_UESecurityCapabilities v); None;
    Some (enc_CNDomain v); Some (SEQ_OF_CONTAINER_ENC enc_protocolIEs maxNrOfERABs v); None; None; None; None; None; None; None;
    None; None; None; None; None; Some (ie_Unconstrained_Octed_String v); None; None; None; Some (ie_CSGid v);
    Some (enc_CSGidList v); None; None; None; None; None; Some (enc_RRC_Establishment_Cause v);
    Some (ie_Unconstrained_Octed_String v); Some (ie_Unconstrained_Octed_String v); Some (enc_PagingDRX v);
    Some (ie_Unconstrained_Octed_String v); Some (ie_Unconstrained_Octed_String v); None; None; None; None; None; None; None;
    None; None; None; None; None; None; None; None; None; None; None; None; Some (ie_LAI v); None; None; None;
    Some (enc_MMERelaySupportIndicator v); None; None; None; None; None; None; None ].

Fixpoint enc_protocolIEs (ie : S1AP_PROTOCOL_IES_t) : P unit :=
  let '(IE id criticality _ value) := ie in
  encode_constrained_number id 0 65535 ;;
  encode_constrained_number criticality 0 2 ;;
  match getenc_S1AP_IE enc_protocolIEs value !! Z.to_nat id with
  | None => pfault OutOfBounds
  | Some None => nop
  | Some (Some ieEnc) => enc_open MAXDATABYTES ieEnc
  end.

Definition enc_ElementaryProcedure (pdu : S1AP_PDU_t) : P unit :=
  setbits 1 (pdu_ext pdu) ;;
  encode_constrained_number (Z.of_nat (length (pdu_value pdu))) 0 65535 ;;
  eachP enc_protocolIEs (pdu_value pdu).

Definition enc_S1AP_PDU (pdu : S1AP_PDU_t) : P unit :=
  encode_constrained_number (procedureCode pdu) 0 255 ;;
  encode_constrained_number (pdu_criticality pdu) 0 2 ;;
  enc_open 10000 (enc_ElementaryProcedure pdu).

(** [s1ap_encode] into the octets [data]: their new contents and the size. *)
Definition s1ap_encode (buf : list Z) (msg : S1AP_Message_t) : outcome (list Z * Z) :=
  '(_, bytes) ← (set_choice_ext (choice msg) 3 (extension msg) ;; enc_S1AP_PDU (pdu msg)) {| data := buf; offset := 0; pos := 0; len := 0 |};
  Ok (data bytes, octets_up (len bytes)).
