(* ===== verification/S1APDec.v ===== *)
(** The decoder of S1AP messages (src/S1AP/src/S1AP_IEdec.c and the decoding
    half of src/S1AP/src/S1AP.c).

    A function that fills [ie->value] returns the value.  The functions that
    are also called for the parts of other elements (with a [fakeie]) return
    the structure.  What is only logged is left out. *)
From S2P Require Import Prelude PER S1APTypes S1APEnc.

(** ** Helpers *)

(** [getextension] leaves the pointer unset when there are extensions, and
    [skipextensions] reads it. *)
Definition getextension (ext : Z) : P unit := if ext =? 0 then nop else pfault Uninitialised.

(** [v->iEext->addIe(v->iEext, dec_protocolIEs(bytes))] on a null [iEext]. *)
Definition dec_iEext (present : bool) : P unit := if present then pfault NullDeref else nop.
Definition dec_when {A} (b : bool) (d : P A) (default : A) : P A := if b then d else mret default.
Definition dec_opt {A} (b : bool) (d : P A) : P (option A) := if b then (x ← d; mret (Some x)) else mret None.

(** [uint8_t length = decode_constrained_number(bytes, 1, max)] and as many
    items, added to a list whose maximum is [addmax]. *)
Definition dec_list {A} (max addmax : Z) (d : P A) : P (list A) :=
  len ← decode_constrained_number 1 max;
  dec_items (Z.to_nat (wrap8 len)) addmax d [].

(** ** Parts of information elements *)

Definition dec_PLMNidentity : P PLMNidentity_t :=
  s ← decode_octet_string 3;
  plift (plmnId_tbcd2MccMnc (PLMNidentity s 0 0)).

Definition dec_BPLMNs : P BPLMNs_t :=
  size ← decode_constrained_number 1 maxnoofBPLMNs;
  l ← dec_items (Z.to_nat (wrap8 size)) maxnoofTACs dec_PLMNidentity [];
  mret (BPLMNs (wrap8 size) l).

Definition dec_SupportedTAs_Item : P SupportedTAs_Item_t :=
  ext ← getbit; opt ← getbit;
  tAC ← decode_octet_string 2;
  broadcastPLMNs ← dec_BPLMNs;
  getextension ext ;;
  mret (SupportedTAs_Item ext opt tAC (Some broadcastPLMNs)).

(** [uint8_t bCSG[27]], and a bit field of 27 bits. *)
Definition dec_CSGid : P Z :=
  o ← getbits (Some 27) 27;
  tmp ← plift (rdn o 4);
  mret ((be_val tmp >> (32 - 27)) mod 2^27).

Definition dec_CSG_IdList_Item : P CSG_IdList_Item_t :=
  ext ← getbit; opt ← getopt MAXDATABYTES 1;
  id ← dec_CSGid;
  getextension ext ;;
  mret (CSG_IdList_Item ext opt (Some id)).

Definition dec_MME_Group_ID : P (list Z) := decode_octet_string 2.
Definition dec_servedGroupIDs : P (list (list Z)) := dec_list maxnoofGroupIDs maxnoofGroupIDs dec_MME_Group_ID.
Definition dec_MME_Code : P (list Z) := decode_octet_string 1.
Definition dec_servedMMECs : P (list (list Z)) := dec_list maxnoofMMECs maxnoofGroupIDs dec_MME_Code.
Definition dec_servedPLMNs : P (list PLMNidentity_t) := dec_list maxnoofPLMNsPerMME maxnoofGroupIDs dec_PLMNidentity.

Definition dec_ServedGUMMEIsItem : P ServedGUMMEIsItem_t :=
  ext ← getbit; opt ← getopt MAXDATABYTES 1;
  servedPLMNs ← dec_servedPLMNs;
  servedGroupIDs ← dec_servedGroupIDs;
  servedMMECs ← dec_servedMMECs;
  getextension ext ;;
  mret (ServedGUMMEIsItem ext opt (Some servedPLMNs) (Some servedGroupIDs) (Some servedMMECs)).

Definition dec_CriticalityDiagnostics_IE_Item : P CriticalityDiagnostics_IE_Item_t :=
  ext ← getbit; opt ← getopt MAXDATABYTES 5;
  iECriticality ← dec_when (flag opt 0x8) (decode_constrained_number 0 2) 0;
  iE_ID ← dec_when (flag opt 0x4) (decode_constrained_number 0 255) 0;
  typeOfError ← dec_when (flag opt 0x2) (decode_constrained_number 0 1) 0;
  getextension ext ;;
  mret (CriticalityDiagnostics_IE_Item ext opt iECriticality iE_ID typeOfError).
Definition dec_CriticalityDiagnostics_IE_List : P (list CriticalityDiagnostics_IE_Item_t) :=
  dec_list maxNrOfErrors maxNrOfErrors dec_CriticalityDiagnostics_IE_Item.

Definition dec_AllocationAndRetentionPriority : P AllocationAndRetentionPriority_t :=
  ext ← getbit; opt ← getbit;
  priorityLevel ← decode_constrained_number 0 15;
  capability ← decode_enumerated 0 1;
  vulnerability ← decode_enumerated 0 1;
  getextension ext ;;
  mret (AllocationAndRetentionPriority ext opt priorityLevel capability vulnerability).

Definition dec_GBR_QosInformation : P GBR_QosInformation_t :=
  ext ← getbit; opt ← getbit;
  maxDL ← decode_constrained_number 0 MAXBITRATE;
  maxUL ← decode_constrained_number 0 MAXBITRATE;
  guaranteedDL ← decode_constrained_number 0 MAXBITRATE;
  guaranteedUL ← decode_constrained_number 0 MAXBITRATE;
  getextension ext ;;
  mret (GBR_QosInformation ext opt maxDL maxUL guaranteedDL guaranteedUL).

Definition dec_E_RABLevelQoSParameters : P E_RABLevelQoSParameters_t :=
  ext ← getbit; opt ← getopt MAXDATABYTES 5;
  qCI ← decode_constrained_number 0 255;
  priority ← dec_AllocationAndRetentionPriority;
  gbr ← dec_opt (flag opt 0x80) dec_GBR_QosInformation;
  getextension ext ;;
  mret (E_RABLevelQoSParameters ext opt qCI (Some priority) gbr).

(** The number of bits is passed as [uint8_t] and the address has 20 octets. *)
Definition dec_TransportLayerAddress : P TransportLayerAddress_t :=
  ext ← getbit;
  len ← decode_constrained_number 1 160;
  align_dec ;;
  o ← getbits (Some 20) (wrap8 len);
  mret (TransportLayerAddress ext len (o ++ zeros (20 - length o))).

(** Bit fields of 32 and 24 bits. *)
Definition dec_MME_UE_S1AP_ID : P Z := decode_constrained_number 0 4294967295.
Definition dec_ENB_UE_S1AP_ID : P Z := eNB_id ← decode_constrained_number 0 16777215; mret (eNB_id mod 2^24).

Definition dec_UE_S1AP_ID_pair : P UE_S1AP_ID_pair_t :=
  ext ← getbit; opt ← getbit;
  mme_id ← dec_MME_UE_S1AP_ID;
  eNB_id ← dec_ENB_UE_S1AP_ID;
  dec_iEext (opt =? 1) ;;
  mret (UE_S1AP_ID_pair ext opt mme_id eNB_id).

(** Bit fields of 12 and 20 bits; the flag of the extensions is tested in the
    wrong place. *)
Definition dec_COUNTvalue : P COUNTvalue_t :=
  ext ← getbit; opt ← getbit;
  pDCP_SN ← decode_constrained_number 0 4095;
  hFN ← decode_constrained_number 0 1048575;
  dec_iEext (flag opt 0x40) ;;
  getextension ext ;;
  mret (COUNTvalue ext opt (pDCP_SN mod 2^12) (hFN mod 2^20)).

Definition dec_E_RAB_ID : P E_RAB_ID_t :=
  ext ← getbit;
  id ← (if ext =? 0 then decode_constrained_number 0 15 else decode_semi_constrained_number 0);
  mret (E_RAB_ID ext id).

Definition dec_Global_ENB_ID : P Global_ENB_ID_t :=
  ext ← getbit; opt ← getopt MAXDATABYTES 1;
  pLMNidentity ← dec_PLMNidentity;
  id_ext ← getbit;
  choice ← getchoice 2 id_ext;
  align_dec ;;
  id ← (if choice + id_ext * 2 =? 0 then decode_bit_string 20
        else if choice + id_ext * 2 =? 1 then decode_bit_string 28
        else mret 0);
  getextension id_ext ;;
  mret (Global_ENB_ID ext opt (Some pLMNidentity) (ENB_ID id_ext choice id)).

Definition dec_TAI : P TAI_t :=
  ext ← getbit; opt ← getbit;
  pLMNidentity ← dec_PLMNidentity;
  tAC ← decode_octet_string 2;
  getextension ext ;;
  mret (TAI ext opt (Some pLMNidentity) tAC).

Definition dec_TargeteNB_ID : P TargeteNB_ID_t :=
  ext ← getbit; opt ← getbit;
  global_ENB_ID ← dec_Global_ENB_ID;
  selected_TAI ← dec_TAI;
  dec_iEext (flag opt 0x40) ;;
  getextension ext ;;
  mret (TargeteNB_ID ext opt (Some global_ENB_ID) (Some selected_TAI)).

Definition dec_LAI : P LAI_t :=
  ext ← getbit; opt ← getbit;
  pLMNidentity ← dec_PLMNidentity;
  lAC ← decode_octet_string 2;
  dec_iEext (opt =? 1) ;;
  getextension ext ;;
  mret (LAI ext opt (Some pLMNidentity) lAC).

Definition dec_TargetRNC_ID : P TargetRNC_ID_t :=
  ext ← getbit; opt ← getopt MAXDATABYTES 5;
  lAI ← dec_LAI;
  rNC_ID ← decode_constrained_number 0 4095;
  getextension ext ;;
  mret (TargetRNC_ID ext opt (Some lAI) (rNC_ID mod 2^12)).

Definition dec_CGI : P CGI_t :=
  ext ← getbit; opt ← getopt MAXDATABYTES 5;
  pLMNidentity ← dec_PLMNidentity;
  lAC ← decode_octet_string 2;
  cI ← decode_octet_string 2;
  getextension ext ;;
  mret (CGI ext opt (Some pLMNidentity) lAC cI).

Definition dec_Cause : P Cause_t :=
  ext ← getbit;
  if ext =? 0 then
    choice ← getchoice 5 ext;
    cause_ext ← getbit;
    let value max d_ext := if cause_ext =? 0 then decode_constrained_number 0 max else d_ext in
    cause ← (if choice =? 0 then value 35 decode_small_number
             else if choice =? 1 then value 1 (mret 0)
             else if choice =? 2 then value 3 decode_small_number
             else if choice =? 3 then value 6 (mret 0)
             else if choice =? 4 then value 5 (mret 0)
             else mret 0);
    mret (Cause ext choice (if choice <=? 4 then cause_ext else 0) cause)
  else mret (Cause ext 0 0 0).

(** When there are not enough octets, the string is not initialised. *)
Definition dec_Unconstrained_Octed_String : P Unconstrained_Octed_String_t :=
  len ← decode_length_undef;
  o ← getoctets (Some len) len;
  mret (Unconstrained_Octed_String len (match o with Some o => o | None => [] end)).

Definition dec_SecurityKey : P (list Z) :=
  o ← getoctets (Some 32) 32;
  mret (match o with Some o => o | None => zeros 32 end).

Definition dec_S_TMSI : P S_TMSI_t :=
  ext ← getbit; opt ← getbit;
  mMEC ← dec_MME_Code;
  m_TMSI ← decode_octet_string 4;
  dec_iEext (opt =? 1) ;;
  getextension ext ;;
  mret (S_TMSI ext opt mMEC m_TMSI).

(** ** Information elements *)

Section Elements.
(** [dec_protocolIEs], which the decoders of the containers call. *)
Context (dec_protocolIEs : P S1AP_PROTOCOL_IES_t).

(** The functions made with [SEQ_OF_CONTAINER_DEC]. *)
Definition SEQ_OF_CONTAINER_DEC (max_items addmax : Z) : P ie_value :=
  l ← dec_list max_items addmax dec_protocolIEs; mret (V_SeqOfContainer l).

Definition dec_E_RABToBeModifiedListBearerModReq : P ie_value :=
  l ← dec_list maxNrOfERABs maxnoofGroupIDs dec_protocolIEs; mret (V_ListBearer l).
Definition dec_E_RABToBeSetupListBearerSUReq : P ie_value :=
  l ← dec_list maxNrOfERABs maxnoofGroupIDs dec_protocolIEs; mret (V_ListBearer l).

Definition dec_Bearers_SubjectToStatusTransferList : P (list S1AP_PROTOCOL_IES_t) :=
  dec_list maxNrOfERABs maxnoofGroupIDs dec_protocolIEs.
Definition dec_ENB_StatusTransfer_TransparentContainer : P ie_value :=
  ext ← getbit; opt ← getbit;
  bearers ← dec_Bearers_SubjectToStatusTransferList;
  dec_iEext (opt =? 1) ;;
  getextension ext ;;
  mret (V_ENB_StatusTransfer_TransparentContainer ext opt (Some bearers)).

Definition dec_ResetType : P ie_value :=
  ext ← getbit;
  choice ← getchoice 2 ext;
  type ← (if choice + ext * 2 =? 0 then x ← decode_enumerated 0 1; mret (s1_Interface x)
          else if choice + ext * 2 =? 1 then
            l ← dec_list maxNrOfIndividualS1ConnectionsToReset maxNrOfIndividualS1ConnectionsToReset dec_protocolIEs;
            mret (partOfS1_Interface l)
          else mret (s1_Interface 0));
  mret (V_ResetType ext choice type).
End Elements.

Definition dec_UE_associatedLogicalS1_ConnectionItem : P ie_value :=
  ext ← getbit; opt ← getopt MAXDATABYTES 3;
  mme_id ← dec_opt (flag opt 0x80) dec_MME_UE_S1AP_ID;
  eNB_id ← dec_opt (flag opt 0x40) dec_ENB_UE_S1AP_ID;
  dec_iEext (flag opt 0x20) ;;
  mret (V_UE_associatedLogicalS1_ConnectionItem ext opt mme_id eNB_id).

(** A name is stored with its terminator in [name[150]]. *)
Definition stored_name (s : option (list Z)) : list Z :=
  match s with Some s => s ++ zeros (150 - length s) | None => zeros 150 end.
Definition dec_ENBname : P ie_value := s ← decode_PrintableString 150 1 150; mret (V_ENBname 0 (stored_name s)).
Definition dec_MMEname : P ie_value := s ← decode_PrintableString 150 1 150; mret (V_MMEname 0 (stored_name s)).

Definition dec_SupportedTAs : P ie_value := l ← dec_list maxnoofTACs maxnoofTACs dec_SupportedTAs_Item; mret (V_SupportedTAs l).
Definition dec_PagingDRX : P ie_value := x ← decode_enumerated 0 3; mret (V_PagingDRX x).
Definition dec_CNDomain : P ie_value := x ← decode_enumerated 0 1; mret (V_CNDomain x).
Definition dec_CSGidList : P ie_value := l ← dec_list maxNrOfCSGs maxNrOfCSGs dec_CSG_IdList_Item; mret (V_CSG_IdList l).
Definition dec_ServedGUMMEIs : P ie_value := l ← dec_list maxNrOfCSGs maxnoofGroupIDs dec_ServedGUMMEIsItem; mret (V_ServedGUMMEIs l).
Definition dec_RelativeMMECapacity : P ie_value := x ← decode_constrained_number 0 255; mret (V_RelativeMMECapacity x).

Definition dec_MMERelaySupportIndicator : P ie_value :=
  ext ← getbit; ind ← dec_when (negb (ext =? 0)) decode_small_number 0; mret (V_MMERelaySupportIndicator ext ind).
Definition dec_Direct_Forwarding_Path_Availability : P ie_value :=
  ext ← getbit; ind ← dec_when (negb (ext =? 0)) decode_small_number 0; mret (V_Direct_Forwarding_Path_Availability ext ind).

Definition dec_CriticalityDiagnostics : P ie_value :=
  ext ← getbit; opt ← getopt MAXDATABYTES 5;
  procedureCode ← dec_when (flag opt 0x10) (decode_constrained_number 0 255) 0;
  triggeringMessage ← dec_when (flag opt 0x8) (decode_constrained_number 0 2) 0;
  procedureCriticality ← dec_when (flag opt 0x4) (decode_constrained_number 0 2) 0;
  iEs ← dec_opt (flag opt 0x2) dec_CriticalityDiagnostics_IE_List;
  getextension ext ;;
  mret (V_CriticalityDiagnostics ext opt procedureCode triggeringMessage procedureCriticality iEs).

Definition dec_TimeToWait : P ie_value :=
  ext ← getbit; time ← dec_when (ext =? 0) (decode_constrained_number 0 5) 0; mret (V_TimeToWait ext time).

(** A bit field of 28 bits. *)
Definition dec_EUTRAN_CGI : P ie_value :=
  ext ← getbit; opt ← getopt MAXDATABYTES 1;
  pLMNidentity ← dec_PLMNidentity;
  cell_ID ← decode_bit_string 28;
  getextension ext ;;
  mret (V_EUTRAN_CGI ext opt (Some pLMNidentity) (cell_ID mod 2^28)).

Definition dec_RRC_Establishment_Cause : P ie_value :=
  ext ← getbit;
  cause ← (if ext =? 0 then decode_constrained_number 0 4 else decode_small_number);
  mret (V_RRC_Establishment_Cause ext cause).

Definition dec_UEAggregateMaximumBitrate : P ie_value :=
  ext ← getbit; opt ← getbit;
  dl ← decode_constrained_number 0 MAXBITRATE;
  ul ← decode_constrained_number 0 MAXBITRATE;
  getextension ext ;;
  mret (V_UEAggregateMaximumBitrate ext opt dl ul).

Definition dec_E_RABToBeSetupItemCtxtSUReq : P ie_value :=
  ext ← getbit; o ← getopt MAXDATABYTES 2;
  let opt := o .& 0xC0 in
  eRAB_ID ← dec_E_RAB_ID;
  qos ← dec_E_RABLevelQoSParameters;
  addr ← dec_TransportLayerAddress;
  gTP_TEID ← decode_octet_string 4;
  nAS_PDU ← dec_opt (flag opt 0x80) dec_Unconstrained_Octed_String;
  dec_iEext (flag opt 0x40) ;;
  getextension ext ;;
  mret (V_E_RABToBeSetupItemCtxtSUReq ext opt eRAB_ID (Some qos) (Some addr) gTP_TEID nAS_PDU).

Definition dec_SubscriberProfileIDforRFP : P ie_value := x ← decode_constrained_number 1 256; mret (V_SubscriberProfileIDforRFP x).

(** [uint8_t buff[10]]; an algorithm list with extensions is not read. *)
Definition dec_algorithms (ext : Z) : P Z := dec_when (ext =? 0) (o ← getbits (Some 10) 16; v ← plift (rdn o 2); mret (be_val v)) 0.
Definition dec_UESecurityCapabilities : P ie_value :=
  ext ← getbit; opt ← getbit;
  e_ext ← getbit;
  e ← dec_algorithms e_ext;
  i_ext ← getbit;
  i ← dec_algorithms i_ext;
  dec_iEext (opt =? 1) ;;
  mret (V_UESecurityCapabilities ext opt e_ext e i_ext i).

Definition dec_UERadioCapability : P ie_value := v ← dec_Unconstrained_Octed_String; mret (V_UERadioCapability v).

Definition dec_UE_S1AP_IDs : P ie_value :=
  ext ← getbit;
  choice ← getchoice 2 ext;
  id ← (if choice + ext * 2 =? 0 then p ← dec_UE_S1AP_ID_pair; mret (uE_S1AP_ID_pair p)
        else if choice + ext * 2 =? 1 then x ← dec_MME_UE_S1AP_ID; mret (mME_UE_S1AP_ID x)
        else mret uE_S1AP_ID_unset);
  mret (V_UE_S1AP_IDs ext choice id).

Definition dec_Bearers_SubjectToStatusTransfer_Item : P ie_value :=
  ext ← getbit; o ← getopt MAXDATABYTES 2;
  let opt := o .& 0xC0 in
  eRAB_ID ← dec_E_RAB_ID;
  uL ← dec_COUNTvalue;
  dL ← dec_COUNTvalue;
  dec_iEext (flag opt 0x40) ;;
  getextension ext ;;
  mret (V_Bearers_SubjectToStatusTransfer_Item ext opt eRAB_ID (Some uL) (Some dL)).

Definition dec_E_RABItem : P ie_value :=
  ext ← getbit; opt ← getbit;
  eRAB_ID ← dec_E_RAB_ID;
  cause ← dec_Cause;
  dec_iEext (opt =? 1) ;;
  getextension ext ;;
  mret (V_E_RABItem ext opt eRAB_ID (Some cause)).

Definition dec_E_RABToBeModifiedItemBearerModReq : P ie_value :=
  ext ← getbit; opt ← getbit;
  eRAB_ID ← dec_E_RAB_ID;
  qos ← dec_E_RABLevelQoSParameters;
  nAS_PDU ← dec_Unconstrained_Octed_String;
  dec_iEext (opt =? 1) ;;
  getextension ext ;;
  mret (V_E_RABToBeModifiedItemBearerModReq ext opt eRAB_ID (Some qos) (Some nAS_PDU)).

Definition dec_E_RABToBeSetupItemBearerSUReq : P ie_value :=
  ext ← getbit; opt ← getbit;
  eRAB_ID ← dec_E_RAB_ID;
  qos ← dec_E_RABLevelQoSParameters;
  addr ← dec_TransportLayerAddress;
  gTP_TEID ← decode_octet_string 4;
  nAS_PDU ← dec_Unconstrained_Octed_String;
  dec_iEext (opt =? 1) ;;
  getextension ext ;;
  mret (V_E_RABToBeSetupItemBearerSUReq ext opt eRAB_ID (Some qos) (Some addr) gTP_TEID (Some nAS_PDU)).

Definition dec_E_RABSetupItemBearerSURes : P ie_value :=
  ext ← getbit; opt ← getbit;
  eRAB_ID ← dec_E_RAB_ID;
  addr ← dec_TransportLayerAddress;
  gTP_TEID ← decode_octet_string 4;
  dec_iEext (opt =? 1) ;;
  getextension ext ;;
  mret (V_E_RABSetupItemBearerSURes ext opt eRAB_ID (Some addr) gTP_TEID).

Definition dec_HandoverType : P ie_value :=
  ext ← getbit; ht ← dec_when (ext =? 0) (decode_constrained_number 0 4) 0; mret (V_HandoverType ext ht).

Definition dec_TargetID : P ie_value :=
  ext ← getbit;
  choice ← getchoice 3 ext;
  t ← (if choice + ext * 2 =? 0 then x ← dec_TargeteNB_ID; mret (targeteNB_ID x)
       else if choice + ext * 2 =? 1 then x ← dec_TargetRNC_ID; mret (targetRNC_ID x)
       else if choice + ext * 2 =? 2 then x ← dec_CGI; mret (cGI x)
       else mret targetID_unset);
  mret (V_TargetID ext choice t).

(** A bit field of 10 bits. *)
Definition dec_UEIdentityIndexValue : P ie_value := id ← decode_bit_string 10; mret (V_UEIdentityIndexValue (id mod 2^10)).

Definition dec_E_RABToBeSetupItemHOReq : P ie_value :=
  ext ← getbit; opt ← getbit;
  eRAB_ID ← dec_E_RAB_ID;
  addr ← dec_TransportLayerAddress;
  gTP_TEID ← decode_octet_string 4;
  qos ← dec_E_RABLevelQoSParameters;
  dec_iEext (opt =? 1) ;;
  getextension ext ;;
  mret (V_E_RABToBeSetupItemHOReq ext opt eRAB_ID (Some addr) gTP_TEID (Some qos)).

(** A bit field of 3 bits. *)
Definition dec_SecurityContext : P ie_value :=
  ext ← getbit; opt ← getbit;
  count ← decode_constrained_number 0 7;
  key ← dec_SecurityKey;
  dec_iEext (opt =? 1) ;;
  getextension ext ;;
  mret (V_SecurityContext ext opt (count mod 2^3) (Some key)).

(** The S-TMSI is not decoded, and an IMSI ends the program. *)
Definition dec_UEPagingID : P ie_value :=
  ext ← getbit;
  choice ← getchoice 2 ext;
  (if choice + ext * 2 =? 1 then pfault Aborted else nop) ;;
  mret (V_UEPagingID ext choice None).

Definition dec_E_RABAdmittedItem : P ie_value :=
  ext ← getbit; opt ← getopt MAXDATABYTES 5;
  eRAB_ID ← dec_E_RAB_ID;
  addr ← dec_TransportLayerAddress;
  gTP_TEID ← decode_octet_string 4;
  dL_addr ← dec_opt (flag opt 0x80) dec_TransportLayerAddress;
  dL_TEID ← dec_when (flag opt 0x40) (decode_octet_string 4) new_teid;
  uL_addr ← dec_opt (flag opt 0x20) dec_TransportLayerAddress;
  uL_TEID ← dec_when (flag opt 0x10) (decode_octet_string 4) new_teid;
  dec_iEext (flag opt 0x08) ;;
  getextension ext ;;
  mret (V_E_RABAdmittedItem ext opt eRAB_ID (Some addr) gTP_TEID dL_addr dL_TEID uL_addr uL_TEID).

(** The flag of the second address is tested for the first one, too. *)
Definition dec_E_RABDataForwardingItem : P ie_value :=
  ext ← getbit; opt ← getopt MAXDATABYTES 5;
  eRAB_ID ← dec_E_RAB_ID;
  dL_addr ← dec_opt (flag opt 0x20) dec_TransportLayerAddress;
  dL_TEID ← dec_when (flag opt 0x40) (decode_octet_string 4) new_teid;
  uL_addr ← dec_opt (flag opt 0x20) dec_TransportLayerAddress;
  uL_TEID ← dec_when (flag opt 0x10) (decode_octet_string 4) new_teid;
  dec_iEext (flag opt 0x08) ;;
  getextension ext ;;
  mret (V_E_RABDataForwardingItem ext opt eRAB_ID dL_addr dL_TEID uL_addr uL_TEID).

Definition dec_TAIItem : P ie_value :=
  ext ← getbit; opt ← getbit;
  tAI ← dec_TAI;
  dec_iEext (opt =? 1) ;;
  getextension ext ;;
  mret (V_TAIItem ext opt tAI).

(** ** Messages *)

(** [getdec_S1AP_IE[]] *)
Definition getdec_S1AP_IE (dec_protocolIEs : P S1AP_PROTOCOL_IES_t) : list (option (P ie_value)) :=
  [ Some (v ← dec_MME_UE_S1AP_ID; mret (V_MME_UE_S1AP_ID v)); Some dec_HandoverType; Some (v ← dec_Cause; mret (V_Cause v));
    None; Some dec_TargetID; None; None; None; Some (v ← dec_ENB_UE_S1AP_ID; mret (V_ENB_UE_S1AP_ID v)); None; None; None;
    Some (SEQ_OF_CONTAINER_DEC dec_protocolIEs maxNrOfERABs maxnoofGroupIDs);
    Some (SEQ_OF_CONTAINER_DEC dec_protocolIEs maxNrOfERABs maxnoofGroupIDs); Some dec_E_RABDataForwardingItem; None;
    Some (dec_E_RABToBeSetupListBearerSUReq dec_protocolIEs); Some dec_E_RABToBeSetupItemBearerSUReq;
    Some (SEQ_OF_CONTAINER_DEC dec_protocolIEs maxNrOfERABs maxnoofGroupIDs); None; Some dec_E_RABAdmittedItem; None;
    Some (SEQ_OF_CONTAINER_DEC dec_protocolIEs maxNrOfERABs maxNrOfERABs); Some dec_E_RABSetupItemBearerSURes;
    Some (SEQ_OF_CONTAINER_DEC dec_protocolIEs maxNrOfERABs maxNrOfERABs); None;
    Some (v ← dec_Unconstrained_Octed_String; mret (V_Unconstrained_Octed_String v)); Some dec_E_RABToBeSetupItemHOReq;
    Some (SEQ_OF_CONTAINER_DEC dec_protocolIEs maxNrOfERABs maxNrOfERABs);
    Some (SEQ_OF_CONTAINER_DEC dec_protocolIEs maxNrOfERABs maxnoofGroupIDs);
    Some (dec_E_RABToBeModifiedListBearerModReq dec_protocolIEs); None;
    Some (SEQ_OF_CONTAINER_DEC dec_protocolIEs maxNrOfERABs maxnoofGroupIDs);
    Some (SEQ_OF_CONTAINER_DEC dec_protocolIEs maxNrOfERABs maxnoofGroupIDs);
    Some (SEQ_OF_CONTAINER_DEC dec_protocolIEs maxNrOfERABs maxnoofGroupIDs); Some dec_E_RABItem;
    Some dec_E_RABToBeModifiedItemBearerModReq; None; None; Some dec_E_RABSetupItemBearerSURes; Some dec_SecurityContext; None;
    None; Some dec_UEPagingID; None; None; Some (SEQ_OF_CONTAINER_DEC dec_protocolIEs maxnoofTAIs maxnoofTAIs); Some dec_TAIItem;
    Some (SEQ_OF_CONTAINER_DEC dec_protocolIEs maxNrOfERABs maxnoofGroupIDs); None; Some dec_E_RABSetupItemBearerSURes;
    Some (SEQ_OF_CONTAINER_DEC dec_protocolIEs maxNrOfERABs maxNrOfERABs); Some dec_E_RABToBeSetupItemCtxtSUReq;
    Some (SEQ_OF_CONTAINER_DEC dec_protocolIEs maxNrOfERABs maxNrOfERABs); None; None; None; None;
    Some dec_CriticalityDiagnostics; Some (v ← dec_Global_ENB_ID; mret (V_Global_ENB_ID v)); Some dec_ENBname; Some dec_MMEname;
    None; Some (v ← dec_servedPLMNs; mret (V_ServedPLMNs v)); Some dec_SupportedTAs; Some dec_TimeToWait;
    Some dec_UEAggregateMaximumBitrate; Some (v ← dec_TAI; mret (V_TAI v)); None; None; None; None; None;
    Some (v ← dec_SecurityKey; mret (V_SecurityKey v)); Some dec_UERadioCapability; None; None; None; None;
    Some dec_Direct_Forwarding_Path_Availability; Some dec_UEIdentityIndexValue; None; None; None; None; None; None;
    Some dec_RelativeMMECapacity; Some (v ← dec_MME_UE_S1AP_ID; mret (V_MME_UE_S1AP_ID v));
    Some dec_Bearers_SubjectToStatusTransfer_Item; Some (dec_ENB_StatusTransfer_TransparentContainer dec_protocolIEs);
    Some dec_UE_associatedLogicalS1_ConnectionItem; Some (dec_ResetType dec_protocolIEs);
    Some (SEQ_OF_CONTAINER_DEC dec_protocolIEs maxNrOfIndividualS1ConnectionsToReset maxNrOfIndividualS1ConnectionsToReset);
    Some dec_E_RABSetupItemBearerSURes; Some (SEQ_OF_CONTAINER_DEC dec_protocolIEs maxNrOfERABs maxNrOfERABs);
    Some (v ← dec_S_TMSI; mret (V_S_TMSI v)); None; None; Some dec_UE_S1AP_IDs; Some dec_EUTRAN_CGI; None; None; None;
    Some (v ← dec_Unconstrained_Octed_String; mret (V_Unconstrained_Octed_String v)); Some dec_ServedGUMMEIs;
    Some dec_SubscriberProfileIDforRFP; Some dec_UESecurityCapabilities; None; Some dec_CNDomain;
    Some (SEQ_OF_CONTAINER_DEC dec_protocolIEs maxNrOfERABs maxnoofGroupIDs); None; None; None; None; None; None; None; None;
    None; None; None; None; Some (v ← dec_Unconstrained_Octed_String; mret (V_Unconstrained_Octed_String v)); None; None; None;
    Some (v ← dec_CSGid; mret (V_CSG_id v)); Some dec_CSGidList; None; None; None; None; None; Some dec_RRC_Establishment_Cause;
    Some (v ← dec_Unconstrained_Octed_String; mret (V_Unconstrained_Octed_String v));
    Some (v ← dec_Unconstrained_Octed_String; mret (V_Unconstrained_Octed_String v)); Some dec_PagingDRX;
    Some (v ← dec_Unconstrained_Octed_String; mret (V_Unconstrained_Octed_String v));
    Some (v ← dec_Unconstrained_Octed_String; mret (V_Unconstrained_Octed_String v)); None; None; None; None; None; None; None;
    None; None; None; None; None; None; None; None; None; None; None; None; Some (v ← dec_LAI; mret (V_LAI v)); None; None; None;
    Some dec_MMERelaySupportIndicator; None; None; None; None; None; None; None ].

(** [dec_protocolIEs]: it is called again for the elements inside of an open
    type; [fuel] bounds the depth. *)
Fixpoint dec_protocolIEs (fuel : nat) : P S1AP_PROTOCOL_IES_t :=
  match fuel with
  | O => pfault Diverges
  | S fuel =>
    id ← decode_constrained_number 0 65535;
    criticality ← decode_enumerated 0 2;
    tmp ← decode_open_type MAXDATABYTES;
    match getdec_S1AP_IE (dec_protocolIEs fuel) !! Z.to_nat id with
    | None => pfault OutOfBounds
    | Some None => mret (IE id criticality 0 None)
    | Some (Some iedec) => '(v, _) ← plift (iedec tmp); mret (IE id criticality 0 (Some v))
    end
  end.

Definition dec_ElementaryProcedure (fuel : nat) : P (list S1AP_PROTOCOL_IES_t) :=
  ext ← getbit;
  len ← decode_constrained_number 0 65535;
  dec_items (Z.to_nat len) maxProtocolIEs (dec_protocolIEs fuel) [].

Definition dec_S1AP_PDU (fuel : nat) : P S1AP_PDU_t :=
  procedureCode ← decode_constrained_number 0 255;
  criticality ← decode_enumerated 0 2;
  l ← dec_open MAXDATABYTES (dec_ElementaryProcedure fuel);
  mret {| procedureCode := procedureCode; pdu_criticality := criticality; pdu_ext := 0; pdu_value := l |}.

(** [s1ap_decode], down to a depth of [fuel]. *)
Definition s1ap_decode_within (fuel : nat) (buf : list Z) (size : Z) : outcome S1AP_Message_t :=
  '(m, _) ← (
    ext ← getbit;
    choice ← getchoice 3 ext;
    if choice + ext * 3 <? 3 then
      p ← dec_S1AP_PDU fuel; mret {| extension := ext; choice := choice; pdu := p |}
    else mret {| extension := ext; choice := choice; pdu := pdu S1AP_newMsg |})
    {| data := buf; offset := 0; pos := 0; len := wrap32 (size * 8) |};
  Ok m.

(** An element inside of another one is shorter, so that there are not more
    levels than octets. *)
Definition s1ap_decode (buf : list Z) (size : Z) : outcome S1AP_Message_t := s1ap_decode_within (S (length buf)) buf size.
