(* ===== verification/S1APTerm.v ===== *)
(** The S1AP decoder ends: an element inside of another one is shorter. *)
From S2P Require Import Prelude PER S1APTypes S1APEnc S1APDec.

(** On a buffer of at most [m] octets the two readers do the same, end, and do
    not make the buffer longer. *)
Definition agrees {A} (m : nat) (d d' : P A) : Prop :=
  forall st, (length (data st) <= m)%nat -> d st = d' st /\
    match d st with Ok (_, st') => (length (data st') <= length (data st))%nat | UB f => f <> Diverges end.
Abbreviation ends m d := (agrees m d d).

Create HintDb ends.

Section Combinators.
Context {A B : Type} (m : nat).

Lemma ends_intro (d : P A) : (forall st, (length (data st) <= m)%nat ->
  match d st with Ok (_, st') => (length (data st') <= length (data st))%nat | UB f => f <> Diverges end) -> ends m d.
Proof. intros H st Hs. split; [done|by apply H]. Qed.
Lemma ends_ret (a : A) : ends m (mret a).
Proof. apply ends_intro. intros. cbn. lia. Qed.
Lemma ends_fault f : f <> Diverges -> ends m (@pfault A f).
Proof. intros. by apply ends_intro. Qed.
Lemma ends_plift (o : outcome A) : o <> UB Diverges -> ends m (plift o).
Proof. intros H. apply ends_intro. intros st _. unfold plift. destruct o as [a|f]; cbn; [lia|congruence]. Qed.
Lemma agrees_bind (d d' : P A) (k k' : A -> P B) : agrees m d d' -> (forall a, agrees m (k a) (k' a)) -> agrees m (a ← d; k a) (a ← d'; k' a).
Proof.
  intros Hd Hk st Hs. destruct (Hd st Hs) as [E H]. unfold mbind, P_bind. rewrite <- E. destruct (d st) as [[a st']|f]; [|done]. osimp.
  destruct (Hk a st' ltac:(lia)) as [E' H']. split; [exact E'|]. destruct (k a st') as [[? ?]|]; [lia|done].
Qed.
End Combinators.

Lemma agrees_le {A} m n (d d' : P A) : agrees n d d' -> (m <= n)%nat -> agrees m d d'.
Proof. intros H Hm st Hs. apply H. lia. Qed.
Lemma rd_ends p : rd p <> UB Diverges.
Proof. by destruct p. Qed.
Lemma rdn_ends p n : rdn p n <> UB Diverges.
Proof. unfold rdn. by case_match. Qed.
Lemma fits_ends cap n : fits cap n <> UB Diverges.
Proof. unfold fits. by repeat case_match. Qed.
#[export] Hint Resolve ends_ret ends_plift rd_ends rdn_ends fits_ends : ends.
#[export] Hint Extern 1 (agrees _ (pfault _) _) => (apply ends_fault; discriminate) : ends.
#[export] Hint Extern 1 (agrees _ nop _) => (apply ends_ret) : ends.

(** Follow the structure of a reader. *)
Ltac ends := repeat first [solve [auto with ends] | apply agrees_bind; [|intros ?] | case_match].

(** ** The run time *)

Section Runtime.
Context (m : nat).

Lemma adv_shorter l n : (length (adv l n) <= length l)%nat.
Proof. unfold adv. rewrite length_drop. lia. Qed.

Lemma getbits_loop_ends limit : forall i num p newused tmp, getbits_loop limit i num p newused tmp <> UB Diverges.
Proof.
  induction limit as [|limit IH]; intros i num p newused tmp; [done|]. cbn [getbits_loop].
  destruct (rd tmp) as [t|f] eqn:E; [|intros [= ->]; by apply (rd_ends tmp)]. osimp. specialize (IH (i + 1) num p newused (adv tmp 1)).
  case_match; [unfold rdi; destruct (rd (adv tmp 1)) as [t1|f] eqn:E1; [|intros [= ->]; by apply (rd_ends (adv tmp 1))]|]; osimp;
    destruct (getbits_loop _ _ _ _ _ _); osimp; congruence.
Qed.

(** Evaluate a reader that moves forward, case by case. *)
Ltac run :=
  apply ends_intro; intros st _; unfold get, put, plift, nop, mbind, P_bind, mret, P_ret;
  repeat (osimp; match goal with
    | |- context [rd ?p] => let E := fresh in destruct (rd p) eqn:E; [|intros ->; by apply (rd_ends p)]
    | |- context [rdn ?p ?n] => let E := fresh in destruct (rdn p n) eqn:E; [|intros ->; by apply (rdn_ends p n)]
    | |- context [fits ?c ?n] => let E := fresh in destruct (fits c n) eqn:E; [|intros ->; by apply (fits_ends c n)]
    | |- context [getbits_loop ?a ?b ?c ?d ?e ?f] =>
      let E := fresh in destruct (getbits_loop a b c d e f) eqn:E; [|intros ->; by apply (getbits_loop_ends a b c d e f)]
    | |- context [if ?b then _ else _] => destruct b
    end); cbn [data]; try apply adv_shorter; try lia; try discriminate.

Lemma ends_align_dec : ends m align_dec.
Proof. unfold align_dec. run. Qed.
Lemma ends_getbit : ends m getbit.
Proof. unfold getbit. run. Qed.
Lemma ends_getbits cap num : ends m (getbits cap num).
Proof. unfold getbits. run. Qed.
#[local] Hint Resolve ends_align_dec ends_getbit ends_getbits : ends.

Lemma ends_getopt cap k : ends m (getopt cap k).
Proof. unfold getopt. ends. Qed.
Lemma ends_getoctets cap num : ends m (getoctets cap num).
Proof. unfold getoctets. apply agrees_bind; [ends|intros _]. run. Qed.
Lemma ends_length_undef : ends m decode_length_undef.
Proof. unfold decode_length_undef. apply agrees_bind; [ends|intros _]. run. Qed.
#[local] Hint Resolve ends_getopt ends_getoctets ends_length_undef : ends.
Lemma ends_bits_value n : ends m (bits_value n).
Proof. unfold bits_value. ends. Qed.
Lemma ends_octets_value n : ends m (octets_value n).
Proof. unfold octets_value. ends. Qed.
#[local] Hint Resolve ends_bits_value ends_octets_value : ends.
(** The number of octets takes a few bits. *)
Lemma ends_number_short n : 3 <= n <= 5 -> ends m (decode_constrained_number_ 1 1 n).
Proof.
  intros Hn. cbn [decode_constrained_number_]. replace (wrap64 (n - 1 + 1)) with n by (unfold wrap64; rewrite Z.mod_small; lia).
  destruct (Z.eqb_spec n 2); [lia|]. destruct (Z.leb_spec n 4); [ends|]. destruct (Z.leb_spec n 8); [ends|lia].
Qed.
Lemma ends_number_long f Lb Ub : (forall n, 3 <= n <= 5 -> ends m (decode_constrained_number_ f 1 n)) ->
  ends m (decode_constrained_number_ (S f) Lb Ub).
Proof.
  intros H. pose proof (H 3 ltac:(lia)). pose proof (H 4 ltac:(lia)). pose proof (H 5 ltac:(lia)). cbn [decode_constrained_number_]. ends.
Qed.
Lemma ends_number Lb Ub : ends m (decode_constrained_number Lb Ub).
Proof. apply ends_number_long, ends_number_short. Qed.
#[local] Hint Resolve ends_number : ends.
Lemma ends_enumerated Lb Ub : ends m (decode_enumerated Lb Ub).
Proof. apply ends_number. Qed.
Lemma ends_small_number : ends m decode_small_number.
Proof. unfold decode_small_number, decode_semi_constrained_number. ends. Qed.
#[local] Hint Resolve ends_enumerated ends_small_number : ends.
Lemma ends_semi_constrained_number Lb : ends m (decode_semi_constrained_number Lb).
Proof. unfold decode_semi_constrained_number. ends. Qed.
Lemma ends_getchoice n ext : ends m (getchoice n ext).
Proof. unfold getchoice. ends. Qed.
Lemma ends_octet_string n : ends m (decode_octet_string n).
Proof. unfold decode_octet_string. ends. Qed.
Lemma ends_repeatP {A} n (d : P A) : ends m d -> ends m (repeatP n d).
Proof. intros H. induction n; cbn [repeatP]; ends. Qed.
Lemma ends_PrintableString cap Lb Ub : ends m (decode_PrintableString cap Lb Ub).
Proof. unfold decode_PrintableString. ends. apply ends_repeatP. ends. Qed.
Lemma ends_bit_string n : ends m (decode_bit_string n).
Proof. unfold decode_bit_string. ends. Qed.

Lemma agrees_items {A} n max (d d' : P A) : agrees m d d' -> forall l, agrees m (dec_items n max d l) (dec_items n max d' l).
Proof. intros H. induction n as [|n IH]; intros l; cbn [dec_items]; ends. Qed.
Lemma agrees_list {A} max addmax (d d' : P A) : agrees m d d' -> agrees m (dec_list max addmax d) (dec_list max addmax d').
Proof. intros H. unfold dec_list. ends. by apply agrees_items. Qed.
Lemma ends_getextension ext : ends m (getextension ext).
Proof. unfold getextension. ends. Qed.
Lemma ends_dec_iEext b : ends m (dec_iEext b).
Proof. unfold dec_iEext. ends. Qed.
Lemma ends_dec_when {A} b (d : P A) x : ends m d -> ends m (dec_when b d x).
Proof. intros H. unfold dec_when. ends. Qed.
Lemma ends_dec_opt {A} b (d : P A) : ends m d -> ends m (dec_opt b d).
Proof. intros H. unfold dec_opt. ends. Qed.
End Runtime.
#[export] Hint Resolve ends_align_dec ends_getbit ends_getbits ends_getopt ends_getoctets ends_length_undef ends_number ends_enumerated
  ends_small_number ends_semi_constrained_number ends_getchoice ends_octet_string ends_PrintableString ends_bit_string agrees_items agrees_list
  ends_getextension ends_dec_iEext ends_dec_when ends_dec_opt : ends.

(** The contents of an open type are shorter than the buffer. *)
Lemma length_undef_shorter st n s : decode_length_undef st = Ok (n, s) -> (length (data s) < length (data st))%nat.
Proof.
  unfold decode_length_undef. unfold mbind at 1, P_bind at 1. pose proof (proj2 (ends_align_dec _ st (le_n _))) as Ha.
  destruct (align_dec st) as [[[] s1]|]; [|done]. osimp. unfold get, put, plift, mbind, P_bind, mret, P_ret. osimp.
  destruct (data s1) as [|b l] eqn:Ed; [done|]. cbn [rd length] in *. osimp.
  destruct (b .& 128 =? 0); [|destruct (b .& 192 =? 128); [destruct (rdn (b :: l) 2); [|done]|done]]; osimp;
    intros [= <- <-]; cbn [data length] in *; unfold adv; rewrite length_drop; cbn [length]; lia.
Qed.
Lemma getoctets_le cap n s o s' : getoctets cap n s = Ok (Some o, s') -> (length o <= length (data s))%nat.
Proof.
  unfold getoctets. unfold mbind at 1, P_bind at 1. pose proof (proj2 (ends_align_dec _ s (le_n _))) as Ha.
  destruct (align_dec s) as [[[] s1]|]; [|done]. osimp. unfold get, put, plift, mbind, P_bind, mret, P_ret. osimp.
  destruct (len s1 / 8 <? n); [done|]. unfold rdn. destruct (Z.of_nat _ <? n); [done|]. osimp. destruct (fits _ _); [|done].
  osimp. intros [= <- <-]. rewrite length_take. lia.
Qed.
Lemma open_type_shorter cap st : match decode_open_type cap st with
  | Ok (tmp, st') => (length (data tmp) < length (data st))%nat /\ (length (data st') <= length (data st))%nat
  | UB f => f <> Diverges
  end.
Proof.
  unfold decode_open_type. unfold mbind at 1, P_bind at 1. pose proof (proj2 (ends_length_undef _ st (le_n _))) as H.
  destruct (decode_length_undef st) as [[n s]|f] eqn:En; [|done]. osimp. apply length_undef_shorter in En. unfold mbind, P_bind.
  pose proof (proj2 (ends_getoctets _ (Some cap) n s (le_n _))) as Ho.
  destruct (getoctets (Some cap) n s) as [[[o|] s']|f] eqn:Eo; [| |done]; osimp; (split; cbn [data length]; [|lia]); [|lia].
  apply getoctets_le in Eo. lia.
Qed.

Lemma agrees_open {A} m cap (k k' : BinaryData -> P A) : (forall tmp, (length (data tmp) < m)%nat -> agrees m (k tmp) (k' tmp)) ->
  agrees m (tmp ← decode_open_type cap; k tmp) (tmp ← decode_open_type cap; k' tmp).
Proof.
  intros Hk st Hs. unfold mbind, P_bind. pose proof (open_type_shorter cap st) as H.
  destruct (decode_open_type cap st) as [[tmp st']|f]; [|done]. osimp. destruct H as [Ht Hs'].
  destruct (Hk tmp ltac:(lia) st' ltac:(lia)) as [E K]. split; [done|]. destruct (k tmp st') as [[? ?]|]; [lia|done].
Qed.
(** The contents are decoded on their own. *)
Lemma agrees_contents {A B} m n (d d' : P A) (k : A -> P B) tmp : agrees n d d' -> (length (data tmp) <= n)%nat -> (forall a, ends m (k a)) ->
  agrees m ('(v, _) ← plift (d tmp); k v) ('(v, _) ← plift (d' tmp); k v).
Proof.
  intros Hd Ht Hk st Hs. destruct (Hd tmp Ht) as [E H]. unfold mbind, P_bind, plift. rewrite <- E.
  destruct (d tmp) as [[v s]|f]; osimp; [|done]. by apply Hk.
Qed.

(** ** Information elements *)

Lemma ends_PLMNidentity m : ends m dec_PLMNidentity.
Proof.
  unfold dec_PLMNidentity. ends. apply ends_plift. unfold plmnId_tbcd2MccMnc, rdi. by destruct a as [|a [|b [|c ?]]].
Qed.
#[export] Hint Resolve ends_PLMNidentity : ends.

(** Follow the structure of a reader through its definitions. *)
Ltac head t := lazymatch t with ?f _ => head f | _ => t end.
Ltac reader := repeat lazymatch goal with
  | |- agrees _ (mbind _ _) _ => apply agrees_bind; [|intros ?]
  | |- agrees _ (dec_list _ _ _) _ => apply agrees_list
  | |- agrees _ (dec_items _ _ _ _) _ => apply agrees_items
  | |- agrees _ (dec_opt _ _) _ => apply ends_dec_opt
  | |- agrees _ (dec_when _ _ _) _ => apply ends_dec_when
  | |- agrees _ (if _ then _ else _) _ => case_match
  | |- agrees _ ?d _ => first [solve [auto with ends] | let h := head d in unfold h]
  end.

Definition entry_agrees (m : nat) (d d' : option (P ie_value)) : Prop :=
  match d, d' with Some d, Some d' => agrees m d d' | None, None => True | _, _ => False end.

Ltac pairs := lazymatch goal with |- Forall2 _ (_ :: _) _ => apply List.Forall2_cons; [cbn [entry_agrees]; try exact I|pairs] | _ => apply List.Forall2_nil end.

(** Every function of the table ends when the elements inside do. *)
Lemma table_agrees m dp dp' : agrees m dp dp' -> Forall2 (entry_agrees m) (getdec_S1AP_IE dp) (getdec_S1AP_IE dp').
Proof.
  intros H. unfold getdec_S1AP_IE. pairs; reader.
Qed.

(** [dec_protocolIEs] does not depend on the bound on the depth when it is more
    than the octets that are left. *)
Lemma protocolIEs_agree m : forall f f', (m <= f)%nat -> (m <= f')%nat -> agrees m (dec_protocolIEs (S f)) (dec_protocolIEs (S f')).
Proof.
  induction m as [m IH] using lt_wf_ind. intros f f' Hf Hf'. cbn [dec_protocolIEs].
  apply agrees_bind; [ends|intros id]. apply agrees_bind; [ends|intros crit].
  assert (T : forall n, (n < m)%nat -> Forall2 (entry_agrees n) (getdec_S1AP_IE (dec_protocolIEs f)) (getdec_S1AP_IE (dec_protocolIEs f'))).
  { intros n Hn. apply table_agrees. destruct f as [|f], f' as [|f']; try lia. apply IH; lia. }
  apply agrees_open. intros tmp Ht. specialize (T _ Ht).
  destruct (getdec_S1AP_IE (dec_protocolIEs f) !! Z.to_nat id) as [d|] eqn:E.
  - destruct (Forall2_lookup_l _ _ _ _ _ T E) as (d' & E' & R). destruct (getdec_S1AP_IE (dec_protocolIEs f') !! _); [|done].
    injection E' as ->. destruct d as [d|], d' as [d'|]; cbn [entry_agrees] in R; try done; [|ends].
    eapply agrees_contents; [exact R|done|]. intros a. apply ends_ret.
  - destruct (getdec_S1AP_IE (dec_protocolIEs f') !! Z.to_nat id) as [d'|] eqn:E'; [|ends].
    destruct (Forall2_lookup_r _ _ _ _ _ T E') as (d & E'' & _). discriminate (eq_trans (eq_sym E'') E).
Qed.

(** ** Messages *)

Lemma message_agrees m f f' : (m <= f)%nat -> (m <= f')%nat -> agrees m (dec_S1AP_PDU (S f)) (dec_S1AP_PDU (S f')).
Proof.
  intros Hf Hf'. unfold dec_S1AP_PDU, dec_open. apply agrees_bind; [ends|intros ?]. apply agrees_bind; [ends|intros ?].
  apply agrees_bind; [|ends]. apply agrees_open. intros tmp Ht. eapply agrees_contents; [|apply (Nat.lt_le_incl _ _ Ht)|intros; apply ends_ret].
  unfold dec_ElementaryProcedure. do 2 (apply agrees_bind; [ends|intros ?]). by apply agrees_items, protocolIEs_agree.
Qed.

Lemma decode_within buf size fuel : (length buf < fuel)%nat ->
  s1ap_decode_within fuel buf size = s1ap_decode buf size /\ s1ap_decode buf size <> UB Diverges.
Proof.
  intros Hf. unfold s1ap_decode, s1ap_decode_within. destruct fuel as [|f]; [lia|].
  match goal with |- context [(?d {| data := buf; offset := _; pos := _; len := _ |} ≫= _) = (?d' _ ≫= _) /\ _] =>
    assert (H : agrees (length buf) d d') end.
  { do 2 (apply agrees_bind; [ends|intros ?]). case_match; [|ends]. apply agrees_bind; [|ends]. apply message_agrees; lia. }
  destruct (H {| data := buf; offset := 0; pos := 0; len := wrap32 (size * 8) |} (le_n _)) as [E G]. rewrite <- E. split; [done|].
  match goal with |- context [?x ≫= _] => destruct x as [[? ?]|] end; osimp; congruence.
Qed.

(** C30: The decoder ends on every input: it is not cut off by the bound on the
    depth of nested elements, and any greater bound gives the same result. *)
Theorem s1ap_decode_ends buf size fuel : (length buf < fuel)%nat ->
  s1ap_decode_within fuel buf size = s1ap_decode buf size /\ s1ap_decode buf size <> UB Diverges.
Proof. apply decode_within. Qed.
Lemma s1ap_decode_ends_witness : s1ap_decode_within 20 [0; 17; 0; 7] 4 = s1ap_decode [0; 17; 0; 7] 4 /\ s1ap_decode [0; 17; 0; 7] 4 <> UB Diverges.
Proof. apply (s1ap_decode_ends [0; 17; 0; 7] 4 20). cbn. lia. Defined.
