(* ===== verification/S1APWf.v ===== *)
(** What an S1AP message must satisfy to survive encoding and decoding, and
    what is lost on the way.

    [value_wf] and [ie_wf] say which values the encoder and the decoder agree
    on; [norm] forgets what is not transmitted: the presence of an element, a
    PLMN identity is given by its digits or by its octets, and the decoder
    leaves bits of what follows in the flags of some structures. *)
From S2P Require Import Prelude PER PERBits PERRead PERCodec S1APTypes S1APEnc S1APDec.

Definition inr (lo x hi : Z) : bool := (lo <=? x) && (x <=? hi).
Definition octets (n : nat) (l : list Z) : bool := (length l =? n)%nat && forallb (fun b => inr 0 b 255) l.
(** A field of [k] flags with nothing else set. *)
Definition flags (k opt : Z) : bool := inr 0 opt 255 && (upper k opt =? opt).
Definition ptr {A} (f : A -> bool) (p : option A) : bool := match p with Some a => f a | None => false end.
(** A pointer that is set exactly when its flag is. *)
Definition opt_ptr {A} (b : bool) (f : A -> bool) (p : option A) : bool :=
  if b then ptr f p else match p with None => true | Some _ => false end.
(** A list that is neither empty nor too long for [uint8_t]. *)
Definition items {A} (max : nat) (f : A -> bool) (l : list A) : bool :=
  (1 <=? length l)%nat && (length l <=? max)%nat && forallb f l.

(** ** Parts *)

Definition zero3 (s : list Z) : bool := match s with [a; b; c] => (a =? 0) && (b =? 0) && (c =? 0) | _ => false end.
Definition norm_plmn (p : PLMNidentity_t) : PLMNidentity_t :=
  let '(PLMNidentity s _ _) := p in if zero3 s then plmnId_MccMnc2tbcd p else p.
(** The digits are those of the octets; when there are only digits, the MNC has
    at most two. *)
Definition plmn_wf (p : PLMNidentity_t) : bool :=
  let '(PLMNidentity s mcc mnc) := p in
  octets 3 s &&
  (if zero3 s then inr 0 mcc 999 && inr 0 mnc 99
   else match plmnId_tbcd2MccMnc p with Ok (PLMNidentity _ m n) => (m =? mcc) && (n =? mnc) | UB _ => false end).

Definition bplmns_wf (v : BPLMNs_t) : bool := let '(BPLMNs size l) := v in (size =? Z.of_nat (length l)) && items 6 plmn_wf l.
Definition norm_bplmns (v : BPLMNs_t) : BPLMNs_t := let '(BPLMNs size l) := v in BPLMNs size (map norm_plmn l).

Definition ta_wf (v : SupportedTAs_Item_t) : bool :=
  let '(SupportedTAs_Item ext opt tAC b) := v in (ext =? 0) && inr 0 opt 1 && octets 2 tAC && ptr bplmns_wf b.
Definition norm_ta (v : SupportedTAs_Item_t) : SupportedTAs_Item_t :=
  let '(SupportedTAs_Item ext opt tAC b) := v in SupportedTAs_Item ext opt tAC (norm_bplmns <$> b).

Definition cause_wf (v : Cause_t) : bool :=
  let '(Cause ext choice cext c) := v in
  (ext =? 0) && (cext =? 0) && inr 0 choice 4 && inr 0 c (nth (Z.to_nat choice) [35; 1; 3; 6; 5] 0).

Definition tai_wf (v : TAI_t) : bool :=
  let '(TAI ext opt p tAC) := v in (ext =? 0) && inr 0 opt 1 && ptr plmn_wf p && octets 2 tAC.
Definition norm_tai (v : TAI_t) : TAI_t := let '(TAI ext opt p tAC) := v in TAI ext opt (norm_plmn <$> p) tAC.

Definition lai_wf (v : LAI_t) : bool :=
  let '(LAI ext opt p lAC) := v in (ext =? 0) && (opt =? 0) && ptr plmn_wf p && octets 2 lAC.
Definition norm_lai (v : LAI_t) : LAI_t := let '(LAI ext opt p lAC) := v in LAI ext opt (norm_plmn <$> p) lAC.

Definition erab_wf (v : E_RAB_ID_t) : bool := let '(E_RAB_ID ext id) := v in (ext =? 0) && inr 0 id 15.

Definition arp_wf (v : AllocationAndRetentionPriority_t) : bool :=
  let '(AllocationAndRetentionPriority ext opt l c u) := v in (ext =? 0) && inr 0 opt 1 && inr 0 l 15 && inr 0 c 1 && inr 0 u 1.
(** Rates of more than four octets do not fit the decoder. *)
Definition rate (x : Z) : bool := inr 0 x (2^32 - 1).
Definition gbr_wf (v : GBR_QosInformation_t) : bool :=
  let '(GBR_QosInformation ext opt a b c d) := v in (ext =? 0) && inr 0 opt 1 && rate a && rate b && rate c && rate d.
Definition qos_wf (v : E_RABLevelQoSParameters_t) : bool :=
  let '(E_RABLevelQoSParameters ext opt qCI p g) := v in
  (ext =? 0) && flags 5 opt && inr 0 qCI 255 && ptr arp_wf p &&
  opt_ptr (flag opt 0x80) gbr_wf g.
Definition norm_qos (v : E_RABLevelQoSParameters_t) : E_RABLevelQoSParameters_t :=
  let '(E_RABLevelQoSParameters ext opt qCI p g) := v in E_RABLevelQoSParameters ext (upper 5 opt) qCI p g.

(** Whole octets, and nothing after them in the array. *)
Definition addr_wf (v : TransportLayerAddress_t) : bool :=
  let '(TransportLayerAddress ext len addr) := v in
  inr 0 ext 1 && inr 8 len 160 && (len mod 8 =? 0) && octets 20 addr && forallb (Z.eqb 0) (drop (Z.to_nat (len / 8)) addr).

Definition str_wf (v : Unconstrained_Octed_String_t) : bool :=
  let '(Unconstrained_Octed_String len str) := v in (len =? Z.of_nat (length str)) && (len <? 4096) && octets (length str) str.

Definition count_wf (v : COUNTvalue_t) : bool :=
  let '(COUNTvalue ext opt a b) := v in (ext =? 0) && (opt =? 0) && inr 0 a 4095 && inr 0 b 1048575.

Definition pair_wf (v : UE_S1AP_ID_pair_t) : bool :=
  let '(UE_S1AP_ID_pair ext opt m e) := v in inr 0 ext 1 && (opt =? 0) && inr 0 m (2^32 - 1) && inr 0 e (2^24 - 1).

Definition genb_wf (v : Global_ENB_ID_t) : bool :=
  let '(Global_ENB_ID ext opt p (ENB_ID e c id)) := v in
  inr 0 ext 1 && (opt =? 0) && ptr plmn_wf p && (e =? 0) &&
  (if c =? 0 then inr 0 id (2^20 - 1) else (c =? 1) && inr 0 id (2^28 - 1)).
Definition norm_genb (v : Global_ENB_ID_t) : Global_ENB_ID_t :=
  let '(Global_ENB_ID ext opt p e) := v in Global_ENB_ID ext (upper 1 opt) (norm_plmn <$> p) e.

Definition stmsi_wf (v : S_TMSI_t) : bool :=
  let '(S_TMSI ext opt c t) := v in (ext =? 0) && (opt =? 0) && octets 1 c && octets 4 t.

(** A name of at most 148 characters, and nothing after it. *)
Definition name_wf (name : list Z) : bool :=
  octets 150 name && match strlen name with Ok n => inr 1 n 148 && forallb (Z.eqb 0) (drop (Z.to_nat n) name) | UB _ => false end.

(** A tunnel end point is only there with its flag. *)
Definition teid_wf (b : bool) (t : list Z) : bool := octets 4 t && (b || forallb (Z.eqb 0) t).

(** ** Values and elements *)

(** The numbers under which both tables have the encoder and the decoder of
    this type of value.  The last ones have none: their encoder and decoder
    disagree, or one of them is missing. *)
Definition ids_of (v : ie_value) : list Z :=
  match v with
  | V_MME_UE_S1AP_ID _ => [0; 88] | V_ENB_UE_S1AP_ID _ => [8] | V_HandoverType _ _ => [1] | V_Cause _ => [2]
  | V_SeqOfContainer _ => [12; 13; 18; 22; 24; 28; 29; 32; 33; 34; 46; 48; 51; 53; 93; 95; 110]
  | V_ListBearer _ => [16; 30] | V_E_RABDataForwardingItem _ _ _ _ _ _ _ => [14]
  | V_E_RABToBeSetupItemBearerSUReq _ _ _ _ _ _ _ => [17] | V_E_RABAdmittedItem _ _ _ _ _ _ _ _ _ => [20]
  | V_E_RABSetupItemBearerSURes _ _ _ _ _ => [23; 39; 50; 94] | V_Unconstrained_Octed_String _ => [26; 104; 123; 135; 136; 138; 139]
  | V_E_RABToBeSetupItemHOReq _ _ _ _ _ _ => [27] | V_E_RABItem _ _ _ _ => [35]
  | V_E_RABToBeModifiedItemBearerModReq _ _ _ _ _ => [36] | V_SecurityContext _ _ _ _ => [40] | V_TAIItem _ _ _ => [47]
  | V_E_RABToBeSetupItemCtxtSUReq _ _ _ _ _ _ _ => [52] | V_Global_ENB_ID _ => [59] | V_ENBname _ _ => [60] | V_MMEname _ _ => [61]
  | V_ServedPLMNs _ => [63] | V_SupportedTAs _ => [64] | V_TimeToWait _ _ => [65] | V_UEAggregateMaximumBitrate _ _ _ _ => [66]
  | V_TAI _ => [67] | V_SecurityKey _ => [73] | V_UERadioCapability _ => [74] | V_Direct_Forwarding_Path_Availability _ _ => [79]
  | V_UEIdentityIndexValue _ => [80] | V_RelativeMMECapacity _ => [87] | V_Bearers_SubjectToStatusTransfer_Item _ _ _ _ _ => [89]
  | V_ENB_StatusTransfer_TransparentContainer _ _ _ => [90] | V_UE_associatedLogicalS1_ConnectionItem _ _ _ _ => [91]
  | V_ResetType _ _ _ => [92] | V_S_TMSI _ => [96] | V_UE_S1AP_IDs _ _ _ => [99] | V_EUTRAN_CGI _ _ _ _ => [100]
  | V_SubscriberProfileIDforRFP _ => [106] | V_UESecurityCapabilities _ _ _ _ _ _ => [107] | V_CNDomain _ => [109] | V_CSG_id _ => [127]
  | V_RRC_Establishment_Cause _ _ => [134] | V_PagingDRX _ => [137] | V_LAI _ => [159]
  | V_MMERelaySupportIndicator _ _ => [163]
  | V_CSG_IdList _ | V_TargetID _ _ _ | V_UEPagingID _ _ _ | V_ServedGUMMEIs _ | V_CriticalityDiagnostics _ _ _ _ _ _ | V_TransportLayerAddress _ => []
  end.

(** A bound on the bits of the encoding. *)
Definition str_bits (v : Unconstrained_Octed_String_t) : nat := let '(Unconstrained_Octed_String _ str) := v in 30 + 8 * length str.
Fixpoint value_bits (v : ie_value) : nat :=
  match v with
  | V_SeqOfContainer l | V_ListBearer l | V_ENB_StatusTransfer_TransparentContainer _ _ (Some l) | V_ResetType _ _ (partOfS1_Interface l) =>
    160 + sum_list_with ie_bits l
  | V_Unconstrained_Octed_String s | V_UERadioCapability s => str_bits s
  | V_E_RABToBeSetupItemBearerSUReq _ _ _ _ _ _ (Some s) | V_E_RABToBeSetupItemCtxtSUReq _ _ _ _ _ _ (Some s)
  | V_E_RABToBeModifiedItemBearerModReq _ _ _ _ (Some s) => 1400 + str_bits s
  | V_SupportedTAs l => 78 + 300 * length l
  | _ => 1400
  end
with ie_bits (ie : S1AP_PROTOCOL_IES_t) : nat :=
  let '(IE _ _ _ v) := ie in 201 + match v with Some v => value_bits v | None => 0 end.

Fixpoint value_wf (v : ie_value) : bool :=
  match v with
  | V_MME_UE_S1AP_ID x => inr 0 x (2^32 - 1)
  | V_ENB_UE_S1AP_ID x => inr 0 x (2^24 - 1)
  | V_HandoverType ext x => (ext =? 0) && inr 0 x 4
  | V_Cause c => cause_wf c
  | V_SeqOfContainer l | V_ListBearer l => items 255 ie_wf l
  | V_E_RABDataForwardingItem ext opt e da dt ua ut =>
    (ext =? 0) && flags 5 opt && negb (flag opt 0x08) && Bool.eqb (flag opt 0x80) (flag opt 0x20) && erab_wf e &&
    opt_ptr (flag opt 0x80) addr_wf da && teid_wf (flag opt 0x40) dt && opt_ptr (flag opt 0x20) addr_wf ua && teid_wf (flag opt 0x10) ut
  | V_E_RABToBeSetupItemBearerSUReq ext opt e q a t s =>
    (ext =? 0) && (opt =? 0) && erab_wf e && ptr qos_wf q && ptr addr_wf a && octets 4 t && ptr str_wf s
  | V_E_RABAdmittedItem ext opt e a t da dt ua ut =>
    (ext =? 0) && flags 5 opt && negb (flag opt 0x08) && erab_wf e && ptr addr_wf a && octets 4 t &&
    opt_ptr (flag opt 0x80) addr_wf da && teid_wf (flag opt 0x40) dt && opt_ptr (flag opt 0x20) addr_wf ua && teid_wf (flag opt 0x10) ut
  | V_E_RABSetupItemBearerSURes ext opt e a t => (ext =? 0) && (opt =? 0) && erab_wf e && ptr addr_wf a && octets 4 t
  | V_Unconstrained_Octed_String s | V_UERadioCapability s => str_wf s
  | V_E_RABToBeSetupItemHOReq ext opt e a t q => (ext =? 0) && (opt =? 0) && erab_wf e && ptr addr_wf a && octets 4 t && ptr qos_wf q
  | V_E_RABItem ext opt e c => (ext =? 0) && (opt =? 0) && erab_wf e && ptr cause_wf c
  | V_E_RABToBeModifiedItemBearerModReq ext opt e q s => (ext =? 0) && (opt =? 0) && erab_wf e && ptr qos_wf q && ptr str_wf s
  | V_SecurityContext ext opt n k => (ext =? 0) && (opt =? 0) && inr 0 n 7 && ptr (octets 32) k
  | V_TAIItem ext opt t => (ext =? 0) && (opt =? 0) && tai_wf t
  | V_E_RABToBeSetupItemCtxtSUReq ext opt e q a t s =>
    (ext =? 0) && flags 2 opt && negb (flag opt 0x40) && erab_wf e && ptr qos_wf q && ptr addr_wf a && octets 4 t && opt_ptr (flag opt 0x80) str_wf s
  | V_Global_ENB_ID g => genb_wf g
  | V_ENBname ext n | V_MMEname ext n => (ext =? 0) && name_wf n
  | V_ServedPLMNs l => items 32 plmn_wf l
  | V_SupportedTAs l => items 255 ta_wf l
  | V_TimeToWait ext x => (ext =? 0) && inr 0 x 5
  | V_UEAggregateMaximumBitrate ext opt a b => (ext =? 0) && inr 0 opt 1 && rate a && rate b
  | V_TAI t => tai_wf t
  | V_SecurityKey k => octets 32 k
  | V_Direct_Forwarding_Path_Availability ext x | V_MMERelaySupportIndicator ext x => (ext =? 0) && (x =? 0)
  | V_UEIdentityIndexValue x => inr 0 x 1023
  | V_RelativeMMECapacity x => inr 0 x 255
  | V_Bearers_SubjectToStatusTransfer_Item ext opt e u d =>
    (ext =? 0) && flags 2 opt && negb (flag opt 0x40) && erab_wf e && ptr count_wf u && ptr count_wf d
  | V_ENB_StatusTransfer_TransparentContainer ext opt l =>
    (ext =? 0) && (opt =? 0) && match l with Some l => items 255 ie_wf l | None => false end
  | V_UE_associatedLogicalS1_ConnectionItem ext opt m e =>
    inr 0 ext 1 && flags 3 opt && negb (flag opt 0x20) && opt_ptr (flag opt 0x80) (fun m => inr 0 m (2^32 - 1)) m &&
    opt_ptr (flag opt 0x40) (fun e => inr 0 e (2^24 - 1)) e
  | V_ResetType ext c (s1_Interface x) => (ext =? 0) && (c =? 0) && inr 0 x 1
  | V_ResetType ext c (partOfS1_Interface l) => (ext =? 0) && (c =? 1) && items 255 ie_wf l
  | V_S_TMSI t => stmsi_wf t
  | V_UE_S1AP_IDs ext c (uE_S1AP_ID_pair p) => (ext =? 0) && (c =? 0) && pair_wf p
  | V_UE_S1AP_IDs ext c (mME_UE_S1AP_ID x) => (ext =? 0) && (c =? 1) && inr 0 x (2^32 - 1)
  | V_EUTRAN_CGI ext opt p c => (ext =? 0) && (opt =? 0) && ptr plmn_wf p && inr 0 c (2^28 - 1)
  | V_SubscriberProfileIDforRFP x => inr 1 x 256
  | V_UESecurityCapabilities ext opt ee e ie i => inr 0 ext 1 && (opt =? 0) && (ee =? 0) && inr 0 e 65535 && (ie =? 0) && inr 0 i 65535
  | V_CNDomain x => inr 0 x 1
  | V_CSG_id x => inr 0 x (2^27 - 1)
  | V_RRC_Establishment_Cause ext x => (ext =? 0) && inr 0 x 4
  | V_PagingDRX x => inr 0 x 3
  | V_LAI l => lai_wf l
  | _ => false
  end
with ie_wf (ie : S1AP_PROTOCOL_IES_t) : bool :=
  let '(IE id crit _ v) := ie in
  inr 0 crit 2 &&
  match v with
  | Some v => existsb (Z.eqb id) (ids_of v) && value_wf v && (Z.of_nat (value_bits v) + 8 <=? 8 * MAXDATABYTES)
  | None => false
  end.

Fixpoint norm_value (v : ie_value) : ie_value :=
  match v with
  | V_SeqOfContainer l => V_SeqOfContainer (map norm_ie l)
  | V_ListBearer l => V_ListBearer (map norm_ie l)
  | V_ENB_StatusTransfer_TransparentContainer ext opt (Some l) => V_ENB_StatusTransfer_TransparentContainer ext opt (Some (map norm_ie l))
  | V_ResetType ext c (partOfS1_Interface l) => V_ResetType ext c (partOfS1_Interface (map norm_ie l))
  | V_E_RABDataForwardingItem ext opt e da dt ua ut => V_E_RABDataForwardingItem ext (upper 5 opt) e da dt ua ut
  | V_E_RABToBeSetupItemBearerSUReq ext opt e q a t s => V_E_RABToBeSetupItemBearerSUReq ext opt e (norm_qos <$> q) a t s
  | V_E_RABAdmittedItem ext opt e a t da dt ua ut => V_E_RABAdmittedItem ext (upper 5 opt) e a t da dt ua ut
  | V_E_RABToBeSetupItemHOReq ext opt e a t q => V_E_RABToBeSetupItemHOReq ext opt e a t (norm_qos <$> q)
  | V_E_RABToBeModifiedItemBearerModReq ext opt e q s => V_E_RABToBeModifiedItemBearerModReq ext opt e (norm_qos <$> q) s
  | V_E_RABToBeSetupItemCtxtSUReq ext opt e q a t s => V_E_RABToBeSetupItemCtxtSUReq ext opt e (norm_qos <$> q) a t s
  | V_TAIItem ext opt t => V_TAIItem ext opt (norm_tai t)
  | V_Global_ENB_ID g => V_Global_ENB_ID (norm_genb g)
  | V_ServedPLMNs l => V_ServedPLMNs (map norm_plmn l)
  | V_SupportedTAs l => V_SupportedTAs (map norm_ta l)
  | V_TAI t => V_TAI (norm_tai t)
  | V_UE_associatedLogicalS1_ConnectionItem ext opt m e => V_UE_associatedLogicalS1_ConnectionItem ext (upper 3 opt) m e
  | V_EUTRAN_CGI ext opt p c => V_EUTRAN_CGI ext (upper 1 opt) (norm_plmn <$> p) c
  | V_LAI l => V_LAI (norm_lai l)
  | _ => v
  end
with norm_ie (ie : S1AP_PROTOCOL_IES_t) : S1AP_PROTOCOL_IES_t :=
  let '(IE id crit _ v) := ie in IE id crit 0 (match v with Some v => Some (norm_value v) | None => None end).

(** How deep elements are nested. *)
Fixpoint value_depth (v : ie_value) : nat :=
  match v with
  | V_SeqOfContainer l | V_ListBearer l | V_ENB_StatusTransfer_TransparentContainer _ _ (Some l)
  | V_ResetType _ _ (partOfS1_Interface l) => list_max (map ie_depth l)
  | _ => 0
  end
with ie_depth (ie : S1AP_PROTOCOL_IES_t) : nat :=
  let '(IE _ _ _ v) := ie in S (match v with Some v => value_depth v | None => 0 end).

(** The elements inside of a value. *)
Definition members (v : ie_value) : list S1AP_PROTOCOL_IES_t :=
  match v with
  | V_SeqOfContainer l | V_ListBearer l | V_ENB_StatusTransfer_TransparentContainer _ _ (Some l)
  | V_ResetType _ _ (partOfS1_Interface l) => l
  | _ => []
  end.
