(* ===== verification/S1APCodec.v ===== *)
(** Round trips of the parts of S1AP information elements. *)
From S2P Require Import Prelude PER PERBits PERRead PERCodec S1APTypes S1APEnc S1APDec S1APWf.

(** ** Conditions *)

Lemma octets_ok n l : octets n l = true -> length l = n /\ bytes_ok l.
Proof.
  unfold octets. intros H. apply andb_true_iff in H as [L F]. apply Nat.eqb_eq in L. split; [done|].
  apply Forall_forall. intros x Hx. apply list_elem_of_In in Hx. rewrite forallb_forall in F. specialize (F x Hx).
  unfold inr in F. unfold byte_ok. lia.
Qed.
Lemma inr_ok lo x hi : inr lo x hi = true -> lo <= x <= hi.
Proof. unfold inr. lia. Qed.
Lemma flags_ok k opt : flags k opt = true -> byte_ok opt /\ upper k opt = opt.
Proof. unfold flags, inr, byte_ok. lia. Qed.
Lemma ptr_ok {A} (f : A -> bool) p : ptr f p = true -> exists a, p = Some a /\ f a = true.
Proof. destruct p; [eauto|done]. Qed.
Lemma items_ok {A} max (f : A -> bool) l : items max f l = true -> (1 <= length l <= max)%nat /\ Forall (fun x => f x = true) l.
Proof.
  unfold items. intros H. apply andb_true_iff in H as [[L U]%andb_true_iff F].
  apply Nat.leb_le in L, U. split; [lia|]. rewrite forallb_forall in F.
  apply Forall_forall. intros x Hx. apply F. by apply list_elem_of_In.
Qed.
Lemma zeros_ok l : forallb (Z.eqb 0) l = true -> l = zeros (length l).
Proof.
  induction l as [|x l IH]; [done|]. cbn [forallb]. intros H. apply andb_true_iff in H as [E H]. cbn. rewrite (IH H) at 1.
  f_equal. lia.
Qed.

(** Split a well-formedness condition. *)
Ltac wf_inv :=
  repeat match goal with
  | H : true = _ |- _ => symmetry in H
  | H : false = true |- _ => discriminate H
  | H : _ && _ = true |- _ => apply andb_true_iff in H; destruct H
  | H : inr _ _ _ = true |- _ => apply inr_ok in H
  | H : rate _ = true |- _ => apply inr_ok in H
  | H : octets _ _ = true |- _ => apply octets_ok in H; destruct H
  | H : flags _ _ = true |- _ => apply flags_ok in H; destruct H
  | H : ptr _ _ = true |- _ => apply ptr_ok in H; destruct H as (? & -> & H)
  | H : (_ =? 0) = true |- _ => apply Z.eqb_eq in H; subst
  | H : (_ =? 1) = true |- _ => apply Z.eqb_eq in H; subst
  | H : negb _ = true |- _ => apply negb_true_iff in H
  end.

(** Compose codecs: the writer and the reader both start with a step. *)
Create HintDb codec.
Ltac cside := first [assumption | reflexivity | unfold number_ok; lia | lia].
Ltac cinh := first [eexists; reflexivity | exists tt; exact I | eexists; split; eassumption | exists 0; split; [unfold byte_ok; lia | reflexivity] | eexists; eassumption].
Ltac cstep := first [eapply (codec_bind w_holds) | eapply (codec_bind holds_id)]; [solve [eauto with codec] | solve [cinh] | let a := fresh "a" in let Q := fresh "Q" in intros a Q; cbn beta in Q; try subst a].

Lemma codec_bit' b : 0 <= b <= 1 -> Codec 1 (setbits 1 b) getbit (eq b).
Proof. intros. apply codec_bit. lia. Qed.
Lemma codec_enumerated v Lb Ub : number_ok v Lb Ub -> Codec 78 (encode_constrained_number v Lb Ub) (decode_enumerated Lb Ub) (eq v).
Proof. apply codec_number. Qed.
Lemma codec_iEext b b' : b = false -> b' = false -> Codec 0 (enc_iEext b) (dec_iEext b') (eq tt).
Proof. intros -> ->. by apply (codec_nop tt). Qed.
#[export] Hint Resolve codec_bit' codec_number codec_enumerated codec_align codec_iEext : codec.
#[export] Hint Extern 1 (number_ok _ _ _) => (unfold number_ok, MAXBITRATE; lia) : codec.
#[export] Hint Extern 1 (_ <= _ <= _) => lia : codec.

(** A length and as many items. *)
Lemma sum_list_const {A} k (l : list A) : sum_list_with (fun _ => k) l = (k * length l)%nat.
Proof. induction l as [|x l IH]; [cbn; lia|]. cbn [sum_list_with length]. rewrite IH. lia. Qed.

Lemma codec_list {A} (f : A -> nat) e (d : P A) (norm : A -> A) max addmax l :
  Forall (fun x => Codec (f x) (e x) d (fun a => norm a = norm x)) l -> (1 <= length l <= 255)%nat ->
  Z.of_nat (length l) <= max -> max <= 65535 -> 256 <= addmax ->
  Codec (78 + sum_list_with f l) (enc_list max e l) (dec_list max addmax d) (fun r => map norm r = map norm l).
Proof.
  intros Hl Hn Hm Hmax Ha. unfold enc_list, dec_list.
  apply (codec_bind w_holds 78 _ _ _ _ _ (eq (Z.of_nat (length l)))); [apply codec_number; unfold number_ok; lia|by eexists|].
  intros ? <-. rewrite wrap8_id, Nat2Z.id by lia.
  eapply codec_weaken; [apply (codec_items f e d (fun x a => norm a = norm x) addmax l [])|done|].
  - eapply Forall_impl; [exact Hl|]. cbn beta. intros x Hx. split; [exact Hx|by exists x].
  - cbn [length]. lia.
  - intros r (l' & -> & HF). cbn [app]. clear - HF. by induction HF as [|? ? ? ? E _ IH]; cbn [map]; [|rewrite E, IH].
Qed.

(** ** PLMN identities *)

Lemma digits_lor a b : 0 <= a <= 15 -> 0 <= b <= 15 -> (a << 4) .| b = 16 * a + b.
Proof. intros. rewrite Z.shiftl_mul_pow2, (lor_disjoint_add _ _ 4) by (try lia; apply Z.mod_mul; lia). lia. Qed.
Lemma digits_hi a b : 0 <= a <= 15 -> 0 <= b <= 15 -> ((16 * a + b) .& 0xf0) >> 4 = a.
Proof. intros. rewrite land_f0, Z.shiftr_div_pow2 by lia. lia. Qed.
Lemma digits_lo a b : 0 <= a <= 15 -> 0 <= b <= 15 -> (16 * a + b) .& 0x0f = b.
Proof. intros. rewrite land_0f. lia. Qed.

(** The octets of a PLMN identity with an MNC of two digits. *)
Lemma plmn_digits s mcc mnc : 0 <= mcc <= 999 -> 0 <= mnc <= 99 -> plmnId_MccMnc2tbcd (PLMNidentity s mcc mnc) =
  PLMNidentity [16 * ((mcc mod 100) / 10) + mcc / 100; 240 + mcc mod 10; 16 * (mnc mod 10) + mnc / 10] mcc mnc.
Proof.
  intros Hc Hn. unfold plmnId_MccMnc2tbcd. destruct (Z.eqb_spec (mnc / 100) 0); [|lia].
  rewrite digits_lor, (Z.lor_comm (mnc / 10)), digits_lor by lia. rewrite (wrap8_id (mcc mod 10)) by lia.
  rewrite (Z.lor_comm (mcc mod 10)). change 0xf0 with (15 << 4). rewrite digits_lor by lia. by rewrite !wrap8_id by lia.
Qed.

Lemma plmn_digits_back s mcc mnc : 0 <= mcc <= 999 -> 0 <= mnc <= 99 ->
  let '(PLMNidentity t _ _) := plmnId_MccMnc2tbcd (PLMNidentity s mcc mnc) in
  bytes_ok t /\ length t = 3%nat /\ zero3 t = false /\ plmnId_tbcd2MccMnc (PLMNidentity t 0 0) = Ok (PLMNidentity t mcc mnc).
Proof.
  intros Hc Hn. rewrite plmn_digits by done. split; [repeat (constructor; [unfold byte_ok; lia|]); constructor|]. split; [done|].
  split; [unfold zero3; destruct (Z.eqb_spec (240 + mcc mod 10) 0); [lia|]; by rewrite andb_false_r|].
  unfold plmnId_tbcd2MccMnc, rdi, adv.
  change (Z.to_nat 0) with 0%nat; change (Z.to_nat 1) with 1%nat; change (Z.to_nat 2) with 2%nat. cbn [drop rd]. osimp.
  replace (240 + mcc mod 10) with (16 * 15 + mcc mod 10) by lia. rewrite !digits_hi, !digits_lo by lia. cbn [Z.eqb Pos.eqb].
  do 2 f_equal; lia.
Qed.

(** The octets that are sent for a PLMN identity. *)
Lemma norm_plmn_sent p : plmn_wf p = true -> exists s mcc mnc, norm_plmn p = PLMNidentity s mcc mnc /\ bytes_ok s /\ length s = 3%nat /\
  zero3 s = false /\ plmnId_tbcd2MccMnc (PLMNidentity s 0 0) = Ok (norm_plmn p).
Proof.
  destruct p as [s mcc mnc]. unfold plmn_wf, norm_plmn. intros H. apply andb_true_iff in H as [Ho H]. apply octets_ok in Ho as [L Hb].
  destruct (zero3 s) eqn:Ez.
  - apply andb_true_iff in H as [Hc Hn]. apply inr_ok in Hc, Hn. pose proof (plmn_digits_back s mcc mnc Hc Hn) as G.
    destruct (plmnId_MccMnc2tbcd (PLMNidentity s mcc mnc)) as [t m n] eqn:Ed. exists t, m, n.
    rewrite plmn_digits in Ed by done. injection Ed as Et <- <-.
    destruct G as (G1 & G2 & G3 & G4). auto.
  - exists s, mcc, mnc. do 4 (split; [done|]). unfold plmnId_tbcd2MccMnc in *.
    destruct (rdi s 0) as [s0|]; [|done]. destruct (rdi s 1) as [s1|]; [|done]. destruct (rdi s 2) as [s2|]; [|done]. osimp.
    apply andb_true_iff in H as [H1 H2]. apply Z.eqb_eq in H1, H2. by rewrite H1, H2.
Qed.

Lemma norm_plmn_idem p : plmn_wf p = true -> norm_plmn (norm_plmn p) = norm_plmn p.
Proof.
  intros H. destruct (norm_plmn_sent p H) as (s & m & n & E & _ & _ & Hz & _). rewrite E. unfold norm_plmn. by rewrite Hz.
Qed.

Lemma codec_PLMN p : plmn_wf p = true -> Codec 31 (enc_PLMNidentity p) dec_PLMNidentity (fun a => norm_plmn a = norm_plmn p).
Proof.
  intros H. destruct (norm_plmn_sent p H) as (s & m & n & E & Hb & L & Hz & Hd). pose proof (norm_plmn_idem p H) as Hi.
  eapply (codec_ext _ (encode_octet_string s 3) _ (o ← decode_octet_string 3; plift (plmnId_tbcd2MccMnc (PLMNidentity o 0 0)))); [|..|done].
  - intros st B Hw Hr. destruct (codec_octet_string s 3 Hb ltac:(lia) ltac:(lia) st B Hw) as (st' & G & Ee & Hw' & Ls & Lg & D);
      [by rewrite L|]. exists st', G. split; [done|]. split; [done|]. split; [done|]. rewrite L in Lg. split; [done|].
    intros t R Ht. destruct (D t R Ht) as (? & t' & Ed & <- & Ht'). exists (norm_plmn p), t'. split; [|done].
    unfold mbind, P_bind. rewrite Ed. osimp. unfold plift. rewrite Hd. done.
  - intros st. destruct p as [s' mcc mnc]. unfold plmn_wf in H. apply andb_true_iff in H as [Ho _]. apply octets_ok in Ho as [L' _].
    destruct s' as [|x [|y [|z [|? ?]]]]; cbn [length] in L'; try lia. unfold enc_PLMNidentity, norm_plmn, zero3 in *.
    unfold plift, rdi, adv, mbind, P_bind. change (Z.to_nat 0) with 0%nat; change (Z.to_nat 1) with 1%nat; change (Z.to_nat 2) with 2%nat.
    cbn [drop rd]. osimp. destruct ((x =? 0) && (y =? 0) && (z =? 0)); by rewrite E || (injection E as <- <- <-).
Qed.
#[export] Hint Resolve codec_PLMN : codec.

(** ** Small structures *)

Lemma codec_oct k n l : length l = k -> bytes_ok l -> n = Z.of_nat k -> (k <= 100)%nat ->
  Codec (7 + 8 * k) (encode_octet_string l n) (decode_octet_string n) (eq l).
Proof. intros <- Hl -> Hk. apply codec_octet_string; [done|done|lia]. Qed.
Lemma codec_oct1 l : length l = 1%nat -> bytes_ok l -> Codec 15 (encode_octet_string l 1) (decode_octet_string 1) (eq l).
Proof. intros L Hl. by apply (codec_oct 1 1); [| | |lia]. Qed.
Lemma codec_oct2 l : length l = 2%nat -> bytes_ok l -> Codec 23 (encode_octet_string l 2) (decode_octet_string 2) (eq l).
Proof. intros L Hl. by apply (codec_oct 2 2); [| | |lia]. Qed.
Lemma codec_oct4 l : length l = 4%nat -> bytes_ok l -> Codec 39 (encode_octet_string l 4) (decode_octet_string 4) (eq l).
Proof. intros L Hl. by apply (codec_oct 4 4); [| | |lia]. Qed.
Lemma codec_MME_Code l : length l = 1%nat -> bytes_ok l -> Codec 15 (enc_MME_Code l) dec_MME_Code (eq l).
Proof. apply codec_oct1. Qed.

Lemma codec_le {A} W m n e (d : P A) Q : codec_ W m e d Q -> (m <= n)%nat -> codec_ W n e d Q.
Proof. intros H Hm. by apply (codec_weaken m n e d Q Q). Qed.

(** The end of a structure without extensions. *)
Lemma codec_done {A} (v : A) (Q : A -> Prop) : Q v -> Codec 0 nop (getextension 0 ;; mret v) Q.
Proof. apply codec_nop. Qed.
Lemma codec_done_iEext {A} (v : A) (Q : A -> Prop) b b' : b = false -> b' = false -> Q v ->
  Codec 0 (enc_iEext b) (dec_iEext b' ;; mret v) Q.
Proof. intros -> ->. apply codec_nop. Qed.
Lemma codec_done_both {A} (v : A) (Q : A -> Prop) b b' : b = false -> b' = false -> Q v ->
  Codec 0 (enc_iEext b) (dec_iEext b' ;; getextension 0 ;; mret v) Q.
Proof. intros -> ->. apply codec_nop. Qed.

#[export] Hint Resolve codec_oct1 codec_oct2 codec_oct4 codec_MME_Code : codec.
Ltac cdone := first [apply codec_done | apply codec_done_iEext | apply codec_done_both | apply codec_nop];
  try reflexivity; try assumption.
Ltac cseq := repeat cstep; cdone.
Ltac codec_struct := eapply codec_le; [cseq | lia].

#[local] Arguments norm_plmn : simpl never.
#[local] Arguments upper : simpl never.
#[local] Arguments flag : simpl never.
(** The normal forms are equal because those of the parts are. *)
Ltac cnorm := cbn; change (upper 1 0) with 0; repeat match goal with Q : _ /\ _ |- _ => destruct Q end; congruence.
Ltac codec_struct ::= eapply codec_le; [cseq; try cnorm | lia].

Lemma codec_TAI v : tai_wf v = true -> Codec 80 (enc_TAI v) dec_TAI (fun a => norm_tai a = norm_tai v).
Proof.
  destruct v as [ext opt p tAC]. unfold tai_wf. intros H. wf_inv. unfold enc_TAI, dec_TAI, with_ptr. codec_struct.
Qed.

Lemma codec_LAI v : lai_wf v = true -> Codec 80 (enc_LAI v) dec_LAI (fun a => norm_lai a = norm_lai v).
Proof.
  destruct v as [ext opt p lAC]. unfold lai_wf. intros H. wf_inv. unfold enc_LAI, dec_LAI, with_ptr. codec_struct.
Qed.

Lemma codec_S_TMSI v : stmsi_wf v = true -> Codec 80 (enc_S_TMSI v) dec_S_TMSI (eq v).
Proof.
  destruct v as [ext opt c t]. unfold stmsi_wf. intros H. wf_inv. unfold enc_S_TMSI, dec_S_TMSI. codec_struct.
Qed.

Lemma codec_E_RAB_ID v : erab_wf v = true -> Codec 79 (enc_E_RAB_ID v) dec_E_RAB_ID (eq v).
Proof.
  destruct v as [ext id]. unfold erab_wf. intros H. wf_inv. unfold enc_E_RAB_ID, dec_E_RAB_ID.
  eapply codec_le; [cstep|]; [|reflexivity]. cbn [Z.eqb]. eapply codec_map; [apply codec_number; unfold number_ok; lia|]. by intros ? <-.
Qed.

Lemma codec_ARP v : arp_wf v = true -> Codec 240 (enc_AllocationAndRetentionPriority v) dec_AllocationAndRetentionPriority (eq v).
Proof.
  destruct v as [ext opt l c u]. unfold arp_wf. intros H. wf_inv.
  unfold enc_AllocationAndRetentionPriority, dec_AllocationAndRetentionPriority. codec_struct.
Qed.

Lemma codec_GBR v : gbr_wf v = true -> Codec 320 (enc_GBR_QosInformation v) dec_GBR_QosInformation (eq v).
Proof.
  destruct v as [ext opt a b c d]. unfold gbr_wf. intros H. wf_inv. unfold enc_GBR_QosInformation, dec_GBR_QosInformation. codec_struct.
Qed.

Lemma codec_COUNTvalue v : count_wf v = true -> Codec 160 (enc_COUNTvalue v) dec_COUNTvalue (eq v).
Proof.
  destruct v as [ext opt a b]. unfold count_wf. intros H. wf_inv. unfold enc_COUNTvalue, dec_COUNTvalue.
  codec_struct. by rewrite !Z.mod_small by lia.
Qed.

Lemma codec_MME_id x : 0 <= x <= 2^32 - 1 -> Codec 78 (enc_MME_UE_S1AP_ID x) dec_MME_UE_S1AP_ID (eq x).
Proof. intros. apply codec_number. unfold number_ok. lia. Qed.
Lemma codec_ENB_id x : 0 <= x <= 2^24 - 1 -> Codec 78 (enc_ENB_UE_S1AP_ID x) dec_ENB_UE_S1AP_ID (eq x).
Proof.
  intros. eapply codec_map; [apply codec_number; unfold number_ok; lia|]. intros ? <-. by rewrite Z.mod_small by lia.
Qed.
#[export] Hint Resolve codec_TAI codec_LAI codec_S_TMSI codec_E_RAB_ID codec_ARP codec_GBR codec_COUNTvalue codec_MME_id codec_ENB_id : codec.

Lemma codec_pair v : pair_wf v = true -> Codec 160 (enc_UE_S1AP_ID_pair v) dec_UE_S1AP_ID_pair (eq v).
Proof.
  destruct v as [ext opt m e]. unfold pair_wf. intros H. wf_inv. unfold enc_UE_S1AP_ID_pair, dec_UE_S1AP_ID_pair. codec_struct.
Qed.

(** ** Optional members *)

Lemma flag_testbit opt j : 0 <= j -> flag opt (2^j) = Z.testbit opt j.
Proof.
  intros Hj. unfold flag. destruct (Z.eqb_spec (opt .& 2^j) (2^j)) as [E|E].
  - apply (f_equal (fun x => Z.testbit x j)) in E. rewrite Z.land_spec, Z.pow2_bits_true, andb_true_r in E by lia. done.
  - destruct (Z.testbit opt j) eqn:T; [|done]. exfalso. apply E. apply Z.bits_inj'. intros i Hi. rewrite Z.land_spec.
    destruct (Z.eq_dec i j) as [->|]; [by rewrite T, Z.pow2_bits_true by lia|by rewrite Z.pow2_bits_false, andb_false_r by lia].
Qed.
(** The flags are those that were sent. *)
Lemma flag_upper k o opt : 0 <= k <= 8 -> upper k o = opt -> forall j, 8 - k <= j < 8 -> flag o (2^j) = flag opt (2^j).
Proof.
  intros Hk <- j Hj. rewrite !flag_testbit, upper_bit by lia. destruct (Z.leb_spec (8 - k) j); [by rewrite andb_true_r|lia].
Qed.

Lemma codec_opt_ptr {A} m b b' (f : A -> bool) e (d : P A) p : b' = b -> opt_ptr b f p = true ->
  (forall a, f a = true -> Codec m (e a) d (eq a)) -> Codec m (when b (with_ptr p e)) (dec_opt b' d) (eq p).
Proof.
  intros -> Hp H. destruct b; cbn [when dec_opt opt_ptr] in *.
  - destruct p as [a|]; [|done]. eapply codec_map; [by apply H|]. by intros ? <-.
  - destruct p; [done|]. eapply codec_le; [by apply codec_nop|lia].
Qed.

Lemma codec_teid b b' t : b' = b -> teid_wf b t = true ->
  Codec 39 (when b (encode_octet_string t 4)) (dec_when b' (decode_octet_string 4) new_teid) (eq t).
Proof.
  intros -> Ht. unfold teid_wf in Ht. apply andb_true_iff in Ht as [Ho Hz]. apply octets_ok in Ho as [L Hb].
  destruct b; cbn [when dec_when orb] in *; [by apply codec_oct4|]. eapply codec_le; [apply codec_nop|lia].
  apply zeros_ok in Hz. by rewrite Hz, L.
Qed.

Lemma codec_flags k opt : 1 <= k <= 8 -> byte_ok opt -> upper k opt = opt ->
  Codec 8 (setbits k (opt >> (8 - k))) (getopt MAXDATABYTES k) (fun o => byte_ok o /\ upper k o = opt).
Proof. intros Hk Hb Hu. apply codec_opt; [done|unfold MAXDATABYTES; lia|done|done]. Qed.

Lemma codec_flag1 opt : opt = 0 -> Codec 8 (setbits 1 opt) (getopt MAXDATABYTES 1) (fun o => byte_ok o /\ upper 1 o = opt).
Proof. intros ->. by apply (codec_flags 1 0). Qed.
#[export] Hint Resolve codec_flags codec_flag1 : codec.

(** The reader tests the flags that were sent. *)
Ltac flag_eq :=
  match goal with
  | |- ?b = ?b => reflexivity
  | Hu : _ /\ upper ?k ?a = ?opt |- flag ?a ?m = _ =>
    let j := eval cbv in (Z.log2 m) in exact (flag_upper k a opt ltac:(lia) (proj2 Hu) j ltac:(lia))
  | Hu : _ /\ upper ?k ?a = ?opt, F : flag ?opt ?m = false |- flag ?a ?m = false => rewrite <- F; flag_eq
  end.
#[export] Hint Extern 1 (@eq bool (flag _ _) _) => flag_eq : codec.

Lemma codec_opt_GBR b b' p : b' = b -> opt_ptr b gbr_wf p = true ->
  Codec 320 (when b (with_ptr p enc_GBR_QosInformation)) (dec_opt b' dec_GBR_QosInformation) (eq p).
Proof. intros Hb Hp. eapply codec_opt_ptr; [exact Hb|exact Hp|exact codec_GBR]. Qed.
Lemma codec_opt_MME b b' p : b' = b -> opt_ptr b (fun m => inr 0 m (2^32 - 1)) p = true ->
  Codec 78 (when b (with_ptr p enc_MME_UE_S1AP_ID)) (dec_opt b' dec_MME_UE_S1AP_ID) (eq p).
Proof. intros Hb Hp. eapply codec_opt_ptr; [exact Hb|exact Hp|]. intros a Ha. by apply codec_MME_id, inr_ok. Qed.
Lemma codec_opt_ENB b b' p : b' = b -> opt_ptr b (fun m => inr 0 m (2^24 - 1)) p = true ->
  Codec 78 (when b (with_ptr p enc_ENB_UE_S1AP_ID)) (dec_opt b' dec_ENB_UE_S1AP_ID) (eq p).
Proof. intros Hb Hp. eapply codec_opt_ptr; [exact Hb|exact Hp|]. intros a Ha. by apply codec_ENB_id, inr_ok. Qed.
#[export] Hint Resolve codec_opt_GBR codec_opt_MME codec_opt_ENB codec_teid : codec.

Lemma codec_QoS v : qos_wf v = true -> Codec 720 (enc_E_RABLevelQoSParameters v) dec_E_RABLevelQoSParameters (fun a => norm_qos a = norm_qos v).
Proof.
  destruct v as [ext opt qCI p g]. unfold qos_wf. intros H. wf_inv. unfold enc_E_RABLevelQoSParameters, dec_E_RABLevelQoSParameters.
  cbn [with_ptr]. codec_struct.
Qed.

(** ** Addresses and strings *)

Lemma codec_getbits_octets l cap k : bytes_ok l -> (0 < length l)%nat -> k = 8 * Z.of_nat (length l) -> Z.of_nat (length l) <= cap ->
  Codec (8 * length l) (eachP (setbits 8) l) (getbits (Some cap) k) (eq l).
Proof.
  intros Hl H0 Hk Hc st B Hw Hr. destruct (write_octets l st B Hl Hw Hr) as (st' & E & Hw' & L). exists st', (octbits l).
  do 3 (split; [done|]). rewrite octbits_length. split; [done|]. intros s R Hs.
  destruct (getbits_octets_ok s _ l R cap k Hs) as (s' & E' & Hs'); [done..|]. eauto.
Qed.

Lemma codec_addr v : addr_wf v = true -> Codec 246 (enc_TransportLayerAddress v) dec_TransportLayerAddress (eq v).
Proof.
  destruct v as [ext len addr]. unfold addr_wf. intros H. wf_inv. unfold enc_TransportLayerAddress, dec_TransportLayerAddress.
  set (l := take (Z.to_nat (len / 8)) addr). assert (Ll : length l = Z.to_nat (len / 8)) by (unfold l; rewrite length_take; lia).
  assert (Ea : addr = l ++ zeros (20 - length l)).
  { rewrite <- (take_drop (Z.to_nat (len / 8)) addr) at 1. fold l. f_equal. apply zeros_ok in H0. rewrite H0, length_drop. f_equal. lia. }
  eapply codec_le.
  { do 3 cstep. eapply (codec_ext _ (eachP (setbits 8) l) _ (o ← getbits (Some 20) (wrap8 len); mret (TransportLayerAddress ext len (o ++ zeros (20 - length o))))); [|..|done].
    - eapply codec_map; [apply (codec_getbits_octets l 20); [by apply Forall_take|lia|rewrite wrap8_id by lia; lia|lia]|].
      intros ? <-. by rewrite <- Ea.
    - intros st. unfold plift, mbind, P_bind, rdn. destruct (Z.ltb_spec (Z.of_nat (length addr)) (len / 8)); [lia|]. osimp. fold l.
      rewrite H2. cbn [Z.eqb negb when]. unfold nop, mret, P_ret. by destruct (eachP (setbits 8) l st) as [[[] ?]|]. }
  lia.
Qed.
Lemma codec_opt_addr b b' p : b' = b -> opt_ptr b addr_wf p = true ->
  Codec 246 (when b (with_ptr p enc_TransportLayerAddress)) (dec_opt b' dec_TransportLayerAddress) (eq p).
Proof. intros Hb Hp. eapply codec_opt_ptr; [exact Hb|exact Hp|exact codec_addr]. Qed.

Lemma codec_str v : str_wf v = true -> Codec (str_bits v) (enc_Unconstrained_Octed_String v) dec_Unconstrained_Octed_String (eq v).
Proof.
  destruct v as [len str]. unfold str_wf, str_bits. intros H. wf_inv. apply Z.eqb_eq in H. apply Z.ltb_lt in H1. subst len.
  unfold enc_Unconstrained_Octed_String, dec_Unconstrained_Octed_String.
  eapply (codec_ext _ _ _ (p ← (n ← decode_length_undef; (o ← getoctets (Some n) n; mret (n, o)));
    mret (Unconstrained_Octed_String p.1 (match p.2 with Some o => o | None => [] end)))); [|done|].
  - eapply codec_map; [by apply (codec_counted str (fun n => n)); [|lia|]|]. by intros ? <-.
  - intros st. unfold mbind, P_bind. destruct (decode_length_undef st) as [[n ?]|]; [|done]. osimp.
    by destruct (getoctets (Some n) n _) as [[? ?]|].
Qed.
Lemma codec_opt_str b b' p : b' = b -> opt_ptr b str_wf p = true ->
  Codec (match p with Some s => str_bits s | None => 0 end) (when b (with_ptr p enc_Unconstrained_Octed_String)) (dec_opt b' dec_Unconstrained_Octed_String) (eq p).
Proof.
  intros -> Hp. destruct b; cbn [when dec_opt opt_ptr] in *; destruct p as [a|]; try done; [|by apply codec_nop].
  eapply codec_map; [by apply codec_str|]. by intros ? <-.
Qed.
#[export] Hint Resolve codec_QoS codec_addr codec_opt_addr codec_str codec_opt_str : codec.

Lemma codec_key k : length k = 32%nat -> bytes_ok k -> Codec 263 (enc_SecurityKey k) dec_SecurityKey (eq k).
Proof.
  intros L Hb. eapply (codec_ext _ (setoctets k) _ (o ← getoctets (Some 32) 32; mret (match o with Some o => o | None => zeros 32 end))); [|..|done].
  - eapply codec_map; [eapply codec_le; [apply (codec_getoctets k 32 32); [done|lia|lia]|lia]|]. by intros ? <-.
  - intros st. unfold enc_SecurityKey, plift, mbind, P_bind. by rewrite rdn_all by lia.
Qed.
#[export] Hint Resolve codec_key codec_pair : codec.

(** ** Lists and choices *)

Lemma codec_BPLMNs v : bplmns_wf v = true -> Codec 264 (enc_BPLMNs v) dec_BPLMNs (fun a => norm_bplmns a = norm_bplmns v).
Proof.
  destruct v as [size l]. unfold bplmns_wf. intros H. apply andb_true_iff in H as [Hs Hi]. apply items_ok in Hi as [Hn Hl].
  apply Z.eqb_eq in Hs. subst size. unfold enc_BPLMNs, dec_BPLMNs, maxnoofBPLMNs.
  eapply (codec_le _ (78 + (31 * length l + 0))); [|lia].
  apply (codec_bind w_holds 78 _ _ _ _ _ (eq (Z.of_nat (length l)))); [apply codec_number; unfold number_ok; lia|by eexists|].
  intros ? <-. rewrite wrap8_id, !Nat2Z.id, firstn_all, Z.ltb_irrefl by lia.
  eapply (codec_bind w_holds _ 0).
  - rewrite <- (sum_list_const 31 l). apply (codec_items (fun _ => 31%nat) _ _ (fun x a => norm_plmn a = norm_plmn x)); [|cbn; unfold maxnoofTACs; lia].
    eapply Forall_impl; [exact Hl|]. cbn beta. intros x Hx. split; [by apply codec_PLMN|by exists x].
  - exists l. exists l. split; [done|]. clear. by induction l; constructor.
  - intros r (l' & -> & HF). cbn [when app]. apply codec_nop. cbn. f_equal. clear - HF.
    by induction HF as [|? ? ? ? E _ IH]; cbn [map]; [|rewrite E, IH].
Qed.
#[export] Hint Resolve codec_BPLMNs : codec.

Lemma codec_TA v : ta_wf v = true -> Codec 300 (enc_SupportedTAs_Item v) dec_SupportedTAs_Item (fun a => norm_ta a = norm_ta v).
Proof.
  destruct v as [ext opt tAC b]. unfold ta_wf. intros H. wf_inv. unfold enc_SupportedTAs_Item, dec_SupportedTAs_Item, with_ptr.
  codec_struct.
Qed.

Lemma codec_getchoice c n : 0 <= c < n -> 2 <= n <= 100 -> Codec 79 (set_choice_ext c n 0) (ext ← getbit; c ← getchoice n ext; mret (ext, c)) (eq (0, c)).
Proof.
  intros Hc Hn. unfold set_choice_ext, getchoice. cbn [Z.eqb Pos.eqb]. destruct (Z.ltb_spec 1 n); [|lia].
  apply (codec_bind w_holds 1 78 _ _ _ _ (eq 0)); [apply codec_bit; lia|by eexists|]. intros ? <-.
  destruct (Z.eqb_spec n 1); [lia|]. cbn [andb Z.eqb].
  eapply codec_map; [apply codec_number; unfold number_ok; lia|]. by intros ? <-.
Qed.

(** A choice, and what depends on it. *)
Lemma codec_choice {A W} (HW : forall st B, W st B -> holds st B) c n m e (k : Z -> Z -> P A) Q : 0 <= c < n -> 2 <= n <= 100 -> codec_ W m e (k 0 c) Q ->
  codec_ W (79 + m) (set_choice_ext c n 0 ;; e) (ext ← getbit; c ← getchoice n ext; k ext c) Q.
Proof.
  intros Hc Hn H. eapply (codec_ext _ _ _ (p ← (ext ← getbit; c ← getchoice n ext; mret (ext, c)); k p.1 p.2)); [|done|].
  - eapply (codec_bind HW); [by apply codec_getchoice|by eexists|]. by intros ? <-.
  - intros st. unfold mbind, P_bind. destruct (getbit st) as [[? ?]|]; [|done]. osimp. by destruct (getchoice n _ _) as [[? ?]|].
Qed.

Lemma P_assoc {A B C} (m : P A) (f : A -> P B) (g : B -> P C) st : ((m ≫= f) ≫= g) st = (m ≫= fun a => f a ≫= g) st.
Proof. unfold mbind, P_bind. by destruct (m st) as [[? ?]|]. Qed.

Lemma codec_Cause v : cause_wf v = true -> Codec 160 (enc_Cause v) dec_Cause (eq v).
Proof.
  destruct v as [ext choice cext c]. unfold cause_wf. intros H. wf_inv. unfold enc_Cause, dec_Cause, set_choice_ext. cbn [Z.eqb Z.ltb Z.compare Pos.compare Pos.compare_cont].
  eapply codec_ext; [|intros; apply P_assoc|done]. eapply codec_le.
  { cstep. cbn [Z.eqb]. unfold getchoice. cbn [Z.eqb Pos.eqb andb]. change (5 - 1) with 4. cstep.
    assert (choice = 0 \/ choice = 1 \/ choice = 2 \/ choice = 3 \/ choice = 4) as [-> | [-> | [-> | [-> | ->]]]] by lia;
      match goal with H : _ <= c <= ?x |- _ => let y := eval vm_compute in x in change x with y in H end;
      unfold enc_cause_value; cbn [Z.eqb Pos.eqb Z.leb Z.compare Pos.compare Pos.compare_cont];
      cstep; cbn [Z.eqb]; (eapply codec_map; [apply codec_number; unfold number_ok; lia|]); by intros ? <-. }
  lia.
Qed.
#[export] Hint Resolve codec_TA codec_Cause : codec.

(** ** Structures that end with a bit string *)

(** The bit string is the last thing that is written. *)
Lemma codec_last {A C} m e (d : P A) (f : A -> C) (Q : A -> Prop) (Q' : C -> Prop) :
  CodecEnd m e d Q -> (forall a, Q a -> Q' (f a)) -> CodecEnd m e (a ← d; getextension 0 ;; mret (f a)) Q'.
Proof.
  intros H HQ. eapply codec_ext; [eapply codec_map; [exact H|exact HQ]|done|]. done.
Qed.

Lemma codec_Global_ENB_ID v : genb_wf v = true -> CodecEnd 180 (enc_Global_ENB_ID v) dec_Global_ENB_ID (fun a => norm_genb a = norm_genb v).
Proof.
  destruct v as [ext opt p [e c id]]. unfold genb_wf. intros H. wf_inv. unfold enc_Global_ENB_ID, dec_Global_ENB_ID, with_ptr.
  assert (Hc : c = 0 \/ c = 1) by (destruct (Z.eqb_spec c 0); [lia|wf_inv; lia]). eapply codec_le.
  { do 3 cstep. eapply (codec_choice holds_id); [lia|lia|]. cstep. cbn [Z.eqb negb orb]. destruct Hc as [-> | ->]; cbn [Z.eqb] in *;
      wf_inv; cbn [Z.ltb Z.eqb Z.compare Pos.compare Pos.compare_cont Z.mul Z.add Pos.eqb].
    - eapply (codec_le _ _ 35); [eapply codec_last; [apply (codec_bit_string 20); lia|]|cbn; lia]. intros ? <-. cnorm.
    - eapply codec_last; [apply (codec_bit_string 28); lia|]. intros ? <-. cnorm. }
  lia.
Qed.

Lemma codec_EUTRAN_CGI ext opt p c : value_wf (V_EUTRAN_CGI ext opt p c) = true ->
  CodecEnd 100 (enc_EUTRAN_CGI (Some (V_EUTRAN_CGI ext opt p c))) dec_EUTRAN_CGI (fun a => norm_value a = norm_value (V_EUTRAN_CGI ext opt p c)).
Proof.
  cbn [value_wf]. intros H. wf_inv. unfold enc_EUTRAN_CGI, dec_EUTRAN_CGI, with_ptr. eapply codec_le.
  { do 3 cstep. eapply codec_last; [apply (codec_bit_string 28); lia|]. intros ? <-. rewrite Z.mod_small by lia. cnorm. }
  lia.
Qed.

(** A CSG identity right after the flags of an item. *)
Lemma csg_id_ok s n id R : reading s n (bits 27 id ++ R) -> readable 27 n -> 0 <= id < 2^27 ->
  exists s', dec_CSGid s = Ok (id, s') /\ reading s' (n + 27) R.
Proof.
  intros Hs Hr Hi. destruct (bit_string_ok s n 27 id R 27 Hs Hr ltac:(lia) Hi ltac:(lia)) as (o & s' & E & Hs' & Lo & V).
  exists s'. split; [|done]. unfold dec_CSGid, mbind, P_bind. rewrite E. osimp. change (octets_up 27) with 4 in Lo.
  unfold plift, mret, P_ret. rewrite rdn_all by lia. osimp. rewrite take_app_le, firstn_all2 in V by lia. by rewrite V, Z.mod_small.
Qed.

Lemma codec_value_CSG id : 0 <= id <= 2^27 - 1 -> CodecValue 27 (enc_CSGid id) dec_CSGid (eq id).
Proof.
  intros Hi st Hw Hr. destruct (setbits_ok 27 id st [] Hw ltac:(lia) ltac:(lia) Hr) as (st' & E & Hh & L & _).
  exists st', (bits 27 id). split; [done|]. split; [done|]. split; [done|]. split; [by rewrite bits_length|].
  intros s R Hs. destruct (csg_id_ok s 0 id R Hs) as (s' & E' & _); [unfold readable; cbn; lia|lia|]. eauto.
Qed.
