(* ===== verification/S1APValue.v ===== *)
(** Round trips of the values of S1AP information elements. *)
From S2P Require Import Prelude PER PERBits PERRead PERCodec S1APTypes S1APEnc S1APDec S1APWf S1APCodec.

#[local] Arguments norm_plmn : simpl never.
#[local] Arguments upper : simpl never.
#[local] Arguments flag : simpl never.

(** The value is written by [e] and comes back from [d], up to [norm_value]. *)
Definition carries (v : ie_value) (e : P unit) (d : P ie_value) : Prop :=
  CodecValue (value_bits v) e d (fun a => norm_value a = norm_value v).

Lemma carries_codec v m e d : Codec m e d (fun a => norm_value a = norm_value v) -> (m <= value_bits v)%nat -> carries v e d.
Proof. intros H Hm. apply codec_value, codec_end. by eapply codec_le. Qed.
Lemma carries_end v m e d : CodecEnd m e d (fun a => norm_value a = norm_value v) -> (m <= value_bits v)%nat -> carries v e d.
Proof. intros H Hm. apply codec_value. by eapply codec_le. Qed.

(** A value that is a structure of its own. *)
Lemma codec_wrap {A W} m e (d : P A) (V : A -> ie_value) (norm : A -> A) x :
  (forall a, norm a = norm x -> norm_value (V a) = norm_value (V x)) ->
  codec_ W m e d (fun a => norm a = norm x) -> codec_ W m e (a ← d; mret (V a)) (fun a => norm_value a = norm_value (V x)).
Proof. intros HV H. eapply codec_map; [exact H|exact HV]. Qed.
Lemma codec_wrap_eq {A W} m e (d : P A) (V : A -> ie_value) x :
  codec_ W m e d (eq x) -> codec_ W m e (a ← d; mret (V a)) (fun a => norm_value a = norm_value (V x)).
Proof. intros H. eapply codec_map; [exact H|]. by intros ? <-. Qed.

(** ** Numbers *)

Ltac number := eapply carries_codec; [eapply codec_wrap_eq, codec_number; unfold number_ok; lia|cbn; lia].

Lemma value_MME_UE_S1AP_ID x : value_wf (V_MME_UE_S1AP_ID x) = true ->
  carries (V_MME_UE_S1AP_ID x) (enc_MME_UE_S1AP_ID x) (v ← dec_MME_UE_S1AP_ID; mret (V_MME_UE_S1AP_ID v)).
Proof. cbn [value_wf]. intros H. wf_inv. eapply carries_codec; [by eapply codec_wrap_eq, codec_MME_id|cbn; lia]. Qed.
Lemma value_ENB_UE_S1AP_ID x : value_wf (V_ENB_UE_S1AP_ID x) = true ->
  carries (V_ENB_UE_S1AP_ID x) (enc_ENB_UE_S1AP_ID x) (v ← dec_ENB_UE_S1AP_ID; mret (V_ENB_UE_S1AP_ID v)).
Proof. cbn [value_wf]. intros H. wf_inv. eapply carries_codec; [by eapply codec_wrap_eq, codec_ENB_id|cbn; lia]. Qed.
Lemma value_PagingDRX x : value_wf (V_PagingDRX x) = true -> carries (V_PagingDRX x) (enc_PagingDRX (Some (V_PagingDRX x))) dec_PagingDRX.
Proof. cbn [value_wf]. intros H. wf_inv. number. Qed.
Lemma value_CNDomain x : value_wf (V_CNDomain x) = true -> carries (V_CNDomain x) (enc_CNDomain (Some (V_CNDomain x))) dec_CNDomain.
Proof. cbn [value_wf]. intros H. wf_inv. number. Qed.
Lemma value_RelativeMMECapacity x : value_wf (V_RelativeMMECapacity x) = true ->
  carries (V_RelativeMMECapacity x) (enc_RelativeMMECapacity (Some (V_RelativeMMECapacity x))) dec_RelativeMMECapacity.
Proof. cbn [value_wf]. intros H. wf_inv. number. Qed.
Lemma value_SubscriberProfileIDforRFP x : value_wf (V_SubscriberProfileIDforRFP x) = true ->
  carries (V_SubscriberProfileIDforRFP x) (enc_SubscriberProfileIDforRFP (Some (V_SubscriberProfileIDforRFP x))) dec_SubscriberProfileIDforRFP.
Proof. cbn [value_wf]. intros H. wf_inv. number. Qed.

(** A number after an extension flag that is clear. *)
Ltac ext_number := eapply carries_codec; [cstep; cbn [Z.eqb when dec_when];
  eapply codec_map; [apply codec_number; unfold number_ok; lia|by intros ? <-]|cbn; lia].
Lemma value_HandoverType ext x : value_wf (V_HandoverType ext x) = true ->
  carries (V_HandoverType ext x) (enc_HandoverType (Some (V_HandoverType ext x))) dec_HandoverType.
Proof. cbn [value_wf]. intros H. wf_inv. ext_number. Qed.
Lemma value_TimeToWait ext x : value_wf (V_TimeToWait ext x) = true ->
  carries (V_TimeToWait ext x) (enc_TimeToWait (Some (V_TimeToWait ext x))) dec_TimeToWait.
Proof. cbn [value_wf]. intros H. wf_inv. ext_number. Qed.
Lemma value_RRC_Establishment_Cause ext x : value_wf (V_RRC_Establishment_Cause ext x) = true ->
  carries (V_RRC_Establishment_Cause ext x) (enc_RRC_Establishment_Cause (Some (V_RRC_Establishment_Cause ext x))) dec_RRC_Establishment_Cause.
Proof. cbn [value_wf]. intros H. wf_inv. ext_number. Qed.
Lemma value_MMERelaySupportIndicator ext x : value_wf (V_MMERelaySupportIndicator ext x) = true ->
  carries (V_MMERelaySupportIndicator ext x) (enc_MMERelaySupportIndicator (Some (V_MMERelaySupportIndicator ext x))) dec_MMERelaySupportIndicator.
Proof. cbn [value_wf]. intros H. wf_inv. eapply carries_codec; [cstep; by apply codec_nop|cbn; lia]. Qed.
Lemma value_Direct_Forwarding ext x : value_wf (V_Direct_Forwarding_Path_Availability ext x) = true ->
  carries (V_Direct_Forwarding_Path_Availability ext x) (enc_Direct_Forwarding_Path_Availability (Some (V_Direct_Forwarding_Path_Availability ext x)))
    dec_Direct_Forwarding_Path_Availability.
Proof. cbn [value_wf]. intros H. wf_inv. eapply carries_codec; [cstep; by apply codec_nop|cbn; lia]. Qed.

(** ** Structures *)

Lemma value_Cause c : value_wf (V_Cause c) = true -> carries (V_Cause c) (enc_Cause c) (v ← dec_Cause; mret (V_Cause v)).
Proof. intros H. eapply carries_codec; [by eapply codec_wrap_eq, codec_Cause|cbn; lia]. Qed.
Lemma value_str s : value_wf (V_Unconstrained_Octed_String s) = true ->
  carries (V_Unconstrained_Octed_String s) (enc_Unconstrained_Octed_String s) (v ← dec_Unconstrained_Octed_String; mret (V_Unconstrained_Octed_String v)).
Proof. intros H. eapply carries_codec; [by eapply codec_wrap_eq, codec_str|cbn; lia]. Qed.
Lemma value_UERadioCapability s : value_wf (V_UERadioCapability s) = true ->
  carries (V_UERadioCapability s) (enc_Unconstrained_Octed_String s) dec_UERadioCapability.
Proof. intros H. eapply carries_codec; [by eapply codec_wrap_eq, codec_str|cbn; lia]. Qed.
Lemma value_SecurityKey k : value_wf (V_SecurityKey k) = true -> carries (V_SecurityKey k) (enc_SecurityKey k) (v ← dec_SecurityKey; mret (V_SecurityKey v)).
Proof. cbn [value_wf]. intros H. wf_inv. eapply carries_codec; [by eapply codec_wrap_eq, codec_key|cbn; lia]. Qed.
Lemma value_S_TMSI t : value_wf (V_S_TMSI t) = true -> carries (V_S_TMSI t) (enc_S_TMSI t) (v ← dec_S_TMSI; mret (V_S_TMSI v)).
Proof. intros H. eapply carries_codec; [by eapply codec_wrap_eq, codec_S_TMSI|cbn; lia]. Qed.
Lemma value_TAI t : value_wf (V_TAI t) = true -> carries (V_TAI t) (enc_TAI t) (v ← dec_TAI; mret (V_TAI v)).
Proof. intros H. eapply carries_codec; [eapply (codec_wrap _ _ _ _ norm_tai); [|by apply codec_TAI]|cbn; lia]. cbn. congruence. Qed.
Lemma value_LAI t : value_wf (V_LAI t) = true -> carries (V_LAI t) (enc_LAI t) (v ← dec_LAI; mret (V_LAI v)).
Proof. intros H. eapply carries_codec; [eapply (codec_wrap _ _ _ _ norm_lai); [|by apply codec_LAI]|cbn; lia]. cbn. congruence. Qed.
Lemma value_Global_ENB_ID g : value_wf (V_Global_ENB_ID g) = true ->
  carries (V_Global_ENB_ID g) (enc_Global_ENB_ID g) (v ← dec_Global_ENB_ID; mret (V_Global_ENB_ID v)).
Proof. intros H. eapply carries_end; [eapply (codec_wrap _ _ _ _ norm_genb); [|by apply codec_Global_ENB_ID]|cbn; lia]. cbn. congruence. Qed.
Lemma value_EUTRAN_CGI ext opt p c : value_wf (V_EUTRAN_CGI ext opt p c) = true ->
  carries (V_EUTRAN_CGI ext opt p c) (enc_EUTRAN_CGI (Some (V_EUTRAN_CGI ext opt p c))) dec_EUTRAN_CGI.
Proof. intros H. eapply carries_end; [by apply codec_EUTRAN_CGI|cbn; lia]. Qed.
Lemma value_CSG_id x : value_wf (V_CSG_id x) = true -> carries (V_CSG_id x) (enc_CSGid x) (v ← dec_CSGid; mret (V_CSG_id v)).
Proof.
  cbn [value_wf]. intros H. wf_inv. intros st Hw Hr. destruct (codec_value_CSG x H st Hw) as (st' & G & E & Hh & L & Lg & D).
  { eapply room_le; [exact Hr|cbn; lia]. }
  exists st', G. do 3 (split; [done|]). split; [cbn; lia|]. intros s R Hs. destruct (D s R Hs) as (a & s' & Ed & <-).
  exists (V_CSG_id x), s'. split; [|done]. unfold mbind, P_bind. by rewrite Ed.
Qed.

(** Fields one after the other. *)
Ltac value_struct := cbn [value_wf]; intros H; wf_inv; eapply carries_codec; [cbn [with_ptr]; cseq; try cnorm|cbn -[str_bits]; try lia].

Lemma value_TAIItem ext opt t : value_wf (V_TAIItem ext opt t) = true ->
  carries (V_TAIItem ext opt t) (enc_TAIItem (Some (V_TAIItem ext opt t))) dec_TAIItem.
Proof. unfold enc_TAIItem, dec_TAIItem. value_struct. Qed.
Lemma value_UEAggregateMaximumBitrate ext opt a b : value_wf (V_UEAggregateMaximumBitrate ext opt a b) = true ->
  carries (V_UEAggregateMaximumBitrate ext opt a b) (enc_UEAggregateMaximumBitrate (Some (V_UEAggregateMaximumBitrate ext opt a b))) dec_UEAggregateMaximumBitrate.
Proof. unfold enc_UEAggregateMaximumBitrate, dec_UEAggregateMaximumBitrate. value_struct. Qed.
Lemma value_E_RABItem ext opt e c : value_wf (V_E_RABItem ext opt e c) = true ->
  carries (V_E_RABItem ext opt e c) (enc_E_RABItem (Some (V_E_RABItem ext opt e c))) dec_E_RABItem.
Proof. unfold enc_E_RABItem, dec_E_RABItem. value_struct. Qed.
Lemma value_SURes ext opt e a t : value_wf (V_E_RABSetupItemBearerSURes ext opt e a t) = true ->
  carries (V_E_RABSetupItemBearerSURes ext opt e a t) (enc_E_RABSetupItemBearerSURes (Some (V_E_RABSetupItemBearerSURes ext opt e a t))) dec_E_RABSetupItemBearerSURes.
Proof. unfold enc_E_RABSetupItemBearerSURes, dec_E_RABSetupItemBearerSURes. value_struct. Qed.
Lemma value_HOReq ext opt e a t q : value_wf (V_E_RABToBeSetupItemHOReq ext opt e a t q) = true ->
  carries (V_E_RABToBeSetupItemHOReq ext opt e a t q) (enc_E_RABToBeSetupItemHOReq (Some (V_E_RABToBeSetupItemHOReq ext opt e a t q))) dec_E_RABToBeSetupItemHOReq.
Proof. unfold enc_E_RABToBeSetupItemHOReq, dec_E_RABToBeSetupItemHOReq. value_struct. Qed.
Lemma value_SecurityContext ext opt n k : value_wf (V_SecurityContext ext opt n k) = true ->
  carries (V_SecurityContext ext opt n k) (enc_SecurityContext (Some (V_SecurityContext ext opt n k))) dec_SecurityContext.
Proof. unfold enc_SecurityContext, dec_SecurityContext. value_struct. by rewrite Z.mod_small by lia. Qed.
Lemma value_ModReq ext opt e q s : value_wf (V_E_RABToBeModifiedItemBearerModReq ext opt e q s) = true ->
  carries (V_E_RABToBeModifiedItemBearerModReq ext opt e q s) (enc_E_RABToBeModifiedItemBearerModReq (Some (V_E_RABToBeModifiedItemBearerModReq ext opt e q s))) dec_E_RABToBeModifiedItemBearerModReq.
Proof. unfold enc_E_RABToBeModifiedItemBearerModReq, dec_E_RABToBeModifiedItemBearerModReq. value_struct. Qed.
Lemma value_SUReq ext opt e q a t s : value_wf (V_E_RABToBeSetupItemBearerSUReq ext opt e q a t s) = true ->
  carries (V_E_RABToBeSetupItemBearerSUReq ext opt e q a t s) (enc_E_RABToBeSetupItemBearerSUReq (Some (V_E_RABToBeSetupItemBearerSUReq ext opt e q a t s))) dec_E_RABToBeSetupItemBearerSUReq.
Proof. unfold enc_E_RABToBeSetupItemBearerSUReq, dec_E_RABToBeSetupItemBearerSUReq. value_struct. Qed.

(** ** Structures with optional members *)

Lemma two_flags o opt : byte_ok o /\ upper 2 o = opt -> o .& 0xC0 = opt.
Proof.
  intros [Hb <-]. apply byte_ext; [|by apply upper_byte; [lia|]|].
  - unfold byte_ok in *. rewrite (land_himask _ 8 6 ltac:(lia)). lia.
  - intros i Hi. rewrite upper_bit, Z.land_spec by lia. f_equal.
    assert (i = 0 \/ i = 1 \/ i = 2 \/ i = 3 \/ i = 4 \/ i = 5 \/ i = 6 \/ i = 7) as E by lia.
    by repeat destruct E as [-> | E]; [..|subst i].
Qed.

Lemma value_CtxtSUReq ext opt e q a t s : value_wf (V_E_RABToBeSetupItemCtxtSUReq ext opt e q a t s) = true ->
  carries (V_E_RABToBeSetupItemCtxtSUReq ext opt e q a t s)
    (enc_E_RABToBeSetupItemCtxtSUReq (Some (V_E_RABToBeSetupItemCtxtSUReq ext opt e q a t s))) dec_E_RABToBeSetupItemCtxtSUReq.
Proof.
  unfold enc_E_RABToBeSetupItemCtxtSUReq, dec_E_RABToBeSetupItemCtxtSUReq. cbn [value_wf]. intros H. wf_inv. cbn [with_ptr].
  eapply carries_codec.
  - do 2 cstep. rewrite (two_flags _ _ Q). cseq. cnorm.
  - cbn -[str_bits]. destruct s; lia.
Qed.
Lemma value_StatusTransfer_Item ext opt e u d : value_wf (V_Bearers_SubjectToStatusTransfer_Item ext opt e u d) = true ->
  carries (V_Bearers_SubjectToStatusTransfer_Item ext opt e u d)
    (enc_Bearers_SubjectToStatusTransfer_Item (Some (V_Bearers_SubjectToStatusTransfer_Item ext opt e u d))) dec_Bearers_SubjectToStatusTransfer_Item.
Proof.
  unfold enc_Bearers_SubjectToStatusTransfer_Item, dec_Bearers_SubjectToStatusTransfer_Item. cbn [value_wf]. intros H. wf_inv. cbn [with_ptr].
  eapply carries_codec; [do 2 cstep; rewrite (two_flags _ _ Q); cseq|cbn; lia].
Qed.

Ltac value_flags := cbn [value_wf]; intros H; wf_inv; eapply carries_codec; [cbn [with_ptr]; repeat cstep; cdone; try flag_eq; try cnorm|cbn; lia].

Lemma value_AdmittedItem ext opt e a t da dt ua ut : value_wf (V_E_RABAdmittedItem ext opt e a t da dt ua ut) = true ->
  carries (V_E_RABAdmittedItem ext opt e a t da dt ua ut)
    (enc_E_RABAdmittedItem (Some (V_E_RABAdmittedItem ext opt e a t da dt ua ut))) dec_E_RABAdmittedItem.
Proof. unfold enc_E_RABAdmittedItem, dec_E_RABAdmittedItem. value_flags. Qed.
Lemma value_ConnectionItem ext opt m e : value_wf (V_UE_associatedLogicalS1_ConnectionItem ext opt m e) = true ->
  carries (V_UE_associatedLogicalS1_ConnectionItem ext opt m e)
    (enc_UE_associatedLogicalS1_ConnectionItem (Some (V_UE_associatedLogicalS1_ConnectionItem ext opt m e))) dec_UE_associatedLogicalS1_ConnectionItem.
Proof. unfold enc_UE_associatedLogicalS1_ConnectionItem, dec_UE_associatedLogicalS1_ConnectionItem. value_flags. Qed.
Lemma value_DataForwardingItem ext opt e da dt ua ut : value_wf (V_E_RABDataForwardingItem ext opt e da dt ua ut) = true ->
  carries (V_E_RABDataForwardingItem ext opt e da dt ua ut)
    (enc_E_RABDataForwardingItem (Some (V_E_RABDataForwardingItem ext opt e da dt ua ut))) dec_E_RABDataForwardingItem.
Proof.
  unfold enc_E_RABDataForwardingItem, dec_E_RABDataForwardingItem. cbn [value_wf]. intros H. wf_inv.
  match goal with E : Bool.eqb _ _ = true |- _ => apply eqb_prop in E; rewrite E in * end.
  eapply carries_codec; [repeat cstep; cdone; try flag_eq; cnorm|cbn; lia].
Qed.

Lemma value_UESecurityCapabilities ext opt ee e ie i : value_wf (V_UESecurityCapabilities ext opt ee e ie i) = true ->
  carries (V_UESecurityCapabilities ext opt ee e ie i)
    (enc_UESecurityCapabilities (Some (V_UESecurityCapabilities ext opt ee e ie i))) dec_UESecurityCapabilities.
Proof.
  assert (Hd : forall x, 0 <= x <= 65535 -> Codec 16 (when (0 =? 0) (setbits 16 x)) (dec_algorithms 0) (eq x)).
  { intros x Hx. apply (codec_bits_octets [x / 256; x mod 256] 16 x).
    - repeat (constructor; [unfold byte_ok; lia|]). constructor.
    - cbn; lia.
    - done.
    - rewrite be_val_2. lia.
    - intros s n R Hs. destruct (getbits_octets_ok _ _ _ _ 10 16 Hs) as (s' & E & H');
        [repeat (constructor; [unfold byte_ok; lia|]); constructor|cbn; lia|done|cbn; lia|].
      exists x, s'. split; [|done]. unfold dec_algorithms. cbn [dec_when Z.eqb]. unfold mbind, P_bind. rewrite E. osimp.
      unfold plift, mret, P_ret. rewrite rdn_all by done. osimp. rewrite be_val_2. do 2 f_equal. lia. }
  unfold enc_UESecurityCapabilities, dec_UESecurityCapabilities. cbn [value_wf]. intros H. wf_inv.
  eapply carries_codec.
  - do 3 cstep. eapply (codec_bind w_holds); [by apply Hd|cinh|intros ? <-]. cstep.
    eapply (codec_bind w_holds); [by apply Hd|cinh|intros ? <-]. cseq.
  - cbn; lia.
Qed.

(** ** Lists, names and choices *)

Lemma value_ServedPLMNs l : value_wf (V_ServedPLMNs l) = true ->
  carries (V_ServedPLMNs l) (enc_ServedPLMNs l) (v ← dec_servedPLMNs; mret (V_ServedPLMNs v)).
Proof.
  cbn [value_wf]. intros H. apply items_ok in H as [Hn Hl]. eapply carries_codec.
  - eapply codec_map; [apply (codec_list (fun _ => 31%nat) _ _ norm_plmn)|intros a E; cbn; by rewrite E].
    + eapply Forall_impl; [exact Hl|]. cbn beta. apply codec_PLMN.
    + lia. + unfold maxnoofPLMNsPerMME. lia. + unfold maxnoofPLMNsPerMME. lia. + unfold maxnoofGroupIDs. lia.
  - rewrite sum_list_const. cbn. lia.
Qed.
Lemma value_SupportedTAs l : value_wf (V_SupportedTAs l) = true ->
  carries (V_SupportedTAs l) (enc_SupportedTAs (Some (V_SupportedTAs l))) dec_SupportedTAs.
Proof.
  cbn [value_wf]. intros H. apply items_ok in H as [Hn Hl]. eapply carries_codec.
  - eapply codec_map; [apply (codec_list (fun _ => 300%nat) _ _ norm_ta)|intros a E; cbn; by rewrite E].
    + eapply Forall_impl; [exact Hl|]. cbn beta. apply codec_TA.
    + lia. + unfold maxnoofTACs. lia. + unfold maxnoofTACs. lia. + unfold maxnoofTACs. lia.
  - rewrite sum_list_const. cbn -[Nat.mul]. lia.
Qed.

Lemma codec_name name : name_wf name = true ->
  exists n, strlen name = Ok n /\ Codec 1400 (encode_PrintableString 1 150 name n 0) (s ← decode_PrintableString 150 1 150; mret (stored_name s)) (eq name).
Proof.
  unfold name_wf. intros H. apply andb_true_iff in H as [Ho H]. apply octets_ok in Ho as [L Hb].
  destruct (strlen name) as [n|]; [|done]. exists n. split; [done|]. apply andb_true_iff in H as [Hn Hz]. apply inr_ok in Hn.
  eapply codec_le; [eapply codec_map; [apply codec_PrintableString; (done || lia)|]|lia]. intros ? <-. unfold stored_name.
  rewrite length_take, L. apply zeros_ok in Hz. rewrite length_drop, L in Hz. rewrite <- (take_drop (Z.to_nat n) name) at 1.
  f_equal. rewrite Hz. f_equal. lia.
Qed.
Lemma value_name (V : list Z -> ie_value) name e : value_bits (V name) = 1400%nat -> name_wf name = true ->
  (forall n st, strlen name = Ok n -> e st = encode_PrintableString 1 150 name n 0 st) ->
  carries (V name) e (s ← decode_PrintableString 150 1 150; mret (V (stored_name s))).
Proof.
  intros Hv Hw He. destruct (codec_name name Hw) as (n & E & H). eapply carries_codec; [|by rewrite Hv].
  eapply (codec_ext _ _ _ (x ← (s ← decode_PrintableString 150 1 150; mret (stored_name s)); mret (V x)));
    [by eapply codec_wrap_eq, H|intros st; by apply He|]. intros st. by rewrite P_assoc.
Qed.
Lemma value_ENBname ext n : value_wf (V_ENBname ext n) = true -> carries (V_ENBname ext n) (enc_ENBname (Some (V_ENBname ext n))) dec_ENBname.
Proof.
  cbn [value_wf]. intros H. wf_inv. apply (value_name (V_ENBname 0)); [done|done|]. intros k st E.
  unfold enc_ENBname, plift, mbind, P_bind. by rewrite E.
Qed.
Lemma value_MMEname ext n : value_wf (V_MMEname ext n) = true -> carries (V_MMEname ext n) (enc_MMEname (Some (V_MMEname ext n))) dec_MMEname.
Proof.
  cbn [value_wf]. intros H. wf_inv. apply (value_name (V_MMEname 0)); [done|done|]. intros k st E.
  unfold enc_MMEname, plift, mbind, P_bind. by rewrite E.
Qed.

Lemma value_UE_S1AP_IDs ext c id : value_wf (V_UE_S1AP_IDs ext c id) = true ->
  carries (V_UE_S1AP_IDs ext c id) (enc_UE_S1AP_IDs (Some (V_UE_S1AP_IDs ext c id))) dec_UE_S1AP_IDs.
Proof.
  cbn [value_wf]. intros H. destruct id as [|p|x]; [done|..]; wf_inv; unfold enc_UE_S1AP_IDs, dec_UE_S1AP_IDs; eapply carries_codec.
  - eapply (codec_choice w_holds); [lia|lia|]. cbn [Z.eqb negb orb Z.ltb Z.compare Z.mul Z.add].
    eapply codec_ext; [|done|intros; apply P_assoc]. eapply codec_map; [by apply codec_pair|]. by intros ? <-.
  - cbn; lia.
  - eapply (codec_choice w_holds); [lia|lia|]. cbn [Z.eqb negb orb Z.ltb Z.compare Z.mul Z.add Pos.compare Pos.compare_cont Pos.eqb].
    eapply codec_ext; [|done|intros; apply P_assoc]. eapply codec_map; [by apply codec_MME_id|]. by intros ? <-.
  - cbn; lia.
Qed.

(** Ten bits at the start of the buffer. *)
Lemma value_UEIdentityIndexValue x : value_wf (V_UEIdentityIndexValue x) = true ->
  carries (V_UEIdentityIndexValue x) (enc_UEIdentityIndexValue (Some (V_UEIdentityIndexValue x))) dec_UEIdentityIndexValue.
Proof.
  cbn [value_wf]. intros H. wf_inv. intros st Hw Hr.
  destruct (setbits_ok 10 x st [] Hw ltac:(lia) ltac:(lia)) as (st' & E & Hh & L & _); [eapply room_le; [exact Hr|cbn; lia]|].
  exists st', (bits 10 x). do 3 (split; [done|]). split; [rewrite bits_length; cbn; lia|]. intros s R Hs.
  destruct (bit_string_ok s 0 10 x R MAXDATABYTES Hs) as (o & s' & E' & _ & _ & V); [unfold readable; cbn; lia|lia|lia|done|].
  exists (V_UEIdentityIndexValue x), s'. split; [|done]. unfold dec_UEIdentityIndexValue, decode_bit_string, nop, mbind, P_bind, mret, P_ret.
  cbn [Z.leb Z.compare Pos.compare Pos.compare_cont]. osimp. rewrite E'. osimp. unfold plift. change (fits (Some 4) (octets_up 10)) with (Ok tt). osimp.
  by rewrite V, Z.mod_small by lia.
Qed.

(** ** Containers *)

Section Containers.
(** The encoder and the decoder of the elements inside. *)
Context (ep : S1AP_PROTOCOL_IES_t -> P unit) (dp : P S1AP_PROTOCOL_IES_t).
Let inner (l : list S1AP_PROTOCOL_IES_t) : Prop := Forall (fun x => Codec (ie_bits x) (ep x) dp (fun a => norm_ie a = norm_ie x)) l.

Lemma codec_container l max addmax : inner l -> items 255 ie_wf l = true -> 255 <= max <= 65535 -> 256 <= addmax ->
  Codec (78 + sum_list_with ie_bits l) (enc_list max ep l) (dec_list max addmax dp) (fun r => map norm_ie r = map norm_ie l).
Proof. intros Hl Hi Hm Ha. apply items_ok in Hi as [Hn _]. apply codec_list; [exact Hl|lia..]. Qed.

Lemma value_SeqOfContainer l max addmax : inner l -> value_wf (V_SeqOfContainer l) = true -> 255 <= max <= 65535 -> 256 <= addmax ->
  carries (V_SeqOfContainer l) (SEQ_OF_CONTAINER_ENC ep max (Some (V_SeqOfContainer l))) (SEQ_OF_CONTAINER_DEC dp max addmax).
Proof.
  intros Hl Hi Hm Ha. eapply carries_codec; [eapply codec_map; [by apply (codec_container l max addmax)|]|cbn; lia].
  intros a E. cbn. by rewrite E.
Qed.
Lemma value_ListBearer l : inner l -> value_wf (V_ListBearer l) = true ->
  carries (V_ListBearer l) (enc_list maxNrOfERABs ep l) (l ← dec_list maxNrOfERABs maxnoofGroupIDs dp; mret (V_ListBearer l)).
Proof.
  intros Hl Hi. eapply carries_codec; [eapply codec_map; [apply (codec_container l maxNrOfERABs maxnoofGroupIDs)|]|cbn; lia]; try done.
  intros a E. cbn. by rewrite E.
Qed.
Lemma value_StatusTransfer ext opt l : inner l -> value_wf (V_ENB_StatusTransfer_TransparentContainer ext opt (Some l)) = true ->
  carries (V_ENB_StatusTransfer_TransparentContainer ext opt (Some l))
    (enc_ENB_StatusTransfer_TransparentContainer ep (Some (V_ENB_StatusTransfer_TransparentContainer ext opt (Some l))))
    (dec_ENB_StatusTransfer_TransparentContainer dp).
Proof.
  cbn [value_wf]. intros Hl H. wf_inv. eapply carries_codec.
  - do 2 cstep. cbn [with_ptr]. eapply (codec_bind w_holds); [by apply (codec_container l maxNrOfERABs maxnoofGroupIDs)|by exists l|].
    intros a E. cdone. cbn. by rewrite E.
  - cbn. lia.
Qed.
Lemma value_ResetType ext c t : inner (members (V_ResetType ext c t)) -> value_wf (V_ResetType ext c t) = true ->
  carries (V_ResetType ext c t) (enc_ResetType ep (Some (V_ResetType ext c t))) (dec_ResetType dp).
Proof.
  cbn [value_wf members]. intros Hl H. destruct t as [x|l]; wf_inv; unfold enc_ResetType, dec_ResetType; eapply carries_codec.
  - eapply (codec_choice w_holds); [lia|lia|]. cbn [Z.eqb negb orb Z.ltb Z.compare Z.mul Z.add].
    eapply codec_ext; [|done|intros; apply P_assoc]. eapply codec_map; [apply codec_enumerated; unfold number_ok; lia|]. by intros ? <-.
  - cbn; lia.
  - eapply (codec_choice w_holds); [lia|lia|]. cbn [Z.eqb negb orb Z.ltb Z.compare Z.mul Z.add Pos.compare Pos.compare_cont Pos.eqb].
    eapply codec_ext; [|done|intros; apply P_assoc]. eapply codec_map; [by apply (codec_container l)|]. intros a E. cbn. by rewrite E.
  - cbn. lia.
Qed.
End Containers.
