(* ===== verification/S1AP.v ===== *)
(** S1AP messages: what is encoded is decoded again, and decoding ends. *)
From S2P Require Import Prelude PER PERBits PERRead PERCodec S1APTypes S1APEnc S1APDec S1APWf S1APCodec S1APValue S1APTerm.

(** ** Information elements *)

(** Both tables have the functions of a value, and these agree. *)
Section Table.
Context (ep : S1AP_PROTOCOL_IES_t -> P unit) (dp : P S1AP_PROTOCOL_IES_t).

Definition in_tables (id : Z) (v : ie_value) : Prop :=
  exists e d, getenc_S1AP_IE ep (Some v) !! Z.to_nat id = Some (Some e) /\ getdec_S1AP_IE dp !! Z.to_nat id = Some (Some d) /\ carries v e d.

Lemma in_tables_intro id v e d : getenc_S1AP_IE ep (Some v) !! Z.to_nat id = Some (Some e) ->
  getdec_S1AP_IE dp !! Z.to_nat id = Some (Some d) -> carries v e d -> in_tables id v.
Proof. unfold in_tables. eauto. Qed.

Create HintDb values.
#[local] Hint Resolve value_MME_UE_S1AP_ID value_ENB_UE_S1AP_ID value_PagingDRX value_CNDomain value_RelativeMMECapacity
  value_SubscriberProfileIDforRFP value_HandoverType value_TimeToWait value_RRC_Establishment_Cause value_MMERelaySupportIndicator
  value_Direct_Forwarding value_Cause value_str value_UERadioCapability value_SecurityKey value_S_TMSI value_TAI value_LAI
  value_Global_ENB_ID value_EUTRAN_CGI value_CSG_id value_TAIItem value_UEAggregateMaximumBitrate value_E_RABItem value_SURes
  value_HOReq value_SecurityContext value_ModReq value_SUReq value_CtxtSUReq value_StatusTransfer_Item value_AdmittedItem
  value_ConnectionItem value_DataForwardingItem value_UESecurityCapabilities value_ServedPLMNs value_SupportedTAs value_ENBname
  value_MMEname value_UE_S1AP_IDs value_UEIdentityIndexValue value_SeqOfContainer value_StatusTransfer
  value_ResetType : values.
#[local] Hint Extern 2 (_ <= _) => (apply Z.leb_le; reflexivity) : values.
#[local] Hint Extern 2 (_ <= _ <= _) => (split; apply Z.leb_le; reflexivity) : values.

Lemma tables_agree id v : existsb (Z.eqb id) (ids_of v) = true -> value_wf v = true ->
  Forall (fun x => Codec (ie_bits x) (ep x) dp (fun a => norm_ie a = norm_ie x)) (members v) -> in_tables id v.
Proof.
  intros Hid Hv Hm. destruct v; cbn [ids_of existsb] in Hid; try discriminate Hid;
    repeat (apply orb_true_iff in Hid as [Hid|Hid]); try discriminate Hid; apply Z.eqb_eq in Hid; subst id.
  all: try (match goal with p : option (list S1AP_PROTOCOL_IES_t) |- _ => destruct p as [?|]; [|cbn in Hv; rewrite andb_false_r in Hv; discriminate Hv] end).
  all: (eapply in_tables_intro; [reflexivity|reflexivity|]); cbn [members] in Hm.
  all: first [solve [auto with values] | by apply value_ListBearer].
Qed.
End Table.

Lemma enc_protocolIEs_eq id crit pres v : enc_protocolIEs (IE id crit pres v) =
  (encode_constrained_number id 0 65535 ;;
   encode_constrained_number crit 0 2 ;;
   match getenc_S1AP_IE enc_protocolIEs v !! Z.to_nat id with
   | None => pfault OutOfBounds
   | Some None => nop
   | Some (Some ieEnc) => enc_open MAXDATABYTES ieEnc
   end).
Proof. reflexivity. Qed.

Lemma ids_range id v : existsb (Z.eqb id) (ids_of v) = true -> 0 <= id <= 170.
Proof.
  intros H. destruct v; cbn [ids_of existsb] in H; try discriminate H;
    repeat (apply orb_true_iff in H as [H|H]); try discriminate H; apply Z.eqb_eq in H; subst id; lia.
Qed.

Lemma members_wf v : value_wf v = true -> Forall (fun x => ie_wf x = true /\ (ie_depth x <= value_depth v)%nat) (members v).
Proof.
  assert (Hl : forall l, items 255 ie_wf l = true -> Forall (fun x => ie_wf x = true /\ (ie_depth x <= list_max (map ie_depth l))%nat) l).
  { intros l H. apply items_ok in H as [_ H]. rewrite Forall_forall in H. apply Forall_forall. intros x Hx. split; [by apply H|].
    assert (G : Forall (fun k => (k <= list_max (map ie_depth l))%nat) (map ie_depth l)) by (apply list_max_le; lia).
    rewrite Forall_forall in G. apply G. apply list_elem_of_In, in_map, list_elem_of_In, Hx. }
  destruct v; cbn [members]; try (intros; constructor); cbn [value_wf value_depth]; try apply Hl.
  - match goal with p : option (list _) |- _ => destruct p end; [|constructor]. intros H. wf_inv. by apply Hl.
  - match goal with t : ResetType_u |- _ => destruct t end; [constructor|]. intros H. wf_inv. by apply Hl.
Qed.

(** An element comes back from its encoding. *)
Lemma codec_ie fuel : forall ie, (ie_depth ie <= fuel)%nat -> ie_wf ie = true ->
  Codec (ie_bits ie) (enc_protocolIEs ie) (dec_protocolIEs fuel) (fun a => norm_ie a = norm_ie ie).
Proof.
  induction fuel as [|fuel IH]; intros [id crit pres v] Hd Hw; [cbn [ie_depth] in Hd; lia|].
  cbn [ie_wf] in Hw. destruct v as [v|]; wf_inv. rewrite Z.leb_le in *. unfold MAXDATABYTES in *. cbn [ie_depth ie_bits] in *.
  match goal with H : existsb _ _ = true |- _ => pose proof (ids_range _ _ H) as Hr end.
  destruct (tables_agree enc_protocolIEs (dec_protocolIEs fuel) id v) as (e & d & Ee & Ed & Hc); [done|done| |].
  { eapply Forall_impl; [by apply members_wf|]. intros x [Hx Hxd]. apply IH; [lia|done]. }
  rewrite enc_protocolIEs_eq, Ee. cbn [dec_protocolIEs]. eapply codec_le.
  - do 2 cstep.
    eapply (codec_ext _ _ _ (x ← dec_open MAXDATABYTES d; mret (IE id crit 0 (Some x)))).
    + eapply codec_map; [eapply (codec_open_type (value_bits v) _ _ _ 4096 4096); [exact Hc|lia|lia|done]|]. intros a E. cbn [norm_ie]. by rewrite E.
    + done.
    + intros st. unfold dec_open. rewrite !P_assoc. unfold mbind, P_bind, plift. destruct (decode_open_type MAXDATABYTES st) as [[tmp ?]|]; [|done].
      osimp. destruct (getdec_S1AP_IE _ !! _) as [[d'|]|]; simplify_eq. by destruct (d tmp) as [[? ?]|].
  - lia.
Qed.

(** ** Messages *)

(** A message the encoder and the decoder agree on: no extensions, elements
    that are well formed, and contents that fit the decoder's buffer. *)
Definition msg_bits (m : S1AP_Message_t) : nat := sum_list_with ie_bits (pdu_value (pdu m)).
Definition msg_wf (m : S1AP_Message_t) : bool :=
  (extension m =? 0) && inr 0 (choice m) 2 && inr 0 (procedureCode (pdu m)) 255 && inr 0 (pdu_criticality (pdu m)) 2 &&
  (pdu_ext (pdu m) =? 0) && (Z.of_nat (length (pdu_value (pdu m))) <? 65535) && forallb ie_wf (pdu_value (pdu m)) &&
  (Z.of_nat (msg_bits m) + 87 <=? 8 * MAXDATABYTES).
Definition norm_msg (m : S1AP_Message_t) : S1AP_Message_t :=
  {| extension := extension m; choice := choice m;
     pdu := {| procedureCode := procedureCode (pdu m); pdu_criticality := pdu_criticality (pdu m); pdu_ext := pdu_ext (pdu m);
               pdu_value := map norm_ie (pdu_value (pdu m)) |} |}.

Definition msg_depth (m : S1AP_Message_t) : nat := list_max (map ie_depth (pdu_value (pdu m))).

Lemma codec_ElementaryProcedure fuel p : pdu_ext p = 0 -> Z.of_nat (length (pdu_value p)) < 65535 ->
  Forall (fun x => ie_wf x = true) (pdu_value p) -> (list_max (map ie_depth (pdu_value p)) <= fuel)%nat ->
  Codec (79 + sum_list_with ie_bits (pdu_value p)) (enc_ElementaryProcedure p) (dec_ElementaryProcedure fuel)
    (fun l => map norm_ie l = map norm_ie (pdu_value p)).
Proof.
  intros He Hn Hw Hd. unfold enc_ElementaryProcedure, dec_ElementaryProcedure. rewrite He.
  apply list_max_le in Hd. rewrite Forall_map in Hd.
  eapply (codec_le _ (1 + (78 + sum_list_with ie_bits (pdu_value p)))); [|lia]. do 2 cstep. rewrite Nat2Z.id.
  eapply codec_weaken; [apply (codec_items ie_bits _ _ (fun x a => norm_ie a = norm_ie x))|done|].
  - eapply Forall_impl; [apply Forall_and; split; [exact Hw|exact Hd]|]. cbn beta. intros x [Hx Hxd]. split; [by apply codec_ie|by exists x].
  - cbn [length]. unfold maxProtocolIEs. lia.
  - intros r (l' & -> & HF). cbn [app]. clear - HF. by induction HF as [|? ? ? ? E _ IH]; cbn [map]; [|rewrite E, IH].
Qed.

Lemma codec_PDU fuel p : pdu_ext p = 0 -> Z.of_nat (length (pdu_value p)) < 65535 -> 0 <= procedureCode p <= 255 -> 0 <= pdu_criticality p <= 2 ->
  Forall (fun x => ie_wf x = true) (pdu_value p) -> (list_max (map ie_depth (pdu_value p)) <= fuel)%nat ->
  Z.of_nat (sum_list_with ie_bits (pdu_value p)) + 87 <= 8 * MAXDATABYTES ->
  Codec (280 + sum_list_with ie_bits (pdu_value p)) (enc_S1AP_PDU p) (dec_S1AP_PDU fuel)
    (fun q => procedureCode q = procedureCode p /\ pdu_criticality q = pdu_criticality p /\ pdu_ext q = pdu_ext p /\
      map norm_ie (pdu_value q) = map norm_ie (pdu_value p)).
Proof.
  intros He Hn Hc Hk Hw Hd Hs. unfold enc_S1AP_PDU, dec_S1AP_PDU. unfold MAXDATABYTES in *. eapply codec_le.
  - do 2 cstep. eapply codec_map.
    + apply (codec_open_type (79 + sum_list_with ie_bits (pdu_value p))); [|lia|lia|lia].
      by apply codec_value, codec_end, codec_ElementaryProcedure.
    + intros l E. cbn. auto.
  - lia.
Qed.

(** The buffer of [s1ap_encode], zeroed. *)
Definition zeroed (buf : list Z) : Prop := buf = repeat 0 (length buf).

Lemma codec_message fuel m : msg_wf m = true -> (msg_depth m <= fuel)%nat ->
  Codec (360 + msg_bits m) (set_choice_ext (choice m) 3 (extension m) ;; enc_S1AP_PDU (pdu m))
    (ext ← getbit; choice ← getchoice 3 ext;
     if choice + ext * 3 <? 3 then p ← dec_S1AP_PDU fuel; mret {| extension := ext; choice := choice; pdu := p |}
     else mret {| extension := ext; choice := choice; pdu := pdu S1AP_newMsg |})
    (fun r => norm_msg r = norm_msg m).
Proof.
  unfold msg_wf. intros H Hd. wf_inv. rewrite Z.leb_le, Z.ltb_lt in *.
  match goal with H : forallb _ _ = true |- _ => rename H into Hw end.
  assert (He : extension m = 0) by done. rewrite He.
  eapply (codec_le _ (79 + (280 + msg_bits m))); [|lia]. apply (codec_choice w_holds); [lia|lia|].
  destruct (Z.ltb_spec (choice m + 0 * 3) 3); [|lia]. eapply codec_map; [apply codec_PDU|]; try done.
  - apply Forall_forall. intros x Hx. rewrite forallb_forall in Hw. by apply Hw, list_elem_of_In.
  - intros q (E1 & E2 & E3 & E4). unfold norm_msg. cbn. by rewrite E1, E2, E3, E4, He.
Qed.

Lemma message_roundtrip buf m : zeroed buf -> msg_wf m = true -> Z.of_nat (msg_bits m) + 370 <= 8 * Z.of_nat (length buf) < 2^28 ->
  exists buf' size m', s1ap_encode buf m = Ok (buf', size) /\ 0 < size <= Z.of_nat (length buf') /\ length buf' = length buf /\
    s1ap_decode (take (Z.to_nat size) buf') size = Ok m' /\ norm_msg m' = norm_msg m.
Proof.
  intros Hz Hm Hb. set (fuel := S (length buf + msg_depth m)). set (st := new_buffer (Z.of_nat (length buf))).
  assert (Est : {| data := buf; offset := 0; pos := 0; len := 0 |} = st) by (unfold st, new_buffer; rewrite Nat2Z.id; by rewrite <- Hz).
  destruct (codec_message fuel m Hm ltac:(lia) st []) as (st' & G & E & Hw & L & Lg & D); [apply new_buffer_writing; lia| |].
  { unfold room, st, new_buffer. cbn [data length]. rewrite repeat_length. lia. }
  unfold st, new_buffer in L. cbn [data] in L. rewrite repeat_length, Nat2Z.id in L. cbn [app length] in *.
  pose proof (w_holds _ _ Hw) as Hh. pose proof (h_len _ _ Hh) as Hl.
  pose proof (octets_up_spec (len st') ltac:(lia)) as Hu. set (size := octets_up (len st')) in *.
  destruct (holds_octets _ _ size Hh eq_refl ltac:(lia)) as [Z0 EO]. set (v := take (Z.to_nat size) (data st')) in *.
  assert (Lv : Z.of_nat (length v) = size) by (unfold v; rewrite length_take; lia).
  assert (Hv : bytes_ok v) by (apply Forall_take, Hh).
  pose proof (open_type_reading v 0 Hv ltac:(lia)) as Hr. rewrite EO in Hr.
  destruct (D _ _ Hr) as (m' & s' & Ed & HQ & _). exists (data st'), size, m'.
  split; [unfold s1ap_encode; rewrite Est, E; done|]. split; [|split; [done|split; [|done]]].
  - split; [|lia]. destruct v as [|? ?]; [done|cbn [length] in Lv; lia].
  - change (s1ap_decode v size = Ok m'). rewrite <- (proj1 (decode_within v size fuel ltac:(lia))). unfold s1ap_decode_within. rewrite wrap32_id by lia.
    rewrite Lv in Ed. by rewrite Ed.
Qed.

(** C29: A message that is well formed is encoded into a zeroed buffer that is
    long enough, and decoding the octets that were written gives the same
    message, up to the presence of elements and the form of PLMN identities. *)
Theorem s1ap_roundtrip buf m : zeroed buf -> msg_wf m = true -> Z.of_nat (msg_bits m) + 370 <= 8 * Z.of_nat (length buf) < 2^28 ->
  exists buf' size m', s1ap_encode buf m = Ok (buf', size) /\ 0 < size <= Z.of_nat (length buf') /\ length buf' = length buf /\
    s1ap_decode (take (Z.to_nat size) buf') size = Ok m' /\ norm_msg m' = norm_msg m.
Proof. apply message_roundtrip. Qed.

(** An S1 Setup Request. *)
Definition setup_request : S1AP_Message_t :=
  {| extension := 0; choice := 0;
     pdu := {| procedureCode := 17; pdu_criticality := 0; pdu_ext := 0;
       pdu_value := [
         IE 59 0 2 (Some (V_Global_ENB_ID (Global_ENB_ID 0 0 (Some (PLMNidentity [0; 0; 0] 244 7)) (ENB_ID 0 0 1234))));
         IE 60 1 0 (Some (V_ENBname 0 ([101; 78; 66] ++ zeros 147)));
         IE 64 0 2 (Some (V_SupportedTAs [SupportedTAs_Item 0 0 [0; 1] (Some (BPLMNs 1 [PLMNidentity [0; 0; 0] 244 7]))]));
         IE 137 1 2 (Some (V_PagingDRX 2))] |} |}.
Lemma s1ap_roundtrip_witness : exists buf' size m', s1ap_encode (repeat 0 1024) setup_request = Ok (buf', size) /\ 0 < size <= Z.of_nat (length buf') /\
  length buf' = length (repeat 0 1024) /\ s1ap_decode (take (Z.to_nat size) buf') size = Ok m' /\ norm_msg m' = norm_msg setup_request.
Proof. apply s1ap_roundtrip; [reflexivity|reflexivity|vm_compute; split; [discriminate|reflexivity]]. Defined.

(** ** Access to elements *)

Lemma find_norm l id : find_elem (map norm_ie l) id = norm_value <$> find_elem l id.
Proof. induction l as [|[i c p v] l IH]; [done|]. cbn. rewrite IH. case_match; [by destruct v|done]. Qed.

(** What [s1ap_findIe] finds in a message after it was encoded and decoded
    is what it finds in the message that was sent. *)
Theorem s1ap_found_after_transfer buf m buf' size m' id : zeroed buf -> msg_wf m = true ->
  Z.of_nat (msg_bits m) + 370 <= 8 * Z.of_nat (length buf) < 2^28 -> s1ap_encode buf m = Ok (buf', size) ->
  s1ap_decode (take (Z.to_nat size) buf') size = Ok m' -> norm_value <$> s1ap_findIe m' id = norm_value <$> s1ap_findIe m id.
Proof.
  intros Hz Hm Hb He Hd. destruct (message_roundtrip buf m Hz Hm Hb) as (b' & s' & m'' & He' & _ & _ & Hd' & HN).
  rewrite He in He'. injection He' as <- <-. rewrite Hd in Hd'. injection Hd' as <-.
  unfold s1ap_findIe. rewrite <- !find_norm. apply (f_equal (fun m => pdu_value (pdu m))) in HN. cbn in HN. by rewrite HN.
Qed.
Lemma s1ap_found_after_transfer_witness : exists buf' size m', s1ap_encode (repeat 0 1024) setup_request = Ok (buf', size) /\
  s1ap_decode (take (Z.to_nat size) buf') size = Ok m' /\ norm_value <$> s1ap_findIe m' 137 = Some (V_PagingDRX 2).
Proof.
  assert (Hb : Z.of_nat (msg_bits setup_request) + 370 <= 8 * Z.of_nat (length (repeat 0 1024)) < 2^28)
    by (vm_compute; split; [discriminate|reflexivity]).
  destruct (message_roundtrip (repeat 0 1024) setup_request eq_refl eq_refl Hb) as (buf' & size & m' & He & _ & _ & Hd & _).
  exists buf', size, m'. split; [exact He|]. split; [exact Hd|].
  exact (s1ap_found_after_transfer (repeat 0 1024) setup_request buf' size m' 137 eq_refl eq_refl Hb He Hd).
Defined.

Lemma last_elem_app l x id i e : last_elem (l ++ [x]) id i e = if ie_id x =? id then i + Z.of_nat (length l) else last_elem l id i e.
Proof.
  revert i e. induction l as [|y l IH]; intros i e; cbn [last_elem app length].
  - case_match; [lia|done].
  - rewrite IH. case_match; [lia|done].
Qed.

(** [s1ap_getIe] takes out of a message the element that
    [s1ap_setValueOnNewIE] put there last, and leaves the rest as it was. *)
Theorem s1ap_set_then_get msg id p c v : Z.of_nat (length (pdu_value (pdu msg))) + 1 <> maxProtocolIEs ->
  exists msg', s1ap_setValueOnNewIE msg id p c (Some v) = Ok msg' /\ s1ap_getIe msg' id = (Some v, msg).
Proof.
  intros Hn. eexists. split; [reflexivity|]. destruct msg as [ext ch [pc cr pe l]].
  unfold s1ap_getIe, protocolIE_Container_addIE, additem, set_value in *. cbn [pdu pdu_value extension choice procedureCode pdu_criticality pdu_ext] in *.
  destruct (Z.eqb_spec (Z.of_nat (length l) + 1) maxProtocolIEs); [done|]. rewrite last_elem_app. cbn [ie_id]. rewrite Z.eqb_refl, Z.add_0_l.
  destruct (Z.eqb_spec (Z.of_nat (length l)) (-1)); [lia|]. rewrite Nat2Z.id, list_lookup_middle by done. cbn [ie_val].
  rewrite take_app_length, drop_ge by (rewrite length_app; cbn; lia). by rewrite app_nil_r.
Qed.
Lemma s1ap_set_then_get_witness : exists msg', s1ap_setValueOnNewIE setup_request 137 2 1 (Some (V_PagingDRX 3)) = Ok msg' /\
  s1ap_getIe msg' 137 = (Some (V_PagingDRX 3), setup_request).
Proof. apply s1ap_set_then_get. vm_compute. discriminate. Defined.

(** ** Input that the decoder does not withstand *)

Lemma getbit_first b l p n : 0 <= p < 7 -> getbit {| data := b :: l; offset := 0; pos := p; len := n |} =
  Ok (b / 2^(7 - p) mod 2, {| data := b :: l; offset := 0; pos := p + 1; len := n |}).
Proof.
  intros Hp. unfold getbit, get, put, plift, mbind, P_bind, mret, P_ret. osimp. cbn [data rd pos offset len]. osimp.
  destruct (Z.leb_spec 8 p); [lia|]. destruct (Z.eqb_spec (p + 1) 8); [lia|]. rewrite (Z.mod_small (p + 1)) by lia. osimp.
  change 1 with (Z.ones 1) at 1. by rewrite Z.land_ones, Z.shiftr_div_pow2 by lia.
Qed.

(** A message whose first bit, the extension flag of the choice, is set
    makes the decoder write through a pointer that was never set. *)
Theorem extension_flag_faults b l size : 128 <= b < 192 -> s1ap_decode (b :: l) size = UB Uninitialised.
Proof.
  intros Hb. unfold s1ap_decode, s1ap_decode_within. unfold mbind at 1. unfold mbind at 1, P_bind at 1. rewrite getbit_first by lia.
  replace (b / 2^(7 - 0) mod 2) with 1 by (change (2^(7-0)) with 128; lia). osimp. change (getchoice 3 1) with decode_small_number.
  unfold decode_small_number. rewrite P_assoc. unfold mbind at 1, P_bind at 1. rewrite getbit_first by lia.
  replace (b / 2^(7 - (0 + 1)) mod 2) with 0 by (change (2^(7-(0+1))) with 64; lia). osimp.
  assert (R : rdn (b :: l) 1 = Ok [b]) by (unfold rdn; destruct (Z.ltb_spec (Z.of_nat (length (b :: l))) 1); [cbn in *; lia|done]).
  assert (G : forall n, getbits None 6 {| data := b :: l; offset := 0; pos := 0 + 1 + 1; len := n |} = UB Uninitialised).
  { intros n. unfold getbits, get, plift, mbind, P_bind. osimp. cbn [pos data]. change (octets_up (6 + (0 + 1 + 1))) with 1. by rewrite R. }
  cbn [Z.eqb]. rewrite P_assoc. unfold mbind at 1, P_bind at 1. by rewrite G.
Qed.
Lemma extension_flag_faults_witness : s1ap_decode [160; 0; 0] 3 = UB Uninitialised.
Proof. apply (extension_flag_faults 160 [0; 0] 3). lia. Defined.

(** An element whose number is beyond the table of decoders is looked up
    there, past its end, once its header was read. *)
Theorem unknown_element_faults f st id st1 crit st2 tmp st3 : decode_constrained_number 0 65535 st = Ok (id, st1) ->
  decode_enumerated 0 2 st1 = Ok (crit, st2) -> decode_open_type MAXDATABYTES st2 = Ok (tmp, st3) -> 171 <= id ->
  dec_protocolIEs (S f) st = UB OutOfBounds.
Proof.
  intros E1 E2 E3 Hid. cbn [dec_protocolIEs]. unfold mbind, P_bind. rewrite E1. osimp. rewrite E2. osimp. rewrite E3. osimp.
  destruct (getdec_S1AP_IE (dec_protocolIEs f) !! Z.to_nat id) as [d|] eqn:E; [|done].
  apply lookup_lt_Some in E. change (length (getdec_S1AP_IE (dec_protocolIEs f))) with 171%nat in E. lia.
Qed.
(** The element 171 without contents. *)
Lemma unknown_element_faults_witness :
  dec_protocolIEs 5 {| data := [0; 171; 0; 0]; offset := 0; pos := 0; len := 32 |} = UB OutOfBounds.
Proof. by eapply unknown_element_faults; [vm_compute; reflexivity..|]. Defined.
