(* ===== verification/S1Msg.v ===== *)
(** The S1AP messages the MME sends (src/mme/S1/ECMSession.c,
    ECMSession_Connected.c, S1Assoc.c, S1Assoc_Active.c and
    S1Assoc_NotConfigured.c): how each is built from the data of a session or an
    association.  The theorems show that what is built is a message the codec
    carries, so that the eNB finds the data in it. *)
From S2P Require Import Prelude PER PERBits PERRead PERCodec S1APTypes S1APEnc S1APDec S1APWf S1APCodec S1APValue S1APTerm S1AP Subs Session.

(** ** Constants *)

(** [ProcedureCode_e] *)
Definition id_HandoverPreparation : Z := 0.
Definition id_HandoverNotification : Z := 2.
Definition id_PathSwitchRequest : Z := 3.
Definition id_HandoverCancel : Z := 4.
Definition id_InitialContextSetup : Z := 9.
Definition id_Paging : Z := 10.
Definition id_downlinkNASTransport : Z := 11.
Definition id_initialUEMessage : Z := 12.
Definition id_uplinkNASTransport : Z := 13.
Definition id_Reset : Z := 14.
Definition id_ErrorIndication : Z := 15.
Definition id_S1Setup : Z := 17.
Definition id_UEContextReleaseRequest : Z := 18.
Definition id_UEContextRelease : Z := 23.

(** [IEs_e] *)
Definition id_MME_UE_S1AP_ID : Z := 0.
Definition id_Cause : Z := 2.
Definition id_eNB_UE_S1AP_ID : Z := 8.
Definition id_E_RABToBeSwitchedDLList : Z := 22.
Definition id_E_RABToBeSetupListCtxtSUReq : Z := 24.
Definition id_NAS_PDU : Z := 26.
Definition id_SecurityContext : Z := 40.
Definition id_UEPagingID : Z := 43.
Definition id_TAIList : Z := 46.
Definition id_TAIItem : Z := 47.
Definition id_E_RABSetupListCtxtSURes : Z := 51.
Definition id_E_RABToBeSetupItemCtxtSUReq : Z := 52.
Definition id_Global_ENB_ID : Z := 59.
Definition id_eNBname : Z := 60.
Definition id_MMEname : Z := 61.
Definition id_SupportedTAs : Z := 64.
Definition id_uEaggregateMaximumBitrate : Z := 66.
Definition id_TAI : Z := 67.
Definition id_SecurityKey : Z := 73.
Definition id_UEIdentityIndexValue : Z := 80.
Definition id_RelativeMMECapacity : Z := 87.
Definition id_SourceMME_UE_S1AP_ID : Z := 88.
Definition id_ResetType : Z := 92.
Definition id_ConnectionListResAck : Z := 93.
Definition id_E_RABToBeSwitchedULItem : Z := 94.
Definition id_E_RABToBeSwitchedULList : Z := 95.
Definition id_S_TMSI : Z := 96.
Definition id_UE_S1AP_IDs : Z := 99.
Definition id_EUTRAN_CGI : Z := 100.
Definition id_ServedGUMMEIs : Z := 105.
Definition id_UESecurityCapabilities : Z := 107.
Definition id_CNDomain : Z := 109.

(** [Presence_e], [Criticality_e] and [TriggeringMessage_e] *)
Definition optional_ : Z := 0.
Definition mandatory_ : Z := 2.
Definition reject_ : Z := 0.
Definition ignore_ : Z := 1.
Definition initiating_message : Z := 0.
Definition successful_outcome : Z := 1.
Definition unsuccessful_outcome : Z := 2.

(** ** Building messages *)

(** [S1AP_newMsg] and the assignments after it. *)
Definition newMsg (ch code crit : Z) : S1AP_Message_t :=
  {| extension := extension S1AP_newMsg; choice := ch;
     pdu := {| procedureCode := code; pdu_criticality := crit; pdu_ext := pdu_ext (pdu S1AP_newMsg);
               pdu_value := pdu_value (pdu S1AP_newMsg) |} |}.

(** [s1ap_newIE] returns a pointer into the message, through which the code
    then fills in the value. *)
Definition newIE (id p c : Z) (fill : ie_value -> outcome ie_value) (msg : S1AP_Message_t) : outcome S1AP_Message_t :=
  '(val, _) ← s1ap_newIE msg id p c;
  val ← fill val;
  s1ap_copyValueOnNewIE msg id p c (Some val).

Definition set_mme_id (x : Z) (v : ie_value) : outcome ie_value :=
  match v with V_MME_UE_S1AP_ID _ => Ok (V_MME_UE_S1AP_ID x) | _ => UB BadCast end.
Definition set_eNB_id (x : Z) (v : ie_value) : outcome ie_value :=
  match v with V_ENB_UE_S1AP_ID _ => Ok (V_ENB_UE_S1AP_ID x) | _ => UB BadCast end.

(** [MME-UE-S1AP-ID] and [eNB-UE-S1AP-ID] *)
Definition add_ids (crit mmeUEId eNBUEId : Z) (m : S1AP_Message_t) : outcome S1AP_Message_t :=
  m ← newIE id_MME_UE_S1AP_ID mandatory_ crit (set_mme_id mmeUEId) m;
  newIE id_eNB_UE_S1AP_ID mandatory_ crit (set_eNB_id eNBUEId) m.

(** The message of [ecm_send]; [msg] are the [len] octets it points to. *)
Definition downlinkNASTransport (mmeUEId eNBUEId : Z) (msg : list Z) : outcome S1AP_Message_t :=
  m ← add_ids reject_ mmeUEId eNBUEId (newMsg initiating_message id_downlinkNASTransport ignore_);
  newIE id_NAS_PDU mandatory_ reject_ (fun v =>
    match v with
    | V_Unconstrained_Octed_String _ => Ok (V_Unconstrained_Octed_String (Unconstrained_Octed_String (Z.of_nat (length msg)) msg))
    | _ => UB BadCast
    end) m.

(** [emm_getUEAMBR] into the element. *)
Definition set_ambr (dl ul : Z) (v : ie_value) : outcome ie_value :=
  match v with V_UEAggregateMaximumBitrate e o _ _ => Ok (V_UEAggregateMaximumBitrate e o dl ul) | _ => UB BadCast end.

(** The address and the tunnel endpoint of an F-TEID: [fteid_size - 5] octets
    are copied into [addr[20]]. *)
Definition bearer_address (b : ESM_BearerContext_t) : outcome (TransportLayerAddress_t * list Z) :=
  f ← esm_bc_getS1uSGWfteid b;
  let '(TransportLayerAddress ext _ addr) := new_TransportLayerAddress in
  addr ← overwrite addr 0 (drop 5 f);
  Ok (TransportLayerAddress ext (8 * (Z.of_nat (length f) - 5)) addr, take 4 (drop 1 f)).

(** The message of [ecm_sendCtxtSUReq] for the default bearer of a session. *)
Definition InitialContextSetupRequest (mmeUEId eNBUEId : Z) (ambr : Z * Z) (b : ESM_BearerContext_t)
    (msg : list Z) (caps : Z * Z) (keNB : list Z) : outcome S1AP_Message_t :=
  m ← add_ids reject_ mmeUEId eNBUEId (newMsg initiating_message id_InitialContextSetup reject_);
  m ← newIE id_uEaggregateMaximumBitrate mandatory_ reject_ (set_ambr ambr.1 ambr.2) m;
  m ← newIE id_E_RABToBeSetupListCtxtSUReq mandatory_ reject_ (fun v =>
    match v, new_E_RABToBeSetupItemCtxtSUReq with
    | V_SeqOfContainer l, V_E_RABToBeSetupItemCtxtSUReq ext opt (E_RAB_ID eext _) _ _ _ _ =>
      '(addr, teid) ← bearer_address b;
      let arp := AllocationAndRetentionPriority 0 0 15 0 0 in
      let qos := E_RABLevelQoSParameters 0 0 9 (Some arp) None in
      let item :=
        V_E_RABToBeSetupItemCtxtSUReq ext (match msg with [] => opt | _ => opt .| 0x80 end)
          (E_RAB_ID eext (esm_bc_getEBI b)) (Some qos) (Some addr) teid
          (match msg with [] => None | _ => Some (Unconstrained_Octed_String (Z.of_nat (length msg)) msg) end) in
      Ok (V_SeqOfContainer (newItem id_E_RABToBeSetupItemCtxtSUReq mandatory_ reject_ maxNrOfERABs item l))
    | _, _ => UB BadCast
    end) m;
  m ← newIE id_UESecurityCapabilities mandatory_ reject_ (fun v =>
    match v with
    | V_UESecurityCapabilities e o ee _ ie _ => Ok (V_UESecurityCapabilities e o ee caps.1 ie caps.2)
    | _ => UB BadCast
    end) m;
  newIE id_SecurityKey mandatory_ reject_ (fun v =>
    match v with V_SecurityKey _ => Ok (V_SecurityKey keNB) | _ => UB BadCast end) m.

(** The message of [ecmSession_sendPathSwitchReqAck]. *)
Definition PathSwitchRequestAck (mmeUEId eNBUEId : Z) (ambr : Z * Z) (b : ESM_BearerContext_t)
    (nh : list Z) (ncc : Z) : outcome S1AP_Message_t :=
  m ← add_ids ignore_ mmeUEId eNBUEId (newMsg successful_outcome id_PathSwitchRequest reject_);
  m ← newIE id_uEaggregateMaximumBitrate optional_ ignore_ (set_ambr ambr.1 ambr.2) m;
  m ← newIE id_E_RABToBeSwitchedULList optional_ ignore_ (fun v =>
    match v, new_E_RABSetupItemBearerSURes with
    | V_SeqOfContainer l, V_E_RABSetupItemBearerSURes ext opt (E_RAB_ID eext _) _ _ =>
      '(addr, teid) ← bearer_address b;
      let item := V_E_RABSetupItemBearerSURes ext opt (E_RAB_ID eext (esm_bc_getEBI b)) (Some addr) teid in
      Ok (V_SeqOfContainer (newItem id_E_RABToBeSwitchedULItem mandatory_ ignore_ maxNrOfERABs item l))
    | _, _ => UB BadCast
    end) m;
  newIE id_SecurityContext mandatory_ reject_ (fun v =>
    match v with V_SecurityContext e o _ _ => Ok (V_SecurityContext e o ncc (Some nh)) | _ => UB BadCast end) m.

(** [id-UE-S1AP-IDs] with the pair of identifiers. *)
Definition add_pair (mmeUEId eNBUEId : Z) (m : S1AP_Message_t) : outcome S1AP_Message_t :=
  newIE id_UE_S1AP_IDs mandatory_ reject_ (fun v =>
    match v, new_UE_S1AP_ID_pair with
    | V_UE_S1AP_IDs ext _ _, UE_S1AP_ID_pair e o _ _ => Ok (V_UE_S1AP_IDs ext 0 (uE_S1AP_ID_pair (UE_S1AP_ID_pair e o mmeUEId eNBUEId)))
    | _, _ => UB BadCast
    end) m.

(** [cause_choice_t] *)
Inductive cause_choice := CauseRadioNetwork | CauseTransport | CauseNas | CauseProtocol | CauseMisc.
Definition cause_choice_val (c : cause_choice) : Z :=
  match c with CauseRadioNetwork => 0 | CauseTransport => 1 | CauseNas => 2 | CauseProtocol => 3 | CauseMisc => 4 end.

(** The message of [release] in ECM-Connected: only two kinds of cause are
    filled in. *)
Definition UEContextReleaseCommand (mmeUEId eNBUEId : Z) (ch : cause_choice) (cause : Z) : outcome S1AP_Message_t :=
  m ← add_pair mmeUEId eNBUEId (newMsg initiating_message id_UEContextRelease reject_);
  newIE id_Cause mandatory_ ignore_ (fun v =>
    match v with
    | V_Cause (Cause e _ ce c) =>
      Ok (V_Cause (Cause e (cause_choice_val ch) ce (match ch with CauseRadioNetwork | CauseNas => cause | _ => c end)))
    | _ => UB BadCast
    end) m.

(** The message of [sendUEContextReleaseCommand]: the cause the eNB gave. *)
Definition UEContextReleaseCommand_with (mmeUEId eNBUEId : Z) (causeRelease : option Cause_t) : outcome S1AP_Message_t :=
  m ← add_pair mmeUEId eNBUEId (newMsg initiating_message id_UEContextRelease reject_);
  s1ap_setValueOnNewIE m id_Cause mandatory_ ignore_ (V_Cause <$> causeRelease).

(** The message of [sendS1SetupResponse]; [mme->name] without the final zero. *)
Definition S1SetupResponse (name : option (list Z)) (gummeis : list ServedGUMMEIsItem_t) (cap : Z) : outcome S1AP_Message_t :=
  let m := newMsg successful_outcome id_S1Setup reject_ in
  m ← match name with
      | None => Ok m
      | Some n => newIE id_MMEname optional_ ignore_ (fun v =>
          match v with V_MMEname e buf => buf ← overwrite buf 0 n; Ok (V_MMEname e buf) | _ => UB BadCast end) m
      end;
  let m := set_value m (protocolIE_Container_addIE (pdu_value (pdu m)) (IE id_ServedGUMMEIs reject_ optional_ (Some (V_ServedGUMMEIs gummeis)))) in
  newIE id_RelativeMMECapacity optional_ ignore_ (fun v =>
    match v with V_RelativeMMECapacity _ => Ok (V_RelativeMMECapacity cap) | _ => UB BadCast end) m.

(** The message of [sendS1SetupReject_UnknownPLMN]. *)
Definition S1SetupFailure : outcome S1AP_Message_t :=
  newIE id_Cause mandatory_ reject_ (fun v =>
    match v with V_Cause (Cause e _ ce _) => Ok (V_Cause (Cause e (cause_choice_val CauseMisc) ce 5)) | _ => UB BadCast end)
    (newMsg unsuccessful_outcome id_S1Setup reject_).

(** The message of [sendPaging]. *)
Definition Paging (imsi : Z) (mmec : Z) (mtmsi sn tac : list Z) : outcome S1AP_Message_t :=
  let m := newMsg initiating_message id_Paging ignore_ in
  m ← newIE id_UEIdentityIndexValue mandatory_ ignore_ (fun v =>
    match v with V_UEIdentityIndexValue _ => Ok (V_UEIdentityIndexValue (imsi mod 1024)) | _ => UB BadCast end) m;
  m ← newIE id_UEPagingID mandatory_ ignore_ (fun v =>
    match v, new_S_TMSI with
    | V_UEPagingID e _ _, S_TMSI te to _ _ => Ok (V_UEPagingID e 0 (Some (S_TMSI te to [mmec] mtmsi)))
    | _, _ => UB BadCast
    end) m;
  m ← newIE id_CNDomain mandatory_ ignore_ (fun v =>
    match v with V_CNDomain _ => Ok (V_CNDomain 0) | _ => UB BadCast end) m;
  newIE id_TAIList mandatory_ ignore_ (fun v =>
    match v, new_TAIItem, new_PLMNidentity with
    | V_SeqOfContainer l, V_TAIItem ie io (TAI te to _ _), PLMNidentity _ mcc mnc =>
      let item := V_TAIItem ie io (TAI te to (Some (PLMNidentity sn mcc mnc)) tac) in
      Ok (V_SeqOfContainer (newItem id_TAIItem mandatory_ ignore_ maxnoofTAIs item l))
    | _, _, _ => UB BadCast
    end) m.

(** The Reset Acknowledge of [process_reset]; the list is the one received. *)
Definition ResetAcknowledge (l : option (list S1AP_PROTOCOL_IES_t)) : outcome S1AP_Message_t :=
  let m := newMsg successful_outcome id_Reset reject_ in
  match l with
  | None => Ok m
  | Some l => s1ap_setValueOnNewIE m id_ConnectionListResAck mandatory_ ignore_ (Some (V_SeqOfContainer l))
  end.

(** [s1Assoc_send]: the octets that go to the eNB. *)
Definition SEND_BUFFER : Z := 10000.
Definition s1Assoc_send_octets (m : S1AP_Message_t) : outcome (list Z) :=
  '(buf, size) ← s1ap_encode (repeat 0 (Z.to_nat SEND_BUFFER)) m; Ok (take (Z.to_nat size) buf).

(** ** What reaches the eNB *)

(** A well-formed message of the MME is sent whole, and the eNB finds every
    element in it, up to the form of its values. *)
Lemma sent_found m : msg_wf m = true -> exists octets m',
  s1Assoc_send_octets m = Ok octets /\ s1ap_decode octets (Z.of_nat (length octets)) = Ok m' /\
  choice m' = choice m /\ procedureCode (pdu m') = procedureCode (pdu m) /\
  forall id, norm_value <$> s1ap_findIe m' id = norm_value <$> s1ap_findIe m id.
Proof.
  intros Hm. pose proof Hm as Hw. unfold msg_wf in Hw. wf_inv. rewrite Z.leb_le in *. unfold MAXDATABYTES in *.
  destruct (message_roundtrip (repeat 0 (Z.to_nat SEND_BUFFER)) m) as (buf & size & m' & He & Hs & Hl & Hd & HN).
  { unfold zeroed. by rewrite repeat_length. }
  { done. }
  { rewrite repeat_length. unfold SEND_BUFFER. lia. }
  exists (take (Z.to_nat size) buf), m'. unfold s1Assoc_send_octets. rewrite He. cbn [mbind outcome_bind].
  split; [done|]. split; [rewrite length_take; replace (Z.of_nat _) with size by lia; done|].
  split; [exact (f_equal choice HN)|]. split; [exact (f_equal (fun m => procedureCode (pdu m)) HN)|]. intros id. unfold s1ap_findIe. rewrite <- !find_norm.
  apply (f_equal (fun m => pdu_value (pdu m))) in HN. cbn in HN. by rewrite HN.
Qed.

(** Values that have one form. *)
Definition plain_value (v : ie_value) : bool :=
  match v with
  | V_MME_UE_S1AP_ID _ | V_ENB_UE_S1AP_ID _ | V_Unconstrained_Octed_String _ | V_SecurityKey _ | V_Cause _
  | V_UE_S1AP_IDs _ _ _ | V_UESecurityCapabilities _ _ _ _ _ _ | V_UEAggregateMaximumBitrate _ _ _ _
  | V_SecurityContext _ _ _ _ => true
  | _ => false
  end.
Lemma plain_norm a v : plain_value v = true -> norm_value a = norm_value v -> a = v.
Proof.
  intros Hv H. destruct v; try discriminate Hv; cbn [norm_value] in H; destruct a; cbn [norm_value] in H; try done;
    repeat case_match; done.
Qed.
Lemma found_plain o v : plain_value v = true -> norm_value <$> o = norm_value <$> Some v -> o = Some v.
Proof. intros Hv H. destruct o as [a|]; [|done]. injection H as H. by rewrite (plain_norm a v). Qed.

Definition id_ok (mmeUEId eNBUEId : Z) : Prop := 0 <= mmeUEId < 2^32 /\ 0 <= eNBUEId < 2^24.

(** The elements of the message. *)
Lemma downlinkNASTransport_eq mm en msg : downlinkNASTransport mm en msg =
  Ok (set_value (newMsg initiating_message id_downlinkNASTransport ignore_)
    [IE 0 0 2 (Some (V_MME_UE_S1AP_ID mm)); IE 8 0 2 (Some (V_ENB_UE_S1AP_ID en));
     IE 26 0 2 (Some (V_Unconstrained_Octed_String (Unconstrained_Octed_String (Z.of_nat (length msg)) msg)))]).
Proof. reflexivity. Qed.

Lemma octets_intro l : bytes_ok l -> octets (length l) l = true.
Proof.
  intros H. unfold octets. rewrite Nat.eqb_refl. apply forallb_forall. intros x Hx.
  rewrite Forall_forall in H. specialize (H x). rewrite list_elem_of_In in H. specialize (H Hx).
  unfold byte_ok in H. unfold inr. lia.
Qed.
Lemma octets_n n l : length l = n -> bytes_ok l -> octets n l = true.
Proof. intros <-. apply octets_intro. Qed.

Lemma inr_intro a x b : a <= x <= b -> inr a x b = true.
Proof. unfold inr. lia. Qed.

(** Splits the check of a message into the checks of its numbers. *)
Ltac msg_wf_tac :=
  unfold msg_wf, msg_bits, set_value, newMsg;
  cbn [extension choice pdu procedureCode pdu_criticality pdu_ext pdu_value length S1AP_newMsg
    forallb ie_wf value_wf ids_of sum_list_with ie_bits value_bits str_bits str_wf];
  repeat lazymatch goal with |- _ && _ = true => apply andb_true_iff; split end;
  unfold MAXDATABYTES; rewrite ?Nat2Z.inj_add, ?Nat2Z.inj_mul;
  first [by apply octets_intro | by apply octets_n | apply Z.leb_le; lia | apply Z.ltb_lt; lia | apply Z.eqb_eq; lia | apply inr_intro; cbn; lia | reflexivity | idtac].

Lemma downlink_wf mm en msg m : id_ok mm en -> bytes_ok msg -> Z.of_nat (length msg) <= 3000 ->
  downlinkNASTransport mm en msg = Ok m -> msg_wf m = true.
Proof.
  intros [Hm He] Hb Hl E. rewrite downlinkNASTransport_eq in E. injection E as <-. msg_wf_tac.
Qed.

(** C23: a NAS message handed to [ecm_send] reaches the eNB: the Downlink NAS
    Transport is encoded whole, and the eNB decodes the same octets and the
    identifiers of the session. *)
Theorem downlink_reaches_eNB mm en msg : id_ok mm en -> bytes_ok msg -> Z.of_nat (length msg) <= 3000 ->
  exists m octets m', downlinkNASTransport mm en msg = Ok m /\ s1Assoc_send_octets m = Ok octets /\
    s1ap_decode octets (Z.of_nat (length octets)) = Ok m' /\
    choice m' = initiating_message /\ procedureCode (pdu m') = id_downlinkNASTransport /\
    s1ap_findIe m' id_MME_UE_S1AP_ID = Some (V_MME_UE_S1AP_ID mm) /\
    s1ap_findIe m' id_eNB_UE_S1AP_ID = Some (V_ENB_UE_S1AP_ID en) /\
    s1ap_findIe m' id_NAS_PDU =
      Some (V_Unconstrained_Octed_String (Unconstrained_Octed_String (Z.of_nat (length msg)) msg)).
Proof.
  intros Hi Hb Hl. pose proof (downlinkNASTransport_eq mm en msg) as E.
  destruct (sent_found _ (downlink_wf mm en msg _ Hi Hb Hl E)) as (o & m' & Eo & Ed & Hc & Hp & Hf).
  eexists _, o, m'. do 5 (split; [done|]). split_and!; by apply found_plain, Hf.
Qed.
Lemma downlink_reaches_eNB_witness : exists m octets m', downlinkNASTransport 1 7 [0x07; 0x52] = Ok m /\
  s1Assoc_send_octets m = Ok octets /\ s1ap_decode octets (Z.of_nat (length octets)) = Ok m' /\
  s1ap_findIe m' id_NAS_PDU = Some (V_Unconstrained_Octed_String (Unconstrained_Octed_String 2 [0x07; 0x52])).
Proof.
  destruct (downlink_reaches_eNB 1 7 [0x07; 0x52]) as (m & o & m' & E & Eo & Ed & _ & _ & _ & _ & F).
  - split; lia.
  - repeat constructor; unfold byte_ok; lia.
  - apply Z.leb_le. reflexivity.
  - exists m, o, m'. split; [exact E|]. split; [exact Eo|]. split; [exact Ed|exact F].
Defined.

(** The F-TEID of a gateway: interface, tunnel endpoint and address. *)
Definition gateway_fteid (b : ESM_BearerContext_t) (teid ip : list Z) : Prop :=
  exists i, esm_bc_getS1uSGWfteid b = Ok (i :: teid ++ ip) /\ length teid = 4%nat /\ bytes_ok teid /\ bytes_ok ip /\
    (1 <= length ip <= 20)%nat /\ 0 <= ebi b <= 15.

(** The address as the element holds it: 20 octets, the length in bits. *)
Definition address_of (ip : list Z) : TransportLayerAddress_t :=
  TransportLayerAddress 0 (8 * Z.of_nat (length ip)) (ip ++ repeat 0 (20 - length ip)).

Lemma repeat_drop {A} (x : A) n k : drop k (repeat x n) = repeat x (n - k).
Proof. revert k. induction n as [|n IH]; intros [|k]; [done|done|done|]. apply IH. Qed.

Lemma bearer_address_eq b teid ip : gateway_fteid b teid ip -> bearer_address b = Ok (address_of ip, teid).
Proof.
  intros (i & E & Ht & _ & _ & Hip & _). unfold bearer_address. rewrite E. osimp. cbn [new_TransportLayerAddress].
  replace (drop 5 (i :: teid ++ ip)) with ip by (cbn [drop]; rewrite drop_app_ge, Ht by lia; cbn; by rewrite drop_0).
  rewrite overwrite_Ok by (rewrite ?repeat_length; lia). osimp.
  change (drop 1 (i :: teid ++ ip)) with (teid ++ ip). rewrite take_app_length' by done.
  change (Z.to_nat 0 + length ip)%nat with (length ip). rewrite repeat_drop.
  unfold address_of. do 3 f_equal. cbn [length]. rewrite length_app. lia.
Qed.

Lemma address_of_wf ip : bytes_ok ip -> (1 <= length ip <= 20)%nat -> addr_wf (address_of ip) = true.
Proof.
  intros Hb Hl. unfold addr_wf, address_of. rewrite (Z.mul_comm 8), Z.div_mul, Z.mod_mul by lia.
  rewrite Nat2Z.id, drop_app_length, !inr_intro by lia. rewrite octets_n.
  - cbn [andb Z.eqb]. apply forallb_forall. intros x Hx. apply repeat_spec in Hx. by subst.
  - rewrite length_app, repeat_length. lia.
  - apply Forall_app. split; [done|]. apply Forall_forall. intros x Hx. apply list_elem_of_In, repeat_spec in Hx. subst. unfold byte_ok. lia.
Qed.

(** The item of the bearer in an Initial Context Setup Request. *)
Definition setup_item (b : ESM_BearerContext_t) (teid ip msg : list Z) : ie_value :=
  V_E_RABToBeSetupItemCtxtSUReq 0 (match msg with [] => 0 | _ => 0x80 end) (E_RAB_ID 0 (ebi b))
    (Some (E_RABLevelQoSParameters 0 0 9 (Some (AllocationAndRetentionPriority 0 0 15 0 0)) None))
    (Some (address_of ip)) teid
    (match msg with [] => None | _ => Some (Unconstrained_Octed_String (Z.of_nat (length msg)) msg) end).

Lemma InitialContextSetup_eq mm en ambr b msg caps keNB teid ip : gateway_fteid b teid ip ->
  InitialContextSetupRequest mm en ambr b msg caps keNB =
  Ok (set_value (newMsg initiating_message id_InitialContextSetup reject_)
    [IE 0 0 2 (Some (V_MME_UE_S1AP_ID mm)); IE 8 0 2 (Some (V_ENB_UE_S1AP_ID en));
     IE 66 0 2 (Some (V_UEAggregateMaximumBitrate 0 0 ambr.1 ambr.2));
     IE 24 0 2 (Some (V_SeqOfContainer [IE 52 0 2 (Some (setup_item b teid ip msg))]));
     IE 107 0 2 (Some (V_UESecurityCapabilities 0 0 0 caps.1 0 caps.2));
     IE 73 0 2 (Some (V_SecurityKey keNB))]).
Proof.
  intros H. apply bearer_address_eq in H. unfold InitialContextSetupRequest, add_ids, newIE. cbn.
  rewrite H. by destruct msg.
Qed.

(** The item of the bearer in a Path Switch Request Acknowledge. *)
Definition switched_item (b : ESM_BearerContext_t) (teid ip : list Z) : ie_value :=
  V_E_RABSetupItemBearerSURes 0 0 (E_RAB_ID 0 (ebi b)) (Some (address_of ip)) teid.

Lemma PathSwitchRequestAck_eq mm en ambr b nh ncc teid ip : gateway_fteid b teid ip ->
  PathSwitchRequestAck mm en ambr b nh ncc =
  Ok (set_value (newMsg successful_outcome id_PathSwitchRequest reject_)
    [IE 0 1 2 (Some (V_MME_UE_S1AP_ID mm)); IE 8 1 2 (Some (V_ENB_UE_S1AP_ID en));
     IE 66 1 0 (Some (V_UEAggregateMaximumBitrate 0 0 ambr.1 ambr.2));
     IE 95 1 0 (Some (V_SeqOfContainer [IE 94 1 2 (Some (switched_item b teid ip))]));
     IE 40 0 2 (Some (V_SecurityContext 0 0 ncc (Some nh)))]).
Proof.
  intros H. apply bearer_address_eq in H. unfold PathSwitchRequestAck, add_ids, newIE. cbn. by rewrite H.
Qed.

(** What the elements of these messages allow: rates of 32 bits, algorithms of
    16 bits, keys of 32 octets. *)
Record setup_data (mm en : Z) (ambr : Z * Z) (b : ESM_BearerContext_t) (teid ip : list Z) : Prop := {
  sd_ids : id_ok mm en;
  sd_ambr : 0 <= ambr.1 < 2^32 /\ 0 <= ambr.2 < 2^32;
  sd_fteid : gateway_fteid b teid ip;
}.
Definition key_ok (k : list Z) : Prop := length k = 32%nat /\ bytes_ok k.

Lemma str_wf_intro msg : bytes_ok msg -> Z.of_nat (length msg) <= 3000 ->
  str_wf (Unconstrained_Octed_String (Z.of_nat (length msg)) msg) = true.
Proof.
  intros Hb Hl. unfold str_wf. rewrite Z.eqb_refl, octets_intro by done.
  apply andb_true_iff. split; [|done]. apply andb_true_iff. split; [done|]. apply Z.ltb_lt. lia.
Qed.

Lemma setup_item_wf b teid ip msg : gateway_fteid b teid ip -> bytes_ok msg -> Z.of_nat (length msg) <= 3000 ->
  value_wf (setup_item b teid ip msg) = true.
Proof.
  intros (i & _ & Ht & Hbt & Hbi & Hip & He) Hb Hl. unfold setup_item. cbn [value_wf erab_wf ptr opt_ptr].
  rewrite (address_of_wf ip) by done. rewrite (octets_n 4 teid) by done. rewrite (inr_intro 0 (ebi b)) by done.
  destruct msg as [|x msg]; [reflexivity|]. apply andb_true_iff. split; [reflexivity|]. by apply str_wf_intro.
Qed.

(** The bits of the item: its bound depends only on the message. *)
Lemma setup_item_bits b teid ip msg : Z.of_nat (value_bits (setup_item b teid ip msg)) <= 1430 + 8 * Z.of_nat (length msg).
Proof. destruct msg as [|x msg]; [by apply Z.leb_le|]. cbn [setup_item value_bits str_bits]. rewrite !Nat2Z.inj_add, Nat2Z.inj_mul. lia. Qed.

Lemma items_one x : ie_wf x = true -> items 255 ie_wf [x] = true.
Proof. intros H. unfold items. cbn [length forallb]. rewrite H. reflexivity. Qed.

Lemma InitialContextSetup_wf mm en ambr b msg caps keNB teid ip m : setup_data mm en ambr b teid ip ->
  bytes_ok msg -> Z.of_nat (length msg) <= 2500 -> 0 <= caps.1 < 2^16 -> 0 <= caps.2 < 2^16 -> key_ok keNB ->
  InitialContextSetupRequest mm en ambr b msg caps keNB = Ok m -> msg_wf m = true.
Proof.
  intros [[Hm He] [Ha1 Ha2] Hf] Hb Hl Hc1 Hc2 [Hk Hkb] E. rewrite (InitialContextSetup_eq _ _ _ _ _ _ _ _ _ Hf) in E. injection E as <-.
  pose proof (setup_item_wf b teid ip msg Hf Hb ltac:(lia)) as Hw. pose proof (setup_item_bits b teid ip msg) as Hbits.
  assert (Hid : ids_of (setup_item b teid ip msg) = [52]) by (by destruct msg).
  set (item := setup_item b teid ip msg) in *. clearbody item.
  msg_wf_tac. apply items_one. cbn [ie_wf]. rewrite Hid, Hw. apply Z.leb_le. unfold MAXDATABYTES. lia.
Qed.

Lemma PathSwitchRequestAck_wf mm en ambr b nh ncc teid ip m : setup_data mm en ambr b teid ip ->
  0 <= ncc <= 7 -> key_ok nh -> PathSwitchRequestAck mm en ambr b nh ncc = Ok m -> msg_wf m = true.
Proof.
  intros [[Hm He] [Ha1 Ha2] Hf] Hn [Hk Hkb] E. rewrite (PathSwitchRequestAck_eq _ _ _ _ _ _ _ _ Hf) in E. injection E as <-.
  destruct Hf as (i & _ & Ht & Hbt & Hbi & Hip & Heb).
  msg_wf_tac. apply items_one. unfold switched_item. cbn [ie_wf value_wf erab_wf ptr ids_of].
  rewrite (address_of_wf ip) by done. rewrite (octets_n 4 teid) by done. rewrite (inr_intro 0 (ebi b)) by done. reflexivity.
Qed.

(** C24: an Initial Context Setup Request and a Path Switch Request Acknowledge
    reach the eNB.  In both it finds the kind of message, the two identifiers of
    the connection, the rates of the terminal, and the bearer with its identity
    and the address and tunnel endpoint of the gateway; in the first one K_eNB,
    the algorithms of the terminal and the NAS message inside of the bearer; in
    the second one NH with its counter. *)
Theorem bearer_setup_reaches_eNB mm en ambr b teid ip msg caps k ncc : setup_data mm en ambr b teid ip ->
  bytes_ok msg -> Z.of_nat (length msg) <= 2500 -> 0 <= caps.1 < 2^16 -> 0 <= caps.2 < 2^16 -> key_ok k -> 0 <= ncc <= 7 ->
  (exists m octets m', InitialContextSetupRequest mm en ambr b msg caps k = Ok m /\ s1Assoc_send_octets m = Ok octets /\
    s1ap_decode octets (Z.of_nat (length octets)) = Ok m' /\
    choice m' = initiating_message /\ procedureCode (pdu m') = id_InitialContextSetup /\
    s1ap_findIe m' id_MME_UE_S1AP_ID = Some (V_MME_UE_S1AP_ID mm) /\ s1ap_findIe m' id_eNB_UE_S1AP_ID = Some (V_ENB_UE_S1AP_ID en) /\
    s1ap_findIe m' id_SecurityKey = Some (V_SecurityKey k) /\
    s1ap_findIe m' id_UESecurityCapabilities = Some (V_UESecurityCapabilities 0 0 0 caps.1 0 caps.2) /\
    s1ap_findIe m' id_uEaggregateMaximumBitrate = Some (V_UEAggregateMaximumBitrate 0 0 ambr.1 ambr.2) /\
    (norm_value <$> s1ap_findIe m' id_E_RABToBeSetupListCtxtSUReq) =
      Some (norm_value (V_SeqOfContainer [IE id_E_RABToBeSetupItemCtxtSUReq 0 2 (Some (setup_item b teid ip msg))]))) /\
  (exists m octets m', PathSwitchRequestAck mm en ambr b k ncc = Ok m /\ s1Assoc_send_octets m = Ok octets /\
    s1ap_decode octets (Z.of_nat (length octets)) = Ok m' /\
    choice m' = successful_outcome /\ procedureCode (pdu m') = id_PathSwitchRequest /\
    s1ap_findIe m' id_MME_UE_S1AP_ID = Some (V_MME_UE_S1AP_ID mm) /\ s1ap_findIe m' id_eNB_UE_S1AP_ID = Some (V_ENB_UE_S1AP_ID en) /\
    s1ap_findIe m' id_uEaggregateMaximumBitrate = Some (V_UEAggregateMaximumBitrate 0 0 ambr.1 ambr.2) /\
    s1ap_findIe m' id_SecurityContext = Some (V_SecurityContext 0 0 ncc (Some k)) /\
    (norm_value <$> s1ap_findIe m' id_E_RABToBeSwitchedULList) =
      Some (norm_value (V_SeqOfContainer [IE id_E_RABToBeSwitchedULItem 1 2 (Some (switched_item b teid ip))]))).
Proof.
  intros D Hb Hl Hc1 Hc2 Hk Hn. split.
  - pose proof (InitialContextSetup_eq mm en ambr b msg caps k teid ip (sd_fteid _ _ _ _ _ _ D)) as E.
    destruct (sent_found _ (InitialContextSetup_wf _ _ _ _ _ _ _ _ _ _ D Hb Hl Hc1 Hc2 Hk E)) as (o & m' & Eo & Ed & Ec & Ep & Hf).
    eexists _, o, m'. do 3 (split; [done|]). split_and!; [done|done|by apply found_plain, Hf..|by rewrite Hf].
  - pose proof (PathSwitchRequestAck_eq mm en ambr b k ncc teid ip (sd_fteid _ _ _ _ _ _ D)) as E.
    destruct (sent_found _ (PathSwitchRequestAck_wf _ _ _ _ _ _ _ _ _ D Hn Hk E)) as (o & m' & Eo & Ed & Ec & Ep & Hf).
    eexists _, o, m'. do 3 (split; [done|]). split_and!; [done|done|by apply found_plain, Hf..|by rewrite Hf].
Qed.

Definition toy_bearer : ESM_BearerContext_t :=
  {| ebi := 5; bc_state := Inactive; s1u_sgw := [0x81; 0; 0; 0; 1; 10; 0; 0; 1] ++ repeat 0 16;
     s1u_enb := repeat 0 25; s5s8u_pgw := repeat 0 25 |}.

Lemma bearer_setup_reaches_eNB_witness : exists m octets m',
  InitialContextSetupRequest 1 7 (1000, 500) toy_bearer [0x07; 0x42] (0xe000, 0xe000) (repeat 3 32) = Ok m /\
  s1Assoc_send_octets m = Ok octets /\ s1ap_decode octets (Z.of_nat (length octets)) = Ok m' /\
  s1ap_findIe m' id_SecurityKey = Some (V_SecurityKey (repeat 3 32)).
Proof.
  assert (B : forall l, forallb (fun x => (0 <=? x) && (x <? 256)) l = true -> bytes_ok l).
  { intros l H. apply Forall_forall. intros x Hx. rewrite forallb_forall in H. apply list_elem_of_In in Hx.
    specialize (H x Hx). unfold byte_ok. lia. }
  destruct (bearer_setup_reaches_eNB 1 7 (1000, 500) toy_bearer [0; 0; 0; 1] [10; 0; 0; 1] [0x07; 0x42] (0xe000, 0xe000)
    (repeat 3 32) 0) as [(m & o & m' & E & Eo & Ed & _ & _ & _ & _ & F & _) _].
  - split; [split; lia|split; cbn; lia|]. exists 0x81. split; [reflexivity|]. split; [reflexivity|].
    split; [by apply B|]. split; [by apply B|]. cbn. lia.
  - by apply B.
  - by apply Z.leb_le.
  - cbn. lia.
  - cbn. lia.
  - split; [reflexivity|by apply B].
  - lia.
  - exists m, o, m'. split; [exact E|]. split; [exact Eo|]. split; [exact Ed|exact F].
Defined.
