(* ===== verification/S1Stack.v ===== *)
(** The S1 stack (src/mme/S1): associations with eNBs (S1Assoc.c and its two
    states), connections of terminals (ECMSession.c and its two states), the table
    of associations (MME_S1.c) and the tables of the MME (src/mme/MME.c).

    Objects are in heaps, and a pointer is the number of an object.  The tables
    are GLib hash tables whose keys are pointers into the objects: an entry has
    the object that holds the key and the object that is the value, and a table
    keeps the old key when the value is replaced.  An access to an object that was
    freed is [UseAfterFree].

    The mobility management above is an interface, [EMM_ops]: what it sends is
    returned as a list of [emm_out], which are carried out here in their order.
    [Fault] says in which layer a fault happened.  [incidents] is a ghost list of
    the situations in which the tables of the code come apart. *)
From coqutil Require Import Datatypes.RecordSetters.
From stdpp Require Import gmap.
From S2P Require Import Prelude NASTypes NASDec Timer Subs Session S11Peer MMEUtils S1APTypes S1APDec S1Msg EMMCtx EMM EMMFSM.

(** ** The interface to the mobility management *)

(** The calls of this stack. *)
Inductive emm_call :=
  | Call_processMsg (buf : list Z) (len : Z)
  | Call_deregister
  | Call_stop
  | Call_UEContextReleaseReq
  | Call_modifyE_RABList (l : option ie_value)
  | Call_upper (ev : emm_event).   (* timers and the session management *)

Class EMM_ops := {
  emm_ctx : Type;
  emm_new : ecm_view -> emm_ctx;
  emm_do : emm_call -> option ecm_view -> emm_ctx -> outcome (emm_ctx * list emm_out);
  emm_IMSI : emm_ctx -> Z;
  emm_GUTI : emm_ctx -> list Z;
  emm_TAI : emm_ctx -> list Z * list Z;
  emm_AMBR : emm_ctx -> Z * Z;
  emm_caps : emm_ctx -> Z * Z;
  emm_NH : emm_ctx -> outcome (emm_ctx * (list Z * Z));
  emm_default_bearer : emm_ctx -> option ESM_BearerContext_t;
  msg_GUTI : list Z -> Z -> outcome (option (list Z));
  msg_IMSI : list Z -> Z -> outcome (option Z);
}.

(** The configuration of the MME. *)
Class MMEConf := {
  mme_name : option (list Z);
  mme_servedGUMMEIs : list ServedGUMMEIsItem_t;
  mme_relativeCapacity : Z;
}.

(** ** Objects *)

Inductive ECMSessionState := ECM_Idle | ECM_Connected.
Inductive S1AssocState := S1_NotConfigured | S1_Active.

(** [ECMSession_t]; [MCC] and [MNC] are never set. *)
Record ECMSession_t := {
  c_assoc : nat;
  c_emm : option nat;
  c_stateName : ECMSessionState;
  l_sid : Z;
  r_sid_valid : bool;
  r_sid : Z;
  mmeUEId : Z;
  eNBUEId : Z;
  c_sn : list Z;
  c_tAC : list Z;
  cellID : Z;
  causeRelease : option Cause_t;
}.

(** A GLib hash table: hash of the key (the number or the octets), the object
    that holds the key, the value. *)
Abbreviation gtable K := (gmap K (nat * nat)).

Record S1Assoc_t := {
  fd : Z;
  nonue_rsid : Z;
  a_stateName : S1AssocState;
  eNBname : list Z;
  global_eNB_ID : mme_GlobaleNBid;
  supportedTAs : option (list SupportedTAs_Item_t);
  ecm_sessions : gtable Z;
}.

Section Stack.
Context {ops : EMM_ops} {conf : MMEConf}.

(** A context of the mobility management: [emm->ecm] and the rest. *)
Record emm_obj := { u_ecm : option nat; u_ctx : emm_ctx }.

(** The functions handed to the layers above with the session as argument. *)
Inductive callback := Cb_pathSwitchAck (c : nat) | Cb_releaseCommand (c : nat).

(** The situations in which objects and tables come apart. *)
Inductive incident :=
  | Duplicate_eNBUEId     (* a second session with the number of another one *)
  | TMSI_collision        (* a second context with the same M-TMSI *)
  | Foreign_reset         (* an eNB resets a session of another eNB *)
  | Freed_while_waiting   (* a session is freed with a callback outstanding *)
  | Too_many_UEs.         (* every identifier is in use *)

Record s1st := {
  localIDs : gset Z;
  ecm_tab : gtable Z;                    (* [ecm_sessions_by_localID] *)
  emm_tab : gtable (list Z);             (* [emm_sessions], by M-TMSI *)
  geNB_tab : gtable (Z * Z * Z * bool * Z);  (* [s1_by_GeNBid] *)
  assoc_tab : gtable Z;                  (* [assocs], by descriptor *)
  ev_readers : gmap Z nat;               (* the association an event is for *)
  assocs : gmap nat S1Assoc_t;
  ecms : gmap nat ECMSession_t;
  emms : gmap nat emm_obj;
  pending : list callback;
  next : nat;
  sent : list (nat * Z * list Z);        (* association, stream, octets *)
  incidents : list incident;
}.

Definition s1_init : s1st :=
  {| localIDs := ∅; ecm_tab := ∅; emm_tab := ∅; geNB_tab := ∅; assoc_tab := ∅; ev_readers := ∅; assocs := ∅; ecms := ∅;
     emms := ∅; pending := []; next := 0; sent := []; incidents := [] |}.

(** ** The monad *)

Inductive layer := In_S1 | In_S1AP | In_EMM.
Inductive sres (A : Type) := Done (a : A) (s : s1st) | Fault (l : layer) (f : fault) (inc : list incident).
Arguments Done {A} a s.
Arguments Fault {A} l f inc.

Definition S1M (A : Type) : Type := s1st -> sres A.
#[export] Instance S1M_ret : MRet S1M := fun A a s => Done a s.
#[export] Instance S1M_bind : MBind S1M := fun A B k m s =>
  match m s with Done a s => k a s | Fault l f inc => Fault l f inc end.

Definition s1_fault {A} (f : fault) : S1M A := fun s => Fault In_S1 f (incidents s).
Definition s1_lift {A} (o : outcome A) : S1M A := fun s =>
  match o with Ok a => Done a s | UB f => Fault In_S1 f (incidents s) end.
(** Building, encoding and decoding messages. *)
Definition s1ap_lift {A} (o : outcome A) : S1M A := fun s =>
  match o with Ok a => Done a s | UB f => Fault In_S1AP f (incidents s) end.
Definition from_emm {A} (o : outcome A) : S1M A := fun s =>
  match o with Ok a => Done a s | UB f => Fault In_EMM f (incidents s) end.
Definition get {A} (f : s1st -> A) : S1M A := fun s => Done (f s) s.
Definition put (f : s1st -> s1st) : S1M unit := fun s => Done tt (f s).
Definition skip1 : S1M unit := mret tt.
Definition incident_ (i : incident) : S1M unit := put (fun s => { s with incidents := incidents s ++ [i] }).
Definition incident_when (b : bool) (i : incident) : S1M unit := if b then incident_ i else skip1.
(** An object of a heap. *)
Definition deref {X} (heap : s1st -> gmap nat X) (h : nat) : S1M X := fun s =>
  match heap s !! h with Some x => Done x s | None => Fault In_S1 UseAfterFree (incidents s) end.
Definition null {A X} (o : option X) (k : X -> S1M A) : S1M A :=
  match o with Some x => k x | None => s1_fault NullDeref end.

Definition assoc_ (h : nat) : S1M S1Assoc_t := deref assocs h.
Definition ecm__ (h : nat) : S1M ECMSession_t := deref ecms h.
Definition emm_ (h : nat) : S1M emm_obj := deref emms h.
Definition set_assoc (h : nat) (f : S1Assoc_t -> S1Assoc_t) : S1M unit :=
  a ← assoc_ h; put (fun s => { s with assocs := <[h := f a]> (assocs s) }).
Definition set_ecm (h : nat) (f : ECMSession_t -> ECMSession_t) : S1M unit :=
  c ← ecm__ h; put (fun s => { s with ecms := <[h := f c]> (ecms s) }).
Definition set_emm (h : nat) (f : emm_obj -> emm_obj) : S1M unit :=
  u ← emm_ h; put (fun s => { s with emms := <[h := f u]> (emms s) }).
Definition fresh : S1M nat := fun s => Done (next s) { s with next := S (next s) }.

(** ** Hash tables *)

(** The key of an entry is compared with the key given: the object that holds
    it must be there. *)
Section Table.
Context {K X : Type} `{Countable K} (heap : s1st -> gmap nat X) (tab : s1st -> gtable K).

Definition g_lookup (k : K) : S1M (option nat) :=
  t ← get tab;
  match t !! k with
  | None => mret None
  | Some (o, v) => _ ← deref heap o; mret (Some v)
  end.

(** The new table and the value that was replaced. *)
Definition g_insert (k : K) (h : nat) : S1M (gtable K * option nat) :=
  t ← get tab;
  match t !! k with
  | None => mret (<[k := (h, h)]> t, None)
  | Some (o, v) => _ ← deref heap o; mret (<[k := (o, h)]> t, Some v)
  end.

(** The new table and the value that was removed. *)
Definition g_remove (k : K) : S1M (gtable K * option nat) :=
  t ← get tab;
  match t !! k with
  | None => mret (t, None)
  | Some (o, v) => _ ← deref heap o; mret (delete k t, Some v)
  end.
End Table.

(** ** Identifiers and tables of the MME (MME.c) *)

Definition MAX_UE : Z := 500000.
Fixpoint free_id (n : nat) (i : Z) (ids : gset Z) : option Z :=
  match n with
  | O => None
  | S n => if decide (i ∈ ids) then free_id n (i + 1) ids else Some i
  end.
(** [mme_newLocalUEid]; when there is none left the counter is read after it was
    freed. *)
Definition mme_newLocalUEid : S1M Z :=
  ids ← get localIDs;
  match free_id (Z.to_nat MAX_UE) 1 ids with
  | Some i => put (fun s => { s with localIDs := {[i]} ∪ ids }) ;; mret i
  | None => incident_ Too_many_UEs ;; s1_fault UseAfterFree
  end.
Definition mme_freeLocalUEid (id : Z) : S1M unit := put (fun s => { s with localIDs := localIDs s ∖ {[id]} }).

(** The key of an identity of an eNB: [globaleNBID_Equal] is equality of it. *)
Definition geNB_key (g : mme_GlobaleNBid) : Z * Z * Z * bool * Z :=
  (tbcd0 (g_plmn g), tbcd1 (g_plmn g), tbcd2 (g_plmn g), g_macroId g, g_eNBid g).

(** [mme_registerS1Assoc], [mme_deregisterS1Assoc] *)
Definition mme_registerS1Assoc (a : nat) : S1M unit :=
  x ← assoc_ a;
  '(t, _) ← g_insert assocs geNB_tab (geNB_key (global_eNB_ID x)) a;
  put (fun s => { s with geNB_tab := t }).
Definition mme_deregisterS1Assoc (a : nat) : S1M unit :=
  x ← assoc_ a;
  '(t, _) ← g_remove assocs geNB_tab (geNB_key (global_eNB_ID x));
  put (fun s => { s with geNB_tab := t }).

(** [mme_registerRead], [mme_deregisterRead] *)
Definition mme_registerRead (f : Z) (a : nat) : S1M unit := put (fun s => { s with ev_readers := <[f := a]> (ev_readers s) }).
Definition mme_deregisterRead (f : Z) : S1M unit := put (fun s => { s with ev_readers := delete f (ev_readers s) }).

(** [mme_registerEMMCtxt]: the context that had the same M-TMSI is freed. *)
Definition mme_registerEMMCtxt (h : nat) (mtmsi : list Z) : S1M unit :=
  '(t, old) ← g_insert emms emm_tab mtmsi h;
  put (fun s => { s with emm_tab := t }) ;;
  match old with
  | None => skip1
  | Some o =>
    incident_ TMSI_collision ;; _ ← emm_ o;
    put (fun s => { s with emms := delete o (emms s) })
  end.
(** [mme_lookupEMMCtxt] *)
Definition mme_lookupEMMCtxt (mtmsi : list Z) : S1M (option nat) := g_lookup emms emm_tab mtmsi.
(** [mme_lookupEMMCtxt_byIMSI]; [None] when [*emm] is not written. *)
Fixpoint first_IMSI (imsi : Z) (l : list (list Z * (nat * nat))) : S1M (option nat) :=
  match l with
  | [] => mret None
  | (_, (_, v)) :: l => u ← emm_ v; if emm_IMSI (u_ctx u) =? imsi then mret (Some v) else first_IMSI imsi l
  end.
Definition mme_lookupEMMCtxt_byIMSI (imsi : Z) : S1M (option nat) :=
  t ← get emm_tab; first_IMSI imsi (map_to_list t).
(** [mme_GUMMEI_IsLocal] *)
Definition mme_GUMMEI_IsLocal (guti : list Z) : bool := true.

(** [mme_containsSupportedTAs] *)
Definition plmn_served (tbc : list Z) : outcome bool :=
  foldr (fun '(ServedGUMMEIsItem _ _ served _ _) (r : outcome bool) =>
    match served with
    | None => UB NullDeref
    | Some l => b ← r; Ok (existsb (fun '(PLMNidentity m _ _) => bool_decide (m = tbc)) l || b)
    end) (Ok false) mme_servedGUMMEIs.
Definition any_ok {X} (f : X -> outcome bool) (l : list X) : outcome bool :=
  foldr (fun x (r : outcome bool) => a ← f x; b ← r; Ok (a || b)) (Ok false) l.
Definition mme_containsSupportedTAs (tas : list SupportedTAs_Item_t) : outcome bool :=
  any_ok (fun '(SupportedTAs_Item _ _ _ bc) =>
    match bc with
    | None => UB NullDeref
    | Some (BPLMNs _ l) => any_ok (fun '(PLMNidentity tbc _ _) => plmn_served tbc) l
    end) tas.

(** ** Sending *)

(** [s1Assoc_send], [s1Assoc_sendNonUE] *)
Definition s1Assoc_send (a : nat) (stream : Z) (m : S1AP_Message_t) : S1M unit :=
  _ ← assoc_ a;
  o ← s1ap_lift (s1Assoc_send_octets m);
  put (fun s => { s with sent := sent s ++ [(a, stream, o)] }).
Definition s1Assoc_sendNonUE (a : nat) (m : S1AP_Message_t) : S1M unit :=
  x ← assoc_ a; s1Assoc_send a (nonue_rsid x) m.

(** [ecm_log] names the eNB. *)
Definition ecm_log (c : nat) : S1M unit := x ← ecm__ c; _ ← assoc_ (c_assoc x); skip1.

(** A message of a session, on its stream. *)
Definition ecm_emit (x : ECMSession_t) (m : outcome S1AP_Message_t) : S1M unit :=
  m ← s1ap_lift m; s1Assoc_send (c_assoc x) (l_sid x) m.

(** [ecm_send], and the two functions below: nothing is done without a session. *)
Definition ecm_send (o : option nat) (msg : list Z) : S1M unit :=
  match o with
  | None => skip1
  | Some c => x ← ecm__ c; ecm_emit x (downlinkNASTransport (mmeUEId x) (eNBUEId x) msg)
  end.
(** [ecm_sendUEContextReleaseCommand]: [release] of the two states. *)
Definition ecm_sendUEContextReleaseCommand (o : option nat) (ch : cause_choice) (cause : Z) : S1M unit :=
  match o with
  | None => skip1
  | Some c =>
    x ← ecm__ c;
    match c_stateName x with
    | ECM_Idle => ecm_log c
    | ECM_Connected => ecm_emit x (UEContextReleaseCommand (mmeUEId x) (eNBUEId x) ch cause)
    end
  end.
(** [ecm_sendCtxtSUReq]; [b] is the default bearer of the first session. *)
Definition ecm_sendCtxtSUReq (o : option nat) (b : option ESM_BearerContext_t) (msg keNB : list Z) : S1M unit :=
  match o with
  | None => skip1
  | Some c =>
    x ← ecm__ c;
    null (c_emm x) (fun h =>
    u ← emm_ h;
    null b (fun b =>
    ecm_emit x (InitialContextSetupRequest (mmeUEId x) (eNBUEId x) (emm_AMBR (u_ctx u)) b msg (emm_caps (u_ctx u)) keNB)))
  end.

(** ** Calls of the mobility management *)

Definition CauseNas_val (c : CauseNas_e) : Z :=
  match c with
  | CauseNas_normal_release => 0 | CauseNas_authentication_failure => 1 | CauseNas_detach => 2 | CauseNas_unspecified => 3
  end.
(** What the mobility management asks for; the session management is above. *)
Definition run_out (h : nat) (o : emm_out) : S1M unit :=
  u ← emm_ h;
  match o with
  | Ecm_send msg => ecm_send (u_ecm u) msg
  | Ecm_release c => ecm_sendUEContextReleaseCommand (u_ecm u) CauseNas (CauseNas_val c)
  | Ecm_ctxtSUReq msg keNB => ecm_sendCtxtSUReq (u_ecm u) (emm_default_bearer (u_ctx u)) msg keNB
  | Mme_registerEMMCtxt mtmsi => mme_registerEMMCtxt h mtmsi
  | _ => skip1
  end.
Fixpoint run_outs (h : nat) (l : list emm_out) : S1M unit :=
  match l with [] => skip1 | o :: l => run_out h o ;; run_outs h l end.

(** What a context sees of its session. *)
Definition view_of (o : option nat) : S1M (option ecm_view) :=
  match o with
  | None => mret None
  | Some c => x ← ecm__ c; mret (Some {| tAI_sn := c_sn x; tAI_tAC := c_tAC x |})
  end.
Definition call_emm (h : nat) (call : emm_call) : S1M unit :=
  u ← emm_ h;
  v ← view_of (u_ecm u);
  '(x, outs) ← from_emm (emm_do call v (u_ctx u));
  set_emm h (fun u => { u with u_ctx := x }) ;; run_outs h outs.

(** [emm_init], [emm_registerECM], [emm_deregister] as this stack sees them *)
Definition new_emm (c : nat) : S1M nat :=
  h ← fresh;
  x ← ecm__ c;
  put (fun s => { s with emms := <[h := {| u_ecm := Some c; u_ctx := emm_new {| tAI_sn := c_sn x; tAI_tAC := c_tAC x |} |}]> (emms s) }) ;;
  mret h.
Definition attach_emm (h c : nat) : S1M unit :=
  u ← emm_ h;
  ecm_sendUEContextReleaseCommand (u_ecm u) CauseNas (CauseNas_val CauseNas_normal_release) ;;
  set_emm h (fun u => { u with u_ecm := Some c }).
Definition detach_emm (h : nat) : S1M unit :=
  call_emm h Call_deregister ;; set_emm h (fun u => { u with u_ecm := None }).

(** ** Connections (ECMSession.c) *)

(** [s1Assoc_registerECMSession], [s1Assoc_deregisterECMSession] and
    [s1Assoc_getECMSession] *)
Definition s1Assoc_registerECMSession (a c : nat) : S1M unit :=
  x ← ecm__ c;
  y ← assoc_ a;
  '(t, old) ← g_insert ecms (fun _ => ecm_sessions y) (eNBUEId x) c;
  incident_when (match old with Some _ => true | None => false end) Duplicate_eNBUEId ;;
  set_assoc a (fun y => { y with ecm_sessions := t }).
Definition s1Assoc_deregisterECMSession (a c : nat) : S1M unit :=
  x ← ecm__ c;
  y ← assoc_ a;
  '(t, _) ← g_remove ecms (fun _ => ecm_sessions y) (eNBUEId x);
  set_assoc a (fun y => { y with ecm_sessions := t }).
Definition s1Assoc_getECMSession (a : nat) (id : Z) : S1M (option nat) :=
  y ← assoc_ a; g_lookup ecms (fun _ => ecm_sessions y) id.

(** [ecmSession_free] *)
Definition waits_for (c : nat) (cb : callback) : bool :=
  match cb with Cb_pathSwitchAck c' | Cb_releaseCommand c' => bool_decide (c' = c) end.
Definition ecmSession_free (c : nat) : S1M unit :=
  x ← ecm__ c;
  null (c_emm x) detach_emm ;;
  _ ← assoc_ (c_assoc x);
  mme_freeLocalUEid (mmeUEId x) ;;
  p ← get pending;
  incident_when (existsb (waits_for c) p) Freed_while_waiting ;;
  put (fun s => { s with ecms := delete c (ecms s) }).

(** [mme_registerECM], [mme_deregisterECM], [mme_lookupECM]; a session whose
    entry is removed or replaced is freed. *)
Definition destroy_ecm (o : option nat) : S1M unit :=
  match o with Some c => ecmSession_free c | None => skip1 end.
Definition mme_registerECM (c : nat) : S1M unit :=
  x ← ecm__ c;
  '(t, old) ← g_insert ecms ecm_tab (mmeUEId x) c;
  put (fun s => { s with ecm_tab := t }) ;; destroy_ecm old.
Definition mme_deregisterECM (c : nat) : S1M unit :=
  x ← ecm__ c;
  '(t, old) ← g_remove ecms ecm_tab (mmeUEId x);
  put (fun s => { s with ecm_tab := t }) ;; destroy_ecm old.
Definition mme_lookupECM (id : Z) : S1M (option nat) := g_lookup ecms ecm_tab id.

(** Elements of a message. *)
Definition ie_of {A} (m : S1AP_Message_t) (id : Z) (f : ie_value -> option A) : S1M A :=
  null (s1ap_findIe m id) (fun v => match f v with Some a => mret a | None => s1_fault BadCast end).
Definition as_eNB_id (v : ie_value) : option Z := match v with V_ENB_UE_S1AP_ID x => Some x | _ => None end.
Definition as_mme_id (v : ie_value) : option Z := match v with V_MME_UE_S1AP_ID x => Some x | _ => None end.
Definition as_octets (v : ie_value) : option (Z * list Z) :=
  match v with V_Unconstrained_Octed_String (Unconstrained_Octed_String len str) => Some (len, str) | _ => None end.
Definition as_TAI (v : ie_value) : option (option PLMNidentity_t * list Z) :=
  match v with V_TAI (TAI _ _ p t) => Some (p, t) | _ => None end.
Definition as_cell (v : ie_value) : option Z := match v with V_EUTRAN_CGI _ _ _ c => Some c | _ => None end.
Definition as_S_TMSI (v : ie_value) : option (list Z) := match v with V_S_TMSI (S_TMSI _ _ _ t) => Some t | _ => None end.
Definition plmn_tbc (p : PLMNidentity_t) : list Z := let '(PLMNidentity t _ _) := p in t.

Definition is_msg (m : S1AP_Message_t) (code ch : Z) : bool := (procedureCode (pdu m) =? code) && (choice m =? ch).

(** The context an initial message is for. *)
Definition find_emm (m : S1AP_Message_t) : S1M (option nat) :=
  match s1ap_findIe m id_S_TMSI with
  | Some v => match as_S_TMSI v with Some t => mme_lookupEMMCtxt t | None => s1_fault BadCast end
  | None =>
    '(len, str) ← ie_of m id_NAS_PDU as_octets;
    g ← from_emm (msg_GUTI str len);
    let guti := default (repeat 0 10) g in
    if negb (bool_decide (guti_mtmsi guti = [0; 0; 0; 0])) && mme_GUMMEI_IsLocal guti
    then mme_lookupEMMCtxt (guti_mtmsi guti)
    else
      i ← from_emm (msg_IMSI str len);
      match i with
      | None => s1_fault Uninitialised
      | Some imsi => mme_lookupEMMCtxt_byIMSI imsi
      end
  end.

(** [ecm_processMsg] of ECM-Idle *)
Definition ecm_attach (c : nat) (o : option nat) : S1M nat :=
  match o with
  | None => h ← new_emm c; set_ecm c (fun x => { x with c_emm := Some h }) ;; ecm_log c ;; mret h
  | Some h => set_ecm c (fun x => { x with c_emm := Some h }) ;; attach_emm h c ;; mret h
  end.
Definition ecm_setTAI (c : nat) (m : S1AP_Message_t) : S1M unit :=
  '(plmn, tac) ← ie_of m id_TAI as_TAI;
  null plmn (fun p => set_ecm c (fun x => { x with c_sn := plmn_tbc p; c_tAC := tac })).
Definition Idle_processMsg (c : nat) (m : S1AP_Message_t) (stream : Z) : S1M unit :=
  x ← ecm__ c;
  _ ← assoc_ (c_assoc x);
  if is_msg m id_initialUEMessage initiating_message then
    e ← ie_of m id_eNB_UE_S1AP_ID as_eNB_id;
    set_ecm c (fun x => { x with eNBUEId := e }) ;;
    ecm_setTAI c m ;;
    set_ecm c (fun x => { x with l_sid := 1 }) ;;
    (if negb (stream =? 0) then set_ecm c (fun x => { x with r_sid_valid := true; r_sid := stream }) else skip1) ;;
    o ← find_emm m;
    h ← ecm_attach c o;
    set_ecm c (fun x => { x with c_stateName := ECM_Connected }) ;;
    ecm_log c ;;
    '(len, str) ← ie_of m id_NAS_PDU as_octets;
    call_emm h (Call_processMsg str len)
  else skip1.

(** [ecm_UEContextRelease] *)
Definition as_cause (v : ie_value) : option Cause_t := match v with V_Cause c => Some c | _ => None end.
Definition wait (cb : callback) : S1M unit := put (fun s => { s with pending := pending s ++ [cb] }).
Definition ecm_UEContextRelease (c : nat) (m : S1AP_Message_t) : S1M unit :=
  let cause := (s1ap_getIe m id_Cause).1 ≫= as_cause in
  set_ecm c (fun x => { x with causeRelease := cause }) ;;
  x ← ecm__ c;
  null (c_emm x) (fun h => call_emm h Call_UEContextReleaseReq) ;;
  wait (Cb_releaseCommand c).

(** The identifiers of a message of a connection are checked again. *)
Definition ids_match (x : ECMSession_t) (m : S1AP_Message_t) : S1M bool :=
  e ← ie_of m id_eNB_UE_S1AP_ID as_eNB_id;
  if negb (e =? eNBUEId x) then mret false
  else i ← ie_of m id_MME_UE_S1AP_ID as_mme_id; mret (i =? mmeUEId x).

(** [processMsg] of ECM-Connected; the procedures that are not here are only
    written to the log. *)
Definition Connected_processMsg (c : nat) (m : S1AP_Message_t) (stream : Z) : S1M unit :=
  x ← ecm__ c;
  if negb (stream =? r_sid x) && r_sid_valid x then ecm_log c
  else
    (if negb (r_sid_valid x) then set_ecm c (fun x => { x with r_sid := stream; r_sid_valid := true }) else skip1) ;;
    if is_msg m id_UEContextRelease successful_outcome then
      ecm_log c ;;
      set_ecm c (fun x => { x with causeRelease := None }) ;;
      ecm_log c ;;
      s1Assoc_deregisterECMSession (c_assoc x) c ;;
      _ ← assoc_ (c_assoc x);
      mme_deregisterECM c
    else if is_msg m id_InitialContextSetup successful_outcome then
      ok ← ids_match x m;
      ecm_log c ;;
      if ok : bool then null (c_emm x) (fun h => call_emm h (Call_modifyE_RABList (s1ap_findIe m id_E_RABSetupListCtxtSURes)))
      else skip1
    else if is_msg m id_uplinkNASTransport initiating_message then
      ok ← ids_match x m;
      if ok : bool then
        '(len, str) ← ie_of m id_NAS_PDU as_octets;
        null (c_emm x) (fun h => call_emm h (Call_processMsg str len))
      else ecm_log c
    else if is_msg m id_UEContextReleaseRequest initiating_message then
      ecm_log c ;; ecm_UEContextRelease c m
    else ecm_log c.

(** [ecmSession_processMsg] *)
Definition ecmSession_processMsg (c : nat) (m : S1AP_Message_t) (stream : Z) : S1M unit :=
  x ← ecm__ c;
  match c_stateName x with
  | ECM_Idle => Idle_processMsg c m stream
  | ECM_Connected => Connected_processMsg c m stream
  end.

(** [ecmSession_init] *)
Definition ecmSession_init (a : nat) (m : S1AP_Message_t) (stream : Z) : S1M nat :=
  c ← fresh;
  _ ← assoc_ a;
  i ← mme_newLocalUEid;
  put (fun s => { s with ecms := <[c := {| c_assoc := a; c_emm := None; c_stateName := ECM_Idle; l_sid := 0;
    r_sid_valid := false; r_sid := stream; mmeUEId := i; eNBUEId := 0; c_sn := repeat 0 3; c_tAC := repeat 0 2;
    cellID := 0; causeRelease := None |}]> (ecms s) }) ;;
  ecmSession_processMsg c m stream ;;
  s1Assoc_registerECMSession a c ;;
  mme_registerECM c ;;
  mret c.

(** [ecmSession_reset], [s1Assoc_resetECM] *)
Definition ecmSession_reset (c : nat) : S1M unit :=
  x ← ecm__ c; null (c_emm x) (fun h => call_emm h Call_stop).
Definition s1Assoc_resetECM (c : nat) : S1M unit := ecmSession_reset c ;; mme_deregisterECM c.

(** [ecmSession_pathSwitchReq]; the session may be null. *)
Definition ecmSession_pathSwitchReq (o : option nat) (a : nat) (m : S1AP_Message_t) (stream : Z) : S1M unit :=
  null o (fun c =>
  x ← ecm__ c;
  _ ← null (c_emm x) emm_;
  _ ← assoc_ (c_assoc x);
  _ ← assoc_ a;
  ecm_log c ;;
  s1Assoc_deregisterECMSession (c_assoc x) c ;;
  set_ecm c (fun x => { x with c_assoc := a; r_sid := stream }) ;;
  e ← ie_of m id_eNB_UE_S1AP_ID as_eNB_id;
  set_ecm c (fun x => { x with eNBUEId := e }) ;;
  s1Assoc_registerECMSession a c ;;
  ecm_setTAI c m ;;
  cell ← ie_of m id_EUTRAN_CGI as_cell;
  set_ecm c (fun x => { x with cellID := cell }) ;;
  null (c_emm x) (fun h => call_emm h (Call_modifyE_RABList (s1ap_findIe m id_E_RABToBeSwitchedDLList))) ;;
  wait (Cb_pathSwitchAck c)).

(** [ecmSession_sendPathSwitchReqAck], [sendUEContextReleaseCommand]: called by
    the layers above when they are done. *)
Definition ecmSession_sendPathSwitchReqAck (c : nat) : S1M unit :=
  x ← ecm__ c;
  null (c_emm x) (fun h =>
  u ← emm_ h;
  null (emm_default_bearer (u_ctx u)) (fun b =>
  '(ctx, (nh, ncc)) ← from_emm (emm_NH (u_ctx u));
  set_emm h (fun u => { u with u_ctx := ctx }) ;;
  ecm_emit x (PathSwitchRequestAck (mmeUEId x) (eNBUEId x) (emm_AMBR (u_ctx u)) b nh ncc))).
Definition sendUEContextReleaseCommand (c : nat) : S1M unit :=
  x ← ecm__ c; ecm_emit x (UEContextReleaseCommand_with (mmeUEId x) (eNBUEId x) (causeRelease x)).
Definition run_callback (cb : callback) : S1M unit :=
  match cb with
  | Cb_pathSwitchAck c => ecmSession_sendPathSwitchReqAck c
  | Cb_releaseCommand c => sendUEContextReleaseCommand c
  end.

(** ** Associations (S1Assoc.c) *)

(** [elementaryProcedureName[...]] for the log: the table has 49 entries. *)
Definition procedure_name (m : S1AP_Message_t) : S1M unit :=
  if procedureCode (pdu m) <? 49 then skip1 else s1_fault OutOfBounds.

(** [s1Assoc_setGlobalID] *)
Definition as_geNB (v : ie_value) : option Global_ENB_ID_t := match v with V_Global_ENB_ID g => Some g | _ => None end.
Definition s1Assoc_setGlobalID (a : nat) (g : Global_ENB_ID_t) : S1M unit :=
  let '(Global_ENB_ID _ _ plmn (ENB_ID _ ch id)) := g in
  null plmn (fun p =>
  g ← s1_lift (globaleNBID_Fill (plmn_tbc p) (if ch =? 0 then macroENB_ID id else homeENB_ID id));
  set_assoc a (fun x => { x with global_eNB_ID := g })).

(** [processMsg] before the setup: whether an error is reported. *)
Definition as_name (v : ie_value) : option (list Z) := match v with V_ENBname _ n => Some n | _ => None end.
Definition as_TAs (v : ie_value) : option (list SupportedTAs_Item_t) := match v with V_SupportedTAs l => Some l | _ => None end.
Definition NotConfigured_processMsg (a : nat) (m : S1AP_Message_t) (stream : Z) : S1M bool :=
  set_assoc a (fun x => { x with nonue_rsid := stream }) ;;
  if negb (procedureCode (pdu m) =? id_S1Setup) && negb (choice m =? initiating_message)
  then procedure_name m ;; mret false
  else
    match s1ap_findIe m id_eNBname with
    | None => skip1
    | Some v => match as_name v with Some n => set_assoc a (fun x => { x with eNBname := n }) | None => s1_fault BadCast end
    end ;;
    g ← ie_of m id_Global_ENB_ID as_geNB;
    s1Assoc_setGlobalID a g ;;
    match (s1ap_getIe m id_SupportedTAs).1 with
    | None => set_assoc a (fun x => { x with supportedTAs := None }) ;; mret false
    | Some v =>
      match as_TAs v with
      | None => s1_fault BadCast
      | Some tas =>
        set_assoc a (fun x => { x with supportedTAs := Some tas }) ;;
        mme_registerS1Assoc a ;;
        ok ← s1_lift (mme_containsSupportedTAs tas);
        if ok : bool then
          r ← s1ap_lift (S1SetupResponse mme_name mme_servedGUMMEIs mme_relativeCapacity);
          s1Assoc_sendNonUE a r ;;
          set_assoc a (fun x => { x with a_stateName := S1_Active }) ;;
          mret false
        else
          r ← s1ap_lift S1SetupFailure;
          s1Assoc_sendNonUE a r ;;
          mret true
      end
    end.

(** [g_hash_table_foreach_remove] on the sessions of an association. *)
Fixpoint foreach_remove (a : nat) (f : nat -> S1M unit) (l : list (Z * (nat * nat))) : S1M unit :=
  match l with
  | [] => skip1
  | (k, (_, v)) :: l =>
    f v ;;
    set_assoc a (fun y => { y with ecm_sessions := delete k (ecm_sessions y) }) ;;
    foreach_remove a f l
  end.

(** [process_reset]: the session an item of the list names. *)
Definition reset_session (a : nat) (v : option ie_value) : S1M (option nat) :=
  null v (fun v =>
  match v with
  | V_UE_associatedLogicalS1_ConnectionItem _ opt mme eNB =>
    if (opt .& 0x40) =? 0x40 then null eNB (s1Assoc_getECMSession a)
    else if (opt .& 0x80) =? 0x80 then null mme mme_lookupECM
    else mret None
  | _ => s1_fault BadCast
  end).
Fixpoint reset_list (a : nat) (l : list S1AP_PROTOCOL_IES_t) : S1M unit :=
  match l with
  | [] => skip1
  | IE _ _ _ v :: l =>
    o ← reset_session a v;
    match o with
    | None => skip1
    | Some c =>
      x ← ecm__ c;
      incident_when (negb (bool_decide (c_assoc x = a))) Foreign_reset ;;
      s1Assoc_deregisterECMSession a c ;;
      s1Assoc_resetECM c
    end ;;
    reset_list a l
  end.
Definition as_reset (v : ie_value) : option (Z * ResetType_u) := match v with V_ResetType _ ch t => Some (ch, t) | _ => None end.
Definition process_reset (a : nat) (m : S1AP_Message_t) : S1M unit :=
  '(ch, t) ← ie_of m id_ResetType as_reset;
  l ← (if ch =? 0 then
         y ← assoc_ a; foreach_remove a s1Assoc_resetECM (map_to_list (ecm_sessions y)) ;; mret None
       else if ch =? 1 then
         match t with
         | partOfS1_Interface l => reset_list a l ;; mret (Some l)
         | s1_Interface _ => s1_fault NullDeref
         end
       else mret None);
  r ← s1ap_lift (ResetAcknowledge l);
  s1Assoc_sendNonUE a r.

(** A Path Switch Request names the session by the number of the MME. *)
Definition path_switch (a : nat) (m : S1AP_Message_t) (stream : Z) : S1M unit :=
  i ← ie_of m id_SourceMME_UE_S1AP_ID as_mme_id;
  c ← mme_lookupECM i;
  ecmSession_pathSwitchReq c a m stream.

(** [processMsg] after the setup; the procedures of the management stream that
    are only written to the log are left out. *)
Definition logged_only (m : S1AP_Message_t) : bool :=
  is_msg m id_ErrorIndication initiating_message || is_msg m 40 initiating_message ||
  is_msg m 29 initiating_message || is_msg m 36 successful_outcome || is_msg m 43 successful_outcome.
Definition Active_processMsg (a : nat) (m : S1AP_Message_t) (stream : Z) : S1M unit :=
  x ← assoc_ a;
  if stream =? nonue_rsid x then
    if procedureCode (pdu m) =? id_Reset then process_reset a m
    else if is_msg m id_initialUEMessage initiating_message then _ ← ecmSession_init a m stream; skip1
    else if is_msg m id_PathSwitchRequest initiating_message then path_switch a m stream
    else if logged_only m then skip1
    else procedure_name m
  else if is_msg m id_initialUEMessage initiating_message then _ ← ecmSession_init a m stream; skip1
  else if is_msg m id_PathSwitchRequest initiating_message then path_switch a m stream
  else
    e ← ie_of m id_eNB_UE_S1AP_ID as_eNB_id;
    o ← s1Assoc_getECMSession a e;
    match o with
    | None => skip1
    | Some c =>
      i ← ie_of m id_MME_UE_S1AP_ID as_mme_id;
      x ← ecm__ c;
      if i =? mmeUEId x then ecmSession_processMsg c m stream else skip1
    end.

(** [s1Assoc_free] *)
Definition s1Assoc_free (a : nat) : S1M unit :=
  y ← assoc_ a;
  foreach_remove a mme_deregisterECM (map_to_list (ecm_sessions y)) ;;
  put (fun s => { s with assocs := delete a (assocs s) }).

(** [s1_registerAssoc], [s1_deregisterAssoc] *)
Definition destroy_assoc (o : option nat) : S1M unit :=
  match o with Some a => s1Assoc_free a | None => skip1 end.
Definition s1_registerAssoc (a : nat) : S1M unit :=
  x ← assoc_ a;
  '(t, old) ← g_insert assocs assoc_tab (fd x) a;
  put (fun s => { s with assoc_tab := t }) ;; destroy_assoc old.
Definition s1_deregisterAssoc (a : nat) : S1M unit :=
  x ← assoc_ a;
  '(t, old) ← g_remove assocs assoc_tab (fd x);
  put (fun s => { s with assoc_tab := t }) ;; destroy_assoc old.

(** [s1_accept]: the end of the connection, a message, something that is not
    S1AP. *)
Definition close_assoc (a : nat) : S1M unit :=
  x ← assoc_ a;
  mme_deregisterRead (fd x) ;; mme_deregisterS1Assoc a ;; s1_deregisterAssoc a.
Inductive received := Closed | Not_S1AP | Packet (octets : list Z) (stream : Z).
Definition s1_accept (a : nat) (r : received) : S1M unit :=
  x ← assoc_ a;
  match r with
  | Closed => close_assoc a
  | Not_S1AP => skip1
  | Packet octets stream =>
    m ← s1ap_lift (s1ap_decode octets (Z.of_nat (length octets)));
    err ← match a_stateName x with
          | S1_NotConfigured => NotConfigured_processMsg a m stream
          | S1_Active => Active_processMsg a m stream ;; mret false
          end;
    if err : bool then close_assoc a else skip1
  end.

(** [s1_accept_new_eNB]: [s1Assoc_init] and [s1Assoc_accept], where [f] is what
    the system returned. *)
Definition s1_accept_new_eNB (f : Z) : S1M unit :=
  a ← fresh;
  put (fun s => { s with assocs := <[a := {| fd := f; nonue_rsid := 0; a_stateName := S1_NotConfigured; eNBname := [];
    global_eNB_ID := {| g_plmn := PLMN 0 0 0; g_macroId := false; g_eNBid := 0 |};
    supportedTAs := None; ecm_sessions := ∅ |}]> (assocs s) }) ;;
  if f =? -1 then skip1 else mme_registerRead f a ;; s1_registerAssoc a.

(** ** Paging *)

(** [s1Assoc_containsTA] *)
Fixpoint s1Assoc_containsTA (tas : list SupportedTAs_Item_t) (sn tac : list Z) : outcome bool :=
  match tas with
  | [] => Ok false
  | SupportedTAs_Item _ _ t bc :: tas =>
    if bool_decide (t = tac) then
      match bc with
      | None => UB NullDeref
      | Some (BPLMNs _ l) =>
        if existsb (fun p => bool_decide (plmn_tbc p = sn)) l then Ok true else s1Assoc_containsTA tas sn tac
      end
    else s1Assoc_containsTA tas sn tac
  end.
(** [s1Assoc_paging] and [sendPaging] *)
Definition s1Assoc_paging (a h : nat) : S1M unit :=
  u ← emm_ h;
  x ← assoc_ a;
  let '(sn, tac) := emm_TAI (u_ctx u) in
  null (supportedTAs x) (fun tas =>
  b ← s1_lift (s1Assoc_containsTA tas sn tac);
  if b : bool then
    let guti := emm_GUTI (u_ctx u) in
    m ← s1ap_lift (Paging (emm_IMSI (u_ctx u)) (nth 5 guti 0) (guti_mtmsi guti) sn tac);
    s1Assoc_sendNonUE a m
  else skip1).
(** [mme_paging] *)
Fixpoint page_all (l : list nat) (h : nat) : S1M unit :=
  match l with [] => skip1 | a :: l => s1Assoc_paging a h ;; page_all l h end.
Definition mme_paging (h : nat) : S1M unit :=
  t ← get geNB_tab; page_all ((fun e => e.2.2) <$> map_to_list t) h.

(** ** Stopping (MME.c) *)

(** [mme_stop]: [mme_stopEMM] for every context and [mme_disconnectAssoc] for
    every association. *)
Fixpoint stop_all (l : list nat) : S1M unit :=
  match l with [] => skip1 | h :: l => call_emm h Call_stop ;; stop_all l end.
Fixpoint disconnect_all (l : list ((Z * Z * Z * bool * Z) * (nat * nat))) : S1M unit :=
  match l with
  | [] => skip1
  | (k, (_, a)) :: l =>
    x ← assoc_ a;
    mme_deregisterRead (fd x) ;; s1_deregisterAssoc a ;;
    put (fun s => { s with geNB_tab := delete k (geNB_tab s) }) ;;
    disconnect_all l
  end.
Definition mme_stop : S1M unit :=
  t ← get emm_tab; stop_all ((fun e => e.2.2) <$> map_to_list t) ;;
  t ← get geNB_tab; disconnect_all (map_to_list t).

(** ** Events *)

Inductive s1_event :=
  | Ev_connect (f : Z)                    (* a new association, with descriptor [f] *)
  | Ev_read (f : Z) (r : received)        (* something on descriptor [f] *)
  | Ev_callback (n : nat)                 (* a layer above calls back *)
  | Ev_emm (h : nat) (call : emm_call)    (* a timer or the session management calls the mobility management *)
  | Ev_paging (h : nat)
  | Ev_stop.

Definition take_nth {A} (n : nat) (l : list A) : option (A * list A) :=
  x ← l !! n; Some (x, take n l ++ drop (S n) l).
(** An event that cannot happen does nothing: a descriptor that is not open, a
    callback that nobody has, a context that is not there. *)
Definition s1_handle (e : s1_event) : S1M unit :=
  match e with
  | Ev_connect f => t ← get assoc_tab; match t !! f with Some _ => skip1 | None => s1_accept_new_eNB f end
  | Ev_read f r => t ← get ev_readers; match t !! f with Some a => s1_accept a r | None => skip1 end
  | Ev_callback n =>
    p ← get pending;
    match take_nth n p with
    | None => skip1
    | Some (cb, p) => put (fun s => { s with pending := p }) ;; run_callback cb
    end
  | Ev_emm h call => t ← get emms; match t !! h with Some _ => call_emm h call | None => skip1 end
  | Ev_paging h => t ← get emms; match t !! h with Some _ => mme_paging h | None => skip1 end
  | Ev_stop => mme_stop
  end.
Fixpoint s1_run (es : list s1_event) : S1M unit :=
  match es with [] => skip1 | e :: es => s1_handle e ;; s1_run es end.
End Stack.

Arguments Done {_ _} a s.
Arguments Fault {_ _} l f inc.
