(* ===== verification/S1Safe.v ===== *)
(** Memory safety of the S1 stack: the invariant of its tables, and that an
    object is not used after it was freed unless one of the [incident]s happened. *)
From coqutil Require Import Datatypes.RecordSetters.
From stdpp Require Import gmap.
From S2P Require Import Prelude NASTypes NASDec Timer Subs Session S11Peer MMEUtils S1APTypes S1APDec S1Msg EMMCtx S1Stack.

Section Safe.
Context {ops : EMM_ops} {conf : MMEConf}.

(** ** Reasoning about programs *)

(** What is shown of a program: it ends in a state in which either an incident
    happened or [Q] holds, and it does not use a freed object before an
    incident. *)
Definition wp {A} (m : S1M A) (Q : A -> s1st -> Prop) (s : s1st) : Prop :=
  match m s with
  | Done a s' => incidents s' = [] -> Q a s'
  | Fault l f inc => l = In_S1 -> f = UseAfterFree -> inc <> []
  end.

(** Incidents are not forgotten. *)
Definition mono {A} (m : S1M A) : Prop := forall s, incidents s <> [] ->
  match m s with Done _ s' => incidents s' <> [] | Fault _ _ inc => inc <> [] end.

Lemma wp_conseq {A} (m : S1M A) Q Q' s :
  wp m Q s -> (forall a s', incidents s' = [] -> Q a s' -> Q' a s') -> wp m Q' s.
Proof. unfold wp. destruct (m s); auto. Qed.

Lemma wp_bind {A B} (m : S1M A) (k : A -> S1M B) Q s :
  wp m (fun a s' => wp (k a) Q s') s -> (forall a, mono (k a)) -> wp (m ≫= k) Q s.
Proof.
  unfold wp, mbind, S1M_bind. destruct (m s) as [a s'|]; [|done]. intros H M. specialize (M a s').
  destruct (decide (incidents s' = [])) as [E|E]; [by apply H|]. specialize (M E).
  destruct (k a s'); [intros ?; contradiction|auto].
Qed.

Lemma wp_ret {A} (a : A) Q s : Q a s -> wp (mret a) Q s.
Proof. intros H _. done. Qed.
Lemma wp_get {A} (f : s1st -> A) Q s : Q (f s) s -> wp (get f) Q s.
Proof. intros H _. done. Qed.
Lemma wp_put f Q s : Q tt (f s) -> wp (put f) Q s.
Proof. intros H _. done. Qed.
Lemma wp_deref {X} (heap : s1st -> gmap nat X) h x Q s : heap s !! h = Some x -> Q x s -> wp (deref heap h) Q s.
Proof. unfold wp, deref. intros ->. auto. Qed.
Lemma wp_fault {A} f (Q : A -> _) s : f <> UseAfterFree -> wp (s1_fault f) Q s.
Proof. unfold wp, s1_fault. congruence. Qed.
Lemma wp_null {A X} (o : option X) (k : X -> S1M A) Q s : (forall x, o = Some x -> wp (k x) Q s) -> wp (null o k) Q s.
Proof. destruct o; [by intros H; apply H|]. intros _. by apply wp_fault. Qed.
Lemma wp_s1ap {A} (o : outcome A) Q s : (forall a, o = Ok a -> Q a s) -> wp (s1ap_lift o) Q s.
Proof. unfold wp, s1ap_lift. destruct o; [auto|discriminate]. Qed.
Lemma wp_emm {A} (o : outcome A) Q s : (forall a, o = Ok a -> Q a s) -> wp (from_emm o) Q s.
Proof. unfold wp, from_emm. destruct o; [auto|discriminate]. Qed.
Lemma wp_lift {A} (o : outcome A) Q s : o <> UB UseAfterFree -> (forall a, o = Ok a -> Q a s) -> wp (s1_lift o) Q s.
Proof. unfold wp, s1_lift. destruct o; [auto|]. intros H _ _ ->. done. Qed.
Lemma wp_ie {A} m id (f : ie_value -> option A) Q s : (forall a, Q a s) -> wp (ie_of m id f) Q s.
Proof. intros H. apply wp_null. intros v _. destruct (f v); [by apply wp_ret|by apply wp_fault]. Qed.
Lemma wp_incident i Q s : wp (incident_ i) Q s.
Proof. intros E. by apply app_nil in E as [_ ?]. Qed.
Lemma wp_incident_when b i Q s : (b = false -> Q tt s) -> wp (incident_when b i) Q s.
Proof. destruct b; cbn; [intros _; apply wp_incident|]. intros H. by apply wp_ret, H. Qed.

(** *** Incidents are kept by every operation *)

Lemma mono_bind {A B} (m : S1M A) (k : A -> S1M B) : mono m -> (forall a, mono (k a)) -> mono (m ≫= k).
Proof.
  intros M K s E. unfold mbind, S1M_bind. specialize (M s E). destruct (m s) as [a s'|]; [|done]. by apply (K a s').
Qed.
Lemma mono_ret {A} (a : A) : mono (mret a).
Proof. intros s E. exact E. Qed.
Lemma mono_get {A} (f : s1st -> A) : mono (get f).
Proof. intros s E. exact E. Qed.
Lemma mono_put f : (forall s, incidents (f s) = incidents s) -> mono (put f).
Proof. intros H s E. cbn. by rewrite H. Qed.
Lemma mono_deref {X} (heap : s1st -> gmap nat X) h : mono (deref heap h).
Proof. intros s E. unfold deref. by destruct (heap s !! h). Qed.
Lemma mono_fault {A} f : mono (s1_fault (A := A) f).
Proof. intros s E. exact E. Qed.
Lemma mono_null {A X} (o : option X) (k : X -> S1M A) : (forall x, mono (k x)) -> mono (null o k).
Proof. destruct o; [intros H; apply H|]. intros _. apply mono_fault. Qed.
Lemma mono_s1ap {A} (o : outcome A) : mono (s1ap_lift o).
Proof. intros s E. unfold s1ap_lift. by destruct o. Qed.
Lemma mono_emm {A} (o : outcome A) : mono (from_emm o).
Proof. intros s E. unfold from_emm. by destruct o. Qed.
Lemma mono_lift {A} (o : outcome A) : mono (s1_lift o).
Proof. intros s E. unfold s1_lift. by destruct o. Qed.
Lemma mono_fresh : mono fresh.
Proof. intros s E. exact E. Qed.
Lemma mono_incident i : mono (incident_ i).
Proof. intros s E. change (incidents s ++ [i] <> []). by destruct (incidents s). Qed.

Create HintDb s1mono discriminated.
Hint Constants Opaque : s1mono.
Ltac mono_step :=
  match goal with
  | |- forall _, _ => intro
  | |- mono (match ?x with _ => _ end) => destruct x
  | |- mono (let '(_, _) := ?x in _) => destruct x
  | |- mono _ => first
    [ assumption | solve [eauto 3 with s1mono nocore] | apply mono_bind | apply mono_ret | apply mono_get | apply mono_deref | apply mono_fault | apply mono_null
    | apply mono_s1ap | apply mono_emm | apply mono_lift | apply mono_fresh | apply mono_incident
    | apply mono_put; reflexivity ]
  end.
Ltac mono_tac := repeat mono_step.

Lemma mono_incident_when b i : mono (incident_when b i).
Proof. destruct b; cbn; mono_tac. Qed.
Hint Resolve mono_incident_when : s1mono.
Lemma mono_set_ecm c f : mono (set_ecm c f).
Proof. unfold set_ecm, ecm__. mono_tac. Qed.
Lemma mono_set_assoc c f : mono (set_assoc c f).
Proof. unfold set_assoc, assoc_. mono_tac. Qed.
Lemma mono_set_emm c f : mono (set_emm c f).
Proof. unfold set_emm, emm_. mono_tac. Qed.
Hint Resolve mono_set_ecm mono_set_assoc mono_set_emm : s1mono.
Section Tables.
Context {K X : Type} `{Countable K} (heap : s1st -> gmap nat X) (tab : s1st -> gtable K).
Lemma mono_g_lookup k : mono (g_lookup heap tab k).
Proof. unfold g_lookup. mono_tac. Qed.
Lemma mono_g_insert k h : mono (g_insert heap tab k h).
Proof. unfold g_insert. mono_tac. Qed.
Lemma mono_g_remove k : mono (g_remove heap tab k).
Proof. unfold g_remove. mono_tac. Qed.
End Tables.
Hint Resolve mono_g_lookup mono_g_insert mono_g_remove : s1mono.
Lemma mono_ie {A} m id (f : ie_value -> option A) : mono (ie_of m id f).
Proof. unfold ie_of. mono_tac. Qed.
Hint Resolve mono_ie : s1mono.
Tactic Notation "mono_unfold" reference(f) := unfold f, ecm__, assoc_, emm_, skip1; mono_tac.
Lemma mono_newLocalUEid : mono mme_newLocalUEid.
Proof. mono_unfold mme_newLocalUEid. Qed.
Lemma mono_registerS1Assoc a : mono (mme_registerS1Assoc a).
Proof. mono_unfold mme_registerS1Assoc. Qed.
Lemma mono_deregisterS1Assoc a : mono (mme_deregisterS1Assoc a).
Proof. mono_unfold mme_deregisterS1Assoc. Qed.
Lemma mono_registerEMMCtxt h t : mono (mme_registerEMMCtxt h t).
Proof. mono_unfold mme_registerEMMCtxt. Qed.
Lemma mono_first_IMSI i l : mono (first_IMSI i l).
Proof. induction l as [|[? []] l IH]; cbn [first_IMSI]; mono_unfold emm_. Qed.
Hint Resolve mono_first_IMSI : s1mono.
Lemma mono_lookup_byIMSI i : mono (mme_lookupEMMCtxt_byIMSI i).
Proof. mono_unfold mme_lookupEMMCtxt_byIMSI. Qed.
Lemma mono_send a n m : mono (s1Assoc_send a n m).
Proof. mono_unfold s1Assoc_send. Qed.
Hint Resolve mono_newLocalUEid mono_registerS1Assoc mono_deregisterS1Assoc mono_registerEMMCtxt mono_lookup_byIMSI mono_send : s1mono.
Lemma mono_sendNonUE a m : mono (s1Assoc_sendNonUE a m).
Proof. mono_unfold s1Assoc_sendNonUE. Qed.
Lemma mono_log c : mono (ecm_log c).
Proof. mono_unfold ecm_log. Qed.
Lemma mono_emit x m : mono (ecm_emit x m).
Proof. mono_unfold ecm_emit. Qed.
Hint Resolve mono_sendNonUE mono_log mono_emit : s1mono.
Lemma mono_release o ch c : mono (ecm_sendUEContextReleaseCommand o ch c).
Proof. mono_unfold ecm_sendUEContextReleaseCommand. Qed.
Hint Resolve mono_release : s1mono.
Lemma mono_ecm_send o msg : mono (ecm_send o msg).
Proof. mono_unfold ecm_send. Qed.
Lemma mono_ctxtSUReq o b msg k : mono (ecm_sendCtxtSUReq o b msg k).
Proof. mono_unfold ecm_sendCtxtSUReq. Qed.
Lemma mono_skip : mono skip1.
Proof. apply mono_ret. Qed.
Lemma mono_assoc a : mono (assoc_ a).
Proof. apply mono_deref. Qed.
Lemma mono_ecm c : mono (ecm__ c).
Proof. apply mono_deref. Qed.
Lemma mono_emm_ h : mono (emm_ h).
Proof. apply mono_deref. Qed.
Lemma mono_freeID i : mono (mme_freeLocalUEid i).
Proof. by apply mono_put. Qed.
Lemma mono_registerRead f a : mono (mme_registerRead f a).
Proof. by apply mono_put. Qed.
Lemma mono_deregisterRead f : mono (mme_deregisterRead f).
Proof. by apply mono_put. Qed.
Hint Resolve mono_ecm_send mono_ctxtSUReq mono_skip mono_assoc mono_ecm mono_emm_ mono_freeID mono_registerRead
  mono_deregisterRead : s1mono.
Lemma mono_run_out h o : mono (run_out h o).
Proof. mono_unfold run_out. Qed.
Hint Resolve mono_run_out : s1mono.
Lemma mono_run_outs h l : mono (run_outs h l).
Proof. induction l; cbn [run_outs]; unfold skip1; mono_tac. Qed.
Hint Resolve mono_run_outs : s1mono.
Lemma mono_view o : mono (view_of o).
Proof. mono_unfold view_of. Qed.
Hint Resolve mono_view : s1mono.
Lemma mono_call h c : mono (call_emm h c).
Proof. mono_unfold call_emm. Qed.
Hint Resolve mono_call : s1mono.
Lemma mono_emm_init c : mono (new_emm c).
Proof. mono_unfold new_emm. Qed.
Lemma mono_emm_registerECM h c : mono (attach_emm h c).
Proof. mono_unfold attach_emm. Qed.
Lemma mono_emm_deregister h : mono (detach_emm h).
Proof. mono_unfold detach_emm. Qed.
Lemma mono_registerECMSession a c : mono (s1Assoc_registerECMSession a c).
Proof. mono_unfold s1Assoc_registerECMSession. Qed.
Lemma mono_deregisterECMSession a c : mono (s1Assoc_deregisterECMSession a c).
Proof. mono_unfold s1Assoc_deregisterECMSession. Qed.
Lemma mono_getECMSession a i : mono (s1Assoc_getECMSession a i).
Proof. mono_unfold s1Assoc_getECMSession. Qed.
Hint Resolve mono_emm_init mono_emm_registerECM mono_emm_deregister mono_registerECMSession mono_deregisterECMSession
  mono_getECMSession : s1mono.
Lemma mono_ecmSession_free c : mono (ecmSession_free c).
Proof. mono_unfold ecmSession_free. Qed.
Hint Resolve mono_ecmSession_free : s1mono.
Lemma mono_registerECM c : mono (mme_registerECM c).
Proof. mono_unfold mme_registerECM; unfold destroy_ecm, skip1; mono_tac. Qed.
Lemma mono_deregisterECM c : mono (mme_deregisterECM c).
Proof. mono_unfold mme_deregisterECM; unfold destroy_ecm, skip1; mono_tac. Qed.
Lemma mono_lookupECM i : mono (mme_lookupECM i).
Proof. mono_unfold mme_lookupECM. Qed.
Lemma mono_find_emm m : mono (find_emm m).
Proof. mono_unfold find_emm; unfold mme_lookupEMMCtxt; mono_tac. Qed.
Lemma mono_setTAI c m : mono (ecm_setTAI c m).
Proof. mono_unfold ecm_setTAI. Qed.
Lemma mono_attach c o : mono (ecm_attach c o).
Proof. mono_unfold ecm_attach. Qed.
Lemma mono_wait cb : mono (wait cb).
Proof. mono_unfold wait. Qed.
Hint Resolve mono_registerECM mono_deregisterECM mono_lookupECM mono_find_emm mono_setTAI mono_attach mono_wait : s1mono.
Lemma mono_Idle c m n : mono (Idle_processMsg c m n).
Proof. mono_unfold Idle_processMsg. Qed.
Lemma mono_ids x m : mono (ids_match x m).
Proof. mono_unfold ids_match. Qed.
Lemma mono_release_req c m : mono (ecm_UEContextRelease c m).
Proof. mono_unfold ecm_UEContextRelease. Qed.
Hint Resolve mono_Idle mono_ids mono_release_req : s1mono.
Lemma mono_Connected c m n : mono (Connected_processMsg c m n).
Proof. mono_unfold Connected_processMsg. Qed.
Hint Resolve mono_Connected : s1mono.
Lemma mono_processMsg c m n : mono (ecmSession_processMsg c m n).
Proof. mono_unfold ecmSession_processMsg. Qed.
Hint Resolve mono_processMsg : s1mono.
Lemma mono_ecmSession_init a m n : mono (ecmSession_init a m n).
Proof. mono_unfold ecmSession_init. Qed.
Lemma mono_resetECM c : mono (s1Assoc_resetECM c).
Proof. unfold s1Assoc_resetECM. mono_unfold ecmSession_reset. Qed.
Lemma mono_pathSwitchReq o a m n : mono (ecmSession_pathSwitchReq o a m n).
Proof. mono_unfold ecmSession_pathSwitchReq. Qed.
Lemma mono_destroy_ecm o : mono (destroy_ecm o).
Proof. mono_unfold destroy_ecm. Qed.
Lemma mono_reset c : mono (ecmSession_reset c).
Proof. mono_unfold ecmSession_reset. Qed.
Lemma mono_callback cb : mono (run_callback cb).
Proof. unfold run_callback, ecmSession_sendPathSwitchReqAck. mono_unfold sendUEContextReleaseCommand. Qed.
Lemma mono_reset_session a v : mono (reset_session a v).
Proof. mono_unfold reset_session. Qed.
Hint Resolve mono_destroy_ecm mono_reset mono_reset_session : s1mono.
Hint Resolve mono_ecmSession_init mono_resetECM mono_pathSwitchReq mono_callback : s1mono.
Lemma mono_foreach a f l : (forall c, mono (f c)) -> mono (foreach_remove a f l).
Proof. intros M. induction l as [|[k [o v]] l IH]; cbn [foreach_remove]; unfold skip1; mono_tac. Qed.
Lemma mono_reset_list a l : mono (reset_list a l).
Proof. induction l as [|[id c p v] l IH]; cbn [reset_list]; mono_unfold reset_session. Qed.
Hint Resolve mono_foreach mono_reset_list : s1mono.
Lemma mono_process_reset a m : mono (process_reset a m).
Proof. mono_unfold process_reset. Qed.
Lemma mono_path_switch a m n : mono (path_switch a m n).
Proof. mono_unfold path_switch. Qed.
Lemma mono_name m : mono (procedure_name m).
Proof. mono_unfold procedure_name. Qed.
Hint Resolve mono_process_reset mono_path_switch mono_name : s1mono.
Lemma mono_Active a m n : mono (Active_processMsg a m n).
Proof. mono_unfold Active_processMsg. Qed.
Lemma mono_setGlobalID a g : mono (s1Assoc_setGlobalID a g).
Proof. mono_unfold s1Assoc_setGlobalID. Qed.
Hint Resolve mono_Active mono_setGlobalID : s1mono.
Lemma mono_NotConfigured a m n : mono (NotConfigured_processMsg a m n).
Proof. mono_unfold NotConfigured_processMsg. Qed.
Lemma mono_s1Assoc_free a : mono (s1Assoc_free a).
Proof. mono_unfold s1Assoc_free. Qed.
Hint Resolve mono_NotConfigured mono_s1Assoc_free : s1mono.
Lemma mono_registerAssoc a : mono (s1_registerAssoc a).
Proof. mono_unfold s1_registerAssoc; unfold destroy_assoc, skip1; mono_tac. Qed.
Lemma mono_deregisterAssoc a : mono (s1_deregisterAssoc a).
Proof. mono_unfold s1_deregisterAssoc; unfold destroy_assoc, skip1; mono_tac. Qed.
Hint Resolve mono_registerAssoc mono_deregisterAssoc : s1mono.
Lemma mono_destroy_assoc o : mono (destroy_assoc o).
Proof. mono_unfold destroy_assoc. Qed.
Hint Resolve mono_destroy_assoc : s1mono.
Lemma mono_paging a h : mono (s1Assoc_paging a h).
Proof. mono_unfold s1Assoc_paging. Qed.
Lemma mono_page_all l h : mono (page_all l h).
Proof. induction l; cbn [page_all]; unfold skip1; mono_tac. Qed.
Lemma mono_stop_all l : mono (stop_all l).
Proof. induction l; cbn [stop_all]; unfold skip1; mono_tac. Qed.
Lemma mono_disconnect_all l : mono (disconnect_all l).
Proof. induction l as [|[k [o v]] l IH]; cbn [disconnect_all]; unfold skip1, mme_deregisterRead, assoc_; mono_tac. Qed.
Lemma mono_close a : mono (close_assoc a).
Proof. mono_unfold close_assoc; unfold mme_deregisterRead; mono_tac. Qed.
Hint Resolve mono_page_all mono_stop_all mono_disconnect_all mono_close : s1mono.
Lemma mono_accept a r : mono (s1_accept a r).
Proof. mono_unfold s1_accept. Qed.
Lemma mono_handle e : mono (s1_handle e).
Proof.
  mono_unfold s1_handle; unfold s1_accept_new_eNB, mme_registerRead, mme_paging, mme_stop, skip1; mono_tac.

Qed.

(** *** Derived rules *)

Lemma wp_fresh Q s : Q (next s) { s with next := S (next s) } -> wp fresh Q s.
Proof. intros H _. exact H. Qed.
Lemma wp_set_ecm c f x Q s : ecms s !! c = Some x ->
  Q tt { s with ecms := <[c := f x]> (ecms s) } -> wp (set_ecm c f) Q s.
Proof. intros E H. apply wp_bind; [|mono_tac]. eapply wp_deref; [done|]. by apply wp_put. Qed.
Lemma wp_set_assoc c f x Q s : assocs s !! c = Some x ->
  Q tt { s with assocs := <[c := f x]> (assocs s) } -> wp (set_assoc c f) Q s.
Proof. intros E H. apply wp_bind; [|mono_tac]. eapply wp_deref; [done|]. by apply wp_put. Qed.
Lemma wp_set_emm c f x Q s : emms s !! c = Some x ->
  Q tt { s with emms := <[c := f x]> (emms s) } -> wp (set_emm c f) Q s.
Proof. intros E H. apply wp_bind; [|mono_tac]. eapply wp_deref; [done|]. by apply wp_put. Qed.

(** ** The invariant *)

(** A session or an entry that is being made or removed: a session that is not in
    the table of its association, an entry whose session is gone, a session that
    is not in the table of the MME, an association that is being configured and
    an entry of an association that is gone. *)
Record exc := { unreg : option nat; gone : option (nat * Z); newborn : option nat; configured : option nat;
                egone : option (Z * Z * Z * bool * Z) }.
Definition none : exc := {| unreg := None; gone := None; newborn := None; configured := None; egone := None |}.

Definition active (X : exc) (h : nat) (a : S1Assoc_t) : Prop := a_stateName a = S1_Active \/ configured X = Some h.

Record Main (X : exc) (s : s1st) : Prop := {
  m_assoc c x : ecms s !! c = Some x -> is_Some (assocs s !! c_assoc x);
  m_reg c x a : ecms s !! c = Some x -> unreg X <> Some c -> assocs s !! c_assoc x = Some a ->
    ecm_sessions a !! eNBUEId x = Some (c, c);
  m_entry h a k o v : assocs s !! h = Some a -> ecm_sessions a !! k = Some (o, v) -> gone X <> Some (h, k) ->
    o = v /\ exists x, ecms s !! v = Some x /\ c_assoc x = h /\ eNBUEId x = k;
  m_tab k o v : ecm_tab s !! k = Some (o, v) -> o = v /\ exists x, ecms s !! v = Some x /\ mmeUEId x = k;
  m_intab c x : ecms s !! c = Some x -> newborn X <> Some c -> ecm_tab s !! mmeUEId x = Some (c, c);
  m_ids i : i ∈ localIDs s <-> exists c x, ecms s !! c = Some x /\ mmeUEId x = i;
  m_unique c x c' x' : ecms s !! c = Some x -> ecms s !! c' = Some x' -> mmeUEId x = mmeUEId x' -> c = c';
  m_emm c x h : ecms s !! c = Some x -> c_emm x = Some h -> is_Some (emms s !! h);
  m_ecm h u c : emms s !! h = Some u -> u_ecm u = Some c -> exists x, ecms s !! c = Some x /\ c_emm x = Some h;
  m_fd k o v : assoc_tab s !! k = Some (o, v) -> o = v /\ exists a, assocs s !! v = Some a /\ fd a = k;
  m_read k v : ev_readers s !! k = Some v -> assoc_tab s !! k = Some (v, v);
  m_geNB k o v h : geNB_tab s !! k = Some (o, v) -> egone X <> Some k -> h = o \/ h = v ->
    exists a, assocs s !! h = Some a /\ geNB_key (global_eNB_ID a) = k /\ active X h a /\ assoc_tab s !! fd a = Some (h, h);
  m_wait cb c : cb ∈ pending s -> waits_for c cb = true -> is_Some (ecms s !! c);
  m_next h : (next s <= h)%nat -> assocs s !! h = None /\ ecms s !! h = None /\ emms s !! h = None;
}.

(** The contexts of the table by M-TMSI. *)
Definition Ctxs (s : s1st) : Prop := forall k o v, emm_tab s !! k = Some (o, v) -> is_Some (emms s !! o) /\ is_Some (emms s !! v).

(** What the mobility management leaves as it is. *)
Record frame (s s' : s1st) : Prop := {
  f_ecms : ecms s' = ecms s; f_assocs : assocs s' = assocs s; f_tab : ecm_tab s' = ecm_tab s;
  f_ids : localIDs s' = localIDs s; f_fd : assoc_tab s' = assoc_tab s; f_geNB : geNB_tab s' = geNB_tab s;
  f_read : ev_readers s' = ev_readers s; f_wait : pending s' = pending s; f_next : next s' = next s;
  f_emms : u_ecm <$> emms s' = u_ecm <$> emms s;
}.
#[local] Instance frame_refl : Reflexive frame.
Proof. by constructor. Qed.
#[local] Instance frame_trans : Transitive frame.
Proof. intros s1 s2 s3 [] []. constructor; congruence. Qed.

Lemma frame_lookup s s' h u : frame s s' -> emms s' !! h = Some u -> exists u', emms s !! h = Some u' /\ u_ecm u' = u_ecm u.
Proof.
  intros F E. pose proof (f_equal (fun m => m !! h) (f_emms _ _ F)) as G. cbn in G. rewrite !lookup_fmap, E in G. cbn in G.
  destruct (emms s !! h) as [u'|]; [|done]. injection G as G. eauto.
Qed.
Lemma frame_sym s s' : frame s s' -> frame s' s.
Proof. intros []. by constructor. Qed.
Lemma frame_live s s' h : frame s s' -> is_Some (emms s !! h) -> is_Some (emms s' !! h).
Proof. intros F [u E]. apply (frame_lookup s' s) in E as (u' & -> & _); [done|by apply frame_sym]. Qed.

Lemma Main_frame X s s' : frame s s' -> Main X s -> Main X s'.
Proof.
  intros F I. pose proof F as [E1 E2 E3 E4 E5 E6 E7 E8 E9 _].
  constructor; rewrite ?E1, ?E2, ?E3, ?E4, ?E5, ?E6, ?E7, ?E8, ?E9; try apply I.
  - intros c x h H1 H2. eapply frame_live; [done|]. by eapply m_emm.
  - intros h u c H1 H2. apply (frame_lookup s) in H1 as (u' & H1 & H3); [|done]. eapply m_ecm; [done..|]. congruence.
  - intros h L. apply (m_next _ _ I) in L as (L1 & L2 & L3). split_and!; [done..|].
    destruct (emms s' !! h) eqn:E; [|done]. apply (frame_lookup s) in E as (? & ? & _); [congruence|done].
Qed.

(** ** The mobility management *)

Ltac wstep :=
  cbv beta;
  match goal with
  | |- wp (_ ≫= _) _ _ => apply wp_bind; [|solve [mono_tac]]
  | |- wp (mret _) _ _ => apply wp_ret
  | |- wp skip1 _ _ => apply wp_ret
  | |- wp (get _) _ _ => apply wp_get
  | |- wp (put _) _ _ => apply wp_put
  | |- wp (null _ _) _ _ => apply wp_null; intros
  | |- wp (s1ap_lift _) _ _ => apply wp_s1ap; intros
  | |- wp (from_emm _) _ _ => apply wp_emm; intros
  | |- wp (ie_of _ _ _) _ _ => apply wp_ie; intros
  | |- wp (s1_fault _) _ _ => apply wp_fault; discriminate
  | |- wp (incident_ _) _ _ => apply wp_incident
  | |- wp (incident_when _ _) _ _ => apply wp_incident_when; intros
  | |- wp (assoc_ _) _ _ => unfold assoc_
  | |- wp (emm_ _) _ _ => unfold emm_
  | |- wp (ecm__ _) _ _ => unfold ecm__
  | H : ?heap _ !! ?h = Some _ |- wp (deref ?heap ?h) _ _ => eapply wp_deref; [exact H|]
  | |- wp (let '(_, _) := ?p in _) _ _ => destruct p
  | |- wp (match ?x with _ => _ end) _ _ => destruct x eqn:?
  end.

(** Only messages were sent. *)
Definition quiet (s s' : s1st) : Prop := exists l, s' = { s with sent := l }.
Lemma quiet_refl s : quiet s s.
Proof. exists (sent s). by destruct s. Qed.
Lemma quiet_frame s s' : quiet s s' -> frame s s'.
Proof. intros [l ->]. by constructor. Qed.
Lemma quiet_Ctxs s s' : quiet s s' -> Ctxs s -> Ctxs s'.
Proof. by intros [l ->]. Qed.

Lemma send_spec a n m s : is_Some (assocs s !! a) -> wp (s1Assoc_send a n m) (fun _ => quiet s) s.
Proof. intros [x E]. unfold s1Assoc_send. repeat wstep. eexists. reflexivity. Qed.
Lemma sendNonUE_spec a m s : is_Some (assocs s !! a) -> wp (s1Assoc_sendNonUE a m) (fun _ => quiet s) s.
Proof. intros [x E]. unfold s1Assoc_sendNonUE. repeat wstep. by apply send_spec. Qed.
Lemma log_spec X c x s : Main X s -> ecms s !! c = Some x -> wp (ecm_log c) (fun _ => quiet s) s.
Proof. intros I E. destruct (m_assoc _ _ I _ _ E). unfold ecm_log. repeat wstep. apply quiet_refl. Qed.
Lemma emit_spec X c x m s : Main X s -> ecms s !! c = Some x -> wp (ecm_emit x m) (fun _ => quiet s) s.
Proof. intros I E. unfold ecm_emit. repeat wstep. apply send_spec. by eapply m_assoc. Qed.

(** The session of a context. *)
Definition of_emm (s : s1st) (o : option nat) : Prop :=
  match o with None => True | Some c => exists x, ecms s !! c = Some x end.
Lemma of_emm_ecm X h u s : Main X s -> emms s !! h = Some u -> of_emm s (u_ecm u).
Proof. intros I E. destruct (u_ecm u) eqn:Eu; cbn; [|done]. destruct (m_ecm _ _ I _ _ _ E Eu) as (x & ? & _). eauto. Qed.

Lemma release_spec X o ch c s : Main X s -> of_emm s o -> wp (ecm_sendUEContextReleaseCommand o ch c) (fun _ => quiet s) s.
Proof.
  intros I H. destruct o as [k|]; cbn [ecm_sendUEContextReleaseCommand]; [destruct H as [x E]|]; repeat wstep; [..|apply quiet_refl].
  - by eapply log_spec.
  - by eapply emit_spec.
Qed.

Lemma run_out_spec X h o s : Main X s -> Ctxs s -> is_Some (emms s !! h) ->
  wp (run_out h o) (fun _ s' => frame s s' /\ Ctxs s') s.
Proof.
  intros I C [u E]. pose proof (of_emm_ecm _ _ _ _ I E) as O. unfold run_out. do 3 wstep. cbv beta.
  assert (Q : forall m : S1M unit, wp m (fun _ => quiet s) s -> wp m (fun _ s' => frame s s' /\ Ctxs s') s).
  { intros m W. eapply wp_conseq; [done|]. intros [] s' _ Hq. split; [by apply quiet_frame|by eapply quiet_Ctxs]. }
  destruct o; match goal with |- wp (mme_registerEMMCtxt _ _) _ _ => idtac | _ => apply Q end; repeat wstep; try apply quiet_refl.
  - destruct (u_ecm u) as [c|]; [destruct O as [x Ex]|]; cbn [ecm_send]; repeat wstep; [|apply quiet_refl]. by eapply emit_spec.
  - by eapply release_spec.
  - destruct (u_ecm u) as [c|]; [destruct O as [x Ex]|]; cbn [ecm_sendCtxtSUReq]; repeat wstep; [|apply quiet_refl].
    destruct (m_emm _ _ I _ _ _ Ex H) as [u' E']. repeat wstep. by eapply emit_spec.
  - unfold mme_registerEMMCtxt, g_insert. repeat wstep.
    + destruct (C _ _ _ Heqo) as [[uo Eo] _]. repeat wstep.
    + split; [done|]. intros k o v Hk. destruct (decide (k = mtmsi)) as [->|N].
      * change (<[mtmsi := (h, h)]> (emm_tab s) !! mtmsi = Some (o, v)) in Hk. rewrite lookup_insert_eq in Hk. injection Hk as <- <-. eauto.
      * change (<[mtmsi := (h, h)]> (emm_tab s) !! k = Some (o, v)) in Hk. rewrite lookup_insert_ne in Hk by done. by apply (C _ _ _ Hk).
Qed.

Lemma run_outs_spec X h l : forall s, Main X s -> Ctxs s -> is_Some (emms s !! h) ->
  wp (run_outs h l) (fun _ s' => frame s s' /\ Ctxs s') s.
Proof.
  induction l as [|o l IH]; intros s I C E; cbn [run_outs]; repeat wstep; [by split|].
  eapply wp_conseq; [by eapply run_out_spec|]. intros [] s1 _ [F1 C1].
  eapply wp_conseq; [apply IH; [by eapply Main_frame|done|by eapply frame_live]|]. intros [] s2 _ [F2 C2]. split; [by etrans|done].
Qed.

Lemma emms_frame s h u u' : emms s !! h = Some u -> u_ecm u' = u_ecm u -> frame s { s with emms := <[h := u']> (emms s) }.
Proof.
  intros E H. constructor; try reflexivity. change (u_ecm <$> <[h := u']> (emms s) = u_ecm <$> emms s).
  rewrite fmap_insert, H. apply insert_id. by rewrite lookup_fmap, E.
Qed.
Lemma emms_Ctxs s h u : Ctxs s -> Ctxs { s with emms := <[h := u]> (emms s) }.
Proof.
  intros C k o v H. destruct (C _ _ _ H). change (is_Some (<[h := u]> (emms s) !! o) /\ is_Some (<[h := u]> (emms s) !! v)).
  rewrite !lookup_insert_is_Some'. auto.
Qed.

Lemma view_spec o Q s : of_emm s o -> (forall v, Q v s) -> wp (view_of o) Q s.
Proof. intros O H. destruct o; cbn [view_of]; [destruct O|]; repeat wstep; apply H. Qed.

Lemma call_spec X h call s : Main X s -> Ctxs s -> is_Some (emms s !! h) ->
  wp (call_emm h call) (fun _ s' => frame s s' /\ Ctxs s') s.
Proof.
  intros I C [u E]. unfold call_emm. do 3 wstep. wstep. apply view_spec; [by eapply of_emm_ecm|]. intros v. repeat wstep.
  eapply wp_set_emm; [done|]. eapply wp_conseq; [eapply run_outs_spec|].
  - eapply Main_frame; [by eapply emms_frame|done].
  - by apply emms_Ctxs.
  - apply lookup_insert_is_Some'. by left.
  - intros [] s2 _ [F2 C2]. split; [|done]. etrans; [|done]. by eapply emms_frame.
Qed.

(** ** Changes of the state that keep the invariant *)

Definition weaker (X X' : exc) : Prop :=
  (unreg X = None \/ unreg X' = unreg X) /\ (gone X = None \/ gone X' = gone X) /\ (newborn X = None \/ newborn X' = newborn X) /\
  (configured X = None \/ configured X' = configured X) /\ (egone X = None \/ egone X' = egone X).
Lemma Main_weaken X X' s : weaker X X' -> Main X s -> Main X' s.
Proof.
  intros (W1 & W2 & W3 & W4 & W5) I. constructor; try apply I.
  - intros. eapply (m_reg _ _ I); [done..| |done]. intros E. destruct W1; congruence.
  - intros. eapply (m_entry _ _ I); [done..|]. intros E. destruct W2; congruence.
  - intros. eapply (m_intab _ _ I); [done..|]. intros E. destruct W3; congruence.
  - intros k o v h H1 H2 H3. destruct (m_geNB _ _ I k o v h H1) as (a & ? & ? & A & T); [intros E; destruct W5; congruence|done|].
    exists a. split_and!; [done..| |done]. destruct A as [A|A]; [by left|right]. destruct W4; congruence.
Qed.
Lemma none_weaker X : weaker none X.
Proof. repeat split; by left. Qed.

(** Fields of a session that the tables do not depend on. *)
Record same_ecm (x y : ECMSession_t) : Prop := {
  se_assoc : c_assoc y = c_assoc x; se_emm : c_emm y = c_emm x; se_mme : mmeUEId y = mmeUEId x; se_eNB : eNBUEId y = eNBUEId x }.
(** A session in no table of an association. *)
Definition nowhere (c : nat) (s : s1st) : Prop := forall h a k o, assocs s !! h = Some a -> ecm_sessions a !! k <> Some (o, c).

Lemma ecm_insert (s : s1st) c y d z : <[c := y]> (ecms s) !! d = Some z ->
  (d = c /\ z = y) \/ (d <> c /\ ecms s !! d = Some z).
Proof. rewrite lookup_insert_Some. intros [[-> ->]|[]]; auto. Qed.

Lemma Main_ecm X s c x y : Main X s -> ecms s !! c = Some x ->
  c_emm y = c_emm x -> mmeUEId y = mmeUEId x -> is_Some (assocs s !! c_assoc y) ->
  (same_ecm x y \/ unreg X = Some c /\ nowhere c s) -> Main X { s with ecms := <[c := y]> (ecms s) }.
Proof.
  intros I E Ee Em Ea W. set (s' := { s with ecms := <[c := y]> (ecms s) }).
  assert (L : forall d z, ecms s' !! d = Some z -> exists z', ecms s !! d = Some z' /\ c_emm z = c_emm z' /\ mmeUEId z = mmeUEId z').
  { intros d z H. apply ecm_insert in H as [[-> ->]|[? H]]; eauto. }
  assert (L' : forall d z, ecms s !! d = Some z -> exists z', ecms s' !! d = Some z' /\ c_emm z' = c_emm z /\ mmeUEId z' = mmeUEId z).
  { intros d z H. destruct (decide (d = c)) as [->|N].
    - exists y. rewrite E in H. injection H as ->. split; [apply lookup_insert_eq|done].
    - exists z. split; [|done]. change (<[c := y]> (ecms s) !! d = Some z). by rewrite lookup_insert_ne. }
  constructor; try apply I.
  - intros d z H. apply ecm_insert in H as [[-> ->]|[? H]]; [done|]. by eapply (m_assoc _ _ I).
  - intros d z a H U A. apply ecm_insert in H as [[-> ->]|[? H]]; [|by eapply (m_reg _ _ I)].
    destruct W as [[W1 W2 W3 W4]|[W _]]; [|done]. rewrite W4. rewrite W1 in A. by eapply (m_reg _ _ I).
  - intros h a k o v A K G. destruct (m_entry _ _ I _ _ _ _ _ A K G) as (-> & z & H & Z1 & Z2). split; [done|].
    destruct (decide (v = c)) as [->|N].
    + destruct W as [[W1 W2 W3 W4]|[_ W]]; [|by destruct (W _ _ _ _ A K)].
      exists y. rewrite E in H. injection H as ->. split_and!; [apply lookup_insert_eq|congruence..].
    + exists z. split_and!; [|done..]. change (<[c := y]> (ecms s) !! v = Some z). by rewrite lookup_insert_ne.
  - intros k o v H. destruct (m_tab _ _ I _ _ _ H) as (-> & z & Hz & Hk). split; [done|].
    destruct (L' _ _ Hz) as (z' & ? & _ & ?). exists z'. split; [done|congruence].
  - intros d z H N. destruct (L _ _ H) as (z' & H' & _ & ->). by eapply (m_intab _ _ I).
  - intros i. etrans; [apply (m_ids _ _ I i)|]. split; intros (d & z & H & <-).
    + destruct (L' _ _ H) as (z' & ? & _ & ?). eauto.
    + destruct (L _ _ H) as (z' & ? & _ & ?). eauto.
  - intros d z d' z' H H' Q. destruct (L _ _ H) as (w & Hw & _ & ?), (L _ _ H') as (w' & Hw' & _ & ?).
    eapply (m_unique _ _ I); [done..|congruence].
  - intros d z h H Q. destruct (L _ _ H) as (w & Hw & ? & _). eapply (m_emm _ _ I); [done..|congruence].
  - intros h u d H Q. destruct (m_ecm _ _ I _ _ _ H Q) as (z & Hz & Qz). destruct (L' _ _ Hz) as (z' & ? & ? & _).
    exists z'. split; [done|congruence].
  - intros cb d H Q. destruct (m_wait _ _ I _ _ H Q) as [z Hz]. destruct (L' _ _ Hz) as (z' & ? & _). eauto.
  - intros h N. destruct (m_next _ _ I _ N) as (? & ? & ?). split_and!; [done| |done].
    change (<[c := y]> (ecms s) !! h = None). rewrite lookup_insert_ne; [done|]. intros ->. congruence.
Qed.
Lemma same_live X s x y c : Main X s -> ecms s !! c = Some x -> same_ecm x y -> is_Some (assocs s !! c_assoc y).
Proof. intros I E [-> _ _ _]. by eapply (m_assoc _ _ I). Qed.
Lemma Main_same X s c x y : Main X s -> ecms s !! c = Some x -> same_ecm x y -> Main X { s with ecms := <[c := y]> (ecms s) }.
Proof.
  intros I E S. eapply Main_ecm; [done..|by destruct S|by destruct S|by eapply same_live|by left].
Qed.

(** A context and its session are tied together. *)
Lemma Main_u_ecm X s h u : Main X s -> (h < next s)%nat ->
  (forall c, u_ecm u = Some c -> exists x, ecms s !! c = Some x /\ c_emm x = Some h) ->
  Main X { s with emms := <[h := u]> (emms s) }.
Proof.
  intros I L U. constructor; try apply I.
  - intros c x h' H Q. apply lookup_insert_is_Some'. right. by eapply (m_emm _ _ I).
  - intros h' u' c H Q. change (<[h := u]> (emms s) !! h' = Some u') in H.
    apply lookup_insert_Some in H as [[<- <-]|[_ H]]; [by apply U|]. by eapply (m_ecm _ _ I).
  - intros h' N. destruct (m_next _ _ I _ N) as (? & ? & ?). split_and!; [done..|].
    change (<[h := u]> (emms s) !! h' = None). rewrite lookup_insert_ne; [done|]. intros ->.
    change (next s <= h')%nat in N. lia.
Qed.
Lemma Main_link X s c x h : Main X s -> ecms s !! c = Some x -> c_emm x = None -> is_Some (emms s !! h) ->
  Main X { s with ecms := <[c := { x with c_emm := Some h }]> (ecms s) }.
Proof.
  intros I E N H. set (y := { x with c_emm := Some h }). set (s' := { s with ecms := <[c := y]> (ecms s) }).
  assert (L : forall d z, ecms s' !! d = Some z -> exists z', ecms s !! d = Some z' /\ c_assoc z = c_assoc z' /\ mmeUEId z = mmeUEId z' /\ eNBUEId z = eNBUEId z').
  { intros d z H'. apply ecm_insert in H' as [[-> ->]|[? H']]; eauto. }
  assert (L' : forall d z, ecms s !! d = Some z -> exists z', ecms s' !! d = Some z' /\ c_assoc z' = c_assoc z /\ mmeUEId z' = mmeUEId z /\ eNBUEId z' = eNBUEId z).
  { intros d z H'. destruct (decide (d = c)) as [->|D].
    - exists y. rewrite E in H'. injection H' as ->. split; [apply lookup_insert_eq|done].
    - exists z. split; [|done]. change (<[c := y]> (ecms s) !! d = Some z). by rewrite lookup_insert_ne. }
  constructor; try apply I.
  - intros d z Hz. destruct (L _ _ Hz) as (w & Hw & -> & _). by eapply (m_assoc _ _ I).
  - intros d z a Hz U A. destruct (L _ _ Hz) as (w & Hw & Q & _ & ->). rewrite Q in A. by eapply (m_reg _ _ I).
  - intros h' a k o v A K G. destruct (m_entry _ _ I _ _ _ _ _ A K G) as (-> & z & Hz & <- & <-). split; [done|].
    destruct (L' _ _ Hz) as (w & ? & ? & _ & ?). eauto.
  - intros k o v K. destruct (m_tab _ _ I _ _ _ K) as (-> & z & Hz & <-). split; [done|].
    destruct (L' _ _ Hz) as (w & ? & _ & ? & _). eauto.
  - intros d z Hz U. destruct (L _ _ Hz) as (w & Hw & _ & -> & _). by eapply (m_intab _ _ I).
  - intros i. etrans; [apply (m_ids _ _ I i)|]. split; intros (d & z & Hz & <-).
    + destruct (L' _ _ Hz) as (z' & ? & _ & ? & _). eauto.
    + destruct (L _ _ Hz) as (z' & ? & _ & ? & _). eauto.
  - intros d z d' z' Hz Hz' Q. destruct (L _ _ Hz) as (w & Hw & _ & ? & _), (L _ _ Hz') as (w' & Hw' & _ & ? & _).
    eapply (m_unique _ _ I); [done..|congruence].
  - intros d z h' Hz Q. apply ecm_insert in Hz as [[-> ->]|[_ Hz]]; [by injection Q as <-|]. by eapply (m_emm _ _ I).
  - intros h' u d Hu Q. destruct (m_ecm _ _ I _ _ _ Hu Q) as (z & Hz & Qz).
    exists z. split; [|done]. change (<[c := y]> (ecms s) !! d = Some z). rewrite lookup_insert_ne; [done|]. congruence.
  - intros cb d P Q. destruct (m_wait _ _ I _ _ P Q) as [z Hz]. destruct (L' _ _ Hz) as (z' & ? & _). eauto.
  - intros h' N'. destruct (m_next _ _ I _ N') as (? & ? & ?). split_and!; [done| |done].
    change (<[c := y]> (ecms s) !! h' = None). rewrite lookup_insert_ne; [done|]. intros ->. congruence.
Qed.
Lemma Main_next X s : Main X s -> Main X { s with next := S (next s) }.
Proof. intros I. constructor; try apply I. intros h L. apply (m_next _ _ I). change (S (next s) <= h)%nat in L. lia. Qed.
Lemma live_next X s h : Main X s -> is_Some (emms s !! h) -> (h < next s)%nat.
Proof. intros I [u E]. destruct (decide (next s <= h)%nat) as [L|]; [|lia]. destruct (m_next _ _ I _ L) as (_ & _ & ?). congruence. Qed.

(** The end of a session. *)
Lemma Main_free X s c x : Main X s -> (unreg X = None \/ unreg X = Some c) -> gone X = None -> newborn X = Some c ->
  ecms s !! c = Some x -> ecm_tab s !! mmeUEId x = None -> (forall h u, emms s !! h = Some u -> u_ecm u <> Some c) ->
  existsb (waits_for c) (pending s) = false ->
  Main {| unreg := None; gone := Some (c_assoc x, eNBUEId x); newborn := None; configured := configured X; egone := egone X |}
    { s with localIDs := localIDs s ∖ {[mmeUEId x]}; ecms := delete c (ecms s) }.
Proof.
  intros I U G N E T F W. set (s' := { s with localIDs := _; ecms := _ }).
  assert (L : forall d z, ecms s' !! d = Some z -> d <> c /\ ecms s !! d = Some z).
  { intros d z H. change (delete c (ecms s) !! d = Some z) in H. apply lookup_delete_Some in H as [? ?]. auto. }
  assert (L' : forall d z, ecms s !! d = Some z -> d <> c -> ecms s' !! d = Some z).
  { intros d z H D. change (delete c (ecms s) !! d = Some z). apply lookup_delete_Some. auto. }
  constructor; try apply I.
  - intros d z H. apply L in H as [_ H]. by eapply (m_assoc _ _ I).
  - intros d z a H _. apply L in H as [D H]. eapply (m_reg _ _ I); [done|]. destruct U; congruence.
  - intros h a k o v A K G'. destruct (m_entry _ _ I _ _ _ _ _ A K) as (-> & z & H & Z1 & Z2); [congruence|]. split; [done|].
    exists z. split_and!; [|done..]. apply L'; [done|]. intros ->. apply G'. cbn. congruence.
  - intros k o v K. destruct (m_tab _ _ I _ _ _ K) as (-> & z & H & Z). split; [done|]. exists z. split; [|done]. apply L'; [done|].
    intros ->. change (ecm_tab s !! k = Some (c, c)) in K. rewrite E in H. injection H as ->. congruence.
  - intros d z H _. apply L in H as [D H]. eapply (m_intab _ _ I); [done|congruence].
  - intros i. change (i ∈ localIDs s ∖ {[mmeUEId x]} <-> exists c x, ecms s' !! c = Some x /\ mmeUEId x = i).
    rewrite elem_of_difference, elem_of_singleton, (m_ids _ _ I i). split.
    + intros [(d & z & H & <-) D]. exists d, z. split; [|done]. apply L'; [done|]. intros ->. congruence.
    + intros (d & z & H & <-). apply L in H as [D H]. split; [eauto|]. intros Q. apply D. by eapply (m_unique _ _ I).
  - intros d z d' z' H H'. apply L in H as [_ H]. apply L in H' as [_ H']. by eapply (m_unique _ _ I).
  - intros d z h H. apply L in H as [_ H]. by eapply (m_emm _ _ I).
  - intros h u d H Q. destruct (m_ecm _ _ I _ _ _ H Q) as (z & Hz & ?). exists z. split; [|done]. apply L'; [done|].
    intros ->. by destruct (F _ _ H).
  - intros cb d P Q. destruct (m_wait _ _ I _ _ P Q) as [z Hz]. exists z. apply L'; [done|]. intros ->.
    change (cb ∈ pending s) in P. assert (existsb (waits_for c) (pending s) = true); [|congruence].
    apply existsb_exists. exists cb. split; [by apply list_elem_of_In|done].
  - intros h L0. destruct (m_next _ _ I _ L0) as (? & ? & ?). split_and!; [done| |done].
    destruct (ecms s' !! h) eqn:Q; [|done]. apply L in Q as [_ Q]. congruence.
Qed.

(** ** Sessions *)

(** The tables of associations are as before. *)
Record keeps (s s' : s1st) : Prop := {
  k_assocs : assocs s' = assocs s; k_fd : assoc_tab s' = assoc_tab s; k_geNB : geNB_tab s' = geNB_tab s;
  k_read : ev_readers s' = ev_readers s }.
#[local] Instance keeps_refl : Reflexive keeps.
Proof. by constructor. Qed.
#[local] Instance keeps_trans : Transitive keeps.
Proof. intros s1 s2 s3 [] []. constructor; congruence. Qed.
Lemma frame_keeps s s' : frame s s' -> keeps s s'.
Proof. intros []. by constructor. Qed.

Lemma deregister_spec X h s : Main X s -> Ctxs s -> is_Some (emms s !! h) ->
  wp (detach_emm h) (fun _ s' => Main X s' /\ Ctxs s' /\ keeps s s' /\ ecms s' = ecms s /\ ecm_tab s' = ecm_tab s /\
    (forall u, emms s' !! h = Some u -> u_ecm u = None)) s.
Proof.
  intros I C L. unfold detach_emm. wstep. eapply wp_conseq; [by eapply call_spec|]. intros [] s1 _ [F C1].
  pose proof (Main_frame _ _ _ F I) as I1. destruct (frame_live _ _ _ F L) as [u E]. eapply wp_set_emm; [done|].
  split_and!.
  - apply Main_u_ecm; [done|eapply live_next; eauto|]. discriminate.
  - by apply emms_Ctxs.
  - etrans; [by apply frame_keeps|]. by constructor.
  - apply F.
  - apply F.
  - intros v H. change (<[h := { u with u_ecm := None }]> (emms s1) !! h = Some v) in H. rewrite lookup_insert_eq in H. by injection H as <-.
Qed.

Definition freed (X : exc) (x : ECMSession_t) : exc :=
  {| unreg := None; gone := Some (c_assoc x, eNBUEId x); newborn := None; configured := configured X; egone := egone X |}.

Lemma ecmSession_free_spec X c x s : Main X s -> Ctxs s -> (unreg X = None \/ unreg X = Some c) -> gone X = None ->
  newborn X = Some c -> ecms s !! c = Some x -> ecm_tab s !! mmeUEId x = None ->
  wp (ecmSession_free c) (fun _ s' => Main (freed X x) s' /\ Ctxs s' /\ keeps s s' /\ ecms s' = delete c (ecms s)) s.
Proof.
  intros I C U G N E T. unfold ecmSession_free. do 4 wstep. apply wp_null. intros h Eh.
  destruct (m_emm _ _ I _ _ _ E Eh) as [u Eu].
  eapply wp_conseq; [by eapply deregister_spec|]. intros [] s1 _ (I1 & C1 & K & E1 & T1 & Z).
  rewrite <- E1 in E. destruct (m_assoc _ _ I1 _ _ E) as [a Ea]. repeat wstep. unfold mme_freeLocalUEid. repeat wstep.
  split_and!; [|done|etrans; [done|]; by constructor|].
  - eapply (Main_free X s1 c x); try done; [congruence|]. intros h' u' Hu' Q. destruct (m_ecm _ _ I1 _ _ _ Hu' Q) as (x' & Ex' & Q').
    assert (h' = h) as -> by congruence. apply Z in Hu'. congruence.
  - change (delete c (ecms s1) = delete c (ecms s)). by rewrite E1.
Qed.

Lemma in_tab X c x s : Main X s -> newborn X = None -> ecms s !! c = Some x -> ecm_tab s !! mmeUEId x = Some (c, c).
Proof. intros I N E. eapply (m_intab _ _ I); [done|congruence]. Qed.

Lemma Main_untab X c x s : Main X s -> newborn X = None -> ecms s !! c = Some x ->
  Main {| unreg := unreg X; gone := gone X; newborn := Some c; configured := configured X; egone := egone X |}
    { s with ecm_tab := delete (mmeUEId x) (ecm_tab s) }.
Proof.
  intros I N E. constructor; try apply I.
  - intros k o v H. change (delete (mmeUEId x) (ecm_tab s) !! k = Some (o, v)) in H. apply lookup_delete_Some in H as [_ H].
    by eapply (m_tab _ _ I).
  - intros d z H D. change (delete (mmeUEId x) (ecm_tab s) !! mmeUEId z = Some (d, d)). apply lookup_delete_Some. split.
    + intros Q. apply D. cbn. f_equal. by eapply (m_unique _ _ I).
    + by eapply in_tab.
Qed.

Lemma deregisterECM_spec X c x s : Main X s -> Ctxs s -> (unreg X = None \/ unreg X = Some c) -> gone X = None ->
  newborn X = None -> ecms s !! c = Some x ->
  wp (mme_deregisterECM c) (fun _ s' => Main (freed X x) s' /\ Ctxs s' /\ keeps s s' /\ ecms s' = delete c (ecms s)) s.
Proof.
  intros I C U G N E. pose proof (in_tab _ _ _ _ I N E) as T. unfold mme_deregisterECM, g_remove.
  repeat wstep; simplify_eq. repeat wstep. cbn [destroy_ecm].
  eapply wp_conseq; [eapply ecmSession_free_spec; [by apply (Main_untab X)|done|done|done|done|exact E|apply lookup_delete_eq]|].
  intros [] s2 _ (I2 & C2 & K2 & E2). split_and!; [done..|etrans; [|done]; by constructor|done].
Qed.

(** ** The tables of an association *)

Record same_assoc (y y' : S1Assoc_t) : Prop := {
  sa_fd : fd y' = fd y; sa_id : global_eNB_ID y' = global_eNB_ID y; sa_state : a_stateName y' = a_stateName y }.
#[local] Instance same_assoc_refl : Reflexive same_assoc.
Proof. by constructor. Qed.
#[local] Instance same_assoc_trans : Transitive same_assoc.
Proof. intros s1 s2 s3 [] []. constructor; congruence. Qed.

Lemma assoc_insert (m : gmap nat S1Assoc_t) h a d z : <[h := a]> m !! d = Some z ->
  (d = h /\ z = a) \/ (d <> h /\ m !! d = Some z).
Proof. rewrite lookup_insert_Some. intros [[-> ->]|[]]; auto. Qed.

Lemma Main_sessions X X' s h a a' : Main X s -> assocs s !! h = Some a -> same_assoc a a' ->
  newborn X' = newborn X -> configured X' = configured X -> egone X' = egone X ->
  (forall c x, ecms s !! c = Some x -> unreg X' <> Some c -> c_assoc x = h -> ecm_sessions a' !! eNBUEId x = Some (c, c)) ->
  (forall k o v, ecm_sessions a' !! k = Some (o, v) -> gone X' <> Some (h, k) ->
    o = v /\ exists x, ecms s !! v = Some x /\ c_assoc x = h /\ eNBUEId x = k) ->
  (forall c x, ecms s !! c = Some x -> unreg X' <> Some c -> c_assoc x <> h -> unreg X <> Some c) ->
  (forall h' k, h' <> h -> gone X' <> Some (h', k) -> gone X <> Some (h', k)) ->
  Main X' { s with assocs := <[h := a']> (assocs s) }.
Proof.
  intros I A S EN EC EG R1 R2 R3 R4. set (s' := { s with assocs := <[h := a']> (assocs s) }).
  assert (L : forall d z, assocs s !! d = Some z -> exists z', assocs s' !! d = Some z' /\ same_assoc z z').
  { intros d z H. destruct (decide (d = h)) as [->|D].
    - exists a'. split; [apply lookup_insert_eq|congruence].
    - exists z. split; [|done]. change (<[h := a']> (assocs s) !! d = Some z). by rewrite lookup_insert_ne. }
  constructor; try apply I.
  - intros c x H. destruct (m_assoc _ _ I _ _ H) as [z Hz]. destruct (L _ _ Hz) as (z' & ? & _). eauto.
  - intros c x z H U Z. apply assoc_insert in Z as [[Z ->]|[D Z]]; [by apply R1|]. eapply (m_reg _ _ I); [done| |done]. by eapply R3.
  - intros d z k o v Z K G. apply assoc_insert in Z as [[-> ->]|[D Z]]; [by apply R2|]. eapply (m_entry _ _ I); [done..|]. by apply R4.
  - intros c x H N. eapply (m_intab _ _ I); [done|congruence].
  - intros k o v K. destruct (m_fd _ _ I _ _ _ K) as (-> & z & Hz & <-). split; [done|]. destruct (L _ _ Hz) as (z' & ? & [? _ _]). eauto.
  - intros k o v d K G D. destruct (m_geNB _ _ I _ _ _ d K) as (z & Hz & Z1 & Z2 & Z3); [congruence|done|].
    destruct (L _ _ Hz) as (z' & Hz' & [S1 S2 S3]). exists z'. rewrite S1, S2. split_and!; [done..| |done].
    destruct Z2; [left|right]; congruence.
  - intros d D. destruct (m_next _ _ I _ D) as (? & ? & ?). split_and!; [|done..].
    change (<[h := a']> (assocs s) !! d = None). rewrite lookup_insert_ne; [done|]. intros ->. congruence.
Qed.

(** An entry that is not there any more. *)
Lemma Main_ungone X s h k : Main X s -> gone X = Some (h, k) ->
  (forall a, assocs s !! h = Some a -> ecm_sessions a !! k = None) ->
  Main {| unreg := unreg X; gone := None; newborn := newborn X; configured := configured X; egone := egone X |} s.
Proof.
  intros I G N. constructor; try apply I.
  intros d z k' o v Z K _. eapply (m_entry _ _ I); [done..|]. rewrite G. intros [= <- <-]. rewrite (N _ Z) in K. done.
Qed.

Definition plain (X : exc) : Prop := unreg X = None /\ gone X = None /\ newborn X = None.
Definition unregistered (X : exc) (c : nat) : exc :=
  {| unreg := Some c; gone := None; newborn := newborn X; configured := configured X; egone := egone X |}.
Definition registered (X : exc) : exc :=
  {| unreg := None; gone := None; newborn := newborn X; configured := configured X; egone := egone X |}.
Lemma plain_eq X : plain X -> X = {| unreg := None; gone := None; newborn := None; configured := configured X; egone := egone X |}.
Proof. destruct X. intros (? & ? & ?); cbn in *. by subst. Qed.

(** [s1Assoc_deregisterECMSession] *)
Lemma deregSession_spec X c x s : Main X s -> unreg X = None -> gone X = None -> ecms s !! c = Some x ->
  wp (s1Assoc_deregisterECMSession (c_assoc x) c) (fun _ s' => exists y y', assocs s !! c_assoc x = Some y /\ same_assoc y y' /\
    s' = { s with assocs := <[c_assoc x := y']> (assocs s) } /\ Main (unregistered X c) s' /\ nowhere c s' /\
    ecm_sessions y' !! eNBUEId x = None) s.
Proof.
  intros I U G E. destruct (m_assoc _ _ I _ _ E) as [y Ey]. assert (R : ecm_sessions y !! eNBUEId x = Some (c, c)).
  { eapply (m_reg _ _ I); [done| |done]. congruence. }
  unfold s1Assoc_deregisterECMSession, g_remove. repeat wstep; simplify_eq. repeat wstep. eapply wp_set_assoc; [done|].
  eexists y, _. split; [done|]. split; [|split; [reflexivity|]]; [by constructor|].
  assert (EN : forall h a k o, assocs s !! h = Some a -> ecm_sessions a !! k = Some (o, c) -> h = c_assoc x /\ k = eNBUEId x).
  { intros h a k o H K. destruct (m_entry _ _ I _ _ _ _ _ H K) as (_ & z & Hz & <- & <-); [congruence|]. by simplify_eq. }
  split_and!.
  - eapply Main_sessions; try done.
    + intros d z Hz D Q. change (delete (eNBUEId x) (ecm_sessions y) !! eNBUEId z = Some (d, d)).
      assert (K : ecm_sessions y !! eNBUEId z = Some (d, d)).
      { eapply (m_reg _ _ I); [done| |congruence]. congruence. }
      apply lookup_delete_Some. split; [|done]. intros Q'. rewrite <- Q', Heqo in K. injection K as ->. by apply D.
    + intros k o v K _. change (delete (eNBUEId x) (ecm_sessions y) !! k = Some (o, v)) in K. apply lookup_delete_Some in K as [_ K].
      eapply (m_entry _ _ I); [done..|]. congruence.
    + congruence.
    + intros. rewrite G. done.
  - intros h a k o H K. apply assoc_insert in H as [[-> ->]|[D H]].
    + change (delete (eNBUEId x) (ecm_sessions y) !! k = Some (o, c)) in K. apply lookup_delete_Some in K as [D K].
      by destruct (EN _ _ _ _ Ey K) as [_ ->].
    + by destruct (EN _ _ _ _ H K) as [-> _].
  - apply lookup_delete_eq.
Qed.

(** [s1Assoc_registerECMSession] *)
Lemma regSession_spec X c x s : Main X s -> unreg X = Some c -> gone X = None -> nowhere c s -> ecms s !! c = Some x ->
  wp (s1Assoc_registerECMSession (c_assoc x) c) (fun _ s' => exists y y', assocs s !! c_assoc x = Some y /\ same_assoc y y' /\
    s' = { s with assocs := <[c_assoc x := y']> (assocs s) } /\ Main (registered X) s') s.
Proof.
  intros I U G N E. destruct (m_assoc _ _ I _ _ E) as [y Ey]. unfold s1Assoc_registerECMSession, g_insert. repeat wstep.
  - destruct (m_entry _ _ I _ _ _ _ _ Ey Heqo) as (-> & z & Hz & _); [congruence|]. repeat wstep. discriminate.
  - eapply wp_set_assoc; [done|]. eexists y, _. split; [done|]. split; [|split; [reflexivity|]]; [by constructor|].
    eapply Main_sessions; try done.
    + intros d z Hz _ Q. change (<[eNBUEId x := (c, c)]> (ecm_sessions y) !! eNBUEId z = Some (d, d)).
      destruct (decide (d = c)) as [->|D]; [simplify_eq; apply lookup_insert_eq|].
      assert (K : ecm_sessions y !! eNBUEId z = Some (d, d)).
      { eapply (m_reg _ _ I); [done| |congruence]. congruence. }
      rewrite lookup_insert_ne; [done|]. congruence.
    + intros k o v K _. change (<[eNBUEId x := (c, c)]> (ecm_sessions y) !! k = Some (o, v)) in K.
      apply lookup_insert_Some in K as [[<- [= <- <-]]|[_ K]]; [eauto|]. eapply (m_entry _ _ I); [done..|]. congruence.
    + intros d z Hz _ D. rewrite U. intros [= ->]. congruence.
    + intros. rewrite G. done.
Qed.

(** *** Removing all sessions of an association *)

(** What is asked of the function for one session. *)
Definition removes (X : exc) (f : nat -> S1M unit) : Prop := forall v x s, Main X s -> Ctxs s -> ecms s !! v = Some x ->
  wp (f v) (fun _ s' => Main (freed X x) s' /\ Ctxs s' /\ keeps s s' /\ ecms s' = delete v (ecms s)) s.

Lemma deregisterECM_removes X : plain X -> removes X mme_deregisterECM.
Proof. intros (U & G & N) v x s I C E. eapply deregisterECM_spec; eauto. Qed.

Lemma reset_spec X c x s : Main X s -> Ctxs s -> ecms s !! c = Some x ->
  wp (ecmSession_reset c) (fun _ s' => frame s s' /\ Ctxs s') s.
Proof.
  intros I C E. unfold ecmSession_reset. repeat wstep. eapply call_spec; [done..|]. by eapply m_emm.
Qed.
Lemma resetECM_spec X c x s : Main X s -> Ctxs s -> (unreg X = None \/ unreg X = Some c) -> gone X = None -> newborn X = None ->
  ecms s !! c = Some x ->
  wp (s1Assoc_resetECM c) (fun _ s' => Main (freed X x) s' /\ Ctxs s' /\ keeps s s' /\ ecms s' = delete c (ecms s)) s.
Proof.
  intros I C U G N E. unfold s1Assoc_resetECM. wstep. eapply wp_conseq; [by eapply reset_spec|]. intros [] s1 _ [F C1].
  rewrite <- (f_ecms _ _ F) in E. eapply wp_conseq; [eapply deregisterECM_spec; eauto; by eapply Main_frame|].
  intros [] s2 _ (I2 & C2 & K2 & E2). rewrite (f_ecms _ _ F) in E2. split_and!; [done..| |done]. etrans; [by apply frame_keeps|done].
Qed.
Lemma resetECM_removes X : plain X -> removes X s1Assoc_resetECM.
Proof. intros (U & G & N) v x s I C E. eapply resetECM_spec; eauto. Qed.

(** The tables of associations are as before, up to the sessions of [a]. *)
Definition keeps_but (a : nat) (y : S1Assoc_t) (s s' : s1st) : Prop :=
  assocs s' = <[a := y]> (assocs s) /\ assoc_tab s' = assoc_tab s /\ geNB_tab s' = geNB_tab s /\ ev_readers s' = ev_readers s.

Lemma Main_emptied X s a y v x k : plain X -> Main (freed X x) s -> assocs s !! a = Some y -> ecms s !! v = None ->
  c_assoc x = a -> eNBUEId x = k -> ecm_sessions y !! k = Some (v, v) ->
  Main X { s with assocs := <[a := { y with ecm_sessions := delete k (ecm_sessions y) }]> (assocs s) }.
Proof.
  intros (U & G & N) I A V <- <- K. eapply Main_sessions; try done.
  - intros c z Hz _ Q. change (delete (eNBUEId x) (ecm_sessions y) !! eNBUEId z = Some (c, c)).
    assert (R : ecm_sessions y !! eNBUEId z = Some (c, c)) by (eapply (m_reg _ _ I); [done..|congruence]).
    apply lookup_delete_Some. split; [|done]. intros Q'. rewrite <- Q', K in R. congruence.
  - intros k o w H _. change (delete (eNBUEId x) (ecm_sessions y) !! k = Some (o, w)) in H. apply lookup_delete_Some in H as [D H].
    eapply (m_entry _ _ I); [done..|]. cbn. congruence.
  - intros h k D _. cbn. congruence.
Qed.

Lemma foreach_spec X a f : plain X -> removes X f -> (forall c, mono (f c)) -> forall l s y, Main X s -> Ctxs s ->
  assocs s !! a = Some y -> NoDup l.*1 -> ecm_sessions y = list_to_map l ->
  wp (foreach_remove a f l) (fun _ s' => Main X s' /\ Ctxs s' /\ exists y', keeps_but a y' s s' /\ same_assoc y y' /\
    ecm_sessions y' = ∅) s.
Proof.
  intros PX R M l. induction l as [|[k [o v]] l IH]; intros s y I C A ND Q; cbn [foreach_remove].
  - repeat wstep. split; [done|]. split; [done|]. exists y. split; [|done]. split_and!; [|done..]. by rewrite insert_id.
  - cbn in ND, Q. apply NoDup_cons in ND as [N ND]. pose proof PX as (PU & PG & PN).
    assert (K : ecm_sessions y !! k = Some (o, v)) by (rewrite Q; apply lookup_insert_eq).
    destruct (m_entry _ _ I _ _ _ _ _ A K) as (-> & x & Ex & Xa & Xk); [congruence|].
    apply wp_bind; [|mono_tac]. eapply wp_conseq; [by eapply R|]. intros [] s1 _ (I1 & C1 & K1 & E1).
    assert (A1 : assocs s1 !! a = Some y) by (by rewrite (k_assocs _ _ K1)).
    apply wp_bind; [|mono_tac]. eapply wp_set_assoc; [done|]. set (y1 := { y with ecm_sessions := delete k (ecm_sessions y) }).
    eapply wp_conseq; [eapply (IH _ y1)|].
    + eapply (Main_emptied X s1 a y v x k); eauto. rewrite E1. apply lookup_delete_eq.
    + done.
    + apply lookup_insert_eq.
    + done.
    + change (delete k (ecm_sessions y) = list_to_map l). rewrite Q. cbn. rewrite delete_insert_id; [done|].
      by apply not_elem_of_list_to_map.
    + intros [] s2 _ (I2 & C2 & y2 & (Q1 & Q2 & Q3 & Q4) & S2 & Y2). split; [done|]. split; [done|]. exists y2. split; [|split; [etrans; [|exact S2]; by constructor|done]].
      destruct K1 as [K1 K2 K3 K4]. split; [|exact (conj (eq_trans Q2 K2) (conj (eq_trans Q3 K3) (eq_trans Q4 K4)))]. rewrite Q1.
      change (<[a := y2]> (<[a := y1]> (assocs s1)) = <[a := y2]> (assocs s)). by rewrite insert_insert_eq, K1.
Qed.

(** [s1Assoc_free]: the association is gone from the other tables. *)
Lemma Main_unassoc X s a y : Main X s -> assocs s !! a = Some y -> ecm_sessions y = ∅ -> plain X ->
  (forall k, assoc_tab s !! k <> Some (a, a)) ->
  (forall k o v, geNB_tab s !! k = Some (o, v) -> egone X <> Some k -> a <> o /\ a <> v) ->
  Main X { s with assocs := delete a (assocs s) }.
Proof.
  intros I A Y (U & G & N) T B. set (s' := { s with assocs := delete a (assocs s) }).
  assert (L : forall d z, assocs s !! d = Some z -> d <> a -> assocs s' !! d = Some z).
  { intros d z H D. change (delete a (assocs s) !! d = Some z). apply lookup_delete_Some. auto. }
  assert (L' : forall d z, assocs s' !! d = Some z -> d <> a /\ assocs s !! d = Some z).
  { intros d z H. change (delete a (assocs s) !! d = Some z) in H. apply lookup_delete_Some in H as []. auto. }
  constructor; try apply I.
  - intros c x H. destruct (m_assoc _ _ I _ _ H) as [z Hz]. exists z. apply L; [done|]. intros Q.
    assert (K : ecm_sessions y !! eNBUEId x = Some (c, c)) by (eapply (m_reg _ _ I); [done|congruence..]). by rewrite Y in K.
  - intros c x z H D Z. apply L' in Z as [_ Z]. by eapply (m_reg _ _ I).
  - intros h z k o v Z K D. apply L' in Z as [_ Z]. by eapply (m_entry _ _ I).
  - intros k o v K. destruct (m_fd _ _ I _ _ _ K) as (-> & z & Hz & <-). split; [done|]. exists z. split; [|done]. apply L; [done|].
    intros ->. by apply T in K.
  - intros k o v h K D H. destruct (m_geNB _ _ I _ _ _ h K D H) as (z & Hz & Z). exists z. split; [|done]. apply L; [done|].
    destruct (B _ _ _ K D). destruct H; congruence.
  - intros h D. destruct (m_next _ _ I _ D) as (? & ? & ?). split_and!; [|done..].
    destruct (assocs s' !! h) eqn:Q; [|done]. apply L' in Q as []. congruence.
Qed.
Lemma s1Assoc_free_spec X a s : plain X -> Main X s -> Ctxs s -> is_Some (assocs s !! a) ->
  (forall k, assoc_tab s !! k <> Some (a, a)) ->
  (forall k o v, geNB_tab s !! k = Some (o, v) -> egone X <> Some k -> a <> o /\ a <> v) ->
  wp (s1Assoc_free a) (fun _ s' => Main X s' /\ Ctxs s' /\ geNB_tab s' = geNB_tab s /\ assocs s' = delete a (assocs s)) s.
Proof.
  intros PX I C [y A] T B. unfold s1Assoc_free. do 4 wstep. eapply wp_conseq.
  { eapply foreach_spec; [done|by apply deregisterECM_removes|mono_tac|done..|apply NoDup_fst_map_to_list|].
    by rewrite list_to_map_to_list. }
  intros [] s1 _ (I1 & C1 & y1 & (Q1 & Q2 & Q3 & Q4) & S1 & Y1). repeat wstep. split_and!; [|done..|].
  - eapply Main_unassoc; [done| |done..| |].
    + rewrite Q1. apply lookup_insert_eq.
    + intros k. rewrite Q2. apply T.
    + intros k o v. rewrite Q3. apply B.
  - change (delete a (assocs s1) = delete a (assocs s)). rewrite Q1. by rewrite delete_insert_eq.
Qed.

(** ** A new session *)

(** A session that is in no table yet. *)
Record born (X : exc) (c a : nat) (i : Z) (s0 s : s1st) (x : ECMSession_t) : Prop := {
  b_main : Main X s; b_ctxs : Ctxs s; b_nowhere : nowhere c s; b_ecm : ecms s !! c = Some x; b_assoc : c_assoc x = a;
  b_id : mmeUEId x = i; b_tab : ecm_tab s !! i = None; b_keeps : keeps s0 s }.

Section Born.
Context (X : exc) (c a : nat) (i : Z) (s0 : s1st) (HU : unreg X = Some c) (HG : gone X = None) (HN : newborn X = Some c).

Lemma born_set s x y : born X c a i s0 s x -> c_emm y = c_emm x -> c_assoc y = c_assoc x -> mmeUEId y = mmeUEId x ->
  born X c a i s0 { s with ecms := <[c := y]> (ecms s) } y.
Proof.
  intros [I C N E A D T K] Ee Ea Em. constructor; try done; [|apply lookup_insert_eq|congruence..|].
  - eapply Main_ecm; [done..| |by right]. rewrite Ea. by eapply m_assoc.
  - etrans; [done|]. by constructor.
Qed.
Lemma born_frame s x s' : born X c a i s0 s x -> frame s s' -> Ctxs s' -> born X c a i s0 s' x.
Proof.
  intros [I C N E A D T K] F C'. constructor; try done.
  - by eapply Main_frame.
  - intros h y k o. rewrite (f_assocs _ _ F). apply N.
  - by rewrite (f_ecms _ _ F).
  - by rewrite (f_tab _ _ F).
  - etrans; [done|]. by apply frame_keeps.
Qed.
Lemma born_quiet s x s' : born X c a i s0 s x -> quiet s s' -> born X c a i s0 s' x.
Proof. intros B Q. eapply born_frame; [done|by apply quiet_frame|]. eapply quiet_Ctxs; [done|apply B]. Qed.
Lemma born_link s x h : born X c a i s0 s x -> c_emm x = None -> is_Some (emms s !! h) ->
  born X c a i s0 { s with ecms := <[c := { x with c_emm := Some h }]> (ecms s) } { x with c_emm := Some h }.
Proof.
  intros [I C N E A D T K] Ee L. constructor; try done; [by apply Main_link|apply lookup_insert_eq|].
  etrans; [done|]. by constructor.
Qed.

Lemma born_new s x ctx : born X c a i s0 s x -> c_emm x = None ->
  let h := next s in let s1 := { s with next := S h } in let u := {| u_ecm := Some c; u_ctx := ctx |} in
  born X c a i s0 { { s1 with emms := <[h := u]> (emms s1) } with ecms := <[c := { x with c_emm := Some h }]> (ecms s1) }
    { x with c_emm := Some h }.
Proof.
  intros B N h s1 u. set (u0 := {| u_ecm := None; u_ctx := u_ctx u |}). destruct B as [I C N' E' A D T K].
  assert (B1 : born X c a i s0 { s1 with emms := <[h := u0]> (emms s1) } x).
  { constructor; try done.
    - apply Main_u_ecm; [by apply Main_next|apply Nat.lt_succ_diag_r|done].
    - apply (emms_Ctxs s1). exact C.
    - etrans; [done|]. by constructor. }
  assert (B2 := born_link _ x h B1 N ltac:(apply lookup_insert_is_Some'; by left)). destruct B2 as [I2 C2 N2 E2 A2 D2 T2 K2].
  constructor; try done.
  - eapply Main_frame; [|apply (Main_u_ecm _ _ h u I2)].
    + constructor; try reflexivity. change (u_ecm <$> <[h := u]> (emms s1) = u_ecm <$> <[h := u]> (<[h := u0]> (emms s1))).
      by rewrite insert_insert_eq.
    + apply Nat.lt_succ_diag_r.
    + intros d [= <-]. eexists. split; [exact E2|done].
  - intros k o v H. destruct (C2 k o v H) as [H1 H2]. change (is_Some (<[h := u0]> (emms s) !! o)) in H1.
    change (is_Some (<[h := u0]> (emms s) !! v)) in H2.
    change (is_Some (<[h := u]> (emms s) !! o) /\ is_Some (<[h := u]> (emms s) !! v)).
    rewrite lookup_insert_is_Some' in H1, H2. rewrite !lookup_insert_is_Some'. auto.
  - etrans; [exact K2|]. by constructor.
Qed.

(** *** The context of an initial message *)

Lemma lookup_spec {K} `{Countable K} (tab : s1st -> gtable K) k s :
  (forall o v, tab s !! k = Some (o, v) -> is_Some (emms s !! o) /\ is_Some (emms s !! v)) ->
  wp (g_lookup emms tab k) (fun r s' => s' = s /\ forall h, r = Some h -> is_Some (emms s !! h)) s.
Proof.
  intros C. unfold g_lookup. repeat wstep; [|by split].
  destruct (C _ _ eq_refl) as [[u Eu] L]. repeat wstep. split; [done|]. by intros h [= <-].
Qed.
Lemma byIMSI_spec imsi l s : (forall k o v, (k, (o, v)) ∈ l -> is_Some (emms s !! v)) ->
  wp (first_IMSI imsi l) (fun r s' => s' = s /\ forall h, r = Some h -> is_Some (emms s !! h)) s.
Proof.
  induction l as [|[k [o v]] l IH]; intros L; cbn [first_IMSI]; [repeat wstep; by split|].
  destruct (L k o v) as [u Eu]; [by left|]. assert (L' : forall k o v, (k, (o, v)) ∈ l -> is_Some (emms s !! v)) by (intros; eapply L; by right).
  wstep. unfold emm_. eapply wp_deref; [done|]. destruct (_ =? _); [|by apply IH]. apply wp_ret. split; [done|]. intros ? [= <-]. eauto.
Qed.
Lemma find_emm_spec m s : Ctxs s ->
  wp (find_emm m) (fun r s' => s' = s /\ forall h, r = Some h -> is_Some (emms s !! h)) s.
Proof.
  intros C. unfold find_emm, mme_lookupEMMCtxt, mme_lookupEMMCtxt_byIMSI. repeat wstep; try (apply lookup_spec; intros; by eapply C).
  apply byIMSI_spec. intros k o v Hk. apply elem_of_map_to_list in Hk. by eapply C.
Qed.

Lemma attach_spec o s x : born X c a i s0 s x -> c_emm x = None -> (forall h, o = Some h -> is_Some (emms s !! h)) ->
  wp (ecm_attach c o) (fun h s' => exists y, born X c a i s0 s' y /\ is_Some (emms s' !! h)) s.
Proof.
  intros B N L. pose proof (b_ecm _ _ _ _ _ _ _ B) as E. destruct o as [h|]; cbn [ecm_attach].
  - destruct (L h eq_refl) as [u Eu]. wstep. eapply wp_set_ecm; [done|].
    assert (B1 : born X c a i s0 _ _) by (apply (born_link s x h B N); eauto).
    set (s1 := { s with ecms := _ }) in *. unfold attach_emm. repeat wstep. assert (Eu1 : emms s1 !! h = Some u) by done.
    eapply wp_conseq; [eapply release_spec; [apply B1|eapply of_emm_ecm; [apply B1|done]]|].
    intros [] s2 _ [l ->]. eapply wp_set_emm; [done|]. repeat wstep. eexists. split; [|apply lookup_insert_is_Some'; by left].
    destruct B1 as [I1 C1 N1 E1 A1 D1 T1 K1]. constructor; try done.
    + apply Main_u_ecm; [by eapply Main_frame, I1; constructor|eapply (live_next X s1); [done|eauto]|].
      intros d [= <-]. eexists. split; [exact E1|done].
    + apply (emms_Ctxs { s1 with sent := l }). exact C1.
    + etrans; [done|]. by constructor.
  - unfold new_emm. repeat wstep. apply wp_fresh. wstep. unfold ecm__.
    set (h := next s). set (s1 := { s with next := S h }).
    assert (E1 : ecms s1 !! c = Some x) by done. eapply wp_deref; [done|]. repeat wstep.
    set (u := {| u_ecm := Some c; u_ctx := _ |}). eapply wp_set_ecm; [done|]. wstep.
    pose proof (born_new _ _ (emm_new {| tAI_sn := c_sn x; tAI_tAC := c_tAC x |}) B N) as B3.
    eapply wp_conseq; [eapply log_spec; apply B3|]. intros [] s4 _ Q. repeat wstep. eexists. split; [by eapply born_quiet|].
    destruct Q as [l ->]. apply lookup_insert_is_Some'. by left.
Qed.

Lemma setTAI_born m s x : born X c a i s0 s x ->
  wp (ecm_setTAI c m) (fun _ s' => exists y, born X c a i s0 s' y /\ c_emm y = c_emm x) s.
Proof.
  intros B. unfold ecm_setTAI. repeat wstep. eapply wp_set_ecm; [apply B|]. eexists. split; [by eapply born_set|done].
Qed.

(** [ecm_processMsg] of ECM-Idle *)
Lemma Idle_spec m n s x : born X c a i s0 s x -> c_emm x = None ->
  wp (Idle_processMsg c m n) (fun _ s' => exists y, born X c a i s0 s' y) s.
Proof.
  intros B N. pose proof (b_ecm _ _ _ _ _ _ _ B) as E. destruct (m_assoc _ _ (b_main _ _ _ _ _ _ _ B) _ _ E) as [y Ey].
  unfold Idle_processMsg. repeat wstep; [|by exists x]. eapply wp_set_ecm; [done|]. wstep.
  eapply wp_conseq; [eapply setTAI_born, (born_set _ _ _ B); done|]. intros [] s1 _ (x1 & B1 & N1).
  change (c_emm x1 = c_emm x) in N1. rewrite N in N1. wstep. eapply wp_set_ecm; [apply B1|]. wstep.
  apply (wp_conseq _ (fun _ s' => exists z, born X c a i s0 s' z /\ c_emm z = None)).
  { assert (B2 : born X c a i s0 _ _) by (apply (born_set _ _ { x1 with l_sid := 1 } B1); done).
    destruct (negb _); repeat wstep; [|eauto]. eapply wp_set_ecm; [apply B2|]. eexists. split; [by eapply born_set|done]. }
  intros [] s2 _ (x2 & B2 & N2). wstep. eapply wp_conseq; [apply find_emm_spec, B2|]. intros o s3 _ [-> L]. wstep.
  eapply wp_conseq; [by eapply attach_spec|]. intros h s3 _ (x3 & B3 & L3). wstep. eapply wp_set_ecm; [apply B3|].
  assert (B4 : born X c a i s0 _ _) by (apply (born_set _ _ { x3 with c_stateName := ECM_Connected } B3); done). wstep.
  eapply wp_conseq; [eapply log_spec; apply B4|]. intros [] s5 _ Q. pose proof (born_quiet _ _ _ B4 Q) as B5.
  repeat wstep. eapply wp_conseq; [eapply call_spec; [apply B5|apply B5|]|].
  - destruct Q as [l' ->]. exact L3.
  - intros [] s6 _ [F C6]. eexists. by eapply born_frame.
Qed.
End Born.

Lemma free_id_fresh n : forall i ids j, free_id n i ids = Some j -> j ∉ ids.
Proof. induction n as [|n IH]; intros i ids j; cbn; [done|]. destruct (decide (i ∈ ids)); [apply IH|]. by intros [= <-]. Qed.

Definition newborn_exc (X : exc) (c : nat) : exc :=
  {| unreg := Some c; gone := None; newborn := Some c; configured := configured X; egone := egone X |}.

(** A session is added to the heap. *)
Lemma Main_new X s a i x : plain X -> Main X s -> Ctxs s -> is_Some (assocs s !! a) -> i ∉ localIDs s ->
  c_assoc x = a -> c_emm x = None -> mmeUEId x = i ->
  born (newborn_exc X (next s)) (next s) a i s
    { s with next := S (next s); localIDs := {[i]} ∪ localIDs s; ecms := <[next s := x]> (ecms s) } x.
Proof.
  intros (U & G & N) I C A D Xa Xe Xi. destruct (m_next _ _ I (next s)) as (N1 & N2 & N3); [lia|].
  assert (Nd : forall d z, ecms s !! d = Some z -> d <> next s) by (intros d z H ->; congruence).
  assert (L : forall d z, ecms s !! d = Some z -> <[next s := x]> (ecms s) !! d = Some z).
  { intros d z H. rewrite lookup_insert_ne; [done|]. intros <-. congruence. }
  constructor; try done; [|intros h y k o H K|apply lookup_insert_eq|].
  - constructor; try apply I.
    + intros d z H. apply ecm_insert in H as [[-> ->]|[_ H]]; [by subst a|]. by eapply (m_assoc _ _ I).
    + intros d z y H Q Y. apply ecm_insert in H as [[-> ->]|[_ H]]; [done|]. eapply (m_reg _ _ I); [done| |done]. congruence.
    + intros h y k o v Y K _. destruct (m_entry _ _ I _ _ _ _ _ Y K) as (-> & z & Hz & ?); [congruence|]. split; [done|].
      exists z. split; [by apply L|done].
    + intros k o v K. destruct (m_tab _ _ I _ _ _ K) as (-> & z & Hz & ?). split; [done|]. exists z. split; [by apply L|done].
    + intros d z H Q. apply ecm_insert in H as [[-> ->]|[_ H]]; [done|]. by eapply (in_tab _ _ _ s).
    + intros j. change (j ∈ {[i]} ∪ localIDs s <-> exists c z, <[next s := x]> (ecms s) !! c = Some z /\ mmeUEId z = j).
      rewrite elem_of_union, elem_of_singleton, (m_ids _ _ I j). split.
      * intros [->|(d & z & H & <-)]; [exists (next s), x; split; [apply lookup_insert_eq|done]|]. exists d, z. split; [by apply L|done].
      * intros (d & z & H & <-). apply ecm_insert in H as [[-> ->]|[_ H]]; [by left|]. right. eauto.
    + intros d z d' z' H H' Q. apply ecm_insert in H as [[-> ->]|[_ H]]; apply ecm_insert in H' as [[-> ->]|[_ H']]; [done|..].
      * destruct D. apply (m_ids _ _ I). exists d', z'. split; [done|congruence].
      * destruct D. apply (m_ids _ _ I). exists d, z. split; [done|congruence].
      * by eapply (m_unique _ _ I).
    + intros d z h H Q. apply ecm_insert in H as [[-> ->]|[_ H]]; [congruence|]. by eapply (m_emm _ _ I).
    + intros h u d H Q. destruct (m_ecm _ _ I _ _ _ H Q) as (z & Hz & ?). exists z. split; [by apply L|done].
    + intros cb d H Q. destruct (m_wait _ _ I _ _ H Q) as [z Hz]. exists z. by apply L.
    + intros h H. change (S (next s) <= h)%nat in H. destruct (m_next _ _ I h) as (? & ? & ?); [lia|]. split_and!; [done| |done].
      change (<[next s := x]> (ecms s) !! h = None). rewrite lookup_insert_ne; [done|]. lia.
  - destruct (m_entry _ _ I _ _ _ _ _ H K) as (_ & z & Hz & _); [congruence|]. congruence.
  - change (ecm_tab s !! i = None). destruct (ecm_tab s !! i) as [[o v]|] eqn:K; [|done]. destruct D.
    destruct (m_tab _ _ I _ _ _ K) as (_ & z & Hz & Q). apply (m_ids _ _ I). eauto.
Qed.

(** [mme_registerECM] of a new session *)
Lemma registerECM_spec X c x s : Main X s -> newborn X = Some c -> ecms s !! c = Some x -> ecm_tab s !! mmeUEId x = None ->
  wp (mme_registerECM c) (fun _ s' => s' = { s with ecm_tab := <[mmeUEId x := (c, c)]> (ecm_tab s) } /\
    Main {| unreg := unreg X; gone := gone X; newborn := None; configured := configured X; egone := egone X |} s') s.
Proof.
  intros I N E T. unfold mme_registerECM, g_insert. repeat wstep; [congruence|]. cbn [destroy_ecm]. repeat wstep. split; [done|].
  constructor; try apply I.
  - intros k o v H. change (<[mmeUEId x := (c, c)]> (ecm_tab s) !! k = Some (o, v)) in H.
    apply lookup_insert_Some in H as [[<- [= <- <-]]|[_ H]]; [eauto|]. by eapply (m_tab _ _ I).
  - intros d z H _. change (<[mmeUEId x := (c, c)]> (ecm_tab s) !! mmeUEId z = Some (d, d)).
    destruct (decide (d = c)) as [->|D]; [change (ecms s !! c = Some z) in H; simplify_eq; apply lookup_insert_eq|].
    rewrite lookup_insert_ne; [eapply (m_intab _ _ I); [done|congruence]|]. intros Q. apply D. symmetry. by eapply (m_unique _ _ I).
Qed.

(** The invariant holds again, and the tables of associations are as before. *)
Definition good (X : exc) (s s' : s1st) : Prop :=
  Main X s' /\ Ctxs s' /\ assoc_tab s' = assoc_tab s /\ geNB_tab s' = geNB_tab s /\ ev_readers s' = ev_readers s /\
  (forall h y, assocs s !! h = Some y -> exists y', assocs s' !! h = Some y' /\ same_assoc y y').
Lemma good_keeps X s s' : Main X s' -> Ctxs s' -> keeps s s' -> good X s s'.
Proof. intros I C [K1 K2 K3 K4]. split_and!; try done. rewrite K1. intros h y H. by exists y. Qed.
Lemma good_trans X X' s1 s2 s3 : good X s1 s2 -> good X' s2 s3 -> good X' s1 s3.
Proof.
  intros (_ & _ & A1 & A2 & A3 & A4) (I & C & B1 & B2 & B3 & B4). split_and!; try done; try congruence. intros h y H.
  destruct (A4 _ _ H) as (y' & H' & S). destruct (B4 _ _ H') as (y2 & ? & ?). exists y2. split; [done|by etrans].
Qed.
Lemma good_refl X s : Main X s -> Ctxs s -> good X s s.
Proof. intros. by apply good_keeps. Qed.
Lemma good_assoc X s h y y' s1 : Main X s1 -> Ctxs s -> assocs s !! h = Some y -> same_assoc y y' ->
  s1 = { s with assocs := <[h := y']> (assocs s) } -> good X s s1.
Proof.
  intros I C H S ->. split_and!; try done. intros d z Z. destruct (decide (d = h)) as [->|D].
  - exists y'. split; [apply lookup_insert_eq|congruence].
  - exists z. split; [|done]. change (<[h := y']> (assocs s) !! d = Some z). by rewrite lookup_insert_ne.
Qed.

(** [ecmSession_init] *)
Lemma ecmSession_init_spec X a m n s : plain X -> Main X s -> Ctxs s -> is_Some (assocs s !! a) ->
  wp (ecmSession_init a m n) (fun _ s' => good X s s') s.
Proof.
  intros PX I C [y A]. unfold ecmSession_init, mme_newLocalUEid. wstep. apply wp_fresh. repeat wstep.
  match goal with |- context [<[_ := ?v]> _] => set (x := v) end.
  pose proof (Main_new X s a z x PX I C (ex_intro _ y A) (free_id_fresh _ _ _ _ Heqo) eq_refl eq_refl eq_refl) as B.
  set (c := next s) in *.
  apply (wp_conseq _ (fun _ s' => exists y, born (newborn_exc X c) c a z s s' y)).
  { unfold ecmSession_processMsg. wstep. unfold ecm__. eapply wp_deref; [exact (b_ecm _ _ _ _ _ _ _ B)|]. by eapply Idle_spec. }
  intros [] s2 _ [x2 B2]. rewrite <- (b_assoc _ _ _ _ _ _ _ B2). wstep.
  eapply wp_conseq; [eapply regSession_spec; try apply B2; done|]. intros [] s3 _ (y2 & y3 & A2 & SA & E3 & I3).
  assert (B3 : ecms s3 !! c = Some x2) by (rewrite E3; apply B2). wstep.
  assert (T3 : ecm_tab s3 !! mmeUEId x2 = None).
  { rewrite (b_id _ _ _ _ _ _ _ B2), E3. apply B2. }
  eapply wp_conseq; [eapply registerECM_spec; [exact I3|done..]|]. intros [] s4 _ [E4 I4]. wstep.
  cbn in I4. rewrite <- (plain_eq X PX) in I4. eapply good_trans; [apply good_keeps; apply B2|]. 
  eapply good_trans; [eapply (good_assoc (registered (newborn_exc X c))); [exact I3|apply B2|done..]|].
  apply good_keeps; [done| |by subst s4]. subst s4 s3. apply B2.
Qed.

(** ** Messages of a connection *)

Lemma good_frame X s s' : Main X s -> frame s s' -> Ctxs s' -> good X s s'.
Proof. intros I F C. apply good_keeps; [by eapply Main_frame|done|by apply frame_keeps]. Qed.
Lemma good_quiet X s s' : Main X s -> Ctxs s -> quiet s s' -> good X s s'.
Proof. intros I C Q. apply good_frame; [done|by apply quiet_frame|by eapply quiet_Ctxs]. Qed.
Lemma good_same X s c x y : Main X s -> Ctxs s -> ecms s !! c = Some x -> same_ecm x y ->
  good X s { s with ecms := <[c := y]> (ecms s) }.
Proof. intros I C E S. apply good_keeps; [by eapply Main_same|done|by constructor]. Qed.
Lemma wait_good X s c cb : Main X s -> Ctxs s -> is_Some (ecms s !! c) -> (forall d, waits_for d cb = true -> d = c) ->
  wp (wait cb) (fun _ s' => good X s s') s.
Proof.
  intros I C L W. apply wp_put, good_keeps; [|done|by constructor]. constructor; try apply I.
  intros cb' d H Q. change (cb' ∈ pending s ++ [cb]) in H. apply elem_of_app in H as [H|H]; [by eapply (m_wait _ _ I)|].
  apply list_elem_of_singleton in H as ->. by apply W in Q as ->.
Qed.
Lemma waits_self c d : waits_for d (Cb_pathSwitchAck c) = true \/ waits_for d (Cb_releaseCommand c) = true -> d = c.
Proof. by intros [H|H]; apply bool_decide_eq_true in H. Qed.

(** A call of the mobility management for a session. *)
Lemma session_call_good X c x s call : Main X s -> Ctxs s -> ecms s !! c = Some x ->
  wp (null (c_emm x) (fun h => call_emm h call)) (fun _ s' => good X s s' /\ ecms s' = ecms s) s.
Proof.
  intros I C E. apply wp_null. intros h Eh. eapply wp_conseq; [eapply call_spec; [done..|by eapply m_emm]|].
  intros [] s' _ [F C']. split; [by apply good_frame|apply F].
Qed.

Lemma release_req_spec X c x m s : Main X s -> Ctxs s -> ecms s !! c = Some x ->
  wp (ecm_UEContextRelease c m) (fun _ s' => good X s s') s.
Proof.
  intros I C E. unfold ecm_UEContextRelease. wstep. eapply wp_set_ecm; [done|]. set (y := { x with causeRelease := _ }).
  pose proof (good_same X s c x y I C E ltac:(by constructor)) as G1. set (s1 := { s with ecms := _ }) in *.
  assert (E1 : ecms s1 !! c = Some y) by apply lookup_insert_eq. wstep. unfold ecm__. eapply wp_deref; [exact E1|]. wstep.
  pose proof G1 as (I1 & C1 & _). eapply wp_conseq; [by eapply session_call_good|]. intros [] s2 _ [G2 E2]. pose proof G2 as (I2 & C2 & _).
  eapply wp_conseq; [eapply (wait_good X _ c); [done..|rewrite E2; eauto|intros d H; apply (waits_self c d); by right]|].
  intros [] s3 _ G3. exact (good_trans _ _ _ _ _ G1 (good_trans _ _ _ _ _ G2 G3)).
Qed.

(** The end of a connection that was taken out of the table of its association. *)
Lemma end_session X c x s y : plain X -> Main (unregistered X c) s -> Ctxs s -> ecms s !! c = Some x ->
  assocs s !! c_assoc x = Some y -> ecm_sessions y !! eNBUEId x = None ->
  forall m, wp m (fun (_ : unit) s' => Main (freed (unregistered X c) x) s' /\ Ctxs s' /\ keeps s s' /\ ecms s' = delete c (ecms s)) s ->
  wp m (fun _ s' => good X s s') s.
Proof.
  intros PX I C E A Y m W. eapply wp_conseq; [done|]. intros [] s' _ (I' & C' & K & _). apply good_keeps; [|done..].
  rewrite (plain_eq X PX). eapply (Main_ungone (freed (unregistered X c) x)); [done|done|].
  intros a Ha. rewrite (k_assocs _ _ K) in Ha. simplify_eq. done.
Qed.

Lemma log_good X c x s : Main X s -> Ctxs s -> ecms s !! c = Some x -> wp (ecm_log c) (fun _ => good X s) s.
Proof. intros I C E. eapply wp_conseq; [by eapply log_spec|]. intros [] s' _ Q. by apply good_quiet. Qed.

(** A session is taken out of its association and then ended by [m]. *)
Lemma dereg_end_spec X c x s (m : S1M unit) : plain X -> Main X s -> Ctxs s -> ecms s !! c = Some x -> mono m ->
  (forall s y, Main (unregistered X c) s -> Ctxs s -> ecms s !! c = Some x -> assocs s !! c_assoc x = Some y ->
    wp m (fun _ s' => Main (freed (unregistered X c) x) s' /\ Ctxs s' /\ keeps s s' /\ ecms s' = delete c (ecms s)) s) ->
  wp (s1Assoc_deregisterECMSession (c_assoc x) c ;; m) (fun _ s' => good X s s') s.
Proof.
  intros PX I C E M W. pose proof PX as (PU & PG & PN). wstep. eapply wp_conseq; [by eapply deregSession_spec|].
  intros [] s1 _ (y & y' & A & SA & E1 & I1 & _ & Y). assert (C1 : Ctxs s1) by (by subst s1).
  assert (Ex : ecms s1 !! c = Some x) by (by subst s1). assert (A1 : assocs s1 !! c_assoc x = Some y') by (subst s1; apply lookup_insert_eq).
  eapply wp_conseq; [eapply end_session; [exact PX|done..|by eapply W]|]. intros [] s2 _ G2.
  eapply good_trans; [by eapply good_assoc|done].
Qed.

Lemma release_complete_spec X c y s : plain X -> Main X s -> Ctxs s -> ecms s !! c = Some y ->
  wp (ecm_log c ;; set_ecm c (fun x => { x with causeRelease := None }) ;; ecm_log c ;;
      s1Assoc_deregisterECMSession (c_assoc y) c ;; _ ← assoc_ (c_assoc y); mme_deregisterECM c) (fun _ s' => good X s s') s.
Proof.
  intros PX I C E. pose proof PX as (PU & PG & PN). wstep. eapply wp_conseq; [by eapply log_spec|]. intros [] s1 _ Q1.
  pose proof (good_quiet _ _ _ I C Q1) as G1. pose proof G1 as (I1 & C1 & _). assert (E1 : ecms s1 !! c = Some y) by (by destruct Q1 as [l ->]).
  wstep. eapply wp_set_ecm; [done|]. set (z := { y with causeRelease := None }).
  pose proof (good_same X s1 c y z I1 C1 E1 ltac:(by constructor)) as G2. set (s2 := { s1 with ecms := _ }) in *. pose proof G2 as (I2 & C2 & _).
  assert (E2 : ecms s2 !! c = Some z) by apply lookup_insert_eq. wstep.
  eapply wp_conseq; [by eapply log_spec|]. intros [] s3 _ Q3. pose proof (good_quiet _ _ _ I2 C2 Q3) as G3. pose proof G3 as (I3 & C3 & _).
  assert (E3 : ecms s3 !! c = Some z) by (by destruct Q3 as [l ->]). change (c_assoc y) with (c_assoc z).
  eapply wp_conseq; [eapply dereg_end_spec; [exact PX|done..|mono_tac|]|].
  - intros s4 a I4 C4 E4 A4. repeat wstep. eapply deregisterECM_spec; eauto.
  - intros [] s5 _ G5. exact (good_trans _ _ _ _ _ G1 (good_trans _ _ _ _ _ G2 (good_trans _ _ _ _ _ G3 G5))).
Qed.

Lemma ids_match_spec x m s : wp (ids_match x m) (fun _ s' => s' = s) s.
Proof. unfold ids_match. by repeat wstep. Qed.

Lemma Connected_spec X c x m n s : plain X -> Main X s -> Ctxs s -> ecms s !! c = Some x ->
  wp (Connected_processMsg c m n) (fun _ s' => good X s s') s.
Proof.
  intros PX I C E. pose proof PX as (PU & PG & PN). unfold Connected_processMsg. wstep. unfold ecm__. eapply wp_deref; [done|].
  destruct (_ && _); [by eapply log_good|]. wstep.
  apply (wp_conseq _ (fun _ s1 => good X s s1 /\ exists y, ecms s1 !! c = Some y /\ same_ecm x y)).
  { destruct (negb _); [|repeat wstep; split; [by apply good_refl|]; exists x; by split].
    eapply wp_set_ecm; [done|]. split; [by eapply good_same|]. eexists. split; [apply lookup_insert_eq|done]. }
  intros [] s1 _ (G1 & y & E1 & [S1 S2 S3 S4]). pose proof G1 as (I1 & C1 & _).
  apply (wp_conseq _ (fun _ s' => good X s1 s')); [|intros [] s' _ G; exact (good_trans _ _ _ _ _ G1 G)].
  rewrite <- S1, <- S2. clear s I C E G1 S1 S2 S3 S4. destruct (is_msg _ _ _); [by apply release_complete_spec|].
  destruct (is_msg _ _ _); [|destruct (is_msg _ _ _); [|destruct (is_msg _ _ _); [|by eapply log_good]]]; wstep.
  - eapply wp_conseq; [apply ids_match_spec|]. intros ok s2 _ ->. wstep. eapply wp_conseq; [by eapply log_spec|]. intros [] s2 _ Q.
    pose proof (good_quiet _ _ _ I1 C1 Q) as G2. pose proof G2 as (I2 & C2 & _).
    assert (E2 : ecms s2 !! c = Some y) by (by destruct Q as [l ->]). destruct ok; [|by repeat wstep].
    eapply wp_conseq; [by eapply session_call_good|]. intros [] s3 _ [G3 _]. exact (good_trans _ _ _ _ _ G2 G3).
  - eapply wp_conseq; [apply ids_match_spec|]. intros ok s2 _ ->. destruct ok; [|by eapply log_good]. wstep. wstep. destruct a.
    eapply wp_conseq; [by eapply session_call_good|]. by intros [] s3 _ [G3 _].
  - eapply wp_conseq; [by eapply log_spec|]. intros [] s2 _ Q. pose proof (good_quiet _ _ _ I1 C1 Q) as G2. pose proof G2 as (I2 & C2 & _).
    assert (E2 : ecms s2 !! c = Some y) by (by destruct Q as [l ->]).
    eapply wp_conseq; [by eapply release_req_spec|]. intros [] s3 _ G3. exact (good_trans _ _ _ _ _ G2 G3).
Qed.

Lemma processMsg_spec X c x m n s : plain X -> Main X s -> Ctxs s -> ecms s !! c = Some x ->
  is_msg m id_initialUEMessage initiating_message = false ->
  wp (ecmSession_processMsg c m n) (fun _ s' => good X s s') s.
Proof.
  intros PX I C E N. unfold ecmSession_processMsg. wstep. unfold ecm__. eapply wp_deref; [done|].
  destruct (c_stateName x); [|by eapply Connected_spec]. destruct (m_assoc _ _ I _ _ E) as [y Ey].
  unfold Idle_processMsg. repeat wstep; [congruence|]. by apply good_refl.
Qed.

(** *** Path switch *)

(** The session is moved while it is in no table. *)
Lemma move_spec X c x s a m n k (Q : unit -> s1st -> Prop) : plain X -> Main (unregistered X c) s -> Ctxs s -> nowhere c s ->
  ecms s !! c = Some x -> is_Some (assocs s !! a) -> mono k ->
  (forall s', incidents s' = [] -> good X s s' -> (exists y, ecms s' !! c = Some y /\ c_emm y = c_emm x) -> wp k Q s') ->
  wp (set_ecm c (fun x => { x with c_assoc := a; r_sid := n }) ;;
      e ← ie_of m id_eNB_UE_S1AP_ID as_eNB_id;
      set_ecm c (fun x => { x with eNBUEId := e }) ;; s1Assoc_registerECMSession a c ;; k) Q s.
Proof.
  intros PX I C N E A M W. wstep. eapply wp_set_ecm; [done|]. set (x1 := { x with c_assoc := a; r_sid := n }). do 3 wstep. rename a0 into e.
  set (s1 := { s with ecms := _ }). assert (E1 : ecms s1 !! c = Some x1) by apply lookup_insert_eq.
  eapply wp_set_ecm; [exact E1|]. set (x2 := { x1 with eNBUEId := e }). set (s2 := { s1 with ecms := _ }).
  assert (I1 : Main (unregistered X c) s1) by (eapply Main_ecm; [exact I|exact E|done|done|done|by right]).
  assert (I2 : Main (unregistered X c) s2) by (eapply Main_ecm; [exact I1|exact E1|done|done|done|by right]).
  assert (E2 : ecms s2 !! c = Some x2) by apply lookup_insert_eq. wstep.
  eapply wp_conseq; [eapply (regSession_spec _ c x2 s2); [exact I2|done|done|done|done]|].
  intros [] s3 NI (y & y' & A3 & SA & E3 & I3). apply W; [done| |].
  - eapply good_trans; [apply (good_keeps _ s s2); [exact I2|exact C|by constructor]|].
    eapply good_assoc; [|exact C|exact A3|exact SA|exact E3]. rewrite (plain_eq X PX). destruct PX as (_ & _ & PN).
    unfold registered in I3. cbn in I3. by rewrite PN in I3.
  - exists x2. split; [by rewrite E3|done].
Qed.

Lemma setTAI_good X c x m s : Main X s -> Ctxs s -> ecms s !! c = Some x ->
  wp (ecm_setTAI c m) (fun _ s' => good X s s' /\ exists y, ecms s' !! c = Some y /\ c_emm y = c_emm x) s.
Proof.
  intros I C E. unfold ecm_setTAI. repeat wstep. eapply wp_set_ecm; [done|]. split; [by eapply good_same|].
  eexists. split; [apply lookup_insert_eq|done].
Qed.

Lemma pathSwitch_spec X o a m n s : plain X -> Main X s -> Ctxs s -> is_Some (assocs s !! a) ->
  (forall c, o = Some c -> is_Some (ecms s !! c)) ->
  wp (ecmSession_pathSwitchReq o a m n) (fun _ s' => good X s s') s.
Proof.
  intros PX I C A L. pose proof PX as (PU & PG & PN). apply wp_null. intros c ->. destruct (L c eq_refl) as [x E].
  wstep. unfold ecm__. eapply wp_deref; [done|]. wstep. apply wp_null. intros h Eh. destruct (m_emm _ _ I _ _ _ E Eh) as [u Eu].
  destruct (m_assoc _ _ I _ _ E) as [y Ey]. destruct A as [ya Ea]. unfold emm_. eapply wp_deref; [done|].
  do 2 (wstep; unfold assoc_; eapply wp_deref; [done|]). wstep.
  eapply wp_conseq; [by eapply log_spec|]. intros [] s1 _ Q1. pose proof (good_quiet _ _ _ I C Q1) as G1. pose proof G1 as (I1 & C1 & _).
  assert (E1 : ecms s1 !! c = Some x) by (by destruct Q1 as [l ->]). wstep.
  eapply wp_conseq; [by eapply deregSession_spec|]. intros [] s2 _ (y1 & y2 & A1 & SA & Q2 & I2 & N2 & _).
  assert (C2 : Ctxs s2) by (by subst s2). assert (E2 : ecms s2 !! c = Some x) by (by subst s2).
  pose proof (good_assoc _ _ _ _ _ _ I2 C1 A1 SA Q2) as G2. assert (A2 : is_Some (assocs s2 !! a)).
  { destruct G1 as (_ & _ & _ & _ & _ & M1), G2 as (_ & _ & _ & _ & _ & M2). destruct (M1 _ _ Ea) as (? & H & _).
    destruct (M2 _ _ H) as (? & ? & _). eauto. }
  apply (move_spec X c x s2 a); [done..|mono_tac|]. intros s3 _ G3 (x3 & E3 & N3). pose proof G3 as (I3 & C3 & _). wstep.
  eapply wp_conseq; [by eapply setTAI_good|]. intros [] s4 _ (G4 & x4 & E4 & N4). pose proof G4 as (I4 & C4 & _). do 3 wstep.
  eapply wp_set_ecm; [done|]. set (x5 := { x4 with cellID := _ }). set (s5 := { s4 with ecms := _ }).
  pose proof (good_same X s4 c x4 x5 I4 C4 E4 ltac:(by constructor)) as G5. pose proof G5 as (I5 & C5 & _).
  assert (E5 : ecms s5 !! c = Some x5) by apply lookup_insert_eq.
  replace (c_emm x) with (c_emm x5) by (change (c_emm x5) with (c_emm x4); congruence). wstep.
  eapply wp_conseq; [by eapply session_call_good|]. intros [] s6 _ [G6 E6]. pose proof G6 as (I6 & C6 & _).
  eapply wp_conseq; [eapply (wait_good X _ c); [done..|rewrite E6; eauto|intros d H; apply (waits_self c d); by left]|].
  intros [] s7 _ G7. eapply good_trans; [exact G1|]. eapply good_trans; [exact G2|]. eapply good_trans; [exact G3|].
  eapply good_trans; [exact G4|]. eapply good_trans; [exact G5|]. exact (good_trans _ _ _ _ _ G6 G7).
Qed.

(** ** Reset *)

Lemma ecm_lookup_spec {K} `{Countable K} (tab : s1st -> gtable K) k s :
  (forall o v, tab s !! k = Some (o, v) -> o = v /\ is_Some (ecms s !! v)) ->
  wp (g_lookup ecms tab k) (fun r s' => s' = s /\ forall c, r = Some c -> is_Some (ecms s !! c)) s.
Proof.
  intros C. unfold g_lookup. repeat wstep; [|by split].
  destruct (C _ _ eq_refl) as [-> [u Eu]]. repeat wstep. split; [done|]. intros h [= <-]. eauto.
Qed.
Lemma lookupECM_spec X i s : Main X s ->
  wp (mme_lookupECM i) (fun r s' => s' = s /\ forall c, r = Some c -> is_Some (ecms s !! c)) s.
Proof. intros I. apply ecm_lookup_spec. intros o v H. destruct (m_tab _ _ I _ _ _ H) as (-> & x & Ex & _). eauto. Qed.
Lemma getECMSession_spec X a i s : Main X s -> gone X = None -> is_Some (assocs s !! a) ->
  wp (s1Assoc_getECMSession a i) (fun r s' => s' = s /\ forall c, r = Some c -> is_Some (ecms s !! c)) s.
Proof.
  intros I G [y A]. unfold s1Assoc_getECMSession. repeat wstep. apply ecm_lookup_spec. intros o v H.
  destruct (m_entry _ _ I _ _ _ _ _ A H) as (-> & x & Ex & _); [congruence|]. eauto.
Qed.
Lemma reset_session_spec X a v s : Main X s -> gone X = None -> is_Some (assocs s !! a) ->
  wp (reset_session a v) (fun r s' => s' = s /\ forall c, r = Some c -> is_Some (ecms s !! c)) s.
Proof.
  intros I G A. unfold reset_session. repeat wstep; try done; [by eapply getECMSession_spec|by eapply lookupECM_spec].
Qed.

Lemma good_live X s s' a : good X s s' -> is_Some (assocs s !! a) -> is_Some (assocs s' !! a).
Proof. intros (_ & _ & _ & _ & _ & L) [y A]. destruct (L _ _ A) as (y' & ? & _). eauto. Qed.

Lemma reset_list_spec X a l : plain X -> forall s, Main X s -> Ctxs s -> is_Some (assocs s !! a) ->
  wp (reset_list a l) (fun _ s' => good X s s') s.
Proof.
  intros PX. pose proof PX as (PU & PG & PN). induction l as [|[id cr p v] l IH]; intros s I C A; cbn [reset_list].
  { repeat wstep. by apply good_refl. }
  wstep. eapply wp_conseq; [by eapply reset_session_spec|]. intros o s1 _ [-> L]. wstep.
  apply (wp_conseq _ (fun _ s1 => good X s s1)).
  - destruct o as [c|]; [|repeat wstep; by apply good_refl]. destruct (L c eq_refl) as [x E]. do 4 wstep.
    apply wp_incident_when. intros B. apply negb_false_iff, bool_decide_eq_true in B. subst a.
    eapply dereg_end_spec; [done..|mono_tac|]. intros s1 y I1 C1 E1 A1. eapply resetECM_spec; eauto.
  - intros [] s1 _ G1. pose proof G1 as (I1 & C1 & _). eapply wp_conseq; [eapply IH; [done..|by eapply good_live]|].
    intros [] s2 _ G2. exact (good_trans _ _ _ _ _ G1 G2).
Qed.

Lemma foreach_good X a f s y : plain X -> removes X f -> (forall c, mono (f c)) -> Main X s -> Ctxs s -> assocs s !! a = Some y ->
  wp (foreach_remove a f (map_to_list (ecm_sessions y))) (fun _ s' => good X s s') s.
Proof.
  intros PX R M I C A. eapply wp_conseq.
  { eapply foreach_spec; [done..|apply NoDup_fst_map_to_list|]. by rewrite list_to_map_to_list. }
  intros [] s1 _ (I1 & C1 & y1 & (Q1 & Q2 & Q3 & Q4) & S1 & _). split_and!; try done. intros h z H. rewrite Q1.
  destruct (decide (h = a)) as [->|D]; [|rewrite lookup_insert_ne by done; by exists z].
  exists y1. split; [apply lookup_insert_eq|congruence].
Qed.

Lemma process_reset_spec X a m s : plain X -> Main X s -> Ctxs s -> is_Some (assocs s !! a) ->
  wp (process_reset a m) (fun _ s' => good X s s') s.
Proof.
  intros PX I C A. unfold process_reset. do 2 wstep. destruct a0 as [ch t]. wstep.
  apply (wp_conseq _ (fun _ s1 => good X s s1)).
  - pose proof A as [y Ey]. repeat wstep; try (by apply good_refl).
    + eapply wp_conseq; [eapply foreach_good; [done|by apply resetECM_removes|mono_tac|done..]|]. intros [] s1 _ G. by apply wp_ret.
    + eapply wp_conseq; [by eapply reset_list_spec|]. intros [] s1 _ G. by apply wp_ret.
  - intros l' s1 _ G1. pose proof G1 as (I1 & C1 & _). repeat wstep.
    eapply wp_conseq; [apply sendNonUE_spec; by eapply good_live|]. intros [] s2 _ Q.
    exact (good_trans _ _ _ _ _ G1 (good_quiet _ _ _ I1 C1 Q)).
Qed.

(** ** Messages of an association *)

Lemma path_switch_spec X a m n s : plain X -> Main X s -> Ctxs s -> is_Some (assocs s !! a) ->
  wp (path_switch a m n) (fun _ s' => good X s s') s.
Proof.
  intros PX I C A. unfold path_switch. do 3 wstep. eapply wp_conseq; [by eapply lookupECM_spec|]. intros o s1 _ [-> L].
  by apply pathSwitch_spec.
Qed.
Lemma name_spec X m s : Main X s -> Ctxs s -> wp (procedure_name m) (fun _ s' => good X s s') s.
Proof. intros I C. unfold procedure_name. repeat wstep. by apply good_refl. Qed.

Lemma Active_spec X a m n s : plain X -> Main X s -> Ctxs s -> is_Some (assocs s !! a) ->
  wp (Active_processMsg a m n) (fun _ s' => good X s s') s.
Proof.
  intros PX I C A. pose proof PX as (PU & PG & PN). pose proof A as [y Ey]. unfold Active_processMsg. wstep. unfold assoc_. eapply wp_deref; [done|].
  assert (INIT : wp (_ ← ecmSession_init a m n; skip1) (fun _ s' => good X s s') s).
  { wstep. eapply wp_conseq; [by eapply ecmSession_init_spec|]. intros c s1 _ G. by apply wp_ret. }
  destruct (_ =? _).
  - destruct (_ =? _); [by apply process_reset_spec|]. destruct (is_msg _ _ _); [done|].
    destruct (is_msg _ _ _); [by apply path_switch_spec|]. destruct (logged_only _); [|by apply name_spec].
    repeat wstep. by apply good_refl.
  - destruct (is_msg _ _ _) eqn:N; [done|]. destruct (is_msg _ id_PathSwitchRequest _); [by apply path_switch_spec|].
    do 3 wstep. eapply wp_conseq; [by eapply getECMSession_spec|]. intros o s1 _ [-> L].
    destruct o as [c|]; [|repeat wstep; by apply good_refl]. destruct (L c eq_refl) as [x Ex]. repeat wstep; [|by apply good_refl].
    by eapply processMsg_spec.
Qed.

(** ** Setup and end of an association *)

(** No association is known under the identity of [a]. *)
Definition unlisted (a : nat) (s : s1st) : Prop := forall k o v, geNB_tab s !! k = Some (o, v) -> a <> o /\ a <> v.

Lemma Main_assoc X s a y y' : Main X s -> assocs s !! a = Some y -> fd y' = fd y -> ecm_sessions y' = ecm_sessions y ->
  (unlisted a s \/ same_assoc y y' \/ configured X = Some a /\ global_eNB_ID y' = global_eNB_ID y) ->
  Main X { s with assocs := <[a := y']> (assocs s) }.
Proof.
  intros I A F S W. set (s' := { s with assocs := <[a := y']> (assocs s) }).
  assert (L : forall d z, assocs s !! d = Some z -> exists z', assocs s' !! d = Some z' /\ fd z' = fd z /\ (d <> a -> z' = z) /\ (d = a -> z' = y')).
  { intros d z H. destruct (decide (d = a)) as [->|D].
    - exists y'. split_and!; [apply lookup_insert_eq|congruence|done|done].
    - exists z. split_and!; try done. change (<[a := y']> (assocs s) !! d = Some z). by rewrite lookup_insert_ne. }
  constructor; try apply I.
  - intros c x H. destruct (m_assoc _ _ I _ _ H) as [z Hz]. destruct (L _ _ Hz) as (z' & ? & _). eauto.
  - intros c x z H U Z. apply assoc_insert in Z as [[Z ->]|[_ Z]]; [rewrite S|]; by eapply (m_reg _ _ I); [..|rewrite ?Z].
  - intros d z k o v Z K G. apply assoc_insert in Z as [[-> ->]|[_ Z]]; [rewrite S in K|]; by eapply (m_entry _ _ I).
  - intros k o v K. destruct (m_fd _ _ I _ _ _ K) as (-> & z & Hz & <-). split; [done|]. destruct (L _ _ Hz) as (z' & ? & ? & _). eauto.
  - intros k o v d K G D. destruct (m_geNB _ _ I _ _ _ d K G D) as (z & Hz & Z1 & Z2 & Z3).
    destruct (L _ _ Hz) as (z' & Hz' & Z4 & Z5 & Z6). exists z'. rewrite Z4. split; [done|].
    destruct (decide (d = a)) as [->|N]; [|by rewrite Z5]. rewrite Z6 by done. assert (z = y) as -> by congruence.
    destruct W as [W|[[_ W1 W2]|[W1 W2]]].
    + destruct (W _ _ _ K). destruct D; congruence.
    + rewrite W1. split_and!; [done| |done]. destruct Z2; [left|right]; congruence.
    + rewrite W2. split_and!; [done|by right|done].
  - intros d D. destruct (m_next _ _ I _ D) as (? & ? & ?). split_and!; [|done..].
    change (<[a := y']> (assocs s) !! d = None). rewrite lookup_insert_ne; [done|]. intros ->. congruence.
Qed.

Definition conf_exc (a : nat) : exc := {| unreg := None; gone := None; newborn := None; configured := Some a; egone := None |}.
Lemma Main_unconf a s : Main (conf_exc a) s -> (unlisted a s \/ exists y, assocs s !! a = Some y /\ a_stateName y = S1_Active) -> Main none s.
Proof.
  intros I W. constructor; try apply I. intros k o v h K G D. destruct (m_geNB _ _ I _ _ _ h K G D) as (z & Hz & Z1 & Z2 & Z3).
  exists z. split_and!; [done..| |done]. left. destruct Z2 as [Z2|Z2]; [done|]. cbn in Z2. injection Z2 as <-.
  destruct W as [W|(y & Y1 & Y2)]; [|congruence]. destruct (W _ _ _ K). destruct D; congruence.
Qed.

Lemma geNB_removed X a y s : Main X s -> egone X = None -> assocs s !! a = Some y ->
  let s' := { s with geNB_tab := delete (geNB_key (global_eNB_ID y)) (geNB_tab s) } in Main X s' /\ unlisted a s'.
Proof.
  intros I G A s'. split.
  - constructor; try apply I. intros k o v h K D H. change (delete (geNB_key (global_eNB_ID y)) (geNB_tab s) !! k = Some (o, v)) in K.
    apply lookup_delete_Some in K as [_ K]. by eapply (m_geNB _ _ I).
  - intros k o v K. change (delete (geNB_key (global_eNB_ID y)) (geNB_tab s) !! k = Some (o, v)) in K.
    apply lookup_delete_Some in K as [D K]. assert (GN : egone X <> Some k) by congruence.
    split; intros ->; destruct (m_geNB _ _ I _ _ _ _ K GN (or_introl eq_refl)) as (z & Hz & Q & _);
      destruct (m_geNB _ _ I _ _ _ _ K GN (or_intror eq_refl)) as (z' & Hz' & Q' & _); congruence.
Qed.

Lemma unreader X f s : Main X s -> Main X { s with ev_readers := delete f (ev_readers s) }.
Proof.
  intros I. constructor; try apply I. intros k v H. change (delete f (ev_readers s) !! k = Some v) in H.
  apply lookup_delete_Some in H as [_ H]. by eapply (m_read _ _ I).
Qed.

(** [mme_deregisterS1Assoc] *)
Lemma deregisterS1Assoc_spec X a y s : Main X s -> egone X = None -> assocs s !! a = Some y ->
  wp (mme_deregisterS1Assoc a) (fun _ s' => Main X s' /\ unlisted a s' /\ emms s' = emms s /\ emm_tab s' = emm_tab s /\
    assocs s' = assocs s /\ assoc_tab s' = assoc_tab s /\ ev_readers s' = ev_readers s) s.
Proof.
  intros I G A. destruct (geNB_removed X a y s I G A) as [I' U]. unfold mme_deregisterS1Assoc, g_remove. repeat wstep.
  - destruct (m_geNB _ _ I _ _ _ n Heqo) as (z & Hz & _); [congruence|by left|]. repeat wstep. by split_and!.
  - cbv zeta in I', U. rewrite delete_id in I', U by done. by split_and!.
Qed.

(** [s1_deregisterAssoc] of an association that no other table has. *)
Lemma deregisterAssoc_spec X a y s : plain X -> Main X s -> Ctxs s -> assocs s !! a = Some y -> assoc_tab s !! fd y = Some (a, a) ->
  ev_readers s !! fd y = None -> (forall k o v, geNB_tab s !! k = Some (o, v) -> egone X <> Some k -> a <> o /\ a <> v) ->
  wp (s1_deregisterAssoc a) (fun _ s' => Main X s' /\ Ctxs s' /\ geNB_tab s' = geNB_tab s /\ assocs s' = delete a (assocs s)) s.
Proof.
  intros PX I C A T R U. unfold s1_deregisterAssoc, g_remove. repeat wstep; simplify_eq. repeat wstep. cbn [destroy_assoc].
  set (s1 := { s with assoc_tab := delete (fd y) (assoc_tab s) }).
  assert (I1 : Main X s1).
  { constructor; try apply I.
    - intros k o v K. change (delete (fd y) (assoc_tab s) !! k = Some (o, v)) in K. apply lookup_delete_Some in K as [_ K].
      by eapply (m_fd _ _ I).
    - intros k v K. change (delete (fd y) (assoc_tab s) !! k = Some (v, v)). apply lookup_delete_Some.
      split; [intros <-; change (ev_readers s !! fd y = Some v) in K; congruence|by eapply (m_read _ _ I)].
    - intros k o v h K D H. destruct (m_geNB _ _ I _ _ _ h K D H) as (z & Hz & Z1 & Z2 & Z3). exists z. split_and!; [done..|].
      change (delete (fd y) (assoc_tab s) !! fd z = Some (h, h)). apply lookup_delete_Some. split; [|done].
      intros Q. rewrite <- Q, Heqo in Z3. injection Z3 as ->. destruct (U _ _ _ K D). destruct H; congruence. }
  eapply wp_conseq; [apply (s1Assoc_free_spec X a s1); try done|by intros [] s2 _ H].
  intros k K. change (delete (fd y) (assoc_tab s) !! k = Some (a, a)) in K.
  apply lookup_delete_Some in K as [D K]. destruct (m_fd _ _ I _ _ _ K) as (_ & z & Hz & Q). congruence.
Qed.

Lemma close_spec a y s : Main (conf_exc a) s -> Ctxs s -> assocs s !! a = Some y -> assoc_tab s !! fd y = Some (a, a) ->
  wp (close_assoc a) (fun _ s' => Main none s' /\ Ctxs s') s.
Proof.
  intros I C A T. unfold close_assoc. do 3 wstep. unfold mme_deregisterRead. repeat wstep. set (s1 := { s with ev_readers := _ }).
  pose proof (unreader _ (fd y) _ I) as I1. eapply wp_conseq; [by eapply (deregisterS1Assoc_spec _ a y s1)|].
  intros [] s2 _ (I2 & U2 & M2 & T2 & A2 & B2 & R2).
  assert (C2 : Ctxs s2) by (intros k o v; rewrite M2, T2; apply C).
  eapply wp_conseq; [eapply (deregisterAssoc_spec none a y s2)|].
  - done.
  - eapply Main_unconf; [done|by left].
  - done.
  - by rewrite A2.
  - by rewrite B2.
  - rewrite R2. apply lookup_delete_eq.
  - intros k o v K _. by eapply U2.
  - intros [] s3 _ (I3 & C3 & _). done.
Qed.

(** *** Data without pointers to objects *)

Lemma Fill_safe p e : globaleNBID_Fill p e <> UB UseAfterFree.
Proof. unfold globaleNBID_Fill, plmn_FillFromTBCD, rdn. destruct (_ <? _), e; discriminate. Qed.
Definition harmless {A} (o : outcome A) : Prop := o <> UB UseAfterFree.
Lemma harmless_bind {A B} (o : outcome A) (k : A -> outcome B) : harmless o -> (forall a, harmless (k a)) -> harmless (o ≫= k).
Proof. unfold harmless. destruct o as [a|f]; [intros _ H; apply H|]. intros H _ E. apply H. by injection E as ->. Qed.
Lemma any_ok_safe {A} (f : A -> outcome bool) l : (forall x, harmless (f x)) -> harmless (any_ok f l).
Proof. intros F. induction l as [|x l IH]; [done|]. apply harmless_bind; [apply F|]. intros b. by apply harmless_bind. Qed.
Lemma containsSupportedTAs_safe l : harmless (mme_containsSupportedTAs l).
Proof.
  apply any_ok_safe. intros [? ? ? [[? b]|]]; [|done]. apply any_ok_safe. intros [tbc ? ?]. unfold plmn_served.
  induction mme_servedGUMMEIs as [|[? ? [sv|] ? ?] l' IH]; [done| |done]. by apply harmless_bind.
Qed.
Lemma containsTA_safe l sn tac : s1Assoc_containsTA l sn tac <> UB UseAfterFree.
Proof. induction l as [|[? ? t [[? b]|]] l IH]; cbn; repeat case_match; congruence. Qed.

(** *** S1 Setup *)

(** An association in whatever state, on which the connection is open. *)
Definition opened (a : nat) (s : s1st) : Prop := exists y, assocs s !! a = Some y /\ assoc_tab s !! fd y = Some (a, a).

Lemma set_assoc_spec X a y f s : Main X s -> Ctxs s -> assocs s !! a = Some y -> fd (f y) = fd y -> ecm_sessions (f y) = ecm_sessions y ->
  (unlisted a s \/ same_assoc y (f y) \/ configured X = Some a /\ global_eNB_ID (f y) = global_eNB_ID y) ->
  wp (set_assoc a f) (fun _ s' => s' = { s with assocs := <[a := f y]> (assocs s) } /\ Main X s' /\ Ctxs s' /\ assocs s' !! a = Some (f y)) s.
Proof.
  intros I C A F S W. eapply wp_set_assoc; [done|]. split_and!; [done|by eapply Main_assoc|done|apply lookup_insert_eq].
Qed.

(** While the association is not known under its identity. *)
Record setup (a : nat) (s : s1st) : Prop := {
  p_main : Main none s; p_ctxs : Ctxs s; p_unlisted : unlisted a s; p_open : opened a s }.
Lemma setup_set a f s : setup a s -> (forall y, fd (f y) = fd y /\ ecm_sessions (f y) = ecm_sessions y) ->
  wp (set_assoc a f) (fun _ => setup a) s.
Proof.
  intros [I C U (y & A & T)] F. destruct (F y) as [F1 F2]. eapply wp_conseq; [eapply (set_assoc_spec none a y); eauto|].
  intros [] s1 _ (-> & I1 & C1 & A1). constructor; try done. exists (f y). rewrite F1. done.
Qed.
Lemma setup_none a s : setup a s -> Main none s /\ Ctxs s.
Proof. by intros []. Qed.

(** [mme_registerS1Assoc] *)
Lemma registerS1Assoc_spec a s : setup a s -> wp (mme_registerS1Assoc a) (fun _ s' => Main (conf_exc a) s' /\ Ctxs s' /\ opened a s') s.
Proof.
  intros [I C U (y & A & T)]. unfold mme_registerS1Assoc, g_insert.
  assert (W : forall o, o = a \/ (exists v, geNB_tab s !! geNB_key (global_eNB_ID y) = Some (o, v)) ->
    Main (conf_exc a) { s with geNB_tab := <[geNB_key (global_eNB_ID y) := (o, a)]> (geNB_tab s) }).
  { intros o O. apply (Main_weaken none (conf_exc a)) in I; [|apply none_weaker]. constructor; try apply I.
    intros k o' v' h K G H. change (<[geNB_key (global_eNB_ID y) := (o, a)]> (geNB_tab s) !! k = Some (o', v')) in K.
    apply lookup_insert_Some in K as [[<- [= <- <-]]|[_ K]]; [|by eapply (m_geNB _ _ I)].
    assert (S : h = a -> exists z, assocs s !! h = Some z /\ geNB_key (global_eNB_ID z) = geNB_key (global_eNB_ID y) /\ active (conf_exc a) h z /\ assoc_tab s !! fd z = Some (h, h)).
    { intros ->. exists y. split_and!; [done..|by right|done]. }
    destruct H as [->| ->]; [|by apply S]. destruct O as [->|[v O]]; [by apply S|].
    by eapply (m_geNB _ _ I _ _ _ _ O); [|left]. }
  repeat wstep.
  - destruct (m_geNB _ _ I _ _ _ n Heqo) as (z & Hz & _); [done|by left|]. repeat wstep.
    split_and!; [apply W; right; eauto|done|by exists y].
  - split_and!; [apply W; by left|done|by exists y].
Qed.

Lemma quiet_opened a s s' : quiet s s' -> opened a s -> opened a s'.
Proof. by intros [l ->]. Qed.
Lemma conf_send a m s : Main (conf_exc a) s -> Ctxs s -> opened a s ->
  wp (s1Assoc_sendNonUE a m) (fun _ s' => Main (conf_exc a) s' /\ Ctxs s' /\ opened a s') s.
Proof.
  intros I C (y & A & T). eapply wp_conseq; [apply sendNonUE_spec; eauto|]. intros [] s1 _ Q.
  split_and!; [eapply Main_frame; [by apply quiet_frame|done]|by eapply quiet_Ctxs|eapply quiet_opened; [done|by exists y]].
Qed.

(** [processMsg] before the setup *)
Definition setup_done (a : nat) (err : bool) (s : s1st) : Prop :=
  if err then Main (conf_exc a) s /\ Ctxs s /\ opened a s else Main none s /\ Ctxs s.
Lemma NotConfigured_spec a m n s : setup a s -> wp (NotConfigured_processMsg a m n) (setup_done a) s.
Proof.
  intros P. unfold NotConfigured_processMsg. wstep. eapply wp_conseq; [by apply setup_set|]. intros [] s1 _ P1.
  destruct (_ && _).
  { unfold procedure_name. repeat wstep. by apply setup_none in P1. }
  wstep. apply (wp_conseq _ (fun _ => setup a)).
  { repeat wstep; [|done]. by apply setup_set. }
  intros [] s2 _ P2. do 3 wstep. apply (wp_conseq _ (fun _ => setup a)).
  { unfold s1Assoc_setGlobalID. destruct a0 as [? ? plmn [? ch id]]. repeat wstep. apply wp_lift; [apply Fill_safe|]. intros g _. by apply setup_set. }
  intros [] s3 _ P3. destruct (s1ap_getIe _ _).1 as [v|]; cycle 1.
  { wstep. eapply wp_conseq; [by apply setup_set|]. intros [] s4 _ P4. apply wp_ret. by apply setup_none in P4. }
  destruct (as_TAs v) as [tas|]; [|by apply wp_fault]. wstep.
  eapply wp_conseq; [by apply setup_set|]. intros [] s4 _ P4. wstep. eapply wp_conseq; [by apply registerS1Assoc_spec|].
  intros [] s5 _ (I5 & C5 & O5). wstep. apply wp_lift; [apply containsSupportedTAs_safe|]. intros ok _.
  destruct ok; do 3 wstep; (eapply wp_conseq; [by apply conf_send|]); intros [] s6 _ (I6 & C6 & O6); [|by apply wp_ret].
  destruct O6 as (y & A & T). wstep. eapply wp_conseq; [eapply (set_assoc_spec (conf_exc a)); try done; by right; right|].
  intros [] s7 _ (-> & I7 & C7 & A7). apply wp_ret. split; [|done]. eapply Main_unconf; [done|]. right. eexists. split; [exact A7|done].
Qed.

(** ** Events *)

Lemma accept_spec a r s y : Main none s -> Ctxs s -> assocs s !! a = Some y -> assoc_tab s !! fd y = Some (a, a) ->
  wp (s1_accept a r) (fun _ s' => Main none s' /\ Ctxs s') s.
Proof.
  intros I C A T. unfold s1_accept. wstep. unfold assoc_. eapply wp_deref; [done|].
  destruct r as [| |octets n]; [eapply close_spec; eauto; by eapply Main_weaken, I; apply none_weaker|by apply wp_ret|]. do 3 wstep.
  destruct (a_stateName y) eqn:S.
  - eapply wp_conseq; [apply (NotConfigured_spec a)|].
    + constructor; try done; [|by exists y]. intros k o v K. assert (N : forall h, h = o \/ h = v -> a <> h).
      { intros h Hh ->. destruct (m_geNB _ _ I _ _ _ h K) as (z & Hz & _ & Z & _); [done..|]. destruct Z as [Z|Z]; [congruence|done]. }
      split; apply N; auto.
    + intros [] s1 _ D; cbn in D; [|by apply wp_ret]. destruct D as (I1 & C1 & z & A1 & T1). by eapply close_spec.
  - wstep. eapply wp_conseq; [eapply (Active_spec none); [done..|by exists y]|]. intros [] s1 _ (I1 & C1 & _). repeat wstep. done.
Qed.

(** [s1_accept_new_eNB] *)
Lemma Main_new_assoc s f y : Main none s -> fd y = f -> ecm_sessions y = ∅ ->
  Main none { s with next := S (next s); assocs := <[next s := y]> (assocs s) }.
Proof.
  intros I F SE. destruct (m_next _ _ I (next s)) as (N1 & N2 & N3); [lia|].
  assert (L : forall d z, assocs s !! d = Some z -> <[next s := y]> (assocs s) !! d = Some z).
  { intros d z H. rewrite lookup_insert_ne; [done|]. intros <-. congruence. }
  constructor; try apply I.
  - intros c x H. destruct (m_assoc _ _ I _ _ H) as [z Hz]. exists z. by apply L.
  - intros c x z H U Z. apply assoc_insert in Z as [[Z ->]|[_ Z]]; [|by eapply (m_reg _ _ I)].
    destruct (m_assoc _ _ I _ _ H) as [w Hw]. congruence.
  - intros d z k o v Z K G. apply assoc_insert in Z as [[-> ->]|[_ Z]]; [by rewrite SE in K|]. by eapply (m_entry _ _ I).
  - intros k o v K. destruct (m_fd _ _ I _ _ _ K) as (-> & z & Hz & ?). split; [done|]. exists z. split; [by apply L|done].
  - intros k o v d K G D. destruct (m_geNB _ _ I _ _ _ d K G D) as (z & Hz & Z). exists z. split; [by apply L|done].
  - intros d D. change (S (next s) <= d)%nat in D. destruct (m_next _ _ I d) as (? & ? & ?); [lia|]. split_and!; [|done..].
    change (<[next s := y]> (assocs s) !! d = None). rewrite lookup_insert_ne; [done|]. lia.
Qed.
Lemma Main_open a s y : Main none s -> assocs s !! a = Some y -> assoc_tab s !! fd y = None ->
  Main none { s with ev_readers := <[fd y := a]> (ev_readers s); assoc_tab := <[fd y := (a, a)]> (assoc_tab s) }.
Proof.
  intros I A T. assert (L : forall k e, assoc_tab s !! k = Some e -> <[fd y := (a, a)]> (assoc_tab s) !! k = Some e).
  { intros k e H. rewrite lookup_insert_ne; [done|]. congruence. }
  constructor; try apply I.
  - intros k o v K. change (<[fd y := (a, a)]> (assoc_tab s) !! k = Some (o, v)) in K.
    apply lookup_insert_Some in K as [[<- [= <- <-]]|[_ K]]; [eauto|]. by eapply (m_fd _ _ I).
  - intros k v K. change (<[fd y := a]> (ev_readers s) !! k = Some v) in K.
    change (<[fd y := (a, a)]> (assoc_tab s) !! k = Some (v, v)).
    apply lookup_insert_Some in K as [[<- <-]|[_ K]]; [apply lookup_insert_eq|]. by apply L, (m_read _ _ I).
  - intros k o v d K G D. destruct (m_geNB _ _ I _ _ _ d K G D) as (z & Hz & Z1 & Z2 & Z3). exists z. split_and!; [done..|]. by apply L.
Qed.
Lemma new_eNB_spec f s : Main none s -> Ctxs s -> assoc_tab s !! f = None ->
  wp (s1_accept_new_eNB f) (fun _ s' => Main none s' /\ Ctxs s') s.
Proof.
  intros I C T. unfold s1_accept_new_eNB. wstep. apply wp_fresh. do 2 wstep. cbv beta.
  match goal with |- context [<[_ := ?v]> _] => set (y := v) end. pose proof (Main_new_assoc s f y I eq_refl eq_refl) as I1.
  destruct (f =? -1); [by apply wp_ret|]. unfold mme_registerRead. repeat wstep.
  unfold s1_registerAssoc, g_insert. wstep. unfold assoc_. eapply wp_deref; [apply lookup_insert_eq|]. repeat wstep.
  - change (assoc_tab s !! f = Some (n, n0)) in Heqo. congruence.
  - cbn [destroy_assoc]. apply wp_ret. split; [|done].
    exact (Main_open (next s) _ y I1 (lookup_insert_eq _ _ _) T).
Qed.

(** Callbacks, paging and stopping *)
Lemma callback_spec cb s : Main none s -> Ctxs s -> (forall c, waits_for c cb = true -> is_Some (ecms s !! c)) ->
  wp (run_callback cb) (fun _ s' => Main none s' /\ Ctxs s') s.
Proof.
  intros I C L. assert (Q : forall (s1 : s1st) (m : S1M unit), Main none s1 -> Ctxs s1 -> wp m (fun _ => quiet s1) s1 -> wp m (fun _ s' => Main none s' /\ Ctxs s') s1).
  { intros s1 m I1 C1 W. eapply wp_conseq; [done|]. intros [] s' _ D. by destruct (good_quiet _ _ _ I1 C1 D) as (? & ? & _). }
  destruct cb as [c|c]; cbn [run_callback]; (destruct (L c) as [x E]; [cbn; by apply bool_decide_eq_true|]).
  - unfold ecmSession_sendPathSwitchReqAck. wstep. unfold ecm__. eapply wp_deref; [done|]. apply wp_null. intros h Eh.
    destruct (m_emm _ _ I _ _ _ E Eh) as [u Eu]. wstep. unfold emm_. eapply wp_deref; [done|]. apply wp_null. intros b _.
    do 2 wstep. destruct a as [x' [nh ncc]]. wstep. eapply wp_set_emm; [done|]. set (s1 := { s with emms := _ }).
    assert (F : frame s s1) by (by eapply emms_frame). assert (I1 : Main none s1) by (by eapply Main_frame).
    apply Q; [done|by apply emms_Ctxs|]. by eapply (emit_spec none c).
  - unfold sendUEContextReleaseCommand. wstep. unfold ecm__. eapply wp_deref; [done|]. apply Q; [done..|]. by eapply (emit_spec none c).
Qed.

Lemma paging_spec h l s : Main none s -> Ctxs s -> is_Some (emms s !! h) -> (forall a, a ∈ l -> is_Some (assocs s !! a)) ->
  wp (page_all l h) (fun _ s' => Main none s' /\ Ctxs s') s.
Proof.
  intros I C L. assert (M : forall s1, quiet s s1 -> (forall a, a ∈ l -> is_Some (assocs s !! a)) -> wp (page_all l h) (fun _ s' => quiet s s') s1).
  { induction l as [|a l IH]; intros s1 Q A; cbn [page_all]; [by apply wp_ret|]. pose proof Q as [l1 E1]. apply wp_bind; [|mono_tac].
    apply (wp_conseq _ (fun _ s' => quiet s s')).
    - destruct L as [u Eu], (A a) as [y Ey]; [by left|]. unfold s1Assoc_paging.
      apply wp_bind; [|mono_tac]. eapply wp_deref; [by rewrite E1|]. apply wp_bind; [|mono_tac]. eapply wp_deref; [by rewrite E1|].
      destruct (emm_TAI _). apply wp_null. intros tas _. apply wp_bind; [|mono_tac]. apply wp_lift; [apply containsTA_safe|].
      intros b _. destruct b; [|by apply wp_ret]. apply wp_bind; [|mono_tac]. apply wp_s1ap. intros m _.
      eapply wp_conseq; [apply sendNonUE_spec; rewrite E1; by exists y|]. intros [] s2 _ [l' ->]. exists l'. by rewrite E1.
    - intros [] s2 _ Q2. apply IH; [done|]. intros b B. apply A. by right. }
  intros A. eapply wp_conseq; [by apply M, A; apply quiet_refl|]. intros [] s' _ D. by destruct (good_quiet _ _ _ I C D) as (? & ? & _).
Qed.

Lemma stop_all_spec l : forall s, Main none s -> Ctxs s -> (forall h, h ∈ l -> is_Some (emms s !! h)) ->
  wp (stop_all l) (fun _ s' => Main none s' /\ Ctxs s') s.
Proof.
  induction l as [|h l IH]; intros s I C L; cbn [stop_all]; repeat wstep; [done|].
  eapply wp_conseq; [eapply call_spec; [done..|apply L; by left]|]. intros [] s1 _ [F C1].
  apply IH; [by eapply Main_frame|done|]. intros h' H. eapply frame_live; [done|]. apply L. by right.
Qed.

Definition ended_exc (k : Z * Z * Z * bool * Z) : exc := {| unreg := None; gone := None; newborn := None; configured := None; egone := Some k |}.
Lemma Main_unlist k s : Main (ended_exc k) s -> Main none { s with geNB_tab := delete k (geNB_tab s) }.
Proof.
  intros I. constructor; try apply I. intros k' o v h K _ H. change (delete k (geNB_tab s) !! k' = Some (o, v)) in K.
  apply lookup_delete_Some in K as [D K]. eapply (m_geNB _ _ I); [done| |done]. cbn. congruence.
Qed.
Lemma disconnect_all_spec l : NoDup l.*1 -> forall s, Main none s -> Ctxs s -> (forall k e, (k, e) ∈ l -> geNB_tab s !! k = Some e) ->
  wp (disconnect_all l) (fun _ s' => Main none s' /\ Ctxs s') s.
Proof.
  induction l as [|[k [o a]] l IH]; intros ND s I C L; cbn [disconnect_all]; [by apply wp_ret|].
  cbn in ND. apply NoDup_cons in ND as [N ND]. assert (K : geNB_tab s !! k = Some (o, a)) by (apply L; by left).
  destruct (m_geNB _ _ I _ _ _ a K) as (y & Ey & Q & _ & T); [done|by right|]. do 3 wstep. unfold mme_deregisterRead. repeat wstep.
  set (s1 := { s with ev_readers := _ }). eapply wp_conseq; [eapply (deregisterAssoc_spec (ended_exc k) a y s1)|].
  - done.
  - apply unreader. eapply Main_weaken, I. apply none_weaker.
  - done.
  - done.
  - done.
  - apply lookup_delete_eq.
  - intros k' o' v' K' G. assert (R : forall h, h = o' \/ h = v' -> a <> h).
    { intros h H ->. destruct (m_geNB _ _ I _ _ _ h K' ltac:(done) H) as (z & Hz & Q' & _). cbn in G. congruence. }
    split; apply R; auto.
  - intros [] s2 _ (I2 & C2 & G2 & _). change (geNB_tab s2 = geNB_tab s) in G2. repeat wstep. apply IH; [done|by apply Main_unlist|done|].
    intros k' e H. change (delete k (geNB_tab s2) !! k' = Some e). rewrite G2. apply lookup_delete_Some. split; [|apply L; by right].
    intros ->. apply N. apply list_elem_of_fmap. by exists (k', e).
Qed.

Lemma take_nth_wait {A} n (l l' : list A) x : take_nth n l = Some (x, l') -> x ∈ l /\ forall y, y ∈ l' -> y ∈ l.
Proof.
  unfold take_nth. intros H. apply bind_Some in H as (z & E & [= -> <-]). split; [by eapply list_elem_of_lookup_2|].
  intros y H. rewrite <- (take_drop_middle _ _ _ E). rewrite elem_of_app in *. rewrite elem_of_cons. tauto.
Qed.

Lemma table_values {K} `{Countable K} (t : gtable K) h : h ∈ (fun e : K * (nat * nat) => e.2.2) <$> map_to_list t -> exists k o, t !! k = Some (o, h).
Proof. intros E. apply list_elem_of_fmap in E as ([k [o v]] & -> & E). apply elem_of_map_to_list in E. eauto. Qed.

Lemma handle_spec e s : Main none s -> Ctxs s -> wp (s1_handle e) (fun _ s' => Main none s' /\ Ctxs s') s.
Proof.
  intros I C. destruct e as [f|f r|n|h call|h|]; cbn [s1_handle].
  - repeat wstep; [done|]. by apply new_eNB_spec.
  - repeat wstep; [|done]. apply (m_read _ _ I) in Heqo. destruct (m_fd _ _ I _ _ _ Heqo) as (_ & y & A & F). subst f. by eapply accept_spec.
  - do 2 wstep. destruct (take_nth n (pending s)) as [[cb p]|] eqn:E; repeat wstep; [|done]. apply take_nth_wait in E as [E1 E2].
    apply callback_spec; [|done|intros c W; by eapply (m_wait _ _ I)]. constructor; try apply I. intros cb' c H. apply (m_wait _ _ I). by apply E2.
  - repeat wstep; [|done]. eapply wp_conseq; [by eapply call_spec|]. intros [] s1 _ [F C1]. split; [by eapply Main_frame|done].
  - repeat wstep; [|done]. unfold mme_paging. repeat wstep. apply paging_spec; [done..|by eexists|]. intros a A.
    apply table_values in A as (k & o & K). destruct (m_geNB _ _ I _ _ _ a K) as (y & Ey & _); [done|by right|]. by eexists.
  - unfold mme_stop. do 3 wstep. eapply wp_conseq; [apply stop_all_spec; [done..|]|].
    + intros h H. apply table_values in H as (k & o & K). by eapply C.
    + intros [] s1 _ [I1 C1]. repeat wstep. apply disconnect_all_spec; [apply NoDup_fst_map_to_list|done..|].
      intros k e. apply elem_of_map_to_list.
Qed.

Lemma run_spec es : forall s, Main none s -> Ctxs s -> wp (s1_run es) (fun _ s' => Main none s' /\ Ctxs s') s.
Proof.
  induction es as [|e es IH]; intros s I C; cbn [s1_run]; [by apply wp_ret|]. apply wp_bind.
  - eapply wp_conseq; [by apply handle_spec|]. intros [] s1 _ [I1 C1]. by apply IH.
  - intros _. clear. induction es as [|e es IH]; cbn [s1_run]; [apply mono_ret|]. apply mono_bind; [apply mono_handle|done].
Qed.

Lemma Main_init : Main none s1_init /\ Ctxs s1_init.
Proof.
  split; [|by intros k o v]. constructor; cbn; try done; intros *; rewrite ?lookup_empty; try done; try set_solver.
Qed.

(** ** The theorems *)

(** C1: Whatever the eNBs send and whatever the layers above do, an object of the
    S1 stack or a context is used after it was freed only when one of the known
    incidents happened before: the same eNB-UE-ID twice on an association, two
    contexts with the same M-TMSI, a Reset of a session of another eNB, a session
    that ends while a callback for it is outstanding, or the end of the identifiers. *)
Theorem s1_use_after_free es inc : s1_run es s1_init = Fault In_S1 UseAfterFree inc -> inc <> [].
Proof.
  intros E. destruct Main_init as [I C]. pose proof (run_spec es s1_init I C) as W. unfold wp in W. rewrite E in W. by apply W.
Qed.

(** C2: As long as no incident happened, the tables agree with the objects: a
    session is in the table of its association under its eNB-UE-ID and in the
    table of the MME under its own identifier, which no other session has; every
    entry of these tables is a session that is there; the session of a context is
    there and belongs to it; and an event of a descriptor is for an association
    that is open on it. *)
Theorem s1_tables_agree es s : s1_run es s1_init = Done tt s -> incidents s = [] ->
  (forall c x, ecms s !! c = Some x -> exists a, assocs s !! c_assoc x = Some a /\ ecm_sessions a !! eNBUEId x = Some (c, c) /\
     ecm_tab s !! mmeUEId x = Some (c, c) /\ mmeUEId x ∈ localIDs s /\
     forall c' x', ecms s !! c' = Some x' -> mmeUEId x' = mmeUEId x -> c' = c) /\
  (forall h a k o v, assocs s !! h = Some a -> ecm_sessions a !! k = Some (o, v) ->
     o = v /\ exists x, ecms s !! v = Some x /\ c_assoc x = h /\ eNBUEId x = k) /\
  (forall h u c, emms s !! h = Some u -> u_ecm u = Some c -> exists x, ecms s !! c = Some x /\ c_emm x = Some h) /\
  (forall f a, ev_readers s !! f = Some a -> exists y, assocs s !! a = Some y /\ fd y = f).
Proof.
  intros E N. destruct Main_init as [I0 C0]. pose proof (run_spec es s1_init I0 C0) as W. unfold wp in W. rewrite E in W.
  destruct (W N) as [I C]. split_and!.
  - intros c x Ex. destruct (m_assoc _ _ I _ _ Ex) as [a Ea]. exists a. split_and!; [done|by eapply (m_reg _ _ I)|by eapply (m_intab _ _ I)| |].
    + apply (m_ids _ _ I). eauto.
    + intros c' x' Ex' Q. by eapply (m_unique _ _ I).
  - intros h a k o v Ha Hk. by eapply (m_entry _ _ I).
  - intros h u c. apply (m_ecm _ _ I).
  - intros f a F. apply (m_read _ _ I) in F. destruct (m_fd _ _ I _ _ _ F) as (_ & y & Hy & Q). eauto.
Qed.

(** *** What a message does *)

(** An uplink message on the stream of connection [c], for MME-UE-ID [i]. *)
Record uplink (s : s1st) (a c h : nat) (y : S1Assoc_t) (x : ECMSession_t) (m : S1AP_Message_t) (i stream len : Z) (str : list Z) : Prop := {
  ul_assoc : assocs s !! a = Some y; ul_active : a_stateName y = S1_Active; ul_stream : stream <> nonue_rsid y;
  ul_code : is_msg m id_uplinkNASTransport initiating_message = true;
  ul_eNB : s1ap_findIe m id_eNB_UE_S1AP_ID = Some (V_ENB_UE_S1AP_ID (eNBUEId x));
  ul_mme : s1ap_findIe m id_MME_UE_S1AP_ID = Some (V_MME_UE_S1AP_ID i);
  ul_nas : s1ap_findIe m id_NAS_PDU = Some (V_Unconstrained_Octed_String (Unconstrained_Octed_String len str));
  ul_entry : ecm_sessions y !! eNBUEId x = Some (c, c); ul_ecm : ecms s !! c = Some x;
  ul_state : c_stateName x = ECM_Connected; ul_valid : r_sid_valid x = true; ul_r_sid : r_sid x = stream;
  ul_emm : c_emm x = Some h }.

Lemma is_msg_other m c d ch ch' : is_msg m c ch = true -> c <> d -> is_msg m d ch' = false.
Proof.
  unfold is_msg. intros E N. apply andb_true_iff in E as [E _]. apply Z.eqb_eq in E. rewrite E.
  apply andb_false_iff. left. by apply Z.eqb_neq.
Qed.

(** C22: The NAS message of an Uplink NAS Transport goes to the context of the
    connection that has this eNB-UE-ID on the association it came on, and only if
    the MME-UE-ID in the message is the one of the connection; otherwise nothing
    happens.  So an eNB cannot speak for a terminal of another eNB. *)
Theorem uplink_dispatched octets stream a c h y x m i len str s :
  s1ap_decode octets (Z.of_nat (length octets)) = Ok m -> uplink s a c h y x m i stream len str ->
  s1_accept a (Packet octets stream) s = if i =? mmeUEId x then call_emm h (Call_processMsg str len) s else Done tt s.
Proof.
  intros D [U1 U2 U3 U4 U5 U6 U7 U8 U9 U10 U11 U12 U13].
  assert (N : forall d ch, id_uplinkNASTransport <> d -> is_msg m d ch = false) by (intros; by eapply is_msg_other).
  assert (P : Active_processMsg a m stream s = if i =? mmeUEId x then call_emm h (Call_processMsg str len) s else Done tt s).
  { unfold Active_processMsg, assoc_, s1Assoc_getECMSession, g_lookup, ie_of, null, get, deref, mbind, S1M_bind.
    rewrite U1. apply Z.eqb_neq in U3. rewrite U3, !N by done. rewrite U5. cbn. unfold assoc_, deref. rewrite U1, U8, U9. cbn. rewrite U6. cbn.
    unfold ecm__, deref. rewrite U9. destruct (i =? mmeUEId x) eqn:Q; [|done].
    unfold ecmSession_processMsg, ecm__, deref, mbind, S1M_bind. rewrite U9, U10. unfold Connected_processMsg, ecm__, deref, mbind, S1M_bind.
    rewrite U9, U11, U12, Z.eqb_refl. cbn. rewrite !N by done. rewrite U4. unfold ids_match, ie_of, null, mbind, S1M_bind.
    rewrite U5. cbn. rewrite Z.eqb_refl. cbn. rewrite U6. cbn. rewrite Q. cbn. rewrite U7. cbn. by rewrite U13. }
  unfold s1_accept, assoc_, deref, mbind, S1M_bind. rewrite U1. unfold s1ap_lift. rewrite D, U2, P.
  destruct (i =? mmeUEId x); [|done]. by destruct (call_emm _ _ _) as [[] ?|].
Qed.

(** The first message of an association need not be an S1 Setup Request: every
    initiating message is processed as one, and without a Global eNB ID it ends
    the program.  The check for the element comes after its use. *)
Theorem setup_without_identity_faults octets stream a y m s :
  assocs s !! a = Some y -> a_stateName y = S1_NotConfigured -> s1ap_decode octets (Z.of_nat (length octets)) = Ok m ->
  choice m = initiating_message -> s1ap_findIe m id_Global_ENB_ID = None -> s1ap_findIe m id_eNBname = None ->
  s1_accept a (Packet octets stream) s = Fault In_S1 NullDeref (incidents s).
Proof.
  intros A N D C G E. unfold s1_accept, assoc_, deref, mbind, S1M_bind. rewrite A. unfold s1ap_lift. rewrite D, N.
  unfold NotConfigured_processMsg, set_assoc, assoc_, deref, put, mbind, S1M_bind. rewrite A, C, andb_false_r.
  rewrite E. unfold ie_of. by rewrite G.
Qed.

(** C28: The identifier of a new connection is the least number from 1 on that no
    connection has, and at most [MAX_UE]; only when all are taken does the
    function fail, by reading its counter after it was freed. *)
Theorem newLocalUEid_least s : match mme_newLocalUEid s with
  | Done i s' => 1 <= i <= MAX_UE /\ (i ∉ localIDs s) /\ (forall j, 1 <= j < i -> j ∈ localIDs s) /\
      s' = { s with localIDs := {[i]} ∪ localIDs s }
  | Fault l f inc => (forall j, 1 <= j <= MAX_UE -> j ∈ localIDs s) /\ l = In_S1 /\ f = UseAfterFree
  end.
Proof.
  assert (F : forall n i ids, match free_id n i ids with
    | Some j => i <= j < i + Z.of_nat n /\ (j ∉ ids) /\ forall k, i <= k < j -> k ∈ ids
    | None => forall k, i <= k < i + Z.of_nat n -> k ∈ ids end).
  { induction n as [|n IH]; intros i ids; cbn [free_id]; [lia|]. destruct (decide (i ∈ ids)) as [H|H]; [|split_and!; [lia..|done|lia]].
    specialize (IH (i + 1) ids). destruct (free_id n (i + 1) ids) as [j|].
    - destruct IH as (? & ? & IH). split_and!; [lia..|done|]. intros k K. destruct (decide (k = i)) as [->|]; [done|]. apply IH. lia.
    - intros k K. destruct (decide (k = i)) as [->|]; [done|]. apply IH. lia. }
  unfold mme_newLocalUEid, get, mbind, S1M_bind. specialize (F (Z.to_nat MAX_UE) 1 (localIDs s)). rewrite Z2Nat.id in F by done.
  destruct (free_id _ _ _) as [j|].
  - destruct F as (? & ? & F). split_and!; [lia..|done|done|done].
  - split; [|done]. intros j J. apply F. lia.
Qed.
End Safe.
