(* ===== verification/Shutdown.v ===== *)
(** Shutting down (MME.c, MME_S1.c): the release of the S1 interface at the end of
    the program, on the heaps of [S1Stack]. *)
From coqutil Require Import Datatypes.RecordSetters.
From S2P Require Import Prelude S1APTypes S1APDec EMMCtx S1Msg S1Stack S1Safe.

Section Shutdown.
Context {ops : EMM_ops} {conf : MMEConf}.

(** [event_base_dispatch] has returned: nobody calls back any more. *)
Definition loop_ended : S1M unit := put (fun s => { s with pending := [] }).
(** [s1_free]: the table of associations is destroyed, which frees every entry with
    [s1Assoc_free].  The descriptor of the server itself is not in the model. *)
Fixpoint free_assocs (l : list nat) : S1M unit :=
  match l with [] => skip1 | a :: l => s1Assoc_free a ;; free_assocs l end.
Definition s1_free : S1M unit :=
  t ← get assoc_tab;
  put (fun s => { s with assoc_tab := ∅ }) ;;
  free_assocs ((fun e => e.2.2) <$> map_to_list t).

(** ** Programs and the tables of associations *)

(** The state without the tables that point to associations. *)
Definition strip (s : s1st) : s1st :=
  {| localIDs := localIDs s; ecm_tab := ecm_tab s; emm_tab := emm_tab s; geNB_tab := ∅; assoc_tab := ∅; ev_readers := ∅;
     assocs := assocs s; ecms := ecms s; emms := emms s; pending := pending s; next := next s; sent := sent s;
     incidents := incidents s |}.

(** A program that leaves the table of descriptors alone, and does not add
    associations; with [b] it does not use the other two tables either. *)
Inductive Local (b : bool) : forall A, S1M A -> Prop :=
  | L_ret A (a : A) : Local b A (mret a)
  | L_bind A B (m : S1M A) (k : A -> S1M B) : Local b A m -> (forall a, Local b B (k a)) -> Local b B (m ≫= k)
  | L_get A (f : s1st -> A) : (b = true -> forall s, f (strip s) = f s) -> Local b A (get f)
  | L_put f : (b = true -> forall s, f (strip s) = strip (f s)) ->
      (forall s, assocs (f s) ⊆ assocs s /\ assoc_tab (f s) = assoc_tab s) -> Local b unit (put f)
  | L_deref X (heap : s1st -> gmap nat X) h : (b = true -> forall s, heap (strip s) = heap s) -> Local b X (deref heap h)
  | L_fault A f : Local b A (s1_fault f)
  | L_lift A o : Local b A (s1_lift o)
  | L_s1ap A o : Local b A (s1ap_lift o)
  | L_emm A o : Local b A (from_emm o)
  | L_fresh : Local b nat fresh
  | L_set_assoc h f : (forall y, fd (f y) = fd y) -> Local b unit (set_assoc h f).

(** Without these tables such a program does the same. *)
Lemma Local_strip A (m : S1M A) : Local true A m -> forall s,
  m (strip s) = match m s with Done a s' => Done a (strip s') | Fault l f inc => Fault l f inc end.
Proof.
  induction 1 as [A a|A B m k _ IH _ IHk|A f H|f H _|X heap h H|A f|A o|A o|A o| |h f _]; intros s.
  - done.
  - unfold mbind, S1M_bind. rewrite IH. destruct (m s) as [a s'|]; [apply IHk|done].
  - unfold get. by rewrite H.
  - unfold put. by rewrite H.
  - unfold deref. rewrite H by done. by destruct (heap s !! h).
  - done.
  - unfold s1_lift. by destruct o.
  - unfold s1ap_lift. by destruct o.
  - unfold from_emm. by destruct o.
  - done.
  - unfold set_assoc, assoc_, mbind, S1M_bind, deref. cbn. by destruct (assocs s !! h).
Qed.

(** Every association is in the table, up to one. *)
Definition listed_but (o : option nat) (s : s1st) : Prop := forall h y, assocs s !! h = Some y -> Some h <> o ->
  assoc_tab s !! fd y = Some (h, h).
Definition listed : s1st -> Prop := listed_but None.
Definition leads {A} (P Q : s1st -> Prop) (m : S1M A) : Prop := forall s, P s ->
  match m s with Done _ s' => Q s' | Fault _ _ _ => True end.

Lemma leads_bind {A B} P R Q (m : S1M A) (k : A -> S1M B) : leads P R m -> (forall a, leads R Q (k a)) -> leads P Q (m ≫= k).
Proof.
  intros M K s L. unfold mbind, S1M_bind. specialize (M s L). destruct (m s) as [a s'|]; [by apply K|done].
Qed.
Lemma leads_get {A B} P Q (f : s1st -> A) (k : A -> S1M B) : (forall a, leads (fun s => P s /\ f s = a) Q (k a)) -> leads P Q (get f ≫= k).
Proof. intros H s L. by apply (H (f s)). Qed.
Lemma leads_deref {X B} P Q (heap : s1st -> gmap nat X) h (k : X -> S1M B) :
  (forall x, leads (fun s => P s /\ heap s !! h = Some x) Q (k x)) -> leads P Q (deref heap h ≫= k).
Proof. intros H s L. unfold mbind, S1M_bind, deref. destruct (heap s !! h) as [x|] eqn:E; [by apply H|done]. Qed.
Lemma leads_put P Q f : (forall s, P s -> Q (f s)) -> leads P Q (put f).
Proof. intros H s L. by apply H. Qed.
Lemma leads_ret {A} P (a : A) : leads P P (mret a).
Proof. by intros s L. Qed.
Lemma leads_weaken {A} (P P' Q : s1st -> Prop) (m : S1M A) : (forall s, P s -> P' s) -> leads P' Q m -> leads P Q m.
Proof. intros H M s L. by apply M, H. Qed.

Lemma Local_listed o b A (m : S1M A) : Local b A m -> leads (listed_but o) (listed_but o) m.
Proof.
  induction 1 as [A a|A B m k _ IH _ IHk|A f _|f _ H|X heap h _|A f|A v|A v|A v| |h f H].
  - by intros s L.
  - by eapply leads_bind.
  - by intros s L.
  - intros s L h y Hy. destruct (H s) as [Hs Ht]. rewrite Ht. apply L. by eapply lookup_weaken.
  - intros s L. unfold deref. by destruct (heap s !! h).
  - done.
  - intros s L. unfold s1_lift. by destruct v.
  - intros s L. unfold s1ap_lift. by destruct v.
  - intros s L. unfold from_emm. by destruct v.
  - by intros s L.
  - intros s L. unfold set_assoc, assoc_, mbind, S1M_bind, deref. destruct (assocs s !! h) as [z|] eqn:E; [|done].
    intros d y Hy. change (<[h := f z]> (assocs s) !! d = Some y) in Hy.
    change (Some d <> o -> assoc_tab s !! fd y = Some (d, d)).
    apply lookup_insert_Some in Hy as [[<- <-]|[_ Hy]]; [rewrite H; by apply L|by apply L].
Qed.

Lemma Local_null b A X (o : option X) (k : X -> S1M A) : (forall x, Local b A (k x)) -> Local b A (null o k).
Proof. destruct o; [intros H; apply H|]. intros _. constructor. Qed.

Create HintDb s1local discriminated.
Hint Constants Opaque : s1local.
Ltac head_of m := match m with ?f _ => head_of f | _ => m end.
(** The rules; a definition without a lemma is unfolded. *)
Ltac local_step :=
  match goal with
  | |- forall _, _ => intro
  | |- Local _ _ (match ?x with _ => _ end) => destruct x
  | |- Local _ _ (let '(_, _) := ?x in _) => destruct x
  | |- Local _ _ ?m => first
    [ assumption | solve [eauto 3 with s1local nocore] | apply L_set_assoc; intros; reflexivity | apply L_bind | apply L_ret | apply L_fault | apply Local_null
    | apply L_lift | apply L_s1ap | apply L_emm | apply L_fresh
    | apply L_get; first [reflexivity | discriminate] | apply L_deref; first [reflexivity | discriminate]
    | apply L_put; [first [reflexivity | discriminate]|split; [first [reflexivity|apply delete_subseteq]|reflexivity]]
    | let h := head_of m in progress unfold h ]
  end.
Ltac local_tac := repeat local_step.

Lemma Local_emit b x m : Local b _ (ecm_emit x m).
Proof. local_tac. Qed.
Hint Resolve Local_emit : s1local.
Lemma Local_run_out b h o : Local b _ (run_out h o).
Proof. local_tac. Qed.
Hint Resolve Local_run_out : s1local.
Lemma Local_run_outs b h l : Local b _ (run_outs h l).
Proof. induction l; cbn [run_outs]; local_tac. Qed.
Hint Resolve Local_run_outs : s1local.
Lemma Local_call b h call : Local b _ (call_emm h call).
Proof. local_tac. Qed.
Hint Resolve Local_call : s1local.
Lemma Local_deregisterECM b c : Local b _ (mme_deregisterECM c).
Proof. local_tac. Qed.
Hint Resolve Local_deregisterECM : s1local.
Lemma Local_foreach b a f l : (forall c, Local b _ (f c)) -> Local b _ (foreach_remove a f l).
Proof. intros H. induction l as [|[k [o v]] l IH]; cbn [foreach_remove]; local_tac; apply H. Qed.
Lemma Local_s1Assoc_free b a : Local b _ (s1Assoc_free a).
Proof. unfold s1Assoc_free. apply L_bind; [local_tac|]. intros y. apply L_bind; [|local_tac]. apply Local_foreach. local_tac. Qed.
Hint Resolve Local_s1Assoc_free : s1local.

(** The handlers. *)
Lemma Local_first_IMSI b i l : Local b _ (first_IMSI i l).
Proof. induction l as [|[k [o v]] l IH]; cbn [first_IMSI]; local_tac. Qed.
Hint Resolve Local_first_IMSI : s1local.
Lemma Local_find_emm b m : Local b _ (find_emm m).
Proof. unfold find_emm. local_tac. Qed.
Lemma Local_setTAI b c m : Local b _ (ecm_setTAI c m).
Proof. unfold ecm_setTAI. local_tac. Qed.
Lemma Local_attach b c o : Local b _ (ecm_attach c o).
Proof. unfold ecm_attach. local_tac. Qed.
Hint Resolve Local_find_emm Local_setTAI Local_attach : s1local.
Lemma Local_processMsg b c m n : Local b _ (ecmSession_processMsg c m n).
Proof. local_tac. Qed.
Hint Resolve Local_processMsg : s1local.
Lemma Local_ecmSession_init b a m n : Local b _ (ecmSession_init a m n).
Proof. unfold ecmSession_init. local_tac. Qed.
Lemma Local_pathSwitch b o a m n : Local b _ (ecmSession_pathSwitchReq o a m n).
Proof. unfold ecmSession_pathSwitchReq. local_tac. Qed.
Lemma Local_reset b c : Local b _ (s1Assoc_resetECM c).
Proof. local_tac. Qed.
Hint Resolve Local_ecmSession_init Local_pathSwitch Local_reset : s1local.
Lemma Local_reset_list b a l : Local b _ (reset_list a l).
Proof. induction l as [|[? ? ? v] l IH]; cbn [reset_list]; local_tac. Qed.
Hint Resolve Local_reset_list : s1local.
Lemma Local_process_reset b a m : Local b _ (process_reset a m).
Proof. unfold process_reset. local_tac; apply Local_foreach; local_tac. Qed.
Hint Resolve Local_process_reset : s1local.
Lemma Local_Active b a m n : Local b _ (Active_processMsg a m n).
Proof. unfold Active_processMsg. local_tac. Qed.
Lemma Local_NotConfigured a m n : Local false _ (NotConfigured_processMsg a m n).
Proof. unfold NotConfigured_processMsg. local_tac. Qed.
Hint Resolve Local_Active Local_NotConfigured : s1local.
Lemma Local_page_all b l h : Local b _ (page_all l h).
Proof. induction l; cbn [page_all]; local_tac. Qed.
Lemma Local_stop_all b l : Local b _ (stop_all l).
Proof. induction l; cbn [stop_all]; local_tac. Qed.
Hint Resolve Local_page_all Local_stop_all : s1local.

(** ** The table of descriptors over a run *)

Lemma free_listed a : leads (listed_but (Some a)) listed (s1Assoc_free a).
Proof.
  unfold s1Assoc_free. eapply leads_bind; [apply (Local_listed _ true); unfold assoc_; local_tac|]. intros y.
  eapply leads_bind; [apply (Local_listed _ true), Local_foreach; local_tac|]. intros _. apply leads_put.
  intros s L h z Hz _. change (delete a (assocs s) !! h = Some z) in Hz. apply lookup_delete_Some in Hz as [N Hz]. apply L; [done|congruence].
Qed.

Lemma deregister_listed a : leads listed listed (s1_deregisterAssoc a).
Proof.
  intros s L. unfold s1_deregisterAssoc, assoc_, g_remove, get, put, mbind, S1M_bind, deref, mret, S1M_ret.
  destruct (assocs s !! a) as [y|]; [|done]. destruct (assoc_tab s !! fd y) as [[o v]|] eqn:E; [|exact L].
  destruct (assocs s !! o); [|done]. apply free_listed. intros h z Hz N.
  change (delete (fd y) (assoc_tab s) !! fd z = Some (h, h)). change (assocs s !! h = Some z) in Hz.
  pose proof (L h z Hz ltac:(done)) as K. apply lookup_delete_Some. split; [|done]. intros Q. rewrite <- Q, E in K. congruence.
Qed.

(** A program that leaves the association table alone, as a step of another. *)
Ltac local_leads := first [apply (Local_listed None false); solve [local_tac] |
  eapply leads_bind; [apply (Local_listed None false); solve [local_tac]|intros]].
Lemma close_listed a : leads listed listed (close_assoc a).
Proof. unfold close_assoc. do 3 local_leads. apply deregister_listed. Qed.

Lemma accept_listed a r : leads listed listed (s1_accept a r).
Proof.
  unfold s1_accept. local_leads. destruct r as [| |octets stream]; [apply close_listed|apply leads_ret|]. local_leads.
  eapply leads_bind; [apply (Local_listed None false); local_tac|]. intros err. destruct err; [apply close_listed|apply leads_ret].
Qed.

Lemma new_eNB_listed f : f <> -1 -> leads (fun s => listed s /\ assoc_tab s !! f = None) listed (s1_accept_new_eNB f).
Proof.
  intros D s [L N]. unfold s1_accept_new_eNB, fresh, put, mbind, S1M_bind.
  match goal with |- context [<[_ := ?v]> _] => set (y0 := v) end. destruct (Z.eqb_spec f (-1)); [done|].
  unfold mme_registerRead, s1_registerAssoc, assoc_, g_insert, put, get, mbind, S1M_bind, deref.
  change (assocs _) with (<[next s := y0]> (assocs s)) at 1. rewrite lookup_insert_eq. change (fd y0) with f.
  change (assoc_tab _) with (assoc_tab s) at 1. rewrite N. intros h y Hy _.
  change (<[next s := y0]> (assocs s) !! h = Some y) in Hy. change (<[f := (next s, next s)]> (assoc_tab s) !! fd y = Some (h, h)).
  apply lookup_insert_Some in Hy as [[<- <-]|[_ Hy]]; [apply lookup_insert_eq|].
  rewrite lookup_insert_ne; [by apply L|]. intros Q. rewrite Q, (L h y Hy) in N by done. done.
Qed.

Lemma disconnect_listed l : leads listed listed (disconnect_all l).
Proof.
  induction l as [|[k [o a]] l IH]; cbn [disconnect_all]; [apply leads_ret|]. do 2 local_leads.
  eapply leads_bind; [apply deregister_listed|]. intros _. local_leads. apply IH.
Qed.

(** The system gave a descriptor to every association. *)
Definition connects (e : s1_event) : Prop := e <> Ev_connect (-1).
Lemma handle_listed e : connects e -> leads listed listed (s1_handle e).
Proof.
  intros V. destruct e as [f|f r|n|h call|h|]; cbn [s1_handle].
  - apply leads_get. intros t. destruct (t !! f) eqn:E; [by intros s []|].
    eapply leads_weaken, new_eNB_listed; [by intros s [L <-]|]. intros ->. by apply V.
  - apply leads_get. intros t. eapply leads_weaken with (P' := listed); [by intros s []|]. destruct (t !! f); [apply accept_listed|apply leads_ret].
  - local_leads.
  - local_leads.
  - unfold mme_paging. local_leads.
  - unfold mme_stop. do 3 local_leads. apply disconnect_listed.
Qed.

Lemma run_listed es : Forall connects es -> leads listed listed (s1_run es).
Proof.
  induction 1 as [|e es H _ IH]; cbn [s1_run]; [apply leads_ret|]. eapply leads_bind; [by apply handle_listed|by intros _].
Qed.

(** ** Freeing every association *)

Lemma free_step a s : Main none (strip s) -> Ctxs (strip s) -> is_Some (assocs s !! a) ->
  wp (s1Assoc_free a) (fun _ s' => Main none (strip s') /\ Ctxs (strip s') /\ assocs s' = delete a (assocs s)) s.
Proof.
  intros I C A. pose proof (s1Assoc_free_spec none a (strip s)) as W. unfold wp in *. rewrite (Local_strip _ _ (Local_s1Assoc_free true a)) in W.
  destruct (s1Assoc_free a s) as [[] s'|l f inc]; [|apply W; done]. intros N.
  destruct W as (I' & C' & _ & A'); [done..|]. by split_and!.
Qed.

Lemma mono_free_assocs l : mono (free_assocs l).
Proof. induction l; cbn [free_assocs]; [apply mono_ret|]. apply mono_bind; [apply mono_s1Assoc_free|done]. Qed.

Lemma free_assocs_spec l : NoDup l -> forall s, Main none (strip s) -> Ctxs (strip s) -> (forall a, a ∈ l -> is_Some (assocs s !! a)) ->
  wp (free_assocs l) (fun _ s' => Main none (strip s') /\ forall h, is_Some (assocs s' !! h) -> is_Some (assocs s !! h) /\ h ∉ l) s.
Proof.
  induction 1 as [|a l N ND IH]; intros s I C A; cbn [free_assocs].
  - apply wp_ret. split; [done|]. intros h H. split; [done|]. apply not_elem_of_nil.
  - apply wp_bind; [|intros _; apply mono_free_assocs].
    eapply wp_conseq; [apply free_step; [done..|apply A; left]|]. intros [] s1 _ (I1 & C1 & E1).
    eapply wp_conseq; [apply IH; [done..|]|].
    + intros b B. rewrite E1, lookup_delete_ne; [apply A; by right|]. by intros ->.
    + intros [] s2 _ [I2 H2]. split; [done|]. intros h H. apply H2 in H as [H Hn]. rewrite E1 in H.
      destruct (decide (h = a)) as [->|D]; [rewrite lookup_delete_eq in H; by destruct H|].
      rewrite lookup_delete_ne in H by done. split; [done|]. by apply not_elem_of_cons.
Qed.

Lemma Main_strip s : Main none s -> Main none (strip { s with pending := [] }).
Proof.
  intros I. constructor; try apply I; cbn; try done; intros *; rewrite ?lookup_empty; try done; set_solver.
Qed.

(** The associations of the table, each once. *)
Lemma assoc_values s : Main none s -> NoDup ((fun e : Z * (nat * nat) => e.2.2) <$> map_to_list (assoc_tab s)).
Proof.
  intros I. apply NoDup_fmap_2_strong, NoDup_map_to_list. intros [k [o v]] [k' [o' v']] H H' E. cbn in E. subst v'.
  apply elem_of_map_to_list in H, H'. destruct (m_fd _ _ I _ _ _ H) as (-> & y & Hy & F), (m_fd _ _ I _ _ _ H') as (-> & y' & Hy' & F').
  congruence.
Qed.

Lemma s1_free_spec s : Main none s -> Ctxs s -> listed s -> wp (loop_ended ;; s1_free) (fun _ s' => Main none (strip s') /\ assocs s' = ∅) s.
Proof.
  intros I C L. unfold loop_ended, s1_free. set (s1 := { s with pending := [] }). unfold wp, mbind, S1M_bind, put, get.
  change (assoc_tab s1) with (assoc_tab s). set (s2 := { s1 with assoc_tab := ∅ }).
  assert (A : forall a, a ∈ (fun e : Z * (nat * nat) => e.2.2) <$> map_to_list (assoc_tab s) -> is_Some (assocs s2 !! a)).
  { intros a H. apply table_values in H as (k & o & K). destruct (m_fd _ _ I _ _ _ K) as (_ & y & Hy & _). by exists y. }
  pose proof (free_assocs_spec _ (assoc_values s I) s2 (Main_strip s I) C A) as W. unfold wp in W.
  match goal with |- match ?p with _ => _ end => change p with (free_assocs ((fun e : Z * (nat * nat) => e.2.2) <$> map_to_list (assoc_tab s)) s2) end.
  destruct (free_assocs _ s2) as [[] s3|l f inc]; [|exact W]. intros N. destruct (W N) as [W1 W2]. split; [done|].
  apply map_empty. intros h. apply eq_None_not_Some. intros Hh. apply W2 in Hh as [[y Hy] Hn]. apply Hn.
  apply list_elem_of_fmap. exists (fd y, (h, h)). split; [done|]. apply elem_of_map_to_list. by apply L.
Qed.

Lemma wp_leads {A} (P R : s1st -> Prop) (m : S1M A) Q s : wp m Q s -> leads P R m -> P s -> wp m (fun a s' => Q a s' /\ R s') s.
Proof. intros W L H. unfold wp in *. specialize (L s H). destruct (m s); auto. Qed.
Lemma mono_s1_free : mono (loop_ended ;; s1_free).
Proof.
  unfold loop_ended, s1_free. apply mono_bind; [by apply mono_put|]. intros _. apply mono_bind; [apply mono_get|]. intros t.
  apply mono_bind; [by apply mono_put|]. intros _. apply mono_free_assocs.
Qed.

(** C25: Over any run after which [s1_free] is called, an object is used after it was
    freed only when an incident happened; without one, no association, no
    connection and no identifier is left, and no context has a connection. *)
Theorem s1_free_releases es : Forall connects es ->
  match (s1_run es ;; loop_ended ;; s1_free) s1_init with
  | Done _ s => incidents s = [] -> assocs s = ∅ /\ ecms s = ∅ /\ ecm_tab s = ∅ /\ localIDs s = ∅ /\
      forall h u, emms s !! h = Some u -> u_ecm u = None
  | Fault l f inc => l = In_S1 -> f = UseAfterFree -> inc <> []
  end.
Proof.
  intros V. destruct Main_init as [I0 C0].
  assert (W : wp (s1_run es ;; loop_ended ;; s1_free) (fun _ s => Main none (strip s) /\ assocs s = ∅) s1_init).
  { apply wp_bind; [|intros _; apply mono_s1_free]. eapply wp_conseq; [apply (wp_leads listed listed)|].
    - by apply run_spec.
    - by apply run_listed.
    - done.
    - intros [] s _ [[I C] L]. by apply s1_free_spec. }
  unfold wp in W. destruct ((s1_run es ;; loop_ended ;; s1_free) s1_init) as [[] s|l f inc]; [|exact W].
  intros N. destruct (W N) as [I A]. split; [done|].
  assert (E : ecms s = ∅).
  { apply map_empty. intros c. apply eq_None_not_Some. intros [x Hx]. destruct (m_assoc _ _ I c x Hx) as [y Hy].
    change (assocs s !! c_assoc x = Some y) in Hy. by rewrite A in Hy. }
  split_and!; [done| | |].
  - apply map_empty. intros k. apply eq_None_not_Some. intros [[o v] K]. destruct (m_tab _ _ I k o v K) as (_ & x & Hx & _).
    change (ecms s !! v = Some x) in Hx. by rewrite E in Hx.
  - apply set_eq. intros i. split; [|set_solver]. intros Hi. apply (m_ids _ _ I) in Hi as (c & x & Hx & _).
    change (ecms s !! c = Some x) in Hx. by rewrite E in Hx.
  - intros h u Hu. destruct (u_ecm u) as [c|] eqn:Ec; [|done]. destruct (m_ecm _ _ I h u c Hu Ec) as (x & Hx & _).
    change (ecms s !! c = Some x) in Hx. by rewrite E in Hx.
Qed.
End Shutdown.
