(* ===== verification/NodeMgr.v ===== *)
(** The node manager (src/mme/nodemgr.c): the configuration of the MME and the
    choice of the gateways.  The parsed configuration file is the interface
    [Config] of libconfig: a setting and what is found in it; a null setting
    handed to the library is a fault.  [inet_pton] is part of the interface. *)
From stdpp Require Import strings.
From coqutil Require Import Datatypes.RecordSetters.
From S2P Require Import Prelude PER S1APTypes S1APDec S1APCodec EMMCtx S1Stack.

(** ** libconfig *)

Class Config := {
  setting : Type;
  config_lookup : string -> option setting;
  config_setting_length : setting -> nat;
  config_setting_get_elem : setting -> nat -> option setting;
  config_setting_get_member : setting -> string -> option setting;
  config_setting_lookup_int : setting -> string -> option Z;
  config_setting_lookup_string : setting -> string -> option (list Z);
  config_setting_get_int : setting -> Z;
  config_setting_get_int_elem : setting -> nat -> Z;
  config_setting_get_string : setting -> option (list Z);   (* without the final zero *)
  inet_pton4 : list Z -> option (list Z);
  inet_pton6 : list Z -> option (list Z);
}.

(** A pointer that is used. *)
Definition non_null {A} (o : option A) : outcome A := match o with Some a => Ok a | None => UB NullDeref end.

Section NodeMgr.
Context {cfg : Config}.

(** ** Nodes *)

Inductive nodeStatus := down | up | busy | status_invalid.
Inductive nodeType := invalid | node_MME | eNB | SGW | PGW | UE | CTRL.

(** [struct nodeinfo_t]; an address that [inet_pton] does not understand is not
    set. *)
Record nodeinfo_t := {
  node_name : list Z;
  addrv4 : option (list Z);
  addrv6 : option (list Z);
  node_status : nodeStatus;
  node_type : nodeType;
}.
Definition MAX_HOST_NAME : nat := 30.

(** The static indices of [getNode]. *)
Record node_index := { imme : Z; iSgw : Z; iPgw : Z; iCtrl : Z }.
Definition node_index0 : node_index := {| imme := 0; iSgw := 0; iPgw := 0; iCtrl := 0 |}.

(** The element at the index, and the next index: the count is an octet. *)
Definition next_node (path : string) (i : Z) : outcome (option setting * Z) :=
  nodes ← non_null (config_lookup path);
  let nodecfg := config_setting_get_elem nodes (Z.to_nat i) in
  let count := wrap8 (Z.of_nat (config_setting_length nodes)) in
  if count =? 0 then UB DivisionByZero else Ok (nodecfg, wrap8 ((i + 1) mod count)).

(** The switch on the type: the setting of the node, the type that is stored
    and the indices.  For the other types [nodecfg] is not set. *)
Definition select_node (type : nodeType) (st : node_index) : outcome (option setting * nodeType * node_index) :=
  match type with
  | node_MME => '(n, i) ← next_node "nodes.mme" (imme st);
      Ok (n, invalid, {| imme := i; iSgw := iSgw st; iPgw := iPgw st; iCtrl := iCtrl st |})
  | SGW => '(n, i) ← next_node "nodes.sgw" (iSgw st);
      Ok (n, SGW, {| imme := imme st; iSgw := i; iPgw := iPgw st; iCtrl := iCtrl st |})
  | PGW => '(n, i) ← next_node "nodes.pgw" (iPgw st);
      Ok (n, PGW, {| imme := imme st; iSgw := iSgw st; iPgw := i; iCtrl := iCtrl st |})
  | CTRL => '(n, i) ← next_node "nodes.sdn" (iCtrl st);
      Ok (n, CTRL, {| imme := imme st; iSgw := iSgw st; iPgw := iPgw st; iCtrl := i |})
  | eNB | UE | invalid => UB Uninitialised
  end.

(** The conversion of [status]: [strcmp] with "down", "up" and "busy". *)
Definition node_status_of (s : list Z) : nodeStatus :=
  if bool_decide (s = [100; 111; 119; 110]) then down
  else if bool_decide (s = [117; 112]) then up
  else if bool_decide (s = [98; 117; 115; 121]) then busy
  else status_invalid.

Definition getNode (type : nodeType) (st : node_index) : outcome (nodeinfo_t * node_index) :=
  '(nodecfg, ty, st) ← select_node type st;
  nodecfg ← non_null nodecfg;
  match config_setting_lookup_string nodecfg "name", config_setting_lookup_string nodecfg "ipv4",
        config_setting_lookup_string nodecfg "ipv6", config_setting_lookup_string nodecfg "status" with
  | Some name, Some ip4, Some ip6, Some status =>
    if (MAX_HOST_NAME <? length name + 1)%nat then UB OutOfBounds
    else Ok ({| node_name := name; addrv4 := inet_pton4 ip4; addrv6 := inet_pton6 ip6;
                node_status := node_status_of status; node_type := ty |}, st)
  | _, _, _, _ => UB Uninitialised
  end.

(** ** The configuration of the MME *)

(** What [loadMMEinfo] stores in [struct mme_t]. *)
Record mme_info := {
  info_name : option (list Z);             (* [name->name], up to the final zero *)
  info_ipv4 : list Z;                      (* [ipv4], INET_ADDRSTRLEN octets *)
  info_stateDir : option (list Z);
  info_servedGUMMEIs : list ServedGUMMEIsItem_t;
  info_relativeCapacity : Z;
  info_s6a : list (option (list Z));       (* host, data base, user, password *)
}.
Definition INET_ADDRSTRLEN : nat := 16.
Definition default_stateDir : list Z := [47; 118; 97; 114; 47; 108; 105; 98; 47; 97; 97; 108; 116; 111].

(** [for(i = 0; i < n; i++)] over the elements of a setting. *)
Fixpoint for_elems {A} (n : nat) (i : nat) (body : nat -> A -> outcome A) (a : A) : outcome A :=
  match n with O => Ok a | S n => a ← body i a; for_elems n (S i) body a end.

(** [additem] of a type whose [size] is an octet: the 256th item makes it 0, and
    the array is freed twice. *)
Definition additem8 {A} (max : Z) (l : list A) (item : A) : outcome (list A) :=
  if (length l =? 255)%nat then UB UseAfterFree else Ok (additem max l item).

(** [config_setting_lookup_int(conf, key, &tmp)], and the value of [tmp]: it keeps
    its value when there is no such setting; [None] as long as it is not set. *)
Definition lookup_tmp (conf : setting) (key : string) (tmp : option Z) : outcome Z :=
  match config_setting_lookup_int conf key, tmp with
  | Some z, _ => Ok z
  | None, Some z => Ok z
  | None, None => UB Uninitialised
  end.

Definition load_PLMN (pLMNsconf : setting) (i : nat) (st : list PLMNidentity_t * option Z)
  : outcome (list PLMNidentity_t * option Z) :=
  let '(served, tmp) := st in
  match config_setting_get_elem pLMNsconf i with
  | None => Ok (served, tmp)
  | Some pLMNconf =>
    mcc ← lookup_tmp pLMNconf "MCC" tmp;
    mnc ← lookup_tmp pLMNconf "MNC" (Some mcc);
    served ← additem8 maxnoofGroupIDs served (plmnId_MccMnc2tbcd (PLMNidentity [0; 0; 0] (wrap16 mcc) (wrap16 mnc)));
    Ok (served, Some mnc)
  end.

Definition htons (x : Z) : Z := ((wrap16 x .& 0xff) << 8) .| (wrap16 x >> 8).
(** The group: the first two octets of [tmp]. *)
Definition load_GID (gIDsconf : setting) (i : nat) (st : list (list Z) * option Z) : outcome (list (list Z) * option Z) :=
  let tmp := htons (config_setting_get_int_elem gIDsconf i) in
  Ok (additem maxnoofGroupIDs st.1 [tmp .& 0xff; tmp >> 8], Some tmp).
Definition load_MMEC (mMECsconf : setting) (i : nat) (served : list (list Z)) : outcome (list (list Z)) :=
  additem8 maxnoofGroupIDs served [wrap8 (config_setting_get_int_elem mMECsconf i)].

Definition load_GUMMEI (gUMMEIsconf : setting) (i : nat) (st : list ServedGUMMEIsItem_t * option Z)
  : outcome (list ServedGUMMEIsItem_t * option Z) :=
  gummeiconf ← non_null (config_setting_get_elem gUMMEIsconf i);
  pLMNsconf ← non_null (config_setting_get_member gummeiconf "Served_PLMNs");
  gIDsconf ← non_null (config_setting_get_member gummeiconf "Served_MME_GroupIDs");
  mMECsconf ← non_null (config_setting_get_member gummeiconf "Served_MME_Codes");
  '(plmns, tmp) ← for_elems (config_setting_length pLMNsconf) 0 (load_PLMN pLMNsconf) ([], st.2);
  '(gids, tmp) ← for_elems (config_setting_length gIDsconf) 0 (load_GID gIDsconf) ([], tmp);
  mmecs ← for_elems (config_setting_length mMECsconf) 0 (load_MMEC mMECsconf) [];
  served ← additem8 maxnoofGroupIDs st.1 (ServedGUMMEIsItem 0 0 (Some plmns) (Some gids) (Some mmecs));
  Ok (served, tmp).

(** The strings of the data base; [None] when one is missing, which is reported. *)
Definition load_s6a : outcome (option (list (option (list Z)))) :=
  match config_lookup "mme.S6a.host", config_lookup "mme.S6a.db", config_lookup "mme.S6a.user", config_lookup "mme.S6a.password" with
  | Some h, Some d, Some u, Some p => Ok (Some (map config_setting_get_string [h; d; u; p]))
  | _, _, _, _ => Ok None
  end.

Definition load_name : outcome (option (list Z)) :=
  conf ← non_null (config_lookup "mme.name");
  match config_setting_get_string conf with
  | Some (c :: s) => if (150 <? length (c :: s) + 1)%nat then UB OutOfBounds else Ok (Some (c :: s))
  | _ => Ok None
  end.
Definition load_ipv4 : outcome (list Z) :=
  conf ← non_null (config_lookup "mme.ipv4");
  match config_setting_get_string conf with
  | Some (c :: s) => overwrite (repeat 0 INET_ADDRSTRLEN) 0 (c :: s)
  | _ => Ok (repeat 0 INET_ADDRSTRLEN)
  end.

Definition load_served : outcome (list ServedGUMMEIsItem_t) :=
  gUMMEIsconf ← non_null (config_lookup "mme.servedGUMMEIs");
  '(served, _) ← for_elems (config_setting_length gUMMEIsconf) 0 (load_GUMMEI gUMMEIsconf) ([], None);
  Ok served.

Definition load_stateDir : option (list Z) :=
  match config_lookup "mme.state_directory" with
  | None => Some default_stateDir
  | Some c => config_setting_get_string c
  end.

(** [loadMMEinfo]: [None] when it sets the error. *)
Definition loadMMEinfo : outcome (option mme_info) :=
  name ← load_name;
  ipv4 ← load_ipv4;
  served ← load_served;
  match config_lookup "mme.relative_Capacity" with
  | None => Ok (@None mme_info)
  | Some relCapconf =>
    s6a ← load_s6a;
    match s6a with
    | None => Ok (@None mme_info)
    | Some s => Ok (Some {| info_name := name; info_ipv4 := ipv4; info_stateDir := load_stateDir; info_servedGUMMEIs := served;
        info_relativeCapacity := wrap8 (config_setting_get_int relCapconf); info_s6a := s |})
    end
  end.

(** ** Start-up *)

(** [mme_init_ifaces] (MME.c): [up] says which interfaces come up.  On an error the
    labels from [err_...] on release the interfaces: those that did not come up are
    null, and their functions use the pointer. *)
Inductive iface := I_s6a | I_cmd | I_s11 | I_s1 | I_sdnCtrl.
Definition free_iface (up : iface -> bool) (i : iface) : outcome unit := if up i then Ok tt else UB NullDeref.
Definition err_cmd (up : iface -> bool) : outcome bool := _ ← free_iface up I_s6a; Ok false.
Definition err_s11 (up : iface -> bool) : outcome bool := _ ← free_iface up I_s11; err_cmd up.
Definition err_s1 (up : iface -> bool) : outcome bool := _ ← free_iface up I_s1; err_s11 up.
Definition err_sdnCtrl (up : iface -> bool) : outcome bool := _ ← free_iface up I_sdnCtrl; err_s1 up.
Definition mme_init_ifaces (up : iface -> bool) : outcome bool :=
  if negb (up I_s6a) then Ok false
  else if negb (up I_cmd) then err_cmd up
  else if negb (up I_s11) then err_s11 up
  else if negb (up I_s1) then err_s1 up
  else if negb (up I_sdnCtrl) then err_sdnCtrl up
  else Ok true.

(** An error after the console came up ends the program. *)
Theorem mme_init_ifaces_faults up : mme_init_ifaces up =
  if up I_s6a && up I_cmd then if up I_s11 && up I_s1 && up I_sdnCtrl then Ok true else UB NullDeref else Ok false.
Proof.
  unfold mme_init_ifaces, err_sdnCtrl, err_s1, err_s11, err_cmd, free_iface.
  destruct (up I_s6a) eqn:?, (up I_cmd), (up I_s11), (up I_s1), (up I_sdnCtrl); done.
Qed.

(** ** Round robin *)

Definition pool (t : nodeType) : string :=
  match t with node_MME => "nodes.mme" | SGW => "nodes.sgw" | PGW => "nodes.pgw" | CTRL => "nodes.sdn" | _ => "" end.
Definition pooled (t : nodeType) : Prop := match t with node_MME | SGW | PGW | CTRL => True | _ => False end.
Definition index_of (t : nodeType) (st : node_index) : Z :=
  match t with node_MME => imme st | SGW => iSgw st | PGW => iPgw st | _ => iCtrl st end.
Definition stored_type (t : nodeType) : nodeType := match t with node_MME => invalid | _ => t end.

(** The setting describes the node. *)
Definition describes (c : setting) (t : nodeType) (x : nodeinfo_t) : Prop := exists ip4 ip6 status,
  config_setting_lookup_string c "name" = Some (node_name x) /\ config_setting_lookup_string c "ipv4" = Some ip4 /\
  config_setting_lookup_string c "ipv6" = Some ip6 /\ config_setting_lookup_string c "status" = Some status /\
  (length (node_name x) < MAX_HOST_NAME)%nat /\ addrv4 x = inet_pton4 ip4 /\ addrv6 x = inet_pton6 ip6 /\
  node_status x = node_status_of status /\ node_type x = stored_type t.
(** The configuration file has these nodes of a type, at least one and at most
    255. *)
Definition configured (t : nodeType) (l : list nodeinfo_t) : Prop := pooled t /\ (0 < length l < 256)%nat /\
  exists nodes, config_lookup (pool t) = Some nodes /\ config_setting_length nodes = length l /\
    forall i x, l !! i = Some x -> exists c, config_setting_get_elem nodes i = Some c /\ describes c t x.

Lemma next_node_ok t l i x : configured t l -> l !! i = Some x -> exists c,
  next_node (pool t) (Z.of_nat i) = Ok (Some c, Z.of_nat (S i mod length l)) /\ describes c t x.
Proof.
  intros (_ & Hl & nodes & E1 & E2 & H) Hi. destruct (H i x Hi) as (c & E3 & D). exists c. split; [|done].
  apply lookup_lt_Some in Hi. unfold next_node. rewrite E1. cbn [non_null]. osimp. rewrite Nat2Z.id, E2, E3.
  assert (W : wrap8 (Z.of_nat (length l)) = Z.of_nat (length l)) by (apply wrap8_id; lia). rewrite W.
  destruct (Z.eqb_spec (Z.of_nat (length l)) 0); [lia|]. do 2 f_equal.
  replace (Z.of_nat i + 1) with (Z.of_nat (S i)) by lia. rewrite <- Nat2Z.inj_mod. apply wrap8_id.
  pose proof (Nat.mod_upper_bound (S i) (length l)). lia.
Qed.

Lemma getNode_ok t l i x st : configured t l -> l !! i = Some x -> index_of t st = Z.of_nat i ->
  exists st', getNode t st = Ok (x, st') /\ index_of t st' = Z.of_nat (S i mod length l) /\
    forall t', pooled t' -> t' <> t -> index_of t' st' = index_of t' st.
Proof.
  intros C Hi Hx. destruct (next_node_ok t l i x C Hi) as (c & E & ip4 & ip6 & s & D1 & D2 & D3 & D4 & D5 & D6 & D7 & D8 & D9).
  rewrite <- Hx in E. unfold getNode, select_node. destruct C as [P _].
  assert (B : (MAX_HOST_NAME <? length (node_name x) + 1)%nat = false) by (apply Nat.ltb_ge; lia).
  assert (Hr : {| node_name := node_name x; addrv4 := inet_pton4 ip4; addrv6 := inet_pton6 ip6;
    node_status := node_status_of s; node_type := stored_type t |} = x) by (destruct x; cbn in *; congruence).
  destruct t; try done; cbn [pool index_of stored_type] in *; rewrite E; osimp; cbn [non_null]; osimp; rewrite D1, D2, D3, D4, B, Hr;
    (eexists; split; [done|]); (split; [done|]); intros [] ? ?; done.
Qed.

Fixpoint getNodes (ts : list nodeType) (st : node_index) : outcome (list nodeinfo_t * node_index) :=
  match ts with
  | [] => Ok ([], st)
  | t :: ts => '(x, st) ← getNode t st; '(xs, st) ← getNodes ts st; Ok (x :: xs, st)
  end.

#[export] Instance nodeType_eq_dec : EqDecision nodeType.
Proof. solve_decision. Defined.
(** How often a type was asked for. *)
Definition asked (t : nodeType) (ts : list nodeType) : nat := length (filter (fun t' => t' = t) ts).

(** C27: The nodes of a type are handed out in turn, in the order of the
    configuration file and beginning with the first, whatever nodes of other types
    are asked for in between. *)
Theorem getNode_round_robin (nodes : nodeType -> list nodeinfo_t) ts : (forall t, t ∈ ts -> configured t (nodes t)) ->
  exists xs st, getNodes ts node_index0 = Ok (xs, st) /\
    forall i t, ts !! i = Some t -> xs !! i = nodes t !! (asked t (take i ts) mod length (nodes t))%nat.
Proof.
  intros H. assert (G : forall n st, (forall t, t ∈ ts -> index_of t st = Z.of_nat (n t mod length (nodes t))) ->
    exists xs st', getNodes ts st = Ok (xs, st') /\
      forall i t, ts !! i = Some t -> xs !! i = nodes t !! ((n t + asked t (take i ts)) mod length (nodes t))%nat).
  { induction ts as [|t ts IH]; intros n st Hn; [by exists [], st|].
    assert (C : configured t (nodes t)) by (apply H; left). pose proof C as (_ & L & _).
    destruct (lookup_lt_is_Some_2 (nodes t) (n t mod length (nodes t))) as [x Hx]; [apply Nat.mod_upper_bound; lia|].
    destruct (getNode_ok t (nodes t) _ x st C Hx) as (st1 & E & I1 & I2); [apply Hn; left|].
    destruct (IH ltac:(intros; apply H; by right) (fun t' => if decide (t' = t) then S (n t) else n t') st1) as (xs & st' & E2 & K).
    { intros t' Ht. destruct (decide (t' = t)) as [->|Hne].
      - rewrite I1. f_equal. rewrite <- Nat.add_1_r, Nat.Div0.add_mod_idemp_l, Nat.add_1_r. done.
      - rewrite I2; [|by destruct (H t' ltac:(by right))|done]. apply Hn. by right. }
    exists (x :: xs), st'. split; [cbn [getNodes]; rewrite E; osimp; by rewrite E2|].
    intros [|i] t' Ht.
    - injection Ht as <-. unfold asked. cbn [take filter]. rewrite filter_nil. cbn [length]. by rewrite Nat.add_0_r, Hx.
    - change (ts !! i = Some t') in Ht. change ((x :: xs) !! S i) with (xs !! i). change (take (S i) (t :: ts)) with (t :: take i ts).
      rewrite (K i t' Ht). unfold asked. rewrite filter_cons. f_equal.
      destruct (decide (t' = t)) as [->|Hne]; [rewrite decide_True by done; cbn; f_equal; lia|].
      by rewrite decide_False by congruence. }
  destruct (G (fun _ => O) node_index0) as (xs & st & E & K); [intros t _; rewrite Nat.Div0.mod_0_l; by destruct t|]. by exists xs, st.
Qed.

(** ** What is loaded *)

(** What a configuration file declares: for each GUMMEI the networks (MCC, MNC),
    the groups and the codes of the MME; the other settings of the MME. *)
Record gummei_decl := { d_plmns : list (Z * Z); d_groups : list Z; d_codes : list Z }.
Record mme_decl := { d_name : list Z; d_ipv4 : list Z; d_dir : option (list Z); d_gummeis : list gummei_decl; d_cap : Z;
  d_s6a : list (list Z) }.

(** The element [i] of the setting [c] is described by the element [i] of [l]. *)
Definition array_of {B} (c : setting) (l : list B) (R : nat -> B -> Prop) : Prop :=
  config_setting_length c = length l /\ forall i b, l !! i = Some b -> R i b.
(** The three octets of a network (TS 24.008, 10.5.1.13), each with the later
    digit in its upper half: MCC 2 and 1, MNC 3 and MCC 3, MNC 2 and 1.  A network
    code of two digits has 1111 for its third digit. *)
Definition plmn_octets (p : Z * Z) : list Z :=
  let '(mcc, mnc) := p in
  if mnc <? 100 then [16 * (mcc / 10 mod 10) + mcc / 100; 16 * 15 + mcc mod 10; 16 * (mnc mod 10) + mnc / 10]
  else [16 * (mcc / 10 mod 10) + mcc / 100; 16 * (mnc mod 10) + mcc mod 10; 16 * (mnc / 10 mod 10) + mnc / 100].
Definition plmn_of (p : Z * Z) : PLMNidentity_t := PLMNidentity (plmn_octets p) p.1 p.2.
(** Codes of at most three digits. *)
Definition plmn_in_range (p : Z * Z) : Prop := 0 <= p.1 <= 999 /\ 0 <= p.2 <= 999.

Definition declares_gummei (c : setting) (g : gummei_decl) : Prop := exists ps gs ms,
  config_setting_get_member c "Served_PLMNs" = Some ps /\ config_setting_get_member c "Served_MME_GroupIDs" = Some gs /\
  config_setting_get_member c "Served_MME_Codes" = Some ms /\
  array_of ps (d_plmns g) (fun i p => plmn_in_range p /\ exists e, config_setting_get_elem ps i = Some e /\
    config_setting_lookup_int e "MCC" = Some p.1 /\ config_setting_lookup_int e "MNC" = Some p.2) /\
  array_of gs (d_groups g) (fun i x => config_setting_get_int_elem gs i = x /\ 0 <= x < 65536) /\
  array_of ms (d_codes g) (fun i x => config_setting_get_int_elem ms i = x /\ 0 <= x < 256) /\
  (length (d_plmns g) < 256)%nat /\ Z.of_nat (length (d_groups g)) < 65535 /\ (length (d_codes g) < 256)%nat.
Definition declares_string (path : string) (s : list Z) : Prop := exists c,
  config_lookup path = Some c /\ config_setting_get_string c = Some s.
Definition declares (d : mme_decl) : Prop :=
  declares_string "mme.name" (d_name d) /\ (0 < length (d_name d) < 150)%nat /\
  declares_string "mme.ipv4" (d_ipv4 d) /\ (0 < length (d_ipv4 d) <= INET_ADDRSTRLEN)%nat /\
  (match d_dir d with
   | None => config_lookup "mme.state_directory" = None
   | Some s => declares_string "mme.state_directory" s
   end) /\
  (exists c, config_lookup "mme.servedGUMMEIs" = Some c /\ array_of c (d_gummeis d) (fun i g => exists e,
    config_setting_get_elem c i = Some e /\ declares_gummei e g)) /\ (length (d_gummeis d) < 256)%nat /\
  (exists c, config_lookup "mme.relative_Capacity" = Some c /\ config_setting_get_int c = d_cap d) /\ 0 <= d_cap d < 256 /\
  (exists h b u p, d_s6a d = [h; b; u; p] /\ declares_string "mme.S6a.host" h /\ declares_string "mme.S6a.db" b /\
    declares_string "mme.S6a.user" u /\ declares_string "mme.S6a.password" p).

Definition item_of (g : gummei_decl) : ServedGUMMEIsItem_t :=
  ServedGUMMEIsItem 0 0 (Some (map plmn_of (d_plmns g))) (Some (map (fun x => [x / 256; x mod 256]) (d_groups g)))
    (Some (map (fun x => [x]) (d_codes g))).
Definition info_of (d : mme_decl) : mme_info := {|
  info_name := Some (d_name d); info_ipv4 := d_ipv4 d ++ repeat 0 (INET_ADDRSTRLEN - length (d_ipv4 d));
  info_stateDir := Some (default default_stateDir (d_dir d));
  info_servedGUMMEIs := map item_of (d_gummeis d); info_relativeCapacity := d_cap d; info_s6a := map Some (d_s6a d) |}.

Lemma for_elems_inv {A} (P : nat -> A -> Prop) n k body a : P k a ->
  (forall i a, (k <= i < k + n)%nat -> P i a -> exists a', body i a = Ok a' /\ P (S i) a') ->
  exists a', for_elems n k body a = Ok a' /\ P (k + n)%nat a'.
Proof.
  revert k a. induction n as [|n IH]; intros k a H0 H; [exists a; by rewrite Nat.add_0_r|].
  destruct (H k a ltac:(lia) H0) as (a1 & E & H1). destruct (IH (S k) a1 H1) as (a2 & E2 & H2).
  - intros i b Hi. apply H. lia.
  - exists a2. cbn [for_elems]. rewrite E. osimp. split; [done|]. by rewrite Nat.add_succ_r.
Qed.

(** A loop over the elements of a setting that adds what they describe. *)
Lemma for_elems_map {A B C} (get : A -> list C) (f : B -> C) (l : list B) body a : get a = [] ->
  (forall i b a, l !! i = Some b -> get a = map f (take i l) -> exists a', body i a = Ok a' /\ get a' = get a ++ [f b]) ->
  exists a', for_elems (length l) 0 body a = Ok a' /\ get a' = map f l.
Proof.
  intros H0 H. destruct (for_elems_inv (fun i a => get a = map f (take i l)) (length l) 0 body a) as (a' & E & G).
  - by rewrite take_0.
  - intros i b Hi Hb. destruct (lookup_lt_is_Some_2 l i) as [x Hx]; [lia|]. destruct (H i x b Hx Hb) as (a' & E & G).
    exists a'. split; [done|]. by rewrite G, Hb, (take_S_r _ _ _ Hx), map_app.
  - exists a'. split; [done|]. by rewrite G, Nat.add_0_l, firstn_all.
Qed.

Lemma additem8_app {A B} (f : B -> A) (l : list B) i (x : A) : (i < length l < 256)%nat ->
  additem8 maxnoofGroupIDs (map f (take i l)) x = Ok (map f (take i l) ++ [x]).
Proof.
  intros H. assert (L : length (map f (take i l)) = i) by (rewrite length_map, length_take; lia).
  unfold additem8, additem. rewrite L. destruct (Nat.eqb_spec i 255); [lia|]. unfold maxnoofGroupIDs.
  destruct (Z.eqb_spec (Z.of_nat i + 1) 65535); [lia|]. done.
Qed.

Lemma tbcd_octets p : plmn_in_range p -> plmnId_MccMnc2tbcd (PLMNidentity [0; 0; 0] p.1 p.2) = plmn_of p.
Proof.
  destruct p as [mcc mnc]. cbn [fst snd]. intros [R1 R2]. cbn [fst snd] in *. unfold plmn_of, plmn_octets, plmnId_MccMnc2tbcd. cbn [fst snd]. rewrite (wrap8_id (mcc mod 10)) by lia.
  replace (mcc / 10 mod 10) with ((mcc mod 100) / 10) by lia.
  destruct (Z.eqb_spec (mnc / 100) 0), (Z.ltb_spec mnc 100); try lia; f_equal.
  - rewrite digits_lor, (Z.lor_comm (mnc / 10)), digits_lor, (Z.lor_comm (mcc mod 10)) by lia.
    change 0xf0 with (15 << 4). rewrite digits_lor by lia. by rewrite !wrap8_id by lia.
  - replace (mnc / 10 mod 10) with ((mnc mod 100) / 10) by lia.
    rewrite digits_lor, (Z.lor_comm (mcc mod 10)), !digits_lor by lia. by rewrite !wrap8_id by lia.
Qed.

Lemma load_PLMN_ok ps g i p st e : d_plmns g !! i = Some p -> st.1 = map plmn_of (take i (d_plmns g)) ->
  (length (d_plmns g) < 256)%nat -> plmn_in_range p -> config_setting_get_elem ps i = Some e ->
  config_setting_lookup_int e "MCC" = Some p.1 -> config_setting_lookup_int e "MNC" = Some p.2 ->
  exists st', load_PLMN ps i st = Ok st' /\ st'.1 = st.1 ++ [plmn_of p].
Proof.
  intros Hi Hs L [R1 R2] E1 E2 E3. destruct st as [served tmp]. cbn [fst] in *. unfold load_PLMN, lookup_tmp.
  rewrite E1, E2. osimp. rewrite E3. osimp. apply lookup_lt_Some in Hi. rewrite Hs, additem8_app by done. osimp.
  eexists. split; [done|]. cbn [fst]. by rewrite !wrap16_id, tbcd_octets by (unfold plmn_in_range; lia).
Qed.

Lemma htons_octets x : 0 <= x < 65536 -> [htons x .& 0xff; htons x >> 8] = [x / 256; x mod 256].
Proof.
  intros H. unfold htons. rewrite wrap16_id, !land_ff, !Z.shiftr_div_pow2, Z.shiftl_mul_pow2 by lia.
  rewrite (lor_disjoint_add _ _ 8) by lia. f_equal; [lia|f_equal; lia].
Qed.

Lemma load_GID_ok gs g i x st : d_groups g !! i = Some x -> st.1 = map (fun x => [x / 256; x mod 256]) (take i (d_groups g)) ->
  Z.of_nat (length (d_groups g)) < 65535 -> config_setting_get_int_elem gs i = x -> 0 <= x < 65536 ->
  exists st', load_GID gs i st = Ok st' /\ st'.1 = st.1 ++ [[x / 256; x mod 256]].
Proof.
  intros Hi Hs L E R. unfold load_GID. rewrite E. eexists. split; [done|]. cbn [fst]. apply lookup_lt_Some in Hi.
  unfold additem. assert (Hl : length st.1 = i) by (rewrite Hs, length_map, length_take; lia). rewrite Hl. unfold maxnoofGroupIDs.
  destruct (Z.eqb_spec (Z.of_nat i + 1) 65535); [lia|]. by rewrite htons_octets.
Qed.

Lemma declares_gummei_loads c i e g st : config_setting_get_elem c i = Some e -> declares_gummei e g ->
  (length st.1 < 255)%nat -> exists st', load_GUMMEI c i st = Ok st' /\ st'.1 = st.1 ++ [item_of g].
Proof.
  intros E (ps & gs & ms & E1 & E2 & E3 & [A1 A1'] & [A2 A2'] & [A3 A3'] & L1 & L2 & L3) L.
  destruct (for_elems_map fst plmn_of (d_plmns g) (load_PLMN ps) ([], st.2) eq_refl) as ([plmns tmp] & F1 & G1).
  { intros k p a Hk Ha. destruct (A1' k p Hk) as (R & q & Q1 & Q2 & Q3). by apply (load_PLMN_ok ps g k p a q). }
  destruct (for_elems_map fst (fun x => [x / 256; x mod 256]) (d_groups g) (load_GID gs) ([], tmp) eq_refl) as ([gids tmp'] & F2 & G2).
  { intros k p a Hk Ha. destruct (A2' k p Hk) as (Q1 & Q2). by apply (load_GID_ok gs g k p a). }
  destruct (for_elems_map id (fun x => [x]) (d_codes g) (load_MMEC ms) [] eq_refl) as (mmecs & F3 & G3).
  { intros k p a Hk Ha. destruct (A3' k p Hk) as (Q1 & Q2). unfold load_MMEC, id in *. rewrite Q1, wrap8_id by lia.
    rewrite Ha, additem8_app by (split; [by apply lookup_lt_Some in Hk|lia]). eauto. }
  cbn [fst] in G1, G2. unfold id in G3. subst plmns gids mmecs.
  unfold load_GUMMEI. rewrite E. cbn [non_null]. osimp. rewrite E1, E2, E3. cbn [non_null]. osimp. rewrite A1, F1. osimp.
  rewrite A2, F2. osimp. rewrite A3, F3. osimp. unfold additem8, additem. destruct (Nat.eqb_spec (length st.1) 255); [lia|].
  unfold maxnoofGroupIDs. destruct (Z.eqb_spec (Z.of_nat (length st.1) + 1) 65535); [lia|]. osimp. eauto.
Qed.

Lemma load_served_ok d c : config_lookup "mme.servedGUMMEIs" = Some c -> (length (d_gummeis d) < 256)%nat ->
  array_of c (d_gummeis d) (fun i g => exists e, config_setting_get_elem c i = Some e /\ declares_gummei e g) ->
  load_served = Ok (map item_of (d_gummeis d)).
Proof.
  intros E L [A A']. destruct (for_elems_map fst item_of (d_gummeis d) (load_GUMMEI c) ([], None) eq_refl) as ([served tmp] & F & G).
  - intros i g a Hi Ha. destruct (A' i g Hi) as (e & E1 & D). apply (declares_gummei_loads c i e g); [done..|].
    rewrite Ha, length_map, length_take. apply lookup_lt_Some in Hi. lia.
  - cbn [fst] in G. subst served. unfold load_served. rewrite E. cbn [non_null]. osimp. by rewrite A, F.
Qed.

Lemma load_name_ok s : declares_string "mme.name" s -> (0 < length s < 150)%nat -> load_name = Ok (Some s).
Proof.
  intros (c & E1 & E2) L. unfold load_name. rewrite E1. cbn [non_null]. osimp. rewrite E2.
  destruct s as [|x s]; [cbn in L; lia|]. destruct (Nat.ltb_spec 150 (length (x :: s) + 1)); [lia|done].
Qed.

Lemma drop_repeat {A} (x : A) k n : drop k (repeat x n) = repeat x (n - k).
Proof. revert k. induction n as [|n IH]; intros [|k]; try done. apply IH. Qed.

Lemma load_ipv4_ok s : declares_string "mme.ipv4" s -> (0 < length s <= INET_ADDRSTRLEN)%nat ->
  load_ipv4 = Ok (s ++ repeat 0 (INET_ADDRSTRLEN - length s)).
Proof.
  intros (c & E1 & E2) L. unfold load_ipv4. rewrite E1. cbn [non_null]. osimp. rewrite E2.
  destruct s as [|x s]; [cbn in L; lia|]. rewrite overwrite_Ok by (rewrite ?repeat_length; lia).
  change (Z.to_nat 0) with O. by rewrite take_0, Nat.add_0_l, drop_repeat.
Qed.

(** [loadMMEinfo] loads what the file declares. *)
Lemma loadMMEinfo_ok d : declares d -> loadMMEinfo = Ok (Some (info_of d)).
Proof.
  intros (N & Nl & I & Il & D & (cg & G & Ga) & Gl & (cr & C & C') & Cl & (h & b & u & p & S & (ch & H1 & H2) & (cb & B1 & B2) &
    (cu & U1 & U2) & (cp & P1 & P2))).
  unfold loadMMEinfo. rewrite (load_name_ok _ N Nl). osimp. rewrite (load_ipv4_ok _ I Il). osimp.
  rewrite (load_served_ok d cg G Gl Ga). osimp. rewrite C. unfold load_s6a. rewrite H1, B1, U1, P1. osimp.
  unfold info_of. do 3 f_equal; [|by rewrite C', wrap8_id by lia|by rewrite S; cbn; rewrite H2, B2, U2, P2].
  unfold load_stateDir. destruct (d_dir d) as [s|]; [destruct D as (x & -> & ->); done|by rewrite D].
Qed.
End NodeMgr.

(** ** The networks of the MME *)

Definition conf_of (i : mme_info) : MMEConf := {| mme_name := info_name i; mme_servedGUMMEIs := info_servedGUMMEIs i;
  mme_relativeCapacity := info_relativeCapacity i |}.
(** The tracking area of an eNB that broadcasts networks. *)
Definition ta_of (t : list Z * list (Z * Z)) : SupportedTAs_Item_t :=
  SupportedTAs_Item 0 0 t.1 (Some (BPLMNs (Z.of_nat (length t.2)) (map plmn_of t.2))).
Lemma plmn_octets_inj p q : plmn_in_range p -> plmn_in_range q -> plmn_octets p = plmn_octets q -> p = q.
Proof.
  destruct p as [a b], q as [c d]. intros [P1 P2] [Q1 Q2] H. cbn [fst snd] in *. unfold plmn_octets in H.
  destruct (Z.ltb_spec b 100), (Z.ltb_spec d 100); injection H as E1 E2 E3; f_equal; lia.
Qed.

Lemma plmn_served_ok info gs p : info_servedGUMMEIs info = map item_of gs -> exists b,
  plmn_served (conf := conf_of info) (plmn_octets p) = Ok b /\ (b = true <-> exists g q, g ∈ gs /\ q ∈ d_plmns g /\ plmn_octets q = plmn_octets p).
Proof.
  intros E. unfold plmn_served, mme_servedGUMMEIs, conf_of. rewrite E. clear E. induction gs as [|g gs IH].
  - exists false. split; [done|]. split; [done|]. intros (g & q & H & _). inversion H.
  - destruct IH as (b & E & IH). cbn [map foldr]. unfold item_of at 1. rewrite E. osimp. eexists. split; [done|].
    rewrite orb_true_iff, IH. split.
    + intros [H|(g' & q & H1 & H2)]; [|exists g', q; split; [by right|done]].
      apply existsb_exists in H as ([t mcc mnc] & H1 & H2). apply in_map_iff in H1 as (q & H1 & H3).
      apply bool_decide_eq_true in H2. exists g, q. split; [left|]. split; [by apply list_elem_of_In|]. unfold plmn_of in H1. congruence.
    + intros (g' & q & H1 & H2 & H3). apply elem_of_cons in H1 as [->|H1]; [left|right; eauto].
      apply existsb_exists. exists (plmn_of q). split; [by apply in_map, list_elem_of_In|]. by apply bool_decide_eq_true.
Qed.

Lemma any_ok_spec {X} (f : X -> outcome bool) l (R : X -> Prop) :
  (forall x, x ∈ l -> exists b, f x = Ok b /\ (b = true <-> R x)) ->
  exists b, any_ok f l = Ok b /\ (b = true <-> exists x, x ∈ l /\ R x).
Proof.
  induction l as [|x l IH]; intros H.
  - exists false. split; [done|]. split; [done|]. intros (x & Hx & _). inversion Hx.
  - destruct (H x ltac:(left)) as (a & E & Ha). destruct IH as (b & F & Hb); [intros; apply H; by right|].
    exists (a || b). unfold any_ok in *. cbn [foldr]. rewrite E. osimp. rewrite F. split; [done|].
    rewrite orb_true_iff, Ha, Hb. split.
    + intros [Hx|(y & Hy & R1)]; [exists x; split; [left|done]|exists y; split; [by right|done]].
    + intros (y & Hy & R1). apply elem_of_cons in Hy as [->|Hy]; [by left|right; eauto].
Qed.

Lemma any_ok_map {X Y} (g : Y -> X) f l : any_ok f (map g l) = any_ok (fun y => f (g y)) l.
Proof. unfold any_ok. induction l as [|y l IH]; [done|]. cbn. by rewrite IH. Qed.
Lemma any_ok_ext {X} (f g : X -> outcome bool) l : (forall x, f x = g x) -> any_ok f l = any_ok g l.
Proof. intros H. unfold any_ok. induction l as [|x l IH]; [done|]. cbn. by rewrite H, IH. Qed.

(** C26: With a configuration file that declares the settings of the MME,
    [loadMMEinfo] stores exactly what it declares (the name, the address, the
    directory, for each GUMMEI its networks as the octets of TS 24.008, its groups
    and codes, the capacity, and the strings of the data base), and the check that
    decides whether an S1 Setup is accepted finds an eNB suitable exactly when it
    broadcasts a network (MCC and MNC) that the file lists. *)
Theorem configured_networks_accepted {cfg : Config} d tas : declares d ->
  (forall t p, t ∈ tas -> p ∈ t.2 -> plmn_in_range p) ->
  loadMMEinfo = Ok (Some (info_of d)) /\
  exists b, mme_containsSupportedTAs (conf := conf_of (info_of d)) (map ta_of tas) = Ok b /\
    (b = true <-> exists t p g, t ∈ tas /\ p ∈ t.2 /\ g ∈ d_gummeis d /\ p ∈ d_plmns g).
Proof.
  intros D R. split; [by apply loadMMEinfo_ok|]. unfold mme_containsSupportedTAs.
  destruct D as (_ & _ & _ & _ & _ & (c & _ & _ & A) & _).
  assert (RG : forall g q, g ∈ d_gummeis d -> q ∈ d_plmns g -> plmn_in_range q).
  { intros g q Hg Hq. apply list_elem_of_lookup in Hg as [i Hi], Hq as [j Hj].
    destruct (A i g Hi) as (e & _ & ps & gs & ms & _ & _ & _ & [_ B] & _). by destruct (B j q Hj). }
  set (S q := exists g, g ∈ d_gummeis d /\ q ∈ d_plmns g).
  destruct (any_ok_spec (fun t => any_ok (fun p => plmn_served (conf := conf_of (info_of d)) (plmn_octets p)) t.2) tas
    (fun t => exists p, p ∈ t.2 /\ S p)) as (b & F & Hb).
  - intros t Ht. apply any_ok_spec. intros p Hp. destruct (plmn_served_ok (info_of d) (d_gummeis d) p eq_refl) as (b & F & Hb).
    exists b. split; [done|]. rewrite Hb. unfold S. split.
    + intros (g & q & Hg & Hq & Et). apply plmn_octets_inj in Et as <-; eauto.
    + intros (g & Hg & Hq). by exists g, p.
  - exists b. split; [|rewrite Hb; unfold S; naive_solver]. rewrite <- F.
    rewrite any_ok_map. apply any_ok_ext. intros t. unfold ta_of. rewrite any_ok_map. done.
Qed.

(** ** The configuration file of the repository (src/mme.cfg) *)

Inductive cval := CInt (z : Z) | CStr (s : list Z) | CList (l : list cval) | CGroup (l : list (string * cval)).
Definition chars (s : string) : list Z := map (fun c => Z.of_N (Ascii.N_of_ascii c)) (String.list_ascii_of_string s).
Definition assoc_key (k : string) (l : list (string * cval)) : option cval := snd <$> head (filter (fun p => p.1 = k) l).
Definition member (c : cval) (k : string) : option cval := match c with CGroup l => assoc_key k l | _ => None end.
Definition elems (c : cval) : list cval := match c with CList l => l | CGroup l => map snd l | _ => [] end.
Definition int_of (c : cval) : option Z := match c with CInt z => Some z | _ => None end.
Definition str_of (c : cval) : option (list Z) := match c with CStr s => Some s | _ => None end.

Definition plmn_588_71 : cval := CGroup [("MCC", CInt 588); ("MNC", CInt 71)]%string.
Definition cfg_gummei : cval := CGroup [("Served_PLMNs", CList [plmn_588_71]); ("Served_MME_GroupIDs", CList [CInt 32772]);
  ("Served_MME_Codes", CList [CInt 3])]%string.
Definition cfg_node (ip4 : string) : cval := CGroup [("name", CStr (chars "default")); ("ipv4", CStr (chars ip4));
  ("ipv6", CStr (chars "fe80::e086:9dff:fe4c:101a")); ("status", CStr (chars "up"))]%string.
Definition cfg_nodes (ip4 : string) : cval := CList [cfg_node ip4; cfg_node ip4].
Definition cfg_file : list (string * cval) := [("mme.name", CStr (chars "develMME")); ("mme.ipv4", CStr (chars "172.16.0.43"));
  ("mme.servedGUMMEIs", CList [cfg_gummei]); ("mme.relative_Capacity", CInt 41);
  ("mme.S6a.host", CStr (chars "localhost")); ("mme.S6a.db", CStr (chars "hss_lte_db"));
  ("mme.S6a.user", CStr (chars "hss")); ("mme.S6a.password", CStr (chars "hss"));
  ("nodes.sgw", cfg_nodes "172.16.0.33"); ("nodes.pgw", cfg_nodes "127.0.0.2");
  ("nodes.mme", cfg_nodes "10.12.0.141"); ("nodes.sdn", cfg_nodes "172.16.0.41")]%string.

(** The decimal numbers between the dots. *)
Fixpoint dotted (l : list Z) (n : Z) : list Z :=
  match l with [] => [n] | c :: l => if c =? 46 then n :: dotted l 0 else dotted l (n * 10 + (c - 48)) end.
Definition mme_cfg : Config := {|
  setting := cval;
  config_lookup k := assoc_key k cfg_file;
  config_setting_length c := length (elems c);
  config_setting_get_elem c i := elems c !! i;
  config_setting_get_member := member;
  config_setting_lookup_int c k := c ← member c k; int_of c;
  config_setting_lookup_string c k := c ← member c k; str_of c;
  config_setting_get_int c := default 0 (int_of c);
  config_setting_get_int_elem c i := default 0 (c ← elems c !! i; int_of c);
  config_setting_get_string := str_of;
  inet_pton4 s := let l := dotted s 0 in if (length l =? 4)%nat then Some l else None;
  inet_pton6 s := None;
|}.
Definition mme_cfg_decl : mme_decl := {| d_name := chars "develMME"; d_ipv4 := chars "172.16.0.43"; d_dir := None;
  d_gummeis := [{| d_plmns := [(588, 71)]; d_groups := [32772]; d_codes := [3] |}]; d_cap := 41;
  d_s6a := [chars "localhost"; chars "hss_lte_db"; chars "hss"; chars "hss"] |}.

Lemma array_of_one {cfg : Config} {B} (c : setting) (b : B) (R : nat -> B -> Prop) : config_setting_length c = 1%nat -> R O b ->
  array_of c [b] R.
Proof. intros H Hb. split; [done|]. by intros [|i] x [= <-]. Qed.

Lemma cfg_gummei_declares : declares_gummei (cfg := mme_cfg) cfg_gummei {| d_plmns := [(588, 71)]; d_groups := [32772]; d_codes := [3] |}.
Proof.
  do 3 eexists. do 3 (split; [reflexivity|]).
  split; [apply (array_of_one (cfg := mme_cfg)); [done|]; split; [by unfold plmn_in_range|]; by eexists|].
  do 2 (split; [by apply (array_of_one (cfg := mme_cfg))|]). cbn. lia.
Qed.

Lemma mme_cfg_declares : declares (cfg := mme_cfg) mme_cfg_decl.
Proof.
  assert (S : forall k s, assoc_key k cfg_file = Some (CStr s) -> declares_string (cfg := mme_cfg) k s) by (intros; eexists; eauto).
  unfold declares. split; [by apply S|]. split; [cbn; lia|]. split; [by apply S|]. split; [cbn; unfold INET_ADDRSTRLEN; lia|].
  split; [done|]. split; [|split; [cbn; lia|split; [by eexists|split; [cbn; lia|]]]].
  - eexists. split; [reflexivity|]. apply array_of_one; [done|]. eexists. split; [reflexivity|]. apply cfg_gummei_declares.
  - do 4 eexists. split; [reflexivity|]. split; [|split; [|split]]; by apply S.
Qed.

Lemma configured_networks_accepted_witness :
  loadMMEinfo (cfg := mme_cfg) = Ok (Some {| info_name := Some (chars "develMME"); info_ipv4 := chars "172.16.0.43" ++ repeat 0 5;
    info_stateDir := Some default_stateDir;
    info_servedGUMMEIs := [ServedGUMMEIsItem 0 0 (Some [PLMNidentity [0x85; 0xf8; 0x17] 588 71]) (Some [[0x80; 0x04]]) (Some [[3]])];
    info_relativeCapacity := 41; info_s6a := map (fun s => Some (chars s)) ["localhost"; "hss_lte_db"; "hss"; "hss"]%string |}) /\
  exists b, mme_containsSupportedTAs (conf := conf_of (info_of mme_cfg_decl)) [ta_of ([0; 1], [(310, 410); (588, 71)])] = Ok b /\ b = true.
Proof.
  destruct (configured_networks_accepted (cfg := mme_cfg) mme_cfg_decl [([0; 1], [(310, 410); (588, 71)])] mme_cfg_declares) as (E1 & b & E2 & E3).
  - intros t p Ht Hp. apply list_elem_of_singleton in Ht as ->. unfold plmn_in_range. cbn [snd] in Hp.
    assert (C : p = (310, 410) \/ p = (588, 71)) by set_solver. destruct C as [-> | ->]; cbn; lia.
  - split; [exact E1|]. exists b. split; [exact E2|]. apply E3.
    exists ([0; 1], [(310, 410); (588, 71)]), (588, 71), {| d_plmns := [(588, 71)]; d_groups := [32772]; d_codes := [3] |}. set_solver.
Defined.

Definition cfg_nodeinfo (t : nodeType) : nodeinfo_t := {| node_name := chars "default"; addrv4 := Some (match t with
  SGW => [172; 16; 0; 33] | PGW => [127; 0; 0; 2] | node_MME => [10; 12; 0; 141] | _ => [172; 16; 0; 41] end);
  addrv6 := None; node_status := up; node_type := stored_type t |}.
Lemma getNode_round_robin_witness : exists xs st, getNodes (cfg := mme_cfg) [SGW; PGW; SGW; SGW] node_index0 = Ok (xs, st) /\
  xs !! 3%nat = Some (cfg_nodeinfo SGW).
Proof.
  destruct (getNode_round_robin (cfg := mme_cfg) (fun t => [cfg_nodeinfo t; cfg_nodeinfo t]) [SGW; PGW; SGW; SGW]) as (xs & st & E & H).
  - intros t Ht. assert (C : t = SGW \/ t = PGW) by set_solver.
    destruct C as [-> | ->]; (split; [done|]); (split; [cbn; lia|]); eexists; (split; [reflexivity|]); (split; [reflexivity|]);
      intros [|[|i]] x [= <-]; eexists; (split; [reflexivity|]); do 3 eexists; repeat split; try reflexivity; cbn; unfold MAX_HOST_NAME; lia.
  - exists xs, st. split; [exact E|]. rewrite (H 3%nat SGW); reflexivity.
Defined.
