(* ===== verification/S1EMM.v ===== *)
(** The S1 stack with the mobility management of EMMFSM.v: the interface
    [EMM_ops] of S1Stack.v is implemented by the model of the EMM contexts.  A
    whole attach, from the octets of the eNB to the keys of the context, is run
    as an example. *)
From coqutil Require Import Datatypes.RecordSetters.
From stdpp Require Import gmap.
From S2P Require Import Prelude NASTypes NASDec NASEnc EIA2 NASSec Timer Subs Session S11Peer MMEUtils S1APTypes S1APEnc S1APDec S1AP S1Msg EMMCtx EMM EMMFSM S1Stack S1Safe Shutdown.

Section Ops.
Context {evp : EVP} {hm : HMAC} {ee : EMMEnv} (default_bearer : nat -> option ESM_BearerContext_t).

Definition ctx_of (e : est) : EMMCtx_t := default emmCtx_init (EMMCtx.ctx e).

Definition emm_entry (call : emm_call) : M unit :=
  match call with
  | Call_processMsg buf len => EMMFSM.emm_processMsg buf len
  | Call_deregister => EMM.emm_deregister
  | Call_stop => EMM.emm_stop
  | Call_UEContextReleaseReq => EMM.emm_UEContextReleaseReq
  | Call_modifyE_RABList _ => EMM.emm_modifyE_RABList
  | Call_upper ev => run_event ev
  end.

(** The context sees its session as it is now; what it sends is handed over. *)
Definition with_view (v : option ecm_view) (e : est) : est :=
  { e with EMMCtx.ctx := (fun x => { x with ecm := v }) <$> EMMCtx.ctx e; out := [] }.

#[export] Instance emm_layer : EMM_ops :=
  {| emm_ctx := est;
     emm_new v := EMM.emm_init v init_timerMgr 0;
     emm_do call v e := '(_, e) ← emm_entry call (with_view v e); Ok ({ e with out := [] }, out e);
     emm_IMSI e := imsi (ctx_of e);
     emm_GUTI e := guti (ctx_of e);
     emm_TAI e := (sn (ctx_of e), tac (ctx_of e));
     emm_AMBR e := emm_getUEAMBR (ctx_of e);
     emm_caps e := emm_getUESecurityCapabilities (ctx_of e);
     emm_NH e := '(r, e) ← emm_getNH e; Ok (e, r);
     emm_default_bearer e := default_bearer (sessions e);
     msg_GUTI := emm_getGUTIfromMsg;
     msg_IMSI := emm_getIMSIfromAttach |}.
End Ops.

(** ** A concrete network *)

Section Toy.
#[local] Existing Instance toy_evp.
#[local] Existing Instance toy_hmac.
#[local] Existing Instance toy_env.
#[local] Instance toy_ops : EMM_ops := emm_layer (fun n => if (n =? 0)%nat then None else Some toy_bearer).
#[local] Instance toy_conf : MMEConf :=
  {| mme_name := Some [77; 77; 69]; mme_relativeCapacity := 50;
     mme_servedGUMMEIs := [ServedGUMMEIsItem 0 0 (Some [PLMNidentity [0; 241; 16] 1 1]) (Some [[1; 2]]) (Some [[3]])] |}.

Definition toy_plmn : PLMNidentity_t := PLMNidentity [0; 241; 16] 1 1.
Definition toy_octets (ch code : Z) (l : list S1AP_PROTOCOL_IES_t) : list Z :=
  match s1Assoc_send_octets {| extension := 0; choice := ch; pdu := {| procedureCode := code; pdu_criticality := 0; pdu_ext := 0; pdu_value := l |} |} with
  | Ok o => o
  | UB _ => []
  end.
Definition toy_nas (nas : list Z) : S1AP_PROTOCOL_IES_t :=
  IE id_NAS_PDU 0 2 (Some (V_Unconstrained_Octed_String (Unconstrained_Octed_String (Z.of_nat (length nas)) nas))).
(** What an eNB sends: S1 Setup Request, Initial UE Message, Uplink NAS
    Transport, Reset. *)
Definition toy_setup (id : Z) : received := Packet (toy_octets 0 id_S1Setup [
  IE id_Global_ENB_ID 0 2 (Some (V_Global_ENB_ID (Global_ENB_ID 0 0 (Some toy_plmn) (ENB_ID 0 0 id))));
  IE id_SupportedTAs 0 2 (Some (V_SupportedTAs [SupportedTAs_Item 0 0 [0; 1] (Some (BPLMNs 1 [toy_plmn]))]));
  IE 137 1 2 (Some (V_PagingDRX 2))]) 0.
Definition toy_initial (ue : Z) (nas : list Z) : received := Packet (toy_octets 0 id_initialUEMessage [
  IE id_eNB_UE_S1AP_ID 0 2 (Some (V_ENB_UE_S1AP_ID ue)); toy_nas nas;
  IE id_TAI 0 2 (Some (V_TAI (TAI 0 0 (Some toy_plmn) [0; 1])));
  IE id_EUTRAN_CGI 0 2 (Some (V_EUTRAN_CGI 0 0 (Some toy_plmn) 9));
  IE 134 1 2 (Some (V_RRC_Establishment_Cause 0 3))]) 1.
Definition toy_ids (ue mme : Z) : list S1AP_PROTOCOL_IES_t :=
  [IE id_MME_UE_S1AP_ID 0 2 (Some (V_MME_UE_S1AP_ID mme)); IE id_eNB_UE_S1AP_ID 0 2 (Some (V_ENB_UE_S1AP_ID ue))].
Definition toy_uplink (ue mme : Z) (nas : list Z) : received :=
  Packet (toy_octets 0 id_uplinkNASTransport (toy_ids ue mme ++ [toy_nas nas])) 1.
Definition toy_reset (mme : Z) : received := Packet (toy_octets 0 id_Reset [
  IE id_Cause 1 2 (Some (V_Cause (Cause 0 4 0 0)));
  IE id_ResetType 0 2 (Some (V_ResetType 0 1 (partOfS1_Interface
    [IE 91 0 2 (Some (V_UE_associatedLogicalS1_ConnectionItem 0 0x80 (Some mme) None))])))]) 0.

(** The messages of an attach, up to the security mode. *)
Definition toy_start : list s1_event := [Ev_connect 5; Ev_read 5 (toy_setup 1); Ev_read 5 (toy_initial 7 toy_attach_request)].
Definition toy_secured : list s1_event := toy_start ++
  [Ev_read 5 (toy_uplink 7 1 ([0x07; 0x53; 8] ++ repeat 2 8));
   Ev_read 5 (toy_uplink 7 1 (toy_protect toy_handler 4 [0x07; 0x5e]))].
(** Another eNB resets the session of the first one. *)
Definition toy_foreign : list s1_event := toy_start ++
  [Ev_connect 6; Ev_read 6 (toy_setup 2); Ev_read 6 (toy_reset 1); Ev_read 5 (toy_uplink 7 1 [0x07; 0x53])].

Definition toy_end (es : list s1_event) (P : s1st -> bool) : bool :=
  match s1_run es s1_init with Done _ s => P s | Fault _ _ _ => false end.
Lemma toy_end_spec es P : toy_end es P = true -> exists s, s1_run es s1_init = Done tt s /\ P s = true.
Proof. unfold toy_end. destruct (s1_run es s1_init) as [[] s|]; [eauto|done]. Qed.

Definition toy_fault (es : list s1_event) : option (layer * fault * list incident) :=
  match s1_run es s1_init with Done _ _ => None | Fault l f inc => Some (l, f, inc) end.
Lemma toy_fault_spec es l f inc : toy_fault es = Some (l, f, inc) -> s1_run es s1_init = Fault l f inc.
Proof. unfold toy_fault. destruct (s1_run es s1_init); [done|]. by intros [= -> -> ->]. Qed.

Lemma s1_use_after_free_witness : exists inc, s1_run toy_foreign s1_init = Fault In_S1 UseAfterFree inc /\ inc <> [].
Proof.
  exists [Foreign_reset]. assert (E : s1_run toy_foreign s1_init = Fault In_S1 UseAfterFree [Foreign_reset]).
  { apply toy_fault_spec. vm_compute. reflexivity. }
  split; [exact E|]. exact (s1_use_after_free toy_foreign [Foreign_reset] E).
Defined.

Definition toy_ctx (u : @emm_obj toy_ops) : option EMMCtx_t := EMMCtx.ctx (@u_ctx toy_ops u).

(** After the security mode the context has the keys of the vector, and the MME
    has sent the setup response, the challenge and the security mode command. *)
Lemma s1_tables_agree_witness : exists s, s1_run toy_secured s1_init = Done tt s /\ length (sent s) = 3%nat /\
  (exists u e, emms s !! 2%nat = Some u /\ toy_ctx u = Some e /\ kasme e = kASME toy_vector) /\
  forall h u c, emms s !! h = Some u -> u_ecm u = Some c -> exists x, ecms s !! c = Some x /\ c_emm x = Some h.
Proof.
  destruct (toy_end_spec toy_secured (fun s => bool_decide (incidents s = []) && bool_decide (length (sent s) = 3%nat) &&
    match emms s !! 2%nat ≫= toy_ctx with Some e => bool_decide (kasme e = kASME toy_vector) | None => false end))
    as (s & E & P); [vm_compute; reflexivity|].
  apply andb_true_iff in P as [P K]. apply andb_true_iff in P as [P L]. apply bool_decide_eq_true in P, L.
  exists s. split; [exact E|]. split; [exact L|]. split; [|exact (proj1 (proj2 (proj2 (s1_tables_agree toy_secured s E P))))].
  destruct (emms s !! 2%nat) as [u|]; [|discriminate K]. cbn in K. destruct (toy_ctx u) as [e|] eqn:Q; [|discriminate K].
  apply bool_decide_eq_true in K. exists u, e. split; [reflexivity|]. split; [exact Q|exact K].
Defined.

(** The interface is closed after the security mode: a connection and an
    association are left until then. *)
Lemma s1_free_releases_witness : exists s, (s1_run toy_secured ;; loop_ended ;; s1_free) s1_init = Done tt s /\ length (sent s) = 3%nat /\
  assocs s = ∅ /\ ecms s = ∅ /\ localIDs s = ∅.
Proof.
  pose proof (s1_free_releases toy_secured) as T.
  assert (V : Forall connects toy_secured) by (repeat constructor; discriminate). specialize (T V).
  assert (K : match (s1_run toy_secured ;; loop_ended ;; s1_free) s1_init with
              | Done _ s => bool_decide (incidents s = []) && bool_decide (length (sent s) = 3%nat) | Fault _ _ _ => false end = true)
    by (vm_compute; reflexivity).
  destruct ((s1_run toy_secured ;; loop_ended ;; s1_free) s1_init) as [[] s|l f inc]; [|discriminate K].
  apply andb_true_iff in K as [K1 K2]. apply bool_decide_eq_true in K1, K2. exists s. split; [reflexivity|]. split; [exact K2|].
  destruct (T K1) as (A & E & _ & I & _). exact (conj A (conj E I)).
Defined.

(** The response of the terminal to the challenge, on its way up. *)
Definition toy_answer : list Z := [0x07; 0x53; 8] ++ repeat 2 8.
Definition toy_answer_octets : list Z := toy_octets 0 id_uplinkNASTransport (toy_ids 7 1 ++ [toy_nas toy_answer]).
Definition toy_decoded (o : list Z) : S1AP_Message_t :=
  match s1ap_decode o (Z.of_nat (length o)) with Ok m => m | UB _ => S1AP_newMsg end.
Definition toy_connected (s : @s1st toy_ops) : bool :=
  match assocs s !! 0%nat, ecms s !! 1%nat with
  | Some y, Some x =>
    match a_stateName y, c_stateName x with S1_Active, ECM_Connected => true | _, _ => false end &&
    negb (1 =? nonue_rsid y) && (eNBUEId x =? 7) && bool_decide (ecm_sessions y !! 7 = Some (1%nat, 1%nat)) && r_sid_valid x &&
    (r_sid x =? 1) && bool_decide (c_emm x = Some 2%nat) && (mmeUEId x =? 1)
  | _, _ => false
  end.
Lemma toy_answer_elements : let m := toy_decoded toy_answer_octets in
  is_msg m id_uplinkNASTransport initiating_message = true /\ s1ap_findIe m id_eNB_UE_S1AP_ID = Some (V_ENB_UE_S1AP_ID 7) /\
  s1ap_findIe m id_MME_UE_S1AP_ID = Some (V_MME_UE_S1AP_ID 1) /\
  s1ap_findIe m id_NAS_PDU = Some (V_Unconstrained_Octed_String (Unconstrained_Octed_String 11 toy_answer)).
Proof. vm_compute. auto. Qed.
Lemma toy_connected_spec s : toy_connected s = true -> exists y x, mmeUEId x = 1 /\
  uplink s 0 1 2 y x (toy_decoded toy_answer_octets) 1 1 11 toy_answer.
Proof.
  unfold toy_connected. intros P. destruct (assocs s !! 0%nat) as [y|] eqn:A; [|done]. destruct (ecms s !! 1%nat) as [x|] eqn:E; [|done].
  rewrite !andb_true_iff, !bool_decide_eq_true, negb_true_iff, Z.eqb_neq, !Z.eqb_eq in P. destruct P as [[[[[[[P1 P2] P3] P4] P5] P6] P7] P8].
  exists y, x. split; [done|]. destruct (a_stateName y) eqn:Y; [done|]. destruct (c_stateName x) eqn:X; [done|].
  destruct toy_answer_elements as (M1 & M2 & M3 & M4). rewrite <- P3 in P4, M2. by constructor.
Qed.

Lemma uplink_dispatched_witness : exists s, s1_run toy_start s1_init = Done tt s /\
  s1_accept 0 (Packet toy_answer_octets 1) s = call_emm 2 (Call_processMsg toy_answer 11) s.
Proof.
  destruct (toy_end_spec toy_start toy_connected) as (s & E & P); [vm_compute; reflexivity|]. exists s. split; [exact E|].
  destruct (toy_connected_spec s P) as (y & x & I & U).
  assert (D : s1ap_decode toy_answer_octets (Z.of_nat (length toy_answer_octets)) = Ok (toy_decoded toy_answer_octets)) by (vm_compute; reflexivity).
  rewrite (uplink_dispatched _ _ _ _ _ _ _ _ _ _ _ _ D U), I. reflexivity.
Defined.

(** An Initial UE Message before the setup. *)
Definition toy_early : list Z := toy_octets 0 id_initialUEMessage [IE id_eNB_UE_S1AP_ID 0 2 (Some (V_ENB_UE_S1AP_ID 7)); toy_nas toy_attach_request].
Lemma setup_without_identity_faults_witness : exists s, s1_run [Ev_connect 5] s1_init = Done tt s /\
  s1_accept 0 (Packet toy_early 0) s = Fault In_S1 NullDeref [].
Proof.
  destruct (toy_end_spec [Ev_connect 5] (fun s => bool_decide (incidents s = []) &&
    match assocs s !! 0%nat with Some y => match a_stateName y with S1_NotConfigured => true | _ => false end | None => false end))
    as (s & E & P); [vm_compute; reflexivity|]. exists s. split; [exact E|].
  apply andb_true_iff in P as [N P]. apply bool_decide_eq_true in N. rewrite <- N.
  destruct (assocs s !! 0%nat) as [y|] eqn:A; [|discriminate P]. destruct (a_stateName y) eqn:Y; [|discriminate P].
  assert (D : s1ap_decode toy_early (Z.of_nat (length toy_early)) = Ok (toy_decoded toy_early)) by (vm_compute; reflexivity).
  exact (setup_without_identity_faults toy_early 0 0 y (toy_decoded toy_early) s A Y D ltac:(vm_compute; reflexivity) ltac:(vm_compute; reflexivity) ltac:(vm_compute; reflexivity)).
Defined.
End Toy.
