(* ===== verification/FIPS180.v ===== *)
(** The secure hash standard, FIPS 180-4, for SHA-224, SHA-256, SHA-384 and
    SHA-512 on messages of octets: the reference that [SHA2] and [HMAC] compare
    the source with.  Nothing here is taken from sha2.c; the constants are
    computed from their definition, the roots of the first prime numbers. *)
From S2P Require Import Prelude.

Module FIPS.

(** ** 5.3 and 4.2: the constants *)

Definition is_prime (n : Z) : bool := (2 <=? n) && forallb (fun d => negb (n mod d =? 0)) (seqZ 2 (n - 2)).

(** The first [n] prime numbers; [n] is at most 80, and the 80th is 409. *)
Definition primes (n : nat) : list Z := take n (filter (fun p => is_prime p = true) (seqZ 0 410)).

(** The integer [d]-th root of [n] below [2^k], bit by bit from the top. *)
Fixpoint root_from (k : nat) (d r n : Z) : Z :=
  match k with
  | O => r
  | S k => let r' := r + 2 ^ Z.of_nat k in root_from k d (if r' ^ d <=? n then r' else r) n
  end.
Definition root (d n : Z) : Z := root_from 80 d 0 n.

Lemma root_from_spec k d r n : 0 < d -> 0 <= r -> r ^ d <= n < (r + 2 ^ Z.of_nat k) ^ d ->
  0 <= root_from k d r n /\ root_from k d r n ^ d <= n < (root_from k d r n + 1) ^ d.
Proof.
  intros Hd. revert r. induction k as [|k IH]; intros r Hr H; [done|]. cbn [root_from]. rewrite Nat2Z.inj_succ, Z.pow_succ_r in H by lia.
  pose proof (Z.pow_nonneg 2 (Z.of_nat k)) as P; specialize (P ltac:(lia)). remember (2 ^ Z.of_nat k) as p eqn:E; clear E. destruct (Z.leb_spec ((r + p) ^ d) n) as [C|C]; apply IH; try lia.
  replace (r + p + p) with (r + 2 * p) by lia. lia.
Qed.

Lemma root_spec d n : 0 < d -> 0 <= n < 2 ^ (80 * d) -> root d n ^ d <= n < (root d n + 1) ^ d.
Proof.
  intros Hd Hn. unfold root. assert (forall k, Z.of_nat k = 80 -> root_from k d 0 n ^ d <= n < (root_from k d 0 n + 1) ^ d) as R; [|by apply R].
  intros k E. apply (root_from_spec k d 0 n Hd); [lia|]. rewrite Z.pow_0_l, Z.add_0_l, <- Z.pow_mul_r, E by lia. exact Hn.
Qed.

(** The first [w] bits of the fractional part of the [d]-th root of [p]. *)
Definition frac_bits (d w p : Z) : Z := root d (p * 2 ^ (d * w)) mod 2 ^ w.

Lemma frac_bits_spec d w p : 0 < d -> 0 <= w -> 0 <= p * 2 ^ (d * w) < 2 ^ (80 * d) ->
  exists i, 0 <= frac_bits d w p < 2 ^ w /\
    (i * 2 ^ w + frac_bits d w p) ^ d <= p * 2 ^ (d * w) < (i * 2 ^ w + frac_bits d w p + 1) ^ d.
Proof.
  intros Hd Hw Hp. pose proof (root_spec d _ Hd Hp) as R. pose proof (Z.pow_pos_nonneg 2 w ltac:(lia) Hw) as P.
  unfold frac_bits. exists (root d (p * 2 ^ (d * w)) / 2 ^ w). remember (root d _) as r eqn:E. clear E.
  split; [by apply Z.mod_pos_bound|]. by rewrite Z.mul_comm, <- Z.div_mod by lia.
Qed.

(** ** 2.2 and 3.2: words of [w] bits and the operations on them *)

Section Words.
Context (w : Z).

Definition wadd (x y : Z) : Z := (x + y) mod 2 ^ w.
Definition wnot (x : Z) : Z := Z.lnot x mod 2 ^ w.
Definition SHR (n x : Z) : Z := x >> n.
Definition SHL (n x : Z) : Z := (x << n) mod 2 ^ w.
Definition ROTR (n x : Z) : Z := SHR n x .| SHL (w - n) x.

(** Bit [i] of the rotated word is bit [i + n] of the word, around its end. *)
Lemma ROTR_testbit n x i : 0 < n < w -> 0 <= x < 2 ^ w -> 0 <= i < w ->
  Z.testbit (ROTR n x) i = Z.testbit x ((i + n) mod w).
Proof.
  intros Hn Hx Hi. unfold ROTR, SHR, SHL. rewrite Z.lor_spec, Z.shiftr_spec, Z.mod_pow2_bits_low, Z.shiftl_spec by lia.
  destruct (Z.ltb_spec (i + n) w) as [C|C].
  - rewrite Z.mod_small, (Z.testbit_neg_r _ (i - _)), orb_false_r by lia. done.
  - replace ((i + n) mod w) with (i - (w - n)) by (apply Z.mod_unique_pos with (q := 1); lia).
    replace (Z.testbit x (i + n)) with false; [done|]. symmetry. rewrite <- (Z.mod_small x (2 ^ w)) by lia.
    apply Z.mod_pow2_bits_high. lia.
Qed.

(** ** 4.1: the functions *)

Definition Ch (x y z : Z) : Z := (x .& y) .^ (wnot x .& z).
Definition Maj (x y z : Z) : Z := ((x .& y) .^ (x .& z)) .^ (y .& z).
(** The capital sigmas, and the small ones that end in a shift. *)
Definition Sigma (r : Z * Z * Z) (x : Z) : Z := let '(a, b, c) := r in (ROTR a x .^ ROTR b x) .^ ROTR c x.
Definition sigma (r : Z * Z * Z) (x : Z) : Z := let '(a, b, c) := r in (ROTR a x .^ ROTR b x) .^ SHR c x.
End Words.

(** ** The four functions *)

Record function := {
  w : Z;                                      (* bits of a word *)
  rounds : nat;
  Sigma0 : Z * Z * Z; Sigma1 : Z * Z * Z; sigma0 : Z * Z * Z; sigma1 : Z * Z * Z;
  K : list Z;
  H0 : list Z;
  digest_octets : nat }.

Definition sha32 (h : list Z) (n : nat) : function := {|
  w := 32; rounds := 64;
  Sigma0 := (2, 13, 22); Sigma1 := (6, 11, 25); sigma0 := (7, 18, 3); sigma1 := (17, 19, 10);
  K := map (frac_bits 3 32) (primes 64); H0 := h; digest_octets := n |}.
Definition sha64 (h : list Z) (n : nat) : function := {|
  w := 64; rounds := 80;
  Sigma0 := (28, 34, 39); Sigma1 := (14, 18, 41); sigma0 := (1, 8, 7); sigma1 := (19, 61, 6);
  K := map (frac_bits 3 64) (primes 80); H0 := h; digest_octets := n |}.

(** SHA-224 starts from the second 32 bits of the fractional parts of the square
    roots of the ninth to the sixteenth prime. *)
Definition SHA224 := sha32 (map (fun p => frac_bits 2 64 p mod 2 ^ 32) (drop 8 (primes 16))) 28.
Definition SHA256 := sha32 (map (frac_bits 2 32) (primes 8)) 32.
Definition SHA384 := sha64 (map (frac_bits 2 64) (drop 8 (primes 16))) 48.
Definition SHA512 := sha64 (map (frac_bits 2 64) (primes 8)) 64.

Section Hash.
Context (F : function).
#[local] Infix "+w" := (wadd (w F)) (at level 50, left associativity).

(** Octets of a word and of a block of sixteen words. *)
Definition word_octets : Z := w F / 8.
Definition block_octets : Z := 16 * word_octets.

(** ** 5.1: padding *)

(** After the octet 0x80 come the fewest zeros that leave room for the length in
    bits, in two words, at the end of a block. *)
Definition pad_zeros (n : Z) : nat := Z.to_nat ((- (n + 1 + 2 * word_octets)) mod block_octets).
Definition pad (m : list Z) : list Z :=
  let n := Z.of_nat (length m) in m ++ [0x80] ++ repeat 0 (pad_zeros n) ++ be_bytes (Z.to_nat (2 * word_octets)) (8 * n).

(** ** 5.2: blocks, as sixteen words with the first octet the most significant *)

Definition word_of (l : list Z) : Z := fold_left (fun x o => (x << 8) .| o) l 0.
Definition block_words (block : list Z) : list Z :=
  map (fun t => word_of (take (Z.to_nat word_octets) (drop (t * Z.to_nat word_octets) block))) (seq 0 16).

(** ** 6.2.2 and 6.4.2: hash computation *)

(** The message schedule from its last word to its first: sixteen words of the
    block, then [n] more. *)
Fixpoint schedule_rev (n : nat) (M : list Z) : list Z :=
  match n with
  | O => rev M
  | S n =>
    let W := schedule_rev n M in
    let W' i := nth (i - 1) W 0 in       (* the word [i] places before *)
    (sigma (w F) (sigma1 F) (W' 2%nat) +w W' 7%nat +w sigma (w F) (sigma0 F) (W' 15%nat) +w W' 16%nat) :: W
  end.
Definition schedule (M : list Z) : list Z := rev (schedule_rev (rounds F - 16) M).

Definition vars : Type := Z * Z * Z * Z * Z * Z * Z * Z.

Definition round (v : vars) (kw : Z * Z) : vars :=
  let '(a, b, c, d, e, f, g, h) := v in
  let T1 := h +w Sigma (w F) (Sigma1 F) e +w Ch (w F) e f g +w fst kw +w snd kw in
  let T2 := Sigma (w F) (Sigma0 F) a +w Maj a b c in
  (T1 +w T2, a, b, c, d +w T1, e, f, g).

Definition hash_block (H block : list Z) : list Z :=
  let H' i := nth i H 0 in
  let '(a, b, c, d, e, f, g, h) :=
    fold_left round (zip (K F) (schedule (block_words block)))
      (H' 0%nat, H' 1%nat, H' 2%nat, H' 3%nat, H' 4%nat, H' 5%nat, H' 6%nat, H' 7%nat) in
  [a +w H' 0%nat; b +w H' 1%nat; c +w H' 2%nat; d +w H' 3%nat; e +w H' 4%nat; f +w H' 5%nat; g +w H' 6%nat; h +w H' 7%nat].

(** The blocks of a padded message one after the other. *)
Fixpoint hash_blocks (n : nat) (H m : list Z) : list Z :=
  match n with
  | O => H
  | S n => hash_blocks n (hash_block H (take (Z.to_nat block_octets) m)) (drop (Z.to_nat block_octets) m)
  end.

(** The leftmost octets of the last hash value. *)
Definition hash (m : list Z) : list Z :=
  let p := pad m in
  take (digest_octets F) (concat (map (be_bytes (Z.to_nat word_octets)) (hash_blocks (Z.to_nat (Z.of_nat (length p) / block_octets)) (H0 F) p))).
End Hash.

End FIPS.

(** The examples of the standard. *)
Example fips_abc :
  FIPS.hash FIPS.SHA256 [0x61; 0x62; 0x63] = be_bytes 32 0xba7816bf8f01cfea414140de5dae2223b00361a396177a9cb410ff61f20015ad /\
  FIPS.hash FIPS.SHA224 [0x61; 0x62; 0x63] = be_bytes 28 0x23097d223405d8228642a477bda255b32aadbce4bda0b3f7e36c9da7 /\
  FIPS.hash FIPS.SHA384 [0x61; 0x62; 0x63] = be_bytes 48 0xcb00753f45a35e8bb5a03d699ac65007272c32ab0eded1631a8b605a43ff5bed8086072ba1e7cc2358baeca134c825a7 /\
  FIPS.hash FIPS.SHA512 [0x61; 0x62; 0x63] = be_bytes 64 0xddaf35a193617abacc417349ae20413112e6fa4e89a97ea20a9eeee64b55d39a2192992a274fc1a836ba3c23a3feebbd454d4423643ce80e2a9ac94fa54ca49f.
Proof. vm_compute. repeat split. Qed.
