(* ===== verification/SHA2.v ===== *)
(** SHA-224, SHA-256, SHA-384 and SHA-512 (mme/S6a/hmac/sha2.c, sha2.h) as the
    incremental functions _init, _update and _final on a context, for the
    [#ifndef UNROLL_LOOPS] build, and the theorem that any split of a message
    into updates gives the hash of FIPS 180-4, which [FIPS180] defines from the
    text of the standard. *)
From Stdlib Require Import Btauto.
From S2P Require Import Prelude FIPS180.

(** ** The macros *)

(** [w]: the bits of the word, [sizeof(x) << 3]. *)
Definition SHFR (x n : Z) : Z := x >> n.
Definition ROTR (w x n : Z) : Z := (x >> n) .| ((x << (w - n)) mod 2^w).
Definition CH (w x y z : Z) : Z := (x .& y) .^ ((Z.lnot x mod 2^w) .& z).
Definition MAJ (x y z : Z) : Z := ((x .& y) .^ (x .& z)) .^ (y .& z).

Definition SHA256_F1 (x : Z) : Z := (ROTR 32 x 2 .^ ROTR 32 x 13) .^ ROTR 32 x 22.
Definition SHA256_F2 (x : Z) : Z := (ROTR 32 x 6 .^ ROTR 32 x 11) .^ ROTR 32 x 25.
Definition SHA256_F3 (x : Z) : Z := (ROTR 32 x 7 .^ ROTR 32 x 18) .^ SHFR x 3.
Definition SHA256_F4 (x : Z) : Z := (ROTR 32 x 17 .^ ROTR 32 x 19) .^ SHFR x 10.

Definition SHA512_F1 (x : Z) : Z := (ROTR 64 x 28 .^ ROTR 64 x 34) .^ ROTR 64 x 39.
Definition SHA512_F2 (x : Z) : Z := (ROTR 64 x 14 .^ ROTR 64 x 18) .^ ROTR 64 x 41.
Definition SHA512_F3 (x : Z) : Z := (ROTR 64 x 1 .^ ROTR 64 x 8) .^ SHFR x 7.
Definition SHA512_F4 (x : Z) : Z := (ROTR 64 x 19 .^ ROTR 64 x 61) .^ SHFR x 6.

(** The octets the macros store, and the word they read. *)
Definition UNPACK32 (x : Z) : list Z := [wrap8 (x >> 24); wrap8 (x >> 16); wrap8 (x >> 8); wrap8 x].
Definition PACK32 (str : list Z) : Z :=
  ((nth 3 str 0 .| (nth 2 str 0 << 8)) .| (nth 1 str 0 << 16)) .| (nth 0 str 0 << 24).
Definition UNPACK64 (x : Z) : list Z :=
  [wrap8 (x >> 56); wrap8 (x >> 48); wrap8 (x >> 40); wrap8 (x >> 32);
   wrap8 (x >> 24); wrap8 (x >> 16); wrap8 (x >> 8); wrap8 x].
Definition PACK64 (str : list Z) : Z :=
  ((((((nth 7 str 0 .| (nth 6 str 0 << 8)) .| (nth 5 str 0 << 16)) .| (nth 4 str 0 << 24))
    .| (nth 3 str 0 << 32)) .| (nth 2 str 0 << 40)) .| (nth 1 str 0 << 48)) .| (nth 0 str 0 << 56).

(** ** The constants *)

Definition sha224_h0 : list Z :=
  [0xc1059ed8; 0x367cd507; 0x3070dd17; 0xf70e5939;
   0xffc00b31; 0x68581511; 0x64f98fa7; 0xbefa4fa4].

Definition sha256_h0 : list Z :=
  [0x6a09e667; 0xbb67ae85; 0x3c6ef372; 0xa54ff53a;
   0x510e527f; 0x9b05688c; 0x1f83d9ab; 0x5be0cd19].

Definition sha384_h0 : list Z :=
  [0xcbbb9d5dc1059ed8; 0x629a292a367cd507; 0x9159015a3070dd17;
   0x152fecd8f70e5939; 0x67332667ffc00b31; 0x8eb44a8768581511;
   0xdb0c2e0d64f98fa7; 0x47b5481dbefa4fa4].

Definition sha512_h0 : list Z :=
  [0x6a09e667f3bcc908; 0xbb67ae8584caa73b; 0x3c6ef372fe94f82b;
   0xa54ff53a5f1d36f1; 0x510e527fade682d1; 0x9b05688c2b3e6c1f;
   0x1f83d9abfb41bd6b; 0x5be0cd19137e2179].

Definition sha256_k : list Z :=
  [ 1116352408; 1899447441; 3049323471; 3921009573;  (* 0x428a2f98 0x71374491 0xb5c0fbcf 0xe9b5dba5 *)
    961987163; 1508970993; 2453635748; 2870763221;  (* 0x3956c25b 0x59f111f1 0x923f82a4 0xab1c5ed5 *)
    3624381080; 310598401; 607225278; 1426881987;  (* 0xd807aa98 0x12835b01 0x243185be 0x550c7dc3 *)
    1925078388; 2162078206; 2614888103; 3248222580;  (* 0x72be5d74 0x80deb1fe 0x9bdc06a7 0xc19bf174 *)
    3835390401; 4022224774; 264347078; 604807628;  (* 0xe49b69c1 0xefbe4786 0x0fc19dc6 0x240ca1cc *)
    770255983; 1249150122; 1555081692; 1996064986;  (* 0x2de92c6f 0x4a7484aa 0x5cb0a9dc 0x76f988da *)
    2554220882; 2821834349; 2952996808; 3210313671;  (* 0x983e5152 0xa831c66d 0xb00327c8 0xbf597fc7 *)
    3336571891; 3584528711; 113926993; 338241895;  (* 0xc6e00bf3 0xd5a79147 0x06ca6351 0x14292967 *)
    666307205; 773529912; 1294757372; 1396182291;  (* 0x27b70a85 0x2e1b2138 0x4d2c6dfc 0x53380d13 *)
    1695183700; 1986661051; 2177026350; 2456956037;  (* 0x650a7354 0x766a0abb 0x81c2c92e 0x92722c85 *)
    2730485921; 2820302411; 3259730800; 3345764771;  (* 0xa2bfe8a1 0xa81a664b 0xc24b8b70 0xc76c51a3 *)
    3516065817; 3600352804; 4094571909; 275423344;  (* 0xd192e819 0xd6990624 0xf40e3585 0x106aa070 *)
    430227734; 506948616; 659060556; 883997877;  (* 0x19a4c116 0x1e376c08 0x2748774c 0x34b0bcb5 *)
    958139571; 1322822218; 1537002063; 1747873779;  (* 0x391c0cb3 0x4ed8aa4a 0x5b9cca4f 0x682e6ff3 *)
    1955562222; 2024104815; 2227730452; 2361852424;  (* 0x748f82ee 0x78a5636f 0x84c87814 0x8cc70208 *)
    2428436474; 2756734187; 3204031479; 3329325298  (* 0x90befffa 0xa4506ceb 0xbef9a3f7 0xc67178f2 *) ].

Definition sha512_k : list Z :=
  [0x428a2f98d728ae22; 0x7137449123ef65cd; 0xb5c0fbcfec4d3b2f;
   0xe9b5dba58189dbbc; 0x3956c25bf348b538; 0x59f111f1b605d019;
   0x923f82a4af194f9b; 0xab1c5ed5da6d8118; 0xd807aa98a3030242;
   0x12835b0145706fbe; 0x243185be4ee4b28c; 0x550c7dc3d5ffb4e2;
   0x72be5d74f27b896f; 0x80deb1fe3b1696b1; 0x9bdc06a725c71235;
   0xc19bf174cf692694; 0xe49b69c19ef14ad2; 0xefbe4786384f25e3;
   0x0fc19dc68b8cd5b5; 0x240ca1cc77ac9c65; 0x2de92c6f592b0275;
   0x4a7484aa6ea6e483; 0x5cb0a9dcbd41fbd4; 0x76f988da831153b5;
   0x983e5152ee66dfab; 0xa831c66d2db43210; 0xb00327c898fb213f;
   0xbf597fc7beef0ee4; 0xc6e00bf33da88fc2; 0xd5a79147930aa725;
   0x06ca6351e003826f; 0x142929670a0e6e70; 0x27b70a8546d22ffc;
   0x2e1b21385c26c926; 0x4d2c6dfc5ac42aed; 0x53380d139d95b3df;
   0x650a73548baf63de; 0x766a0abb3c77b2a8; 0x81c2c92e47edaee6;
   0x92722c851482353b; 0xa2bfe8a14cf10364; 0xa81a664bbc423001;
   0xc24b8b70d0f89791; 0xc76c51a30654be30; 0xd192e819d6ef5218;
   0xd69906245565a910; 0xf40e35855771202a; 0x106aa07032bbd1b8;
   0x19a4c116b8d2d0c8; 0x1e376c085141ab53; 0x2748774cdf8eeb99;
   0x34b0bcb5e19b48a8; 0x391c0cb3c5c95a63; 0x4ed8aa4ae3418acb;
   0x5b9cca4f7763e373; 0x682e6ff3d6b2b8a3; 0x748f82ee5defb2fc;
   0x78a5636f43172f60; 0x84c87814a1f0ab72; 0x8cc702081a6439ec;
   0x90befffa23631e28; 0xa4506cebde82bde9; 0xbef9a3f7b2c67915;
   0xc67178f2e372532b; 0xca273eceea26619c; 0xd186b8c721c0c207;
   0xeada7dd6cde0eb1e; 0xf57d4f7fee6ed178; 0x06f067aa72176fba;
   0x0a637dc5a2c898a6; 0x113f9804bef90dae; 0x1b710b35131c471b;
   0x28db77f523047d84; 0x32caab7b40c72493; 0x3c9ebe0a15c9bebc;
   0x431d67c49c100d4c; 0x4cc5d4becb3e42b6; 0x597f299cfc657e2a;
   0x5fcb6fab3ad6faec; 0x6c44198c4a475817].

(** ** The four algorithms *)

(** What the source writes out four times: the word and its macros, the block
    size ([1 << blk_shift]), the room the padding keeps for the length, the
    initial value and the number of words of the digest. *)
Record sha_alg := {
  word_bits : Z;
  word_bytes : nat;
  blk_shift : Z;
  blk_size : Z;
  len_room : Z;
  rounds : nat;
  F1 : Z -> Z; F2 : Z -> Z; F3 : Z -> Z; F4 : Z -> Z;
  k_tab : list Z;
  pack : list Z -> Z;
  unpack : Z -> list Z;
  alg_h0 : list Z;
  out_words : nat }.

Definition SHA256_BLOCK_SIZE : Z := 64.
Definition SHA512_BLOCK_SIZE : Z := 128.
Definition SHA224_DIGEST_SIZE : Z := 28.
Definition SHA256_DIGEST_SIZE : Z := 32.
Definition SHA384_DIGEST_SIZE : Z := 48.
Definition SHA512_DIGEST_SIZE : Z := 64.

Definition alg32 (h : list Z) (n : nat) : sha_alg := {|
  word_bits := 32; word_bytes := 4; blk_shift := 6; blk_size := SHA256_BLOCK_SIZE; len_room := 9; rounds := 64;
  F1 := SHA256_F1; F2 := SHA256_F2; F3 := SHA256_F3; F4 := SHA256_F4; k_tab := sha256_k;
  pack := PACK32; unpack := UNPACK32; alg_h0 := h; out_words := n |}.
Definition alg64 (h : list Z) (n : nat) : sha_alg := {|
  word_bits := 64; word_bytes := 8; blk_shift := 7; blk_size := SHA512_BLOCK_SIZE; len_room := 17; rounds := 80;
  F1 := SHA512_F1; F2 := SHA512_F2; F3 := SHA512_F3; F4 := SHA512_F4; k_tab := sha512_k;
  pack := PACK64; unpack := UNPACK64; alg_h0 := h; out_words := n |}.
Definition SHA224 : sha_alg := alg32 sha224_h0 7.
Definition SHA256 : sha_alg := alg32 sha256_h0 8.
Definition SHA384 : sha_alg := alg64 sha384_h0 6.
Definition SHA512 : sha_alg := alg64 sha512_h0 8.

(** [sha256_ctx] and [sha512_ctx]; [block] is an array of two blocks. *)
Record sha_ctx := Ctx { ctx_tot_len : Z; ctx_len : Z; ctx_block : list Z; ctx_h : list Z }.

Section Algorithm.
Context (A : sha_alg).

(** ** The compression of a block *)

Definition sha_add (x y : Z) : Z := (x + y) mod 2 ^ word_bits A.

(** [w[j]] for [j] from 16 on: [n] more words after those of [w]. *)
Fixpoint scr (n : nat) (w : list Z) : list Z :=
  match n with
  | O => w
  | S n =>
    let j := length w in
    scr n (w ++ [sha_add (sha_add (sha_add (F4 A (nth (j - 2) w 0)) (nth (j - 7) w 0)) (F3 A (nth (j - 15) w 0))) (nth (j - 16) w 0)])
  end.

(** The words of a block. *)
Definition pack_words (sub_block : list Z) : list Z :=
  map (fun j => pack A (drop (j * word_bytes A) sub_block)) (seq 0 16).

(** One round on [wv]. *)
Definition sha_round (wv : list Z) (k w : Z) : list Z :=
  let v i := nth i wv 0 in
  let t1 := sha_add (sha_add (sha_add (sha_add (v 7%nat) (F2 A (v 4%nat))) (CH (word_bits A) (v 4%nat) (v 5%nat) (v 6%nat))) k) w in
  let t2 := sha_add (F1 A (v 0%nat)) (MAJ (v 0%nat) (v 1%nat) (v 2%nat)) in
  [sha_add t1 t2; v 0%nat; v 1%nat; v 2%nat; sha_add (v 3%nat) t1; v 4%nat; v 5%nat; v 6%nat].

Definition compress (h sub_block : list Z) : list Z :=
  let w := scr (rounds A - 16) (pack_words sub_block) in
  let wv := fold_left (fun wv j => sha_round wv (nth j (k_tab A) 0) (nth j w 0)) (seq 0 (rounds A)) h in
  map (fun j => sha_add (nth j h 0) (nth j wv 0)) (seq 0 8).

(** ** sha256_transf and sha512_transf *)

(** Iterations [i], [i + 1], ... ([n] of them) of the loop over the blocks. *)
Fixpoint transf_loop (n : nat) (i : Z) (h message : list Z) : outcome (list Z) :=
  match n with
  | O => Ok h
  | S n =>
    sub_block ← rdn (adv message (i << blk_shift A)) (blk_size A);
    transf_loop n (i + 1) (compress h sub_block) message
  end.

Definition sha_transf (ctx : sha_ctx) (message : list Z) (block_nb : Z) : outcome sha_ctx :=
  h' ← transf_loop (Z.to_nat block_nb) 0 (ctx_h ctx) message;
  Ok {| ctx_tot_len := ctx_tot_len ctx; ctx_len := ctx_len ctx; ctx_block := ctx_block ctx; ctx_h := h' |}.

(** ** _init, _update, _final *)

Definition sha_init (ctx : sha_ctx) : sha_ctx :=
  {| ctx_tot_len := 0; ctx_len := 0; ctx_block := ctx_block ctx; ctx_h := alg_h0 A |}.

Definition sha_update (ctx : sha_ctx) (message : list Z) (mlen : Z) : outcome sha_ctx :=
  let tmp_len := wrap32 (blk_size A - ctx_len ctx) in
  let rem_len := if mlen <? tmp_len then mlen else tmp_len in
  src ← rdn message rem_len;
  block1 ← overwrite (ctx_block ctx) (ctx_len ctx) src;
  if wrap32 (ctx_len ctx + mlen) <? blk_size A then
    Ok {| ctx_tot_len := ctx_tot_len ctx; ctx_len := wrap32 (ctx_len ctx + mlen); ctx_block := block1; ctx_h := ctx_h ctx |}
  else
    let new_len := wrap32 (mlen - rem_len) in
    let block_nb := new_len / blk_size A in
    let shifted_message := adv message rem_len in
    ctx ← sha_transf {| ctx_tot_len := ctx_tot_len ctx; ctx_len := ctx_len ctx; ctx_block := block1; ctx_h := ctx_h ctx |} block1 1;
    ctx ← sha_transf ctx shifted_message block_nb;
    let rem_len := new_len mod blk_size A in
    src ← rdn (adv shifted_message (block_nb << blk_shift A)) rem_len;
    block2 ← overwrite (ctx_block ctx) 0 src;
    Ok {| ctx_tot_len := wrap32 (ctx_tot_len ctx + wrap32 ((block_nb + 1) << blk_shift A)); ctx_len := rem_len; ctx_block := block2; ctx_h := ctx_h ctx |}.

(** The context after the call and the digest. *)
Definition sha_final (ctx : sha_ctx) : outcome (sha_ctx * list Z) :=
  let block_nb := 1 + (if blk_size A - len_room A <? ctx_len ctx mod blk_size A then 1 else 0) in
  let len_b := wrap32 (wrap32 (ctx_tot_len ctx + ctx_len ctx) << 3) in
  let pm_len := block_nb << blk_shift A in
  b ← overwrite (ctx_block ctx) (ctx_len ctx) (repeat 0 (Z.to_nat (pm_len - ctx_len ctx)));
  b ← overwrite b (ctx_len ctx) [0x80];
  b ← overwrite b (pm_len - 4) (UNPACK32 len_b);
  ctx ← sha_transf {| ctx_tot_len := ctx_tot_len ctx; ctx_len := ctx_len ctx; ctx_block := b; ctx_h := ctx_h ctx |} b block_nb;
  Ok (ctx, concat (map (fun i => unpack A (nth i (ctx_h ctx) 0)) (seq 0 (out_words A)))).

(** The one-shot function; [ctx] is the indeterminate local variable. *)
Definition sha (ctx : sha_ctx) (message : list Z) (mlen : Z) : outcome (list Z) :=
  ctx ← sha_update (sha_init ctx) message mlen;
  '(_, digest) ← sha_final ctx;
  Ok digest.

End Algorithm.

Definition sha256_transf := sha_transf SHA256.
Definition sha512_transf := sha_transf SHA512.
Definition sha224_init := sha_init SHA224.
Definition sha224_update := sha_update SHA224.
Definition sha224_final := sha_final SHA224.
Definition sha224 := sha SHA224.
Definition sha256_init := sha_init SHA256.
Definition sha256_update := sha_update SHA256.
Definition sha256_final := sha_final SHA256.
Definition sha256 := sha SHA256.
Definition sha384_init := sha_init SHA384.
Definition sha384_update := sha_update SHA384.
Definition sha384_final := sha_final SHA384.
Definition sha384 := sha SHA384.
Definition sha512_init := sha_init SHA512.
Definition sha512_update := sha_update SHA512.
Definition sha512_final := sha_final SHA512.
Definition sha512 := sha SHA512.

(** ** Blocks and padding, as the code makes them *)

Section Blocks.
Context (A : sha_alg).

(** The zeros of the padding of [n] octets, in front of the length. *)
Definition pad_zeros (n : Z) : nat := Z.to_nat ((- (n + len_room A)) mod blk_size A).

(** The compression of the first [n] blocks of [l]. *)
Fixpoint hash_blocks (n : nat) (h l : list Z) : list Z :=
  match n with
  | O => h
  | S n => hash_blocks n (compress A h (take (Z.to_nat (blk_size A)) l)) (drop (Z.to_nat (blk_size A)) l)
  end.

Definition digest (h : list Z) : list Z := concat (map (fun i => unpack A (nth i h 0)) (seq 0 (out_words A))).
End Blocks.

(** The sizes of the two families. *)
Inductive alg_std (A : sha_alg) : Prop :=
  | std32 : blk_shift A = 6 -> blk_size A = 64 -> len_room A = 9 -> alg_std A
  | std64 : blk_shift A = 7 -> blk_size A = 128 -> len_room A = 17 -> alg_std A.

Lemma SHA224_std : alg_std SHA224. Proof. by constructor 1. Qed.
Lemma SHA256_std : alg_std SHA256. Proof. by constructor 1. Qed.
Lemma SHA384_std : alg_std SHA384. Proof. by constructor 2. Qed.
Lemma SHA512_std : alg_std SHA512. Proof. by constructor 2. Qed.

(** ** The algorithms of the source and those of the standard *)

Inductive sha_standard : sha_alg -> FIPS.function -> Prop :=
  | std_sha224 : sha_standard SHA224 FIPS.SHA224
  | std_sha256 : sha_standard SHA256 FIPS.SHA256
  | std_sha384 : sha_standard SHA384 FIPS.SHA384
  | std_sha512 : sha_standard SHA512 FIPS.SHA512.

(** What the two descriptions have to agree on. *)
Record agrees (A : sha_alg) (F : FIPS.function) : Prop := {
  ag_std : alg_std A;
  ag_bits : word_bits A = FIPS.w F;
  ag_octets : Z.of_nat (word_bytes A) = FIPS.word_octets F;
  ag_block : blk_size A = FIPS.block_octets F;
  ag_len : len_room A = 1 + 2 * FIPS.word_octets F;
  ag_rounds : rounds A = FIPS.rounds F /\ (16 <= rounds A)%nat;
  ag_F1 x : F1 A x = FIPS.Sigma (FIPS.w F) (FIPS.Sigma0 F) x;
  ag_F2 x : F2 A x = FIPS.Sigma (FIPS.w F) (FIPS.Sigma1 F) x;
  ag_F3 x : F3 A x = FIPS.sigma (FIPS.w F) (FIPS.sigma0 F) x;
  ag_F4 x : F4 A x = FIPS.sigma (FIPS.w F) (FIPS.sigma1 F) x;
  ag_k : k_tab A = FIPS.K F /\ length (k_tab A) = rounds A;
  ag_h0 : alg_h0 A = FIPS.H0 F /\ length (alg_h0 A) = 8%nat;
  ag_pack l : (word_bytes A <= length l)%nat -> pack A l = FIPS.word_of (take (word_bytes A) l);
  ag_unpack x : unpack A x = be_bytes (word_bytes A) x;
  ag_digest : FIPS.digest_octets F = (out_words A * word_bytes A)%nat /\ (out_words A <= 8)%nat }.

Ltac pack_bits :=
  cbn [take]; rewrite take_0; cbv [FIPS.word_of]; cbn [nth fold_left];
  rewrite !Z.shiftl_lor, !Z.shiftl_shiftl, Z.shiftl_0_l, Z.lor_0_l by lia;
  repeat match goal with |- context [?x << (8 + ?n)] => let v := eval compute in (8 + n) in change (8 + n) with v end;
  apply Z.bits_inj'; intros i _; rewrite !Z.lor_spec; btauto.

Lemma PACK32_word l : (4 <= length l)%nat -> PACK32 l = FIPS.word_of (take 4 l).
Proof. intros L. do 4 (destruct l as [|? l]; [cbn in L; lia|]). unfold PACK32. pack_bits. Qed.

Lemma PACK64_word l : (8 <= length l)%nat -> PACK64 l = FIPS.word_of (take 8 l).
Proof. intros L. do 8 (destruct l as [|? l]; [cbn in L; lia|]). unfold PACK64. pack_bits. Qed.

Lemma UNPACK32_bytes x : UNPACK32 x = be_bytes 4 x.
Proof.
  unfold UNPACK32, wrap8. rewrite !Z.shiftr_div_pow2 by lia. cbn [be_bytes app].
  change (2^24) with (256 * 256 * 256). change (2^16) with (256 * 256). change (2^8) with 256. by rewrite !Z.div_div by lia.
Qed.

Lemma UNPACK64_bytes x : UNPACK64 x = be_bytes 8 x.
Proof.
  unfold UNPACK64, wrap8. rewrite !Z.shiftr_div_pow2 by lia. cbn [be_bytes app].
  change 256 with (2^8). rewrite !Z.div_div, <- !Z.pow_add_r by lia. done.
Qed.

Lemma sha_agrees A F : sha_standard A F -> agrees A F.
Proof.
  intros []; split; lazymatch goal with
  | |- alg_std _ => first [constructor 1; reflexivity | constructor 2; reflexivity]
  | |- forall l : list Z, _ => first [apply PACK32_word | apply PACK64_word]
  | |- forall x, unpack _ x = _ => first [apply UNPACK32_bytes | apply UNPACK64_bytes]
  | |- forall x, _ => reflexivity
  | |- _ /\ (_ <= _)%nat => split; [reflexivity|cbn; lia]
  | |- _ /\ _ => split; vm_compute; reflexivity
  | _ => reflexivity
  end.
Qed.

(** ** The incremental functions compute it *)

Section Correct.
Context (A : sha_alg) (std : alg_std A).
#[local] Abbreviation blk := (blk_size A).

Lemma blk_cases : blk = 64 \/ blk = 128.
Proof. destruct std; auto. Qed.

Lemma shl_blk x : x << blk_shift A = x * blk.
Proof. destruct std as [-> -> _| -> -> _]; by rewrite Z.shiftl_mul_pow2 by lia. Qed.

Lemma hash_blocks_app n k h a b : Z.of_nat (length a) = Z.of_nat n * blk ->
  hash_blocks A (n + k) h (a ++ b) = hash_blocks A k (hash_blocks A n h a) b.
Proof.
  pose proof blk_cases. revert h a. induction n as [|n IH]; intros h a L; cbn [hash_blocks plus].
  - by destruct a; [|cbn in L; lia].
  - rewrite take_app_le, drop_app_le by lia. apply IH. rewrite length_drop. lia.
Qed.

Lemma hash_blocks_prefix n h a b : Z.of_nat (length a) = Z.of_nat n * blk ->
  hash_blocks A n h (a ++ b) = hash_blocks A n h a.
Proof. intros L. rewrite <- (Nat.add_0_r n) at 1. by rewrite hash_blocks_app. Qed.

Lemma transf_loop_spec n i h m : 0 <= i -> (i + Z.of_nat n) * blk <= Z.of_nat (length m) ->
  transf_loop A n i h m = Ok (hash_blocks A n h (drop (Z.to_nat (i * blk)) m)).
Proof.
  pose proof blk_cases. revert i h. induction n as [|n IH]; intros i h Hi L; [done|]. cbn [transf_loop hash_blocks].
  rewrite shl_blk. unfold adv, rdn. rewrite length_drop.
  destruct (Z.ltb_spec (Z.of_nat (length m - Z.to_nat (i * blk))) blk); [nia|]. osimp.
  rewrite IH by nia. rewrite drop_drop. do 4 f_equal. nia.
Qed.

Lemma transf_spec ctx m n : 0 <= n -> n * blk <= Z.of_nat (length m) ->
  sha_transf A ctx m n = Ok (Ctx (ctx_tot_len ctx) (ctx_len ctx) (ctx_block ctx) (hash_blocks A (Z.to_nat n) (ctx_h ctx) m)).
Proof. pose proof blk_cases. intros Hn L. unfold sha_transf. by rewrite transf_loop_spec by nia. Qed.

(** The context after the octets [m]: whole blocks are compressed, the rest of
    them waits at the start of [block], whose other octets are arbitrary. *)
Inductive sha_inv : sha_ctx -> list Z -> Prop :=
  sha_inv_intro q done tail rest :
    Z.of_nat (length done) = Z.of_nat q * blk -> Z.of_nat (length tail) < blk ->
    Z.of_nat (length (tail ++ rest)) = 2 * blk ->
    sha_inv (Ctx (wrap32 (Z.of_nat (length done))) (Z.of_nat (length tail)) (tail ++ rest) (hash_blocks A q (alg_h0 A) done)) (done ++ tail).

Lemma sha_inv_init ctx : Z.of_nat (length (ctx_block ctx)) = 2 * blk -> sha_inv (sha_init A ctx) [].
Proof. intros L. apply (sha_inv_intro 0 [] [] (ctx_block ctx)); cbn; [done| |done]. pose proof blk_cases. lia. Qed.

Lemma be_bytes_zeros k n x : 0 <= x < 256 ^ Z.of_nat n -> be_bytes (k + n) x = repeat 0 k ++ be_bytes n x.
Proof.
  revert x. induction n as [|n IH]; intros x Hx.
  - assert (x = 0) as -> by (cbn in Hx; lia). rewrite Nat.add_0_r, app_nil_r.
    induction k as [|k IH]; [done|]. cbn [be_bytes]. rewrite Z.div_0_l, Z.mod_0_l, IH by lia. by rewrite <- repeat_cons.
  - rewrite Nat.add_succ_r. cbn [be_bytes]. rewrite IH, (assoc_L (++)); [done|].
    rewrite Nat2Z.inj_succ, Z.pow_succ_r in Hx by lia. split; [apply Z.div_pos; lia|]. apply Z.div_lt_upper_bound; lia.
Qed.

Lemma wrap32_add x y : wrap32 (wrap32 x + wrap32 y) = wrap32 (x + y).
Proof. unfold wrap32. by rewrite <- Zplus_mod. Qed.

Lemma split_octets (m : list Z) n : 0 <= n <= Z.of_nat (length m) ->
  exists a b, m = a ++ b /\ Z.of_nat (length a) = n.
Proof. exists (take (Z.to_nat n) m), (drop (Z.to_nat n) m). rewrite take_drop, length_take. split; [done|lia]. Qed.

Lemma update_inv ctx m msg n : sha_inv ctx m -> n = Z.of_nat (length msg) -> n + blk < 2^32 ->
  exists ctx', sha_update A ctx msg n = Ok ctx' /\ sha_inv ctx' (m ++ msg).
Proof.
  intros [q pre tail rest Lq Lt Lb] -> Hn. pose proof blk_cases as B.
  rewrite length_app in Lb. unfold sha_update. cbn [ctx_len ctx_block ctx_h ctx_tot_len].
  rewrite !(wrap32_id (blk - _)), !(wrap32_id (Z.of_nat (length tail) + _)) by lia.
  destruct (Z.ltb_spec (Z.of_nat (length tail) + Z.of_nat (length msg)) blk) as [C|C].
  - destruct (Z.ltb_spec (Z.of_nat (length msg)) (blk - Z.of_nat (length tail))); [|lia].
    destruct (split_octets rest (Z.of_nat (length msg))) as (r1 & r2 & -> & Lr); [lia|].
    rewrite rdn_all by done. osimp. rewrite overwrite_app by lia. osimp. eexists. split; [done|].
    rewrite <- (assoc_L (++) pre tail msg), <- Nat2Z.inj_add, <- length_app, (assoc_L (++) tail msg r2).
    constructor; rewrite ?length_app in *; lia.
  - destruct (Z.ltb_spec (Z.of_nat (length msg)) (blk - Z.of_nat (length tail))); [lia|].
    destruct (split_octets msg (blk - Z.of_nat (length tail))) as (a & bc & -> & La); [lia|].
    destruct (split_octets rest (blk - Z.of_nat (length tail))) as (r1 & r2 & -> & Lr); [lia|].
    rewrite rdn_app by done. osimp. rewrite overwrite_app, adv_app by lia. osimp.
    rewrite transf_spec by (rewrite ?length_app; lia). osimp. cbn [ctx_len ctx_block ctx_h ctx_tot_len].
    rewrite !length_app in *. rewrite (wrap32_id (Z.of_nat (length a + length bc) - _)) by lia.
    replace (Z.of_nat (length a + length bc) - (blk - Z.of_nat (length tail))) with (Z.of_nat (length bc)) by lia.
    set (nb := Z.of_nat (length bc) / blk).
    assert (N : 0 <= nb /\ nb * blk <= Z.of_nat (length bc)) by (subst nb; nia).
    assert (M : Z.of_nat (length bc) mod blk = Z.of_nat (length bc) - nb * blk) by (subst nb; nia). rewrite M, !shl_blk.
    destruct (split_octets bc (nb * blk)) as (b & c & -> & Lbb); [lia|].
    rewrite transf_spec by (rewrite ?length_app in *; lia). osimp. cbn [ctx_len ctx_block ctx_h ctx_tot_len].
    assert (Lc : Z.of_nat (length (b ++ c)) - nb * blk = Z.of_nat (length c)) by (rewrite length_app; lia). rewrite Lc.
    rewrite adv_app, rdn_all by lia. osimp. assert (Z.of_nat (length c) < blk) by (rewrite <- Lc, <- M; apply Z.mod_pos_bound; lia).
    rewrite overwrite_Ok by (rewrite ?length_app; lia). osimp. eexists. split; [reflexivity|].
    replace ((pre ++ tail) ++ a ++ b ++ c) with ((pre ++ (tail ++ a) ++ b) ++ c) by (by rewrite <- !(assoc_L (++))).
    rewrite take_0, app_nil_l, Nat.add_0_l, (assoc_L (++) tail a r2).
    rewrite wrap32_add, hash_blocks_prefix, (hash_blocks_prefix _ _ (tail ++ a)) by (rewrite ?length_app; lia).
    replace (Z.of_nat (length pre) + (nb + 1) * blk) with (Z.of_nat (length (pre ++ (tail ++ a) ++ b))) by (rewrite !length_app; lia).
    rewrite <- (hash_blocks_app q), <- hash_blocks_app by (rewrite ?length_app; lia). rewrite <- (assoc_L (++) pre).
    constructor; rewrite ?length_app, ?length_drop in *; rewrite ?length_app; lia.
Qed.

(** The padding the code makes: 32 bits of the length, zeros before them. *)
Definition code_pad (m : list Z) : list Z :=
  m ++ 0x80 :: repeat 0 (pad_zeros A (Z.of_nat (length m)) + Z.to_nat (len_room A - 5)) ++ UNPACK32 (wrap32 (8 * Z.of_nat (length m))).

Lemma final_block tail rest pm len_b : 5 <= pm - Z.of_nat (length tail) -> pm <= Z.of_nat (length (tail ++ rest)) ->
  exists rest',
  (b ← overwrite (tail ++ rest) (Z.of_nat (length tail)) (repeat 0 (Z.to_nat (pm - Z.of_nat (length tail))));
   b ← overwrite b (Z.of_nat (length tail)) [0x80];
   overwrite b (pm - 4) (UNPACK32 len_b)) =
  Ok ((tail ++ 0x80 :: repeat 0 (Z.to_nat (pm - Z.of_nat (length tail) - 5)) ++ UNPACK32 len_b) ++ rest') /\
  Z.of_nat (length rest') = Z.of_nat (length (tail ++ rest)) - pm.
Proof.
  intros L1 L2. rewrite length_app in L2.
  destruct (split_octets rest (pm - Z.of_nat (length tail))) as (r1 & r2 & -> & Lr); [lia|]. exists r2.
  split; [|rewrite !length_app; lia]. rewrite overwrite_app by (rewrite ?repeat_length; lia). osimp.
  replace (Z.to_nat (pm - Z.of_nat (length tail))) with (1 + (Z.to_nat (pm - Z.of_nat (length tail) - 5) + 4))%nat by lia.
  set (z := Z.to_nat (pm - Z.of_nat (length tail) - 5)). rewrite !repeat_app, <- !(assoc_L (++)).
  rewrite overwrite_app by done. osimp. rewrite (assoc_L (++) tail), (assoc_L (++) (tail ++ [0x80])).
  rewrite overwrite_app by (rewrite ?length_app, ?repeat_length; cbn [length UNPACK32]; lia).
  by rewrite <- !(assoc_L (++)), <- !app_comm_cons, <- !(assoc_L (++)).
Qed.

Lemma zeros_pad (n q : Z) t : n = q * blk + t -> 0 <= t < blk ->
  forall nb, nb = 1 + (if blk - len_room A <? t then 1 else 0) ->
  Z.of_nat (pad_zeros A n) = nb * blk - t - len_room A.
Proof.
  intros -> Ht nb E. unfold pad_zeros. rewrite Z2Nat.id by (apply Z.mod_pos_bound; lia).
  symmetry. apply Z.mod_unique_pos with (q := - q - nb); [|lia].
  destruct std as [_ B R|_ B R]; rewrite B, R in *; case_bools; lia.
Qed.

Lemma final_spec ctx m : sha_inv ctx m ->
  exists ctx', sha_final A ctx = Ok (ctx', digest A (hash_blocks A (Z.to_nat (Z.of_nat (length (code_pad m)) / blk)) (alg_h0 A) (code_pad m))) /\
    Z.of_nat (length (ctx_block ctx')) = 2 * blk.
Proof.
  intros [q pre tail rest Lq Lt Lb]. pose proof blk_cases as B. unfold sha_final. cbn [ctx_len ctx_block ctx_h ctx_tot_len].
  rewrite (Z.mod_small (Z.of_nat (length tail))) by lia. set (nb := 1 + _). rewrite shl_blk.
  assert (E : wrap32 (wrap32 (wrap32 (Z.of_nat (length pre)) + Z.of_nat (length tail)) << 3) = wrap32 (8 * Z.of_nat (length (pre ++ tail)))).
  { rewrite length_app, Nat2Z.inj_add. unfold wrap32. rewrite Z.shiftl_mul_pow2 by lia. change (2^3) with 8.
    by rewrite Z.mul_mod_idemp_l, Z.mul_comm, Z.mul_mod, Z.add_mod_idemp_l, <- Z.mul_mod by lia. }
  rewrite E.
  assert (P : 0 <= Z.of_nat (pad_zeros A (Z.of_nat (length (pre ++ tail))))) by lia.
  assert (Z0 : Z.of_nat (pad_zeros A (Z.of_nat (length (pre ++ tail)))) = nb * blk - Z.of_nat (length tail) - len_room A)
    by (apply (zeros_pad _ (Z.of_nat q)); [rewrite length_app|..]; subst nb; lia).
  assert (R : 9 <= len_room A) by (destruct std; lia). assert (N : nb = 1 \/ nb = 2) by (subst nb; case_bools; lia).
  destruct (final_block tail rest (nb * blk) (wrap32 (8 * Z.of_nat (length (pre ++ tail))))) as (rest' & F & LR); [lia|nia|].
  set (pad := repeat 0 (Z.to_nat (nb * blk - Z.of_nat (length tail) - 5)) ++ UNPACK32 (wrap32 (8 * Z.of_nat (length (pre ++ tail))))) in F.
  assert (CP : code_pad (pre ++ tail) = pre ++ (tail ++ 0x80 :: pad)).
  { unfold code_pad, pad. rewrite <- (assoc_L (++)). do 5 f_equal. lia. }
  assert (LP : Z.of_nat (length (tail ++ 0x80 :: pad)) = nb * blk).
  { unfold pad. rewrite length_app. cbn [length]. rewrite length_app, repeat_length. cbn [length UNPACK32]. lia. }
  assert (LB : Z.of_nat (length ((tail ++ 0x80 :: pad) ++ rest')) = 2 * blk).
  { rewrite length_app. lia. }
  destruct (overwrite (tail ++ rest) _ _) as [b1|]; [|done]. osimp. destruct (overwrite b1 _ _) as [b2|]; [|done]. osimp. rewrite F. osimp.
  rewrite transf_spec by (rewrite ?length_app in *; nia). osimp. match goal with |- exists c, Ok (?x, _) = _ /\ _ => exists x end. split; [|exact LB].
  cbn [ctx_h]. rewrite hash_blocks_prefix, <- hash_blocks_app, CP by lia. do 2 f_equal.
  replace (Z.of_nat (length (pre ++ tail ++ 0x80 :: pad))) with ((Z.of_nat q + nb) * blk) by (rewrite length_app; lia).
  rewrite Z.div_mul, Z2Nat.inj_add, Nat2Z.id by lia. done.
Qed.

(** Any sequence of updates. *)
Definition sha_updates (ctx : sha_ctx) (chunks : list (list Z)) : outcome sha_ctx :=
  fold_left (fun r c => ctx ← r; sha_update A ctx c (Z.of_nat (length c))) chunks (Ok ctx).

Lemma updates_inv chunks ctx m : sha_inv ctx m -> Z.of_nat (length (m ++ concat chunks)) < 2^29 ->
  exists ctx', sha_updates ctx chunks = Ok ctx' /\ sha_inv ctx' (m ++ concat chunks).
Proof.
  unfold sha_updates. revert ctx m. induction chunks as [|c cs IH]; intros ctx m I L; cbn [concat fold_left].
  - exists ctx. by rewrite app_nil_r.
  - cbn [concat] in L. rewrite (assoc_L (++)) in *. rewrite length_app in L.
    destruct (update_inv ctx m c (Z.of_nat (length c)) I eq_refl) as (ctx' & U & I'); [rewrite length_app in L; destruct blk_cases; lia|].
    osimp. rewrite U. apply IH; [done|]. by rewrite length_app.
Qed.

End Correct.

(** ** What it computes is the hash of the standard *)

Lemma fold_left_map_list {S T U} (f : S -> U -> S) (g : T -> U) l s : fold_left f (map g l) s = fold_left (fun s t => f s (g t)) l s.
Proof. revert s. induction l as [|t l IH]; intros s; [done|]. apply IH. Qed.

Lemma fold_seq_zip {S} (f : S -> Z -> Z -> S) l1 l2 s : length l1 = length l2 ->
  fold_left (fun s j => f s (nth j l1 0) (nth j l2 0)) (seq 0 (length l1)) s = fold_left (fun s p => f s (fst p) (snd p)) (zip l1 l2) s.
Proof.
  revert l2 s. induction l1 as [|x l1 IH]; intros [|y l2] s L; try done. cbn [length seq fold_left zip zip_with nth fst snd].
  rewrite <- IH by (by injection L). by rewrite <- seq_shift, fold_left_map_list.
Qed.

Section Standard.
Context {A : sha_alg} {F : FIPS.function} (ag : agrees A F).

Lemma sha_add_std x y : sha_add A x y = FIPS.wadd (FIPS.w F) x y.
Proof. unfold sha_add, FIPS.wadd. by rewrite (ag_bits _ _ ag). Qed.

Lemma CH_std x y z : CH (word_bits A) x y z = FIPS.Ch (FIPS.w F) x y z.
Proof. by rewrite (ag_bits _ _ ag). Qed.

Lemma nth_last_words n i W : length W = n -> (0 < i <= n)%nat -> nth (n - i) (rev W) 0 = nth (i - 1) W 0.
Proof. intros <- Hi. rewrite rev_nth by lia. f_equal. lia. Qed.

Lemma scr_std n k M : length M = 16%nat ->
  scr A n (rev (FIPS.schedule_rev F k M)) = rev (FIPS.schedule_rev F (n + k) M).
Proof.
  intros L. revert k. induction n as [|n IH]; intros k; [done|]. cbn [scr]. rewrite Nat.add_succ_comm, <- IH. f_equal.
  assert (LW : length (FIPS.schedule_rev F k M) = (16 + k)%nat) by (clear - L; induction k as [|k IH]; cbn [FIPS.schedule_rev length]; [rewrite length_rev|]; lia).
  rewrite length_rev, LW. cbn [FIPS.schedule_rev rev]. rewrite !(nth_last_words (16 + k)) by lia.
  by rewrite !sha_add_std, (ag_F3 _ _ ag), (ag_F4 _ _ ag).
Qed.

Lemma pack_words_std block : Z.of_nat (length block) = blk_size A -> pack_words A block = FIPS.block_words F block.
Proof.
  intros L. rewrite (ag_block _ _ ag) in L. unfold FIPS.block_octets in L. pose proof (ag_octets _ _ ag) as O. rewrite <- O in L.
  unfold pack_words, FIPS.block_words. rewrite <- O, Nat2Z.id. apply map_ext_in. intros t Ht%in_seq. apply (ag_pack _ _ ag).
  rewrite length_drop. nia.
Qed.

Definition vars_of (l : list Z) : FIPS.vars :=
  (nth 0 l 0, nth 1 l 0, nth 2 l 0, nth 3 l 0, nth 4 l 0, nth 5 l 0, nth 6 l 0, nth 7 l 0).

Lemma sha_round_std wv k x : vars_of (sha_round A wv k x) = FIPS.round F (vars_of wv) (k, x).
Proof.
  unfold sha_round, vars_of, FIPS.round. cbn [nth fst snd]. by rewrite !sha_add_std, CH_std, (ag_F1 _ _ ag), (ag_F2 _ _ ag).
Qed.

Lemma rounds_std kw wv : vars_of (fold_left (fun wv p => sha_round A wv (fst p) (snd p)) kw wv) = fold_left (FIPS.round F) kw (vars_of wv).
Proof.
  revert wv. induction kw as [|[k x] kw IH]; intros wv; [done|]. cbn [fold_left fst snd]. by rewrite IH, sha_round_std.
Qed.

Lemma compress_std h block : Z.of_nat (length block) = blk_size A -> compress A h block = FIPS.hash_block F h block.
Proof.
  intros L. destruct (ag_rounds _ _ ag) as [R R16]. destruct (ag_k _ _ ag) as [K KL]. unfold compress. set (W := scr A _ _).
  assert (EW : W = FIPS.schedule F (FIPS.block_words F block)).
  { subst W. rewrite pack_words_std, R by done. pose proof (scr_std (FIPS.rounds F - 16) 0 (FIPS.block_words F block)) as E.
    cbn [FIPS.schedule_rev] in E. rewrite rev_involutive, Nat.add_0_r in E. by apply E. }
  assert (LW : length W = rounds A).
  { rewrite EW. unfold FIPS.schedule. rewrite length_rev, <- R.
    assert (H : forall n M, length (FIPS.schedule_rev F n M) = (n + length M)%nat)
      by (intros n M; induction n as [|n IH]; cbn [FIPS.schedule_rev length]; [rewrite length_rev|]; lia).
    rewrite H. unfold FIPS.block_words. rewrite length_map, length_seq. lia. }
  rewrite <- KL, fold_seq_zip by congruence. unfold FIPS.hash_block.
  fold (vars_of h). rewrite <- K, <- EW, <- rounds_std. unfold vars_of. cbn [map seq]. rewrite !sha_add_std. unfold FIPS.wadd. by rewrite !(Z.add_comm (nth _ h 0)).
Qed.

Lemma hash_blocks_std n h l : Z.of_nat n * blk_size A <= Z.of_nat (length l) -> hash_blocks A n h l = FIPS.hash_blocks F n h l.
Proof.
  pose proof (blk_cases A (ag_std _ _ ag)) as B. revert h l. induction n as [|n IH]; intros h l L; [done|].
  cbn [hash_blocks FIPS.hash_blocks]. rewrite compress_std by (rewrite length_take; lia). rewrite IH by (rewrite length_drop; lia).
  by rewrite (ag_block _ _ ag).
Qed.

Lemma code_pad_std m : Z.of_nat (length m) < 2^29 -> code_pad A m = FIPS.pad F m.
Proof.
  intros L. pose proof (ag_len _ _ ag) as R. unfold code_pad, FIPS.pad. rewrite wrap32_id, repeat_app, <- (assoc_L (++)), UNPACK32_bytes by lia.
  replace (FIPS.pad_zeros F (Z.of_nat (length m))) with (pad_zeros A (Z.of_nat (length m)))
    by (unfold pad_zeros, FIPS.pad_zeros; rewrite R, (ag_block _ _ ag); do 3 f_equal; lia).
  do 3 f_equal. replace (Z.to_nat (2 * FIPS.word_octets F)) with (Z.to_nat (len_room A - 5) + 4)%nat by (destruct (ag_std _ _ ag); lia).
  symmetry. apply be_bytes_zeros. change (256 ^ Z.of_nat 4) with (2^32). lia.
Qed.

Lemma length_be_bytes n x : length (be_bytes n x) = n.
Proof. revert x. induction n as [|n IH]; intros x; [done|]. cbn [be_bytes]. rewrite length_app, IH. cbn. lia. Qed.

Lemma digest_std h : length h = 8%nat ->
  digest A h = take (FIPS.digest_octets F) (concat (map (be_bytes (Z.to_nat (FIPS.word_octets F))) h)).
Proof.
  intros L. destruct (ag_digest _ _ ag) as [-> W]. pose proof (ag_octets _ _ ag) as O. rewrite <- O, Nat2Z.id.
  unfold digest. rewrite <- L in W. clear L. revert h W. induction (out_words A) as [|n IH]; intros h W; [done|].
  destruct h as [|x h]; [cbn in W; lia|]. cbn [seq map concat Nat.mul]. rewrite (ag_unpack _ _ ag), take_app_ge, length_be_bytes by (rewrite length_be_bytes; lia).
  replace (word_bytes A + n * word_bytes A - word_bytes A)%nat with (n * word_bytes A)%nat by lia.
  rewrite <- IH by (cbn in W; lia). by rewrite <- seq_shift, map_map.
Qed.

Lemma hash_blocks_length n h l : length h = 8%nat -> length (FIPS.hash_blocks F n h l) = 8%nat.
Proof.
  revert h l. induction n as [|n IH]; intros h l L; [done|]. cbn [FIPS.hash_blocks]. apply IH. unfold FIPS.hash_block.
  by destruct (fold_left _ _ _) as [[[[[[[? ?] ?] ?] ?] ?] ?] ?].
Qed.

(** _final on a context that was given [m]. *)
Lemma final_std ctx m : sha_inv A ctx m -> Z.of_nat (length m) < 2^29 ->
  exists ctx', sha_final A ctx = Ok (ctx', FIPS.hash F m) /\ Z.of_nat (length (ctx_block ctx')) = 2 * blk_size A.
Proof.
  intros I L. destruct (final_spec A (ag_std _ _ ag) _ _ I) as (ctx' & -> & LB). exists ctx'. split; [|done].
  destruct (ag_h0 _ _ ag) as [E0 L0]. pose proof (blk_cases A (ag_std _ _ ag)) as B. rewrite code_pad_std by done.
  rewrite hash_blocks_std by (rewrite Z2Nat.id by (apply Z.div_pos; lia); rewrite Z.mul_comm; apply Z.mul_div_le; lia).
  rewrite E0 in L0 |- *. unfold FIPS.hash. rewrite digest_std by (by apply hash_blocks_length). by rewrite (ag_block _ _ ag).
Qed.

Lemma sha_chunks ctx chunks : Z.of_nat (length (ctx_block ctx)) = 2 * blk_size A -> Z.of_nat (length (concat chunks)) < 2^29 ->
  (ctx ← sha_updates A (sha_init A ctx) chunks; snd <$> sha_final A ctx) = Ok (FIPS.hash F (concat chunks)).
Proof.
  intros L1 L2. destruct (updates_inv A (ag_std _ _ ag) chunks _ _ (sha_inv_init A (ag_std _ _ ag) ctx L1) L2) as (c & -> & I). osimp.
  by destruct (final_std _ _ I L2) as (c' & -> & _).
Qed.

(** The local variable of the one-shot functions has a block of its type. *)
Lemma sha_one_shot ctx m : Z.of_nat (length (ctx_block ctx)) = 2 * blk_size A -> Z.of_nat (length m) < 2^29 ->
  sha A ctx m (Z.of_nat (length m)) = Ok (FIPS.hash F m).
Proof.
  intros L1 L2. pose proof (sha_chunks ctx [m] L1) as E. cbn [concat] in E. rewrite app_nil_r in E.
  specialize (E L2). unfold sha_updates in E. cbn [fold_left] in E. osimp. unfold sha. osimp.
  destruct (sha_update A _ m _) as [c|]; [|done]. osimp. by destruct (sha_final A c) as [[? ?]|].
Qed.

Lemma be_bytes_ok n x : bytes_ok (be_bytes n x).
Proof. revert x. induction n as [|n IH]; intros x; [by constructor|]. cbn [be_bytes]. apply Forall_app. split; [apply IH|]. repeat constructor; unfold byte_ok; lia. Qed.

Lemma hash_octets m : length (FIPS.hash F m) = FIPS.digest_octets F /\ bytes_ok (FIPS.hash F m).
Proof.
  unfold FIPS.hash. destruct (ag_h0 _ _ ag) as [E0 L0]. rewrite E0 in L0. set (H := FIPS.hash_blocks _ _ _ _).
  assert (LH : length H = 8%nat) by (by apply hash_blocks_length). destruct (ag_digest _ _ ag) as [D W].
  assert (LC : length (concat (map (be_bytes (Z.to_nat (FIPS.word_octets F))) H)) = (8 * word_bytes A)%nat).
  { pose proof (ag_octets _ _ ag) as O. rewrite <- LH, <- O, Nat2Z.id. clear. induction H as [|x H IH]; [done|].
    cbn [map concat length]. rewrite length_app, length_be_bytes, IH. lia. }
  split; [rewrite length_take, LC, D; nia|]. apply Forall_take, Forall_concat, Forall_map, Forall_true. intros x. apply be_bytes_ok.
Qed.
End Standard.

(** ** Theorems *)

(** C18: for each of the four hash functions, any context with arbitrary octets
    in its buffer and any way of cutting a message of less than 2^29 octets into
    pieces, _init, an _update for each piece and _final stay inside of the
    buffer and return the hash of the message as FIPS 180-4 defines it: its
    padding, its message schedule and rounds with the rotations of the standard,
    and constants computed from the roots of the prime numbers. *)
Theorem sha2_incremental A F ctx chunks : sha_standard A F ->
  Z.of_nat (length (ctx_block ctx)) = 2 * blk_size A -> Z.of_nat (length (concat chunks)) < 2^29 ->
  (ctx ← sha_updates A (sha_init A ctx) chunks; snd <$> sha_final A ctx) = Ok (FIPS.hash F (concat chunks)).
Proof. intros H%sha_agrees. by apply sha_chunks. Qed.

(** ** Test vectors of the source *)

Definition indeterminate (n : nat) : sha_ctx := Ctx 3 1 (repeat 0xcd n) [].
Definition abc : list Z := [0x61; 0x62; 0x63].

Lemma sha2_incremental_witness : (ctx ← sha_updates SHA256 (sha_init SHA256 (indeterminate 128)) [[0x61]; []; [0x62; 0x63]]; snd <$> sha_final SHA256 ctx) =
  Ok (be_bytes 32 0xba7816bf8f01cfea414140de5dae2223b00361a396177a9cb410ff61f20015ad).
Proof. rewrite (sha2_incremental SHA256 FIPS.SHA256); [vm_compute; reflexivity|constructor|reflexivity|reflexivity]. Defined.

Example sha2_test_vectors :
  sha224 (indeterminate 128) abc 3 = Ok (be_bytes 28 0x23097d223405d8228642a477bda255b32aadbce4bda0b3f7e36c9da7) /\
  sha384 (indeterminate 256) abc 3 = Ok (be_bytes 48 0xcb00753f45a35e8bb5a03d699ac65007272c32ab0eded1631a8b605a43ff5bed8086072ba1e7cc2358baeca134c825a7) /\
  sha512 (indeterminate 256) abc 3 = Ok (be_bytes 64 0xddaf35a193617abacc417349ae20413112e6fa4e89a97ea20a9eeee64b55d39a2192992a274fc1a836ba3c23a3feebbd454d4423643ce80e2a9ac94fa54ca49f).
Proof. split; [|split]; vm_compute; reflexivity. Qed.
