(* ===== verification/HMAC.v ===== *)
(** HMAC with the SHA-2 functions (mme/S6a/hmac/hmac_sha2.c, hmac_sha2.h), as
    the source writes it out for SHA-224, SHA-256, SHA-384 and SHA-512; the HMAC
    of RFC 2104; and the theorem that they agree, over any pieces of a message
    and any number of uses of a context. *)
From S2P Require Import Prelude FIPS180 SHA2.

(** [hmac_sha224_ctx] ... [hmac_sha512_ctx] *)
Record hmac_ctx := {
  ctx_inside : sha_ctx;
  ctx_outside : sha_ctx;
  ctx_inside_reinit : sha_ctx;
  ctx_outside_reinit : sha_ctx;
  block_ipad : list Z;
  block_opad : list Z }.

Section Algorithm.
Context (A : sha_alg) (DIGEST_SIZE : Z).
#[local] Abbreviation BLOCK_SIZE := (blk_size A).

(** The key that is used and the number of its octets; [ctx] is the context of
    the hash of a long key. *)
Definition hmac_key (ctx : sha_ctx) (key : list Z) (key_size : Z) : outcome (list Z * Z) :=
  if key_size =? BLOCK_SIZE then Ok (key, BLOCK_SIZE)
  else if BLOCK_SIZE <? key_size then
    key_temp ← sha A ctx key key_size;
    Ok (key_temp, DIGEST_SIZE)
  else Ok (key, key_size).

(** The two pads; [fill] is not done for a key of the size of a block. *)
Definition hmac_pad (c : Z) (pad key_used : list Z) (num key_size : Z) : outcome (list Z) :=
  pad ← (if key_size =? BLOCK_SIZE then Ok pad
         else overwrite pad num (repeat c (Z.to_nat (wrap32 (BLOCK_SIZE - num)))));
  k ← rdn key_used num;
  overwrite pad 0 (map (fun b => b .^ c) k).

Definition hmac_init (tmp : sha_ctx) (ctx : hmac_ctx) (key : list Z) (key_size : Z) : outcome hmac_ctx :=
  '(key_used, num) ← hmac_key tmp key key_size;
  ipad ← hmac_pad 0x36 (block_ipad ctx) key_used num key_size;
  opad ← hmac_pad 0x5c (block_opad ctx) key_used num key_size;
  inside ← sha_update A (sha_init A (ctx_inside ctx)) ipad BLOCK_SIZE;
  outside ← sha_update A (sha_init A (ctx_outside ctx)) opad BLOCK_SIZE;
  Ok {| ctx_inside := inside; ctx_outside := outside; ctx_inside_reinit := inside; ctx_outside_reinit := outside;
        block_ipad := ipad; block_opad := opad |}.

Definition hmac_reinit (ctx : hmac_ctx) : hmac_ctx :=
  {| ctx_inside := ctx_inside_reinit ctx; ctx_outside := ctx_outside_reinit ctx;
     ctx_inside_reinit := ctx_inside_reinit ctx; ctx_outside_reinit := ctx_outside_reinit ctx;
     block_ipad := block_ipad ctx; block_opad := block_opad ctx |}.

Definition hmac_update (ctx : hmac_ctx) (message : list Z) (message_len : Z) : outcome hmac_ctx :=
  inside ← sha_update A (ctx_inside ctx) message message_len;
  Ok {| ctx_inside := inside; ctx_outside := ctx_outside ctx;
        ctx_inside_reinit := ctx_inside_reinit ctx; ctx_outside_reinit := ctx_outside_reinit ctx;
        block_ipad := block_ipad ctx; block_opad := block_opad ctx |}.

(** The context after the call and the [mac_size] octets written to [mac]. *)
Definition hmac_final (ctx : hmac_ctx) (mac_size : Z) : outcome (hmac_ctx * list Z) :=
  '(inside, digest_inside) ← sha_final A (ctx_inside ctx);
  outside ← sha_update A (ctx_outside ctx) digest_inside DIGEST_SIZE;
  '(outside, mac_temp) ← sha_final A outside;
  mac ← rdn mac_temp mac_size;
  Ok ({| ctx_inside := inside; ctx_outside := outside;
         ctx_inside_reinit := ctx_inside_reinit ctx; ctx_outside_reinit := ctx_outside_reinit ctx;
         block_ipad := block_ipad ctx; block_opad := block_opad ctx |}, mac).

Definition hmac (tmp : sha_ctx) (ctx : hmac_ctx) (key : list Z) (key_size : Z) (message : list Z) (message_len mac_size : Z) : outcome (list Z) :=
  ctx ← hmac_init tmp ctx key key_size;
  ctx ← hmac_update ctx message message_len;
  '(_, mac) ← hmac_final ctx mac_size;
  Ok mac.
End Algorithm.

Definition hmac_sha224_init := hmac_init SHA224 SHA224_DIGEST_SIZE.
Definition hmac_sha224_update := hmac_update SHA224.
Definition hmac_sha224_final := hmac_final SHA224 SHA224_DIGEST_SIZE.
Definition hmac_sha224_reinit := hmac_reinit.
Definition hmac_sha224 := hmac SHA224 SHA224_DIGEST_SIZE.
Definition hmac_sha256_init := hmac_init SHA256 SHA256_DIGEST_SIZE.
Definition hmac_sha256_update := hmac_update SHA256.
Definition hmac_sha256_final := hmac_final SHA256 SHA256_DIGEST_SIZE.
Definition hmac_sha256_reinit := hmac_reinit.
Definition hmac_sha256 := hmac SHA256 SHA256_DIGEST_SIZE.
Definition hmac_sha384_init := hmac_init SHA384 SHA384_DIGEST_SIZE.
Definition hmac_sha384_update := hmac_update SHA384.
Definition hmac_sha384_final := hmac_final SHA384 SHA384_DIGEST_SIZE.
Definition hmac_sha384_reinit := hmac_reinit.
Definition hmac_sha384 := hmac SHA384 SHA384_DIGEST_SIZE.
Definition hmac_sha512_init := hmac_init SHA512 SHA512_DIGEST_SIZE.
Definition hmac_sha512_update := hmac_update SHA512.
Definition hmac_sha512_final := hmac_final SHA512 SHA512_DIGEST_SIZE.
Definition hmac_sha512_reinit := hmac_reinit.
Definition hmac_sha512 := hmac SHA512 SHA512_DIGEST_SIZE.

(** ** RFC 2104 *)

Section Standard.
Context (F : FIPS.function).

(** The key, hashed when it is longer than a block, with zeros up to a block. *)
Definition rfc_key (key : list Z) : list Z :=
  let k := if FIPS.block_octets F <? Z.of_nat (length key) then FIPS.hash F key else key in
  k ++ repeat 0 (Z.to_nat (FIPS.block_octets F) - length k).

Definition rfc_xor (key : list Z) (c : Z) : list Z := map (fun b => b .^ c) (rfc_key key).

Definition rfc_hmac (key m : list Z) : list Z :=
  FIPS.hash F (rfc_xor key 0x5c ++ FIPS.hash F (rfc_xor key 0x36 ++ m)).
End Standard.

Definition digest_size (A : sha_alg) : Z := Z.of_nat (word_bytes A) * Z.of_nat (out_words A).

Section Correct.
Context (A : sha_alg) (F : FIPS.function) (HS : sha_standard A F).
#[local] Abbreviation blk := (blk_size A).

#[local] Abbreviation std := (ag_std A F (sha_agrees A F HS)).

Lemma digest_le_blk : 28 <= digest_size A <= blk /\ (blk = 64 \/ blk = 128).
Proof. destruct HS; vm_compute; intuition congruence. Qed.

Lemma rfc_block : FIPS.block_octets F = blk.
Proof. symmetry. apply (ag_block A F (sha_agrees A F HS)). Qed.

Lemma hash_length m : Z.of_nat (length (FIPS.hash F m)) = digest_size A.
Proof. rewrite (proj1 (hash_octets (sha_agrees A F HS) m)). by destruct HS. Qed.

Lemma rfc_key_length key : Z.of_nat (length (rfc_key F key)) = blk.
Proof.
  pose proof digest_le_blk. pose proof (hash_length key). unfold rfc_key. rewrite rfc_block.
  destruct (Z.ltb_spec blk (Z.of_nat (length key))); rewrite length_app, repeat_length; lia.
Qed.

(** The octets of a context of the type of the local variable. *)
Definition sized (ctx : sha_ctx) : Prop := Z.of_nat (length (ctx_block ctx)) = 2 * blk.

Lemma hmac_pad_spec c pad key_used num key_size : Z.of_nat (length pad) = blk -> 0 <= num <= Z.of_nat (length key_used) -> num <= blk ->
  (key_size = blk -> num = blk) ->
  hmac_pad A c pad key_used num key_size = Ok (map (fun b => b .^ c) (take (Z.to_nat num) key_used ++ repeat 0 (Z.to_nat (blk - num)))).
Proof.
  intros L N B E. pose proof digest_le_blk as [_ D]. unfold hmac_pad.
  destruct (split_octets pad num) as (p1 & p2 & -> & L1); [lia|]. rewrite length_app in L.
  assert (R : forall c', map (fun b => b .^ c') (repeat 0 (Z.to_nat (blk - num))) = repeat c' (Z.to_nat (blk - num))).
  { intros c'. by rewrite map_repeat, Z.lxor_0_l. }
  assert (FI : forall q, length q = length p1 -> overwrite (q ++ repeat c (Z.to_nat (blk - num))) 0 (map (fun b => b .^ c) (take (Z.to_nat num) key_used)) =
    Ok (map (fun b => b .^ c) (take (Z.to_nat num) key_used ++ repeat 0 (Z.to_nat (blk - num))))).
  { intros q Hq. rewrite map_app, R. apply (overwrite_app [] q); [done|]. rewrite length_map, length_take. lia. }
  unfold rdn. destruct (Z.ltb_spec (Z.of_nat (length key_used)) num); [lia|].
  destruct (Z.eqb_spec key_size blk) as [K|K]; osimp.
  - rewrite (E K) in *. destruct p2; [|cbn in L; lia]. rewrite <- FI with (q := p1) by done. by rewrite Z.sub_diag.
  - rewrite wrap32_id by lia. rewrite <- (app_nil_r (p1 ++ p2)), <- (assoc_L (++)).
    rewrite overwrite_app by (rewrite ?repeat_length; lia). osimp. rewrite app_nil_r. by apply FI.
Qed.

Lemma hmac_key_spec tmp key : sized tmp -> Z.of_nat (length key) < 2^29 ->
  exists used num, hmac_key A (digest_size A) tmp key (Z.of_nat (length key)) = Ok (used, num) /\
    0 <= num <= Z.of_nat (length used) /\ num <= blk /\ (Z.of_nat (length key) = blk -> num = blk) /\
    take (Z.to_nat num) used ++ repeat 0 (Z.to_nat (blk - num)) = rfc_key F key.
Proof.
  intros S L. pose proof digest_le_blk as [D B]. pose proof (hash_length key) as HL. unfold hmac_key, rfc_key. rewrite rfc_block.
  destruct (Z.eqb_spec (Z.of_nat (length key)) blk) as [E|E]; [|destruct (Z.ltb_spec blk (Z.of_nat (length key)))].
  - exists key, blk. rewrite take_ge by lia. destruct (Z.ltb_spec blk (Z.of_nat (length key))); [lia|].
    repeat split; try lia. do 2 f_equal. lia.
  - rewrite (sha_one_shot (sha_agrees A F HS)) by done. osimp. eexists _, _. split; [reflexivity|]. rewrite take_ge by lia.
    repeat split; try lia. do 2 f_equal. lia.
  - exists key, (Z.of_nat (length key)). rewrite take_ge by lia. repeat split; try lia. do 2 f_equal. lia.
Qed.

(** A context in use for a key: what [m] has been given to it, and the copies
    that [reinit] goes back to. *)
Record hmac_inv (ctx : hmac_ctx) (key m : list Z) : Prop := {
  v_inside : sha_inv A (ctx_inside ctx) (rfc_xor F key 0x36 ++ m);
  v_outside : sha_inv A (ctx_outside ctx) (rfc_xor F key 0x5c);
  v_inside_reinit : sha_inv A (ctx_inside_reinit ctx) (rfc_xor F key 0x36);
  v_outside_reinit : sha_inv A (ctx_outside_reinit ctx) (rfc_xor F key 0x5c) }.

(** What [hmac_init] needs of the memory it is given. *)
Record hmac_memory (ctx : hmac_ctx) : Prop := {
  m_inside : sized (ctx_inside ctx);
  m_outside : sized (ctx_outside ctx);
  m_ipad : Z.of_nat (length (block_ipad ctx)) = blk;
  m_opad : Z.of_nat (length (block_opad ctx)) = blk }.

Lemma rfc_xor_length key c : Z.of_nat (length (rfc_xor F key c)) = blk.
Proof. unfold rfc_xor. rewrite length_map. apply rfc_key_length. Qed.

Lemma hmac_init_inv tmp ctx key : sized tmp -> hmac_memory ctx -> Z.of_nat (length key) < 2^29 ->
  exists ctx', hmac_init A (digest_size A) tmp ctx key (Z.of_nat (length key)) = Ok ctx' /\ hmac_inv ctx' key [].
Proof.
  intros S [M1 M2 M3 M4] L. pose proof digest_le_blk as [D B].
  destruct (hmac_key_spec tmp key S L) as (used & num & K & N1 & N2 & N3 & R). unfold hmac_init. rewrite K. osimp.
  rewrite !hmac_pad_spec by done. osimp. rewrite !R.
  fold (rfc_xor F key 0x36) (rfc_xor F key 0x5c).
  destruct (update_inv A std _ _ (rfc_xor F key 0x36) blk (sha_inv_init A std _ M1)) as (c1 & E1 & I1); [by rewrite rfc_xor_length|lia|].
  destruct (update_inv A std _ _ (rfc_xor F key 0x5c) blk (sha_inv_init A std _ M2)) as (c2 & E2 & I2); [by rewrite rfc_xor_length|lia|].
  unfold sha_init in E1, E2 |- *. rewrite E1. osimp. rewrite E2. osimp. eexists. split; [reflexivity|].
  split; cbn [ctx_inside ctx_outside ctx_inside_reinit ctx_outside_reinit]; rewrite ?app_nil_r; done.
Qed.

Lemma hmac_update_inv ctx key m msg : hmac_inv ctx key m -> Z.of_nat (length msg) < 2^29 ->
  exists ctx', hmac_update A ctx msg (Z.of_nat (length msg)) = Ok ctx' /\ hmac_inv ctx' key (m ++ msg).
Proof.
  intros [I1 I2 I3 I4] L. pose proof digest_le_blk as [D B]. unfold hmac_update.
  destruct (update_inv A std _ _ msg (Z.of_nat (length msg)) I1 eq_refl) as (c & -> & I); [lia|]. osimp.
  eexists. split; [reflexivity|]. split; cbn [ctx_inside ctx_outside ctx_inside_reinit ctx_outside_reinit]; [|done..].
  by rewrite (assoc_L (++)).
Qed.

Lemma hmac_final_spec ctx key m size : hmac_inv ctx key m -> Z.of_nat (length m) < 2^29 - 128 -> 0 <= size <= digest_size A ->
  exists ctx', hmac_final A (digest_size A) ctx size = Ok (ctx', take (Z.to_nat size) (rfc_hmac F key m)) /\
    hmac_inv (hmac_reinit ctx') key [].
Proof.
  intros [I1 I2 I3 I4] L Sz. pose proof digest_le_blk as [D B]. unfold hmac_final.
  destruct (final_std (sha_agrees A F HS) _ _ I1) as (c1 & -> & _); [rewrite length_app, Nat2Z.inj_add, rfc_xor_length; lia|]. osimp.
  set (inner := FIPS.hash F _). assert (Li : digest_size A = Z.of_nat (length inner)) by (symmetry; apply hash_length).
  destruct (update_inv A std _ _ inner (digest_size A) I2 Li) as (c2 & -> & J2); [lia|]. osimp.
  destruct (final_std (sha_agrees A F HS) _ _ J2) as (c3 & -> & _); [rewrite length_app, Nat2Z.inj_add, rfc_xor_length; lia|]. osimp.
  fold (rfc_hmac F key m).
  unfold rdn. rewrite hash_length. destruct (Z.ltb_spec (digest_size A) size); [lia|]. osimp.
  eexists. split; [reflexivity|]. split; cbn [hmac_reinit ctx_inside ctx_outside ctx_inside_reinit ctx_outside_reinit]; rewrite ?app_nil_r; done.
Qed.

(** Updates with the pieces of a message, then the result. *)
Definition hmac_pass (ctx : hmac_ctx) (chunks : list (list Z)) (size : Z) : outcome (hmac_ctx * list Z) :=
  ctx ← fold_left (fun r c => ctx ← r; hmac_update A ctx c (Z.of_nat (length c))) chunks (Ok ctx);
  hmac_final A (digest_size A) ctx size.

(** One pass for each message, with [reinit] before all but the first. *)
Fixpoint hmac_passes (ctx : hmac_ctx) (messages : list (list (list Z))) (size : Z) : outcome (list (list Z)) :=
  match messages with
  | [] => Ok []
  | chunks :: messages =>
    '(ctx, mac) ← hmac_pass ctx chunks size;
    macs ← hmac_passes (hmac_reinit ctx) messages size;
    Ok (mac :: macs)
  end.

Lemma hmac_updates_inv chunks ctx key m : hmac_inv ctx key m -> Z.of_nat (length (concat chunks)) < 2^29 ->
  exists ctx', fold_left (fun r c => ctx ← r; hmac_update A ctx c (Z.of_nat (length c))) chunks (Ok ctx) = Ok ctx' /\
    hmac_inv ctx' key (m ++ concat chunks).
Proof.
  revert ctx m. induction chunks as [|c cs IH]; intros ctx m I L; cbn [concat fold_left].
  - exists ctx. by rewrite app_nil_r.
  - cbn [concat] in L. rewrite length_app in L. destruct (hmac_update_inv ctx key m c I) as (ctx' & U & I'); [lia|].
    osimp. rewrite U, (assoc_L (++)). apply IH; [done|lia].
Qed.

Lemma hmac_passes_spec messages ctx key size : hmac_inv ctx key [] -> 0 <= size <= digest_size A ->
  Forall (fun chunks => Z.of_nat (length (concat chunks)) < 2^29 - 128) messages ->
  hmac_passes ctx messages size = Ok (map (fun chunks => take (Z.to_nat size) (rfc_hmac F key (concat chunks))) messages).
Proof.
  intros I Sz H. revert ctx I. induction H as [|chunks ms L _ IH]; intros ctx I; [done|]. cbn [hmac_passes map]. unfold hmac_pass.
  destruct (hmac_updates_inv chunks ctx key [] I) as (c1 & -> & I1); [lia|]. osimp. cbn [app] in I1.
  destruct (hmac_final_spec c1 key _ size I1 L Sz) as (c2 & -> & I2). osimp. by rewrite IH.
Qed.
End Correct.

(** C19: for each of the four hash functions, any memory of the right sizes, a
    key of any length below 2^29, and any number of messages cut into any
    pieces: _init, the _update and _final calls of each message, and _reinit
    between two messages, stay inside of the buffers and give for each message
    the first [mac_size] octets of its HMAC as RFC 2104 defines it. *)
Theorem hmac_sha2_correct A F tmp ctx key messages size : sha_standard A F -> sized A tmp -> hmac_memory A ctx ->
  Z.of_nat (length key) < 2^29 -> 0 <= size <= digest_size A ->
  Forall (fun chunks => Z.of_nat (length (concat chunks)) < 2^29 - 128) messages ->
  (ctx ← hmac_init A (digest_size A) tmp ctx key (Z.of_nat (length key)); hmac_passes A ctx messages size) =
  Ok (map (fun chunks => take (Z.to_nat size) (rfc_hmac F key (concat chunks))) messages).
Proof.
  intros HS S M L Sz H. destruct (hmac_init_inv A F HS tmp ctx key S M L) as (c & -> & I). osimp. by apply hmac_passes_spec.
Qed.

(** The function the callers use, with their 32-octet results. *)
Lemma hmac_sha256_spec tmp ctx key m size : sized SHA256 tmp -> hmac_memory SHA256 ctx ->
  Z.of_nat (length key) < 2^29 -> Z.of_nat (length m) < 2^29 - 128 -> 0 <= size <= 32 ->
  hmac_sha256 tmp ctx key (Z.of_nat (length key)) m (Z.of_nat (length m)) size = Ok (take (Z.to_nat size) (rfc_hmac FIPS.SHA256 key m)).
Proof.
  intros S M L1 L2 Sz. pose proof std_sha256 as HS.
  unfold hmac_sha256, hmac. change SHA256_DIGEST_SIZE with (digest_size SHA256).
  destruct (hmac_init_inv SHA256 FIPS.SHA256 HS tmp ctx key S M L1) as (c & -> & I). osimp.
  destruct (hmac_update_inv SHA256 FIPS.SHA256 HS c key [] m I) as (c1 & -> & I1); [lia|]. osimp.
  destruct (hmac_final_spec SHA256 FIPS.SHA256 HS c1 key m size I1 L2) as (c2 & -> & _); [done|]. done.
Qed.

(** ** A test vector of the source (RFC 4231, test case 2), and a second use *)

Definition indeterminate_hmac (n : nat) : hmac_ctx :=
  {| ctx_inside := indeterminate (2 * n); ctx_outside := indeterminate (2 * n);
     ctx_inside_reinit := indeterminate (2 * n); ctx_outside_reinit := indeterminate (2 * n);
     block_ipad := repeat 0xcd n; block_opad := repeat 0xcd n |}.

(** The key "Jefe" and "what do ya want " / "for nothing?" *)
Definition jefe : list Z := [0x4a; 0x65; 0x66; 0x65].
Definition what : list (list Z) :=
  [be_bytes 16 0x7768617420646f2079612077616e7420; be_bytes 12 0x666f72206e6f7468696e673f].

Lemma hmac_sha2_correct_witness :
  (ctx ← hmac_init SHA256 32 (indeterminate 128) (indeterminate_hmac 64) jefe 4; hmac_passes SHA256 ctx [what; what] 32) =
  let mac := be_bytes 32 0x5bdcc146bf60754e6a042426089575c75a003f089d2739839dec58b964ec3843 in Ok [mac; mac].
Proof.
  refine (eq_trans (hmac_sha2_correct SHA256 FIPS.SHA256 (indeterminate 128) (indeterminate_hmac 64) jefe [what; what] 32 _ _ _ _ _ _) _).
  - constructor.
  - reflexivity.
  - split; reflexivity.
  - reflexivity.
  - vm_compute. split; congruence.
  - repeat constructor.
  - vm_compute. reflexivity.
Defined.
