(* ===== verification/AES.v ===== *)
(** AES-128 (mme/S6a/milenage/aes.c, the [AES_SMALL_TABLES] build, loops not
    unrolled): key schedules, encryption and decryption with word tables; FIPS
    197 from the field GF(2^8); and the theorems that the tables compute the
    standard's cipher and that decryption inverts encryption. *)
From S2P Require Import Prelude.
From Stdlib Require Import Btauto.

(** ** The tables *)

Definition Te0 : list Z :=
  [0xc66363a5; 0xf87c7c84; 0xee777799; 0xf67b7b8d; 0xfff2f20d; 0xd66b6bbd; 0xde6f6fb1; 0x91c5c554;
   0x60303050; 0x02010103; 0xce6767a9; 0x562b2b7d; 0xe7fefe19; 0xb5d7d762; 0x4dababe6; 0xec76769a;
   0x8fcaca45; 0x1f82829d; 0x89c9c940; 0xfa7d7d87; 0xeffafa15; 0xb25959eb; 0x8e4747c9; 0xfbf0f00b;
   0x41adadec; 0xb3d4d467; 0x5fa2a2fd; 0x45afafea; 0x239c9cbf; 0x53a4a4f7; 0xe4727296; 0x9bc0c05b;
   0x75b7b7c2; 0xe1fdfd1c; 0x3d9393ae; 0x4c26266a; 0x6c36365a; 0x7e3f3f41; 0xf5f7f702; 0x83cccc4f;
   0x6834345c; 0x51a5a5f4; 0xd1e5e534; 0xf9f1f108; 0xe2717193; 0xabd8d873; 0x62313153; 0x2a15153f;
   0x0804040c; 0x95c7c752; 0x46232365; 0x9dc3c35e; 0x30181828; 0x379696a1; 0x0a05050f; 0x2f9a9ab5;
   0x0e070709; 0x24121236; 0x1b80809b; 0xdfe2e23d; 0xcdebeb26; 0x4e272769; 0x7fb2b2cd; 0xea75759f;
   0x1209091b; 0x1d83839e; 0x582c2c74; 0x341a1a2e; 0x361b1b2d; 0xdc6e6eb2; 0xb45a5aee; 0x5ba0a0fb;
   0xa45252f6; 0x763b3b4d; 0xb7d6d661; 0x7db3b3ce; 0x5229297b; 0xdde3e33e; 0x5e2f2f71; 0x13848497;
   0xa65353f5; 0xb9d1d168; 0x00000000; 0xc1eded2c; 0x40202060; 0xe3fcfc1f; 0x79b1b1c8; 0xb65b5bed;
   0xd46a6abe; 0x8dcbcb46; 0x67bebed9; 0x7239394b; 0x944a4ade; 0x984c4cd4; 0xb05858e8; 0x85cfcf4a;
   0xbbd0d06b; 0xc5efef2a; 0x4faaaae5; 0xedfbfb16; 0x864343c5; 0x9a4d4dd7; 0x66333355; 0x11858594;
   0x8a4545cf; 0xe9f9f910; 0x04020206; 0xfe7f7f81; 0xa05050f0; 0x783c3c44; 0x259f9fba; 0x4ba8a8e3;
   0xa25151f3; 0x5da3a3fe; 0x804040c0; 0x058f8f8a; 0x3f9292ad; 0x219d9dbc; 0x70383848; 0xf1f5f504;
   0x63bcbcdf; 0x77b6b6c1; 0xafdada75; 0x42212163; 0x20101030; 0xe5ffff1a; 0xfdf3f30e; 0xbfd2d26d;
   0x81cdcd4c; 0x180c0c14; 0x26131335; 0xc3ecec2f; 0xbe5f5fe1; 0x359797a2; 0x884444cc; 0x2e171739;
   0x93c4c457; 0x55a7a7f2; 0xfc7e7e82; 0x7a3d3d47; 0xc86464ac; 0xba5d5de7; 0x3219192b; 0xe6737395;
   0xc06060a0; 0x19818198; 0x9e4f4fd1; 0xa3dcdc7f; 0x44222266; 0x542a2a7e; 0x3b9090ab; 0x0b888883;
   0x8c4646ca; 0xc7eeee29; 0x6bb8b8d3; 0x2814143c; 0xa7dede79; 0xbc5e5ee2; 0x160b0b1d; 0xaddbdb76;
   0xdbe0e03b; 0x64323256; 0x743a3a4e; 0x140a0a1e; 0x924949db; 0x0c06060a; 0x4824246c; 0xb85c5ce4;
   0x9fc2c25d; 0xbdd3d36e; 0x43acacef; 0xc46262a6; 0x399191a8; 0x319595a4; 0xd3e4e437; 0xf279798b;
   0xd5e7e732; 0x8bc8c843; 0x6e373759; 0xda6d6db7; 0x018d8d8c; 0xb1d5d564; 0x9c4e4ed2; 0x49a9a9e0;
   0xd86c6cb4; 0xac5656fa; 0xf3f4f407; 0xcfeaea25; 0xca6565af; 0xf47a7a8e; 0x47aeaee9; 0x10080818;
   0x6fbabad5; 0xf0787888; 0x4a25256f; 0x5c2e2e72; 0x381c1c24; 0x57a6a6f1; 0x73b4b4c7; 0x97c6c651;
   0xcbe8e823; 0xa1dddd7c; 0xe874749c; 0x3e1f1f21; 0x964b4bdd; 0x61bdbddc; 0x0d8b8b86; 0x0f8a8a85;
   0xe0707090; 0x7c3e3e42; 0x71b5b5c4; 0xcc6666aa; 0x904848d8; 0x06030305; 0xf7f6f601; 0x1c0e0e12;
   0xc26161a3; 0x6a35355f; 0xae5757f9; 0x69b9b9d0; 0x17868691; 0x99c1c158; 0x3a1d1d27; 0x279e9eb9;
   0xd9e1e138; 0xebf8f813; 0x2b9898b3; 0x22111133; 0xd26969bb; 0xa9d9d970; 0x078e8e89; 0x339494a7;
   0x2d9b9bb6; 0x3c1e1e22; 0x15878792; 0xc9e9e920; 0x87cece49; 0xaa5555ff; 0x50282878; 0xa5dfdf7a;
   0x038c8c8f; 0x59a1a1f8; 0x09898980; 0x1a0d0d17; 0x65bfbfda; 0xd7e6e631; 0x844242c6; 0xd06868b8;
   0x824141c3; 0x299999b0; 0x5a2d2d77; 0x1e0f0f11; 0x7bb0b0cb; 0xa85454fc; 0x6dbbbbd6; 0x2c16163a].

Definition Td0 : list Z :=
  [0x51f4a750; 0x7e416553; 0x1a17a4c3; 0x3a275e96; 0x3bab6bcb; 0x1f9d45f1; 0xacfa58ab; 0x4be30393;
   0x2030fa55; 0xad766df6; 0x88cc7691; 0xf5024c25; 0x4fe5d7fc; 0xc52acbd7; 0x26354480; 0xb562a38f;
   0xdeb15a49; 0x25ba1b67; 0x45ea0e98; 0x5dfec0e1; 0xc32f7502; 0x814cf012; 0x8d4697a3; 0x6bd3f9c6;
   0x038f5fe7; 0x15929c95; 0xbf6d7aeb; 0x955259da; 0xd4be832d; 0x587421d3; 0x49e06929; 0x8ec9c844;
   0x75c2896a; 0xf48e7978; 0x99583e6b; 0x27b971dd; 0xbee14fb6; 0xf088ad17; 0xc920ac66; 0x7dce3ab4;
   0x63df4a18; 0xe51a3182; 0x97513360; 0x62537f45; 0xb16477e0; 0xbb6bae84; 0xfe81a01c; 0xf9082b94;
   0x70486858; 0x8f45fd19; 0x94de6c87; 0x527bf8b7; 0xab73d323; 0x724b02e2; 0xe31f8f57; 0x6655ab2a;
   0xb2eb2807; 0x2fb5c203; 0x86c57b9a; 0xd33708a5; 0x302887f2; 0x23bfa5b2; 0x02036aba; 0xed16825c;
   0x8acf1c2b; 0xa779b492; 0xf307f2f0; 0x4e69e2a1; 0x65daf4cd; 0x0605bed5; 0xd134621f; 0xc4a6fe8a;
   0x342e539d; 0xa2f355a0; 0x058ae132; 0xa4f6eb75; 0x0b83ec39; 0x4060efaa; 0x5e719f06; 0xbd6e1051;
   0x3e218af9; 0x96dd063d; 0xdd3e05ae; 0x4de6bd46; 0x91548db5; 0x71c45d05; 0x0406d46f; 0x605015ff;
   0x1998fb24; 0xd6bde997; 0x894043cc; 0x67d99e77; 0xb0e842bd; 0x07898b88; 0xe7195b38; 0x79c8eedb;
   0xa17c0a47; 0x7c420fe9; 0xf8841ec9; 0x00000000; 0x09808683; 0x322bed48; 0x1e1170ac; 0x6c5a724e;
   0xfd0efffb; 0x0f853856; 0x3daed51e; 0x362d3927; 0x0a0fd964; 0x685ca621; 0x9b5b54d1; 0x24362e3a;
   0x0c0a67b1; 0x9357e70f; 0xb4ee96d2; 0x1b9b919e; 0x80c0c54f; 0x61dc20a2; 0x5a774b69; 0x1c121a16;
   0xe293ba0a; 0xc0a02ae5; 0x3c22e043; 0x121b171d; 0x0e090d0b; 0xf28bc7ad; 0x2db6a8b9; 0x141ea9c8;
   0x57f11985; 0xaf75074c; 0xee99ddbb; 0xa37f60fd; 0xf701269f; 0x5c72f5bc; 0x44663bc5; 0x5bfb7e34;
   0x8b432976; 0xcb23c6dc; 0xb6edfc68; 0xb8e4f163; 0xd731dcca; 0x42638510; 0x13972240; 0x84c61120;
   0x854a247d; 0xd2bb3df8; 0xaef93211; 0xc729a16d; 0x1d9e2f4b; 0xdcb230f3; 0x0d8652ec; 0x77c1e3d0;
   0x2bb3166c; 0xa970b999; 0x119448fa; 0x47e96422; 0xa8fc8cc4; 0xa0f03f1a; 0x567d2cd8; 0x223390ef;
   0x87494ec7; 0xd938d1c1; 0x8ccaa2fe; 0x98d40b36; 0xa6f581cf; 0xa57ade28; 0xdab78e26; 0x3fadbfa4;
   0x2c3a9de4; 0x5078920d; 0x6a5fcc9b; 0x547e4662; 0xf68d13c2; 0x90d8b8e8; 0x2e39f75e; 0x82c3aff5;
   0x9f5d80be; 0x69d0937c; 0x6fd52da9; 0xcf2512b3; 0xc8ac993b; 0x10187da7; 0xe89c636e; 0xdb3bbb7b;
   0xcd267809; 0x6e5918f4; 0xec9ab701; 0x834f9aa8; 0xe6956e65; 0xaaffe67e; 0x21bccf08; 0xef15e8e6;
   0xbae79bd9; 0x4a6f36ce; 0xea9f09d4; 0x29b07cd6; 0x31a4b2af; 0x2a3f2331; 0xc6a59430; 0x35a266c0;
   0x744ebc37; 0xfc82caa6; 0xe090d0b0; 0x33a7d815; 0xf104984a; 0x41ecdaf7; 0x7fcd500e; 0x1791f62f;
   0x764dd68d; 0x43efb04d; 0xccaa4d54; 0xe49604df; 0x9ed1b5e3; 0x4c6a881b; 0xc12c1fb8; 0x4665517f;
   0x9d5eea04; 0x018c355d; 0xfa877473; 0xfb0b412e; 0xb3671d5a; 0x92dbd252; 0xe9105633; 0x6dd64713;
   0x9ad7618c; 0x37a10c7a; 0x59f8148e; 0xeb133c89; 0xcea927ee; 0xb761c935; 0xe11ce5ed; 0x7a47b13c;
   0x9cd2df59; 0x55f2733f; 0x1814ce79; 0x73c737bf; 0x53f7cdea; 0x5ffdaa5b; 0xdf3d6f14; 0x7844db86;
   0xcaaff381; 0xb968c43e; 0x3824342c; 0xc2a3405f; 0x161dc372; 0xbce2250c; 0x283c498b; 0xff0d9541;
   0x39a80171; 0x080cb3de; 0xd8b4e49c; 0x6456c190; 0x7bcb8461; 0xd532b670; 0x486c5c74; 0xd0b85742].

Definition Td4s : list Z :=
  [0x52; 0x09; 0x6a; 0xd5; 0x30; 0x36; 0xa5; 0x38; 0xbf; 0x40; 0xa3; 0x9e; 0x81; 0xf3; 0xd7; 0xfb;
   0x7c; 0xe3; 0x39; 0x82; 0x9b; 0x2f; 0xff; 0x87; 0x34; 0x8e; 0x43; 0x44; 0xc4; 0xde; 0xe9; 0xcb;
   0x54; 0x7b; 0x94; 0x32; 0xa6; 0xc2; 0x23; 0x3d; 0xee; 0x4c; 0x95; 0x0b; 0x42; 0xfa; 0xc3; 0x4e;
   0x08; 0x2e; 0xa1; 0x66; 0x28; 0xd9; 0x24; 0xb2; 0x76; 0x5b; 0xa2; 0x49; 0x6d; 0x8b; 0xd1; 0x25;
   0x72; 0xf8; 0xf6; 0x64; 0x86; 0x68; 0x98; 0x16; 0xd4; 0xa4; 0x5c; 0xcc; 0x5d; 0x65; 0xb6; 0x92;
   0x6c; 0x70; 0x48; 0x50; 0xfd; 0xed; 0xb9; 0xda; 0x5e; 0x15; 0x46; 0x57; 0xa7; 0x8d; 0x9d; 0x84;
   0x90; 0xd8; 0xab; 0x00; 0x8c; 0xbc; 0xd3; 0x0a; 0xf7; 0xe4; 0x58; 0x05; 0xb8; 0xb3; 0x45; 0x06;
   0xd0; 0x2c; 0x1e; 0x8f; 0xca; 0x3f; 0x0f; 0x02; 0xc1; 0xaf; 0xbd; 0x03; 0x01; 0x13; 0x8a; 0x6b;
   0x3a; 0x91; 0x11; 0x41; 0x4f; 0x67; 0xdc; 0xea; 0x97; 0xf2; 0xcf; 0xce; 0xf0; 0xb4; 0xe6; 0x73;
   0x96; 0xac; 0x74; 0x22; 0xe7; 0xad; 0x35; 0x85; 0xe2; 0xf9; 0x37; 0xe8; 0x1c; 0x75; 0xdf; 0x6e;
   0x47; 0xf1; 0x1a; 0x71; 0x1d; 0x29; 0xc5; 0x89; 0x6f; 0xb7; 0x62; 0x0e; 0xaa; 0x18; 0xbe; 0x1b;
   0xfc; 0x56; 0x3e; 0x4b; 0xc6; 0xd2; 0x79; 0x20; 0x9a; 0xdb; 0xc0; 0xfe; 0x78; 0xcd; 0x5a; 0xf4;
   0x1f; 0xdd; 0xa8; 0x33; 0x88; 0x07; 0xc7; 0x31; 0xb1; 0x12; 0x10; 0x59; 0x27; 0x80; 0xec; 0x5f;
   0x60; 0x51; 0x7f; 0xa9; 0x19; 0xb5; 0x4a; 0x0d; 0x2d; 0xe5; 0x7a; 0x9f; 0x93; 0xc9; 0x9c; 0xef;
   0xa0; 0xe0; 0x3b; 0x4d; 0xae; 0x2a; 0xf5; 0xb0; 0xc8; 0xeb; 0xbb; 0x3c; 0x83; 0x53; 0x99; 0x61;
   0x17; 0x2b; 0x04; 0x7e; 0xba; 0x77; 0xd6; 0x26; 0xe1; 0x69; 0x14; 0x63; 0x55; 0x21; 0x0c; 0x7d].

Definition rcons : list Z :=
  [0x01; 0x02; 0x04; 0x08; 0x10; 0x20; 0x40; 0x80; 0x1B; 0x36].

(** ** The macros *)

Definition tab (t : list Z) (i : Z) : Z := nth (Z.to_nat i) t 0.

Definition RCON (i : Z) : Z := wrap32 (tab rcons i << 24).
Definition rotr (val bits : Z) : Z := (val >> bits) .| wrap32 (val << (32 - bits)).

Definition TE0 (i : Z) : Z := tab Te0 ((i >> 24) .& 0xff).
Definition TE1 (i : Z) : Z := rotr (tab Te0 ((i >> 16) .& 0xff)) 8.
Definition TE2 (i : Z) : Z := rotr (tab Te0 ((i >> 8) .& 0xff)) 16.
Definition TE3 (i : Z) : Z := rotr (tab Te0 (i .& 0xff)) 24.
Definition TE41 (i : Z) : Z := wrap32 (tab Te0 ((i >> 24) .& 0xff) << 8) .& 0xff000000.
Definition TE42 (i : Z) : Z := tab Te0 ((i >> 16) .& 0xff) .& 0x00ff0000.
Definition TE43 (i : Z) : Z := tab Te0 ((i >> 8) .& 0xff) .& 0x0000ff00.
Definition TE44 (i : Z) : Z := (tab Te0 (i .& 0xff) >> 8) .& 0x000000ff.
Definition TE421 (i : Z) : Z := wrap32 (tab Te0 ((i >> 16) .& 0xff) << 8) .& 0xff000000.
Definition TE432 (i : Z) : Z := tab Te0 ((i >> 8) .& 0xff) .& 0x00ff0000.
Definition TE443 (i : Z) : Z := tab Te0 (i .& 0xff) .& 0x0000ff00.
Definition TE414 (i : Z) : Z := (tab Te0 ((i >> 24) .& 0xff) >> 8) .& 0x000000ff.
Definition TE4 (i : Z) : Z := (tab Te0 i >> 8) .& 0x000000ff.

Definition TD0 (i : Z) : Z := tab Td0 ((i >> 24) .& 0xff).
Definition TD1 (i : Z) : Z := rotr (tab Td0 ((i >> 16) .& 0xff)) 8.
Definition TD2 (i : Z) : Z := rotr (tab Td0 ((i >> 8) .& 0xff)) 16.
Definition TD3 (i : Z) : Z := rotr (tab Td0 (i .& 0xff)) 24.
Definition TD41 (i : Z) : Z := wrap32 (tab Td4s ((i >> 24) .& 0xff) << 24).
Definition TD42 (i : Z) : Z := tab Td4s ((i >> 16) .& 0xff) << 16.
Definition TD43 (i : Z) : Z := tab Td4s ((i >> 8) .& 0xff) << 8.
Definition TD44 (i : Z) : Z := tab Td4s (i .& 0xff).
Definition TD0_ (i : Z) : Z := tab Td0 (i .& 0xff).
Definition TD1_ (i : Z) : Z := rotr (tab Td0 (i .& 0xff)) 8.
Definition TD2_ (i : Z) : Z := rotr (tab Td0 (i .& 0xff)) 16.
Definition TD3_ (i : Z) : Z := rotr (tab Td0 (i .& 0xff)) 24.

Definition GETUINT32_T (pt : list Z) : Z :=
  (((nth 0 pt 0 << 24) .^ (nth 1 pt 0 << 16)) .^ (nth 2 pt 0 << 8)) .^ nth 3 pt 0.
Definition PUTUINT32_T (st : Z) : list Z := [wrap8 (st >> 24); wrap8 (st >> 16); wrap8 (st >> 8); wrap8 st].

(** [rk[i]] *)
Abbreviation word rk i := (nth i rk 0).

(** ** The key schedules *)

(** Iterations [i], [i + 1], ... ([n] of them) of the loop of
    [rijndaelKeySetupEnc]: [rk] is what the pointer of the source points to,
    the result is what is written from [rk + 4] on. *)
Fixpoint key_loop (n : nat) (i : Z) (rk : list Z) : list Z :=
  match n with
  | O => []
  | S n =>
    let temp := word rk 3 in
    let rk4 := ((((word rk 0 .^ TE421 temp) .^ TE432 temp) .^ TE443 temp) .^ TE414 temp) .^ RCON i in
    let rk5 := word rk 1 .^ rk4 in
    let rk6 := word rk 2 .^ rk5 in
    let rk7 := word rk 3 .^ rk6 in
    [rk4; rk5; rk6; rk7] ++ key_loop n (i + 1) [rk4; rk5; rk6; rk7]
  end.

Definition rijndaelKeySetupEnc (cipherKey : list Z) : list Z :=
  let rk := [GETUINT32_T cipherKey; GETUINT32_T (drop 4 cipherKey); GETUINT32_T (drop 8 cipherKey); GETUINT32_T (drop 12 cipherKey)] in
  rk ++ key_loop 10 0 rk.

(** [temp = rk[i]; rk[i] = rk[j]; rk[j] = temp] for four words. *)
Definition swap_words (rk : list Z) (i j : nat) : list Z :=
  fold_left (fun rk d => <[(j + d)%nat := word rk (i + d)]> (<[(i + d)%nat := word rk (j + d)]> rk)) [0; 1; 2; 3]%nat rk.

Definition inv_mix_word (w : Z) : Z :=
  ((TD0_ (TE4 (w >> 24)) .^ TD1_ (TE4 ((w >> 16) .& 0xff))) .^ TD2_ (TE4 ((w >> 8) .& 0xff))) .^ TD3_ (TE4 (w .& 0xff)).

Definition rijndaelKeySetupDec (cipherKey : list Z) : list Z :=
  let rk := rijndaelKeySetupEnc cipherKey in
  let rk := fold_left (fun rk i => swap_words rk i (40 - i)) [0; 4; 8; 12; 16]%nat rk in
  fold_left (fun rk k => <[k := inv_mix_word (word rk k)]> rk) (seq 4 36) rk.

(** ** Encryption and decryption *)

(** [ROUND(i,d,s)] of [rijndaelEncrypt] and of [rijndaelDecrypt]. *)
Definition ROUND_enc (rk : list Z) (i : nat) (s : list Z) : list Z :=
  let '(s0, s1, s2, s3) := (word s 0, word s 1, word s 2, word s 3) in
  [(((TE0 s0 .^ TE1 s1) .^ TE2 s2) .^ TE3 s3) .^ word rk (4 * i);
   (((TE0 s1 .^ TE1 s2) .^ TE2 s3) .^ TE3 s0) .^ word rk (4 * i + 1);
   (((TE0 s2 .^ TE1 s3) .^ TE2 s0) .^ TE3 s1) .^ word rk (4 * i + 2);
   (((TE0 s3 .^ TE1 s0) .^ TE2 s1) .^ TE3 s2) .^ word rk (4 * i + 3)].
Definition ROUND_dec (rk : list Z) (i : nat) (s : list Z) : list Z :=
  let '(s0, s1, s2, s3) := (word s 0, word s 1, word s 2, word s 3) in
  [(((TD0 s0 .^ TD1 s3) .^ TD2 s2) .^ TD3 s1) .^ word rk (4 * i);
   (((TD0 s1 .^ TD1 s0) .^ TD2 s3) .^ TD3 s2) .^ word rk (4 * i + 1);
   (((TD0 s2 .^ TD1 s1) .^ TD2 s0) .^ TD3 s3) .^ word rk (4 * i + 2);
   (((TD0 s3 .^ TD1 s2) .^ TD2 s1) .^ TD3 s0) .^ word rk (4 * i + 3)].

(** The loop [for (;;)] with [r] iterations left: the words [t0] ... [t3] at
    the [break] and [rk]. *)
Fixpoint round_loop (ROUND : list Z -> nat -> list Z -> list Z) (r : nat) (rk s : list Z) : list Z * list Z :=
  let t := ROUND rk 1%nat s in
  let rk := drop 8 rk in
  match r with
  | O | S O => (t, rk)
  | S r => round_loop ROUND r rk (ROUND rk 0%nat t)
  end.

(** The block as words, with the first round key added. *)
Definition first_words (rk pt : list Z) : list Z :=
  [GETUINT32_T pt .^ word rk 0; GETUINT32_T (drop 4 pt) .^ word rk 1;
   GETUINT32_T (drop 8 pt) .^ word rk 2; GETUINT32_T (drop 12 pt) .^ word rk 3].

Definition rijndaelEncrypt (rk pt : list Z) : list Z :=
  let '(t, rk) := round_loop ROUND_enc 5 rk (first_words rk pt) in
  let '(t0, t1, t2, t3) := (word t 0, word t 1, word t 2, word t 3) in
  PUTUINT32_T ((((TE41 t0 .^ TE42 t1) .^ TE43 t2) .^ TE44 t3) .^ word rk 0) ++
  PUTUINT32_T ((((TE41 t1 .^ TE42 t2) .^ TE43 t3) .^ TE44 t0) .^ word rk 1) ++
  PUTUINT32_T ((((TE41 t2 .^ TE42 t3) .^ TE43 t0) .^ TE44 t1) .^ word rk 2) ++
  PUTUINT32_T ((((TE41 t3 .^ TE42 t0) .^ TE43 t1) .^ TE44 t2) .^ word rk 3).

Definition rijndaelDecrypt (rk ct : list Z) : list Z :=
  let '(t, rk) := round_loop ROUND_dec 5 rk (first_words rk ct) in
  let '(t0, t1, t2, t3) := (word t 0, word t 1, word t 2, word t 3) in
  PUTUINT32_T ((((TD41 t0 .^ TD42 t3) .^ TD43 t2) .^ TD44 t1) .^ word rk 0) ++
  PUTUINT32_T ((((TD41 t1 .^ TD42 t0) .^ TD43 t3) .^ TD44 t2) .^ word rk 1) ++
  PUTUINT32_T ((((TD41 t2 .^ TD42 t1) .^ TD43 t0) .^ TD44 t3) .^ word rk 2) ++
  PUTUINT32_T ((((TD41 t3 .^ TD42 t2) .^ TD43 t1) .^ TD44 t0) .^ word rk 3).

(** ** The wrappers *)

(** A key schedule in memory from [malloc], [None] for [NULL]. *)
Definition aes_encrypt_init (malloc : bool) (key : list Z) (len : Z) : option (list Z) :=
  if negb (len =? 16) then None else if malloc then Some (rijndaelKeySetupEnc key) else None.
Definition aes_decrypt_init (malloc : bool) (key : list Z) (len : Z) : option (list Z) :=
  if negb (len =? 16) then None else if malloc then Some (rijndaelKeySetupDec key) else None.
Definition aes_encrypt (ctx plain : list Z) : list Z := rijndaelEncrypt ctx plain.
Definition aes_decrypt (ctx crypt : list Z) : list Z := rijndaelDecrypt ctx crypt.

(** The returned value and what [out] holds afterwards. *)
Definition aes_128_encrypt_block (malloc : bool) (key inp out : list Z) : Z * list Z :=
  match aes_encrypt_init malloc key 16 with
  | None => (-1, out)
  | Some ctx => (0, aes_encrypt ctx inp)
  end.

(** ** FIPS 197 *)

Module FIPS.
(** Multiplication by x in GF(2)[x] modulo x^8 + x^4 + x^3 + x + 1. *)
Definition xtime (b : Z) : Z := (b << 1) .^ (if Z.testbit b 7 then 0x11b else 0).
Fixpoint xtimes (n : nat) (b : Z) : Z := match n with O => b | S n => xtimes n (xtime b) end.
Definition gmul (a b : Z) : Z :=
  fold_right (fun i r => (if Z.testbit a (Z.of_nat i) then xtimes i b else 0) .^ r) 0 (seq 0 8).

(** The inverse in GF(2^8), as the power 254, and the affine maps. *)
Definition ginv (b : Z) : Z :=
  let sq x := gmul x x in
  let b2 := sq b in let b4 := sq b2 in let b8 := sq b4 in let b16 := sq b8 in let b32 := sq b16 in let b64 := sq b32 in let b128 := sq b64 in
  gmul b2 (gmul b4 (gmul b8 (gmul b16 (gmul b32 (gmul b64 b128))))).
Definition rotl8 (b n : Z) : Z := wrap8 (b << n) .| (b >> (8 - n)).
Definition sbox (b : Z) : Z :=
  let b := ginv b in ((((b .^ rotl8 b 1) .^ rotl8 b 2) .^ rotl8 b 3) .^ rotl8 b 4) .^ 0x63.
Definition inv_sbox (b : Z) : Z := ginv (((rotl8 b 1 .^ rotl8 b 3) .^ rotl8 b 6) .^ 0x05).

(** The state: four columns of four octets. *)
Record col := Col { c0 : Z; c1 : Z; c2 : Z; c3 : Z }.
Record state := St { k0 : col; k1 : col; k2 : col; k3 : col }.

Definition map_col (f : Z -> Z) (c : col) : col := Col (f (c0 c)) (f (c1 c)) (f (c2 c)) (f (c3 c)).
Definition map_cols (f : col -> col) (s : state) : state := St (f (k0 s)) (f (k1 s)) (f (k2 s)) (f (k3 s)).
Definition add_col (a b : col) : col := Col (c0 a .^ c0 b) (c1 a .^ c1 b) (c2 a .^ c2 b) (c3 a .^ c3 b).

Definition sub_bytes : state -> state := map_cols (map_col sbox).
Definition inv_sub_bytes : state -> state := map_cols (map_col inv_sbox).
Definition shift_rows (s : state) : state :=
  let '(St a b c d) := s in
  St (Col (c0 a) (c1 b) (c2 c) (c3 d)) (Col (c0 b) (c1 c) (c2 d) (c3 a))
     (Col (c0 c) (c1 d) (c2 a) (c3 b)) (Col (c0 d) (c1 a) (c2 b) (c3 c)).
Definition inv_shift_rows (s : state) : state :=
  let '(St a b c d) := s in
  St (Col (c0 a) (c1 d) (c2 c) (c3 b)) (Col (c0 b) (c1 a) (c2 d) (c3 c))
     (Col (c0 c) (c1 b) (c2 a) (c3 d)) (Col (c0 d) (c1 c) (c2 b) (c3 a)).

(** The column times a circulant matrix whose first row is [p], [q], [r], [t]. *)
Definition circulant (p q r t : Z) (c : col) : col :=
  let '(Col a b c d) := c in
  Col (((gmul p a .^ gmul q b) .^ gmul r c) .^ gmul t d) (((gmul t a .^ gmul p b) .^ gmul q c) .^ gmul r d)
      (((gmul r a .^ gmul t b) .^ gmul p c) .^ gmul q d) (((gmul q a .^ gmul r b) .^ gmul t c) .^ gmul p d).
Definition mix_columns : state -> state := map_cols (circulant 2 3 1 1).
Definition inv_mix_columns : state -> state := map_cols (circulant 0xe 0xb 0xd 0x9).

Definition add_round_key (s k : state) : state :=
  St (add_col (k0 s) (k0 k)) (add_col (k1 s) (k1 k)) (add_col (k2 s) (k2 k)) (add_col (k3 s) (k3 k)).

(** The key expansion: from a round key to the next one. *)
Definition rcon (i : nat) : Z := xtimes i 1.
Definition rot_word (c : col) : col := Col (c1 c) (c2 c) (c3 c) (c0 c).
Definition next_key (i : nat) (k : state) : state :=
  let a := add_col (k0 k) (add_col (map_col sbox (rot_word (k3 k))) (Col (rcon i) 0 0 0)) in
  let b := add_col (k1 k) a in let c := add_col (k2 k) b in let d := add_col (k3 k) c in St a b c d.
Fixpoint expand (n i : nat) (k : state) : list state :=
  match n with O => [k] | S n => k :: expand n (S i) (next_key i k) end.

Definition of_bytes (l : list Z) : state :=
  let b i := nth i l 0 in
  St (Col (b 0%nat) (b 1%nat) (b 2%nat) (b 3%nat)) (Col (b 4%nat) (b 5%nat) (b 6%nat) (b 7%nat))
     (Col (b 8%nat) (b 9%nat) (b 10%nat) (b 11%nat)) (Col (b 12%nat) (b 13%nat) (b 14%nat) (b 15%nat)).
Definition col_bytes (c : col) : list Z := [c0 c; c1 c; c2 c; c3 c].
Definition to_bytes (s : state) : list Z := col_bytes (k0 s) ++ col_bytes (k1 s) ++ col_bytes (k2 s) ++ col_bytes (k3 s).

(** The rounds, with the keys of the rounds 1 to Nr: the last one has no
    MixColumns. *)
Fixpoint rounds (keys : list state) (s : state) : state :=
  match keys with
  | [] => s
  | [k] => add_round_key (shift_rows (sub_bytes s)) k
  | k :: keys => rounds keys (add_round_key (mix_columns (shift_rows (sub_bytes s))) k)
  end.
Definition cipher (key inp : list Z) : list Z :=
  match expand 10 0 (of_bytes key) with
  | k :: keys => to_bytes (rounds keys (add_round_key (of_bytes inp) k))
  | [] => []
  end.
End FIPS.
Import FIPS.

(** ** Facts about the field and the tables, by exhaustion *)

Definition col_ok (c : col) : Prop := byte_ok (c0 c) /\ byte_ok (c1 c) /\ byte_ok (c2 c) /\ byte_ok (c3 c).
Definition st_ok (s : state) : Prop := col_ok (k0 s) /\ col_ok (k1 s) /\ col_ok (k2 s) /\ col_ok (k3 s).

(** The word of a column. *)
Definition W (c : col) : Z := GETUINT32_T (col_bytes c).

Definition byteb (b : Z) : bool := (0 <=? b) && (b <? 256).
Lemma byteb_spec b : byteb b = true <-> byte_ok b.
Proof. unfold byteb, byte_ok. rewrite andb_true_iff, Z.leb_le, Z.ltb_lt. done. Qed.

(** Everything about an octet that is checked by running through all of them. *)
Definition table_facts (x : Z) : bool :=
  let s := sbox x in let i := inv_sbox x in
  byteb s && byteb i && (inv_sbox s =? x) && (sbox i =? x) && byteb (xtime x) &&
  (tab Te0 x =? W (Col (gmul 2 s) s s (gmul 3 s))) &&
  (tab Td0 x =? W (Col (gmul 0xe i) (gmul 0x9 i) (gmul 0xd i) (gmul 0xb i))) &&
  (tab Td4s x =? i).

Lemma table_facts_hold : forall x, byte_ok x -> table_facts x = true.
Proof. apply byte_forall. vm_compute. reflexivity. Qed.

#[local] Opaque sbox inv_sbox gmul tab.
Ltac table_fact x H := pose proof (table_facts_hold x H) as X; unfold table_facts in X; cbv zeta in X; rewrite !andb_true_iff, !Z.eqb_eq, !byteb_spec in X; destruct X as [[[[[[[? ?] ?] ?] ?] ?] ?] ?].

Lemma sbox_byte x : byte_ok x -> byte_ok (sbox x).
Proof. intros H. table_fact x H. assumption. Qed.
Lemma inv_sbox_byte x : byte_ok x -> byte_ok (inv_sbox x).
Proof. intros H. table_fact x H. assumption. Qed.
Lemma inv_sbox_sbox x : byte_ok x -> inv_sbox (sbox x) = x.
Proof. intros H. table_fact x H. assumption. Qed.
Lemma xtime_byte x : byte_ok x -> byte_ok (xtime x).
Proof. intros H. table_fact x H. assumption. Qed.
Lemma Te0_spec x : byte_ok x -> tab Te0 x = W (Col (gmul 2 (sbox x)) (sbox x) (sbox x) (gmul 3 (sbox x))).
Proof. intros H. table_fact x H. assumption. Qed.
Lemma Td0_spec x : byte_ok x -> tab Td0 x = W (Col (gmul 0xe (inv_sbox x)) (gmul 0x9 (inv_sbox x)) (gmul 0xd (inv_sbox x)) (gmul 0xb (inv_sbox x))).
Proof. intros H. table_fact x H. assumption. Qed.
Lemma Td4s_spec x : byte_ok x -> tab Td4s x = inv_sbox x.
Proof. intros H. table_fact x H. assumption. Qed.


#[local] Transparent sbox inv_sbox gmul tab.

Lemma lxor_byte x y : byte_ok x -> byte_ok y -> byte_ok (x .^ y).
Proof. apply (lxor_bound 8). lia. Qed.
Lemma byte0 : byte_ok 0. Proof. unfold byte_ok. lia. Qed.
Lemma xtimes_byte n x : byte_ok x -> byte_ok (xtimes n x).
Proof. revert x. induction n as [|n IH]; intros x H; [done|]. by apply IH, xtime_byte. Qed.
Lemma gmul_byte a x : byte_ok x -> byte_ok (gmul a x).
Proof.
  intros H. unfold gmul. induction (seq 0 8) as [|i l IH]; cbn [fold_right]; [apply byte0|].
  apply lxor_byte; [|done]. destruct (Z.testbit a _); [by apply xtimes_byte|apply byte0].
Qed.

(** Equalities between exclusive ors of the same terms. *)
Ltac lxor_ac := apply Z.bits_inj'; intros ? _; rewrite ?Z.lxor_spec, ?Z.bits_0; btauto.

(** Multiplication by a constant is linear. *)
Lemma xtime_lxor x y : xtime (x .^ y) = xtime x .^ xtime y.
Proof.
  unfold xtime. rewrite Z.shiftl_lxor, Z.lxor_spec. destruct (Z.testbit x 7), (Z.testbit y 7); cbn [xorb]; lxor_ac.
Qed.
Lemma xtimes_lxor n x y : xtimes n (x .^ y) = xtimes n x .^ xtimes n y.
Proof. revert x y. induction n as [|n IH]; intros x y; [done|]. cbn [xtimes]. by rewrite xtime_lxor, IH. Qed.
Lemma gmul_lxor a x y : gmul a (x .^ y) = gmul a x .^ gmul a y.
Proof.
  unfold gmul. induction (seq 0 8) as [|i l IH]; cbn [fold_right]; [done|]. rewrite IH, xtimes_lxor.
  destruct (Z.testbit a (Z.of_nat i)); lxor_ac.
Qed.
Lemma gmul_1 x : gmul 1 x = x.
Proof. unfold gmul. cbn [seq fold_right]. rewrite !Z.lxor_0_l, Z.lxor_0_r. done. Qed.

Lemma circulant_add p q r t a b : circulant p q r t (add_col a b) = add_col (circulant p q r t a) (circulant p q r t b).
Proof. destruct a, b. unfold circulant, add_col. cbn [c0 c1 c2 c3]. rewrite !gmul_lxor. f_equal; lxor_ac. Qed.

(** The two matrices are inverse to each other. *)
Definition matrix_facts (x : Z) : bool :=
  ((((gmul 0xe (gmul 2 x) .^ gmul 0xb x) .^ gmul 0xd x) .^ gmul 9 (gmul 3 x)) =? x) &&
  ((((gmul 0xe (gmul 3 x) .^ gmul 0xb (gmul 2 x)) .^ gmul 0xd x) .^ gmul 9 x) =? 0) &&
  ((((gmul 0xe x .^ gmul 0xb (gmul 3 x)) .^ gmul 0xd (gmul 2 x)) .^ gmul 9 x) =? 0) &&
  ((((gmul 0xe x .^ gmul 0xb x) .^ gmul 0xd (gmul 3 x)) .^ gmul 9 (gmul 2 x)) =? 0).
Lemma matrix_facts_hold : forall x, byte_ok x -> matrix_facts x = true.
Proof. apply byte_forall. vm_compute. reflexivity. Qed.

Lemma matrix_row a b c d : byte_ok a -> byte_ok b -> byte_ok c -> byte_ok d ->
  (((gmul 0xe (((gmul 2 a .^ gmul 3 b) .^ gmul 1 c) .^ gmul 1 d) .^ gmul 0xb (((gmul 1 a .^ gmul 2 b) .^ gmul 3 c) .^ gmul 1 d))
    .^ gmul 0xd (((gmul 1 a .^ gmul 1 b) .^ gmul 2 c) .^ gmul 3 d)) .^ gmul 9 (((gmul 3 a .^ gmul 1 b) .^ gmul 1 c) .^ gmul 2 d)) = a.
Proof.
  intros Ha Hb Hc Hd. rewrite !gmul_1, !gmul_lxor.
  pose proof (matrix_facts_hold a Ha) as A. pose proof (matrix_facts_hold b Hb) as B.
  pose proof (matrix_facts_hold c Hc) as C. pose proof (matrix_facts_hold d Hd) as D.
  unfold matrix_facts in *. rewrite !andb_true_iff, !Z.eqb_eq in *.
  destruct A as [[[A _] _] _], B as [[[_ B] _] _], C as [[_ C] _], D as [_ D].
  transitivity (((a .^ 0) .^ 0) .^ 0); [|by rewrite !Z.lxor_0_r]. rewrite <- A at 5. rewrite <- B at 1. rewrite <- C at 1. rewrite <- D at 1. lxor_ac.
Qed.

(** ** Words and columns *)

Lemma W_lxor a b : W (add_col a b) = W a .^ W b.
Proof. unfold W, GETUINT32_T. cbn [nth col_bytes add_col c0 c1 c2 c3]. rewrite !Z.shiftl_lxor. lxor_ac. Qed.

Lemma W_arith a b c d : byte_ok a -> byte_ok b -> byte_ok c -> byte_ok d -> W (Col a b c d) = ((a * 256 + b) * 256 + c) * 256 + d.
Proof.
  unfold byte_ok. intros. unfold W, GETUINT32_T. cbn [nth col_bytes c0 c1 c2 c3]. rewrite !Z.shiftl_mul_pow2 by lia.
  rewrite <- (Z.add_0_r (a * 2^24)), (lxor_low 24) by lia. rewrite Z.lxor_0_l.
  replace (a * 2^24 + b * 2^16) with ((a * 256 + b) * 2^16 + 0) by lia. rewrite (lxor_low 16) by lia. rewrite Z.lxor_0_l.
  replace ((a * 256 + b) * 2^16 + c * 2^8) with (((a * 256 + b) * 256 + c) * 2^8 + 0) by lia. rewrite (lxor_low 8) by lia. rewrite Z.lxor_0_l. lia.
Qed.

Lemma W_zero : W (Col 0 0 0 0) = 0. Proof. done. Qed.

Ltac w_arith := intros; unfold col_ok, byte_ok in *; cbn [c0 c1 c2 c3] in *;
  rewrite ?W_arith by (unfold byte_ok; lia); rewrite ?land_ff; unfold wrap8, wrap32; rewrite ?Z.shiftr_div_pow2, ?Z.shiftl_mul_pow2 by lia.

Section Column.
Context (c : col) (H : col_ok c).

Lemma W_byte0 : (W c >> 24) .& 0xff = c0 c.
Proof using H. revert H. destruct c. w_arith. lia. Qed.
Lemma W_byte1 : (W c >> 16) .& 0xff = c1 c.
Proof using H. revert H. destruct c. w_arith. lia. Qed.
Lemma W_byte2 : (W c >> 8) .& 0xff = c2 c.
Proof using H. revert H. destruct c. w_arith. lia. Qed.
Lemma W_byte3 : W c .& 0xff = c3 c.
Proof using H. revert H. destruct c. w_arith. lia. Qed.

Lemma PUT_W : PUTUINT32_T (W c) = col_bytes c.
Proof using H. unfold PUTUINT32_T. revert H. destruct c. w_arith. unfold col_bytes. cbn [c0 c1 c2 c3]. repeat (f_equal; [lia|]). f_equal. lia. Qed.

Lemma rotr8_W : rotr (W c) 8 = W (Col (c3 c) (c0 c) (c1 c) (c2 c)).
Proof using H. revert H. destruct c. unfold rotr. w_arith. rewrite Z.lor_comm, (lor_disjoint_add _ _ 24) by lia. lia. Qed.
Lemma rotr16_W : rotr (W c) 16 = W (Col (c2 c) (c3 c) (c0 c) (c1 c)).
Proof using H. revert H. destruct c. unfold rotr. w_arith. rewrite Z.lor_comm, (lor_disjoint_add _ _ 16) by lia. lia. Qed.
Lemma rotr24_W : rotr (W c) 24 = W (Col (c1 c) (c2 c) (c3 c) (c0 c)).
Proof using H. revert H. destruct c. unfold rotr. w_arith. rewrite Z.lor_comm, (lor_disjoint_add _ _ 8) by lia. lia. Qed.

(** One octet of a word, in place and moved. *)
Lemma W_mask0 : wrap32 (W c << 8) .& 0xff000000 = W (Col (c1 c) 0 0 0).
Proof using H. revert H. destruct c. w_arith. rewrite (land_himask _ 32 24) by lia. lia. Qed.
Lemma W_mask1 : W c .& 0x00ff0000 = W (Col 0 (c1 c) 0 0).
Proof using H. revert H. destruct c. w_arith. rewrite (land_himask _ 24 16) by lia. lia. Qed.
Lemma W_mask2 : W c .& 0x0000ff00 = W (Col 0 0 (c2 c) 0).
Proof using H. revert H. destruct c. w_arith. rewrite (land_himask _ 16 8) by lia. lia. Qed.
Lemma W_mask3 : (W c >> 8) .& 0x000000ff = W (Col 0 0 0 (c2 c)).
Proof using H. revert H. destruct c. w_arith. lia. Qed.
End Column.

(** ** The macros on words of columns *)

Definition te (x : Z) : col := let s := sbox x in Col (gmul 2 s) s s (gmul 3 s).
Definition td (x : Z) : col := let s := inv_sbox x in Col (gmul 0xe s) (gmul 0x9 s) (gmul 0xd s) (gmul 0xb s).

Lemma te_ok x : byte_ok x -> col_ok (te x).
Proof. intros H. pose proof (sbox_byte x H). split; [|split; [|split]]; cbn [te c0 c1 c2 c3]; first [assumption | apply gmul_byte; assumption]. Qed.
Lemma td_ok x : byte_ok x -> col_ok (td x).
Proof. intros H. pose proof (inv_sbox_byte x H). split; [|split; [|split]]; cbn [td c0 c1 c2 c3]; apply gmul_byte; assumption. Qed.
Lemma Te0_W x : byte_ok x -> tab Te0 x = W (te x).
Proof. exact (Te0_spec x). Qed.
Lemma Td0_W x : byte_ok x -> tab Td0 x = W (td x).
Proof. exact (Td0_spec x). Qed.

Section Macros.
Context (c : col) (H : col_ok c).
#[local] Abbreviation s0 := (sbox (c0 c)).
#[local] Abbreviation s1 := (sbox (c1 c)).
#[local] Abbreviation s2 := (sbox (c2 c)).
#[local] Abbreviation s3 := (sbox (c3 c)).
#[local] Abbreviation i0 := (inv_sbox (c0 c)).
#[local] Abbreviation i1 := (inv_sbox (c1 c)).
#[local] Abbreviation i2 := (inv_sbox (c2 c)).
#[local] Abbreviation i3 := (inv_sbox (c3 c)).

Ltac macro := destruct H as (? & ? & ? & ?);
  rewrite ?W_byte0, ?W_byte1, ?W_byte2, ?W_byte3 by done;
  first [rewrite Te0_W by done | rewrite Td0_W by done | rewrite Td4s_spec by done];
  first [rewrite rotr8_W | rewrite rotr16_W | rewrite rotr24_W | rewrite W_mask0 | rewrite W_mask1 | rewrite W_mask2 | rewrite W_mask3 | idtac];
  auto using te_ok, td_ok.

Lemma TE0_W : TE0 (W c) = W (Col (gmul 2 s0) s0 s0 (gmul 3 s0)).
Proof using H. unfold TE0. macro. Qed.
Lemma TE1_W : TE1 (W c) = W (Col (gmul 3 s1) (gmul 2 s1) s1 s1).
Proof using H. unfold TE1. macro. Qed.
Lemma TE2_W : TE2 (W c) = W (Col s2 (gmul 3 s2) (gmul 2 s2) s2).
Proof using H. unfold TE2. macro. Qed.
Lemma TE3_W : TE3 (W c) = W (Col s3 s3 (gmul 3 s3) (gmul 2 s3)).
Proof using H. unfold TE3. macro. Qed.
Lemma TE41_W : TE41 (W c) = W (Col s0 0 0 0).
Proof using H. unfold TE41. macro. Qed.
Lemma TE42_W : TE42 (W c) = W (Col 0 s1 0 0).
Proof using H. unfold TE42. macro. Qed.
Lemma TE43_W : TE43 (W c) = W (Col 0 0 s2 0).
Proof using H. unfold TE43. macro. Qed.
Lemma TE44_W : TE44 (W c) = W (Col 0 0 0 s3).
Proof using H. unfold TE44. macro. Qed.
Lemma TE421_W : TE421 (W c) = W (Col s1 0 0 0).
Proof using H. unfold TE421. macro. Qed.
Lemma TE432_W : TE432 (W c) = W (Col 0 s2 0 0).
Proof using H. unfold TE432. macro. Qed.
Lemma TE443_W : TE443 (W c) = W (Col 0 0 s3 0).
Proof using H. unfold TE443. macro. Qed.
Lemma TE414_W : TE414 (W c) = W (Col 0 0 0 s0).
Proof using H. unfold TE414. macro. Qed.
Lemma TD0_W : TD0 (W c) = W (Col (gmul 0xe i0) (gmul 0x9 i0) (gmul 0xd i0) (gmul 0xb i0)).
Proof using H. unfold TD0. macro. Qed.
Lemma TD1_W : TD1 (W c) = W (Col (gmul 0xb i1) (gmul 0xe i1) (gmul 0x9 i1) (gmul 0xd i1)).
Proof using H. unfold TD1. macro. Qed.
Lemma TD2_W : TD2 (W c) = W (Col (gmul 0xd i2) (gmul 0xb i2) (gmul 0xe i2) (gmul 0x9 i2)).
Proof using H. unfold TD2. macro. Qed.
Lemma TD3_W : TD3 (W c) = W (Col (gmul 0x9 i3) (gmul 0xd i3) (gmul 0xb i3) (gmul 0xe i3)).
Proof using H. unfold TD3. macro. Qed.

Lemma W_place0 x : byte_ok x -> wrap32 (x << 24) = W (Col x 0 0 0).
Proof using. w_arith. lia. Qed.
Lemma W_place1 x : byte_ok x -> x << 16 = W (Col 0 x 0 0).
Proof using. w_arith. lia. Qed.
Lemma W_place2 x : byte_ok x -> x << 8 = W (Col 0 0 x 0).
Proof using. w_arith. lia. Qed.
Lemma W_place3 x : byte_ok x -> x = W (Col 0 0 0 x).
Proof using. w_arith. lia. Qed.

Lemma TD41_W : TD41 (W c) = W (Col i0 0 0 0).
Proof using H. unfold TD41. macro. apply W_place0. by apply inv_sbox_byte. Qed.
Lemma TD42_W : TD42 (W c) = W (Col 0 i1 0 0).
Proof using H. unfold TD42. macro. apply W_place1. by apply inv_sbox_byte. Qed.
Lemma TD43_W : TD43 (W c) = W (Col 0 0 i2 0).
Proof using H. unfold TD43. macro. apply W_place2. by apply inv_sbox_byte. Qed.
Lemma TD44_W : TD44 (W c) = W (Col 0 0 0 i3).
Proof using H. unfold TD44. destruct H as (? & ? & ? & ?). rewrite W_byte3, Td4s_spec by assumption. apply W_place3, inv_sbox_byte. assumption. Qed.

(** The word of a round key, with InvMixColumns. *)
Lemma TE4_spec x : byte_ok x -> TE4 x = sbox x.
Proof using. intros Hx. unfold TE4. rewrite Te0_W, W_mask3 by auto using te_ok. cbn [te c2]. symmetry. apply W_place3, sbox_byte. assumption. Qed.
Lemma Td0_sbox x : byte_ok x -> tab Td0 (sbox x .& 0xff) = W (Col (gmul 0xe x) (gmul 0x9 x) (gmul 0xd x) (gmul 0xb x)).
Proof using.
  intros Hx. pose proof (sbox_byte x Hx) as Hs. rewrite land_ff, Z.mod_small by done. rewrite Td0_W by done. unfold td. by rewrite inv_sbox_sbox.
Qed.

Lemma inv_mix_word_W : inv_mix_word (W c) = W (circulant 0xe 0xb 0xd 0x9 c).
Proof using H.
  unfold inv_mix_word. rewrite W_byte1, W_byte2, W_byte3 by done.
  assert (E : W c >> 24 = c0 c).
  { rewrite <- (W_byte0 c H), land_ff. revert H. clear. destruct c. w_arith. lia. }
  rewrite E. destruct H as (H0 & H1 & H2 & H3). rewrite !TE4_spec by done. unfold TD0_, TD1_, TD2_, TD3_. rewrite !Td0_sbox by done.
  rewrite rotr8_W, rotr16_W, rotr24_W, <- !W_lxor by (split; [|split; [|split]]; apply gmul_byte; assumption). f_equal. by destruct c.
Qed.
End Macros.

(** ** States and round keys as words *)

Definition words (s : state) : list Z := [W (k0 s); W (k1 s); W (k2 s); W (k3 s)].

Lemma add_col_ok a b : col_ok a -> col_ok b -> col_ok (add_col a b).
Proof. intros (? & ? & ? & ?) (? & ? & ? & ?). split; [|split; [|split]]; apply lxor_byte; assumption. Qed.
Lemma map_col_ok f c : (forall x, byte_ok x -> byte_ok (f x)) -> col_ok c -> col_ok (map_col f c).
Proof. intros Hf (? & ? & ? & ?). split; [|split; [|split]]; apply Hf; assumption. Qed.
Lemma circulant_ok p q r t c : col_ok c -> col_ok (circulant p q r t c).
Proof. destruct c. intros (? & ? & ? & ?). split; [|split; [|split]]; cbn [c0 c1 c2 c3 circulant] in *; repeat match goal with |- byte_ok (_ .^ _) => apply lxor_byte end; apply gmul_byte; assumption. Qed.

Lemma add_round_key_ok s k : st_ok s -> st_ok k -> st_ok (add_round_key s k).
Proof. intros (? & ? & ? & ?) (? & ? & ? & ?). split; [|split; [|split]]; apply add_col_ok; assumption. Qed.
Lemma map_cols_ok f s : (forall c, col_ok c -> col_ok (f c)) -> st_ok s -> st_ok (map_cols f s).
Proof. intros Hf (? & ? & ? & ?). split; [|split; [|split]]; apply Hf; assumption. Qed.
Lemma sub_bytes_ok s : st_ok s -> st_ok (sub_bytes s).
Proof. apply map_cols_ok. intros c. apply map_col_ok, sbox_byte. Qed.
Lemma inv_sub_bytes_ok s : st_ok s -> st_ok (inv_sub_bytes s).
Proof. apply map_cols_ok. intros c. apply map_col_ok, inv_sbox_byte. Qed.
Lemma shift_rows_ok s : st_ok s -> st_ok (shift_rows s).
Proof. destruct s as [a b c d]. unfold st_ok, col_ok. cbn [k0 k1 k2 k3 c0 c1 c2 c3 shift_rows]. tauto. Qed.
Lemma inv_shift_rows_ok s : st_ok s -> st_ok (inv_shift_rows s).
Proof. destruct s as [a b c d]. unfold st_ok, col_ok. cbn [k0 k1 k2 k3 c0 c1 c2 c3 inv_shift_rows]. tauto. Qed.
Lemma mix_columns_ok s : st_ok s -> st_ok (mix_columns s).
Proof. apply map_cols_ok. intros c. apply circulant_ok. Qed.
Lemma inv_mix_columns_ok s : st_ok s -> st_ok (inv_mix_columns s).
Proof. apply map_cols_ok. intros c. apply circulant_ok. Qed.

Lemma nth_bytes_ok l i : bytes_ok l -> byte_ok (nth i l 0).
Proof. intros H. revert i. induction H as [|x l Hx _ IH]; intros [|i]; cbn [nth]; [apply byte0|apply byte0|done|apply IH]. Qed.
Lemma of_bytes_ok l : bytes_ok l -> st_ok (of_bytes l).
Proof. intros H. split; [|split; [|split]]; (split; [|split; [|split]]); by apply nth_bytes_ok. Qed.

Lemma GET_drop n l : GETUINT32_T (drop n l) = W (Col (nth n l 0) (nth (n + 1) l 0) (nth (n + 2) l 0) (nth (n + 3) l 0)).
Proof. unfold W, GETUINT32_T. cbn [col_bytes c0 c1 c2 c3 nth]. rewrite !nth_skipn. by rewrite Nat.add_0_r. Qed.

Lemma words_of_bytes l : [GETUINT32_T l; GETUINT32_T (drop 4 l); GETUINT32_T (drop 8 l); GETUINT32_T (drop 12 l)] = words (of_bytes l).
Proof. by rewrite !GET_drop. Qed.

Lemma first_words_spec l k rest : first_words (words k ++ rest) l = words (add_round_key (of_bytes l) k).
Proof. unfold first_words. rewrite !GET_drop. unfold words. cbn [add_round_key k0 k1 k2 k3]. rewrite !W_lxor. done. Qed.

Lemma PUT_words s : st_ok s -> PUTUINT32_T (W (k0 s)) ++ PUTUINT32_T (W (k1 s)) ++ PUTUINT32_T (W (k2 s)) ++ PUTUINT32_T (W (k3 s)) = to_bytes s.
Proof. intros (? & ? & ? & ?). by rewrite !PUT_W. Qed.

Lemma PUT_words_list s : st_ok s -> concat (map PUTUINT32_T (words s)) = to_bytes s.
Proof. intros H. rewrite <- PUT_words by done. unfold words. cbn [map concat]. by rewrite app_nil_r. Qed.

Lemma to_of_bytes l : length l = 16%nat -> to_bytes (of_bytes l) = l.
Proof. intros H. do 16 (destruct l as [|? l]; [done|]). by destruct l. Qed.
Lemma of_to_bytes s : of_bytes (to_bytes s) = s.
Proof. by destruct s as [[] [] [] []]. Qed.
Lemma to_bytes_ok s : st_ok s -> bytes_ok (to_bytes s) /\ length (to_bytes s) = 16%nat.
Proof. intros ((? & ? & ? & ?) & (? & ? & ? & ?) & (? & ? & ? & ?) & (? & ? & ? & ?)). split; [|done].
  unfold to_bytes, col_bytes. cbn [app]. repeat (apply Forall_cons_2; [assumption|]). apply Forall_nil_2. Qed.

(** ** The key schedule for encryption *)

Lemma RCON_W i : (i < 10)%nat -> RCON (Z.of_nat i) = W (Col (rcon i) 0 0 0).
Proof. intros H. do 10 (destruct i as [|i]; [vm_compute; reflexivity|]). lia. Qed.
Lemma rcon_byte i : byte_ok (rcon i).
Proof. apply xtimes_byte. unfold byte_ok. lia. Qed.

Lemma next_key_ok i k : st_ok k -> st_ok (next_key i k).
Proof.
  intros (? & ? & ? & (? & ? & ? & ?)).
  assert (col_ok (Col (rcon i) 0 0 0)) by (pose proof (rcon_byte i); pose proof byte0; split; [|split; [|split]]; assumption).
  assert (col_ok (map_col sbox (rot_word (k3 k)))) by (apply map_col_ok; [apply sbox_byte|]; split; [|split; [|split]]; assumption).
  assert (col_ok (k3 k)) by (split; [|split; [|split]]; assumption).
  split; [|split; [|split]]; repeat apply add_col_ok; assumption.
Qed.

Lemma add_col_zero_l c : add_col (Col 0 0 0 0) c = c.
Proof. destruct c. unfold add_col. cbn [c0 c1 c2 c3]. by rewrite !Z.lxor_0_l. Qed.

Lemma key_loop_spec n i k : st_ok k -> (i + n <= 10)%nat ->
  words k ++ key_loop n (Z.of_nat i) (words k) = concat (map words (expand n i k)) /\ Forall st_ok (expand n i k).
Proof.
  revert i k. induction n as [|n IH]; intros i k Hk L; cbn [key_loop expand map concat].
  - split; [by rewrite !app_nil_r|by constructor].
  - destruct (IH (S i) (next_key i k)) as [E F]; [by apply next_key_ok|lia|]. split; [|by constructor]. rewrite <- E. f_equal.
    rewrite Nat2Z.inj_succ, <- Z.add_1_r. destruct Hk as (_ & _ & _ & H3).
    assert (T : [((((word (words k) 0 .^ TE421 (W (k3 k))) .^ TE432 (W (k3 k))) .^ TE443 (W (k3 k))) .^ TE414 (W (k3 k))) .^ RCON (Z.of_nat i)]
      = [W (k0 (next_key i k))]).
    { rewrite TE421_W, TE432_W, TE443_W, TE414_W, RCON_W by (lia || assumption). cbn [nth words]. rewrite <- !W_lxor. do 2 f_equal.
      destruct (k3 k) eqn:E3, (k0 k) eqn:E0. unfold next_key, add_col, map_col, rot_word. cbn [k0 c0 c1 c2 c3]. rewrite E0, E3. cbn [c0 c1 c2 c3]. f_equal; lxor_ac. }
    injection T as T. change (word (words k) 0) with (W (k0 k)). change (word (words k) 3) with (W (k3 k)). rewrite T. change (word (words k) 1) with (W (k1 k)). change (word (words k) 2) with (W (k2 k)).
    rewrite <- !W_lxor. done.
Qed.

Lemma setup_enc_spec key : bytes_ok key ->
  rijndaelKeySetupEnc key = concat (map words (expand 10 0 (of_bytes key))) /\ Forall st_ok (expand 10 0 (of_bytes key)).
Proof. intros H. unfold rijndaelKeySetupEnc. rewrite words_of_bytes. apply (key_loop_spec 10 0); [by apply of_bytes_ok|lia]. Qed.

(** ** The key schedule for decryption *)

Lemma list_as_map (l : list Z) : l = map (fun i => nth i l 0) (seq 0 (length l)).
Proof.
  induction l as [|x l IH]; [done|]. cbn [length seq map nth]. f_equal. rewrite <- seq_shift, map_map. exact IH.
Qed.

(** The two loops of [rijndaelKeySetupDec] on any 44 words. *)
Definition dec_order : list nat :=
  [40; 41; 42; 43; 36; 37; 38; 39; 32; 33; 34; 35; 28; 29; 30; 31; 24; 25; 26; 27; 20; 21; 22; 23;
   16; 17; 18; 19; 12; 13; 14; 15; 8; 9; 10; 11; 4; 5; 6; 7; 0; 1; 2; 3]%nat.
Lemma swap_loop_spec (f : nat -> Z) :
  fold_left (fun rk i => swap_words rk i (40 - i)) [0; 4; 8; 12; 16]%nat (map f (seq 0 44)) = map f dec_order.
Proof. vm_compute. reflexivity. Qed.
Lemma mix_loop_spec (f : nat -> Z) (g : Z -> Z) :
  fold_left (fun rk k => <[k := g (word rk k)]> rk) (seq 4 36) (map f (seq 0 44)) =
  map f (seq 0 4) ++ map (fun i => g (f i)) (seq 4 36) ++ map f (seq 40 4).
Proof. vm_compute. reflexivity. Qed.

(** The round keys of the equivalent inverse cipher. *)
Definition dec_keys (keys : list state) : list state :=
  match keys with
  | [a0; a1; a2; a3; a4; a5; a6; a7; a8; a9; a10] => a10 :: map inv_mix_columns [a9; a8; a7; a6; a5; a4; a3; a2; a1] ++ [a0]
  | _ => []
  end.

Lemma inv_mix_words s : st_ok s -> map inv_mix_word (words s) = words (inv_mix_columns s).
Proof. intros (? & ? & ? & ?). unfold words. cbn [map]. by rewrite !inv_mix_word_W. Qed.

Lemma expand_length n i k : length (expand n i k) = S n.
Proof. revert i k. induction n as [|n IH]; intros i k; [done|]. cbn [expand length]. by rewrite IH. Qed.

Lemma setup_dec_spec key : bytes_ok key ->
  rijndaelKeySetupDec key = concat (map words (dec_keys (expand 10 0 (of_bytes key)))).
Proof.
  intros H. unfold rijndaelKeySetupDec. destruct (setup_enc_spec key H) as [-> F].
  pose proof (expand_length 10 0 (of_bytes key)) as L. destruct (expand 10 0 (of_bytes key)) as [|a0 l]; [done|].
  do 10 (destruct l as [|? l]; [done|]). destruct l; [|done]. clear L.
  rewrite (list_as_map (concat _)). change (length (concat _)) with 44%nat. rewrite swap_loop_spec.
  rewrite (list_as_map (map _ dec_order)). change (length (map _ dec_order)) with 44%nat. rewrite mix_loop_spec.
  repeat (apply Forall_cons in F as [? F]). cbn [dec_keys map concat app]. rewrite <- !inv_mix_words by assumption. reflexivity.
Qed.

(** ** The rounds *)

Definition enc_step (s k : state) : state := add_round_key (mix_columns (shift_rows (sub_bytes s))) k.
Definition dec_step (s k : state) : state := add_round_key (inv_mix_columns (inv_shift_rows (inv_sub_bytes s))) k.

Lemma enc_step_ok s k : st_ok s -> st_ok k -> st_ok (enc_step s k).
Proof. intros. apply add_round_key_ok; [|done]. by apply mix_columns_ok, shift_rows_ok, sub_bytes_ok. Qed.
Lemma dec_step_ok s k : st_ok s -> st_ok k -> st_ok (dec_step s k).
Proof. intros. apply add_round_key_ok; [|done]. by apply inv_mix_columns_ok, inv_shift_rows_ok, inv_sub_bytes_ok. Qed.

Lemma nth_words rk i k rest j : drop (4 * i) rk = words k ++ rest -> (j < 4)%nat -> nth (4 * i + j) rk 0 = nth j (words k) 0.
Proof. intros E H. rewrite <- nth_skipn, E. by rewrite app_nth1. Qed.

Lemma ROUND_enc_spec rk i k rest s : drop (4 * i) rk = words k ++ rest -> st_ok s ->
  ROUND_enc rk i (words s) = words (enc_step s k).
Proof.
  intros E (H0 & H1 & H2 & H3). unfold ROUND_enc. rewrite <- (Nat.add_0_r (4 * i)) at 1. rewrite !(nth_words rk i k rest) by (done || lia).
  cbn [nth words]. rewrite !TE0_W, !TE1_W, !TE2_W, !TE3_W, <- !W_lxor by assumption.
  destruct s as [[] [] [] []], k as [[] [] [] []]. unfold words, enc_step. cbn [k0 k1 k2 k3 add_round_key mix_columns sub_bytes map_cols map_col shift_rows c0 c1 c2 c3 circulant].
  rewrite !gmul_1. reflexivity.
Qed.

Lemma ROUND_dec_spec rk i k rest s : drop (4 * i) rk = words k ++ rest -> st_ok s ->
  ROUND_dec rk i (words s) = words (dec_step s k).
Proof.
  intros E (H0 & H1 & H2 & H3). unfold ROUND_dec. rewrite <- (Nat.add_0_r (4 * i)) at 1. rewrite !(nth_words rk i k rest) by (done || lia).
  cbn [nth words]. rewrite !TD0_W, !TD1_W, !TD2_W, !TD3_W, <- !W_lxor by assumption.
  destruct s as [[] [] [] []], k as [[] [] [] []]. unfold words, dec_step. cbn [k0 k1 k2 k3 add_round_key inv_mix_columns inv_sub_bytes map_cols map_col inv_shift_rows c0 c1 c2 c3 circulant].
  reflexivity.
Qed.

Section Loop.
Context (ROUND : list Z -> nat -> list Z -> list Z) (f : state -> state -> state).
Context (ROUND_spec : forall rk i k rest s, drop (4 * i) rk = words k ++ rest -> st_ok s -> ROUND rk i (words s) = words (f s k)).
Context (f_ok : forall s k, st_ok s -> st_ok k -> st_ok (f s k)).

(** With [r] iterations, the keys of [2 r - 1] rounds are used. *)
Lemma round_loop_spec r ks ka rest s : length ks = (2 * r + 1)%nat -> st_ok s -> Forall st_ok ks ->
  round_loop ROUND (S r) (words ka ++ concat (map words ks) ++ rest) (words s) = (words (fold_left f ks s), rest).
Proof using ROUND_spec f_ok.
  revert ks ka s. induction r as [|r IH]; intros ks ka s L Hs F.
  - destruct ks as [|k [|]]; try done. cbn [round_loop fold_left map concat]. rewrite app_nil_r. by rewrite (ROUND_spec _ 1 k rest).
  - destruct ks as [|k [|k' ks]]; cbn [length] in L; [lia|lia|]. apply Forall_cons in F as [F1 F]. apply Forall_cons in F as [F2 F].
    change (round_loop ROUND (S (S r)) ?a ?b) with (round_loop ROUND (S r) (drop 8 a) (ROUND (drop 8 a) 0%nat (ROUND a 1%nat b))).
    cbn [map concat fold_left]. rewrite <- !(assoc_L (++)).
    rewrite (ROUND_spec _ 1 k (words k' ++ concat (map words ks) ++ rest)) by done.
    change (drop 8 (words ka ++ words k ++ ?a)) with a.
    rewrite (ROUND_spec _ 0 k' (concat (map words ks) ++ rest)) by auto. apply IH; [lia|auto|done].
Qed.
End Loop.

Lemma rounds_app ks k s : rounds (ks ++ [k]) s = add_round_key (shift_rows (sub_bytes (fold_left enc_step ks s))) k.
Proof.
  revert s. induction ks as [|a ks IH]; intros s; [done|]. cbn [app fold_left]. rewrite <- IH.
  destruct (ks ++ [k]) eqn:E; [by destruct ks|]. done.
Qed.

Lemma final_words t k : st_ok t -> st_ok k ->
  [(((TE41 (W (k0 t)) .^ TE42 (W (k1 t))) .^ TE43 (W (k2 t))) .^ TE44 (W (k3 t))) .^ W (k0 k);
   (((TE41 (W (k1 t)) .^ TE42 (W (k2 t))) .^ TE43 (W (k3 t))) .^ TE44 (W (k0 t))) .^ W (k1 k);
   (((TE41 (W (k2 t)) .^ TE42 (W (k3 t))) .^ TE43 (W (k0 t))) .^ TE44 (W (k1 t))) .^ W (k2 k);
   (((TE41 (W (k3 t)) .^ TE42 (W (k0 t))) .^ TE43 (W (k1 t))) .^ TE44 (W (k2 t))) .^ W (k3 k)] =
  words (add_round_key (shift_rows (sub_bytes t)) k).
Proof.
  intros (? & ? & ? & ?) _. rewrite !TE41_W, !TE42_W, !TE43_W, !TE44_W, <- !W_lxor by assumption.
  destruct t as [[] [] [] []], k as [[] [] [] []]. unfold words, add_col. cbn [k0 k1 k2 k3 add_round_key sub_bytes map_cols map_col shift_rows c0 c1 c2 c3].
  unfold add_col. cbn [c0 c1 c2 c3]. rewrite !Z.lxor_0_l, !Z.lxor_0_r. reflexivity.
Qed.

Lemma final_words_dec t k : st_ok t -> st_ok k ->
  [(((TD41 (W (k0 t)) .^ TD42 (W (k3 t))) .^ TD43 (W (k2 t))) .^ TD44 (W (k1 t))) .^ W (k0 k);
   (((TD41 (W (k1 t)) .^ TD42 (W (k0 t))) .^ TD43 (W (k3 t))) .^ TD44 (W (k2 t))) .^ W (k1 k);
   (((TD41 (W (k2 t)) .^ TD42 (W (k1 t))) .^ TD43 (W (k0 t))) .^ TD44 (W (k3 t))) .^ W (k2 k);
   (((TD41 (W (k3 t)) .^ TD42 (W (k2 t))) .^ TD43 (W (k1 t))) .^ TD44 (W (k0 t))) .^ W (k3 k)] =
  words (add_round_key (inv_shift_rows (inv_sub_bytes t)) k).
Proof.
  intros (? & ? & ? & ?) _. rewrite !TD41_W, !TD42_W, !TD43_W, !TD44_W, <- !W_lxor by assumption.
  destruct t as [[] [] [] []], k as [[] [] [] []]. unfold words, add_col. cbn [k0 k1 k2 k3 add_round_key inv_sub_bytes map_cols map_col inv_shift_rows c0 c1 c2 c3].
  unfold add_col. cbn [c0 c1 c2 c3]. rewrite !Z.lxor_0_l, !Z.lxor_0_r. reflexivity.
Qed.

Lemma fold_steps_ok f ks s : (forall s k, st_ok s -> st_ok k -> st_ok (f s k)) -> st_ok s -> Forall st_ok ks -> st_ok (fold_left f ks s).
Proof. intros Hf Hs F. revert s Hs. induction F as [|k ks Hk _ IH]; intros s Hs; [done|]. apply IH. by apply Hf. Qed.

(** The round keys as the first, the nine in the middle and the last. *)
Lemma keys_split key : bytes_ok key -> exists a mid z,
  expand 10 0 (of_bytes key) = a :: mid ++ [z] /\ length mid = 9%nat /\ st_ok a /\ Forall st_ok mid /\ st_ok z /\
  rijndaelKeySetupEnc key = words a ++ concat (map words mid) ++ words z /\
  rijndaelKeySetupDec key = words z ++ concat (map words (map inv_mix_columns (rev mid))) ++ words a.
Proof.
  intros H. pose proof (setup_dec_spec key H) as D. destruct (setup_enc_spec key H) as [E F]. rewrite E, D. clear E D.
  pose proof (expand_length 10 0 (of_bytes key)) as L. destruct (expand 10 0 (of_bytes key)) as [|a l]; [done|].
  do 10 (destruct l as [|? l]; [done|]). destruct l; [|done]. clear L.
  repeat (apply Forall_cons in F as [? F]). eexists a, [_; _; _; _; _; _; _; _; _], _. split; [reflexivity|].
  do 2 (split; [done|]). split; [repeat (apply Forall_cons_2; [assumption|]); apply Forall_nil_2|]. split; [assumption|]. split; reflexivity.
Qed.

Lemma encrypt_states a mid z pt : length mid = 9%nat -> st_ok a -> Forall st_ok mid -> st_ok z -> bytes_ok pt ->
  rijndaelEncrypt (words a ++ concat (map words mid) ++ words z) pt =
  to_bytes (add_round_key (shift_rows (sub_bytes (fold_left enc_step mid (add_round_key (of_bytes pt) a)))) z).
Proof.
  intros L Ha Hm Hz Hp. unfold rijndaelEncrypt. rewrite first_words_spec.
  assert (S0 : st_ok (add_round_key (of_bytes pt) a)) by (apply add_round_key_ok; [by apply of_bytes_ok|done]).
  rewrite (round_loop_spec ROUND_enc enc_step ROUND_enc_spec enc_step_ok 4 mid a (words z)) by done.
  pose proof (fold_steps_ok enc_step mid _ enc_step_ok S0 Hm) as T. pose proof (final_words _ z T Hz) as F.
  rewrite <- PUT_words_list by (apply add_round_key_ok; [by apply shift_rows_ok, sub_bytes_ok|done]). rewrite <- F. cbn [map concat words nth]. by rewrite app_nil_r.
Qed.

Lemma decrypt_states a mid z ct : length mid = 9%nat -> st_ok a -> Forall st_ok mid -> st_ok z -> bytes_ok ct ->
  rijndaelDecrypt (words z ++ concat (map words mid) ++ words a) ct =
  to_bytes (add_round_key (inv_shift_rows (inv_sub_bytes (fold_left dec_step mid (add_round_key (of_bytes ct) z)))) a).
Proof.
  intros L Ha Hm Hz Hp. unfold rijndaelDecrypt. rewrite first_words_spec.
  assert (S0 : st_ok (add_round_key (of_bytes ct) z)) by (apply add_round_key_ok; [by apply of_bytes_ok|done]).
  rewrite (round_loop_spec ROUND_dec dec_step ROUND_dec_spec dec_step_ok 4 mid z (words a)) by done.
  pose proof (fold_steps_ok dec_step mid _ dec_step_ok S0 Hm) as T. pose proof (final_words_dec _ a T Ha) as F.
  rewrite <- PUT_words_list by (apply add_round_key_ok; [by apply inv_shift_rows_ok, inv_sub_bytes_ok|done]). rewrite <- F. cbn [map concat words nth]. by rewrite app_nil_r.
Qed.

(** ** The inverse of each step *)

Lemma sub_shift_inv s : st_ok s -> inv_shift_rows (inv_sub_bytes (shift_rows (sub_bytes s))) = s.
Proof.
  destruct s as [[] [] [] []]. intros ((? & ? & ? & ?) & (? & ? & ? & ?) & (? & ? & ? & ?) & (? & ? & ? & ?)).
  cbn [k0 k1 k2 k3 c0 c1 c2 c3] in *.
  cbn [k0 k1 k2 k3 inv_sub_bytes sub_bytes map_cols map_col inv_shift_rows shift_rows c0 c1 c2 c3]. by rewrite !inv_sbox_sbox by assumption.
Qed.

Lemma add_round_key_inv s k : add_round_key (add_round_key s k) k = s.
Proof.
  destruct s as [[] [] [] []], k as [[] [] [] []]. unfold add_round_key, add_col. cbn [k0 k1 k2 k3 c0 c1 c2 c3].
  by rewrite !Z.lxor_assoc, !Z.lxor_nilpotent, !Z.lxor_0_r.
Qed.

Lemma lxor_rot w x y z : ((w .^ x) .^ y) .^ z = ((x .^ y) .^ z) .^ w.
Proof. lxor_ac. Qed.
Lemma lxor_rot2 w x y z : ((w .^ x) .^ y) .^ z = ((y .^ z) .^ w) .^ x.
Proof. lxor_ac. Qed.
Lemma lxor_rot3 w x y z : ((w .^ x) .^ y) .^ z = ((z .^ w) .^ x) .^ y.
Proof. lxor_ac. Qed.

(** The rows of a circulant matrix are rotations of the first one. *)
#[local] Opaque gmul.
Ltac rotation := first [reflexivity | apply lxor_rot | apply lxor_rot2 | apply lxor_rot3].
Lemma mix_col_inv c : col_ok c -> circulant 0xe 0xb 0xd 0x9 (circulant 2 3 1 1 c) = c.
Proof.
  destruct c as [a b c d]. intros (Ha & Hb & Hc & Hd). cbn [c0 c1 c2 c3] in *. unfold circulant. f_equal.
  - by apply matrix_row.
  - rewrite lxor_rot. etransitivity; [|apply (matrix_row b c d a); assumption]. f_equal; [f_equal; [f_equal|]|]; f_equal; rotation.
  - rewrite lxor_rot2. etransitivity; [|apply (matrix_row c d a b); assumption]. f_equal; [f_equal; [f_equal|]|]; f_equal; rotation.
  - rewrite lxor_rot3. etransitivity; [|apply (matrix_row d a b c); assumption]. f_equal; [f_equal; [f_equal|]|]; f_equal; rotation.
Qed.

#[local] Transparent gmul.

Lemma mix_inv s : st_ok s -> inv_mix_columns (mix_columns s) = s.
Proof. destruct s. intros (? & ? & ? & ?). unfold inv_mix_columns, mix_columns, map_cols. cbn [k0 k1 k2 k3] in *. by rewrite !mix_col_inv. Qed.

Lemma inv_mix_add s k : inv_mix_columns (add_round_key s k) = add_round_key (inv_mix_columns s) (inv_mix_columns k).
Proof. unfold inv_mix_columns, add_round_key, map_cols. cbn [k0 k1 k2 k3]. by rewrite !circulant_add. Qed.

#[local] Opaque sub_bytes inv_sub_bytes shift_rows inv_shift_rows mix_columns inv_mix_columns add_round_key.

Lemma dec_enc_step x k : st_ok x -> st_ok k ->
  dec_step (shift_rows (sub_bytes (enc_step x k))) (inv_mix_columns k) = shift_rows (sub_bytes x).
Proof.
  intros Hx Hk. unfold dec_step. rewrite sub_shift_inv by (by apply enc_step_ok). unfold enc_step.
  rewrite inv_mix_add, mix_inv, add_round_key_inv by (by apply shift_rows_ok, sub_bytes_ok). done.
Qed.

Lemma fold_left_cons {A B} (f : A -> B -> A) l x a : fold_left f (x :: l) a = fold_left f l (f a x).
Proof. reflexivity. Qed.
Lemma fold_left_nil {A B} (f : A -> B -> A) a : fold_left f [] a = a.
Proof. reflexivity. Qed.

Lemma dec_enc_steps ks s : st_ok s -> Forall st_ok ks ->
  fold_left dec_step (map inv_mix_columns (rev ks)) (shift_rows (sub_bytes (fold_left enc_step ks s))) = shift_rows (sub_bytes s).
Proof.
  intros Hs. induction ks as [|k ks IH] using rev_ind; intros F; [done|]. apply Forall_app in F as [F Fk]. apply Forall_cons in Fk as [Fk _].
  rewrite rev_unit, fold_left_app, fold_left_cons, fold_left_nil, map_cons, fold_left_cons.
  rewrite dec_enc_step; [by apply IH|by apply fold_steps_ok; [apply enc_step_ok|..]|done].
Qed.

(** ** Theorems *)

(** C15: the word tables of the source and its key schedule compute the AES of
    FIPS 197: for any key and any block of 16 octets, the block function of the
    source, when it gets memory, gives the cipher defined by SubBytes (inversion
    in GF(2^8) and an affine map), ShiftRows, MixColumns and AddRoundKey, and
    reports success; without memory it reports an error and writes nothing. *)
Theorem aes_is_fips197 key inp out : bytes_ok key -> length key = 16%nat -> bytes_ok inp -> length inp = 16%nat ->
  aes_128_encrypt_block true key inp out = (0, cipher key inp) /\ aes_128_encrypt_block false key inp out = (-1, out).
Proof.
  intros Hk _ Hi _. split; [|done]. unfold aes_128_encrypt_block. cbn [aes_encrypt_init negb Z.eqb Pos.eqb].
  destruct (keys_split key Hk) as (a & mid & z & E & L & Ha & Hm & Hz & R & _). unfold aes_encrypt, cipher.
  rewrite R, E, encrypt_states, rounds_app by done. done.
Qed.

(** C16: decryption with the decryption schedule of a key gives back what was
    encrypted with its encryption schedule, for any key and any block. *)
Theorem aes_decrypt_encrypt key pt : bytes_ok key -> length key = 16%nat -> bytes_ok pt -> length pt = 16%nat ->
  aes_decrypt (rijndaelKeySetupDec key) (aes_encrypt (rijndaelKeySetupEnc key) pt) = pt.
Proof.
  intros Hk _ Hi L. destruct (keys_split key Hk) as (a & mid & z & _ & Lm & Ha & Hm & Hz & -> & ->). unfold aes_decrypt, aes_encrypt.
  assert (S0 : st_ok (add_round_key (of_bytes pt) a)) by (apply add_round_key_ok; [by apply of_bytes_ok|done]).
  pose proof (fold_steps_ok enc_step mid _ enc_step_ok S0 Hm) as T.
  assert (C : st_ok (add_round_key (shift_rows (sub_bytes (fold_left enc_step mid (add_round_key (of_bytes pt) a)))) z))
    by (apply add_round_key_ok; [by apply shift_rows_ok, sub_bytes_ok|done]).
  rewrite encrypt_states by done. rewrite decrypt_states.
  - rewrite of_to_bytes, add_round_key_inv, dec_enc_steps, sub_shift_inv, add_round_key_inv by done. by apply to_of_bytes.
  - by rewrite length_map, length_rev.
  - done.
  - apply Forall_map, Forall_rev. eapply Forall_impl; [exact Hm|]. apply inv_mix_columns_ok.
  - done.
  - by apply to_bytes_ok.
Qed.

#[local] Transparent sub_bytes inv_sub_bytes shift_rows inv_shift_rows mix_columns inv_mix_columns add_round_key.

(** The example of FIPS 197, appendix C.1. *)
Definition fips_key : list Z := be_bytes 16 0x000102030405060708090a0b0c0d0e0f.
Definition fips_plain : list Z := be_bytes 16 0x00112233445566778899aabbccddeeff.
Definition fips_crypt : list Z := be_bytes 16 0x69c4e0d86a7b0430d8cdb78070b4c55a.

Lemma bytes_okb l : forallb byteb l = true -> bytes_ok l.
Proof. rewrite forallb_forall. intros H. apply Forall_forall. intros x Hx. apply byteb_spec, H, list_elem_of_In, Hx. Qed.

Lemma aes_is_fips197_witness : aes_128_encrypt_block true fips_key fips_plain [] = (0, cipher fips_key fips_plain) /\
  aes_128_encrypt_block true fips_key fips_plain [] = (0, fips_crypt).
Proof.
  split; [|vm_compute; reflexivity].
  exact (proj1 (aes_is_fips197 fips_key fips_plain [] (bytes_okb fips_key eq_refl) eq_refl (bytes_okb fips_plain eq_refl) eq_refl)).
Defined.

Lemma aes_decrypt_encrypt_witness : aes_decrypt (rijndaelKeySetupDec fips_key) (aes_encrypt (rijndaelKeySetupEnc fips_key) fips_plain) = fips_plain.
Proof. exact (aes_decrypt_encrypt fips_key fips_plain (bytes_okb fips_key eq_refl) eq_refl (bytes_okb fips_plain eq_refl) eq_refl). Defined.
