(* ===== verification/Milenage.v ===== *)
(** The Milenage functions (mme/S6a/milenage/milenage.c) on top of [AES]; the
    functions of 3GPP TS 35.206; and the theorems that they agree, that a
    terminal accepts the token of the network and reads its sequence number, and
    that the network accepts exactly the resynchronisation tokens of terminals.

    [malloc] of the block function is taken to succeed: its failure is not
    checked by milenage.c, which would go on with indeterminate memory. *)
From S2P Require Import Prelude AES.

(** ** The source *)

(** [aes_128_encrypt_block(k, in, out)] *)
Definition block (k inp : list Z) : list Z := snd (aes_128_encrypt_block true k inp []).

(** [for (i = 0; i < n; i++) dst[i] = a[i] ^ b[i];] for a [dst] of [n] octets. *)
Definition xor_loop (n : nat) (a b : list Z) : list Z := map (fun i => nth i a 0 .^ nth i b 0) (seq 0 n).

(** [for (i = 0; i < 16; i++) dst[(i + r) % 16] = a[i] ^ b[i];] *)
Definition rot_loop (r : nat) (dst a b : list Z) : list Z :=
  fold_left (fun dst i => <[((i + r) mod 16)%nat := nth i a 0 .^ nth i b 0]> dst) (seq 0 16) dst.

(** [dst[15] ^= c;] *)
Definition xor_last (dst : list Z) (c : Z) : list Z := <[15%nat := nth 15 dst 0 .^ c]> dst.

(** The octets of an array before the first write. *)
Definition uninit : list Z := repeat 0xcd 16.

Definition getOPC (op k : list Z) : list Z :=
  let tmp1 := block k op in xor_loop 16 op tmp1.

(** What is written to [mac_a] and [mac_s] when they are not [NULL]. *)
Definition milenage_f1 (opc k rand sqn amf : list Z) : list Z * list Z :=
  let tmp1 := xor_loop 16 rand opc in
  let tmp1 := block k tmp1 in
  let tmp2 := take 6 sqn ++ take 2 amf in
  let tmp2 := tmp2 ++ take 8 tmp2 in
  let tmp3 := rot_loop 8 uninit tmp2 opc in
  let tmp3 := xor_loop 16 tmp3 tmp1 in
  let tmp1 := block k tmp3 in
  let tmp1 := xor_loop 16 tmp1 opc in
  (take 8 tmp1, take 8 (drop 8 tmp1)).

Record f2345 := { f_res : list Z; f_ck : list Z; f_ik : list Z; f_ak : list Z; f_akstar : list Z }.

(** What is written to the five buffers when they are not [NULL]; a part that
    is not done changes nothing but [tmp1], which each part fills again. *)
Definition milenage_f2345 (opc k rand : list Z) : f2345 :=
  let tmp1 := xor_loop 16 rand opc in
  let tmp2 := block k tmp1 in
  let tmp1 := xor_last (xor_loop 16 tmp2 opc) 1 in
  let tmp3 := block k tmp1 in
  let tmp3 := xor_loop 16 tmp3 opc in
  let tmp1_3 := xor_last (rot_loop 12 tmp1 tmp2 opc) 2 in
  let tmp1_4 := xor_last (rot_loop 8 tmp1_3 tmp2 opc) 4 in
  let tmp1_5 := xor_last (rot_loop 4 tmp1_4 tmp2 opc) 8 in
  {| f_res := take 8 (drop 8 tmp3);
     f_ak := take 6 tmp3;
     f_ck := xor_loop 16 (block k tmp1_3) opc;
     f_ik := xor_loop 16 (block k tmp1_4) opc;
     f_akstar := xor_loop 6 (block k tmp1_5) opc |}.

Record milenage_out := { o_autn : list Z; o_ik : list Z; o_ck : list Z; o_res : list Z }.

(** [*res_len] afterwards, and what is written unless it is 0. *)
Definition milenage_generate (opc amf k sqn rand : list Z) (res_len : Z) : Z * option milenage_out :=
  if res_len <? 8 then (0, None)
  else
    let mac_a := fst (milenage_f1 opc k rand sqn amf) in
    let f := milenage_f2345 opc k rand in
    (8, Some {| o_autn := xor_loop 6 sqn (f_ak f) ++ take 2 amf ++ take 8 mac_a;
                o_ik := f_ik f; o_ck := f_ck f; o_res := f_res f |}).

(** The returned value and [sqn]. *)
Definition milenage_auts (opc k rand auts : list Z) : Z * list Z :=
  let amf := [0; 0] in
  let ak := f_akstar (milenage_f2345 opc k rand) in
  let sqn := xor_loop 6 auts ak in
  let mac_s := snd (milenage_f1 opc k rand sqn amf) in
  (if bool_decide (mac_s = take 8 (drop 6 auts)) then 0 else -1, sqn).

(** [sres] and [kc], without [GSM_MILENAGE_ALT_SRES]. *)
Definition gsm_milenage (opc k rand : list Z) : list Z * list Z :=
  let f := milenage_f2345 opc k rand in
  (map (fun i => nth i (f_res f) 0 .^ nth (i + 4) (f_res f) 0) (seq 0 4),
   map (fun i => ((nth i (f_ck f) 0 .^ nth (i + 8) (f_ck f) 0) .^ nth i (f_ik f) 0) .^ nth (i + 8) (f_ik f) 0) (seq 0 8)).

(** ** 3GPP TS 35.206 *)

Module TS35206.
Definition xor (a b : list Z) : list Z := zip_with Z.lxor a b.
(** Rotation of a block towards the most significant bit, by a number of bits
    that is a multiple of 8. *)
Definition rot (x : list Z) (bits : nat) : list Z := drop (bits / 8) x ++ take (bits / 8) x.

Definition r1 := 64%nat.
Definition r2 := 0%nat.
Definition r3 := 32%nat.
Definition r4 := 64%nat.
Definition r5 := 96%nat.
Definition c1 := be_bytes 16 0.
Definition c2 := be_bytes 16 1.
Definition c3 := be_bytes 16 2.
Definition c4 := be_bytes 16 4.
Definition c5 := be_bytes 16 8.

Definition E (k x : list Z) : list Z := FIPS.cipher k x.
Definition OPc (op k : list Z) : list Z := xor op (E k op).

Section Functions.
Context (opc k rand : list Z).
Definition TEMP : list Z := E k (xor rand opc).
Definition IN1 (sqn amf : list Z) : list Z := sqn ++ amf ++ sqn ++ amf.
Definition OUT1 (sqn amf : list Z) : list Z := xor (E k (xor (xor TEMP (rot (xor (IN1 sqn amf) opc) r1)) c1)) opc.
Definition OUT (r : nat) (c : list Z) : list Z := xor (E k (xor (rot (xor TEMP opc) r) c)) opc.
Definition f1 (sqn amf : list Z) : list Z := take 8 (OUT1 sqn amf).
Definition f1star (sqn amf : list Z) : list Z := drop 8 (OUT1 sqn amf).
Definition f2 : list Z := drop 8 (OUT r2 c2).
Definition f3 : list Z := OUT r3 c3.
Definition f4 : list Z := OUT r4 c4.
Definition f5 : list Z := take 6 (OUT r2 c2).
Definition f5star : list Z := take 6 (OUT r5 c5).
End Functions.
End TS35206.

(** A string of [n] octets. *)
Definition octets (n : nat) (l : list Z) : Prop := length l = n /\ bytes_ok l.

(** ** Lists of 16 octets *)

Lemma xor_loop_spec n a b : (n <= length a)%nat -> (n <= length b)%nat -> xor_loop n a b = TS35206.xor (take n a) (take n b).
Proof.
  unfold xor_loop, TS35206.xor. revert a b. induction n as [|n IH]; intros a b La Lb; [done|].
  destruct a as [|x a], b as [|y b]; cbn [length] in *; try lia. cbn [seq map take firstn zip_with nth].
  rewrite <- seq_shift, map_map. cbn [nth]. f_equal. rewrite IH by lia. done.
Qed.

Lemma xor_octets n a b : octets n a -> octets n b -> octets n (TS35206.xor a b).
Proof.
  intros [La Ha] [Lb Hb]. split; unfold TS35206.xor; [rewrite length_zip_with; lia|].
  clear La Lb. revert b Hb. induction Ha as [|x a Hx Ha IH]; intros b Hb; [constructor|]. destruct Hb as [|y b Hy Hb]; [constructor|].
  cbn [zip_with]. constructor; [by apply lxor_byte|by apply IH].
Qed.

Ltac list16 l H := let L := fresh in destruct H as [L ?]; do 16 (destruct l as [|? l]; [discriminate L|]); destruct l; [clear L|discriminate L].

Lemma rot_loop_spec r dst a b : length dst = 16%nat -> octets 16 a -> octets 16 b -> In r [4; 8; 12]%nat ->
  rot_loop r dst a b = TS35206.rot (TS35206.xor a b) (8 * (16 - r)).
Proof.
  intros Ld Ha Hb Hr. do 16 (destruct dst as [|? dst]; [discriminate Ld|]). destruct dst; [|discriminate Ld]. list16 a Ha. list16 b Hb.
  cbn [In] in Hr. destruct Hr as [<-|[<-|[<-|[]]]]; reflexivity.
Qed.

Lemma xor_last_spec a c : octets 16 a -> xor_last a c = TS35206.xor a (repeat 0 15 ++ [c]).
Proof. intros Ha. list16 a Ha. unfold xor_last, TS35206.xor. cbn. by rewrite !Z.lxor_0_r. Qed.

Lemma xor_zero a : octets 16 a -> TS35206.xor a TS35206.c1 = a.
Proof. intros Ha. list16 a Ha. unfold TS35206.xor. cbn. by rewrite !Z.lxor_0_r. Qed.

Lemma xor_comm a b : TS35206.xor a b = TS35206.xor b a.
Proof. unfold TS35206.xor. revert b. induction a as [|x a IH]; intros [|y b]; try done. cbn. by rewrite Z.lxor_comm, IH. Qed.

Lemma xor_xor a b : (length a <= length b)%nat -> TS35206.xor (TS35206.xor a b) b = a.
Proof.
  unfold TS35206.xor. revert b. induction a as [|x a IH]; intros [|y b] L; cbn in *; try done; [lia|].
  by rewrite Z.lxor_assoc, Z.lxor_nilpotent, Z.lxor_0_r, IH by lia.
Qed.

Lemma xor_length a b : length (TS35206.xor a b) = (length a `min` length b)%nat.
Proof. apply length_zip_with. Qed.

Lemma cipher_octets k x : octets 16 k -> octets 16 x -> octets 16 (FIPS.cipher k x).
Proof.
  intros [Lk Hk] [Lx Hx]. destruct (keys_split k Hk) as (a & mid & z & E & L & Ha & Hm & Hz & R & _).
  unfold FIPS.cipher. rewrite E, rounds_app. assert (S0 : st_ok (FIPS.add_round_key (FIPS.of_bytes x) a)) by (apply add_round_key_ok; [by apply of_bytes_ok|done]).
  destruct (to_bytes_ok (FIPS.add_round_key (FIPS.shift_rows (FIPS.sub_bytes (fold_left enc_step mid (FIPS.add_round_key (FIPS.of_bytes x) a)))) z)) as [B N]; [|by split].
  apply add_round_key_ok; [|done]. apply shift_rows_ok, sub_bytes_ok, fold_steps_ok; [apply enc_step_ok|done..].
Qed.

Lemma block_spec k x : octets 16 k -> octets 16 x -> block k x = TS35206.E k x.
Proof. intros [Lk Hk] [Lx Hx]. unfold block. by rewrite (proj1 (aes_is_fips197 k x [] Hk Lk Hx Lx)). Qed.

Lemma octets_app n m a b : octets n a -> octets m b -> octets (n + m) (a ++ b).
Proof. intros [La Ha] [Lb Hb]. split; [by rewrite length_app, La, Lb|by apply Forall_app]. Qed.
Lemma octets_take n m l : octets n l -> (m <= n)%nat -> octets m (take m l).
Proof. intros [L H] M. split; [rewrite length_take; lia|by apply Forall_take]. Qed.
Lemma octets_drop n m l : octets n l -> octets (n - m) (drop m l).
Proof. intros [L H]. split; [rewrite length_drop; lia|by apply Forall_drop]. Qed.
Lemma octets_rot l r : octets 16 l -> (r <= 128)%nat -> octets 16 (TS35206.rot l r).
Proof.
  intros H R. assert (r / 8 <= 16)%nat by (change 16%nat with (128 / 8)%nat; by apply Nat.Div0.div_le_mono).
  replace 16%nat with ((16 - r / 8) + r / 8)%nat by lia. apply octets_app; [by apply octets_drop|by eapply octets_take; [exact H|]].
Qed.
Lemma octets_const c : byte_ok c -> octets 16 (repeat 0 15 ++ [c]).
Proof. intros H. split; [done|]. apply Forall_app. split; [apply Forall_forall; intros x Hx; apply list_elem_of_In, repeat_spec in Hx as ->; apply byte0|by apply Forall_cons_2; [|apply Forall_nil_2]]. Qed.
Lemma octets_take_all n l : octets n l -> take n l = l.
Proof. intros [L _]. apply take_ge. lia. Qed.

Create HintDb octets.
#[export] Hint Resolve xor_octets cipher_octets octets_rot octets_const : octets.

(** ** milenage.c computes the functions of the specification *)

Section Agree.
Context (opc k rand : list Z) (Ho : octets 16 opc) (Hk : octets 16 k) (Hr : octets 16 rand).

Lemma xor16 a b : octets 16 a -> octets 16 b -> xor_loop 16 a b = TS35206.xor a b.
Proof using. intros Ha Hb. rewrite xor_loop_spec, !octets_take_all; [done|done..|destruct Ha; lia|destruct Hb; lia]. Qed.

Lemma xor6 a b : octets 16 a -> octets 16 b -> xor_loop 6 a b = take 6 (xor_loop 16 a b).
Proof using. intros Ha Hb. list16 a Ha. list16 b Hb. reflexivity. Qed.

Lemma temp_spec : block k (xor_loop 16 rand opc) = TS35206.TEMP opc k rand.
Proof using Ho Hk Hr. rewrite xor16, block_spec by auto with octets. done. Qed.

Lemma temp_octets : octets 16 (TS35206.TEMP opc k rand).
Proof using Ho Hk Hr. unfold TS35206.TEMP, TS35206.E. auto with octets. Qed.

(** One of the functions 2 to 5, with the rotation and the constant of the code. *)
Lemma out_octets r c : (r <= 128)%nat -> octets 16 c -> octets 16 (TS35206.OUT opc k rand r c).
Proof using Ho Hk Hr. intros. unfold TS35206.OUT, TS35206.E. pose proof temp_octets. auto 8 with octets. Qed.

Lemma part_spec r c dst : In r [4; 8; 12]%nat -> length dst = 16%nat -> byte_ok c ->
  let tmp := xor_last (rot_loop r dst (TS35206.TEMP opc k rand) opc) c in
  length tmp = 16%nat /\ octets 16 (block k tmp) /\
  xor_loop 16 (block k tmp) opc = TS35206.OUT opc k rand (8 * (16 - r)) (repeat 0 15 ++ [c]).
Proof using Ho Hk Hr.
  intros Hin Ld Hc. pose proof temp_octets as T. cbv zeta.
  assert (R : (8 * (16 - r) <= 128)%nat) by lia.
  assert (O : octets 16 (TS35206.xor (TS35206.rot (TS35206.xor (TS35206.TEMP opc k rand) opc) (8 * (16 - r))) (repeat 0 15 ++ [c])))
    by (apply xor_octets; [apply octets_rot; auto with octets|auto with octets]).
  rewrite rot_loop_spec, xor_last_spec, block_spec by (try done; apply octets_rot; auto with octets).
  split; [apply O|]. split; [by apply cipher_octets|]. rewrite xor16 by (try done; by apply cipher_octets). done.
Qed.

Lemma f2345_spec : milenage_f2345 opc k rand =
  {| f_res := TS35206.f2 opc k rand; f_ck := TS35206.f3 opc k rand; f_ik := TS35206.f4 opc k rand;
     f_ak := TS35206.f5 opc k rand; f_akstar := TS35206.f5star opc k rand |}.
Proof using Ho Hk Hr.
  unfold milenage_f2345. rewrite temp_spec. pose proof temp_octets as T. cbv zeta.
  assert (X : octets 16 (TS35206.xor (TS35206.TEMP opc k rand) opc)) by auto with octets.
  assert (B : forall c, 0 <= c < 256 -> byte_ok c) by done.
  rewrite (xor16 (TS35206.TEMP opc k rand) opc), xor_last_spec by done.
  set (t2 := TS35206.xor (TS35206.xor _ _) (repeat 0 15 ++ [1])).
  assert (O2 : octets 16 t2) by (apply xor_octets; [done|by apply octets_const, B]).
  destruct (part_spec 12 2 t2) as (L3 & C3 & ->); [cbn; tauto|apply O2|by apply B|].
  destruct (part_spec 8 4 _ ltac:(cbn; tauto) L3 (B 4 ltac:(lia))) as (L4 & C4 & ->).
  destruct (part_spec 4 8 _ ltac:(cbn; tauto) L4 (B 8 ltac:(lia))) as (L5 & C5 & E5).
  rewrite block_spec by done. rewrite xor16 by (try done; by apply cipher_octets).
  assert (E2 : TS35206.OUT opc k rand TS35206.r2 TS35206.c2 = TS35206.xor (TS35206.E k t2) opc).
  { unfold TS35206.OUT, t2, TS35206.rot. cbn [TS35206.r2 Nat.div Nat.divmod fst Nat.sub]. rewrite drop_0, take_0, app_nil_r. done. }
  rewrite <- E2. f_equal.
  - rewrite octets_take_all with (n := 8%nat); [done|]. apply (octets_drop 16). apply out_octets; [unfold TS35206.r2; lia|]. apply (octets_const 1), B. lia.
  - rewrite xor6 by done. rewrite E5. done.
Qed.

Lemma f1_spec sqn amf : octets 6 sqn -> octets 2 amf ->
  milenage_f1 opc k rand sqn amf = (TS35206.f1 opc k rand sqn amf, TS35206.f1star opc k rand sqn amf) /\
  octets 16 (TS35206.OUT1 opc k rand sqn amf).
Proof using Ho Hk Hr.
  intros Hs Ha. unfold milenage_f1. rewrite temp_spec. pose proof temp_octets as T. rewrite (octets_take_all 6 sqn), (octets_take_all 2 amf) by done.
  assert (I8 : octets 8 (sqn ++ amf)) by (by apply (octets_app 6 2)). rewrite (octets_take_all 8 (sqn ++ amf)) by done.
  replace ((sqn ++ amf) ++ sqn ++ amf) with (TS35206.IN1 sqn amf) by (unfold TS35206.IN1; by rewrite <- (assoc_L (++))).
  assert (I : octets 16 (TS35206.IN1 sqn amf)) by (unfold TS35206.IN1; rewrite (assoc_L (++)); by apply (octets_app 8 8)).
  assert (X : octets 16 (TS35206.rot (TS35206.xor (TS35206.IN1 sqn amf) opc) 64)) by (apply octets_rot; [auto with octets|lia]).
  assert (C : TS35206.xor (TS35206.xor (TS35206.TEMP opc k rand) (TS35206.rot (TS35206.xor (TS35206.IN1 sqn amf) opc) 64)) TS35206.c1 =
              TS35206.xor (TS35206.TEMP opc k rand) (TS35206.rot (TS35206.xor (TS35206.IN1 sqn amf) opc) 64)) by (apply xor_zero; auto with octets).
  assert (O : octets 16 (TS35206.OUT1 opc k rand sqn amf)).
  { unfold TS35206.OUT1, TS35206.r1, TS35206.E. rewrite C. auto with octets. }
  split; [|done]. rewrite rot_loop_spec by (try done; cbn; tauto). change (8 * (16 - 8))%nat with 64%nat.
  rewrite (xor16 (TS35206.rot _ _)), xor_comm, block_spec by auto with octets. rewrite xor16 by auto with octets.
  rewrite <- C. fold TS35206.r1. fold (TS35206.OUT1 opc k rand sqn amf). unfold TS35206.f1, TS35206.f1star. f_equal.
  apply octets_take_all. by apply (octets_drop 16).
Qed.
End Agree.

(** ** The terminal (3GPP TS 33.102) *)

Module USIM.
(** What the terminal computes from a challenge: the sequence number and AMF of
    the token, and RES, CK and IK; [None] when the MAC is wrong. *)
Record answer := { u_sqn : list Z; u_amf : list Z; u_res : list Z; u_ck : list Z; u_ik : list Z }.

Definition check (opc k rand autn : list Z) : option answer :=
  let sqn := TS35206.xor (take 6 autn) (TS35206.f5 opc k rand) in
  let amf := take 2 (drop 6 autn) in
  if bool_decide (TS35206.f1 opc k rand sqn amf = drop 8 autn) then
    Some {| u_sqn := sqn; u_amf := amf; u_res := TS35206.f2 opc k rand; u_ck := TS35206.f3 opc k rand; u_ik := TS35206.f4 opc k rand |}
  else None.

(** The resynchronisation token for the sequence number [sqn] of the terminal. *)
Definition auts (opc k rand sqn : list Z) : list Z :=
  TS35206.xor sqn (TS35206.f5star opc k rand) ++ TS35206.f1star opc k rand sqn [0; 0].
End USIM.

(** ** Theorems *)

Lemma getOPC_spec op k : octets 16 op -> octets 16 k -> getOPC op k = TS35206.OPc op k /\ octets 16 (getOPC op k).
Proof.
  intros Ho Hk. unfold getOPC, TS35206.OPc, TS35206.E. rewrite block_spec, xor16 by (try done; by apply cipher_octets).
  split; [done|]. unfold TS35206.E. auto with octets.
Qed.

(** C17: for any 16-octet OP, key and RAND, 6-octet SQN and 2-octet AMF, OPc, f1,
    f1*, f2, f3, f4, f5 and f5* of the source (rotations and constants done in
    place by loops over octets) are the functions of 3GPP TS 35.206 over AES. *)
Theorem milenage_is_ts35206 op k rand sqn amf : octets 16 op -> octets 16 k -> octets 16 rand -> octets 6 sqn -> octets 2 amf ->
  let opc := getOPC op k in
  opc = TS35206.OPc op k /\
  milenage_f1 opc k rand sqn amf = (TS35206.f1 opc k rand sqn amf, TS35206.f1star opc k rand sqn amf) /\
  milenage_f2345 opc k rand =
    {| f_res := TS35206.f2 opc k rand; f_ck := TS35206.f3 opc k rand; f_ik := TS35206.f4 opc k rand;
       f_ak := TS35206.f5 opc k rand; f_akstar := TS35206.f5star opc k rand |}.
Proof.
  intros Hop Hk Hr Hs Ha opc. destruct (getOPC_spec op k Hop Hk) as [E O].
  split; [done|]. split; [by apply f1_spec|by apply f2345_spec].
Qed.

Section Protocol.
Context (opc k rand : list Z) (Ho : octets 16 opc) (Hk : octets 16 k) (Hr : octets 16 rand).

Lemma f5_octets : octets 6 (TS35206.f5 opc k rand).
Proof using Ho Hk Hr. apply (octets_take 16); [|lia]. apply out_octets; [done..|unfold TS35206.r2; lia|by apply (octets_const 1)]. Qed.
Lemma f5star_octets : octets 6 (TS35206.f5star opc k rand).
Proof using Ho Hk Hr. apply (octets_take 16); [|lia]. apply out_octets; [done..|unfold TS35206.r5; lia|by apply (octets_const 8)]. Qed.
Lemma f3_octets : octets 16 (TS35206.f3 opc k rand).
Proof using Ho Hk Hr. apply (out_octets opc k rand Ho Hk Hr); [unfold TS35206.r3; lia|exact (octets_const 2 ltac:(done))]. Qed.
Lemma f4_octets : octets 16 (TS35206.f4 opc k rand).
Proof using Ho Hk Hr. apply (out_octets opc k rand Ho Hk Hr); [unfold TS35206.r4; lia|exact (octets_const 4 ltac:(done))]. Qed.
Lemma f1_octets sqn amf : octets 6 sqn -> octets 2 amf ->
  octets 8 (TS35206.f1 opc k rand sqn amf) /\ octets 8 (TS35206.f1star opc k rand sqn amf).
Proof using Ho Hk Hr.
  intros Hs Ha. destruct (f1_spec opc k rand Ho Hk Hr sqn amf Hs Ha) as [_ O].
  split; [by apply (octets_take 16); [|lia]|by apply (octets_drop 16)].
Qed.

Lemma xor_loop6 a b : octets 6 b -> (6 <= length a)%nat -> xor_loop 6 a b = TS35206.xor (take 6 a) b.
Proof using. intros Hb L. rewrite xor_loop_spec by (try done; destruct Hb; lia). by rewrite (octets_take_all 6 b). Qed.

Lemma token_accepted sqn amf res_len : octets 6 sqn -> octets 2 amf -> 8 <= res_len ->
  exists o, milenage_generate opc amf k sqn rand res_len = (8, Some o) /\ octets 16 (o_autn o) /\ (octets 16 (o_ck o) /\ octets 16 (o_ik o)) /\
    o_autn o = TS35206.xor sqn (TS35206.f5 opc k rand) ++ amf ++ TS35206.f1 opc k rand sqn amf /\
    USIM.check opc k rand (o_autn o) =
    Some {| USIM.u_sqn := sqn; USIM.u_amf := amf; USIM.u_res := o_res o; USIM.u_ck := o_ck o; USIM.u_ik := o_ik o |}.
Proof using Ho Hk Hr.
  intros Hs Ha Hl. unfold milenage_generate. destruct (Z.ltb_spec res_len 8); [lia|]. eexists. split; [reflexivity|].
  destruct (f1_spec opc k rand Ho Hk Hr sqn amf Hs Ha) as [-> _]. rewrite f2345_spec by done. cbn [o_autn o_res o_ck o_ik f_ak f_res f_ck f_ik fst].
  pose proof f5_octets as F5. destruct (f1_octets sqn amf Hs Ha) as [F1 _].
  rewrite xor_loop6, (octets_take_all 6 sqn), (octets_take_all 2 amf), (octets_take_all 8 (TS35206.f1 _ _ _ _ _)) by (done || destruct Hs; lia).
  set (sa := TS35206.xor sqn _). set (mac := TS35206.f1 _ _ _ _ _).
  assert (SA : octets 6 sa) by (by apply xor_octets). assert (Lsa : length sa = 6%nat) by apply SA. assert (La : length amf = 2%nat) by apply Ha.
  split; [by apply (octets_app 6 10), (octets_app 2 8)|].
  split; [exact (conj f3_octets f4_octets)|].
  split; [done|]. unfold USIM.check.
  rewrite take_app_le, take_ge, (drop_app_ge sa) by lia. rewrite Lsa. cbn [Nat.sub]. rewrite drop_0, take_app_le, take_ge by lia.
  assert (E : TS35206.xor sa (TS35206.f5 opc k rand) = sqn) by (apply xor_xor; destruct Hs, F5; lia). rewrite E.
  rewrite drop_app_ge, Lsa, drop_app_ge, La by lia. cbn [Nat.sub]. rewrite drop_0, bool_decide_eq_true_2 by done. done.
Qed.

Lemma auts_accepted auts sqn : octets 14 auts ->
  milenage_auts opc k rand auts = (0, sqn) <-> octets 6 sqn /\ auts = USIM.auts opc k rand sqn.
Proof using Ho Hk Hr.
  intros Hau. assert (Lau : length auts = 14%nat) by apply Hau. unfold milenage_auts. pose proof f5star_octets as F5.
  rewrite f2345_spec by done. cbn [f_akstar]. rewrite xor_loop6 by (done || lia). set (s := TS35206.xor (take 6 auts) _).
  assert (T6 : octets 6 (take 6 auts)) by (apply (octets_take 14); [done|lia]). assert (S6 : octets 6 s) by (by apply xor_octets).
  assert (A2 : octets 2 [0; 0]) by (split; [done|]; repeat (apply Forall_cons_2; [apply byte0|]); apply Forall_nil_2).
  destruct (f1_spec opc k rand Ho Hk Hr s [0; 0] S6 A2) as [-> _]. cbn [snd]. rewrite (octets_take_all 8 (drop 6 auts)) by (by apply (octets_drop 14)).
  unfold USIM.auts. split.
  - intros [= C <-]. split; [done|]. destruct (bool_decide_reflect (TS35206.f1star opc k rand s [0; 0] = drop 6 auts)) as [->|]; [|done].
    unfold s. rewrite xor_xor by (destruct T6, F5; lia). by rewrite take_drop.
  - intros [Hs E]. assert (E6 : take 6 auts = TS35206.xor sqn (TS35206.f5star opc k rand)).
    { rewrite E, take_app_le, take_ge; [done|..]; rewrite xor_length; destruct Hs, F5; lia. }
    assert (Es : s = sqn) by (unfold s; rewrite E6; apply xor_xor; destruct Hs, F5; lia). rewrite Es.
    rewrite bool_decide_eq_true_2; [done|]. rewrite E, drop_app_ge by (rewrite xor_length; destruct Hs, F5; lia).
    rewrite xor_length. destruct Hs as [-> _], F5 as [-> _]. done.
Qed.
End Protocol.

(** a terminal that shares OPc and K accepts the token of
    [milenage_generate] for any RAND, SQN and AMF: it reads the SQN and AMF of
    the network and computes the RES, CK and IK that the network holds. *)
Theorem milenage_token_accepted opc k rand sqn amf res_len : octets 16 opc -> octets 16 k -> octets 16 rand ->
  octets 6 sqn -> octets 2 amf -> 8 <= res_len ->
  exists o, milenage_generate opc amf k sqn rand res_len = (8, Some o) /\
    USIM.check opc k rand (o_autn o) =
    Some {| USIM.u_sqn := sqn; USIM.u_amf := amf; USIM.u_res := o_res o; USIM.u_ck := o_ck o; USIM.u_ik := o_ik o |}.
Proof. intros Ho Hk Hr Hs Ha Hl. destruct (token_accepted opc k rand Ho Hk Hr sqn amf res_len Hs Ha Hl) as (o & E & _ & _ & _ & U). by exists o. Qed.

(** [milenage_auts] accepts a resynchronisation token with a sequence number
    if and only if it is the token a terminal makes for that number. *)
Theorem milenage_auts_iff opc k rand auts sqn : octets 16 opc -> octets 16 k -> octets 16 rand -> octets 14 auts ->
  milenage_auts opc k rand auts = (0, sqn) <-> octets 6 sqn /\ auts = USIM.auts opc k rand sqn.
Proof. intros. by apply auts_accepted. Qed.

(** ** Test set 1 of 3GPP TS 35.207 *)

Definition ts_k : list Z := be_bytes 16 0x465b5ce8b199b49faa5f0a2ee238a6bc.
Definition ts_rand : list Z := be_bytes 16 0x23553cbe9637a89d218ae64dae47bf35.
Definition ts_sqn : list Z := be_bytes 6 0xff9bb4d0b607.
Definition ts_amf : list Z := be_bytes 2 0xb9b9.
Definition ts_op : list Z := be_bytes 16 0xcdc202d5123e20f62b6d676ac72cb318.
Definition ts_opc : list Z := be_bytes 16 0xcd63cb71954a9f4e48a5994e37a02baf.

Definition octetsb (n : nat) (l : list Z) : bool := (length l =? n)%nat && forallb byteb l.
Lemma octetsb_spec n l : octetsb n l = true -> octets n l.
Proof. unfold octetsb. intros H. apply andb_true_iff in H as [L B]. apply Nat.eqb_eq in L. split; [done|by apply bytes_okb]. Qed.

Example ts35207_set1 :
  getOPC ts_op ts_k = ts_opc /\
  milenage_f1 ts_opc ts_k ts_rand ts_sqn ts_amf = (be_bytes 8 0x4a9ffac354dfafb3, be_bytes 8 0x01cfaf9ec4e871e9) /\
  milenage_f2345 ts_opc ts_k ts_rand =
  {| f_res := be_bytes 8 0xa54211d5e3ba50bf; f_ck := be_bytes 16 0xb40ba9a3c58b2a05bbf0d987b21bf8cb;
     f_ik := be_bytes 16 0xf769bcd751044604127672711c6d3441; f_ak := be_bytes 6 0xaa689c648370; f_akstar := be_bytes 6 0x451e8beca43b |} /\
  gsm_milenage ts_opc ts_k ts_rand = (be_bytes 4 0x46f8416a, be_bytes 8 0xeae4be823af9a08b).
Proof. do 3 (split; [vm_compute; reflexivity|]). vm_compute. reflexivity. Qed.

Lemma milenage_is_ts35206_witness : getOPC ts_op ts_k = TS35206.OPc ts_op ts_k /\
  snd (milenage_f1 (getOPC ts_op ts_k) ts_k ts_rand ts_sqn ts_amf) = TS35206.f1star (getOPC ts_op ts_k) ts_k ts_rand ts_sqn ts_amf.
Proof.
  destruct (milenage_is_ts35206 ts_op ts_k ts_rand ts_sqn ts_amf (octetsb_spec 16 ts_op eq_refl) (octetsb_spec 16 ts_k eq_refl)
    (octetsb_spec 16 ts_rand eq_refl) (octetsb_spec 6 ts_sqn eq_refl) (octetsb_spec 2 ts_amf eq_refl)) as (E & F & _).
  split; [exact E|]. exact (f_equal snd F).
Defined.

Lemma milenage_token_accepted_witness : exists o, milenage_generate ts_opc ts_amf ts_k ts_sqn ts_rand 8 = (8, Some o) /\
  USIM.check ts_opc ts_k ts_rand (o_autn o) =
  Some {| USIM.u_sqn := ts_sqn; USIM.u_amf := ts_amf; USIM.u_res := o_res o; USIM.u_ck := o_ck o; USIM.u_ik := o_ik o |}.
Proof.
  exact (milenage_token_accepted ts_opc ts_k ts_rand ts_sqn ts_amf 8 (octetsb_spec 16 ts_opc eq_refl) (octetsb_spec 16 ts_k eq_refl)
    (octetsb_spec 16 ts_rand eq_refl) (octetsb_spec 6 ts_sqn eq_refl) (octetsb_spec 2 ts_amf eq_refl) (Z.le_refl 8)).
Defined.

(** The token for the SQN of the test set: the SQN xor AK*, and MAC-S for an AMF of zero. *)
Definition ts_auts : list Z := Eval vm_compute in USIM.auts ts_opc ts_k ts_rand ts_sqn.
Lemma milenage_auts_iff_witness : milenage_auts ts_opc ts_k ts_rand ts_auts = (0, ts_sqn) /\
  (octets 6 ts_sqn /\ ts_auts = USIM.auts ts_opc ts_k ts_rand ts_sqn).
Proof.
  assert (M : milenage_auts ts_opc ts_k ts_rand ts_auts = (0, ts_sqn)) by (vm_compute; reflexivity). split; [exact M|].
  exact (proj1 (milenage_auts_iff ts_opc ts_k ts_rand ts_auts ts_sqn (octetsb_spec 16 ts_opc eq_refl) (octetsb_spec 16 ts_k eq_refl)
    (octetsb_spec 16 ts_rand eq_refl) (octetsb_spec 14 ts_auts eq_refl)) M).
Defined.
