(* ===== verification/HSS.v ===== *)
(** The home subscriber server of the MME (mme/S6a/HSS.c): authentication
    vectors from a subscriber's row, resynchronisation and the profile.  MySQL is
    a parameter: the rows it answers with, and for the sequence of calls a
    database that keeps what it is told ([SQL]).  What the functions give is the
    [hss_auth], [hss_sync] and [hss_location] of [EMMCtx]. *)
From S2P Require Import Prelude FIPS180 SHA2 HMAC AES Milenage Subs EMMCtx.

(** ** Hexadecimal strings *)

(** A string is the list of its characters, without the final zero. *)
Definition hex_str : list Z := [48; 49; 50; 51; 52; 53; 54; 55; 56; 57; 97; 98; 99; 100; 101; 102].

(** What [result] holds; [NULL] is returned for a size of 0, and written
    nowhere. *)
Definition bin_to_strhex (hexbuf : list Z) (size : nat) : list Z :=
  concat (map (fun i => [nth (Z.to_nat (nth i hexbuf 0 >> 4)) hex_str 0; nth (Z.to_nat (nth i hexbuf 0 .& 0x0f)) hex_str 0]) (seq 0 size)).

(** The value of a character in the C library's number parsers. *)
Definition digit (c : Z) : Z :=
  if (48 <=? c) && (c <=? 57) then c - 48
  else if (97 <=? c) && (c <=? 122) then c - 87
  else if (65 <=? c) && (c <=? 90) then c - 55 else 99.

(** The longest prefix of digits. *)
Fixpoint digits (base acc : Z) (s : list Z) : Z :=
  match s with
  | c :: s => if digit c <? base then digits base (acc * base + digit c) s else acc
  | [] => acc
  end.

(** [strtoll(s, NULL, 16)] of a string that starts with a digit. *)
Definition strtoll16 (s : list Z) : Z := Z.min (digits 16 0 s) (2^63 - 1).

(** ** increaseSQN *)

(** The loop over [j], from [n - 1] down to 0: the octets [sqn_b[0..n-1]]. *)
Fixpoint put_loop (n : nat) (sqn_tmp : Z) : list Z :=
  match n with O => [] | S n => put_loop n (sqn_tmp >> 8) ++ [sqn_tmp .& 0xff] end.

Definition increaseSQN (sqn_b : list Z) : list Z :=
  let str_sqn := bin_to_strhex sqn_b 6 in
  let sqn := wrap64 (strtoll16 str_sqn) in
  let sqn := wrap64 (sqn + 0x20) in
  put_loop 6 sqn.

(** ** The rows of a subscriber *)

(** A row of the query [authparams]; [row_opc] is [None] for a NULL column. *)
Record hss_row := { row_k : list Z; row_opc : option (list Z); row_sqn : list Z; row_op : list Z; row_amf : list Z }.

(** [mysql_store_result]: [None] for [NULL], which the query failing gives. *)
Definition sql_result := option (list hss_row).

(** The three parts of an IMSI: [mcc] is a [uint16_t], [mnc] a [uint8_t]. *)
Definition imsi_mcc (imsi : Z) : Z := wrap16 (imsi / 1000000000000).
Definition imsi_mnc (imsi : Z) : Z := wrap8 ((imsi / 10000000000) mod 100).
Definition imsi_msin (imsi : Z) : Z := imsi mod 10000000000.

(** The values of the query [insertAuthVector]: strings of hexadecimal digits,
    stored with the vector and, [a_sqn] and [a_opc], in the subscriber's row. *)
Record auth_store := {
  a_mcc : Z; a_mnc : Z; a_msin : Z;
  a_ik : list Z; a_ck : list Z; a_rand : list Z; a_res : list Z; a_autn : list Z; a_sqn : list Z; a_kasme : list Z; a_opc : list Z }.

Section Vectors.
(** The indeterminate local variables of [hmac_sha256] and its callees. *)
Context (tmp : sha_ctx) (hctx : hmac_ctx).

(** [generate_Kasme] *)
Definition generate_Kasme (ck ik sn sqnAk : list Z) : outcome (list Z) :=
  k1 ← rdn ck 16; k2 ← rdn ik 16;
  p0 ← rdn sn 3; p1 ← rdn sqnAk 6;
  hmac_sha256 tmp hctx (k1 ++ k2) 32 ([0x10] ++ p0 ++ [0x00; 0x03] ++ p1 ++ [0x00; 0x06]) 14 32.

(** The subscriber's parameters out of the row: K, SQN, AMF and OPc. *)
Definition read_row (r : hss_row) : outcome (list Z * list Z * list Z * list Z) :=
  k ← rdn (row_k r) 16;
  sqn_b ← rdn (row_sqn r) 6;
  op ← rdn (row_op r) 16;
  amf ← rdn (row_amf r) 2;
  opc ← (match row_opc r with None => Ok (getOPC op k) | Some o => rdn o 16 end);
  Ok (k, sqn_b, amf, opc).

(** A new vector for the sequence number [sqn], and what is stored: the part
    [HSS_newAuthVec] and [HSS_syncAuthVec] share.  [rand] is what [get_random]
    leaves in [rAND], [sn] the serving network. *)
Definition make_vector (imsi : Z) (k sqn amf opc rand sn : list Z) : outcome (AuthQuadruplet * auth_store) :=
  match milenage_generate opc amf k sqn rand 8 with
  | (_, None) => UB Uninitialised
  | (_, Some o) =>
    kasme ← generate_Kasme (o_ck o) (o_ik o) sn (o_autn o);
    Ok ({| rAND := rand; xRES := o_res o; aUTN := o_autn o; kASME := kasme |},
        {| a_mcc := imsi_mcc imsi; a_mnc := imsi_mnc imsi; a_msin := imsi_msin imsi;
           a_ik := bin_to_strhex (o_ik o) 16; a_ck := bin_to_strhex (o_ck o) 16; a_rand := bin_to_strhex rand 16;
           a_res := bin_to_strhex (o_res o) 8; a_autn := bin_to_strhex (o_autn o) 16; a_sqn := bin_to_strhex sqn 6;
           a_kasme := bin_to_strhex kasme 16; a_opc := bin_to_strhex opc 16 |})
  end.

Definition HSS_newAuthVec (imsi : Z) (result : sql_result) (rand sn : list Z) : outcome (auth_answer * option auth_store) :=
  match result with
  | None => UB NullDeref
  | Some [] => Ok (Auth_unknown, None)
  | Some [r] =>
    '(k, sqn_b, amf, opc) ← read_row r;
    let sqn_b := increaseSQN sqn_b in
    '(q, st) ← make_vector imsi k sqn_b amf opc rand sn;
    Ok (Auth_vec q, Some st)
  | Some _ => Ok (Auth_rows, None)
  end.

Definition HSS_getAuthVec := HSS_newAuthVec.

(** [first] is the [rAND] of the first vector of the context, [None] when it has
    none: its index is not checked. *)
Definition HSS_syncAuthVec (imsi : Z) (result : sql_result) (first : option (list Z)) (auts rand sn : list Z)
  : outcome (sync_answer * option auth_store) :=
  match result with
  | None => UB Aborted
  | Some [r] =>
    '(k, sqn_b, amf, opc) ← read_row r;
    match first with
    | None => UB OutOfBounds
    | Some rAND =>
      let '(ret, sqn) := milenage_auts opc k rAND auts in
      if ret =? 0 then
        if bool_decide (sqn = sqn_b) then Ok (Sync_already, None)
        else
          let sqn := increaseSQN sqn in
          '(q, st) ← make_vector imsi k sqn amf opc rand sn;
          Ok (Sync_vec q, Some st)
      else Ok (Sync_nothing, None)
    end
  | Some _ => Ok (Sync_nothing, None)
  end.
End Vectors.

(** ** HSS_UpdateLocation *)

(** A column of a row: [None] for NULL, which no caller checks. *)
Definition column (row : list (option (list Z))) (i : nat) : outcome (list Z) :=
  match nth i row None with Some s => Ok s | None => UB NullDeref end.

(** [*s]: the first character, or the final zero. *)
Definition first_char (s : list Z) : Z := match s with c :: _ => c | [] => 0 end.

(** [strtoull(s, NULL, 0)] and [atoi(s)] of a string without space or sign. *)
Definition strtoull0 (s : list Z) : Z :=
  let v := match s with
           | 48 :: x :: (d :: _ as s') => if ((x =? 120) || (x =? 88)) && (digit d <? 16) then digits 16 0 s' else digits 8 0 s
           | 48 :: _ => digits 8 0 s
           | _ => digits 10 0 s
           end in
  Z.min v (2^64 - 1).
Definition atoi (s : list Z) : Z := Z.min (digits 10 0 s) (2^63 - 1).

(** A number in decimal, with at least three digits. *)
Fixpoint decimal (fuel : nat) (n : Z) : list Z :=
  match fuel with O => [] | S fuel => if n <? 10 then [48 + n] else decimal fuel (n / 10) ++ [48 + n mod 10] end.
Definition pct_3u (n : Z) : list Z := let d := decimal 20 n in repeat 48 (3 - length d) ++ d.

(** ".mnc", ".mcc" and ".gprs" *)
Definition s_mnc : list Z := [46; 109; 110; 99].
Definition s_mcc : list Z := [46; 109; 99; 99].
Definition s_gprs : list Z := [46; 103; 112; 114; 115].

(** The answers of MySQL to the update and to the query of the profile. *)
Inductive location_result :=
  | L_failed                                        (* one of the two queries failed *)
  | L_null                                          (* no result, or no row *)
  | L_row (row : list (option (list Z))).

Definition HSS_UpdateLocation (imsi : Z) (subs : Subs_t) (answer : location_result) : outcome location_answer :=
  let mcc := imsi_mcc imsi in
  let mnc := imsi_mnc imsi in
  match answer with
  | L_failed => Ok Loc_failed
  | L_null => UB NullDeref
  | L_row row =>
    msisdn ← column row 0;
    ul ← column row 1; dl ← column row 2;
    let subs := subs_setUEAMBR subs (strtoull0 ul) (strtoull0 dl) in
    q ← column row 13; p ← column row 14; pc ← column row 15; pv ← column row 16;
    let qos := {| q_pvi := first_char pv .& 1; q_pl := atoi p .& 0xf; q_pci := first_char pc .& 1; q_qci := wrap8 (atoi q);
                  q_mbr_ul := 0; q_mbr_dl := 0; q_gbr_ul := 0; q_gbr_dl := 0 |} in
    let pdn := pdnCtx_setDefaultBearerQoS (subs_newPDNCtx subs) qos in
    t ← column row 9;
    let pdn := pdnCtx_setPDNtype pdn (first_char t) in
    a ← column row 5;
    let apn := a ++ s_mnc ++ pct_3u mnc ++ s_mcc ++ pct_3u mcc ++ s_gprs in
    _ ← overwrite (repeat 0 100) 0 (apn ++ [0]);
    Ok (Loc_profile (strtoull0 msisdn) (with_pdn subs (pdnCtx_setAPN pdn apn)))
  end.

(** ** Hexadecimal strings and octets *)

(** The octets of MySQL's literal x'...'. *)
Fixpoint unhex (s : list Z) : list Z :=
  match s with
  | a :: b :: s => (16 * digit a + digit b) :: unhex s
  | _ => []
  end.

Definition hex_pair (x : Z) : list Z := [nth (Z.to_nat (x >> 4)) hex_str 0; nth (Z.to_nat (x .& 0x0f)) hex_str 0].

Lemma hex_pair_digits x : byte_ok x ->
  let d := digit (nth (Z.to_nat (x >> 4)) hex_str 0) in let e := digit (nth (Z.to_nat (x .& 0x0f)) hex_str 0) in
  0 <= d < 16 /\ 0 <= e < 16 /\ 16 * d + e = x.
Proof.
  intros H. cbv zeta.
  assert (B : forall y, byte_ok y -> (let d := digit (nth (Z.to_nat (y >> 4)) hex_str 0) in let e := digit (nth (Z.to_nat (y .& 0x0f)) hex_str 0) in
    (0 <=? d) && (d <? 16) && (0 <=? e) && (e <? 16) && (16 * d + e =? y)) = true) by (apply byte_forall; vm_compute; reflexivity).
  specialize (B x H). cbv zeta in B. rewrite !andb_true_iff, !Z.leb_le, !Z.ltb_lt, Z.eqb_eq in B. tauto.
Qed.

Lemma bin_to_strhex_spec n l : octets n l -> bin_to_strhex l n = concat (map hex_pair l).
Proof.
  intros [<- _]. unfold bin_to_strhex. f_equal. induction l as [|x l IH]; [done|]. cbn [length seq map nth]. f_equal.
  rewrite <- IH, <- seq_shift, map_map. done.
Qed.

Lemma unhex_hex n l : octets n l -> unhex (bin_to_strhex l n) = l.
Proof.
  intros H. rewrite (bin_to_strhex_spec n l H). destruct H as [_ H]. clear n. induction H as [|x l Hx _ IH]; [done|].
  cbn [map concat hex_pair app unhex]. rewrite IH. f_equal. apply (hex_pair_digits x Hx).
Qed.

Lemma digits_hex l acc : bytes_ok l -> digits 16 acc (concat (map hex_pair l)) = acc * 256 ^ Z.of_nat (length l) + be_val l.
Proof.
  intros H. revert acc. induction H as [|x l Hx Hl IH]; intros acc; [cbn; lia|].
  cbn [map concat hex_pair app digits]. destruct (hex_pair_digits x Hx) as (D & E & X).
  destruct (Z.ltb_spec (digit (nth (Z.to_nat (x >> 4)) hex_str 0)) 16); [|lia].
  destruct (Z.ltb_spec (digit (nth (Z.to_nat (x .& 15)) hex_str 0)) 16); [|lia].
  rewrite IH, be_val_cons. cbn [length]. rewrite Nat2Z.inj_succ, Z.pow_succ_r by lia.
  replace ((acc * 16 + digit (nth (Z.to_nat (x >> 4)) hex_str 0)) * 16 + digit (nth (Z.to_nat (x .& 15)) hex_str 0)) with (acc * 256 + x) by lia. ring.
Qed.

Lemma put_loop_spec n x : 0 <= x -> put_loop n x = be_bytes n x.
Proof.
  revert x. induction n as [|n IH]; intros x Hx; [done|]. cbn [put_loop be_bytes]. rewrite land_ff, Z.shiftr_div_pow2 by lia.
  change (2^8) with 256. by rewrite IH by (apply Z.div_pos; lia).
Qed.

Lemma be_bytes_octets n x : octets n (be_bytes n x).
Proof.
  revert x. induction n as [|n IH]; intros x; [by split|]. cbn [be_bytes]. rewrite <- Nat.add_1_r. apply octets_app; [apply IH|].
  split; [done|]. apply Forall_cons_2; [apply Z.mod_pos_bound; lia|apply Forall_nil_2].
Qed.

Lemma be_val_be_bytes n x : be_val (be_bytes n x) = x mod 256 ^ Z.of_nat n.
Proof.
  revert x. induction n as [|n IH]; intros x; [cbn; by rewrite Z.mod_1_r|].
  cbn [be_bytes]. rewrite be_val_snoc, IH, Nat2Z.inj_succ, Z.pow_succ_r by lia.
  rewrite (Z.rem_mul_r x 256) by (try apply Z.pow_pos_nonneg; lia). lia.
Qed.

(** The sequence number is increased by 32, so that its five low bits stay. *)
Lemma increaseSQN_spec sqn : octets 6 sqn ->
  octets 6 (increaseSQN sqn) /\ be_val (increaseSQN sqn) = (be_val sqn + 32) mod 2^48.
Proof.
  intros H. pose proof (be_val_bound sqn (proj2 H)) as B. rewrite (proj1 H) in B. change (256 ^ Z.of_nat 6) with (2^48) in B.
  unfold increaseSQN, strtoll16. rewrite (bin_to_strhex_spec 6 sqn H), digits_hex by apply H. rewrite Z.mul_0_l, Z.add_0_l.
  rewrite Z.min_l, !wrap64_id by (rewrite ?wrap64_id by lia; lia). rewrite put_loop_spec by lia.
  split; [apply be_bytes_octets|]. by rewrite be_val_be_bytes.
Qed.

(** ** Vectors *)

Record row_ok (r : hss_row) : Prop := {
  ok_k : octets 16 (row_k r); ok_sqn : octets 6 (row_sqn r); ok_op : octets 16 (row_op r); ok_amf : octets 2 (row_amf r);
  ok_opc : match row_opc r with None => True | Some o => octets 16 o end }.

(** The OPc of a subscriber: its own, or the one of the operator's OP. *)
Definition subscriber_opc (r : hss_row) : list Z :=
  match row_opc r with None => TS35206.OPc (row_op r) (row_k r) | Some o => o end.

(** K_ASME of 3GPP TS 33.401, annex A.2. *)
Definition ts33401_kasme (ck ik sn sqn_xor_ak : list Z) : list Z :=
  rfc_hmac FIPS.SHA256 (ck ++ ik) (0x10 :: sn ++ [0x00; 0x03] ++ sqn_xor_ak ++ [0x00; 0x06]).

Lemma rdn_octets n k l : octets n l -> k = Z.of_nat n -> rdn l k = Ok l.
Proof. intros [L _] ->. apply rdn_all. by rewrite L. Qed.

Lemma read_row_spec r : row_ok r -> read_row r = Ok (row_k r, row_sqn r, row_amf r, subscriber_opc r) /\ octets 16 (subscriber_opc r).
Proof.
  intros [Hk Hs Ho Ha Hc]. unfold read_row, subscriber_opc.
  rewrite (rdn_octets 16 16 _ Hk eq_refl), (rdn_octets 6 6 _ Hs eq_refl), (rdn_octets 16 16 _ Ho eq_refl), (rdn_octets 2 2 _ Ha eq_refl). osimp.
  destruct (row_opc r) as [o|]; [by rewrite (rdn_octets 16 16 o Hc eq_refl)|]. destruct (getOPC_spec _ _ Ho Hk) as [<- ?]. done.
Qed.

Section Correct.
Context (tmp : sha_ctx) (hctx : hmac_ctx) (Ht : sized SHA256 tmp) (Hh : hmac_memory SHA256 hctx).

Lemma hash256_octets m : octets 32 (FIPS.hash FIPS.SHA256 m).
Proof using. apply (hash_octets (sha_agrees _ _ std_sha256)). Qed.

Lemma generate_Kasme_spec ck ik sn autn : octets 16 ck -> octets 16 ik -> octets 3 sn -> (6 <= length autn)%nat ->
  generate_Kasme tmp hctx ck ik sn autn = Ok (ts33401_kasme ck ik sn (take 6 autn)).
Proof using Ht Hh.
  intros Hc Hi Hs La. unfold generate_Kasme. rewrite (rdn_octets 16 16 ck Hc eq_refl), (rdn_octets 16 16 ik Hi eq_refl), (rdn_octets 3 3 sn Hs eq_refl). osimp.
  unfold rdn. destruct (Z.ltb_spec (Z.of_nat (length autn)) 6); [lia|]. osimp. change (Z.to_nat 6) with 6%nat.
  assert (L : length (ck ++ ik) = 32%nat) by (rewrite length_app, (proj1 Hc), (proj1 Hi); done).
  assert (S : length ([0x10] ++ sn ++ [0x00; 0x03] ++ take 6 autn ++ [0x00; 0x06]) = 14%nat)
    by (rewrite !length_app, length_take, (proj1 Hs); cbn [length]; lia).
  pose proof (hmac_sha256_spec tmp hctx (ck ++ ik) ([0x10] ++ sn ++ [0x00; 0x03] ++ take 6 autn ++ [0x00; 0x06]) 32 Ht Hh) as E.
  rewrite L, S in E. change (Z.of_nat 32) with 32 in E. change (Z.of_nat 14) with 14 in E. rewrite E by lia.
  change (Z.to_nat 32) with 32%nat. rewrite octets_take_all by apply hash256_octets. done.
Qed.

(** What a terminal with [opc] and [k] makes of a vector: it accepts the token,
    answers with the expected RES and has the same K_ASME. *)
Definition terminal_agrees (opc k sn : list Z) (q : AuthQuadruplet) (sqn amf : list Z) : Prop :=
  exists a, USIM.check opc k (rAND q) (aUTN q) = Some a /\ USIM.u_sqn a = sqn /\ USIM.u_amf a = amf /\
    USIM.u_res a = xRES q /\ ts33401_kasme (USIM.u_ck a) (USIM.u_ik a) sn (take 6 (aUTN q)) = kASME q.

Lemma make_vector_spec imsi k sqn amf opc rand sn : octets 16 k -> octets 6 sqn -> octets 2 amf -> octets 16 opc -> octets 16 rand -> octets 3 sn ->
  exists q st, make_vector tmp hctx imsi k sqn amf opc rand sn = Ok (q, st) /\ rAND q = rand /\ terminal_agrees opc k sn q sqn amf /\
    unhex (a_sqn st) = sqn /\ unhex (a_opc st) = opc /\ a_mcc st = imsi_mcc imsi /\ a_mnc st = imsi_mnc imsi /\ a_msin st = imsi_msin imsi.
Proof using Ht Hh.
  intros Hk Hs Ha Ho Hr Hn. unfold make_vector.
  destruct (token_accepted opc k rand Ho Hk Hr sqn amf 8 Hs Ha ltac:(lia)) as (o & E & OA & [C I] & EA & U). rewrite E.
  rewrite generate_Kasme_spec by (try done; rewrite (proj1 OA); lia). osimp. eexists _, _. split; [reflexivity|].
  split; [done|]. split; [|cbn [a_sqn a_opc]; by rewrite !unhex_hex].
  eexists. cbn [rAND aUTN xRES kASME]. split; [exact U|]. done.
Qed.

Lemma newAuthVec_spec imsi r rand sn : row_ok r -> octets 16 rand -> octets 3 sn ->
  exists q st, HSS_newAuthVec tmp hctx imsi (Some [r]) rand sn = Ok (Auth_vec q, Some st) /\ rAND q = rand /\
    terminal_agrees (subscriber_opc r) (row_k r) sn q (increaseSQN (row_sqn r)) (row_amf r) /\
    unhex (a_sqn st) = increaseSQN (row_sqn r) /\ unhex (a_opc st) = subscriber_opc r /\
    a_mcc st = imsi_mcc imsi /\ a_mnc st = imsi_mnc imsi /\ a_msin st = imsi_msin imsi.
Proof using Ht Hh.
  intros R Hr Hn. unfold HSS_newAuthVec. destruct (read_row_spec r R) as [-> O]. osimp.
  destruct (increaseSQN_spec _ (ok_sqn r R)) as [I _].
  destruct (make_vector_spec imsi (row_k r) (increaseSQN (row_sqn r)) (row_amf r) (subscriber_opc r) rand sn (ok_k r R) I (ok_amf r R) O Hr Hn)
    as (q & st & -> & A). osimp. by exists q, st.
Qed.

Lemma syncAuthVec_spec imsi r first auts rand sn : row_ok r -> octets 16 first -> octets 14 auts -> octets 16 rand -> octets 3 sn ->
  let opc := subscriber_opc r in
  let result := HSS_syncAuthVec tmp hctx imsi (Some [r]) (Some first) auts rand sn in
  (forall sqn, octets 6 sqn -> auts = USIM.auts opc (row_k r) first sqn ->
    (sqn = row_sqn r -> result = Ok (Sync_already, None)) /\
    (sqn <> row_sqn r -> exists q st, result = Ok (Sync_vec q, Some st) /\ rAND q = rand /\
      terminal_agrees opc (row_k r) sn q (increaseSQN sqn) (row_amf r) /\ unhex (a_sqn st) = increaseSQN sqn)) /\
  ((forall sqn, octets 6 sqn -> auts <> USIM.auts opc (row_k r) first sqn) -> result = Ok (Sync_nothing, None)).
Proof using Ht Hh.
  intros R Hf Hau Hr Hn opc result. destruct (read_row_spec r R) as [E O]. subst result opc. unfold HSS_syncAuthVec. rewrite E. osimp.
  destruct (milenage_auts (subscriber_opc r) (row_k r) first auts) as [ret sqn0] eqn:M. split.
  - intros sqn Hs A. assert (M' : milenage_auts (subscriber_opc r) (row_k r) first auts = (0, sqn)) by (apply auts_accepted; auto using ok_k).
    rewrite M in M'. injection M' as -> ->. cbn [Z.eqb]. split.
    + intros ->. by rewrite bool_decide_eq_true_2.
    + intros N. rewrite bool_decide_eq_false_2 by done. destruct (increaseSQN_spec _ Hs) as [I _].
      destruct (make_vector_spec imsi (row_k r) (increaseSQN sqn) (row_amf r) (subscriber_opc r) rand sn (ok_k r R) I (ok_amf r R) O Hr Hn)
        as (q & st & -> & RA & T & S & _). osimp. by exists q, st.
  - intros N. destruct (Z.eqb_spec ret 0) as [->|]; [|done].
    apply auts_accepted in M; [|auto using ok_k..]. destruct M as [S A]. by destruct (N sqn0 S).
Qed.
End Correct.

(** ** A database that keeps what it is told *)

(** MySQL as the functions use it: the query [authparams] and the two
    statements of [insertAuthVector], which set the columns sqn and opc of the
    subscriber's row (and keep the vector, which is not read again). *)
Class SQL (db : Type) := {
  select : db -> Z -> Z -> Z -> list hss_row;
  store : db -> auth_store -> db;
  store_same d a r : select d (a_mcc a) (a_mnc a) (a_msin a) = [r] ->
    select (store d a) (a_mcc a) (a_mnc a) (a_msin a) =
    [{| row_k := row_k r; row_opc := Some (unhex (a_opc a)); row_sqn := unhex (a_sqn a); row_op := row_op r; row_amf := row_amf r |}];
  store_other d a mcc mnc msin : (mcc, mnc, msin) <> (a_mcc a, a_mnc a, a_msin a) -> select (store d a) mcc mnc msin = select d mcc mnc msin;
}.

(** A request for a vector: the IMSI, the random octets and the serving network. *)
Record request := { r_imsi : Z; r_rand : list Z; r_sn : list Z }.
Definition request_ok (r : request) : Prop := octets 16 (r_rand r) /\ octets 3 (r_sn r).
Definition subscriber (imsi : Z) : Z * Z * Z := (imsi_mcc imsi, imsi_mnc imsi, imsi_msin imsi).

Section Database.
Context (tmp : sha_ctx) (hctx : hmac_ctx) (Ht : sized SHA256 tmp) (Hh : hmac_memory SHA256 hctx).
Context {db : Type} {sql : SQL db}.

Definition rows_of (d : db) (s : Z * Z * Z) : list hss_row := let '(mcc, mnc, msin) := s in select d mcc mnc msin.

(** One call of [HSS_getAuthVec] with what the database answers and keeps. *)
Definition hss_call (d : db) (r : request) : outcome (auth_answer * db) :=
  '(a, st) ← HSS_getAuthVec tmp hctx (r_imsi r) (Some (rows_of d (subscriber (r_imsi r)))) (r_rand r) (r_sn r);
  Ok (a, match st with Some a => store d a | None => d end).

(** The vectors of a sequence of calls, each with its request. *)
Fixpoint hss_calls (d : db) (rs : list request) : outcome (list (request * AuthQuadruplet)) :=
  match rs with
  | [] => Ok []
  | r :: rs =>
    '(a, d) ← hss_call d r;
    l ← hss_calls d rs;
    Ok (match a with Auth_vec q => (r, q) :: l | _ => l end)
  end.

(** Every row of the database is well-formed. *)
Definition db_ok (d : db) : Prop := forall s, Forall row_ok (rows_of d s).

(** [n] times 32 more. *)
Fixpoint increased (n : nat) (sqn : list Z) : list Z := match n with O => sqn | S n => increased n (increaseSQN sqn) end.

Lemma increased_spec n sqn : octets 6 sqn -> octets 6 (increased n sqn) /\ be_val (increased n sqn) = (be_val sqn + 32 * Z.of_nat n) mod 2^48.
Proof using.
  revert sqn. induction n as [|n IH]; intros sqn H.
  - split; [done|]. cbn [increased]. pose proof (be_val_bound sqn (proj2 H)) as B. rewrite (proj1 H) in B. change (256 ^ Z.of_nat 6) with (2^48) in B.
    rewrite Z.mod_small; lia.
  - destruct (increaseSQN_spec sqn H) as [I E]. cbn [increased]. destruct (IH _ I) as [I' ->]. split; [done|]. rewrite E.
    rewrite Zplus_mod_idemp_l. f_equal. lia.
Qed.

Lemma subscriber_store imsi st : a_mcc st = imsi_mcc imsi -> a_mnc st = imsi_mnc imsi -> a_msin st = imsi_msin imsi ->
  forall d r, rows_of d (subscriber imsi) = [r] ->
  rows_of (store d st) (subscriber imsi) =
    [{| row_k := row_k r; row_opc := Some (unhex (a_opc st)); row_sqn := unhex (a_sqn st); row_op := row_op r; row_amf := row_amf r |}] /\
  forall s, s <> subscriber imsi -> rows_of (store d st) s = rows_of d s.
Proof using.
  unfold subscriber. intros <- <- <- d r E. split; [by apply store_same|]. intros [[m n] i] N. by apply store_other.
Qed.

(** The step: the row has the new sequence number and its OPc; the others stay. *)
Lemma hss_call_spec d r : db_ok d -> request_ok r ->
  exists a d', hss_call d r = Ok (a, d') /\ db_ok d' /\
    (forall s, s <> subscriber (r_imsi r) -> rows_of d' s = rows_of d s) /\
    match rows_of d (subscriber (r_imsi r)) with
    | [row] => exists q row', a = Auth_vec q /\ rAND q = r_rand r /\ rows_of d' (subscriber (r_imsi r)) = [row'] /\
        row_k row' = row_k row /\ row_amf row' = row_amf row /\ subscriber_opc row' = subscriber_opc row /\ row_sqn row' = increaseSQN (row_sqn row) /\
        terminal_agrees (subscriber_opc row) (row_k row) (r_sn r) q (increaseSQN (row_sqn row)) (row_amf row)
    | _ => (forall q, a <> Auth_vec q) /\ d' = d
    end.
Proof using Ht Hh.
  intros D [Hr Hn]. unfold hss_call, HSS_getAuthVec. pose proof (D (subscriber (r_imsi r))) as R.
  destruct (rows_of d (subscriber (r_imsi r))) as [|row [|row2 rows]] eqn:E.
  - eexists _, _. split; [reflexivity|]. done.
  - apply Forall_cons in R as [R _].
    destruct (newAuthVec_spec tmp hctx Ht Hh (r_imsi r) row (r_rand r) (r_sn r) R Hr Hn) as (q & st & -> & RA & T & S & O & M1 & M2 & M3). osimp.
    destruct (subscriber_store (r_imsi r) st M1 M2 M3 d row E) as [E' F]. rewrite S, O in E'.
    eexists _, _. split; [reflexivity|]. split; [|split; [exact F|]].
    + intros s. destruct (decide (s = subscriber (r_imsi r))) as [->|N]; [|rewrite F by done; apply D]. rewrite E'.
      apply Forall_cons_2; [|apply Forall_nil_2]. destruct R. split; cbn [row_k row_sqn row_op row_amf row_opc]; try done; [by apply increaseSQN_spec|].
      by apply read_row_spec.
    + by eexists q, _.
  - eexists _, _. split; [reflexivity|]. done.
Qed.

Lemma hss_calls_spec rs d row s : db_ok d -> Forall request_ok rs -> rows_of d s = [row] ->
  exists l, hss_calls d rs = Ok l /\
  forall i r q, filter (fun p => subscriber (r_imsi (fst p)) = s) l !! i = Some (r, q) ->
    rAND q = r_rand r /\ terminal_agrees (subscriber_opc row) (row_k row) (r_sn r) q (increased (S i) (row_sqn row)) (row_amf row).
Proof using Ht Hh.
  intros D F. revert d row D. induction F as [|r rs Hr F IH]; intros d row D E; [exists []; split; [done|]; by intros [|]|].
  destruct (hss_call_spec d r D Hr) as (a & d' & C & D' & O & M). cbn [hss_calls]. rewrite C. osimp.
  destruct (decide (subscriber (r_imsi r) = s)) as [Es|N].
  - rewrite Es, E in M. destruct M as (q & row' & -> & RA & E' & K & Am & Op & Sq & T).
    destruct (IH d' row' D' E') as (l & -> & L). eexists. split; [reflexivity|]. intros i r1 q1.
    rewrite filter_cons_True by done. destruct i as [|i]; cbn [lookup list_lookup].
    + intros [= <- <-]. done.
    + intros G. destruct (L i r1 q1 G) as [RA1 T1]. rewrite K, Am, Op, Sq in T1. done.
  - assert (E' : rows_of d' s = [row]) by (rewrite O; [done|congruence]).
    destruct (IH d' row D' E') as (l & -> & L). eexists. split; [reflexivity|]. intros i r1 q1 G. apply (L i r1 q1).
    destruct a; [|done..]. by rewrite filter_cons_False in G.
Qed.
End Database.

(** ** Theorems *)

(** C4: authentication vectors are usable and fresh.  For any sequence of calls
    of [HSS_getAuthVec] for any subscribers, any random octets and any serving
    networks, and a database of well-formed rows that keeps what it is told, all
    calls return; and the i-th vector for a subscriber with one row is accepted
    by its terminal (sharing K, and OPc or OP), which reads the AMF of the row
    and a SQN that is the one the row started with plus 32 times i (mod 2^48),
    answers with the vector's xRES and derives the vector's K_ASME. *)
Theorem hss_vectors_agree tmp hctx {db} {sql : SQL db} (d : db) rs imsi row : sized SHA256 tmp -> hmac_memory SHA256 hctx ->
  db_ok d -> Forall request_ok rs -> rows_of d (subscriber imsi) = [row] ->
  exists l, hss_calls tmp hctx d rs = Ok l /\
  forall i r q, filter (fun p => subscriber (r_imsi (fst p)) = subscriber imsi) l !! i = Some (r, q) ->
    exists a, USIM.check (subscriber_opc row) (row_k row) (rAND q) (aUTN q) = Some a /\
      rAND q = r_rand r /\ USIM.u_amf a = row_amf row /\
      be_val (USIM.u_sqn a) = (be_val (row_sqn row) + 32 * Z.of_nat (S i)) mod 2^48 /\
      USIM.u_res a = xRES q /\ ts33401_kasme (USIM.u_ck a) (USIM.u_ik a) (r_sn r) (take 6 (aUTN q)) = kASME q.
Proof.
  intros Ht Hh D F E. destruct (hss_calls_spec tmp hctx Ht Hh rs d row _ D F E) as (l & C & L). exists l. split; [done|]. intros i r q G.
  destruct (L i r q G) as (RA & a & U & US & UA & UR & UK). exists a. do 3 (split; [done|]). rewrite US. split; [|done].
  pose proof (D (subscriber imsi)) as R. rewrite E in R. apply Forall_cons in R as [R _]. by apply increased_spec, ok_sqn.
Qed.

(** C5: resynchronisation.  For a well-formed row and any 14 octets of AUTS:
    when they are the token of the terminal for the RAND of the outstanding
    vector and a sequence number that differs from the stored one, the new
    vector is accepted by the terminal with that number plus 32, which is what
    is stored; when the number is the stored one an error is reported; when
    they are the token of no sequence number nothing is done. *)
Theorem hss_resynchronises tmp hctx imsi r first auts rand sn : sized SHA256 tmp -> hmac_memory SHA256 hctx ->
  row_ok r -> octets 16 first -> octets 14 auts -> octets 16 rand -> octets 3 sn ->
  let opc := subscriber_opc r in
  let result := HSS_syncAuthVec tmp hctx imsi (Some [r]) (Some first) auts rand sn in
  (forall sqn, octets 6 sqn -> auts = USIM.auts opc (row_k r) first sqn ->
    (sqn = row_sqn r -> result = Ok (Sync_already, None)) /\
    (sqn <> row_sqn r -> exists q st a, result = Ok (Sync_vec q, Some st) /\
      USIM.check opc (row_k r) (rAND q) (aUTN q) = Some a /\ be_val (USIM.u_sqn a) = (be_val sqn + 32) mod 2^48 /\
      unhex (a_sqn st) = USIM.u_sqn a /\ USIM.u_res a = xRES q /\
      ts33401_kasme (USIM.u_ck a) (USIM.u_ik a) sn (take 6 (aUTN q)) = kASME q)) /\
  ((forall sqn, octets 6 sqn -> auts <> USIM.auts opc (row_k r) first sqn) -> result = Ok (Sync_nothing, None)).
Proof.
  intros Ht Hh R Hf Ha Hr Hn opc result. destruct (syncAuthVec_spec tmp hctx Ht Hh imsi r first auts rand sn R Hf Ha Hr Hn) as [A B].
  split; [|exact B]. intros sqn Hs E. destruct (A sqn Hs E) as [A1 A2]. split; [exact A1|]. intros N.
  destruct (A2 N) as (q & st & X & _ & (a & U & US & _ & UR & UK) & S). exists q, st, a. rewrite US. do 2 (split; [done|]).
  split; [by apply increaseSQN_spec|]. done.
Qed.

(** ** Decimal columns and the profile *)

Lemma digits_snoc l acc c : digit c < 10 -> Forall (fun x => digit x < 10) l -> digits 10 acc (l ++ [c]) = digits 10 acc l * 10 + digit c.
Proof.
  intros Hc F. revert acc. induction F as [|x l Hx F IH]; intros acc; cbn [app digits].
  - destruct (Z.ltb_spec (digit c) 10); [done|lia].
  - destruct (Z.ltb_spec (digit x) 10); [apply IH|lia].
Qed.

Lemma digit_dec n : 0 <= n < 10 -> digit (48 + n) = n.
Proof. intros H. unfold digit. destruct (Z.leb_spec 48 (48 + n)), (Z.leb_spec (48 + n) 57); cbn [andb]; lia. Qed.

Lemma decimal_spec fuel n : 0 <= n < 10 ^ Z.of_nat fuel -> (0 < fuel)%nat ->
  digits 10 0 (decimal fuel n) = n /\ Forall (fun x => digit x < 10) (decimal fuel n) /\
  exists c l, decimal fuel n = c :: l /\ (n = 0 \/ c <> 48) /\ (n < 1000 -> (length l <= 2)%nat).
Proof.
  revert n. induction fuel as [|fuel IH]; intros n H L; [lia|]. cbn [decimal]. destruct (Z.ltb_spec n 10).
  - split; [|split]; [cbn [digits]; rewrite digit_dec by lia; destruct (Z.ltb_spec n 10); lia| |].
    + apply Forall_cons_2; [rewrite digit_dec; lia|apply Forall_nil_2].
    + exists (48 + n), []. split; [done|]. cbn [length]. split; lia.
  - rewrite Nat2Z.inj_succ, Z.pow_succ_r in H by lia.
    assert (B : 0 <= n / 10 < 10 ^ Z.of_nat fuel) by lia.
    assert (0 < fuel)%nat by (destruct fuel; [cbn in B; lia|lia]).
    destruct (IH (n / 10) B) as (D & F & c & l & E & N & K); [done|]. pose proof (digit_dec (n mod 10)) as M.
    rewrite digits_snoc, D, M by (try done; rewrite ?M; lia). split; [lia|]. split; [apply Forall_app; split; [done|]; apply Forall_cons_2; [rewrite M; lia|apply Forall_nil_2]|].
    exists c, (l ++ [48 + n mod 10]). rewrite E. split; [done|]. split; [right; destruct N; [lia|done]|]. intros. rewrite length_app. cbn [length].
    destruct (Z.ltb_spec (n / 10) 10) as [S|S].
    + enough (length l = 0%nat) by lia. destruct fuel as [|fuel]; [lia|]. cbn [decimal] in E. destruct (Z.ltb_spec (n / 10) 10); [|lia]. by injection E as _ <-.
    + enough (length l <= 1)%nat by lia. destruct fuel as [|fuel]; [lia|]. cbn [decimal] in E. destruct (Z.ltb_spec (n / 10) 10); [lia|].
      assert (n / 10 / 10 < 10) by lia. destruct fuel as [|fuel]; cbn [decimal] in E.
      * injection E as _ <-. cbn. lia.
      * destruct (Z.ltb_spec (n / 10 / 10) 10); [|lia]. injection E as _ <-. cbn. lia.
Qed.

Lemma strtoull0_decimal n : 0 <= n < 2^64 -> strtoull0 (decimal 20 n) = n.
Proof.
  intros H. destruct (decimal_spec 20 n) as (D & _ & c & l & E & N & _); [lia|lia|]. unfold strtoull0. destruct N as [->|N]; [done|].
  rewrite E in *. assert (X : forall A (x y : A), match c with 48 => x | _ => y end = y) by (intros; destruct c as [|p|]; [done|do 6 (destruct p as [p|p|]; try done)|done]).
  replace (match c :: l with 48 :: x :: (d :: _ as s') => if ((x =? 120) || (x =? 88)) && (digit d <? 16) then digits 16 0 s' else digits 8 0 (c :: l) | 48 :: _ => digits 8 0 (c :: l) | _ => digits 10 0 (c :: l) end)
    with (digits 10 0 (c :: l)); [rewrite D; lia|]. destruct c as [|p|]; [done|do 6 (destruct p as [p|p|]; try done)|done].
Qed.

Lemma atoi_decimal n : 0 <= n < 2^63 -> atoi (decimal 20 n) = n.
Proof. intros H. unfold atoi. destruct (decimal_spec 20 n) as (-> & _); lia. Qed.

Lemma pct_3u_length n : 0 <= n < 1000 -> length (pct_3u n) = 3%nat.
Proof.
  intros H. unfold pct_3u. destruct (decimal_spec 20 n) as (_ & _ & c & l & -> & _ & L); [lia|lia|].
  rewrite length_app, repeat_length. cbn [length]. specialize (L ltac:(lia)). lia.
Qed.

(** The columns of a profile row that are read, the others being arbitrary. *)
Definition profile_row (msisdn ul dl qci pl : Z) (pci pvi t : Z) (apn : list Z) (x3 x4 x6 x7 x8 x10 x11 x12 : option (list Z)) : list (option (list Z)) :=
  [Some (decimal 20 msisdn); Some (decimal 20 ul); Some (decimal 20 dl); x3; x4; Some apn; x6; x7; x8; Some [t]; x10; x11; x12;
   Some (decimal 20 qci); Some (decimal 20 pl); Some [pci]; Some [pvi]].

(** The name of the access point with the operator's labels. *)
Definition full_apn (imsi : Z) (apn : list Z) : list Z :=
  apn ++ s_mnc ++ pct_3u (imsi_mnc imsi) ++ s_mcc ++ pct_3u (imsi_mcc imsi) ++ s_gprs.

(** [HSS_UpdateLocation] on a row with decimal columns stores the MSISDN,
    the aggregate bit rates, the default bearer's QCI and priority level, the
    low bits of the pre-emption columns, the PDN type and the access point name
    extended with the operator's mnc and mcc, as long as the name has at most 80
    characters; a longer one is written past the end of its buffer. *)
Theorem hss_profile_stored imsi s msisdn ul dl qci pl pci pvi t name x3 x4 x6 x7 x8 x10 x11 x12 : 0 <= imsi < 10^15 ->
  0 <= msisdn < 2^64 -> 0 <= ul < 2^64 -> 0 <= dl < 2^64 -> 0 <= qci < 256 -> 0 <= pl < 16 ->
  let row := profile_row msisdn ul dl qci pl pci pvi t name x3 x4 x6 x7 x8 x10 x11 x12 in
  (Z.of_nat (length name) <= 80 -> exists s', HSS_UpdateLocation imsi s (L_row row) = Ok (Loc_profile msisdn s') /\
    subs_getUEAMBR s' = (ul, dl) /\ subs_getAPN s' = full_apn imsi name /\ subs_getPDNType s' = t /\
    Subs.qci (Subs.qos (Subs.pdn s')) = qci /\ level (arp (Subs.qos (Subs.pdn s'))) = pl /\
    preemption_capability (arp (Subs.qos (Subs.pdn s'))) = Z.odd pci /\ preemption_vulnerability (arp (Subs.qos (Subs.pdn s'))) = Z.odd pvi) /\
  (80 < Z.of_nat (length name) -> HSS_UpdateLocation imsi s (L_row row) = UB OutOfBounds).
Proof.
  intros Hi Hm Hu Hd Hq Hp row.
  assert (L : Z.of_nat (length (full_apn imsi name ++ [0])) = Z.of_nat (length name) + 20).
  { unfold full_apn. rewrite !length_app, !pct_3u_length; [cbn [length s_mnc s_mcc s_gprs]; lia|..]; unfold imsi_mcc, imsi_mnc, wrap16, wrap8; lia. }
  unfold HSS_UpdateLocation. cbn [column nth row profile_row]. osimp. cbn [column nth]. osimp. fold (full_apn imsi name).
  unfold overwrite. rewrite L, repeat_length. change (Z.of_nat 100) with 100.
  assert (odd : forall x, negb (x .& 1 =? 0) = Z.odd x).
  { intros x. change 1 with (Z.ones 1). rewrite Z.land_ones by lia. change (2^1) with 2. rewrite Zmod_odd. by destruct (Z.odd x). }
  rewrite !strtoull0_decimal by done. rewrite !atoi_decimal by lia.
  split; intros H; destruct (Z.ltb_spec 100 (0 + (Z.of_nat (length name) + 20))); try lia; [|done]. osimp.
  eexists. split; [reflexivity|]. unfold subs_getUEAMBR, subs_getAPN, subs_getPDNType.
  cbn [with_pdn ambr_ul ambr_dl apn pdn pdnCtx_setAPN pdnCtx_setPDNtype with_pdn_addr pdn_addr_type pdnCtx_setDefaultBearerQoS subs_setUEAMBR subs_newPDNCtx
       Subs.qci Subs.qos Subs.pdn arp level preemption_capability preemption_vulnerability q_qci q_pl q_pci q_pvi first_char].
  rewrite !odd, wrap8_id, land_0f, Z.mod_small by lia. done.
Qed.

(** ** A concrete database *)

#[local] Abbreviation key := (Z * Z * Z)%type.
Abbreviation table := (list (key * hss_row)).
Definition new_row (a : auth_store) (r : hss_row) : hss_row :=
  {| row_k := row_k r; row_opc := Some (unhex (a_opc a)); row_sqn := unhex (a_sqn a); row_op := row_op r; row_amf := row_amf r |}.
Definition select_rows (d : table) (s : key) : list hss_row := map snd (filter (fun p => fst p = s) d).
Definition store_row (d : table) (a : auth_store) : table :=
  map (fun p => if decide (fst p = (a_mcc a, a_mnc a, a_msin a)) then (fst p, new_row a (snd p)) else p) d.

Lemma select_cons k r d s : select_rows ((k, r) :: d) s = if decide (k = s) then r :: select_rows d s else select_rows d s.
Proof. unfold select_rows. rewrite filter_cons. cbn [fst]. by destruct (decide (k = s)). Qed.
Lemma store_cons k r d a : store_row ((k, r) :: d) a =
  (k, if decide (k = (a_mcc a, a_mnc a, a_msin a)) then new_row a r else r) :: store_row d a.
Proof. unfold store_row. cbn [map fst snd]. by destruct (decide _). Qed.

Lemma select_store d a : select_rows (store_row d a) (a_mcc a, a_mnc a, a_msin a) = map (new_row a) (select_rows d (a_mcc a, a_mnc a, a_msin a)).
Proof.
  induction d as [|[k r] d IH]; [done|]. rewrite store_cons, !select_cons, IH. by destruct (decide (k = _)).
Qed.

Lemma select_store_other d a s : s <> (a_mcc a, a_mnc a, a_msin a) -> select_rows (store_row d a) s = select_rows d s.
Proof.
  intros N. induction d as [|[k r] d IH]; [done|]. rewrite store_cons, !select_cons, IH.
  destruct (decide (k = s)) as [->|]; [|done]. by rewrite decide_False.
Qed.

#[local] Instance table_sql : SQL table.
Proof.
  refine {| select d mcc mnc msin := select_rows d (mcc, mnc, msin); store := store_row |}.
  - intros d a r E. by rewrite select_store, E.
  - intros d a mcc mnc msin. apply select_store_other.
Defined.

(** A subscriber with the keys of the test set and OP in the operator's row. *)
Definition ts_row : hss_row := {| row_k := ts_k; row_opc := None; row_sqn := ts_sqn; row_op := ts_op; row_amf := ts_amf |}.
Definition ts_imsi : Z := 244123456789012.
Definition ts_db : table := [((244, 12, 3456789012), ts_row)].
Definition ts_sn : list Z := [0x42; 0xf4; 0x21].
Definition ts_requests : list request := [ {| r_imsi := ts_imsi; r_rand := ts_rand; r_sn := ts_sn |}; {| r_imsi := 1; r_rand := ts_rand; r_sn := ts_sn |};
  {| r_imsi := ts_imsi; r_rand := ts_k; r_sn := ts_sn |} ].

Lemma ts_row_ok : row_ok ts_row.
Proof. split; [by apply octetsb_spec..|exact I]. Qed.

Lemma ts_db_ok : db_ok (db := table) ts_db.
Proof.
  intros s. destruct s as [[m n] i]. change (Forall row_ok (select_rows ts_db (m, n, i))). unfold select_rows, ts_db.
  destruct (decide ((244, 12, 3456789012) = (m, n, i))) as [E|N].
  - rewrite filter_cons_True by exact E. apply Forall_cons_2; [apply ts_row_ok|apply Forall_nil_2].
  - rewrite filter_cons_False by exact N. apply Forall_nil_2.
Qed.

Lemma hss_vectors_agree_witness : exists l, hss_calls (indeterminate 128) (indeterminate_hmac 64) ts_db ts_requests = Ok l /\ length l = 2%nat /\
  forall i r q, filter (fun p => subscriber (r_imsi (fst p)) = subscriber ts_imsi) l !! i = Some (r, q) ->
    exists a, USIM.check (subscriber_opc ts_row) (row_k ts_row) (rAND q) (aUTN q) = Some a /\
      rAND q = r_rand r /\ USIM.u_amf a = row_amf ts_row /\
      be_val (USIM.u_sqn a) = (be_val (row_sqn ts_row) + 32 * Z.of_nat (S i)) mod 2^48 /\
      USIM.u_res a = xRES q /\ ts33401_kasme (USIM.u_ck a) (USIM.u_ik a) (r_sn r) (take 6 (aUTN q)) = kASME q.
Proof.
  assert (S : sized SHA256 (indeterminate 128)) by reflexivity.
  assert (H : hmac_memory SHA256 (indeterminate_hmac 64)) by (split; reflexivity).
  assert (R : Forall request_ok ts_requests) by (repeat (apply Forall_cons_2; [split; by apply octetsb_spec|]); apply Forall_nil_2).
  destruct (hss_vectors_agree (indeterminate 128) (indeterminate_hmac 64) ts_db ts_requests ts_imsi ts_row S H ts_db_ok R eq_refl) as (l & E & L).
  exists l. split; [exact E|]. split; [|exact L].
  assert (N : match hss_calls (indeterminate 128) (indeterminate_hmac 64) ts_db ts_requests with Ok l => length l = 2%nat | UB _ => False end)
    by (vm_compute; reflexivity).
  rewrite E in N. exact N.
Defined.

Lemma hss_resynchronises_witness : exists q st a,
  HSS_syncAuthVec (indeterminate 128) (indeterminate_hmac 64) ts_imsi
    (Some [{| row_k := ts_k; row_opc := Some ts_opc; row_sqn := [0; 0; 0; 0; 0; 0]; row_op := ts_op; row_amf := ts_amf |}]) (Some ts_rand) ts_auts ts_k ts_sn = Ok (Sync_vec q, Some st) /\
  USIM.check ts_opc ts_k (rAND q) (aUTN q) = Some a /\ be_val (USIM.u_sqn a) = be_val ts_sqn + 32.
Proof.
  assert (R : row_ok {| row_k := ts_k; row_opc := Some ts_opc; row_sqn := [0; 0; 0; 0; 0; 0]; row_op := ts_op; row_amf := ts_amf |})
    by (split; by apply octetsb_spec).
  destruct (hss_resynchronises (indeterminate 128) (indeterminate_hmac 64) ts_imsi _ ts_rand ts_auts ts_k ts_sn eq_refl ltac:(split; reflexivity) R
    (octetsb_spec 16 ts_rand eq_refl) (octetsb_spec 14 ts_auts eq_refl) (octetsb_spec 16 ts_k eq_refl) (octetsb_spec 3 ts_sn eq_refl)) as [A _].
  destruct (A ts_sqn (octetsb_spec 6 ts_sqn eq_refl)) as [_ B]; [vm_compute; reflexivity|].
  destruct B as (q & st & a & E & U & V & _); [discriminate|]. exists q, st, a. split; [exact E|]. split; [exact U|]. rewrite V. vm_compute. reflexivity.
Defined.

Lemma hss_profile_stored_witness : exists s', HSS_UpdateLocation ts_imsi subs_init
    (L_row (profile_row 358401234567 50000 100000 9 8 48 49 1 sample_apn None None None None None None None None)) = Ok (Loc_profile 358401234567 s') /\
  subs_getUEAMBR s' = (50000, 100000) /\ subs_getAPN s' = sample_apn ++ [46; 109; 110; 99; 48; 49; 50; 46; 109; 99; 99; 50; 52; 52; 46; 103; 112; 114; 115].
Proof.
  destruct (hss_profile_stored ts_imsi subs_init 358401234567 50000 100000 9 8 48 49 1 sample_apn None None None None None None None None) as [A _];
    [unfold ts_imsi; lia|lia|lia|lia|lia|lia|].
  destruct A as (s' & E & U & P & _); [vm_compute; discriminate|]. exists s'. split; [exact E|]. split; [exact U|]. rewrite P. vm_compute. reflexivity.
Defined.
