(* ===== verification/Console.v ===== *)
(** The console (src/mme/commands.c) and the log (src/Common/logmgr.c): the lines
    of the operator, what is shown, the level of the log, and the text of a
    packet in the log.  libevent's buffer is the list of octets that arrived. *)
From S2P Require Import Prelude HSS MMEUtils.

(** ** The log *)

Definition LOG_INFO : Z := 6.
Definition SYSERR_MSGSIZE : nat := 512.
(** [change_logger_lvl]; the level is [logger.priority]. *)
Definition change_logger_lvl (level priority : Z) : Z := if (0 <=? priority) && (priority <? 8) then priority else level.
(** The level [mme_main] starts with, from [atoi] of MME_LOGLEVEL. *)
Definition initial_level (env : option Z) : Z :=
  match env with
  | None => LOG_INFO
  | Some lvl => if (lvl <? 1) || (7 <? lvl) then LOG_INFO else lvl
  end.

(** The content of the packet in [log_errpack_], appended to the text [buf2];
    [sprintf] writes four octets, the last is zero. *)
Fixpoint errpack_loop (pack buf2 : list Z) : outcome (list Z) :=
  match pack with
  | [] => if (SYSERR_MSGSIZE <=? length buf2)%nat then UB OutOfBounds else Ok buf2
  | x :: pack =>
    if (length buf2 + 4 <? SYSERR_MSGSIZE)%nat then
      if (SYSERR_MSGSIZE <? length buf2 + 4)%nat then UB OutOfBounds else errpack_loop pack (buf2 ++ 32 :: hex_pair x)
    else errpack_loop pack buf2
  end.
(** [prefix] is what the first [snprintf] would write. *)
Definition log_errpack_ (prefix pack : list Z) : outcome (list Z) := errpack_loop pack (take (SYSERR_MSGSIZE - 1) prefix).

(** [printfbuffer] prints two octets at a time. *)
Fixpoint printfbuffer (buf : list Z) (n : nat) : outcome (list Z) :=
  match n with
  | O => Ok []
  | S O => match buf with a :: b :: _ => Ok (hex_pair a ++ hex_pair b) | _ => UB OutOfBounds end
  | S (S n) => match buf with a :: b :: buf => r ← printfbuffer buf n; Ok (hex_pair a ++ hex_pair b ++ r) | _ => UB OutOfBounds end
  end.

(** ** The console *)

(** What is shown to the operator. *)
Inductive shown :=
  | Banner | Menu | Log_levels | Prompt
  | Option_not_available (c : option Z)
  | Statistics (rows : list (Z * Z * Z * list Z)).   (* MCC, MNC, eNB identity, name *)

(** [CommandConn_t] with its buffers; [conn_open] until it is freed. *)
Record CommandConn_t := { conn_input : list Z; conn_output : list shown; conn_open : bool }.
Definition print (c : CommandConn_t) (o : list shown) : CommandConn_t :=
  {| conn_input := conn_input c; conn_output := conn_output c ++ o; conn_open := conn_open c |}.
(** [accept_conn_cb] *)
Definition accept_conn_cb : CommandConn_t := {| conn_input := []; conn_output := [Banner; Menu; Prompt]; conn_open := true |}.
(** [conn_stop] *)
Definition conn_stop (c : CommandConn_t) : CommandConn_t := {| conn_input := []; conn_output := conn_output c; conn_open := false |}.

(** [evbuffer_readln] with EVBUFFER_EOL_LF: the first line and the rest. *)
Fixpoint evbuffer_readln (l : list Z) : option (list Z * list Z) :=
  match l with
  | [] => None
  | c :: l => if c =? 10 then Some ([], l) else '(line, rest) ← evbuffer_readln l; Some (c :: line, rest)
  end.

(** The conversions of [sscanf] in a string that ends at the first zero. *)
Fixpoint c_string (l : list Z) : list Z :=
  match l with [] => [] | c :: l => if c =? 0 then [] else c :: c_string l end.
Definition isspace (c : Z) : bool := (c =? 32) || ((9 <=? c) && (c <=? 13)).
Definition isdigit (c : Z) : bool := (48 <=? c) && (c <=? 57).
Fixpoint skip_space (l : list Z) : list Z :=
  match l with [] => [] | c :: l' => if isspace c then skip_space l' else l end.
Fixpoint scan_digits (acc : Z) (l : list Z) : Z :=
  match l with [] => acc | c :: l => if isdigit c then scan_digits (acc * 10 + (c - 48)) l else acc end.
Definition scan_nat (l : list Z) : option Z :=
  match l with c :: _ => if isdigit c then Some (scan_digits 0 l) else None | [] => None end.
Definition scan_int (l : list Z) : option Z :=
  match skip_space l with
  | [] => None
  | c :: l => if c =? 45 then Z.opp <$> scan_nat l else if c =? 43 then scan_nat l else scan_nat (c :: l)
  end.

(** [printAssoc] *)
Definition printAssoc (x : mme_GlobaleNBid * list Z) : Z * Z * Z * list Z :=
  let gid := globaleNBID_copy x.1 in (globaleNB_getMCC gid, globaleNB_getMNC gid, globaleNB_getCI gid, x.2).
Definition conn_printStats (assocs : list (mme_GlobaleNBid * list Z)) : shown := Statistics (map printAssoc assocs).

(** [process_line]: [assocs] are the associations of the MME with their names; the
    level and the connection after it. *)
Definition process_line (assocs : list (mme_GlobaleNBid * list Z)) (level : Z) (self : CommandConn_t) (line : list Z)
  : outcome (Z * CommandConn_t) :=
  let line := c_string line in
  let c := nth 0 line 0 in
  if c =? 108 then
    match scan_int (drop 1 line) with
    | None => UB Uninitialised
    | Some args =>
      if (args <? -2^31) || (2^31 <=? args) then UB Overflow
      else Ok (change_logger_lvl level args, print self [Prompt])
    end
  else if c =? 109 then Ok (level, print self [Menu; Prompt])
  else if c =? 104 then
    match skip_space (drop 1 line) with
    | [] => UB Uninitialised
    | help_arg :: _ => Ok (level, print self [if help_arg =? 108 then Log_levels else Option_not_available None; Prompt])
    end
  else if c =? 115 then Ok (level, print self [conn_printStats assocs; Prompt])
  else if c =? 113 then Ok (level, conn_stop self)
  else Ok (level, print self [Option_not_available (Some c); Prompt]).

(** [cmd_read_cb], when [data] has arrived: one line is read, and the null pointer
    of an unfinished one is not tested. *)
Definition cmd_read_cb assocs (level : Z) (self : CommandConn_t) (data : list Z) : outcome (Z * CommandConn_t) :=
  match evbuffer_readln (conn_input self ++ data) with
  | None => UB NullDeref
  | Some (line, rest) =>
    process_line assocs level {| conn_input := rest; conn_output := conn_output self; conn_open := conn_open self |} line
  end.

(** A session: data arrives as long as the connection is open. *)
Fixpoint console assocs (level : Z) (self : CommandConn_t) (ds : list (list Z)) : outcome (Z * CommandConn_t) :=
  match ds with
  | [] => Ok (level, self)
  | d :: ds =>
    if conn_open self then '(level, self) ← cmd_read_cb assocs level self d; console assocs level self ds
    else Ok (level, self)
  end.

(** ** Properties *)

(** The text of a packet stays in the buffer: as many octets are shown as fit. *)
Theorem log_errpack_text prefix pack : (length prefix < SYSERR_MSGSIZE)%nat ->
  log_errpack_ prefix pack = Ok (prefix ++ concat (map (fun x => 32 :: hex_pair x)
    (take ((SYSERR_MSGSIZE - 2 - length prefix) / 3) pack))).
Proof.
  intros H. unfold log_errpack_. rewrite take_ge by lia. revert prefix H. induction pack as [|x pack IH]; intros p H; cbn [errpack_loop].
  - rewrite firstn_nil. cbn [map concat]. rewrite app_nil_r. destruct (Nat.leb_spec SYSERR_MSGSIZE (length p)); [lia|done].
  - destruct (Nat.ltb_spec (length p + 4) SYSERR_MSGSIZE) as [L|L].
    + destruct (Nat.ltb_spec SYSERR_MSGSIZE (length p + 4)); [lia|].
      assert (Lp : length (p ++ 32 :: hex_pair x) = (length p + 3)%nat) by by rewrite length_app.
      rewrite IH by (rewrite Lp; lia). rewrite Lp.
      replace ((SYSERR_MSGSIZE - 2 - length p) / 3)%nat with (S ((SYSERR_MSGSIZE - 2 - (length p + 3)) / 3)).
      * cbn [take map concat]. by rewrite <- app_assoc.
      * replace (SYSERR_MSGSIZE - 2 - length p)%nat with (1 * 3 + (SYSERR_MSGSIZE - 2 - (length p + 3)))%nat by lia.
        by rewrite Nat.div_add_l.
    + rewrite IH by done. f_equal. assert (E : ((SYSERR_MSGSIZE - 2 - length p) / 3 = 0)%nat) by (apply Nat.div_small; lia).
      by rewrite E.
Qed.

Lemma change_level level p : 0 <= level < 8 -> 0 <= change_logger_lvl level p < 8.
Proof. unfold change_logger_lvl. destruct (Z.leb_spec 0 p), (Z.ltb_spec p 8); cbn; lia. Qed.
Lemma initial_level_ok env : 0 <= initial_level env < 8.
Proof. destruct env as [l|]; cbn; [|unfold LOG_INFO; lia]. destruct (Z.ltb_spec l 1), (Z.ltb_spec 7 l); cbn; unfold LOG_INFO; lia. Qed.

Lemma process_line_level assocs level self line level' self' : 0 <= level < 8 ->
  process_line assocs level self line = Ok (level', self') -> 0 <= level' < 8.
Proof.
  intros H. unfold process_line. repeat case_match; intros E; simplify_eq; try done. by apply change_level.
Qed.

(** Whatever the operator types, the level stays an index of the table of names. *)
Theorem console_level assocs env ds level self : console assocs (initial_level env) accept_conn_cb ds = Ok (level, self) -> 0 <= level < 8.
Proof.
  pose proof (initial_level_ok env) as H. revert H. generalize (initial_level env), accept_conn_cb.
  induction ds as [|d ds IH]; intros l c H; cbn [console]; [by intros [= <- <-]|]. destruct (conn_open c); [|by intros [= <- <-]].
  intros E. apply bind_Ok in E as ([l1 c1] & E1 & E2). apply (IH l1 c1); [|done]. unfold cmd_read_cb in E1.
  destruct (evbuffer_readln _) as [[line rest]|]; [|done]. by eapply process_line_level.
Qed.

Lemma readln_none l : evbuffer_readln l = None <-> 10 ∉ l.
Proof.
  induction l as [|c l IH]; cbn; [split; [intros _; apply not_elem_of_nil|done]|]. rewrite not_elem_of_cons.
  destruct (Z.eqb_spec c 10) as [->|N]; [split; [done|by intros []]|]. destruct (evbuffer_readln l) as [[line rest]|]; cbn.
  - split; [done|]. intros [_ H]. by apply IH in H.
  - split; [|done]. intros _. split; [done|by apply IH].
Qed.
Lemma readln_line line rest : 10 ∉ line -> evbuffer_readln (line ++ 10 :: rest) = Some (line, rest).
Proof.
  induction line as [|c line IH]; cbn; [done|]. rewrite not_elem_of_cons. intros [N H].
  destruct (Z.eqb_spec c 10); [congruence|]. by rewrite IH.
Qed.

(** A line that is not complete when it is read ends the program. *)
Theorem console_partial_line_crashes assocs level self data : cmd_read_cb assocs level self data = UB NullDeref <->
  10 ∉ conn_input self ++ data.
Proof.
  rewrite <- readln_none. unfold cmd_read_cb. destruct (evbuffer_readln _) as [[line rest]|]; [|done].
  split; [|done]. unfold process_line. intros H. exfalso. revert H. repeat case_match; done.
Qed.
