(* ===== verification/ESM.v ===== *)
(** The session management (src/mme/S1/NAS/NAS_ESM.c, ESM_FSMConfig.c and the
    files of its states) of a terminal, together with the S11 sessions of its EPS
    sessions.  EPS sessions, bearer contexts and S11 sessions are objects on
    heaps: the structures of the source point to each other, and an access to an
    object that was freed is a fault.  What a session does to its data is
    [Session]; an S11 session is its state, its callback and its EPS session, and
    moves as the machine that [S11FSM.s11_fsm_refines] shows the S11 code to
    implement. *)
From stdpp Require Import fin_maps.
From S2P Require Import Prelude NASTypes NASIe NASDec Subs Session GTP S11User S11FSM.

(** ** The states of a bearer context *)

(** [ESM_State]: the handlers; [activateDefault] of [ESM_Active] is not set by
    its link function, and the array is not zeroed. *)
Record ESM_State := {
  st_processMsg : ESM_BearerContext_t -> outcome ESM_BearerContext_t;
  st_activateDefault : ESM_BearerContext_t -> outcome ESM_BearerContext_t;
}.

Definition notImplemented (b : ESM_BearerContext_t) : outcome ESM_BearerContext_t := Ok b.
Definition esmChangeState (b : ESM_BearerContext_t) (s : ESMState) : ESM_BearerContext_t := esm_bc_setState b s.

Definition linkESMInactive : ESM_State :=
  {| st_processMsg := fun b => Ok b; st_activateDefault := fun b => Ok (esmChangeState b ActivePending) |}.
Definition linkESMActivePending : ESM_State :=
  {| st_processMsg := fun b => Ok b; st_activateDefault := notImplemented |}.
Definition linkESMActive : ESM_State :=
  {| st_processMsg := fun b => Ok b; st_activateDefault := fun _ => UB Uninitialised |}.
Definition linkESMModifyPending : ESM_State :=
  {| st_processMsg := fun b => Ok b; st_activateDefault := notImplemented |}.
Definition linkESMInactivePending : ESM_State :=
  {| st_processMsg := fun b => Ok b; st_activateDefault := notImplemented |}.

(** [states], as [esmConfigureFSM] fills it. *)
Definition esm_states (s : ESMState) : ESM_State :=
  match s with
  | Inactive => linkESMInactive
  | ActivePending => linkESMActivePending
  | Active => linkESMActive
  | ModifyPending => linkESMModifyPending
  | InactivePending => linkESMInactivePending
  end.

(** ** Data *)

(** A function with its argument, as it is handed to S11: activate the default
    bearer of a session ([ePSsession_sendActivateDefaultEPSBearerCtxtReq]), delete
    a session ([esm_deleteEPSSession]), or a function of the layer below. *)
Inductive esm_callback := Cb_activate (s : nat) | Cb_delete (s : nat) | Cb_ext (k : nat).

(** [EPS_Session_t]: the pointers and the rest; the default bearer inside
    [o_data] stands for the object [o_bearer] and is replaced by it on a load. *)
Record EPS_obj := { o_bearer : nat; o_s11 : option nat; o_data : EPS_Session_t }.

(** [S11_user_t], as far as its users can see it. *)
Record S11_obj := { x_state : S11State; x_session : nat; x_cb : option esm_callback }.

(** [ESM_t]: in [esm_bearers] the object that holds the key and the value.
    [esm_cb] with its argument is a number. *)
Record ESM_t := {
  next_ebi : Z;
  esm_bearers : gmap Z (nat * nat);
  esm_sessions : list nat;
  esm_cb : option nat;
}.

Inductive esm_out :=
  | Out_s11 (u : nat) (type : Z)                   (* a request to the gateway *)
  | Out_sendESM (msg : list Z)                     (* [emm_sendESM] *)
  | Out_attachAccept (msg : list Z) (s : nat)      (* [emm_attachAccept] *)
  | Out_callback (k : nat).

Record world := {
  w_esm : option ESM_t;                  (* none after [esm_free] *)
  w_sess : gmap nat EPS_obj;
  w_brs : gmap nat ESM_BearerContext_t;
  w_users : gmap nat S11_obj;
  w_next : nat;                          (* objects allocated so far *)
  w_out : list esm_out;
}.

(** Stores to single fields. *)
Definition with_esm (w : world) (e : option ESM_t) : world :=
  {| w_esm := e; w_sess := w_sess w; w_brs := w_brs w; w_users := w_users w; w_next := w_next w; w_out := w_out w |}.
Definition with_sess (w : world) (m : gmap nat EPS_obj) : world :=
  {| w_esm := w_esm w; w_sess := m; w_brs := w_brs w; w_users := w_users w; w_next := w_next w; w_out := w_out w |}.
Definition with_brs (w : world) (m : gmap nat ESM_BearerContext_t) : world :=
  {| w_esm := w_esm w; w_sess := w_sess w; w_brs := m; w_users := w_users w; w_next := w_next w; w_out := w_out w |}.
Definition with_users (w : world) (m : gmap nat S11_obj) : world :=
  {| w_esm := w_esm w; w_sess := w_sess w; w_brs := w_brs w; w_users := m; w_next := w_next w; w_out := w_out w |}.
Definition with_next (w : world) (n : nat) : world :=
  {| w_esm := w_esm w; w_sess := w_sess w; w_brs := w_brs w; w_users := w_users w; w_next := n; w_out := w_out w |}.
Definition with_out (w : world) (l : list esm_out) : world :=
  {| w_esm := w_esm w; w_sess := w_sess w; w_brs := w_brs w; w_users := w_users w; w_next := w_next w; w_out := l |}.
Definition with_ebi (e : ESM_t) (n : Z) : ESM_t :=
  {| next_ebi := n; esm_bearers := esm_bearers e; esm_sessions := esm_sessions e; esm_cb := esm_cb e |}.
Definition with_bearers (e : ESM_t) (m : gmap Z (nat * nat)) : ESM_t :=
  {| next_ebi := next_ebi e; esm_bearers := m; esm_sessions := esm_sessions e; esm_cb := esm_cb e |}.
Definition with_sessions (e : ESM_t) (l : list nat) : ESM_t :=
  {| next_ebi := next_ebi e; esm_bearers := esm_bearers e; esm_sessions := l; esm_cb := esm_cb e |}.
Definition with_cb (e : ESM_t) (cb : option nat) : ESM_t :=
  {| next_ebi := next_ebi e; esm_bearers := esm_bearers e; esm_sessions := esm_sessions e; esm_cb := cb |}.
Definition with_data (o : EPS_obj) (d : EPS_Session_t) : EPS_obj :=
  {| o_bearer := o_bearer o; o_s11 := o_s11 o; o_data := d |}.
Definition with_s11 (o : EPS_obj) (u : nat) : EPS_obj :=
  {| o_bearer := o_bearer o; o_s11 := Some u; o_data := o_data o |}.

(** The order in which a hash table delivers its values: [esm_sessions] is in
    the order of insertion. *)
Class HashOrder := {
  ho_values : list nat -> list nat;
  ho_perm : forall l, Permutation (ho_values l) l;
}.

(** ** The monad *)

Definition EW (A : Type) : Type := world -> outcome (A * world).
#[export] Instance EW_ret : MRet EW := fun A a w => Ok (a, w).
#[export] Instance EW_bind : MBind EW := fun A B k m w => '(a, w) ← m w; k a w.

Definition e_fault {A} (f : fault) : EW A := fun _ => UB f.
Definition e_lift {A} (o : outcome A) : EW A := fun w => a ← o; Ok (a, w).
Definition e_get {A} (f : world -> A) : EW A := fun w => Ok (f w, w).
Definition e_put (f : world -> world) : EW unit := fun w => Ok (tt, f w).
Definition e_skip : EW unit := mret tt.
Definition e_emit (o : esm_out) : EW unit := e_put (fun w => with_out w (w_out w ++ [o])).
Definition e_fresh : EW nat := fun w => Ok (w_next w, with_next w (S (w_next w))).
Definition e_deref {X} (heap : world -> gmap nat X) (h : nat) : EW X := fun w =>
  match heap w !! h with Some x => Ok (x, w) | None => UB UseAfterFree end.

Definition esm_ : EW ESM_t := fun w => match w_esm w with Some e => Ok (e, w) | None => UB UseAfterFree end.
Definition set_esm (f : ESM_t -> ESM_t) : EW unit := e ← esm_; e_put (fun w => with_esm w (Some (f e))).
Definition session_ (s : nat) : EW EPS_obj := e_deref w_sess s.
Definition bearer_ (b : nat) : EW ESM_BearerContext_t := e_deref w_brs b.
Definition put_session (s : nat) (o : EPS_obj) : EW unit := e_put (fun w => with_sess w (<[s := o]> (w_sess w))).
Definition put_user (u : nat) (x : S11_obj) : EW unit := e_put (fun w => with_users w (<[u := x]> (w_users w))).

(** The data of a session with its bearer, and their return to the heaps. *)
Definition load (s : nat) : EW EPS_Session_t :=
  o ← session_ s; b ← bearer_ (o_bearer o); mret (with_bearer (o_data o) b).
Definition store (s : nat) (d : EPS_Session_t) : EW unit :=
  o ← session_ s;
  put_session s (with_data o d) ;;
  e_put (fun w => with_brs w (<[o_bearer o := defaultBearer d]> (w_brs w))).

(** ** S11, as ESM uses it *)

(** A request on an S11 session: the callback is stored, then the handler of the
    state runs. *)
Definition s11_request (u : nat) (r : s11_req) (cb : option esm_callback) : EW unit :=
  x ← e_deref w_users u;
  match fsm_request (x_state x) r with
  | Some (ty, st) =>
    put_user u {| x_state := st; x_session := x_session x; x_cb := cb |} ;; e_emit (Out_s11 u ty)
  | None => put_user u {| x_state := x_state x; x_session := x_session x; x_cb := cb |}
  end.

(** [S11_newUserAttach] *)
Definition new_user_attach (s : nat) (cb : option esm_callback) : EW nat :=
  u ← e_fresh;
  put_user u {| x_state := noCtx; x_session := s; x_cb := None |} ;;
  s11_request u R_attach cb ;;
  mret u.

(** A request on the S11 session of an EPS session. *)
Definition session_request (s : nat) (r : s11_req) (cb : option esm_callback) : EW unit :=
  o ← session_ s;
  match o_s11 o with Some u => s11_request u r cb | None => e_fault NullDeref end.

(** The calls an EPS session makes, with the callback it was given. *)
Definition session_call_ (s : nat) (cb : option esm_callback) (c : session_call) : EW unit :=
  match c with
  | S11_newUserAttach_call =>
    u ← new_user_attach s (Some (Cb_activate s));
    o ← session_ s;
    put_session s (with_s11 o u)
  | S11_modifyBearer_call => session_request s R_modBearer cb
  | S11_releaseAccess_call => session_request s R_releaseAccess cb
  | S11_detach_call => session_request s R_detach cb
  | emm_sendESM_call msg => e_emit (Out_sendESM msg)
  | emm_attachAccept_call msg => e_emit (Out_attachAccept msg s)
  end.
Fixpoint session_calls (s : nat) (cb : option esm_callback) (l : list session_call) : EW unit :=
  match l with [] => e_skip | c :: l => session_call_ s cb c ;; session_calls s cb l end.

Definition call_ext (cb : option nat) : EW unit := match cb with Some k => e_emit (Out_callback k) | None => e_skip end.

(** ** The operations of NAS_ESM.c *)

Section ESM.
Context {ho : HashOrder}.

Definition first_session (e : ESM_t) : option nat := head (ho_values (esm_sessions e)).

Definition esm_init : ESM_t := {| next_ebi := 5; esm_bearers := ∅; esm_sessions := []; esm_cb := None |}.
Definition init_world : world :=
  {| w_esm := Some esm_init; w_sess := ∅; w_brs := ∅; w_users := ∅; w_next := 0; w_out := [] |}.

(** [ePSsession_free]: the strings are never set and the table of bearers of the
    session is empty. *)
Definition ePSsession_free (s : nat) : EW unit :=
  session_ s ;; e_put (fun w => with_sess w (delete s (w_sess w))).
Fixpoint free_all (l : list nat) : EW unit :=
  match l with [] => e_skip | s :: l => ePSsession_free s ;; free_all l end.

(** The bearer contexts are not freed with the table. *)
Definition esm_free : EW unit :=
  e ← esm_; free_all (esm_sessions e) ;; e_put (fun w => with_esm w (None)).

Definition esm_errorEMMToSessions (s : nat) : EW unit :=
  d ← load s;
  let '(d, calls) := ePSsession_errorESM d in
  store s d ;; session_calls s None calls.
(** [g_hash_table_foreach_remove] *)
Fixpoint foreach_remove_sessions (l : list nat) : EW unit :=
  match l with [] => e_skip | s :: l => esm_errorEMMToSessions s ;; ePSsession_free s ;; foreach_remove_sessions l end.

Definition esm_errorEMM : EW unit :=
  set_esm (fun e => with_ebi e 5) ;;
  e ← esm_;
  foreach_remove_sessions (ho_values (esm_sessions e)) ;;
  set_esm (fun e => with_sessions e []).

(** The key of [bearers]: [g_int_hash] and [g_int_equal] read four octets. *)
Definition int_key (l : list Z) : Z := nth 0 l 0 + 2^8 * nth 1 l 0 + 2^16 * nth 2 l 0 + 2^24 * nth 3 l 0.
(** At [&(self->ebi)]: the number and three octets of padding, which
    [g_new0] zeroed. *)
Definition ebi_key (b : ESM_BearerContext_t) : Z := int_key [ebi b; 0; 0; 0].

(** [g_hash_table_insert]: the old key stays. *)
Definition insert_bearer (b : nat) : EW unit :=
  x ← bearer_ b;
  set_esm (fun e => with_bearers e
    match esm_bearers e !! ebi_key x with
    | Some (holder, _) => <[ebi_key x := (holder, b)]> (esm_bearers e)
    | None => <[ebi_key x := (b, b)]> (esm_bearers e)
    end).

(** [esm_bc_processMsg]: every case of the switch breaks. *)
Definition esm_bc_processMsg (b : nat) (m : ESM_Message_t) : EW unit := e_skip.

Definition ESM_ePSsession_activateDefault (s : nat) (infoTxRequired : bool) : EW unit :=
  d ← load s; c ← e_lift (ePSsession_activateDefault d infoTxRequired); session_call_ s None c.

Definition process_PDNConnectivityRequest (subs : Subs_t) (pti : Z) (m : PDNConnectivityRequest_t) : EW unit :=
  e ← esm_;
  let bc := esm_bc_init (next_ebi e) in
  bearer ← e_fresh;
  e_put (fun w => with_brs w (<[bearer := bc]> (w_brs w))) ;;
  insert_bearer bearer ;;
  set_esm (fun e => with_ebi e (wrap8 (next_ebi e + 1))) ;;
  s ← e_fresh;
  put_session s {| o_bearer := bearer; o_s11 := None; o_data := ePSsession_init subs bc |} ;;
  set_esm (fun e => with_sessions e (esm_sessions e ++ [s])) ;;
  d ← load s;
  '(d, infoTxRequired) ← e_lift (ePSsession_parsePDNConnectivityRequest d pti m);
  store s d ;;
  ESM_ePSsession_activateDefault s infoTxRequired.

(** [esm_processMsg]: [bearerIdendity] is the second octet of the message
    structure, [next_octet] the one behind the type of the message. *)
Definition esm_processMsg (subs : Subs_t) (bearerIdendity next_octet : Z) (m : GenericNASMsg_t) : EW unit :=
  if negb (is_enum (gm_protocolDiscriminator m) EPSSessionManagementMessages) then e_fault Aborted
  else
    match gm_plain m with
    | plain_eSM e =>
      match NASMessageType_of (esm_messageType e) with
      | Some ActivateDefaultEPSBearerContextAccept | Some ActivateDefaultEPSBearerContextReject
      | Some ActivateDedicatedEPSBearerContextAccept | Some ActivateDedicatedEPSBearerContextReject
      | Some ModifyEPSBearerContextAccept | Some ModifyEPSBearerContextReject
      | Some DeactivateEPSBearerContextAccept =>
        self ← esm_;
        match esm_bearers self !! int_key [bearerIdendity; esm_procedureTransactionIdentity e; esm_messageType e; next_octet] with
        | None => e_skip
        | Some (bearer, _) => esm_bc_processMsg bearer e
        end
      | Some PDNConnectivityRequest =>
        match esm_body e with
        | B_PDNConnectivityRequest r => process_PDNConnectivityRequest subs (esm_procedureTransactionIdentity e) r
        | B_ESM_Nothing => e_fault BadCast
        end
      | Some ESMInformationResponse =>
        self ← esm_;
        match first_session self with
        | Some s => ESM_ePSsession_activateDefault s false
        | None => e_fault NullDeref
        end
      | _ => e_skip
      end
    | _ => e_fault BadCast
    end.

Definition esm_modifyE_RABList (erab_id : Z) (teid addr : list Z) (addrlen : Z) (cb : option nat) : EW unit :=
  self ← esm_;
  match first_session self with
  | Some s =>
    d ← load s;
    '(d, calls) ← e_lift (ePSsession_modifyE_RABList d erab_id teid addr addrlen);
    store s d ;; session_calls s (Cb_ext <$> cb) calls
  | None => call_ext cb
  end.

Definition esm_UEContextReleaseReq (cb : option nat) : EW unit :=
  self ← esm_;
  match first_session self with
  | Some s => d ← load s; session_calls s (Cb_ext <$> cb) (ePSsession_UEContextReleaseReq d)
  | None => call_ext cb
  end.

Definition esm_deleteEPSSession (s : nat) : EW unit :=
  o ← session_ s;
  if negb (es_esm (o_data o)) then e_fault NullDeref
  else
    set_esm (fun e => with_sessions e (List.filter (fun t => negb (t =? s)%nat) (esm_sessions e))) ;;
    ePSsession_free s ;;
    bearer ← bearer_ (o_bearer o);
    set_esm (fun e => with_bearers e (delete (ebi_key bearer) (esm_bearers e))) ;;
    set_esm (fun e => with_ebi e 5) ;;
    e ← esm_; call_ext (esm_cb e).

Definition esm_detach (cb : option nat) : EW unit :=
  set_esm (fun e => with_cb e cb) ;;
  self ← esm_;
  match first_session self with
  | Some s => d ← load s; session_calls s (Some (Cb_delete s)) (ePSsession_detach d)
  | None => call_ext cb
  end.

Definition esm_getSessions : EW (list nat) := e ← esm_; mret (ho_values (esm_sessions e)).
(** The bearers in the order of their keys. *)
Definition esm_getBearers : EW (list nat) := e ← esm_; mret (map (fun p => p.2.2) (map_to_list (esm_bearers e))).

(** ** Callbacks and answers of the gateway *)

Definition ESM_sendActivateDefault (s : nat) : EW unit :=
  d ← load s; c ← e_lift (ePSsession_sendActivateDefaultEPSBearerCtxtReq d); session_call_ s None c.

Definition call_back (cb : option esm_callback) : EW unit :=
  match cb with
  | Some (Cb_activate s) => ESM_sendActivateDefault s
  | Some (Cb_delete s) => esm_deleteEPSSession s
  | Some (Cb_ext k) => e_emit (Out_callback k)
  | None => e_skip
  end.

(** A message of the gateway for an S11 session: its type; what it stores into
    the EPS session, if it has any of the elements S11 looks at it for; whether
    S11 finds it well-formed. *)
Record s11_msg := {
  r_type : Z;
  r_session : option (EPS_Session_t -> outcome EPS_Session_t);
  r_wellformed : bool;
}.

(** [parseCtxRsp] stores into the session; [parseModBearerRsp] reads it. *)
Definition s11_parse (x : S11_obj) (r : s11_msg) : EW unit :=
  match r_session r with
  | Some f =>
    if r_type r =? GTP2_CREATE_SESSION_RSP then
      d ← load (x_session x); d ← e_lift (f d); store (x_session x) d
    else if r_type r =? GTP2_MODIFY_BEARER_RSP then load (x_session x) ;; e_skip
    else e_skip
  | None => e_skip
  end.

Definition s11_message (u : nat) (r : s11_msg) : EW unit :=
  users ← e_get w_users;
  match users !! u with
  | None => e_skip
  | Some x =>
    match fsm_response (x_state x) (r_type r) with
    | None => e_skip
    | Some st =>
      s11_parse x r ;;
      if (r_type r =? GTP2_MODIFY_BEARER_RSP) && negb (r_wellformed r) then e_skip
      else if bool_decide (x_state x = wDel) then
        e_put (fun w => with_users w (delete u (w_users w))) ;; call_back (x_cb x)
      else
        put_user u {| x_state := st; x_session := x_session x; x_cb := x_cb x |} ;; call_back (x_cb x)
    end
  end.

(** ** Events *)

Inductive esm_event :=
  | Ev_msg (subs : Subs_t) (bearerIdendity next_octet : Z) (m : GenericNASMsg_t)
  | Ev_modifyE_RAB (erab_id : Z) (teid addr : list Z) (addrlen : Z) (cb : option nat)
  | Ev_release (cb : option nat)
  | Ev_detach (cb : option nat)
  | Ev_errorEMM
  | Ev_free
  | Ev_s11 (u : nat) (r : s11_msg).

Definition esm_run1 (ev : esm_event) : EW unit :=
  match ev with
  | Ev_msg subs b n m => esm_processMsg subs b n m
  | Ev_modifyE_RAB id teid addr len cb => esm_modifyE_RABList id teid addr len cb
  | Ev_release cb => esm_UEContextReleaseReq cb
  | Ev_detach cb => esm_detach cb
  | Ev_errorEMM => esm_errorEMM
  | Ev_free => esm_free
  | Ev_s11 u r => s11_message u r
  end.
Fixpoint esm_run (es : list esm_event) : EW unit :=
  match es with [] => e_skip | ev :: es => esm_run1 ev ;; esm_run es end.
End ESM.
