(* ===== verification/ESMSafe.v ===== *)
(** The session management never uses an object after it was freed, or a null
    pointer, outside of known situations: the invariant of the sessions, the
    bearer contexts and the S11 sessions of [ESM], and what the known situations
    lead to. *)
From stdpp Require Import fin_maps.
From S2P Require Import Prelude NASTypes NASIe NASDec NASEnc Subs Session GTP S11User S11FSM ESM.

(** ** Weakest preconditions *)

(** The program ends without a fault, in a state with [Q]. *)
Definition ewp {A} (m : EW A) (Q : A -> world -> Prop) (w : world) : Prop :=
  match m w with Ok (a, w') => Q a w' | UB _ => False end.

Lemma ewp_run {A} (m : EW A) Q w : ewp m Q w -> exists a w', m w = Ok (a, w') /\ Q a w'.
Proof. unfold ewp. destruct (m w) as [[a w']|]; [eauto|done]. Qed.
Lemma ewp_mono {A} (m : EW A) (Q Q' : A -> world -> Prop) w : ewp m Q w -> (forall a w', Q a w' -> Q' a w') -> ewp m Q' w.
Proof. unfold ewp. destruct (m w) as [[a w']|]; auto. Qed.
Lemma ewp_bind {A B} (m : EW A) (k : A -> EW B) Q w : ewp m (fun a => ewp (k a) Q) w -> ewp (m ≫= k) Q w.
Proof. unfold ewp, mbind, EW_bind. by destruct (m w) as [[a w']|]. Qed.
Lemma ewp_ret {A} (a : A) (Q : A -> world -> Prop) w : Q a w -> ewp (mret a) Q w.
Proof. done. Qed.
Lemma ewp_skip (Q : unit -> world -> Prop) w : Q tt w -> ewp e_skip Q w.
Proof. done. Qed.
Lemma ewp_put f (Q : unit -> world -> Prop) w : Q tt (f w) -> ewp (e_put f) Q w.
Proof. done. Qed.
Lemma ewp_emit o (Q : unit -> world -> Prop) w : Q tt (with_out w (w_out w ++ [o])) -> ewp (e_emit o) Q w.
Proof. done. Qed.
Lemma ewp_get {A} (f : world -> A) (Q : A -> world -> Prop) w : Q (f w) w -> ewp (e_get f) Q w.
Proof. done. Qed.
Lemma ewp_fresh (Q : nat -> world -> Prop) w : Q (w_next w) (with_next w (S (w_next w))) -> ewp e_fresh Q w.
Proof. done. Qed.
Lemma ewp_lift {A} (o : outcome A) a (Q : A -> world -> Prop) w : o = Ok a -> Q a w -> ewp (e_lift o) Q w.
Proof. by intros ->. Qed.
Lemma ewp_deref {X} (heap : world -> gmap nat X) h x (Q : X -> world -> Prop) w :
  heap w !! h = Some x -> Q x w -> ewp (e_deref heap h) Q w.
Proof. intros E. unfold ewp, e_deref. by rewrite E. Qed.
Lemma ewp_esm e (Q : ESM_t -> world -> Prop) w : w_esm w = Some e -> Q e w -> ewp esm_ Q w.
Proof. intros E. unfold ewp, esm_. by rewrite E. Qed.
Lemma ewp_set_esm e f (Q : unit -> world -> Prop) w : w_esm w = Some e -> Q tt (with_esm w (Some (f e))) -> ewp (set_esm f) Q w.
Proof. intros E H. apply ewp_bind, (ewp_esm e); [done|]. by apply ewp_put. Qed.

(** A session and its bearer after [store]. *)
Definition stored (w : world) (s : nat) (o : EPS_obj) (d : EPS_Session_t) : world :=
  with_brs (with_sess w (<[s := with_data o d]> (w_sess w))) (<[o_bearer o := defaultBearer d]> (w_brs w)).

Lemma ewp_load s o b (Q : EPS_Session_t -> world -> Prop) w : w_sess w !! s = Some o -> w_brs w !! o_bearer o = Some b ->
  Q (with_bearer (o_data o) b) w -> ewp (load s) Q w.
Proof. intros E1 E2 H. apply ewp_bind, (ewp_deref _ _ o); [done|]. apply ewp_bind, (ewp_deref _ _ b); [done|]. by apply ewp_ret. Qed.
Lemma ewp_store s o d (Q : unit -> world -> Prop) w : w_sess w !! s = Some o -> Q tt (stored w s o d) -> ewp (store s d) Q w.
Proof. intros E H. apply ewp_bind, (ewp_deref _ _ o); [done|]. apply ewp_bind, ewp_put. by apply ewp_put. Qed.

(** ** The invariant *)

Definition bearer_ok (b : ESM_BearerContext_t) : Prop :=
  length (s1u_sgw b) = FTEID_SIZE /\ length (s1u_enb b) = FTEID_SIZE /\ length (s5s8u_pgw b) = FTEID_SIZE /\ byte_ok (ebi b).
Definition data_ok (d : EPS_Session_t) : Prop := length (es_pdn_addr d) = 20%nat /\ length (pco d) = PCO_SIZE.

Lemma session_ok_split d b : session_ok (with_bearer d b) <-> data_ok d /\ bearer_ok b.
Proof. unfold session_ok, data_ok, bearer_ok. cbn. tauto. Qed.
Lemma session_ok_parts d : session_ok d <-> data_ok d /\ bearer_ok (defaultBearer d).
Proof. unfold session_ok, data_ok, bearer_ok. tauto. Qed.

(** The S11 session [u] belongs to an EPS session that is there. *)
Definition linked (w : world) (u : nat) (x : S11_obj) : Prop :=
  exists o, w_sess w !! x_session x = Some o /\ o_s11 o = Some u.
(** The callback is about the session it belongs to, deletes it if the deletion
    was requested, and is not that of the activation during a modification. *)
Definition cb_ok (x : S11_obj) : Prop :=
  match x_cb x with Some (Cb_activate s) | Some (Cb_delete s) => s = x_session x | _ => True end /\
  (x_state x = wDel -> x_cb x = Some (Cb_delete (x_session x))) /\
  (x_state x = wModBearerRsp -> forall s, x_cb x <> Some (Cb_activate s)).
(** Nothing the gateway sends makes S11 touch the EPS session. *)
Definition settled (x : S11_obj) : Prop :=
  match x_state x with wCtxRsp | wModBearerRsp => False | wDel => x_cb x = None | _ => True end.

Record Core (live : list nat) (w : world) : Prop := {
  c_nodup : NoDup live;
  c_live : forall s, s ∈ live <-> is_Some (w_sess w !! s);
  c_next : forall n, (w_next w <= n)%nat -> w_sess w !! n = None /\ w_brs w !! n = None /\ w_users w !! n = None;
  c_brs : forall b x, w_brs w !! b = Some x -> bearer_ok x /\ bc_state x = Inactive;
  c_sess : forall s o, w_sess w !! s = Some o -> is_Some (w_brs w !! o_bearer o) /\ data_ok (o_data o) /\
    es_esm (o_data o) = true /\ (forall u, o_s11 o = Some u -> exists x, w_users w !! u = Some x /\ x_session x = s);
  c_user : forall u x, w_users w !! u = Some x -> (x_session x < w_next w)%nat /\
    ((linked w u x /\ cb_ok x) \/ (w_sess w !! x_session x = None /\ settled x));
}.

(** The table of the bearers: every entry is under the number of its bearer. *)
Definition Bears (t : gmap Z (nat * nat)) (w : world) : Prop := forall k p, t !! k = Some p ->
  is_Some (w_brs w !! p.1) /\ exists b, w_brs w !! p.2 = Some b /\ ebi_key b = k.

Definition Good (w : world) : Prop :=
  match w_esm w with
  | Some e => Core (esm_sessions e) w /\ Bears (esm_bearers e) w
  | None => Core [] w
  end.

(** ** The invariant under single changes *)

Lemma Core_esm live w e : Core live w -> Core live (with_esm w e).
Proof. by intros []. Qed.
Lemma Core_out live w l : Core live w -> Core live (with_out w l).
Proof. by intros []. Qed.
Lemma Core_fresh live w : Core live w -> Core live (with_next w (S (w_next w))).
Proof.
  intros []. constructor; cbn; auto. { intros n H. apply c_next0. lia. }
  intros u x H. destruct (c_user0 u x H) as [H1 H2]. split; [lia|done].
Qed.

(** A change of the state and the callback of an S11 session. *)
Lemma Core_user live w u x x' : Core live w -> w_users w !! u = Some x -> x_session x' = x_session x ->
  (linked w u x -> cb_ok x') -> (w_sess w !! x_session x = None -> settled x') ->
  Core live (with_users w (<[u := x']> (w_users w))).
Proof.
  intros [] Hu Hs H1 H2. constructor; cbn; auto.
  - intros n Hn. destruct (c_next0 n Hn) as (? & ? & N). split_and!; auto. rewrite lookup_insert_ne by congruence. done.
  - intros s o Ho. destruct (c_sess0 s o Ho) as (A & B & C & D). split_and!; auto. intros v Hv.
    destruct (decide (v = u)) as [->|Hne]; [rewrite lookup_insert_eq|rewrite lookup_insert_ne by done; auto].
    exists x'. split; [done|]. destruct (D u Hv) as (y & Hy & <-). congruence.
  - intros v y Hv. destruct (decide (v = u)) as [->|Hne].
    + rewrite lookup_insert_eq in Hv. injection Hv as <-. destruct (c_user0 u x Hu) as [L D]. rewrite Hs. split; [done|].
      destruct D as [[D1 D2]|[D1 D2]]; [left|right]; split; auto. unfold linked in *. by rewrite Hs.
    + rewrite lookup_insert_ne in Hv by done. exact (c_user0 v y Hv).
Qed.

(** A change of the data of a session. *)
Lemma Core_stored live w s o d : Core live w -> w_sess w !! s = Some o -> session_ok d -> es_esm d = true ->
  bc_state (defaultBearer d) = Inactive -> Core live (stored w s o d).
Proof.
  intros [] Ho [Hd Hb]%session_ok_parts He Hi. constructor; cbn; auto.
  - intros t. rewrite c_live0. destruct (decide (t = s)) as [->|Hne]; [rewrite lookup_insert_eq, Ho|by rewrite lookup_insert_ne].
    split; eauto.
  - intros n Hn. destruct (c_next0 n Hn) as (A & B & C). destruct (c_sess0 s o Ho) as (D & _).
    rewrite !lookup_insert_ne; [done| |congruence]. intros <-. rewrite B in D. by destruct D.
  - intros b x Hx. destruct (decide (b = o_bearer o)) as [->|Hne].
    + rewrite lookup_insert_eq in Hx. injection Hx as <-. done.
    + rewrite lookup_insert_ne in Hx by done. eauto.
  - assert (K : forall b, is_Some (w_brs w !! b) -> is_Some (<[o_bearer o := defaultBearer d]> (w_brs w) !! b)).
    { intros b Hs. destruct (decide (b = o_bearer o)) as [->|Hne]; [rewrite lookup_insert_eq|rewrite lookup_insert_ne]; eauto. }
    intros t p Hp. destruct (decide (t = s)) as [->|Hne].
    + rewrite lookup_insert_eq in Hp. injection Hp as <-. destruct (c_sess0 s o Ho) as (A & _ & _ & D). cbn. split_and!; auto.
    + rewrite lookup_insert_ne in Hp by done. destruct (c_sess0 t p Hp) as (A & D). split; auto.
  - intros u x Hu. destruct (c_user0 u x Hu) as [L D]. split; [done|]. destruct D as [[(p & Hp & Hl) D]|[D1 D2]].
    + left. split; [|done]. destruct (decide (x_session x = s)) as [E|Hne].
      * exists (with_data o d). cbn. rewrite E, lookup_insert_eq. split; [done|]. rewrite E in Hp. cbn. congruence.
      * exists p. cbn. by rewrite lookup_insert_ne.
    + right. split; [|done]. rewrite lookup_insert_ne; [done|]. congruence.
Qed.

Lemma Bears_stored t w s o d b : Bears t w -> w_brs w !! o_bearer o = Some b -> ebi (defaultBearer d) = ebi b ->
  Bears t (stored w s o d).
Proof.
  intros H Hb He k p Hp. destruct (H k p Hp) as [H1 (b2 & H2 & H3)]. cbn. split.
  - destruct (decide (p.1 = o_bearer o)) as [->|Hne]; [rewrite lookup_insert_eq|rewrite lookup_insert_ne]; eauto.
  - destruct (decide (p.2 = o_bearer o)) as [E|Hne].
    + exists (defaultBearer d). rewrite E, lookup_insert_eq. split; [done|]. unfold ebi_key in *. rewrite He. congruence.
    + exists b2. by rewrite lookup_insert_ne.
Qed.

(** A session that ends, with a settled S11 session. *)
Lemma Core_delete live w s : Core live w ->
  (forall o u x, w_sess w !! s = Some o -> o_s11 o = Some u -> w_users w !! u = Some x -> settled x) ->
  Core (List.filter (fun t => negb (t =? s)%nat) live) (with_sess w (delete s (w_sess w))).
Proof.
  intros [] Hq. constructor; cbn; auto.
  - by apply NoDup_ListNoDup, List.NoDup_filter, NoDup_ListNoDup.
  - intros t. rewrite list_elem_of_In, filter_In, <- list_elem_of_In, c_live0. destruct (decide (t = s)) as [->|Hne].
    + rewrite lookup_delete_eq, Nat.eqb_refl. split; [by intros [_ ?]|by intros [? ?]].
    + rewrite lookup_delete_ne by done. apply Nat.eqb_neq in Hne. rewrite Hne. tauto.
  - intros n Hn. destruct (c_next0 n Hn) as (A & B). split; [|done]. destruct (decide (n = s)) as [->|Hne];
      [apply lookup_delete_eq|by rewrite lookup_delete_ne].
  - intros t o [Hne Ho]%lookup_delete_Some. eauto.
  - intros u x Hu. destruct (c_user0 u x Hu) as [L D]. split; [done|].
    destruct (decide (x_session x = s)) as [E|Hne].
    + right. rewrite E, lookup_delete_eq. split; [done|]. destruct D as [[(o & Ho & Hl) D]|[D1 D2]]; [|done].
      rewrite E in Ho. eauto.
    + destruct D as [[(o & Ho & Hl) D]|[D1 D2]]; [left|right]; (split; [|done]).
      * exists o. cbn. by rewrite lookup_delete_ne.
      * by rewrite lookup_delete_ne.
Qed.

(** A session that ends together with its S11 session, which goes into a settled
    state, or is freed. *)
Definition parked (s : nat) : S11_obj := {| x_state := noCtx; x_session := s; x_cb := None |}.

Lemma Core_park live w s o u x : Core live w -> w_sess w !! s = Some o -> o_s11 o = Some u -> w_users w !! u = Some x ->
  x_session x = s ->
  Core (List.filter (fun t => negb (t =? s)%nat) live)
    (with_sess (with_users w (<[u := parked s]> (w_users w))) (delete s (w_sess w))).
Proof.
  intros C Ho Hl Hu Hx.
  assert (C' : Core live (with_users w (<[u := parked s]> (w_users w)))) by (by apply (Core_user _ _ _ x)).
  apply (Core_delete live (with_users w (<[u := parked s]> (w_users w))) s C'). cbn. intros o' u' x' Ho' Hl' Hu'.
  assert (u' = u) as -> by congruence. rewrite lookup_insert_eq in Hu'. by injection Hu' as <-.
Qed.

Lemma Core_remove live w s o u x x' : Core live w -> w_sess w !! s = Some o -> o_s11 o = Some u -> w_users w !! u = Some x ->
  x_session x = s -> x_session x' = s -> settled x' ->
  Core (List.filter (fun t => negb (t =? s)%nat) live)
    (with_sess (with_users w (<[u := x']> (w_users w))) (delete s (w_sess w))).
Proof.
  intros C Ho Hl Hu Hx Hx' Hq. pose proof (Core_park live w s o u x C Ho Hl Hu Hx) as P.
  assert (H : w_users (with_sess (with_users w (<[u := parked s]> (w_users w))) (delete s (w_sess w))) !! u = Some (parked s))
    by (cbn; apply lookup_insert_eq).
  apply (Core_user _ _ u (parked s) x') in P; [|done|done| |done].
  - cbn in P. unfold with_users, with_sess in P |- *. cbn in P |- *. by rewrite insert_insert_eq in P.
  - intros (o' & Ho' & _). cbn in Ho'. by rewrite lookup_delete_eq in Ho'.
Qed.

Lemma Core_user_freed live w u x : Core live w -> w_users w !! u = Some x -> w_sess w !! x_session x = None ->
  Core live (with_users w (delete u (w_users w))).
Proof.
  intros [] Hu Hn. constructor; cbn; auto.
  - intros n H. destruct (c_next0 n H) as (? & ? & N). split_and!; auto. apply lookup_delete_None. auto.
  - intros s o Ho. destruct (c_sess0 s o Ho) as (A & B & C & D). split_and!; auto. intros v Hv.
    destruct (D v Hv) as (y & Hy & Hs). exists y. split; [|done]. rewrite lookup_delete_ne; [done|]. intros <-.
    assert (y = x) as -> by congruence. congruence.
  - intros v y [Hne Hv]%lookup_delete_Some. exact (c_user0 v y Hv).
Qed.

Lemma Core_remove_both live w s o u x : Core live w -> w_sess w !! s = Some o -> o_s11 o = Some u -> w_users w !! u = Some x ->
  x_session x = s ->
  Core (List.filter (fun t => negb (t =? s)%nat) live)
    (with_sess (with_users w (delete u (w_users w))) (delete s (w_sess w))).
Proof.
  intros C Ho Hl Hu Hx. pose proof (Core_park live w s o u x C Ho Hl Hu Hx) as P.
  apply (Core_user_freed _ _ u (parked s)) in P; [|apply lookup_insert_eq|cbn; apply lookup_delete_eq].
  cbn in P. unfold with_users, with_sess in P |- *. cbn in P |- *. by rewrite delete_insert_eq in P.
Qed.

(** New objects. *)
Lemma Core_bearer live w bc : Core live w -> bearer_ok bc -> bc_state bc = Inactive ->
  Core live (with_brs (with_next w (S (w_next w))) (<[w_next w := bc]> (w_brs w))).
Proof.
  intros C Hb Hi. apply Core_fresh in C as F. destruct F. cbn in *. constructor; cbn; auto.
  - intros n Hn. destruct (c_next0 n Hn) as (A & B & D). split_and!; auto. rewrite lookup_insert_ne by lia. done.
  - intros b x Hx. destruct (decide (b = w_next w)) as [->|Hne].
    + rewrite lookup_insert_eq in Hx. by injection Hx as <-.
    + rewrite lookup_insert_ne in Hx by done. eauto.
  - intros s o Ho. destruct (c_sess0 s o Ho) as (A & D). split; [|done].
    destruct (decide (o_bearer o = w_next w)) as [->|Hne]; [rewrite lookup_insert_eq|rewrite lookup_insert_ne]; eauto.
Qed.

Lemma Core_session live w o : Core live w -> is_Some (w_brs w !! o_bearer o) -> o_s11 o = None -> data_ok (o_data o) ->
  es_esm (o_data o) = true ->
  Core (live ++ [w_next w]) (with_sess (with_next w (S (w_next w))) (<[w_next w := o]> (w_sess w))).
Proof.
  intros C Hb Hl Hd He. destruct (c_next _ _ C (w_next w)) as (N1 & N2 & N3); [lia|].
  apply Core_fresh in C as F. destruct F. cbn in *. constructor; cbn; auto.
  - apply NoDup_app. split; [done|]. split; [|apply NoDup_singleton]. intros t Ht ->%list_elem_of_singleton.
    apply c_live0 in Ht. rewrite N1 in Ht. by destruct Ht.
  - intros t. rewrite elem_of_app, list_elem_of_singleton, c_live0.
    destruct (decide (t = w_next w)) as [->|Hne]; [rewrite lookup_insert_eq; split; eauto|rewrite lookup_insert_ne by done].
    split; [by intros [?|?]|by left].
  - intros n Hn. destruct (c_next0 n Hn) as (A & B & D). split_and!; auto. rewrite lookup_insert_ne by lia. done.
  - intros s p Hp. destruct (decide (s = w_next w)) as [->|Hne].
    + rewrite lookup_insert_eq in Hp. injection Hp as <-. split_and!; auto. by rewrite Hl.
    + rewrite lookup_insert_ne in Hp by done. eauto.
  - intros u x Hu. destruct (c_user0 u x Hu) as [L D]. split; [lia|].
    assert (Hne : x_session x <> w_next w).
    { destruct (c_user _ _ C u x Hu) as [L' _]. lia. }
    destruct D as [[(p & Hp & Hq) D]|[D1 D2]]; [left|right]; (split; [|done]).
    + exists p. cbn. by rewrite lookup_insert_ne.
    + by rewrite lookup_insert_ne.
Qed.

Definition attached (w : world) (s : nat) (o : EPS_obj) : world :=
  let u := w_next w in
  with_sess (with_out (with_users (with_next w (S u))
      (<[u := {| x_state := wCtxRsp; x_session := s; x_cb := Some (Cb_activate s) |}]> (w_users w)))
      (w_out w ++ [Out_s11 u GTP2_CREATE_SESSION_REQ]))
    (<[s := with_s11 o u]> (w_sess w)).

Lemma Core_attached live w s o : Core live w -> w_sess w !! s = Some o -> o_s11 o = None -> Core live (attached w s o).
Proof.
  intros C Ho Hl. destruct (c_next _ _ C (w_next w)) as (N1 & N2 & N3); [lia|].
  apply Core_fresh in C as F. destruct F. cbn in *. constructor; cbn; auto.
  - intros t. rewrite c_live0. destruct (decide (t = s)) as [->|Hne]; [rewrite lookup_insert_eq, Ho|by rewrite lookup_insert_ne].
    split; eauto.
  - intros n Hn. destruct (c_next0 n Hn) as (A & B & D). rewrite !lookup_insert_ne; [done|lia|congruence].
  - intros t p Hp. destruct (decide (t = s)) as [->|Hne].
    + rewrite lookup_insert_eq in Hp. injection Hp as <-. destruct (c_sess0 s o Ho) as (A & B & D & _). cbn. split_and!; auto.
      intros u [= <-]. rewrite lookup_insert_eq. eauto.
    + rewrite lookup_insert_ne in Hp by done. destruct (c_sess0 t p Hp) as (A & B & D & E). split_and!; auto.
      intros u Hu. destruct (E u Hu) as (x & Hx & Hs). exists x. rewrite lookup_insert_ne; [done|]. intros <-. cbn in *. congruence.
  - intros u x Hu. destruct (decide (u = w_next w)) as [->|Hne].
    + rewrite lookup_insert_eq in Hu. injection Hu as <-. cbn. split.
      { assert (~ (w_next w <= s)%nat); [|lia]. intros H. destruct (c_next _ _ C s H) as [Z _]. congruence. }
      left. split; [|done]. exists (with_s11 o (w_next w)). cbn. by rewrite lookup_insert_eq.
    + rewrite lookup_insert_ne in Hu by done. destruct (c_user0 u x Hu) as [L D]. split; [done|].
      destruct D as [[(p & Hp & Hq) D]|[D1 D2]]; [left|right]; (split; [|done]).
      * destruct (decide (x_session x = s)) as [E|Hs]; [cbn in *; congruence|]. exists p. cbn. by rewrite lookup_insert_ne.
      * rewrite lookup_insert_ne; [done|]. intros ->. cbn in *. congruence.
Qed.

(** ** What the operations of a session do to its data *)

Lemma parse_ok d pti m : data_ok d -> Forall (Forall byte_ok) (PQ_optionals m) ->
  exists d' info, ePSsession_parsePDNConnectivityRequest d pti m = Ok (d', info) /\ data_ok d' /\
    es_esm d' = es_esm d /\ defaultBearer d' = defaultBearer d.
Proof.
  intros [Ha Hp] Hb. unfold ePSsession_parsePDNConnectivityRequest.
  destruct (nas_NASOpt_lookup (PQ_optionals m) 4 0x27) as [ie|] eqn:E; osimp; [|eexists _, _; split; [done|]; done].
  assert (B : byte_ok (nth 1 ie 0)).
  { unfold nas_NASOpt_lookup in E. destruct (NASOpt_lookup_loop _ _ _ _) as [i|]; [|done]. injection E as <-.
    assert (H : forall l, Forall byte_ok l -> byte_ok (nth 1 l 0)).
    { intros [|x [|y l]] H; try (cbn; unfold byte_ok; lia). rewrite !Forall_cons in H. tauto. }
    apply H. destruct (decide (i < length (PQ_optionals m))%nat) as [Hi|Hi].
    - apply (proj1 (List.Forall_forall _ _) Hb). by apply nth_In.
    - rewrite nth_overflow by lia. constructor. }
  unfold byte_ok in B. unfold ePSsession_setPCO, PCO_SIZE in *. cbn [with_pti pco].
  rewrite overwrite_Ok by (cbn; lia). osimp.
  destruct (rdn_is_Ok (drop 2 ie ++ repeat 0 (Z.to_nat (nth 1 ie 0))) (nth 1 ie 0)) as [bs Hbs].
  { rewrite length_app, repeat_length. lia. }
  rewrite Hbs. osimp.
  assert (L : length bs = Z.to_nat (nth 1 ie 0)).
  { unfold rdn in Hbs. destruct (_ <? _) eqn:Hl; [done|]. zbool. injection Hbs as <-. rewrite length_take. lia. }
  assert (L2 : length (take (Z.to_nat 0) (pco d) ++ [39; wrap8 (nth 1 ie 0)] ++ drop (Z.to_nat 0 + length [39; wrap8 (nth 1 ie 0)]) (pco d)) = 257%nat).
  { rewrite !length_app, length_take, length_drop. cbn [length]. lia. }
  rewrite overwrite_Ok by lia. osimp. eexists _, _. split; [done|].
  split; [split; [done|]|done]. cbn [with_pco with_pti pco].
  revert L2. generalize (take (Z.to_nat 0) (pco d) ++ [39; wrap8 (nth 1 ie 0)] ++ drop (Z.to_nat 0 + length [39; wrap8 (nth 1 ie 0)]) (pco d)).
  intros l L2. rewrite !length_app, length_take, length_drop. unfold PCO_SIZE. lia.
Qed.

Lemma activate_info d : exists msg, ePSsession_activateDefault d true = Ok (emm_sendESM_call msg).
Proof.
  unfold ePSsession_activateDefault. cbn [negb].
  erewrite writes_run; [osimp; eauto|apply _|cbn; lia].
Qed.

Lemma fteid_enb_ok b teid addr x : bearer_ok b -> length teid = 4%nat -> (x = true -> 4 <= length addr)%nat ->
  exists b', esm_bc_setS1ueNBfteid b (if x then (0x80 .| S1U_eNB) :: take 4 teid ++ take 4 addr ++ repeat 0 16
                                       else S1U_eNB :: take 4 teid ++ repeat 0 20) = Ok b' /\
    bearer_ok b' /\ ebi b' = ebi b /\ bc_state b' = bc_state b.
Proof.
  intros (H1 & H2 & H3 & H4) Ht Ha. unfold FTEID_SIZE in *. destruct teid as [|t0 [|t1 [|t2 [|t3 [|]]]]]; try discriminate Ht.
  assert (K : forall f n bs, fteid_len f = Ok n -> fteid_iface f = Ok S1U_eNB -> rdn f n = Ok bs -> (length bs <= 25)%nat ->
    exists b', esm_bc_setS1ueNBfteid b f = Ok b' /\ bearer_ok b' /\ ebi b' = ebi b /\ bc_state b' = bc_state b).
  { intros f n bs E1 E2 E3 L. unfold esm_bc_setS1ueNBfteid, copy_fteid. rewrite E1. osimp. rewrite E2. osimp.
    rewrite Z.eqb_refl. cbn [negb]. rewrite E3. osimp. rewrite overwrite_Ok by lia. osimp. eexists. split; [done|].
    split; [|done]. split_and!; cbn [s1u_sgw s1u_enb s5s8u_pgw ebi]; try done. unfold FTEID_SIZE.
    rewrite !length_app, length_take, length_drop. lia. }
  destruct x.
  - destruct addr as [|a0 [|a1 [|a2 [|a3 addr]]]]; try (specialize (Ha eq_refl); cbn in Ha; lia).
    eapply K; [reflexivity..|]. by apply Nat.leb_le.
  - eapply K; [reflexivity..|]. by apply Nat.leb_le.
Qed.

(** ** Requests to S11 *)

Lemma Core_get live w s : Core live w -> s ∈ live -> exists o b, w_sess w !! s = Some o /\ w_brs w !! o_bearer o = Some b /\
  session_ok (with_bearer (o_data o) b) /\ es_esm (o_data o) = true /\ bc_state b = Inactive.
Proof.
  intros [] [o Ho]%c_live0. destruct (c_sess0 s o Ho) as ((b & Hb) & Hd & He & _). destruct (c_brs0 _ b Hb) as [B1 B2].
  exists o, b. rewrite session_ok_split. auto 10.
Qed.

Definition requested (x : S11_obj) (r : s11_req) (cb : option esm_callback) : S11_obj :=
  {| x_state := match fsm_request (x_state x) r with Some (_, st) => st | None => x_state x end;
     x_session := x_session x; x_cb := cb |}.
(** The state after a request. *)
Definition after_request (u : nat) (x : S11_obj) (r : s11_req) (cb : option esm_callback) (w : world) : world :=
  with_out (with_users w (<[u := requested x r cb]> (w_users w)))
    (match fsm_request (x_state x) r with Some (ty, _) => w_out w ++ [Out_s11 u ty] | None => w_out w end).

Lemma ewp_request u x r cb (Q : unit -> world -> Prop) w : w_users w !! u = Some x -> Q tt (after_request u x r cb w) ->
  ewp (s11_request u r cb) Q w.
Proof.
  intros Hu H. apply ewp_bind, (ewp_deref _ _ x); [done|]. unfold after_request, requested in H.
  destruct (fsm_request (x_state x) r) as [[ty st]|]; [apply ewp_bind, ewp_put; by apply ewp_emit|].
  apply ewp_put. unfold with_users, with_out in *. done.
Qed.

Lemma ewp_session_request s o u x r cb (Q : unit -> world -> Prop) w : w_sess w !! s = Some o -> o_s11 o = Some u ->
  w_users w !! u = Some x -> Q tt (after_request u x r cb w) -> ewp (session_request s r cb) Q w.
Proof. intros Ho Hl Hu H. apply ewp_bind, (ewp_deref _ _ o); [done|]. rewrite Hl. by apply (ewp_request u x). Qed.

Lemma Core_request live w u x r cb : Core live w -> w_users w !! u = Some x -> linked w u x -> cb_ok (requested x r cb) ->
  Core live (after_request u x r cb w).
Proof.
  intros C Hu Hl Hc. apply Core_out, (Core_user _ _ _ x); auto. intros Hn. destruct Hl as (o & Ho & _). congruence.
Qed.

(** A request leads to the deletion only from a state in which it was asked for. *)
Lemma request_not_wDel x r : x_state x <> wDel -> r <> R_detach ->
  match fsm_request (x_state x) r with Some (_, st) => st | None => x_state x end <> wDel.
Proof. destruct (x_state x), r; cbn; congruence. Qed.

Lemma cb_ok_ext x r k : x_state x <> wDel -> r <> R_detach -> cb_ok (requested x r (Cb_ext <$> k)).
Proof.
  intros H1 H2. split; [by destruct k|]. split; [|by destruct k]. intros E. by destruct (request_not_wDel x r H1 H2).
Qed.

(** The S11 session of an EPS session. *)
Definition session_user (w : world) (s : nat) : option S11_obj :=
  o ← w_sess w !! s; u ← o_s11 o; w_users w !! u.
Definition ready (w : world) (s : nat) (P : S11State -> Prop) : Prop := exists x, session_user w s = Some x /\ P (x_state x).

Lemma ready_inv live w s P : Core live w -> ready w s P -> exists o u x, w_sess w !! s = Some o /\ o_s11 o = Some u /\
  w_users w !! u = Some x /\ x_session x = s /\ linked w u x /\ P (x_state x).
Proof.
  intros C (x & Hx & HP). unfold session_user in Hx. destruct (w_sess w !! s) as [o|] eqn:Ho; [|done]. cbn in Hx.
  destruct (o_s11 o) as [u|] eqn:Hu; [|done]. cbn in Hx. destruct (c_sess _ _ C s o Ho) as (_ & _ & _ & D).
  destruct (D u Hu) as (y & Hy & Hs). assert (y = x) as -> by congruence. exists o, u, x. split_and!; auto.
  exists o. by rewrite Hs.
Qed.

(** ** The invariant and the tables *)

Section Safe.
Context {ho : HashOrder}.

Lemma first_live e s : first_session e = Some s -> s ∈ esm_sessions e.
Proof.
  unfold first_session. intros H. rewrite <- (ho_perm (esm_sessions e)). destruct (ho_values (esm_sessions e)); [done|].
  injection H as ->. left.
Qed.

Lemma Bears_brs t w w' : w_brs w' = w_brs w -> Bears t w -> Bears t w'.
Proof. unfold Bears. by intros ->. Qed.

Lemma Good_intro e w : w_esm w = Some e -> Core (esm_sessions e) w -> Bears (esm_bearers e) w -> Good w.
Proof. unfold Good. by intros ->. Qed.
Lemma Good_elim e w : w_esm w = Some e -> Good w -> Core (esm_sessions e) w /\ Bears (esm_bearers e) w.
Proof. unfold Good. by intros ->. Qed.

Lemma ewp_call_ext cb (Q : unit -> world -> Prop) w : (forall l, Q tt (with_out w l)) -> ewp (call_ext cb) Q w.
Proof. intros H. destruct cb; [apply ewp_emit, H|]. apply ewp_skip. specialize (H (w_out w)). by destruct w. Qed.

Lemma Good_out w l : Good w -> Good (with_out w l).
Proof.
  unfold Good. cbn. destruct (w_esm w); [intros [C B]; split; [by apply Core_out|by apply (Bears_brs _ w)]|by apply Core_out].
Qed.

(** ** Deletion of a session *)

Definition deleted (e : ESM_t) (s : nat) (b : ESM_BearerContext_t) : ESM_t :=
  {| next_ebi := 5; esm_bearers := delete (ebi_key b) (esm_bearers e);
     esm_sessions := List.filter (fun t => negb (t =? s)%nat) (esm_sessions e); esm_cb := esm_cb e |}.

Lemma ewp_delete s o b e (Q : unit -> world -> Prop) w : w_esm w = Some e -> w_sess w !! s = Some o ->
  w_brs w !! o_bearer o = Some b -> es_esm (o_data o) = true ->
  ewp (call_ext (esm_cb e)) Q (with_sess (with_esm w (Some (deleted e s b))) (delete s (w_sess w))) ->
  ewp (esm_deleteEPSSession s) Q w.
Proof.
  intros He Ho Hb Hn H. apply ewp_bind, (ewp_deref _ _ o); [done|]. rewrite Hn. cbn [negb].
  apply ewp_bind, (ewp_set_esm e); [done|]. apply ewp_bind. apply ewp_bind, (ewp_deref _ _ o); [done|]. apply ewp_put.
  apply ewp_bind, (ewp_deref _ _ b); [done|]. apply ewp_bind. eapply ewp_set_esm; [done|]. apply ewp_bind.
  eapply ewp_set_esm; [done|]. apply ewp_bind. eapply ewp_esm; [done|]. exact H.
Qed.

Lemma Bears_deleted e s b w w' : w_brs w' = w_brs w -> Bears (esm_bearers e) w -> Bears (esm_bearers (deleted e s b)) w'.
Proof. intros Hb H k p Hp. cbn [deleted esm_bearers] in Hp. apply lookup_delete_Some in Hp as [_ Hp]. rewrite Hb. by apply H. Qed.

(** ** Activation of a session *)

Lemma ewp_activate s o b info (Q : unit -> world -> Prop) w : w_sess w !! s = Some o -> w_brs w !! o_bearer o = Some b ->
  (forall l, Q tt (with_out w l)) -> Q tt (attached w s o) -> ewp (ESM_ePSsession_activateDefault s info) Q w.
Proof.
  intros Ho Hb H1 H2. apply ewp_bind, (ewp_load _ o b); [done..|]. apply ewp_bind. destruct info.
  - destruct (activate_info (with_bearer (o_data o) b)) as [msg E]. eapply ewp_lift; [done|]. apply ewp_emit, H1.
  - apply (ewp_lift _ S11_newUserAttach_call); [done|]. apply ewp_bind, ewp_bind, ewp_fresh, ewp_bind, ewp_put, ewp_bind.
    eapply ewp_request; [cbn; apply lookup_insert_eq|]. apply ewp_ret, ewp_bind. eapply ewp_deref; [cbn; done|]. apply ewp_put.
    unfold after_request, requested. cbn. unfold with_out, with_users, with_next, with_sess. cbn. by rewrite insert_insert_eq.
Qed.

(** ** Messages of the terminal *)

(** What the decoder of the messages guarantees. *)
Definition decoded (m : GenericNASMsg_t) : Prop :=
  is_enum (gm_protocolDiscriminator m) EPSSessionManagementMessages = true /\
  exists e, gm_plain m = plain_eSM e /\
    (NASMessageType_of (esm_messageType e) = Some PDNConnectivityRequest ->
     exists r, esm_body e = B_PDNConnectivityRequest r /\ Forall (Forall byte_ok) (PQ_optionals r)).

Definition is_info_response (m : GenericNASMsg_t) : Prop :=
  exists e, gm_plain m = plain_eSM e /\ NASMessageType_of (esm_messageType e) = Some ESMInformationResponse.

Lemma insert_bearer_ok e w b x : w_esm w = Some e -> w_brs w !! b = Some x -> Bears (esm_bearers e) w ->
  exists t, Bears t w /\ forall (Q : unit -> world -> Prop), Q tt (with_esm w (Some (with_bearers e t))) -> ewp (insert_bearer b) Q w.
Proof.
  intros He Hb HB.
  exists (match esm_bearers e !! ebi_key x with Some (holder, _) => <[ebi_key x := (holder, b)]> (esm_bearers e)
          | None => <[ebi_key x := (b, b)]> (esm_bearers e) end). split.
  - intros k p Hp. destruct (esm_bearers e !! ebi_key x) as [[h v]|] eqn:E.
    + destruct (decide (ebi_key x = k)) as [<-|Hne]; [|rewrite lookup_insert_ne in Hp by done; by apply HB].
      rewrite lookup_insert_eq in Hp. injection Hp as <-. destruct (HB _ _ E) as [H1 _]. cbn in *. eauto.
    + destruct (decide (ebi_key x = k)) as [<-|Hne]; [|rewrite lookup_insert_ne in Hp by done; by apply HB].
      rewrite lookup_insert_eq in Hp. injection Hp as <-. cbn. eauto.
  - intros Q H. apply ewp_bind, (ewp_deref _ _ x); [done|]. by apply (ewp_set_esm e).
Qed.

Lemma init_bearer_ok n : bearer_ok (esm_bc_init n) /\ bc_state (esm_bc_init n) = Inactive.
Proof. split; [|done]. split_and!; cbn; try done; apply wrap8_byte. Qed.

Lemma pdn_good subs pti r e w : w_esm w = Some e -> Good w -> Forall (Forall byte_ok) (PQ_optionals r) ->
  ewp (process_PDNConnectivityRequest subs pti r) (fun _ => Good) w.
Proof.
  intros He [C B]%(Good_elim e) Hr; [|done]. destruct (init_bearer_ok (next_ebi e)) as [K1 K2].
  apply ewp_bind, (ewp_esm e); [done|]. apply ewp_bind, ewp_fresh, ewp_bind, ewp_put.
  pose proof (Core_bearer _ _ _ C K1 K2) as C1.
  set (bc := esm_bc_init (next_ebi e)) in *. set (n := w_next w) in *.
  change (with_brs (with_next w (S n)) (<[n := bc]> (w_brs (with_next w (S n))))) with (with_brs (with_next w (S n)) (<[n := bc]> (w_brs w))).
  set (w1 := with_brs (with_next w (S n)) (<[n := bc]> (w_brs w))) in *.
  assert (B1 : Bears (esm_bearers e) w1).
  { destruct (c_next _ _ C n) as (_ & N & _); [subst n; lia|]. assert (Hne : forall i, is_Some (w_brs w !! i) -> n <> i).
    { intros i [y Hi] <-. congruence. }
    intros k p Hp. destruct (B k p Hp) as [Hi (y & Hy & Hk)]. cbn. split; [by rewrite lookup_insert_ne by auto|].
    exists y. rewrite lookup_insert_ne; [done|]. eauto. }
  destruct (insert_bearer_ok e w1 n bc) as (t & B2 & W); [done|apply lookup_insert_eq|done|].
  apply ewp_bind, W, ewp_bind. eapply ewp_set_esm; [done|]. apply ewp_bind, ewp_fresh, ewp_bind, ewp_put, ewp_bind.
  eapply ewp_set_esm; [done|].
  set (o := {| o_bearer := n; o_s11 := None; o_data := ePSsession_init subs bc |}).
  apply (Core_session _ _ o) in C1 as C2; [|cbn; rewrite lookup_insert_eq; eauto|done|done|done].
  set (e' := with_sessions _ _). match goal with |- ewp _ _ ?W => set (w2 := W) end.
  assert (C3 : Core (esm_sessions e') w2) by exact (Core_esm _ _ (Some e') C2).
  assert (Ho : w_sess w2 !! S n = Some o) by apply lookup_insert_eq.
  assert (Hb : w_brs w2 !! o_bearer o = Some bc) by apply lookup_insert_eq.
  assert (B3 : Bears (esm_bearers e') w2) by exact B2.
  assert (He2 : w_esm w2 = Some e') by done. clearbody w2 e'.
  apply ewp_bind, (ewp_load _ o bc); [done..|]. apply ewp_bind.
  destruct (parse_ok (with_bearer (o_data o) bc) pti r) as (d & info & E & D1 & D2 & D3); [done..|].
  eapply ewp_lift; [done|]. apply ewp_bind, (ewp_store _ o); [done|].
  assert (C4 : Core (esm_sessions e') (stored w2 (S n) o d)).
  { apply Core_stored; [done..| |by rewrite D2|by rewrite D3]. apply session_ok_parts. rewrite D3. done. }
  assert (B4 : Bears (esm_bearers e') (stored w2 (S n) o d)) by (apply (Bears_stored _ _ _ _ _ bc); [done..|by rewrite D3]).
  apply (ewp_activate _ (with_data o d) (defaultBearer d)); [cbn; apply lookup_insert_eq..| |].
  - intros l. apply (Good_intro e'); [done|by apply Core_out|by apply (Bears_brs _ (stored w2 (S n) o d))].
  - apply (Good_intro e'); [done| |by apply (Bears_brs _ (stored w2 (S n) o d))].
    apply Core_attached; [done|cbn; apply lookup_insert_eq|done].
Qed.

Lemma msg_good subs bi next m e w : w_esm w = Some e -> Good w -> decoded m ->
  (is_info_response m -> exists s o, first_session e = Some s /\ w_sess w !! s = Some o /\ o_s11 o = None) ->
  ewp (esm_processMsg subs bi next m) (fun _ => Good) w.
Proof.
  intros He G (Hp & em & Hm & Hpdn) Hi. unfold esm_processMsg. rewrite Hp. cbn [negb]. rewrite Hm.
  assert (L : forall k, ewp (self ← esm_;
    match esm_bearers self !! k with None => e_skip | Some (bearer, _) => esm_bc_processMsg bearer em end) (fun _ => Good) w).
  { intros k. apply ewp_bind, (ewp_esm e); [done|]. destruct (esm_bearers e !! k) as [[? ?]|]; by apply ewp_skip. }
  destruct (NASMessageType_of (esm_messageType em)) as [ty|] eqn:T; [|by apply ewp_skip].
  destruct ty; first [by apply ewp_skip | apply L | idtac].
  - destruct (Hpdn eq_refl) as (r & -> & Hr). by apply (pdn_good _ _ _ e).
  - destruct Hi as (s & o & Hf & Ho & Hl); [by exists em|]. apply ewp_bind, (ewp_esm e); [done|]. rewrite Hf.
    destruct (Good_elim e w He G) as [C B]. destruct (Core_get _ _ s C (first_live _ _ Hf)) as (o' & b & Ho' & Hb & _).
    assert (o' = o) as -> by congruence. apply (ewp_activate _ o b); [done..| |].
    + intros l. by apply Good_out.
    + apply (Good_intro e); [done|by apply Core_attached|by apply (Bears_brs _ w)].
Qed.

(** ** Requests of the layers below *)

Definition not_deleting (st : S11State) : Prop := st <> wDel.
Definition idle (st : S11State) : Prop := st <> wCtxRsp /\ st <> wModBearerRsp.

Lemma request_good s r k e w : w_esm w = Some e -> Good w -> ready w s not_deleting -> r <> R_detach ->
  ewp (session_request s r (Cb_ext <$> k)) (fun _ => Good) w.
Proof.
  intros He G Hr Hd. destruct (Good_elim e w He G) as [C B]. destruct (ready_inv _ _ _ _ C Hr) as (o & u & x & Ho & Hl & Hu & Hs & Hk & Hn).
  apply (ewp_session_request _ o u x); [done..|]. apply (Good_intro e); [done| |by apply (Bears_brs _ w)].
  apply Core_request; [done..|by apply cb_ok_ext].
Qed.

Lemma modify_good id teid addr len k e w : w_esm w = Some e -> Good w -> length teid = 4%nat ->
  (len = 32 -> (4 <= length addr)%nat) -> (forall s, first_session e = Some s -> ready w s not_deleting) ->
  ewp (esm_modifyE_RABList id teid addr len k) (fun _ => Good) w.
Proof.
  intros He G Ht Ha Hr. apply ewp_bind, (ewp_esm e); [done|].
  destruct (first_session e) as [s|] eqn:Hf; [|apply ewp_call_ext; intros l; by apply Good_out].
  destruct (Good_elim e w He G) as [C B]. destruct (Core_get _ _ s C (first_live _ _ Hf)) as (o & b & Ho & Hb & Hok & Hn & Hi).
  apply session_ok_split in Hok as Hok'. destruct Hok' as [Hd Hbo].
  apply ewp_bind, (ewp_load _ o b); [done..|]. apply ewp_bind. unfold ePSsession_modifyE_RABList. cbn [with_bearer defaultBearer].
  assert (S : forall b', bearer_ok b' -> ebi b' = ebi b -> bc_state b' = bc_state b -> Good (stored w s o (with_bearer (o_data o) b'))).
  { intros b' H1 H2 H3. apply (Good_intro e); [done| |by apply (Bears_stored _ _ _ _ _ b)].
    apply Core_stored; [done..| |done|cbn; congruence]. by apply session_ok_split. }
  destruct (esm_bc_getEBI b =? id); cbn [negb].
  - destruct (fteid_enb_ok b teid addr (len =? 32) Hbo Ht) as (b' & E & H1 & H2 & H3). { intros ?%Z.eqb_eq. auto. }
    eapply ewp_lift. { destruct (len =? 32); rewrite E; osimp; done. }
    cbn beta iota. apply ewp_bind, (ewp_store _ o); [done|]. apply ewp_bind.
    eapply ewp_mono; [eapply request_good; [|by apply S| |done]|].
    + done.
    + destruct (ready_inv _ _ _ _ C (Hr s eq_refl)) as (o' & u & x & Ho' & Hl & Hu & Hs & Hk & HP). exists x. split; [|done].
      unfold session_user. cbn. rewrite lookup_insert_eq. cbn. assert (o' = o) as -> by congruence. by rewrite Hl.
    + intros [] w' G'. by apply ewp_skip.
  - eapply ewp_lift; [done|]. cbn beta iota. apply ewp_bind, (ewp_store _ o); [done|]. apply ewp_skip. by apply S.
Qed.

Lemma release_good k e w : w_esm w = Some e -> Good w -> (forall s, first_session e = Some s -> ready w s not_deleting) ->
  ewp (esm_UEContextReleaseReq k) (fun _ => Good) w.
Proof.
  intros He G Hr. apply ewp_bind, (ewp_esm e); [done|].
  destruct (first_session e) as [s|] eqn:Hf; [|apply ewp_call_ext; intros l; by apply Good_out].
  destruct (Good_elim e w He G) as [C B]. destruct (Core_get _ _ s C (first_live _ _ Hf)) as (o & b & Ho & Hb & _).
  apply ewp_bind, (ewp_load _ o b); [done..|]. apply ewp_bind. eapply ewp_mono; [by apply (request_good _ _ _ e); auto|].
  intros [] w' G'. by apply ewp_skip.
Qed.

Lemma detach_good k e w : w_esm w = Some e -> Good w -> (forall s, first_session e = Some s -> ready w s (fun _ => True)) ->
  ewp (esm_detach k) (fun _ => Good) w.
Proof.
  intros He G Hr. destruct (Good_elim e w He G) as [C B]. apply ewp_bind, (ewp_set_esm e); [done|].
  assert (C' := Core_esm _ _ (Some (with_cb e k)) C).
  apply ewp_bind. eapply ewp_esm; [done|]. change (first_session (with_cb e k)) with (first_session e).
  destruct (first_session e) as [s|] eqn:Hf; [|apply ewp_call_ext; intros l; by apply Good_out, (Good_intro (with_cb e k))].
  destruct (Core_get _ _ s C (first_live _ _ Hf)) as (o & b & Ho & Hb & _).
  destruct (ready_inv _ _ _ _ C (Hr s eq_refl)) as (o' & u & x & Ho' & Hl & Hu & Hs & Hk & HP). assert (o' = o) as -> by congruence.
  apply ewp_bind, (ewp_load _ o b); [done..|]. apply ewp_bind, (ewp_session_request _ o u x); [done..|]. apply ewp_skip.
  apply (Good_intro (with_cb e k)); [done| |done]. apply Core_request; [done..|]. by split_and!; cbn; rewrite ?Hs.
Qed.

(** ** Errors and the end *)

Lemma filter_out s l : s ∉ l -> List.filter (fun t => negb (t =? s)%nat) l = l.
Proof.
  induction l as [|t l IH]; [done|]. intros [H1 H2]%not_elem_of_cons. cbn. apply not_eq_sym, Nat.eqb_neq in H1.
  rewrite H1. cbn. by rewrite IH.
Qed.
Lemma filter_head s l : NoDup (s :: l) -> List.filter (fun t => negb (t =? s)%nat) (s :: l) = l.
Proof. intros [H _]%NoDup_cons. cbn. rewrite Nat.eqb_refl. by apply filter_out. Qed.

Lemma errored_settled x : idle (x_state x) -> settled (requested x R_detach None).
Proof. unfold settled, requested, idle. destruct (x_state x); cbn; tauto. Qed.

(** One session of [esm_errorEMM]. *)
Lemma error_one s l w : Core (s :: l) w -> ready w s idle ->
  exists w', Core l w' /\ w_brs w' = w_brs w /\ w_esm w' = w_esm w /\
    (forall t P, t <> s -> ready w t P -> ready w' t P) /\
    forall k (Q : unit -> world -> Prop), ewp k Q w' -> ewp (esm_errorEMMToSessions s ;; ePSsession_free s ;; k) Q w.
Proof.
  intros C Hr. destruct (ready_inv _ _ _ _ C Hr) as (o & u & x & Ho & Hl & Hu & Hs & Hk & HP).
  destruct (Core_get _ _ s C) as (o' & b & Ho' & Hb & _); [by left|]. assert (o' = o) as -> by congruence.
  pose proof (Core_remove _ _ s o u x (requested x R_detach None) C Ho Hl Hu Hs Hs (errored_settled x HP)) as R.
  rewrite filter_head in R by apply (c_nodup _ _ C).
  eexists. split; [exact (Core_out _ _ (match fsm_request (x_state x) R_detach with
    Some (ty, _) => w_out w ++ [Out_s11 u ty] | None => w_out w end) R)|]. split; [done|]. split; [done|]. split.
  - intros t P Hne Ht. destruct (ready_inv _ _ _ _ C Ht) as (p & v & y & Hp & Hpl & Hv & Hys & _ & HPy). exists y. split; [|done].
    unfold session_user. cbn. rewrite lookup_delete_ne by done. rewrite Hp. cbn. rewrite Hpl. cbn.
    rewrite lookup_insert_ne; [done|]. intros ->. congruence.
  - intros k Q H. apply ewp_bind. apply ewp_bind, (ewp_load _ o b); [done..|]. cbn beta iota zeta delta [ePSsession_errorESM].
    apply ewp_bind, (ewp_store _ o); [done|]. apply ewp_bind.
    eapply ewp_session_request; [cbn; apply lookup_insert_eq|done|done|]. apply ewp_skip, ewp_bind, ewp_bind.
    eapply ewp_deref; [cbn; apply lookup_insert_eq|]. apply ewp_put.
    cbn in H |- *. unfold after_request, stored, with_out, with_sess, with_users, with_brs in *. cbn in H |- *.
    by rewrite delete_insert_eq, insert_id by done.
Qed.

Lemma errors_good l e t w : Core l w -> (forall s, s ∈ l -> ready w s idle) -> w_esm w = e -> Bears t w ->
  ewp (foreach_remove_sessions l) (fun _ w' => Core [] w' /\ w_esm w' = e /\ Bears t w') w.
Proof.
  revert w. induction l as [|s l IH]; intros w C Hr He HB; [by apply ewp_skip|].
  destruct (error_one s l w C) as (w' & C' & H1 & H2 & H3 & H4); [apply Hr; by left|].
  cbn [foreach_remove_sessions]. apply H4, IH; [done| |congruence|by apply (Bears_brs _ w)].
  intros s' Hs. apply H3; [|apply Hr; by right]. intros ->. destruct (NoDup_cons s l) as [K _]. by destruct (K (c_nodup _ _ C)).
Qed.

Lemma Core_perm l l' w : Permutation l l' -> Core l w -> Core l' w.
Proof. intros P []. constructor; auto; [by rewrite <- P|]. intros s. by rewrite <- P. Qed.

Lemma error_good e w : w_esm w = Some e -> Good w -> (forall s, s ∈ esm_sessions e -> ready w s idle) ->
  ewp esm_errorEMM (fun _ => Good) w.
Proof.
  intros He G Hr. destruct (Good_elim e w He G) as [C B]. apply ewp_bind, (ewp_set_esm e); [done|].
  apply ewp_bind. eapply ewp_esm; [done|]. apply ewp_bind.
  assert (P := ho_perm (esm_sessions e)). eapply ewp_mono.
  - apply (errors_good _ (Some (with_ebi e 5)) (esm_bearers e)); [|intros s; cbn; rewrite P; apply Hr|done|done].
    eapply Core_perm; [by symmetry|]. by apply Core_esm.
  - intros [] w' (C' & He' & B'). eapply ewp_set_esm; [done|].
    eapply Good_intro; [done|by apply Core_esm|by apply (Bears_brs _ w')].
Qed.

Lemma free_good e w : w_esm w = Some e -> Good w ->
  (forall s x, s ∈ esm_sessions e -> session_user w s = Some x -> idle (x_state x) /\ x_state x <> wDel) ->
  ewp esm_free (fun _ => Good) w.
Proof.
  intros He G Hr. destruct (Good_elim e w He G) as [C _]. apply ewp_bind, (ewp_esm e); [done|]. apply ewp_bind. clear G He.
  enough (H : forall l w, Core l w -> (forall s x, s ∈ l -> session_user w s = Some x -> idle (x_state x) /\ x_state x <> wDel) ->
    ewp (free_all l) (fun _ => Core []) w).
  { eapply ewp_mono; [by apply H|]. intros [] w' C'. apply ewp_put. by apply Core_esm. }
  clear. induction l as [|s l IH]; intros w C Hr; [by apply ewp_skip|]. cbn [free_all].
  destruct (Core_get _ _ s C) as (o & b & Ho & _); [by left|].
  apply ewp_bind, ewp_bind, (ewp_deref _ _ o); [done|]. apply ewp_put, IH.
  - rewrite <- (filter_head s l) by apply (c_nodup _ _ C). apply Core_delete; [done|]. intros o' u x Ho' Hl Hu.
    destruct (Hr s x) as [Q1 Q2]; [by left| |]. { unfold session_user. rewrite Ho'. cbn. by rewrite Hl. }
    unfold settled, idle in *. destruct (x_state x); tauto.
  - intros t x Ht Hx. apply (Hr t x); [by right|]. unfold session_user in *. cbn in Hx.
    destruct (decide (t = s)) as [->|Hne]; [by rewrite lookup_delete_eq in Hx|by rewrite lookup_delete_ne in Hx].
Qed.

(** ** Answers of the gateway *)

Lemma Good_user u x x' w : Good w -> w_users w !! u = Some x -> x_session x' = x_session x ->
  (linked w u x -> cb_ok x') -> (w_sess w !! x_session x = None -> settled x') -> Good (with_users w (<[u := x']> (w_users w))).
Proof.
  intros G Hu Hs H1 H2. unfold Good in *. cbn. destruct (w_esm w).
  - destruct G as [C B]. split; [by apply (Core_user _ _ _ x)|by apply (Bears_brs _ w)].
  - by apply (Core_user _ _ _ x).
Qed.

Lemma Good_core w : Good w -> exists live, Core live w.
Proof. unfold Good. destruct (w_esm w); [intros [? _]|]; eauto. Qed.

(** A session that is there: its management is there, too. *)
Lemma Good_live w s o : Good w -> w_sess w !! s = Some o -> exists e, w_esm w = Some e /\ s ∈ esm_sessions e.
Proof.
  unfold Good. intros G Ho. destruct (w_esm w) as [e|].
  - exists e. split; [done|]. apply (c_live _ _ (proj1 G)). eauto.
  - assert (H : s ∈ ([] : list nat)) by (apply (c_live _ _ G); eauto). by apply not_elem_of_nil in H.
Qed.

Lemma send_call d c : ePSsession_sendActivateDefaultEPSBearerCtxtReq d = Ok c -> exists msg, c = emm_attachAccept_call msg.
Proof. unfold ePSsession_sendActivateDefaultEPSBearerCtxtReq. intros E. bind_inv. eauto. Qed.

(** The callback of an S11 session that is done with the exchange. *)
Lemma callback_good u x w : Good w -> w_users w !! u = Some x -> linked w u x -> cb_ok x -> settled x -> x_state x <> wDel ->
  (forall s, x_cb x = Some (Cb_activate s) -> forall o b, w_sess w !! s = Some o -> w_brs w !! o_bearer o = Some b ->
     is_Ok (ePSsession_sendActivateDefaultEPSBearerCtxtReq (with_bearer (o_data o) b))) ->
  ewp (call_back (x_cb x)) (fun _ => Good) w.
Proof.
  intros G Hu (o & Ho & Hl) (Hc & _) Hq Hn Ha. destruct (Good_live w _ o G Ho) as (e & He & Hin).
  destruct (Good_elim e w He G) as [C B]. destruct (Core_get _ _ _ C Hin) as (o' & b & Ho' & Hb & _ & Hesm & _).
  assert (o' = o) as -> by congruence. destruct (x_cb x) as [[s|s|k]|] eqn:Ecb; cbn [call_back].
  - subst s. destruct (Ha _ eq_refl o b Ho Hb) as [c Ec]. destruct (send_call _ _ Ec) as [msg ->].
    apply ewp_bind, (ewp_load _ o b); [done..|]. apply ewp_bind. eapply ewp_lift; [done|]. apply ewp_emit. by apply Good_out.
  - subst s. apply (ewp_delete _ o b e); [done..|]. apply ewp_call_ext. intros l.
    apply Good_out, (Good_intro (deleted e (x_session x) b)); [done| |by apply (Bears_deleted _ _ _ w)].
    apply (Core_delete _ (with_esm w _)); [by apply Core_esm|]. cbn. intros o' u' x' Ho2 Hl' Hu'. congruence.
  - apply ewp_emit. by apply Good_out.
  - by apply ewp_skip.
Qed.

(** What the gateway says in a Create Session Response can be stored, and the
    session it makes can be announced to the terminal. *)
Definition answer_fits (w : world) (u : nat) (r : s11_msg) : Prop := forall x o b,
  w_users w !! u = Some x -> x_state x = wCtxRsp -> r_type r = GTP2_CREATE_SESSION_RSP ->
  w_sess w !! x_session x = Some o -> w_brs w !! o_bearer o = Some b ->
  let d := with_bearer (o_data o) b in
  exists d', match r_session r with Some f => f d | None => Ok d end = Ok d' /\ session_ok d' /\ es_esm d' = true /\
    ebi (defaultBearer d') = ebi b /\ bc_state (defaultBearer d') = Inactive /\
    is_Ok (ePSsession_sendActivateDefaultEPSBearerCtxtReq d').

(** The stored answer. *)
Lemma parse_good u x r w : Good w -> answer_fits w u r -> w_users w !! u = Some x -> linked w u x ->
  (r_type r = GTP2_CREATE_SESSION_RSP -> x_state x = wCtxRsp) ->
  ewp (s11_parse x r) (fun _ w' => Good w' /\ w_users w' !! u = Some x /\ linked w' u x /\
    (r_type r = GTP2_CREATE_SESSION_RSP -> forall o b, w_sess w' !! x_session x = Some o -> w_brs w' !! o_bearer o = Some b ->
     is_Ok (ePSsession_sendActivateDefaultEPSBearerCtxtReq (with_bearer (o_data o) b)))) w.
Proof.
  intros G F Hu Hk Hx. destruct Hk as (o & Ho & Hl). destruct (Good_live w _ o G Ho) as (e & He & Hin).
  destruct (Good_elim e w He G) as [C B]. destruct (Core_get _ _ _ C Hin) as (o' & b & Ho' & Hb & _).
  assert (o' = o) as -> by congruence. assert (Hk : linked w u x) by (by exists o). unfold s11_parse.
  destruct (Z.eqb_spec (r_type r) GTP2_CREATE_SESSION_RSP) as [T|T].
  - destruct (F x o b Hu (Hx T) T Ho Hb) as (d & E & H1 & H2 & H3 & H4 & H5). destruct (r_session r) as [f|].
    + apply ewp_bind, (ewp_load _ o b); [done..|]. apply ewp_bind. eapply ewp_lift; [exact E|].
      apply (ewp_store _ o); [done|]. split.
      * apply (Good_intro e); [done|by apply Core_stored|by apply (Bears_stored _ _ _ _ _ b)].
      * split; [done|]. split. { exists (with_data o d). cbn. by rewrite lookup_insert_eq. }
        intros _ p c Hp Hc. cbn in Hp, Hc. rewrite lookup_insert_eq in Hp. injection Hp as <-. cbn in Hc.
        rewrite lookup_insert_eq in Hc. injection Hc as <-. by destruct d.
    + injection E as <-. apply ewp_skip. split_and!; auto. intros _ p c Hp Hc.
      assert (p = o) as -> by congruence. by assert (c = b) as -> by congruence.
  - destruct (r_session r) as [f|]; [|by apply ewp_skip].
    destruct (r_type r =? GTP2_MODIFY_BEARER_RSP); [|by apply ewp_skip].
    apply ewp_bind, (ewp_load _ o b); [done..|]. by apply ewp_skip.
Qed.

(** The end of an S11 session. *)
Lemma removed_good u x w : Good w -> w_users w !! u = Some x -> x_state x = wDel ->
  ewp (e_put (fun w => with_users w (delete u (w_users w))) ;; call_back (x_cb x)) (fun _ => Good) w.
Proof.
  intros G Hu Hs. apply ewp_bind, ewp_put. destruct (Good_core w G) as [live C].
  destruct (c_user _ _ C u x Hu) as [_ [[(o & Ho & Hl) Hc]|[Hn Hq]]].
  - destruct (Good_live w _ o G Ho) as (e & He & Hin). destruct (Good_elim e w He G) as [Ce B].
    destruct (Core_get _ _ _ Ce Hin) as (o' & b & Ho' & Hb & _ & Hesm & _). assert (o' = o) as -> by congruence.
    destruct Hc as (_ & Hd & _). rewrite (Hd Hs). apply (ewp_delete _ o b e); [done..|]. apply ewp_call_ext. intros l.
    apply Good_out, (Good_intro (deleted e (x_session x) b)); [done| |by apply (Bears_deleted _ _ _ w)].
    exact (Core_esm _ _ (Some (deleted e (x_session x) b)) (Core_remove_both _ _ _ o u x Ce Ho Hl Hu eq_refl)).
  - unfold settled in Hq. rewrite Hs in Hq. rewrite Hq. apply ewp_skip. unfold Good in *. cbn. destruct (w_esm w).
    + destruct G as [C' B]. split; [by apply (Core_user_freed _ _ _ x)|by apply (Bears_brs _ w)].
    + by apply (Core_user_freed _ _ _ x).
Qed.

Lemma s11_good u r w : Good w -> answer_fits w u r -> ewp (s11_message u r) (fun _ => Good) w.
Proof.
  intros G F. apply ewp_bind, ewp_get. destruct (w_users w !! u) as [x|] eqn:Hu; [|by apply ewp_skip].
  destruct (fsm_response (x_state x) (r_type r)) as [st|] eqn:R; [|by apply ewp_skip].
  destruct (Good_core w G) as [live C]. destruct (decide (x_state x = wDel)) as [Hd|Hd].
  - assert (T : r_type r = GTP2_DELETE_SESSION_RSP).
    { rewrite Hd in R. unfold fsm_response in R. by destruct (Z.eqb_spec (r_type r) GTP2_DELETE_SESSION_RSP). }
    apply ewp_bind. unfold s11_parse. rewrite T. eapply (ewp_mono _ (fun _ w' => w' = w)).
    { destruct (r_session r); by apply ewp_skip. }
    intros [] w' ->. cbn [Z.eqb GTP2_DELETE_SESSION_RSP GTP2_MODIFY_BEARER_RSP andb]. rewrite bool_decide_eq_true_2 by done.
    by apply removed_good.
  - assert (Hk : linked w u x /\ cb_ok x /\ (st = ulCtx \/ st = ctx) /\ (r_type r = GTP2_CREATE_SESSION_RSP <-> x_state x = wCtxRsp) /\
      (x_state x = wCtxRsp \/ x_state x = wModBearerRsp)).
    { destruct (c_user _ _ C u x Hu) as [_ D]. unfold settled, fsm_response in *.
      destruct (x_state x); try done; destruct D as [[D1 D2]|[_ []]]; (split; [done|]; split; [done|]).
      - destruct (Z.eqb_spec (r_type r) GTP2_CREATE_SESSION_RSP); [|done]. injection R as <-. tauto.
      - destruct (Z.eqb_spec (r_type r) GTP2_MODIFY_BEARER_RSP) as [->|].
        + injection R as <-. split; [by right|]. split; [done|by right].
        + destruct (Z.eqb_spec (r_type r) GTP2_RELEASE_ACCESS_BEARERS_RSP) as [->|]; [|done]. injection R as <-.
          split; [by left|]. split; [done|by right]. }
    destruct Hk as (Hk & (Hc1 & Hc2 & Hc3) & Hst & Ht & Hx). apply ewp_bind.
    eapply ewp_mono; [apply (parse_good u x r w); [done..|apply Ht]|]. intros [] w' (G' & Hu' & Hk' & Hsend).
    destruct ((r_type r =? GTP2_MODIFY_BEARER_RSP) && negb (r_wellformed r)); [by apply ewp_skip|].
    rewrite bool_decide_eq_false_2 by done. set (x' := {| x_state := st; x_session := x_session x; x_cb := x_cb x |}).
    assert (Hc' : cb_ok x'). { split; [done|]. cbn. destruct Hst as [-> | ->]; done. }
    assert (Hq' : settled x') by (unfold settled; cbn; destruct Hst as [-> | ->]; done).
    apply ewp_bind, ewp_put. apply (callback_good u x'); [|cbn; apply lookup_insert_eq|done|done|done|cbn; destruct Hst as [-> | ->]; done|].
    + by apply (Good_user u x).
    + cbn. intros s Es o b Ho Hb. destruct Hx as [Hx|Hx]; [|by destruct (Hc3 Hx s)].
      rewrite Es in Hc1. subst s. by apply Hsend; [apply Ht|..].
Qed.

(** ** Runs *)

(** The event is none of the known situations: what the terminal sent was decoded,
    an ESM Information Response comes for a session that waits for it, a session
    is changed, released or detached when it has an S11 session, not while it is
    deleted (changed, released), and the management is not stopped during an
    exchange with the gateway; the gateway's answer fits. *)
Definition calm (w : world) (ev : esm_event) : Prop :=
  match ev with
  | Ev_s11 u r => answer_fits w u r
  | _ => exists e, w_esm w = Some e /\
    match ev with
    | Ev_msg _ _ _ m => decoded m /\
        (is_info_response m -> exists s o, first_session e = Some s /\ w_sess w !! s = Some o /\ o_s11 o = None)
    | Ev_modifyE_RAB _ teid addr len _ => length teid = 4%nat /\ (len = 32 -> (4 <= length addr)%nat) /\
        forall s, first_session e = Some s -> ready w s not_deleting
    | Ev_release _ => forall s, first_session e = Some s -> ready w s not_deleting
    | Ev_detach _ => forall s, first_session e = Some s -> ready w s (fun _ => True)
    | Ev_errorEMM => forall s, s ∈ esm_sessions e -> ready w s idle
    | _ => forall s x, s ∈ esm_sessions e -> session_user w s = Some x -> idle (x_state x) /\ x_state x <> wDel
    end
  end.
Fixpoint calm_run (es : list esm_event) (w : world) : Prop :=
  match es with
  | [] => True
  | ev :: es => calm w ev /\ forall w', esm_run1 ev w = Ok (tt, w') -> calm_run es w'
  end.

Lemma step_good ev w : Good w -> calm w ev -> ewp (esm_run1 ev) (fun _ => Good) w.
Proof.
  intros G. destruct ev; cbn [calm esm_run1].
  - intros (e & He & Hd & Hi). by apply (msg_good _ _ _ _ e).
  - intros (e & He & H1 & H2 & H3). by apply (modify_good _ _ _ _ _ e).
  - intros (e & He & H). by apply (release_good _ e).
  - intros (e & He & H). by apply (detach_good _ e).
  - intros (e & He & H). by apply (error_good e).
  - intros (e & He & H). by apply (free_good e).
  - by apply s11_good.
Qed.

Lemma init_good : Good init_world.
Proof.
  split; [|by intros k p]. constructor; cbn; try done.
  - constructor.
  - intros s. rewrite lookup_empty. split; [by intros ?%not_elem_of_nil|by intros []].
Qed.

(** What the tables and the objects have to do with each other. *)
Definition esm_tables_agree (w : world) : Prop := forall e, w_esm w = Some e ->
  NoDup (esm_sessions e) /\ (forall s, s ∈ esm_sessions e <-> is_Some (w_sess w !! s)) /\
  (forall s o u, w_sess w !! s = Some o -> o_s11 o = Some u -> exists x, w_users w !! u = Some x /\ x_session x = s) /\
  (forall k p, esm_bearers e !! k = Some p -> exists b, w_brs w !! p.2 = Some b /\ ebi_key b = k).

Lemma Good_tables w : Good w -> esm_tables_agree w.
Proof.
  intros G e He. destruct (Good_elim e w He G) as [C B]. split_and!; [apply C..| |].
  - intros s o u Ho. apply (c_sess _ _ C s o Ho).
  - intros k p Hp. by apply B.
Qed.

Lemma esm_run_cons ev es w w' : esm_run1 ev w = Ok (tt, w') -> esm_run (ev :: es) w = esm_run es w'.
Proof. intros E. change (esm_run (ev :: es)) with (esm_run1 ev ;; esm_run es). unfold mbind, EW_bind. by rewrite E. Qed.

(** C9: the session management uses no freed object and no null pointer, and does
    not abort, in any run of messages of the terminal, requests of the layers
    below and answers of the gateway that avoids the known situations ([calm]);
    the table of the sessions is then exactly the sessions that are there, the
    S11 session of each is there and belongs to it, and a bearer is found under
    its number. *)
Theorem esm_safe es : calm_run es init_world -> exists w, esm_run es init_world = Ok (tt, w) /\ esm_tables_agree w.
Proof.
  enough (H : forall w, Good w -> calm_run es w -> exists w', esm_run es w = Ok (tt, w') /\ Good w').
  { intros Hc. destruct (H _ init_good Hc) as (w & E & G). exists w. split; [done|]. by apply Good_tables. }
  induction es as [|ev es IH]; intros w G Hc; [by exists w|]. destruct Hc as [H1 H2].
  destruct (ewp_run _ _ _ (step_good ev w G H1)) as ([] & w1 & E & G1).
  destruct (IH w1 G1 (H2 w1 E)) as (w2 & E2 & G2). exists w2. split; [|done].
  by rewrite (esm_run_cons _ _ _ w1).
Qed.

(** ** Detach *)

Lemma ignored_run u x rs w : w_users w !! u = Some x -> x_state x = wDel ->
  Forall (fun r => r_type r <> GTP2_DELETE_SESSION_RSP) rs -> esm_run (map (Ev_s11 u) rs) w = Ok (tt, w).
Proof.
  intros Hu Hx. induction 1 as [|r rs Hr _ IH]; [done|]. cbn [map esm_run esm_run1]. unfold mbind, EW_bind, s11_message, e_get.
  cbn. unfold mbind, EW_bind. cbn. rewrite Hu, Hx. unfold fsm_response. apply Z.eqb_neq in Hr. rewrite Hr. exact IH.
Qed.

Lemma esm_run_app es es' w w' : esm_run es w = Ok (tt, w') -> esm_run (es ++ es') w = esm_run es' w'.
Proof.
  revert w. induction es as [|ev es IH]; intros w E; [by injection E as ->|].
  cbn [app esm_run] in *. unfold mbind, EW_bind in *. destruct (esm_run1 ev w) as [[[] w1]|]; [|done]. by apply IH.
Qed.

(** C10: a detach of a terminal with one session, whose S11 session is idle (in the
    state ulCtx or ctx), asks the gateway to delete it, waits for its confirmation
    whatever else the gateway sends, and then calls the mobility management back
    once, with the session, its S11 session and the entry of its bearer gone and
    the numbering of bearers started again. *)
Theorem esm_detach_completes e s o b u x k rs r w : Good w -> w_esm w = Some e -> esm_sessions e = [s] ->
  w_sess w !! s = Some o -> w_brs w !! o_bearer o = Some b -> o_s11 o = Some u -> w_users w !! u = Some x ->
  x_state x = ulCtx \/ x_state x = ctx ->
  Forall (fun r => r_type r <> GTP2_DELETE_SESSION_RSP) rs -> r_type r = GTP2_DELETE_SESSION_RSP ->
  exists w', esm_run (Ev_detach (Some k) :: map (Ev_s11 u) rs ++ [Ev_s11 u r]) w = Ok (tt, w') /\
    w_out w' = w_out w ++ [Out_s11 u GTP2_DELETE_SESSION_REQ; Out_callback k] /\
    w_sess w' = delete s (w_sess w) /\ w_users w' = delete u (w_users w) /\
    w_esm w' = Some {| next_ebi := 5; esm_bearers := delete (ebi_key b) (esm_bearers e); esm_sessions := []; esm_cb := Some k |}.
Proof.
  intros G He Hs Ho Hb Hl Hu Hx Hrs Hr. destruct (Good_elim e w He G) as [C B].
  destruct (c_sess _ _ C s o Ho) as (_ & _ & Hn & D). destruct (D u Hl) as (x' & Hu' & Hxs). assert (x' = x) as -> by congruence.
  assert (Hf : first_session (with_cb e (Some k)) = Some s).
  { unfold first_session. cbn. assert (P := ho_perm (esm_sessions e)). rewrite Hs in *.
    apply Permutation_singleton_r in P. by rewrite P. }
  assert (Hreq : fsm_request (x_state x) R_detach = Some (GTP2_DELETE_SESSION_REQ, wDel)) by (destruct Hx as [-> | ->]; done).
  set (w1 := after_request u x R_detach (Some (Cb_delete s)) (with_esm w (Some (with_cb e (Some k))))).
  assert (E1 : esm_run1 (Ev_detach (Some k)) w = Ok (tt, w1)).
  { enough (H : ewp (esm_detach (Some k)) (fun _ w' => w' = w1) w).
    { destruct (ewp_run _ _ _ H) as ([] & w' & E & ->). exact E. }
    apply ewp_bind, (ewp_set_esm e); [done|]. apply ewp_bind. eapply ewp_esm; [done|]. rewrite Hf.
    apply ewp_bind, (ewp_load _ o b); [done..|]. apply ewp_bind, (ewp_session_request _ o u x); [done..|]. by apply ewp_skip. }
  set (x1 := requested x R_detach (Some (Cb_delete s))).
  assert (Hu1 : w_users w1 !! u = Some x1) by (cbn; apply lookup_insert_eq).
  assert (Hx1 : x_state x1 = wDel) by (cbn; by rewrite Hreq).
  set (e1 := with_cb e (Some k)). set (w2 := with_users w1 (delete u (w_users w1))).
  set (w3 := with_out (with_sess (with_esm w2 (Some (deleted e1 s b))) (delete s (w_sess w2))) (w_out w2 ++ [Out_callback k])).
  assert (E3 : esm_run1 (Ev_s11 u r) w1 = Ok (tt, w3)).
  { enough (H : ewp (s11_message u r) (fun _ w' => w' = w3) w1).
    { destruct (ewp_run _ _ _ H) as ([] & w' & E & ->). exact E. }
    apply ewp_bind, ewp_get. rewrite Hu1, Hx1. unfold fsm_response. rewrite Hr. rewrite Z.eqb_refl. apply ewp_bind.
    unfold s11_parse. rewrite Hr. eapply (ewp_mono _ (fun _ w' => w' = w1)). { destruct (r_session r); by apply ewp_skip. }
    intros [] w' ->. change (GTP2_DELETE_SESSION_RSP =? GTP2_MODIFY_BEARER_RSP) with false. cbn [andb].
    rewrite bool_decide_eq_true_2 by done. apply ewp_bind, ewp_put. cbn [x1 requested x_cb call_back].
    apply (ewp_delete _ o b e1); [done..|]. by apply ewp_emit. }
  exists w3. split.
  - rewrite (esm_run_cons _ _ w w1) by done. rewrite (esm_run_app _ _ w1 w1) by (by apply (ignored_run u x1)).
    by rewrite (esm_run_cons _ _ w1 w3).
  - split; [cbn; rewrite Hreq; cbn; by rewrite <- app_assoc|]. split; [done|]. split; [cbn; apply delete_insert_eq|].
    change (w_esm w3) with (Some (deleted e1 s b)). unfold deleted, e1. cbn [esm_bearers esm_sessions esm_cb with_cb].
    rewrite Hs. cbn. by rewrite Nat.eqb_refl.
Qed.
End Safe.

(** ** A life of a session, and the known situations *)

Definition insertion_order : HashOrder := {| ho_values := fun l => l; ho_perm := fun l => Permutation_refl l |}.

Definition sample_esm (type : Z) (body : ESM_body) : esm_event :=
  Ev_msg sample_subs 0 0 {| gm_protocolDiscriminator := 2; gm_securityHeaderType := 0;
    gm_plain := plain_eSM {| esm_procedureTransactionIdentity := 1; esm_messageType := type; esm_body := body |} |}.
Definition sample_pdn (opts : list nAS_ie_member) : esm_event :=
  sample_esm 0xD0 (B_PDNConnectivityRequest {| PQ_requestType := 1; PQ_PDNType := 1; PQ_optionals := opts |}).
(** With the ESM information transfer flag. *)
Definition sample_pdn_flag : esm_event := sample_pdn [[0xD1]].
Definition sample_info : esm_event := sample_esm 0xDA B_ESM_Nothing.
Definition sample_rsp (type : Z) : s11_msg :=
  {| r_type := type; r_session := Some (fun d => ePSsession_setPDNAddress d [1; 10; 0; 0; 5] 5); r_wellformed := true |}.

Definition sample_life : list esm_event :=
  [ sample_pdn []; Ev_s11 2 (sample_rsp GTP2_CREATE_SESSION_RSP);
    Ev_modifyE_RAB 5 [0; 0; 0; 7] [10; 0; 0; 9] 32 (Some 1%nat); Ev_s11 2 (sample_rsp GTP2_MODIFY_BEARER_RSP);
    Ev_detach (Some 2%nat); Ev_s11 2 (sample_rsp GTP2_DELETE_SESSION_RSP) ].

Definition sample_world (n : nat) : world :=
  match @esm_run insertion_order (take n sample_life) init_world with Ok (_, w) => w | UB _ => init_world end.

Lemma sample_calm : @calm_run insertion_order sample_life init_world.
Proof.
  assert (A : forall w u r, u = 2%nat -> r = sample_rsp GTP2_CREATE_SESSION_RSP -> w = sample_world 1 -> answer_fits w u r).
  { intros w u r -> -> -> x o b Hu Hx _ Ho Hb. vm_compute in Hu. injection Hu as <-. vm_compute in Ho. injection Ho as <-.
    vm_compute in Hb. injection Hb as <-. eexists. split; [vm_compute; reflexivity|].
    split; [repeat split; vm_compute; congruence|]. do 3 (split; [reflexivity|]). eexists. vm_compute. reflexivity. }
  assert (N : forall w u r, r_type r <> GTP2_CREATE_SESSION_RSP -> answer_fits w u r) by (intros w u r H x o b _ _ T; congruence).
  cbn [calm_run sample_life]. split.
  { eexists. split; [reflexivity|]. split; [|intros (e & [= <-] & T); discriminate T]. split; [reflexivity|].
    eexists. split; [reflexivity|]. intros _. eexists. split; [reflexivity|constructor]. }
  intros w1 E1. vm_compute in E1. injection E1 as <-. split; [by apply A|].
  intros w2 E2. vm_compute in E2. injection E2 as <-. split.
  { eexists. split; [reflexivity|]. split; [reflexivity|]. split; [cbn; lia|]. intros s [= <-].
    eexists. split; [reflexivity|]. vm_compute. discriminate. }
  intros w3 E3. vm_compute in E3. injection E3 as <-. split; [apply N; discriminate|].
  intros w4 E4. vm_compute in E4. injection E4 as <-. split.
  { eexists. split; [reflexivity|]. intros s [= <-]. eexists. split; [reflexivity|done]. }
  intros w5 E5. vm_compute in E5. injection E5 as <-. split; [apply N; discriminate|]. done.
Qed.

Lemma esm_safe_witness : exists w, @esm_run insertion_order sample_life init_world = Ok (tt, w) /\ esm_tables_agree w.
Proof. exact (@esm_safe insertion_order sample_life sample_calm). Defined.

(** The terminal has an address; bearer 5, session 1, S11 session 2. *)
Definition attached_world : world := sample_world 2.

Definition attached_esm : ESM_t :=
  {| next_ebi := 6; esm_bearers := {[5 := (0, 0)%nat]}; esm_sessions := [1%nat]; esm_cb := None |}.

Lemma esm_detach_completes_witness : exists w',
  @esm_run insertion_order [Ev_detach (Some 7%nat); Ev_s11 2 (sample_rsp GTP2_MODIFY_BEARER_RSP); Ev_s11 2 (sample_rsp GTP2_DELETE_SESSION_RSP)]
    attached_world = Ok (tt, w') /\
  w_out w' = w_out attached_world ++ [Out_s11 2 GTP2_DELETE_SESSION_REQ; Out_callback 7] /\
  w_sess w' = delete 1%nat (w_sess attached_world) /\ w_users w' = delete 2%nat (w_users attached_world) /\
  w_esm w' = Some {| next_ebi := 5; esm_bearers := delete (ebi_key (esm_bc_init 5)) (esm_bearers attached_esm);
    esm_sessions := []; esm_cb := Some 7%nat |}.
Proof.
  assert (G : Good attached_world).
  { assert (H : forall n, (n <= 2)%nat -> Good (sample_world n)); [|by apply H].
    assert (C := sample_calm). unfold sample_life in C. destruct C as [C1 C]. intros n Hn.
    pose proof (ewp_run _ _ _ (@step_good insertion_order _ _ init_good C1)) as ([] & w1 & E1 & G1).
    destruct (C w1 E1) as [C2 _].
    pose proof (ewp_run _ _ _ (@step_good insertion_order _ _ G1 C2)) as ([] & w2 & E2 & G2).
    destruct n as [|[|[|n]]]; [exact init_good| | |lia].
    - assert (sample_world 1 = w1) as ->; [|done]. unfold sample_world, sample_life. cbn [take].
      by rewrite (@esm_run_cons insertion_order _ _ _ w1).
    - assert (sample_world 2 = w2) as ->; [|done]. unfold sample_world, sample_life. cbn [take].
      by rewrite (@esm_run_cons insertion_order _ _ _ w1), (@esm_run_cons insertion_order _ _ _ w2). }
  eapply (@esm_detach_completes insertion_order attached_esm 1%nat _ (esm_bc_init 5) 2%nat _ 7%nat [sample_rsp GTP2_MODIFY_BEARER_RSP]
    (sample_rsp GTP2_DELETE_SESSION_RSP) attached_world G); try (vm_compute; reflexivity).
  - left. vm_compute. reflexivity.
  - repeat constructor. discriminate.
Defined.

(** [esm_run] in the order of insertion. *)
Abbreviation run_from_start es := (@esm_run insertion_order es init_world).

(** each known situation leads to undefined behaviour: an ESM Information
    Response without a session, or a detach before the response, uses a null
    pointer; an EMM error while the gateway's answer to the Create Session Request
    is due frees the session the answer is stored into; a release requested during
    a deletion takes the place of its callback, the session stays and refers to a
    freed S11 session; the end of the context during a deletion, or a second ESM
    Information Response, frees the session of an S11 session that still answers. *)
Theorem esm_known_faults :
  run_from_start [sample_info] = UB NullDeref /\
  run_from_start [sample_pdn_flag; Ev_detach (Some 1%nat)] = UB NullDeref /\
  run_from_start [sample_pdn_flag; Ev_errorEMM] = UB NullDeref /\
  run_from_start [sample_pdn []; Ev_errorEMM; Ev_s11 2 (sample_rsp GTP2_CREATE_SESSION_RSP)] = UB UseAfterFree /\
  run_from_start [sample_pdn []; Ev_s11 2 (sample_rsp GTP2_CREATE_SESSION_RSP); Ev_detach (Some 1%nat); Ev_release (Some 2%nat);
    Ev_s11 2 (sample_rsp GTP2_DELETE_SESSION_RSP); Ev_detach (Some 3%nat)] = UB UseAfterFree /\
  run_from_start [sample_pdn []; Ev_s11 2 (sample_rsp GTP2_CREATE_SESSION_RSP); Ev_detach (Some 1%nat); Ev_free;
    Ev_s11 2 (sample_rsp GTP2_DELETE_SESSION_RSP)] = UB UseAfterFree /\
  run_from_start [sample_pdn_flag; sample_info; sample_info; Ev_s11 3 (sample_rsp GTP2_CREATE_SESSION_RSP); Ev_detach (Some 1%nat);
    Ev_s11 3 (sample_rsp GTP2_DELETE_SESSION_RSP); Ev_s11 2 (sample_rsp GTP2_CREATE_SESSION_RSP)] = UB UseAfterFree.
Proof. vm_compute. repeat split. Qed.

(** A detach while the gateway's answer is due deletes the session without a
    Delete Session Request; a detach of a terminal with two sessions calls back
    after the first, and the numbering starts again at the bearer of the second. *)
Lemma detach_without_request :
  (fun p => (w_sess p.2 !! 1%nat, w_out p.2)) <$>
    run_from_start [sample_pdn []; Ev_detach (Some 1%nat); Ev_s11 2 (sample_rsp GTP2_CREATE_SESSION_RSP)]
  = Ok (None, [Out_s11 2 GTP2_CREATE_SESSION_REQ; Out_callback 1]) /\
  (fun p => (esm_sessions <$> w_esm p.2, w_out p.2 !! 4%nat, (ebi <$> w_brs p.2 !! 3%nat), (ebi <$> w_brs p.2 !! 7%nat))) <$>
    run_from_start [sample_pdn []; Ev_s11 2 (sample_rsp GTP2_CREATE_SESSION_RSP); sample_pdn_flag; Ev_detach (Some 1%nat);
      Ev_s11 2 (sample_rsp GTP2_DELETE_SESSION_RSP); sample_pdn_flag; sample_pdn_flag]
  = Ok (Some [4; 6; 8]%nat, Some (Out_callback 1), Some 6, Some 6).
Proof. vm_compute. split; reflexivity. Qed.

(** No message about a bearer reaches its context: the four octets at its number
    in the message end in the type of the message, those at the number of a
    bearer context in zeros. *)
Lemma bearer_messages_unmatched w e m bi next : Good w -> w_esm w = Some e -> byte_ok bi -> byte_ok next ->
  byte_ok (esm_procedureTransactionIdentity m) -> 0 < esm_messageType m < 256 ->
  esm_bearers e !! int_key [bi; esm_procedureTransactionIdentity m; esm_messageType m; next] = None.
Proof.
  intros G He H1 H2 H3 H4. destruct (Good_elim e w He G) as [C B]. apply eq_None_not_Some. intros [p Hp].
  destruct (B _ p Hp) as [_ (b & Hb & Hk)]. destruct (c_brs _ _ C _ b Hb) as [(_ & _ & _ & Hbyte) _].
  unfold ebi_key, int_key, byte_ok in *. cbn [nth] in Hk. lia.
Qed.
